(* ===== verification/_CoqProject ===== *)
-Q . S2P
Prelude.v
GoNet.v
GoURL.v
GoNum.v
GoPath.v
Policy.v
Capture.v
FetchGuard.v
Manifest.v
Bundle.v
Types.v
Authz.v
Settings.v
Manager.v
Store.v
GoTime.v
StoreNames.v
StoreQuota.v
StoreCreds.v
Digest.v
GoHTTP.v
Routes.v
ServerConfig.v
Response.v
Signed.v
Glob.v
NodeDetect.v
Collect.v
CliFlags.v
CliConfig.v
CliClient.v
CliLogs.v
CliCommands.v
CliDev.v
EnginePool.v
GuestModules.v
Service.v
Functions.v
Deploy.v
UserID.v
Tokens.v
Sessions.v
CLIAuth.v
CliLogin.v
OAuth.v
Login.v
GitHub.v
Crypto.v
DevIdP.v
InvokeSSO.v
Effective.v
Invoke.v
Serving.v
Maintenance.v
Migrations.v
BlobFs.v
Api.v
ApiWorkspaces.v
ApiMe.v
ApiFunctions.v
ApiHandler.v
ApiAuthority.v
ApiGovernance.v
ApiSettings.v
Dashboard.v
Mcp.v
McpFunctions.v
McpAuthority.v
McpTools.v
McpSessions.v
Dynamo.v
DynamoLogic.v
DynamoKeys.v
DynamoCreds.v
DynamoGrants.v
DynamoRefine.v
DynamoFunctions.v
DynamoNames.v
DynamoOrg.v
DynamoSetup.v
