(* ===== verification/Prelude.v ===== *)
(** * funcbox: a verification library

    funcbox is a server that runs small JavaScript functions for the members of an
    organization, with a CLI to deploy them. This library models its Go code under src/
    and proves what makes it correct. This file is the root: the present comment
    documents the whole development, the rest of the file is the vocabulary the others
    share (the [result] type of Go's [(T, error)] pairs, byte strings with the operations
    of Go's [strings] package, Unicode tables as a class, generic lemmas, tactics such
    as [case_step] and [bool_facts]).

    ** The program and the files that model it

    - Go's standard library, as far as the program uses it: GoNet ([net]), GoURL,
      GoHTTP ([net/url], [net/http]), GoPath, GoNum ([strconv], durations), GoTime,
      Digest (SHA-256, HMAC, hexadecimal, base64), Glob ([filepath.Match]).
    - What a function may be and reach: Policy and FetchGuard (src/policy,
      src/runtime/hooks.go, loader.go, invoke/policy.go), Manifest (src/manifest), Bundle
      (src/bundle), NodeDetect (src/runtime/nodedetect.go).
    - The control plane's data: Types, Authz, Settings (store/types.go, authz, settings).
    - The store, as one interface with two implementations. Store, StoreNames, StoreQuota,
      StoreCreds: the relational repositories (store/sqlcommon) on finite maps with their
      constraints; Migrations: its dialects and migrations. Dynamo (the service, the
      helpers), DynamoKeys, DynamoCreds, DynamoFunctions, DynamoOrg: the repositories of
      store/dynamodb as programs of single calls; DynamoLogic, DynamoGrants,
      DynamoRefine, DynamoNames, DynamoSetup: what holds when clients interleave call
      by call, and a refinement of the relational repository.
    - Bundles at rest: BlobFs (blob/blob.go, blob/fs), Maintenance (gc.go, cleanup.go),
      Crypto (internal/crypto: the keys of the server, function variables).
    - Deploying: Service, Functions, Deploy (internal/service).
    - Authentication: Tokens, Signed, Sessions, CLIAuth, OAuth, UserID, Login, GitHub,
      InvokeSSO, DevIdP (internal/auth, internal/oauth).
    - Invoking: Effective, Invoke, Serving, Response, Capture (internal/invoke), Manager
      (src/runtime/manager.go), EnginePool and GuestModules (src/runtime/enginepool).
    - The server's surfaces: ServerConfig (internal/config), Routes (internal/server), Api,
      ApiWorkspaces, ApiMe, ApiFunctions, ApiHandler (internal/api) with ApiAuthority,
      ApiGovernance and ApiSettings on what they keep, Dashboard (internal/dashboard),
      Mcp, McpFunctions, McpSessions (internal/mcpserver) with McpAuthority and McpTools.
    - The CLI: CliFlags, CliConfig, CliClient, CliLogs, CliCommands, CliDev, CliLogin and
      Collect (src/internal/cli).

    A request enters through Routes, which hands it to Api, Mcp, Dashboard, OAuth, Login
    or Invoke; these authenticate it with Sessions and Tokens, decide with Authz and
    Settings, and act through Service and the store. Invoke takes a function's active
    version from the store and its bundle from the blob store, builds a pool through
    Manager, whose pools EnginePool looks into, and writes through Response. State that a handler
    changes is the [World] of Store: the tables, the blobs, the clock, the random
    identifiers and a schedule of faults, one for each statement of the backend; a
    handler is a program of the monad [M] over it. Code that runs beside other code
    (Manager, EnginePool, GuestModules, BlobFs, CliDev, McpSessions, the Dynamo files, the
    creations of StoreQuota) is a step relation, or programs or transactions whose calls
    interleave, with invariants proved by rule induction.

    ** What the theorems show

    - Confinement of guest code: the effective fetch policy is the intersection of its
      levels; a connection is made only where it and the address guard permit; a module
      comes from the bundle; an invocation runs for a caller the visibility admits; the
      requests on one instance are kept apart.
    - Authority: every route of the management API and every MCP tool changes the tables
      only within the authority of the acting user, on every error path; deploying writes
      nothing without it; the organization keeps an administrator, when requests do not
      overlap (and counterexamples where they do).
    - Credentials: tokens, cookies, codes and refresh secrets are bound to what they were
      issued for, are spent at most once, and revoke what they must on replay.
    - The stores: names are claimed once for ever; the quota holds however the
      transactions of creations overlap, on PostgreSQL by its advisory lock; the DynamoDB
      grants implement the relational ones, for one client and calls that do not fail;
      blobs change at once whatever fails, and what a crash may take back of them is
      exactly what was not synced; migrations resume.
    - Where the code keeps less than one would wish, the theorem states what holds and an
      example shows the rest: the landing page on a function's host, redirects that carry
      a token, a blob in a directory that was never synced, an older refresh secret, a
      login whose settings could not be read.
    - Functional correctness: parsing, typing and validation of manifests, unpacking of
      bundles, what a deployment serves, garbage collection, the commands of the CLI, and
      the compositions of the CLI with the server (uploading, logging in).
    - Termination and liveness: the loops that run on fuel end with enough of it, a login
      hand-over between hosts ends at the function.

    ** Fuel and bounds

    Recursion that is not structural takes fuel, and a theorem or lemma says how much is
    enough: the length of the text for the scanners (runes, flags, patterns), the length
    of the search for identifiers ([DeriveUserID], which is exactly when the unbounded
    loop of the code returns), the depth of nested directories for the walk over a
    project, which is shown to end on every file system though links may form cycles, pages of a scan and
    chunks of a batch by their number of items, SHA-256 by its words, HKDF by its blocks.
    Integers are in [Z] with the width written where the code can overflow (durations,
    sizes, [Atoi]), and identifiers that pass through a float64 are bounded by 2^53.

    ** Parameters

    Code that is not under src/ is a class or an argument, with documented behaviour as
    its laws: [UnicodeTables], [FloatToInt], [YamlDecoder], [ArchiveCodec] (tar and gzip),
    [JsonText], [JsonStream], [JsonAny], [JsonStrings], [MultipartReader], [FileSystem],
    [IdGen] (identifiers, random bytes and the name of the database's dialect), [Idna]
    (the encoding of host names), [Cipher] (discharged by Crypto over [Gcm]), the
    JavaScript engine and what
    guests do, the verifier of provider tokens, GitHub's answers, the public suffix
    list, the dashboard app, the MCP library, the DynamoDB service by its documented
    semantics, a database's reaction to SQL text, the network, clock and wait of the
    CLI, a browser's requests to its listener, the order of Go's maps, local time zones.
    Each class has a concrete instance with which the witnesses evaluate.

    ** Not modelled

    The engine (a library) and its web and Node shims; HTML pages and their texts, but
    for the values they carry; Prometheus metrics; the OAuth discovery documents; the
    rate limiter, a token bucket on floating-point time; the blob stores on S3 and GCS and
    the drivers of databases, which are calls of client libraries; the wiring of main
    programs, signals and listeners; tests, examples, SQL files. Handlers are atomic for
    each statement of the store, not below it; the relational store's transactions are
    taken to be isolated, but for creations of functions, whose statements StoreQuota
    interleaves. Of net/http the model has what decides the properties: header maps,
    cookies, the commitment of a response and the writes it refuses, and redirects. *)

From Stdlib Require Export ZArith Lia Bool Ascii String List.
From stdpp Require Export base option list gmap strings fin_maps.

Export ListNotations.
#[global] Open Scope string_scope.
#[global] Open Scope stdpp_scope.
#[global] Open Scope list_scope.
#[global] Open Scope Z_scope.
#[global] Set Default Goal Selector "!".

#[global] Arguments String.append !_ _ : simpl nomatch.

(** ** Fallible computations *)

(** Go's [(T, error)] with the invariant every function of the program keeps:
    exactly one of the two is meaningful. *)
Inductive result (E A : Type) : Type :=
| Ok (a : A)
| Err (e : E).
Arguments Ok {E A} a.
Arguments Err {E A} e.

Definition rbind {E A B : Type} (m : result E A) (k : A -> result E B) : result E B :=
  match m with
  | Ok a => k a
  | Err e => Err e
  end.

Definition is_ok {E A : Type} (m : result E A) : bool :=
  match m with Ok _ => true | Err _ => false end.

Definition map_err {E F A : Type} (f : E -> F) (m : result E A) : result F A :=
  match m with Ok a => Ok a | Err e => Err (f e) end.

Declare Scope go_scope.
Delimit Scope go_scope with go.
Notation "'let!' x ':=' m 'in' k" := (rbind m (fun x => k))
  (at level 10, x pattern, m at level 100, k at level 200) : go_scope.
Notation "'guard!' b 'else' e 'in' k" := (if b then k else Err e)
  (at level 10, b at level 100, e at level 100, k at level 200) : go_scope.
(** Byte-string equality, Go's [==] on strings. *)
Notation "s '==' t" := (String.eqb s t) (at level 70, no associativity) : go_scope.
#[global] Open Scope go_scope.

Lemma rbind_ok {E A B} (m : result E A) (k : A -> result E B) b :
  rbind m k = Ok b <-> exists a, m = Ok a /\ k a = Ok b.
Proof.
  destruct m; simpl; split; intros H; eauto; [|discriminate|];
    destruct H as (? & ? & ?); congruence.
Qed.

(** Case analysis on the outermost decision of a hypothesis [H : body = Ok _]
    or [H : body = Some _]: every failing branch is closed. *)
Ltac case_step H :=
  match type of H with
  | context [match ?x with _ => _ end] =>
      lazymatch x with
      | context [match _ with _ => _ end] => fail
      | _ => let E := fresh "E" in destruct x eqn:E; try discriminate H
      end
  end.
Ltac case_all H := repeat (cbn [rbind] in H; case_step H).

Ltac case_goal :=
  match goal with
  | |- context [match ?x with _ => _ end] =>
      lazymatch x with
      | context [match _ with _ => _ end] => fail
      | _ => let E := fresh "E" in destruct x eqn:E
      end
  end.

(** Comparisons and connectives computed by boolean functions, as facts. *)
Ltac bool_facts :=
  repeat match goal with
  | H : _ && _ = true |- _ => apply andb_true_iff in H as [? ?]
  | H : _ || _ = false |- _ => apply orb_false_iff in H as [? ?]
  | H : _ || _ = true |- _ => apply orb_true_iff in H
  | H : _ && _ = false |- _ => apply andb_false_iff in H
  | H : negb _ = true |- _ => apply negb_true_iff in H
  | H : negb _ = false |- _ => apply negb_false_iff in H
  | H : (_ <? _) = true |- _ => apply Z.ltb_lt in H
  | H : (_ <? _) = false |- _ => apply Z.ltb_ge in H
  | H : (_ <=? _) = true |- _ => apply Z.leb_le in H
  | H : (_ <=? _) = false |- _ => apply Z.leb_gt in H
  | H : (_ =? _) = true |- _ => apply Z.eqb_eq in H
  | H : (_ =? _) = false |- _ => apply Z.eqb_neq in H
  | H : (_ <? _)%nat = true |- _ => apply Nat.ltb_lt in H
  | H : (_ <? _)%nat = false |- _ => apply Nat.ltb_ge in H
  | H : (_ <=? _)%nat = true |- _ => apply Nat.leb_le in H
  | H : (_ <=? _)%nat = false |- _ => apply Nat.leb_gt in H
  | H : (_ =? _)%nat = true |- _ => apply Nat.eqb_eq in H
  | H : (_ =? _)%nat = false |- _ => apply Nat.eqb_neq in H
  | H : String.eqb _ _ = true |- _ => apply String.eqb_eq in H
  | H : String.eqb _ _ = false |- _ => apply String.eqb_neq in H
  | H : bool_decide _ = true |- _ => apply bool_decide_eq_true in H
  | H : bool_decide _ = false |- _ => apply bool_decide_eq_false in H
  end.

Ltac bool_lia :=
  bool_facts;
  rewrite ?andb_true_iff, ?orb_true_iff, ?negb_true_iff, ?andb_false_iff, ?orb_false_iff,
    ?negb_false_iff, ?Z.ltb_lt, ?Z.leb_le, ?Z.eqb_eq, ?Z.ltb_ge, ?Z.leb_gt, ?Z.eqb_neq,
    ?Nat.ltb_lt, ?Nat.leb_le, ?Nat.eqb_eq, ?Nat.ltb_ge, ?Nat.leb_gt, ?Nat.eqb_neq;
  repeat match goal with H : _ \/ _ |- _ => destruct H; bool_facts end;
  lia.

(** ** Byte strings

    A Go string is a sequence of bytes; [String.string] is one too. *)


Definition byte_val (c : ascii) : Z := Z.of_nat (nat_of_ascii c).

Fixpoint str_forallb (f : ascii -> bool) (s : string) : bool :=
  match s with
  | EmptyString => true
  | String c r => f c && str_forallb f r
  end.

Definition str_existsb (f : ascii -> bool) (s : string) : bool :=
  negb (str_forallb (fun c => negb (f c)) s).

Fixpoint str_map (f : ascii -> ascii) (s : string) : string :=
  match s with
  | EmptyString => EmptyString
  | String c r => String (f c) (str_map f r)
  end.

Fixpoint str_filter (f : ascii -> bool) (s : string) : string :=
  match s with
  | EmptyString => EmptyString
  | String c r => if f c then String c (str_filter f r) else str_filter f r
  end.

(** [s[n:]] and [s[:n]] for an [n] within the bounds. *)
Fixpoint str_drop (n : nat) (s : string) : string :=
  match n, s with
  | S m, String _ r => str_drop m r
  | _, _ => s
  end.

Fixpoint str_take (n : nat) (s : string) : string :=
  match n, s with
  | S m, String c r => String c (str_take m r)
  | _, _ => EmptyString
  end.

(** [len(s)] as a Go int. *)
Definition str_len (s : string) : Z := Z.of_nat (String.length s).

Fixpoint str_rev_app (s acc : string) : string :=
  match s with
  | EmptyString => acc
  | String c r => str_rev_app r (String c acc)
  end.
Definition str_rev (s : string) : string := str_rev_app s "".

(** [strings.HasPrefix], [HasSuffix], [TrimPrefix], [TrimSuffix]. *)
Definition has_prefix (s p : string) : bool := String.prefix p s.
Definition has_suffix (s p : string) : bool :=
  (String.length p <=? String.length s)%nat
  && (str_drop (String.length s - String.length p) s == p).
Definition trim_prefix (s p : string) : string :=
  if has_prefix s p then str_drop (String.length p) s else s.
Definition trim_suffix (s p : string) : string :=
  if has_suffix s p then str_take (String.length s - String.length p) s else s.

(** [strings.Contains]. *)
Fixpoint str_contains (s sub : string) : bool :=
  String.prefix sub s ||
  match s with
  | EmptyString => false
  | String _ r => str_contains r sub
  end.

(** [strings.IndexByte]: [None] is Go's -1. *)
Fixpoint index_byte (s : string) (c : ascii) : option nat :=
  match s with
  | EmptyString => None
  | String d r => if (d =? c)%char then Some O else option_map S (index_byte r c)
  end.

Fixpoint last_index_byte (s : string) (c : ascii) : option nat :=
  match s with
  | EmptyString => None
  | String d r =>
      match last_index_byte r c with
      | Some n => Some (S n)
      | None => if (d =? c)%char then Some O else None
      end
  end.

Definition contains_byte (s : string) (c : ascii) : bool :=
  match index_byte s c with Some _ => true | None => false end.

(** [strings.Split(s, sep)] for a one-byte separator. *)
Fixpoint split_byte (s : string) (c : ascii) : list string :=
  match s with
  | EmptyString => [""]
  | String d r =>
      if (d =? c)%char then "" :: split_byte r c
      else match split_byte r c with
           | x :: xs => String d x :: xs
           | [] => [String d ""]
           end
  end.

(** [strings.Cut(s, sep)] for a one-byte separator. *)
Definition cut_byte (s : string) (c : ascii) : string * string * bool :=
  match index_byte s c with
  | Some n => (str_take n s, str_drop (S n) s, true)
  | None => (s, "", false)
  end.

Fixpoint join_with (sep : string) (l : list string) : string :=
  match l with
  | [] => ""
  | [x] => x
  | x :: xs => (x ++ sep ++ join_with sep xs)%string
  end.

(** ** Character classes *)

Definition in_range (lo hi : ascii) (c : ascii) : bool :=
  (byte_val lo <=? byte_val c) && (byte_val c <=? byte_val hi).
Definition is_digit (c : ascii) : bool := in_range "0" "9" c.
Definition is_lower (c : ascii) : bool := in_range "a" "z" c.
Definition is_upper (c : ascii) : bool := in_range "A" "Z" c.
Definition is_alnum (c : ascii) : bool := is_digit c || is_lower c || is_upper c.
Definition is_lower_alnum (c : ascii) : bool := is_digit c || is_lower c.

Definition byte_lower (c : ascii) : ascii :=
  if is_upper c then ascii_of_nat (nat_of_ascii c + 32) else c.

Definition is_ascii (s : string) : bool := str_forallb (fun c => byte_val c <? 128) s.

(** The Unicode tables behind [strings.ToLower], [TrimSpace] and [EqualFold].
    On ASCII text the operations are defined below; only their behaviour on
    text with a byte of 128 or more comes from the tables. *)
Class UnicodeTables := {
  uni_lower : string -> string;
  uni_trim_space : string -> string;
  uni_equal_fold : string -> string -> bool;
  uni_lower_no_upper s : str_forallb (fun c => negb (is_upper c)) (uni_lower s) = true
}.

Definition is_space (c : ascii) : bool :=
  let v := byte_val c in (v =? 32) || ((9 <=? v) && (v <=? 13)).

Fixpoint trim_left_func (f : ascii -> bool) (s : string) : string :=
  match s with
  | String c r => if f c then trim_left_func f r else s
  | EmptyString => s
  end.
Definition trim_right_func (f : ascii -> bool) (s : string) : string :=
  str_rev (trim_left_func f (str_rev s)).

Lemma byte_lower_not_upper c : is_upper (byte_lower c) = false.
Proof. destruct c as [[] [] [] [] [] [] [] []]; reflexivity. Qed.

Lemma lower_no_upper s :
  str_forallb (fun c => negb (is_upper c)) (str_map byte_lower s) = true.
Proof.
  induction s as [|c s IH]; simpl; [done|].
  by rewrite byte_lower_not_upper.
Qed.

(** Tables for an ASCII-only world: used to evaluate witnesses. *)
#[export] Instance ascii_tables : UnicodeTables := {|
  uni_lower := str_map byte_lower;
  uni_trim_space := fun s => s;
  uni_equal_fold := String.eqb;
  uni_lower_no_upper := lower_no_upper
|}.

Section GoStrings.
Context {U : UnicodeTables}.

(** [strings.ToLower]. *)
Definition to_lower (s : string) : string :=
  if is_ascii s then str_map byte_lower s else uni_lower s.

(** [strings.TrimSpace]. *)
Definition trim_space (s : string) : string :=
  if is_ascii s then trim_right_func is_space (trim_left_func is_space s)
  else uni_trim_space s.

(** [strings.EqualFold]. *)
Definition equal_fold (s t : string) : bool :=
  if is_ascii s && is_ascii t then str_map byte_lower s == str_map byte_lower t
  else uni_equal_fold s t.
End GoStrings.

(** ** Decimal integers: [strconv.Itoa] and [strconv.Atoi] *)

Definition digit_val (c : ascii) : Z := byte_val c - 48.
Definition digit_char (d : Z) : ascii := ascii_of_nat (Z.to_nat (d + 48)).

Fixpoint digits_val (acc : Z) (s : string) : Z :=
  match s with
  | EmptyString => acc
  | String c r => digits_val (acc * 10 + digit_val c) r
  end.

Definition max_int64 : Z := 2 ^ 63 - 1.
Definition min_int64 : Z := - 2 ^ 63.

(** An optional leading sign. *)
Definition cut_sign (s : string) : bool * string :=
  if has_prefix s "-" then (true, str_drop 1 s)
  else if has_prefix s "+" then (false, str_drop 1 s)
  else (false, s).

(** [strconv.ParseInt(s, 10, 64)] ([Atoi] on a 64-bit platform): an optional
    sign, at least one digit, and a value that fits; anything else is an
    error. *)
Definition atoi (s : string) : option Z :=
  let '(neg, ds) := cut_sign s in
  if (ds == "") || negb (str_forallb is_digit ds) then None
  else
    let v := digits_val 0 ds in
    let v := if (neg : bool) then - v else v in
    if (min_int64 <=? v) && (v <=? max_int64) then Some v else None.

Fixpoint itoa_digits (fuel : nat) (n : Z) (acc : string) : string :=
  match fuel with
  | O => acc
  | S f =>
      let acc := String (digit_char (n mod 10)) acc in
      if n <? 10 then acc else itoa_digits f (n / 10) acc
  end.

(** [strconv.Itoa]; 20 digits are enough for a 64-bit integer. *)
Definition itoa (n : Z) : string :=
  if n <? 0 then String "-" (itoa_digits 20 (- n) "") else itoa_digits 20 n "".

(** ** Lemmas on byte strings *)

Create HintDb go discriminated.

Lemma str_app_nil_r s : (s +:+ "")%stdpp = s.
Proof. induction s as [|c s IH]; simpl; [done|by rewrite IH]. Qed.

Lemma str_app_assoc s t u : ((s +:+ t) +:+ u = s +:+ (t +:+ u))%stdpp.
Proof. induction s as [|c s IH]; simpl; [done|by rewrite IH]. Qed.

Lemma str_length_app s t :
  String.length (s +:+ t)%stdpp = (String.length s + String.length t)%nat.
Proof. induction s as [|c s IH]; simpl; [done|by rewrite IH]. Qed.

Lemma str_take_drop n s : (str_take n s +:+ str_drop n s)%stdpp = s.
Proof.
  revert s; induction n as [|n IH]; intros [|c s]; simpl; [done..|].
  by rewrite IH.
Qed.

Lemma str_take_app s t : str_take (String.length s) (s +:+ t)%stdpp = s.
Proof. induction s as [|c s IH]; simpl; [by destruct t|by rewrite IH]. Qed.

Lemma str_drop_app s t : str_drop (String.length s) (s +:+ t)%stdpp = t.
Proof. induction s as [|c s IH]; simpl; [by destruct t|done]. Qed.

Lemma str_length_take n s : String.length (str_take n s) = Nat.min n (String.length s).
Proof. revert s; induction n as [|n IH]; intros [|c s]; simpl; [done..|by rewrite IH]. Qed.

Lemma str_length_drop n s : String.length (str_drop n s) = (String.length s - n)%nat.
Proof. revert s; induction n as [|n IH]; intros [|c s]; simpl; [done..|by rewrite IH]. Qed.

Lemma str_app_inj_l s t u : (s +:+ t = s +:+ u)%stdpp -> t = u.
Proof. induction s as [|c s IH]; simpl; [done|]. intros H; injection H; auto. Qed.

Lemma str_app_inj_r s t u : (s +:+ u = t +:+ u)%stdpp -> s = t.
Proof.
  intros H. rewrite <- (str_take_app s u), <- (str_take_app t u), <- H.
  f_equal. apply (f_equal String.length) in H. rewrite !str_length_app in H. lia.
Qed.

Lemma str_forallb_app f s t :
  str_forallb f (s +:+ t)%stdpp = str_forallb f s && str_forallb f t.
Proof. induction s as [|c s IH]; simpl; [done|]. by rewrite IH, andb_assoc. Qed.

Lemma str_map_app f s t : str_map f (s +:+ t)%stdpp = (str_map f s +:+ str_map f t)%stdpp.
Proof. induction s as [|c s IH]; simpl; [done|by rewrite IH]. Qed.

Lemma str_map_length f s : String.length (str_map f s) = String.length s.
Proof. induction s as [|c s IH]; simpl; [done|by rewrite IH]. Qed.

Lemma str_forallb_impl (f g : ascii -> bool) s :
  (forall c, f c = true -> g c = true) -> str_forallb f s = true -> str_forallb g s = true.
Proof.
  intros Hfg; induction s as [|c s IH]; simpl; [done|].
  rewrite !andb_true_iff; intros [Hc Hs]; auto.
Qed.

Lemma str_forallb_take f n s : str_forallb f s = true -> str_forallb f (str_take n s) = true.
Proof.
  intros H; rewrite <- (str_take_drop n s), str_forallb_app, andb_true_iff in H. tauto.
Qed.

Lemma str_forallb_drop f n s : str_forallb f s = true -> str_forallb f (str_drop n s) = true.
Proof.
  intros H; rewrite <- (str_take_drop n s), str_forallb_app, andb_true_iff in H. tauto.
Qed.

Lemma prefix_spec p s : String.prefix p s = true <-> exists r, s = (p +:+ r)%stdpp.
Proof.
  revert s; induction p as [|c p IH]; intros [|d s]; simpl.
  - split; [by exists ""|done].
  - split; [by exists (String d s)|done].
  - split; [done|intros [? ?]; done].
  - destruct (ascii_dec c d) as [->|Hne].
    + rewrite IH; split; intros [r Hr]; exists r; congruence.
    + split; [done|]. intros [r Hr]; congruence.
Qed.

Lemma has_prefix_spec s p : has_prefix s p = true <-> exists r, s = (p +:+ r)%stdpp.
Proof. apply prefix_spec. Qed.

Lemma has_suffix_spec s p : has_suffix s p = true <-> exists r, s = (r +:+ p)%stdpp.
Proof.
  unfold has_suffix; rewrite andb_true_iff, Nat.leb_le, String.eqb_eq; split.
  - intros [Hl Hd]. exists (str_take (String.length s - String.length p) s).
    by rewrite <- Hd at 2; rewrite str_take_drop.
  - intros [r ->]. rewrite str_length_app. split; [lia|].
    replace (String.length r + String.length p - String.length p)%nat
      with (String.length r) by lia.
    apply str_drop_app.
Qed.

Lemma trim_suffix_app s p : trim_suffix (s +:+ p)%stdpp p = s.
Proof.
  unfold trim_suffix. rewrite (proj2 (has_suffix_spec _ _)) by eauto.
  rewrite str_length_app.
  replace (String.length s + String.length p - String.length p)%nat
    with (String.length s) by lia.
  apply str_take_app.
Qed.

Lemma trim_suffix_id s p : has_suffix s p = false -> trim_suffix s p = s.
Proof. by unfold trim_suffix; intros ->. Qed.

Lemma trim_prefix_app s p : trim_prefix (p +:+ s)%stdpp p = s.
Proof.
  unfold trim_prefix. rewrite (proj2 (has_prefix_spec _ _)) by eauto.
  apply str_drop_app.
Qed.

Lemma byte_lower_idem c : byte_lower (byte_lower c) = byte_lower c.
Proof. destruct c as [[] [] [] [] [] [] [] []]; reflexivity. Qed.

Lemma str_map_lower_idem s : str_map byte_lower (str_map byte_lower s) = str_map byte_lower s.
Proof. induction s as [|c s IH]; simpl; [done|]. by rewrite byte_lower_idem, IH. Qed.

Lemma byte_lower_id c : is_upper c = false -> byte_lower c = c.
Proof. by unfold byte_lower; intros ->. Qed.

Lemma lower_id s : str_forallb (fun c => negb (is_upper c)) s = true -> str_map byte_lower s = s.
Proof.
  induction s as [|c s IH]; simpl; [done|].
  rewrite andb_true_iff, negb_true_iff; intros [Hc Hs].
  by rewrite byte_lower_id, IH.
Qed.

Lemma byte_lower_ascii c : (byte_val c <? 128) = true -> (byte_val (byte_lower c) <? 128) = true.
Proof. destruct c as [[] [] [] [] [] [] [] []]; vm_compute; congruence. Qed.

Lemma is_ascii_lower s : is_ascii s = true -> is_ascii (str_map byte_lower s) = true.
Proof.
  unfold is_ascii; induction s as [|c s IH]; simpl; [done|].
  rewrite !andb_true_iff; intros [Hc Hs]; split; [by apply byte_lower_ascii|auto].
Qed.

Lemma to_lower_no_upper {U : UnicodeTables} s :
  str_forallb (fun c => negb (is_upper c)) (to_lower s) = true.
Proof. unfold to_lower; case_goal; [apply lower_no_upper|apply uni_lower_no_upper]. Qed.

Lemma to_lower_ascii {U : UnicodeTables} s :
  is_ascii s = true -> to_lower s = str_map byte_lower s.
Proof. by unfold to_lower; intros ->. Qed.

(** Splitting at a separator and joining again is the identity, and no piece
    holds the separator. *)
Lemma split_byte_nonempty s c : split_byte s c <> [].
Proof. destruct s as [|d s]; simpl; [done|]. repeat case_goal; done. Qed.

Lemma join_split s c : join_with (String c "") (split_byte s c) = s.
Proof.
  induction s as [|d s IH]; simpl; [done|].
  destruct (d =? c)%char eqn:E.
  - apply Ascii.eqb_eq in E as ->.
    pose proof (split_byte_nonempty s c).
    destruct (split_byte s c) as [|x xs]; [done|]. simpl in *. by rewrite IH.
  - pose proof (split_byte_nonempty s c).
    destruct (split_byte s c) as [|x xs]; [done|]. simpl in *.
    destruct xs; simpl; by rewrite <- IH.
Qed.

Lemma split_byte_no_sep s c :
  Forall (fun x => str_forallb (fun d => negb (d =? c)%char) x = true) (split_byte s c).
Proof.
  induction s as [|d s IH]; simpl; [by repeat constructor|].
  destruct (d =? c)%char eqn:E; [by constructor|].
  pose proof (split_byte_nonempty s c).
  destruct (split_byte s c) as [|x xs]; [done|].
  inversion IH; subst; constructor; [|done]. simpl. by rewrite E.
Qed.

Lemma str_forallb_join f sep l :
  Forall (fun x => str_forallb f x = true) l -> str_forallb f sep = true ->
  str_forallb f (join_with sep l) = true.
Proof.
  intros Hl Hsep; induction Hl as [|x xs Hx Hxs IH]; [done|].
  destruct xs; simpl in *; [done|]. by rewrite !str_forallb_app, Hx, Hsep, IH.
Qed.

Lemma split_byte_snoc s c : split_byte (s +:+ String c "") c = split_byte s c ++ [""].
Proof.
  induction s as [|d s IH]; simpl; [by rewrite Ascii.eqb_refl|].
  rewrite IH. destruct (d =? c)%char; [done|].
  pose proof (split_byte_nonempty s c). by destruct (split_byte s c).
Qed.

Lemma has_suffix_app s t p :
  (String.length p <= String.length t)%nat -> has_suffix (s +:+ t) p = has_suffix t p.
Proof.
  intros Hl. unfold has_suffix. rewrite str_length_app.
  rewrite !(proj2 (Nat.leb_le _ _)) by lia. simpl.
  replace (String.length s + String.length t - String.length p)%nat
    with (String.length s + (String.length t - String.length p))%nat by lia.
  f_equal. induction s as [|c s IH]; simpl; [done|done].
Qed.

Lemma is_ascii_app s t : is_ascii (s +:+ t) = is_ascii s && is_ascii t.
Proof. apply str_forallb_app. Qed.

Lemma str_len_take n s : 0 <= n -> str_len (str_take (Z.to_nat n) s) = Z.min n (str_len s).
Proof. intros. unfold str_len. rewrite str_length_take. lia. Qed.

(** Text between double quotes. *)
Definition quoted (s : string) : string := (String "034" s +:+ String "034" "").

(** ** UTF-8: [utf8.RuneCountInString] *)

Definition byte_between (lo hi : Z) (s : string) (n : nat) : bool :=
  match String.get n s with
  | Some c => (lo <=? byte_val c) && (byte_val c <=? hi)
  | None => false
  end.

(** The width of the first rune; an invalid byte counts as one rune. *)
Definition rune_width (s : string) : nat :=
  match s with
  | EmptyString => 0%nat
  | String c _ =>
      let v := byte_val c in
      let cont n := byte_between 128 191 s n in
      if (194 <=? v) && (v <=? 223) then if cont 1%nat then 2%nat else 1%nat
      else if (224 <=? v) && (v <=? 239) then
        let lo := if v =? 224 then 160 else 128 in
        let hi := if v =? 237 then 159 else 191 in
        if byte_between lo hi s 1 && cont 2%nat then 3%nat else 1%nat
      else if (240 <=? v) && (v <=? 244) then
        let lo := if v =? 240 then 144 else 128 in
        let hi := if v =? 244 then 143 else 191 in
        if byte_between lo hi s 1 && cont 2%nat && cont 3%nat then 4%nat else 1%nat
      else 1%nat
  end.

Fixpoint rune_count_fuel (fuel : nat) (s : string) : Z :=
  match fuel, s with
  | S f, String _ _ => 1 + rune_count_fuel f (str_drop (rune_width s) s)
  | _, _ => 0
  end.
Definition RuneCountInString (s : string) : Z := rune_count_fuel (String.length s) s.

(** [utf8.ValidString]: no byte stands for a rune by being invalid. *)
Fixpoint valid_fuel (fuel : nat) (s : string) : bool :=
  match fuel, s with
  | S f, String c _ =>
      negb ((rune_width s =? 1)%nat && (128 <=? byte_val c)) && valid_fuel f (str_drop (rune_width s) s)
  | _, _ => true
  end.
Definition ValidString (s : string) : bool := valid_fuel (String.length s) s.

(** ** Reversal and the last byte *)

Lemma str_rev_app_spec s acc : str_rev_app s acc = str_rev s +:+ acc.
Proof.
  unfold str_rev. revert acc; induction s as [|c s IH]; intros acc; simpl; [done|].
  rewrite IH, (IH (String c "")), str_app_assoc. done.
Qed.

Lemma str_rev_cons c s : str_rev (String c s) = str_rev s +:+ String c "".
Proof. unfold str_rev at 1; simpl. apply str_rev_app_spec. Qed.

Lemma str_rev_append s t : str_rev (s +:+ t) = str_rev t +:+ str_rev s.
Proof.
  induction s as [|c s IH]; simpl; [by rewrite str_app_nil_r|].
  by rewrite !str_rev_cons, IH, str_app_assoc.
Qed.

Lemma str_rev_snoc s d : str_rev (s +:+ String d "") = String d (str_rev s).
Proof. by rewrite str_rev_append. Qed.

Lemma str_rev_rev s : str_rev (str_rev s) = s.
Proof.
  induction s as [|c s IH]; [done|].
  by rewrite str_rev_cons, str_rev_snoc, IH.
Qed.

Lemma str_snoc_inv s : s <> "" -> exists r d, s = r +:+ String d "".
Proof.
  intros Hne. destruct (str_rev s) as [|d r] eqn:E.
  - apply (f_equal str_rev) in E. rewrite str_rev_rev in E. done.
  - exists (str_rev r), d. rewrite <- (str_rev_rev s), E. apply str_rev_cons.
Qed.

(** ** Cutting at a byte *)

Lemma index_byte_app p c s :
  str_forallb (fun d => negb (d =? c)%char) p = true ->
  index_byte (p +:+ String c s) c = Some (String.length p).
Proof.
  induction p as [|d p IH]; simpl; [by rewrite Ascii.eqb_refl|]. intros H. bool_facts.
  by rewrite H, (IH H0).
Qed.

Lemma cut_byte_app p c s :
  str_forallb (fun d => negb (d =? c)%char) p = true ->
  cut_byte (p +:+ String c s) c = (p, s, true).
Proof.
  intros H. unfold cut_byte. rewrite index_byte_app by done. rewrite str_take_app. do 2 f_equal.
  induction p; simpl in *; [done|]. bool_facts. auto.
Qed.

Lemma cut_byte_found s c p r :
  cut_byte s c = (p, r, true) ->
  s = p +:+ String c r /\ str_forallb (fun d => negb (d =? c)%char) p = true.
Proof.
  unfold cut_byte. destruct (index_byte s c) as [n|] eqn:E; [|done]. intros [= <- <-].
  revert n E; induction s as [|d s IH]; intros n E; simpl in E; [done|].
  destruct (d =? c)%char eqn:Ed.
  - injection E as <-. apply Ascii.eqb_eq in Ed as ->. done.
  - destruct (index_byte s c) as [m|]; [|done]. injection E as <-.
    destruct (IH m eq_refl) as [Hs Hf]. simpl in *. rewrite Ed, Hf. split; [|done].
    f_equal. exact Hs.
Qed.

Lemma contains_byte_spec s c :
  contains_byte s c = negb (str_forallb (fun d => negb (d =? c)%char) s).
Proof.
  unfold contains_byte. induction s as [|d s IH]; simpl; [done|].
  destruct (d =? c)%char; simpl; [done|]. by destruct (index_byte s c).
Qed.

Lemma last_index_none s c :
  str_forallb (fun d => negb (d =? c)%char) s = true -> last_index_byte s c = None.
Proof. induction s as [|d s IH]; simpl; [done|]. intros H. bool_facts. by rewrite IH, H. Qed.

Lemma last_index_app p c s :
  str_forallb (fun d => negb (d =? c)%char) s = true ->
  last_index_byte (p +:+ String c s) c = Some (String.length p).
Proof.
  intros H. induction p as [|d p IH]; simpl; [by rewrite (last_index_none s), Ascii.eqb_refl|].
  by rewrite IH.
Qed.

(** The last occurrence of a byte splits the string there. *)
Lemma last_index_split s c :
  match last_index_byte s c with
  | Some i => exists p r, s = p +:+ String c r /\ String.length p = i
                          /\ str_forallb (fun d => negb (d =? c)%char) r = true
  | None => str_forallb (fun d => negb (d =? c)%char) s = true
  end.
Proof.
  induction s as [|d s IH]; simpl; [done|].
  destruct (last_index_byte s c) as [i|].
  - destruct IH as (p & r & -> & <- & Hr). by exists (String d p), r.
  - destruct (d =? c)%char eqn:E; simpl; [|done].
    apply Ascii.eqb_eq in E as ->. by exists "", s.
Qed.

Lemma str_drop_S_app p c s : str_drop (S (String.length p)) (p +:+ String c s) = s.
Proof. induction p; simpl in *; done. Qed.

(** ** Printed integers *)

Lemma digit_char_digit d : 0 <= d < 10 -> is_digit (digit_char d) = true /\ digit_val (digit_char d) = d.
Proof.
  intros H. assert (d = 0 \/ d = 1 \/ d = 2 \/ d = 3 \/ d = 4 \/ d = 5 \/ d = 6 \/ d = 7 \/ d = 8 \/ d = 9)
    as Hd by lia. by repeat (destruct Hd as [->|Hd]; [split; reflexivity|]); subst.
Qed.

Lemma digits_val_app a d e : digits_val a (d +:+ e) = digits_val (digits_val a d) e.
Proof. revert a. induction d as [|c d IH]; intros a; [done|]. apply IH. Qed.

Lemma itoa_digits_spec f : forall n acc, 0 <= n < 10 ^ Z.of_nat (S f) ->
  exists d, itoa_digits (S f) n acc = d +:+ acc /\ d <> "" /\ str_forallb is_digit d = true
  /\ digits_val 0 d = n.
Proof.
  induction f as [|f IH]; intros n acc Hn; cbn [itoa_digits];
    destruct (digit_char_digit (n mod 10)) as [Hd Hv]; try (apply Z.mod_pos_bound; lia);
    destruct (n <? 10) eqn:E; bool_facts.
  2:{ change (10 ^ Z.of_nat 1) with 10 in Hn. lia. }
  1,2: exists (String (digit_char (n mod 10)) ""); cbn [str_forallb digits_val];
       rewrite Hd, Hv, Z.mod_small by lia; split_and!; done || lia.
  destruct (IH (n / 10) (String (digit_char (n mod 10)) acc)) as (d & He & Hne & Hf & Hval).
  - rewrite Nat2Z.inj_succ, Z.pow_succ_r in Hn by lia. split; [apply Z.div_pos; lia|].
    apply Z.div_lt_upper_bound; lia.
  - change (itoa_digits (S f) (n / 10) (String (digit_char (n mod 10)) acc) = d +:+ String (digit_char (n mod 10)) acc) in He.
    cbn [itoa_digits] in He. rewrite He. exists (d +:+ String (digit_char (n mod 10)) "").
    split_and!.
    + by rewrite str_app_assoc.
    + by destruct d.
    + rewrite str_forallb_app, Hf. simpl. by rewrite Hd.
    + rewrite digits_val_app, Hval. simpl. rewrite Hv. pose proof (Z.div_mod n 10). lia.
Qed.

Lemma itoa_shape n : Z.abs n < 10 ^ 20 ->
  exists d, itoa n = (if n <? 0 then "-" else "") +:+ d /\ d <> "" /\ str_forallb is_digit d = true
  /\ digits_val 0 d = Z.abs n.
Proof.
  intros Hn. unfold itoa. destruct (n <? 0) eqn:E; bool_facts.
  - destruct (itoa_digits_spec 19 (- n) "") as (d & -> & H1 & H2 & H3); [simpl; lia|].
    exists d. rewrite str_app_nil_r. split_and!; try done. lia.
  - destruct (itoa_digits_spec 19 n "") as (d & -> & H1 & H2 & H3); [simpl; lia|].
    exists d. rewrite str_app_nil_r. split_and!; try done. lia.
Qed.

(** Integers of machine width print injectively and without other punctuation. *)
Lemma itoa_inj m n : Z.abs m < 10 ^ 20 -> Z.abs n < 10 ^ 20 -> itoa m = itoa n -> m = n.
Proof.
  intros Hm Hn H. destruct (itoa_shape m Hm) as (d & Ed & Hd1 & Hd2 & Hd3).
  destruct (itoa_shape n Hn) as (e & Ee & He1 & He2 & He3). rewrite Ed, Ee in H.
  destruct (m <? 0) eqn:Em, (n <? 0) eqn:En; bool_facts; cbn [String.append] in H.
  - injection H as ->. lia.
  - subst e. simpl in He2. discriminate.
  - subst d. simpl in Hd2. discriminate.
  - subst e. lia.
Qed.

Lemma itoa_chars n : Z.abs n < 10 ^ 20 ->
  str_forallb (fun c => is_digit c || (c =? "-")%char) (itoa n) = true.
Proof.
  intros Hn. destruct (itoa_shape n Hn) as (d & -> & _ & Hd & _). rewrite str_forallb_app.
  rewrite (str_forallb_impl is_digit _ d) by (done || intros c ->; done). by destruct (n <? 0).
Qed.
