(* ===== verification/GoNet.v ===== *)
(** * GoNet: the parts of Go's [net] package the program relies on

    [net.SplitHostPort], [net.ParseIP] and the address classification methods
    of [net.IP], as the standard library defines them. An address is its byte
    sequence: 4 or 16 bytes, [[]] for Go's nil. *)

From S2P Require Import Prelude.

(** [(&AddrError{Err: why, Addr: addr}).Error()]. *)
Definition addr_error (addr why : string) : string :=
  if addr == "" then why else ("address " +:+ addr +:+ ": " +:+ why)%stdpp.

Definition SplitHostPort (hostport : string) : result string (string * string) :=
  match last_index_byte hostport ":" with
  | None => Err (addr_error hostport "missing port in address")
  | Some i =>
      let port := str_drop (S i) hostport in
      let finish (host : string) (j k : nat) :=
        if contains_byte (str_drop j hostport) "[" then
          Err (addr_error hostport "unexpected '[' in address")
        else if contains_byte (str_drop k hostport) "]" then
          Err (addr_error hostport "unexpected ']' in address")
        else Ok (host, port) in
      if has_prefix hostport "[" then
        match index_byte hostport "]" with
        | None => Err (addr_error hostport "missing ']' in address")
        | Some e =>
            if (S e =? String.length hostport)%nat then
              Err (addr_error hostport "missing port in address")
            else if (S e =? i)%nat then
              finish (str_take (e - 1) (str_drop 1 hostport)) 1%nat (S e)
            else if has_prefix (str_drop (S e) hostport) ":" then
              Err (addr_error hostport "too many colons in address")
            else Err (addr_error hostport "missing port in address")
        end
      else
        let host := str_take i hostport in
        if contains_byte host ":" then
          Err (addr_error hostport "too many colons in address")
        else finish host 0%nat 0%nat
  end.

(** [net.JoinHostPort]. *)
Definition JoinHostPort (host port : string) : string :=
  if contains_byte host ":" || contains_byte host "%"
  then ("[" +:+ host +:+ "]:" +:+ port)%stdpp
  else (host +:+ ":" +:+ port)%stdpp.

(** ** Addresses *)

Abbreviation IP := (list Z).

Definition byte_at (ip : IP) (n : nat) : Z := nth n ip 0.

Definition v4_prefix : IP := [0;0;0;0;0;0;0;0;0;0;255;255].

(** [net.IPv4]: the 16-byte form. *)
Definition IPv4 (a b c d : Z) : IP := v4_prefix ++ [a; b; c; d].

Definition ip_eqb (x y : IP) : bool := bool_decide (x = y).

(** [ip.To4()]; [None] is nil. *)
Definition To4 (ip : IP) : option IP :=
  if (length ip =? 4)%nat then Some ip
  else if (length ip =? 16)%nat && ip_eqb (take 12 ip) v4_prefix then Some (drop 12 ip)
  else None.

(** [ip.To16()]. *)
Definition To16 (ip : IP) : option IP :=
  if (length ip =? 4)%nat then Some (v4_prefix ++ ip)
  else if (length ip =? 16)%nat then Some ip
  else None.

(** [ip.Equal]: a 4-byte address equals its 16-byte form. *)
Definition ip_equal (x y : IP) : bool :=
  match To16 x, To16 y with
  | Some a, Some b => ip_eqb a b
  | _, _ => ip_eqb x y
  end.

Definition IPv6loopback : IP := repeat 0 15 ++ [1].

Definition IsUnspecified (ip : IP) : bool :=
  ip_equal ip (IPv4 0 0 0 0) || ip_equal ip (repeat 0 16).

Definition IsLoopback (ip : IP) : bool :=
  match To4 ip with
  | Some ip4 => byte_at ip4 0 =? 127
  | None => ip_equal ip IPv6loopback
  end.

Definition IsMulticast (ip : IP) : bool :=
  match To4 ip with
  | Some ip4 => Z.land (byte_at ip4 0) 240 =? 224
  | None => (length ip =? 16)%nat && (byte_at ip 0 =? 255)
  end.

Definition IsInterfaceLocalMulticast (ip : IP) : bool :=
  (length ip =? 16)%nat && (byte_at ip 0 =? 255) && (Z.land (byte_at ip 1) 15 =? 1).

Definition IsLinkLocalMulticast (ip : IP) : bool :=
  match To4 ip with
  | Some ip4 => (byte_at ip4 0 =? 224) && (byte_at ip4 1 =? 0) && (byte_at ip4 2 =? 0)
  | None => (length ip =? 16)%nat && (byte_at ip 0 =? 255) && (Z.land (byte_at ip 1) 15 =? 2)
  end.

Definition IsLinkLocalUnicast (ip : IP) : bool :=
  match To4 ip with
  | Some ip4 => (byte_at ip4 0 =? 169) && (byte_at ip4 1 =? 254)
  | None =>
      (length ip =? 16)%nat && (byte_at ip 0 =? 254) && (Z.land (byte_at ip 1) 192 =? 128)
  end.

(** ** [net.ParseIP] *)

(** [parseIPv4Fields]: the four octets, without leading zeros. *)
Fixpoint parse_v4_fields (s : string) (val : Z) (digits : nat) (done : list Z) : option (list Z) :=
  match s with
  | EmptyString =>
      if (digits =? 0)%nat then None
      else if (length done =? 3)%nat then Some (done ++ [val]) else None
  | String c r =>
      if is_digit c then
        if (digits =? 1)%nat && (val =? 0) then None
        else
          let val := val * 10 + digit_val c in
          if 255 <? val then None else parse_v4_fields r val (S digits) done
      else if (c =? ".")%char then
        if (digits =? 0)%nat || (length done =? 3)%nat then None
        else parse_v4_fields r 0 0 (done ++ [val])
      else None
  end.

Definition hex_digit (c : ascii) : option Z :=
  if is_digit c then Some (byte_val c - 48)
  else if in_range "a" "f" c then Some (byte_val c - 87)
  else if in_range "A" "F" c then Some (byte_val c - 55)
  else None.

(** A group of hex digits: its value, its length and the rest. *)
Fixpoint hex_group (s : string) (acc : Z) (n : nat) : Z * nat * string :=
  match s with
  | String c r =>
      match hex_digit c with
      | Some d => hex_group r (acc * 16 + d) (S n)
      | None => (acc, n, s)
      end
  | EmptyString => (acc, n, s)
  end.

(** The loop of [parseIPv6] over 16-bit groups; at most eight turns. *)
Fixpoint parse_v6_groups (fuel : nat) (s : string) (bytes : list Z) (ellipsis : option nat)
    : option (list Z * option nat * string) :=
  match fuel with
  | O => Some (bytes, ellipsis, s)
  | S f =>
      let '(acc, n, rest) := hex_group s 0 0 in
      if (n =? 0)%nat || (4 <? n)%nat then None
      else if has_prefix rest "." then
        if match ellipsis with None => negb (length bytes =? 12)%nat | Some _ => false end
           || (12 <? length bytes)%nat then None
        else
          match parse_v4_fields s 0 0 [] with
          | Some v4 => Some (bytes ++ v4, ellipsis, "")
          | None => None
          end
      else
        let bytes := bytes ++ [acc / 256; acc mod 256] in
        match rest with
        | EmptyString => Some (bytes, ellipsis, "")
        | String ":" EmptyString => None
        | String ":" (String ":" r) =>
            match ellipsis with
            | Some _ => None
            | None =>
                if r == "" then Some (bytes, Some (length bytes), "")
                else parse_v6_groups f r bytes (Some (length bytes))
            end
        | String ":" r => parse_v6_groups f r bytes ellipsis
        | String _ _ => None
        end
  end.

Definition parse_v6 (s : string) : option IP :=
  let finish (p : option (list Z * option nat * string)) :=
    match p with
    | Some (bytes, ellipsis, rest) =>
        if negb (rest == "") then None
        else if (length bytes <? 16)%nat then
          match ellipsis with
          | None => None
          | Some e => Some (take e bytes ++ repeat 0 (16 - length bytes) ++ drop e bytes)
          end
        else match ellipsis with Some _ => None | None => Some bytes end
    | None => None
    end in
  match s with
  | String ":" (String ":" EmptyString) => Some (repeat 0 16)
  | String ":" (String ":" r) => finish (parse_v6_groups 8 r [] (Some O))
  | _ => finish (parse_v6_groups 8 s [] None)
  end.

(** The first of ['.'], [':'] and ['%'] decides the family. *)
Fixpoint first_ip_mark (s : string) : option ascii :=
  match s with
  | EmptyString => None
  | String c r =>
      if (c =? ".")%char || (c =? ":")%char || (c =? "%")%char then Some c else first_ip_mark r
  end.

(** [net.ParseIP]: [None] is nil; a zoned address is refused. *)
Definition ParseIP (s : string) : option IP :=
  match first_ip_mark s with
  | Some "."%char => option_map (app v4_prefix) (parse_v4_fields s 0 0 [])
  | Some ":"%char => if contains_byte s "%" then None else parse_v6 s
  | _ => None
  end.

Example parse_v4_example : ParseIP "10.0.3.7" = Some (IPv4 10 0 3 7).
Proof. reflexivity. Qed.
Example parse_v6_example : ParseIP "fe80::1.2.3.4" = Some [254;128;0;0;0;0;0;0;0;0;0;0;1;2;3;4].
Proof. reflexivity. Qed.
Example parse_ip_zero : ParseIP "01.2.3.4" = None /\ ParseIP "1::2::3" = None /\ ParseIP "::1:" = None
  /\ ParseIP "1:2:3:4:5:6:7:8" <> None /\ ParseIP "1:2:3:4:5:6:7::" <> None
  /\ ParseIP "1:2:3:4:5:6:7:8:9" = None.
Proof. repeat split; try reflexivity; discriminate. Qed.

(** ** Lemmas on the IPv4 forms *)

Lemma To4_IPv4 a b c d : To4 (IPv4 a b c d) = Some [a; b; c; d].
Proof.
  unfold To4, ip_eqb. by rewrite (bool_decide_eq_true_2 (take 12 (IPv4 a b c d) = v4_prefix)).
Qed.

Lemma ip_equal_IPv4 a b c d a' b' c' d' :
  ip_equal (IPv4 a b c d) (IPv4 a' b' c' d') = (a =? a') && (b =? b') && (c =? c') && (d =? d').
Proof.
  apply Bool.eq_true_iff_eq. rewrite !andb_true_iff, !Z.eqb_eq.
  unfold ip_equal, ip_eqb; simpl. rewrite bool_decide_eq_true.
  split; [intros H; by simplify_eq|by intros [[[-> ->] ->] ->]].
Qed.

Lemma ip_equal_4_IPv4 a b c d a' b' c' d' :
  ip_equal [a; b; c; d] (IPv4 a' b' c' d') = (a =? a') && (b =? b') && (c =? c') && (d =? d').
Proof. apply ip_equal_IPv4. Qed.

Lemma ip_equal_IPv4_zero a b c d : ip_equal (IPv4 a b c d) (repeat 0 16) = false.
Proof.
  done.
Qed.
