(* ===== verification/GoURL.v ===== *)
(** * GoURL: [net/url] parsing and query strings

    [url.Parse], [url.ParseRequestURI], [Hostname] and [Port] as the program uses
    them: scheme, authority with its user information, host checks and path
    unescaping, by the rules of the Go version the module names (1.26: brackets
    hold an IPv6 address only and a host has at most one colon). Query and
    fragment are kept as they were written. [url.ParseQuery] is as [net/http] applies it
    to a request's query (at most 10000 parameters). *)

From S2P Require Import Prelude GoNet.

Record URL := mkURL {
  u_Scheme : string;
  u_Opaque : string;
  u_User : option string;
  u_Host : string;
  u_Path : string;
  u_RawQuery : string;
  u_Fragment : string
}.

(** ** Escapes *)

Definition is_hex (c : ascii) : bool := is_digit c || in_range "a" "f" c || in_range "A" "F" c.
Definition hex_val (c : ascii) : Z :=
  if is_digit c then byte_val c - 48
  else if in_range "a" "f" c then byte_val c - 87 else byte_val c - 55.

Inductive escape_mode := EscPath | EscHost | EscZone | EscUser | EscFragment.

Definition one_of (chars : string) (c : ascii) : bool := contains_byte chars c.

(** Bytes a host may hold unescaped, besides those of 128 and more. *)
Definition host_byte (c : ascii) : bool :=
  is_alnum c || one_of "!$&'()*+,;=:[]<>-_.~" c || (c =? "034")%char.

Definition escape_ok (m : escape_mode) (h l : ascii) : bool :=
  let v := hex_val h * 16 + hex_val l in
  match m with
  | EscHost => negb ((hex_val h <? 8) && negb (v =? 37))
  | EscZone => (v =? 37) || (v =? 32) || host_byte (ascii_of_nat (Z.to_nat v))
  | _ => true
  end.

Definition plain_ok (m : escape_mode) (c : ascii) : bool :=
  match m with
  | EscHost | EscZone => (128 <=? byte_val c) || host_byte c
  | _ => true
  end.

(** [unescape]; [None] is an [EscapeError] or [InvalidHostError]. *)
Fixpoint unescape (m : escape_mode) (s : string) : option string :=
  match s with
  | EmptyString => Some EmptyString
  | String c r =>
      if (c =? "%")%char then
        match r with
        | String h (String l r) =>
            if is_hex h && is_hex l && escape_ok m h l then
              option_map (String (ascii_of_nat (Z.to_nat (hex_val h * 16 + hex_val l)))) (unescape m r)
            else None
        | _ => None
        end
      else if plain_ok m c then option_map (String c) (unescape m r) else None
  end.

(** ** The parts *)

Definition contains_ctl (s : string) : bool :=
  str_existsb (fun c => (byte_val c <? 32) || (byte_val c =? 127)) s.

(** [getScheme]: the scheme, the rest, or an error for a leading colon. *)
Fixpoint scheme_end (s : string) (i : nat) : option (option nat) :=
  match s with
  | EmptyString => Some None
  | String c r =>
      if is_lower c || is_upper c then scheme_end r (S i)
      else if is_digit c || one_of "+-." c then
        if (i =? 0)%nat then Some None else scheme_end r (S i)
      else if (c =? ":")%char then if (i =? 0)%nat then None else Some (Some i)
      else Some None
  end.

Definition getScheme (s : string) : option (string * string) :=
  match scheme_end s 0 with
  | None => None
  | Some None => Some ("", s)
  | Some (Some i) => Some (str_take i s, str_drop (S i) s)
  end.

Definition validOptionalPort (port : string) : bool :=
  match port with
  | EmptyString => true
  | String c r => (c =? ":")%char && str_forallb is_digit r
  end.

Fixpoint index_sub (s sub : string) : option nat :=
  if has_prefix s sub then Some 0%nat
  else match s with
       | EmptyString => None
       | String _ r => option_map S (index_sub r sub)
       end.

(** [netip.ParseAddr] of a bracketed literal: an IPv6 address with an optional
    zone. *)
Definition ipv6_literal (s : string) : bool :=
  match first_ip_mark s with
  | Some ":"%char =>
      let '(addr, zone, zoned) := cut_byte s "%" in
      match parse_v6 addr with Some _ => negb zoned || negb (zone == "") | None => false end
  | _ => false
  end.

Definition parseHost (host : string) : option string :=
  match last_index_byte host "[" with
  | Some o =>
      match last_index_byte host "]" with
      | None => None
      | Some i =>
          let colonPort := str_drop (S i) host in
          let name := str_drop (S o) (str_take i host) in
          let unescaped :=
            match index_sub name "%25" with
            | Some z =>
                match unescape EscHost (str_take z name), unescape EscZone (str_drop z name) with
                | Some a, Some b => Some (a +:+ b)
                | _, _ => None
                end
            | None => unescape EscHost name
            end in
          match unescaped with
          | Some n => if validOptionalPort colonPort && ipv6_literal n
                      then Some ("[" +:+ n +:+ "]" +:+ colonPort) else None
          | None => None
          end
      end
  | None =>
      match index_byte host ":" with
      | Some i => if validOptionalPort (str_drop i host) then unescape EscHost host else None
      | None => unescape EscHost host
      end
  end.

Definition validUserinfo (s : string) : bool :=
  str_forallb (fun c => is_alnum c || one_of "-._:~!$&'()*+,;=%@" c) s.

Definition parseAuthority (a : string) : option (option string * string) :=
  match last_index_byte a "@" with
  | None => option_map (fun h => (None, h)) (parseHost a)
  | Some i =>
      match parseHost (str_drop (S i) a) with
      | None => None
      | Some h =>
          let user := str_take i a in
          let '(name, pass, _) := cut_byte user ":" in
          if negb (validUserinfo user) then None
          else match unescape EscUser name, unescape EscUser pass with
               | Some _, Some _ => Some (Some user, h)
               | _, _ => None
               end
      end
  end.

Fixpoint count_byte (s : string) (c : ascii) : nat :=
  match s with
  | EmptyString => 0
  | String d r => (if (d =? c)%char then 1 else 0) + count_byte r c
  end.

(** ** Parsing *)

Section Parse.
Context {U : UnicodeTables}.

Definition parse_url (raw : string) (viaRequest : bool) : option URL :=
  if contains_ctl raw then None
  else if (raw == "") && viaRequest then None
  else if raw == "*" then Some (mkURL "" "" None "" "*" "" "")
  else
    match getScheme raw with
    | None => None
    | Some (scheme, rest) =>
        let scheme := to_lower scheme in
        let '(rest, query) :=
          if has_suffix rest "?" && (count_byte rest "?" =? 1)%nat
          then (str_take (String.length rest - 1) rest, "")
          else let '(a, b, _) := cut_byte rest "?" in (a, b) in
        if negb (has_prefix rest "/") && negb (scheme == "") then
          Some (mkURL scheme rest None "" "" query "")
        else if negb (has_prefix rest "/")
                && (viaRequest || contains_byte (fst (fst (cut_byte rest "/"))) ":") then None
        else
          let with_path user host path :=
            option_map (fun p => mkURL scheme "" user host p query "") (unescape EscPath path) in
          if (negb (scheme == "") || (negb viaRequest && negb (has_prefix rest "///")))
             && has_prefix rest "//" then
            let authority := str_drop 2 rest in
            let '(authority, path) :=
              match index_byte authority "/" with
              | Some i => (str_take i authority, str_drop i authority)
              | None => (authority, "")
              end in
            match parseAuthority authority with
            | None => None
            | Some (user, host) => with_path user host path
            end
          else with_path None "" rest
    end.

Definition url_Parse (raw : string) : option URL :=
  let '(u, frag, _) := cut_byte raw "#" in
  match parse_url u false with
  | None => None
  | Some x =>
      match unescape EscFragment frag with
      | Some f => Some (mkURL (u_Scheme x) (u_Opaque x) (u_User x) (u_Host x) (u_Path x)
                          (u_RawQuery x) f)
      | None => None
      end
  end.

Definition url_ParseRequestURI (raw : string) : option URL := parse_url raw true.

(** [splitHostPort] of the package. *)
Definition url_split_host_port (hostPort : string) : string * string :=
  let '(host, port) :=
    match last_index_byte hostPort ":" with
    | Some i => if validOptionalPort (str_drop i hostPort)
                then (str_take i hostPort, str_drop (S i) hostPort) else (hostPort, "")
    | None => (hostPort, "")
    end in
  if has_prefix host "[" && has_suffix host "]"
  then (str_take (String.length host - 2) (str_drop 1 host), port) else (host, port).
Definition url_Hostname (u : URL) : string := (url_split_host_port (u_Host u)).1.
Definition url_Port (u : URL) : string := (url_split_host_port (u_Host u)).2.
Definition url_IsAbs (u : URL) : bool := negb (u_Scheme u == "").

(** ** What a request path is *)

(** A request URI that starts with one slash has neither scheme nor host. *)
Lemma request_path_local s u :
  has_prefix s "/" = true -> url_ParseRequestURI s = Some u ->
  url_IsAbs u = false /\ u_Host u = "" /\ u_User u = None.
Proof.
  intros Hp. apply has_prefix_spec in Hp as [r ->]. unfold url_ParseRequestURI, parse_url. simpl.
  intros H. case_step H. unfold getScheme in H. simpl in H.
  match type of H with context [let '(_, _) := ?x in _] => destruct x as [rest query] end.
  change (to_lower "" == "") with true in H. change (to_lower "") with "" in H.
  destruct (has_prefix rest "/"); simpl in H; [|discriminate].
  destruct (unescape EscPath rest); [|discriminate]. injection H as <-. done.
Qed.
End Parse.

Example url_examples :
  map (fun s => match url_Parse (U := ascii_tables) s with
                | Some u => Some (u_Scheme u, url_Hostname u, url_Port u, u_Path u)
                | None => None
                end)
    ["http://127.0.0.1:80/callback"; "HTTP://[::1]:1/%63allback"; "//host:80x"; "a:b"; ":b";
     "http://a b/"; "http://u@h"]
  = [Some ("http", "127.0.0.1", "80", "/callback"); Some ("http", "::1", "1", "/callback"); None;
     Some ("a", "", "", ""); None; None; Some ("http", "h", "", "")].
Proof. vm_compute. reflexivity. Qed.

(** ** Query strings *)

(** [url.QueryUnescape]. *)
Definition QueryUnescape (s : string) : option string :=
  unescape EscPath (str_map (fun c => if (c =? "+")%char then " "%char else c) s).

Definition max_params : Z := 10000.

(** The parameters in order, and whether any part was refused. *)
Fixpoint parse_parts (parts : list string) : list (string * string) * bool :=
  match parts with
  | [] => ([], true)
  | part :: rest =>
      let '(ps, ok) := parse_parts rest in
      if contains_byte part ";" then (ps, false)
      else if part == "" then (ps, ok)
      else
        let '(k, v, _) := cut_byte part "=" in
        match QueryUnescape k, QueryUnescape v with
        | Some k, Some v => ((k, v) :: ps, ok)
        | _, _ => (ps, false)
        end
  end.

Definition ParseQuery (query : string) : list (string * string) * bool :=
  let parts := split_byte query "&" in
  if max_params <? Z.of_nat (length parts) then ([], false) else parse_parts parts.

(** [r.URL.Query().Get(k)]: what was refused is dropped. *)
Definition values_get (vs : list (string * string)) (k : string) : string :=
  match List.find (fun kv => kv.1 == k) vs with Some kv => kv.2 | None => "" end.

Definition query_get (query k : string) : string := values_get (ParseQuery query).1 k.

Example query_examples :
  ParseQuery "a=1&b=x%20y+z&&c" = ([("a", "1"); ("b", "x y z"); ("c", "")], true)
  /\ ParseQuery "a=1;b=2&c=3&d=%zz" = ([("c", "3")], false)
  /\ query_get "owner=team&owner=me" "owner" = "team".
Proof. by vm_compute. Qed.
