(* ===== verification/GoNum.v ===== *)
(** * GoNum: Go's float64 parsing and [time.Duration] text

    The parts of Go's [strconv] and [time] packages that the manifest code
    uses: [strconv.ParseFloat(s, 64)] with correct rounding, on the Standard
    Library's binary64 specification floats; [time.ParseDuration] and
    [Duration.String]. *)

From Stdlib Require Import SpecFloat.
From S2P Require Import Prelude.

Definition prec : Z := 53.
Definition emax : Z := 1024.

Definition f64_of_Z (n : Z) : spec_float := binary_normalize prec emax n 0 false.
Definition f64_mul : spec_float -> spec_float -> spec_float := SFmul prec emax.
Definition f64_div : spec_float -> spec_float -> spec_float := SFdiv prec emax.
Definition f64_lt0 (f : spec_float) : bool := SFltb f (S754_zero false).

(** [n / d] for positive integers, correctly rounded. *)
Definition f64_ratio (neg : bool) (n d : Z) : spec_float :=
  match n, d with
  | Zpos p, Zpos q =>
      let '(mz, ez, lz) := SFdiv_core_binary prec emax (Zpos p) 0 (Zpos q) 0 in
      binary_round_aux prec emax neg mz ez lz
  | _, _ => S754_zero neg
  end.

(** [m * 10^e] with a sign, correctly rounded. *)
Definition f64_of_dec (neg : bool) (m e : Z) : spec_float :=
  if m =? 0 then S754_zero neg
  else if 0 <=? e then f64_ratio neg (m * 10 ^ e) 1
  else f64_ratio neg m (10 ^ (- e)).

(** [m * 2^e] with a sign, correctly rounded. *)
Definition f64_of_bin (neg : bool) (m e : Z) : spec_float :=
  if m =? 0 then S754_zero neg
  else if 0 <=? e then f64_ratio neg (m * 2 ^ e) 1
  else f64_ratio neg m (2 ^ (- e)).

(** Truncation towards zero of a finite float. *)
Definition f64_trunc (f : spec_float) : option Z :=
  match f with
  | S754_zero _ => Some 0
  | S754_finite neg m e =>
      let v := if 0 <=? e then Zpos m * 2 ^ e else Zpos m / 2 ^ (- e) in
      Some (if neg then - v else v)
  | S754_infinity _ | S754_nan => None
  end.

(** The language leaves [int64(f)] unspecified when the value does not fit;
    the choice of the platform is a parameter. *)
Class FloatToInt := {
  int64_overflow : spec_float -> Z;
  int64_overflow_range f : min_int64 <= int64_overflow f <= max_int64
}.

#[export] Instance amd64_float_to_int : FloatToInt.
Proof. refine {| int64_overflow := fun _ => min_int64 |}. done. Defined.

Definition int64_of_float `{FloatToInt} (f : spec_float) : Z :=
  match f64_trunc f with
  | Some v => if (min_int64 <=? v) && (v <=? max_int64) then v else int64_overflow f
  | None => int64_overflow f
  end.

(** [uint64(f)] of a float that fits; [None] otherwise. *)
Definition uint64_of_float (f : spec_float) : option Z :=
  match f64_trunc f with
  | Some v => if (0 <=? v) && (v <? 2 ^ 64) then Some v else None
  | None => None
  end.

(** ** [strconv.ParseFloat]

    [readFloat]: a sign, an optional hexadecimal prefix, digits with at most
    one point, an optional exponent; underscores only between digits of a
    prefixed literal. *)

Fixpoint take_while (f : ascii -> bool) (s : string) : string * string :=
  match s with
  | String c r =>
      if f c then let '(a, b) := take_while f r in (String c a, b) else ("", s)
  | EmptyString => ("", "")
  end.

Definition hex_val (c : ascii) : Z :=
  if is_digit c then byte_val c - 48
  else if in_range "a" "f" c then byte_val c - 87
  else byte_val c - 55.
Definition is_hex (c : ascii) : bool := is_digit c || in_range "a" "f" c || in_range "A" "F" c.

Fixpoint mantissa (base : Z) (seen_dot : bool) (s : string) (acc frac : Z) (digits : bool)
    : option (Z * Z * bool) :=
  match s with
  | EmptyString => Some (acc, frac, digits)
  | String c r =>
      if (c =? "_")%char then mantissa base seen_dot r acc frac digits
      else if (c =? ".")%char then
        if seen_dot then None else mantissa base true r acc frac digits
      else mantissa base seen_dot r (acc * base + hex_val c) (if seen_dot then frac + 1 else frac) true
  end.

(** [underscoreOK] for a prefixed literal: every underscore stands between
    digits, the prefix counting as a digit. *)
Fixpoint underscores_ok (prev_digit : bool) (after_us : bool) (s : string) : bool :=
  match s with
  | EmptyString => negb after_us
  | String c r =>
      if is_hex c then underscores_ok true false r
      else if (c =? "_")%char then prev_digit && underscores_ok false true r
      else negb after_us && underscores_ok false false r
  end.

Definition lower_ascii (s : string) : string := str_map byte_lower s.

Definition parse_exponent (s : string) : option Z :=
  let '(neg, ds) := cut_sign s in
  if (ds == "") || negb (str_forallb is_digit ds) then None
  else
    (* exponents beyond 10000 saturate *)
    let v := Z.min 10000 (digits_val 0 ds) in
    Some (if (neg : bool) then - v else v).

Definition finite_or_range (f : spec_float) : option spec_float :=
  match f with S754_infinity _ => None | _ => Some f end.

(** [None] is a syntax or range error. *)
Definition ParseFloat (s : string) : option spec_float :=
  let '(neg, signed, r) :=
    match s with
    | String "-" r => (true, true, r)
    | String "+" r => (false, true, r)
    | _ => (false, false, s)
    end in
  let l := lower_ascii r in
  if (l == "inf") || (l == "infinity") then Some (S754_infinity neg)
  else if (l == "nan") && negb signed then Some S754_nan
  else if has_prefix l "0x" then
    let body := str_drop 2 l in
    let '(m, e) := take_while (fun c => is_hex c || (c =? ".")%char || (c =? "_")%char) body in
    if negb (underscores_ok true false body) then None
    else
      match mantissa 16 false m 0 0 false, e with
      | Some (v, frac, true), String "p" e =>
          match parse_exponent (str_filter (fun c => negb (c =? "_")%char) e) with
          | Some ex => finite_or_range (f64_of_bin neg v (ex - 4 * frac))
          | None => None
          end
      | _, _ => None
      end
  else
    let '(m, e) := take_while (fun c => is_digit c || (c =? ".")%char) l in
    match mantissa 10 false m 0 0 false with
    | Some (v, frac, true) =>
        match e with
        | EmptyString => finite_or_range (f64_of_dec neg v (- frac))
        | String "e" e =>
            match parse_exponent e with
            | Some ex => finite_or_range (f64_of_dec neg v (ex - frac))
            | None => None
            end
        | _ => None
        end
    | _ => None
    end.

Example parse_float_example :
  ParseFloat "1.5" = Some (f64_ratio false 3 2) /\ ParseFloat "1e" = None
  /\ ParseFloat "" = None /\ ParseFloat "." = None /\ ParseFloat "1e400" = None
  /\ ParseFloat "0.1" = Some (f64_div (f64_of_Z 1) (f64_of_Z 10))
  /\ ParseFloat "0x1p-2" = Some (f64_ratio false 1 4) /\ ParseFloat "1_0" = None.
Proof. vm_compute. done. Qed.

(** ** [time.Duration]: nanoseconds in an int64 *)

Definition Nanosecond : Z := 1.
Definition Microsecond : Z := 1000.
Definition Millisecond : Z := 1000 * 1000.
Definition Second : Z := 1000 * 1000 * 1000.
Definition Minute : Z := 60 * Second.
Definition Hour : Z := 60 * Minute.

(** The micro sign U+00B5 and the Greek letter U+03BC, in UTF-8. *)
Definition micro_sign : string := String "194" (String "181" "").
Definition greek_mu : string := String "206" (String "188" "").

Definition unit_of (u : string) : option Z :=
  if u == "ns" then Some Nanosecond
  else if (u == "us") || (u == (micro_sign +:+ "s")) || (u == (greek_mu +:+ "s")) then Some Microsecond
  else if u == "ms" then Some Millisecond
  else if u == "s" then Some Second
  else if u == "m" then Some Minute
  else if u == "h" then Some Hour
  else None.

(** [leadingInt]. *)
Fixpoint leadingInt (s : string) (x : Z) : option (Z * string) :=
  match s with
  | String c r =>
      if is_digit c then
        if 2 ^ 63 / 10 <? x then None
        else
          let x := x * 10 + digit_val c in
          if 2 ^ 63 <? x then None else leadingInt r x
      else Some (x, s)
  | EmptyString => Some (x, s)
  end.

(** [leadingFraction]: digits that no longer fit are dropped. *)
Fixpoint leadingFraction (s : string) (x : Z) (scale : spec_float) (overflow : bool)
    : Z * spec_float * string :=
  match s with
  | String c r =>
      if is_digit c then
        if overflow then leadingFraction r x scale true
        else if (2 ^ 63 - 1) / 10 <? x then leadingFraction r x scale true
        else
          let y := x * 10 + digit_val c in
          if 2 ^ 63 <? y then leadingFraction r x scale true
          else leadingFraction r y (f64_mul scale (f64_of_Z 10)) false
      else (x, scale, s)
  | EmptyString => (x, scale, s)
  end.

(** One component of a duration: its nanoseconds and the rest of the text. *)
Definition duration_part (s : string) : option (Z * string) :=
  match s with
  | EmptyString => None
  | String c _ =>
      if negb ((c =? ".")%char || is_digit c) then None
      else
        match leadingInt s 0 with
        | None => None
        | Some (v, s1) =>
            let pre := negb (String.length s =? String.length s1)%nat in
            let '(f, scale, s2, post) :=
              match s1 with
              | String "." s1 =>
                  let '(f, scale, s2) := leadingFraction s1 0 (f64_of_Z 1) false in
                  (f, scale, s2, negb (String.length s1 =? String.length s2)%nat)
              | _ => (0, f64_of_Z 1, s1, false)
              end in
            if negb pre && negb post then None
            else
              let '(u, rest) := take_while (fun c => negb ((c =? ".")%char || is_digit c)) s2 in
              if u == "" then None
              else
                match unit_of u with
                | None => None
                | Some unit =>
                    if 2 ^ 63 / unit <? v then None
                    else
                      let v := v * unit in
                      let v :=
                        if 0 <? f then
                          (* below 3.6e12: always fits *)
                          match uint64_of_float (f64_mul (f64_of_Z f) (f64_div (f64_of_Z unit) scale)) with
                          | Some w => v + w
                          | None => 2 ^ 63 + 1
                          end
                        else v in
                      if 2 ^ 63 <? v then None else Some (v, rest)
                end
        end
  end.

(** The loop of [ParseDuration]; every turn consumes input. *)
Fixpoint duration_parts (fuel : nat) (s : string) (d : Z) : option Z :=
  if s == "" then Some d
  else
    match fuel with
    | O => None
    | S fl =>
        match duration_part s with
        | None => None
        | Some (v, rest) =>
            let d := d + v in
            if 2 ^ 63 <? d then None else duration_parts fl rest d
        end
    end.

Definition ParseDuration (s : string) : option Z :=
  let '(neg, r) := cut_sign s in
  if r == "0" then Some 0
  else if r == "" then None
  else
    match duration_parts (String.length r) r 0 with
    | None => None
    | Some d =>
        if neg : bool then Some (- d)
        else if 2 ^ 63 - 1 <? d then None else Some d
    end.

(** [fmtFrac]: the fraction of [v / 10^n], without trailing zeros, and the
    integer part. *)
Fixpoint fmtFrac (n : nat) (v : Z) (print : bool) (acc : string) : string * Z * bool :=
  match n with
  | O => (acc, v, print)
  | S m =>
      let print := print || negb (v mod 10 =? 0) in
      fmtFrac m (v / 10) print (if print then String (digit_char (v mod 10)) acc else acc)
  end.

Definition with_point (p : string * Z * bool) : string * Z :=
  let '(acc, v, print) := p in (if (print : bool) then String "." acc else acc, v).

(** [Duration.String]. *)
Definition Duration_String (d : Z) : string :=
  let u := Z.abs d in
  let body :=
    if u <? Second then
      if u =? 0 then "0s"
      else if u <? Microsecond then itoa u +:+ "ns"
      else if u <? Millisecond then
        let '(fr, w) := with_point (fmtFrac 3 u false "") in itoa w +:+ fr +:+ micro_sign +:+ "s"
      else
        let '(fr, w) := with_point (fmtFrac 6 u false "") in itoa w +:+ fr +:+ "ms"
    else
      let '(fr, w) := with_point (fmtFrac 9 u false "") in
      let secs := itoa (w mod 60) +:+ fr +:+ "s" in
      let m := w / 60 in
      if 0 <? m then
        let h := m / 60 in
        if 0 <? h then itoa h +:+ "h" +:+ itoa (m mod 60) +:+ "m" +:+ secs
        else itoa (m mod 60) +:+ "m" +:+ secs
      else secs in
  if d <? 0 then String "-" body else body.

Example duration_examples :
  ParseDuration "1h30m" = Some (90 * Minute) /\ ParseDuration "1.5s" = Some 1500000000
  /\ ParseDuration "10" = None /\ ParseDuration ".5ms" = Some 500000
  /\ Duration_String 10000000000 = "10s" /\ Duration_String (90 * Minute) = "1h30m0s"
  /\ Duration_String 1500000 = "1.5ms" /\ ParseDuration "-1us" = Some (-1000).
Proof. vm_compute. done. Qed.

(** ** Lemmas *)

Lemma int64_of_float_range `{FloatToInt} f : min_int64 <= int64_of_float f <= max_int64.
Proof.
  unfold int64_of_float. repeat case_goal; try apply int64_overflow_range.
  rewrite andb_true_iff, !Z.leb_le in E0. done.
Qed.

Lemma is_digit_val c : is_digit c = true -> 0 <= digit_val c <= 9.
Proof.
  unfold is_digit, in_range, digit_val. rewrite andb_true_iff, !Z.leb_le.
  change (byte_val "0") with 48. change (byte_val "9") with 57. lia.
Qed.

Lemma leadingInt_nonneg s x v r : 0 <= x -> leadingInt s x = Some (v, r) -> 0 <= v.
Proof.
  revert x; induction s as [|c s IH]; intros x Hx; simpl; [by intros [= <- _]|].
  intros H. case_step H; [|by injection H as <- _].
  repeat case_step H. eapply IH; [|done]. pose proof (is_digit_val c E). lia.
Qed.

Lemma duration_part_nonneg s v r : duration_part s = Some (v, r) -> 0 <= v.
Proof.
  unfold duration_part. destruct s as [|c s]; [done|]. intros H.
  repeat (case_step H); simplify_eq;
    repeat match goal with
      | H : unit_of _ = Some ?u |- _ =>
          assert (0 <= u) by (unfold unit_of in H; repeat case_step H; injection H as <-; done); clear H
      | H : leadingInt _ 0 = Some _ |- _ => apply leadingInt_nonneg in H; [|done]
      | H : uint64_of_float _ = Some _ |- _ =>
          unfold uint64_of_float in H; repeat case_step H; simplify_eq
      end; try bool_lia.
Qed.

Lemma duration_parts_range fuel s a d :
  0 <= a <= 2 ^ 63 -> duration_parts fuel s a = Some d -> 0 <= d <= 2 ^ 63.
Proof.
  revert s a; induction fuel as [|fuel IH]; intros s a Ha; simpl; intros H;
    repeat case_step H; try (injection H as <-; done); simplify_eq.
  match goal with H : duration_part _ = Some _ |- _ => apply duration_part_nonneg in H end.
  eapply IH; [|done]. bool_lia.
Qed.

Lemma ParseDuration_range s d : ParseDuration s = Some d -> - 2 ^ 63 <= d <= 2 ^ 63 - 1.
Proof.
  unfold ParseDuration. intros H. case_all H; simplify_eq; try done;
  match goal with H : duration_parts _ _ _ = Some _ |- _ =>
    apply duration_parts_range in H; [|lia] end; bool_lia.
Qed.
