(* ===== verification/GoPath.v ===== *)
(** * GoPath: Go's [path.Clean]

    [path.Clean] by elements: the text is cut at slashes, empty and ["."]
    elements are dropped, [".."] removes the element before it when there is
    one, and is kept at the front of an unrooted path. *)

From S2P Require Import Prelude.

Definition is_rooted (p : string) : bool := has_prefix p "/".

(** One element met with the elements kept so far, the last one first. *)
Definition clean_step (rooted : bool) (stack : list string) (e : string) : list string :=
  if (e == "") || (e == ".") then stack
  else if e == ".." then
    match stack with
    | top :: rest => if top == ".." then (if rooted then stack else ".." :: stack) else rest
    | [] => if rooted then [] else [".."]
    end
  else e :: stack.

Definition clean_elems (rooted : bool) (l : list string) : list string :=
  fold_left (clean_step rooted) l [].

Definition path_Clean (p : string) : string :=
  let rooted := is_rooted p in
  let body := join_with "/" (rev (clean_elems rooted (split_byte p "/"))) in
  if rooted then "/" +:+ body else if body == "" then "." else body.

Example path_clean_examples :
  path_Clean "a/./b//c/../d" = "a/b/d" /\ path_Clean "../a/../../b" = "../../b"
  /\ path_Clean "" = "." /\ path_Clean "/../a/" = "/a" /\ path_Clean "a/.." = ".".
Proof. done. Qed.

(** ** Lemmas *)

Lemma split_app_sep a b c :
  split_byte (a +:+ String c b) c
  = match split_byte b c with
    | [] => []
    | _ => split_byte a c ++ split_byte b c
    end.
Proof.
  pose proof (split_byte_nonempty b c) as Hb.
  destruct (split_byte b c) as [|y ys] eqn:Eb; [done|]. clear Hb.
  induction a as [|d a IH]; simpl.
  - by rewrite Ascii.eqb_refl, Eb.
  - simpl in IH. rewrite IH. destruct (d =? c)%char; [done|].
    pose proof (split_byte_nonempty a c). by destruct (split_byte a c).
Qed.

Lemma split_no_sep s c :
  str_forallb (fun d => negb (d =? c)%char) s = true -> split_byte s c = [s].
Proof.
  induction s as [|d s IH]; simpl; [done|].
  rewrite andb_true_iff, negb_true_iff. intros [-> Hs]. by rewrite IH.
Qed.

Lemma split_join l c :
  l <> [] -> Forall (fun s => str_forallb (fun d => negb (d =? c)%char) s = true) l ->
  split_byte (join_with (String c "") l) c = l.
Proof.
  intros Hne Hl; induction Hl as [|s l Hs Hl IH]; [done|].
  destruct l as [|t l]; [by apply split_no_sep|].
  change (join_with (String c "") (s :: t :: l))
    with (s +:+ String c (join_with (String c "") (t :: l))).
  rewrite split_app_sep, IH by done. by rewrite (split_no_sep s) by done.
Qed.

(** An ordinary path element. *)
Definition plain_elem (e : string) : Prop :=
  e <> "" /\ e <> "." /\ e <> ".." /\ str_forallb (fun d => negb (d =? "/")%char) e = true.

Lemma clean_step_plain rooted stack e : plain_elem e -> clean_step rooted stack e = e :: stack.
Proof.
  intros (H1 & H2 & H3 & _). unfold clean_step.
  apply String.eqb_neq in H1 as ->. apply String.eqb_neq in H2 as ->.
  by apply String.eqb_neq in H3 as ->.
Qed.

Lemma clean_plain rooted l stack :
  Forall plain_elem l -> fold_left (clean_step rooted) l stack = rev l ++ stack.
Proof.
  intros Hl; revert stack; induction Hl as [|e l He Hl IH]; intros stack; simpl; [done|].
  rewrite clean_step_plain, IH by done. by rewrite <- app_assoc.
Qed.

(** The elements of an unrooted clean path: ordinary ones below some [".."]. *)
Lemma clean_unrooted l stack k a :
  Forall (fun s => str_forallb (fun d => negb (d =? "/")%char) s = true) l ->
  stack = a ++ repeat ".." k -> Forall plain_elem a ->
  exists k' a', fold_left (clean_step false) l stack = a' ++ repeat ".." k' /\ Forall plain_elem a'
    /\ Forall (fun e => In e l \/ In e a) a'.
Proof.
  intros Hl; revert stack k a; induction Hl as [|e l He Hl IH]; intros stack k a -> Ha; simpl.
  { exists k, a. split_and!; try done. apply Forall_forall. intros x Hx.
    right. by apply list_elem_of_In. }
  assert (exists k1 a1, clean_step false (a ++ repeat ".." k) e = a1 ++ repeat ".." k1
    /\ Forall plain_elem a1 /\ Forall (fun x => x = e \/ In x a) a1) as (k1 & a1 & -> & Ha1 & Hin).
  { unfold clean_step. destruct ((e == "") || (e == ".")) eqn:E1.
    { exists k, a. split_and!; try done. apply Forall_forall. intros; right. by apply list_elem_of_In. }
    bool_facts. destruct (e == "..") eqn:E2; bool_facts.
    - destruct a as [|x a]; simpl.
      + exists (S k), []. split_and!; [|constructor..]. by destruct k.
      + inversion Ha as [|? ? Hx Ha']; subst. destruct Hx as (? & ? & Hx & ?).
        rewrite (proj2 (String.eqb_neq x "..") Hx). exists k, a. split_and!; try done.
        apply Forall_forall. intros y Hy. right; right. by apply list_elem_of_In.
    - exists k, (e :: a). split_and!; [done|by constructor|]. constructor; [by left|].
      apply Forall_forall. intros y Hy. right. by apply list_elem_of_In. }
  destruct (IH _ k1 a1 eq_refl Ha1) as (k' & a' & -> & Ha' & Hin').
  exists k', a'. split_and!; try done. rewrite Forall_forall in Hin, Hin' |- *.
  intros x Hx. destruct (Hin' x Hx) as [H|H]; [by left; right|].
  destruct (Hin x) as [->|H']; [by apply list_elem_of_In|left; by left|by right].
Qed.

Lemma join_app_nonempty x l : join_with "/" (x :: l) = match l with [] => x | _ => x +:+ "/" +:+ join_with "/" l end.
Proof. by destruct l. Qed.

Lemma rev_repeat {A} (x : A) n : rev (repeat x n) = repeat x n.
Proof.
  induction n as [|n IH]; [done|]. simpl. rewrite IH. clear IH.
  induction n as [|n IH]; [done|]. simpl. by rewrite IH.
Qed.

(** A clean unrooted path that does not start above its root. *)
Lemma path_Clean_inside p :
  is_rooted p = false -> path_Clean p <> "." -> path_Clean p <> ".." ->
  has_prefix (path_Clean p) "../" = false ->
  exists l, l <> [] /\ Forall plain_elem l /\ path_Clean p = join_with "/" l
    /\ Forall (fun e => In e (split_byte p "/")) l.
Proof.
  intros Hr H1 H2 H3. unfold path_Clean in *. rewrite Hr in *.
  destruct (clean_unrooted (split_byte p "/") [] 0 [] (split_byte_no_sep p "/") eq_refl)
    as (k & a & Hk & Ha & Hin); [constructor|].
  unfold clean_elems in *. rewrite Hk in *. rewrite rev_app_distr, rev_repeat in *.
  destruct k as [|k].
  - simpl in *. destruct (join_with "/" (rev a) == "") eqn:E; [done|].
    exists (rev a). split_and!; try done.
    + intros Hn. rewrite Hn in E. done.
    + by apply Forall_rev.
    + apply Forall_rev. apply (Forall_impl _ _ _ Hin). intros x [H|[]]. done.
  - exfalso. cbn [repeat app] in *. rewrite join_app_nonempty in *.
    destruct (repeat ".." k ++ rev a) as [|y ys]; [done|].
    set (t := join_with "/" (y :: ys)) in *.
    change (has_prefix ("../" +:+ t) "../" = false) in H3.
    rewrite (proj2 (has_prefix_spec _ _)) in H3 by eauto. done.
Qed.

Lemma path_Clean_plain l :
  l <> [] -> Forall plain_elem l -> path_Clean (join_with "/" l) = join_with "/" l.
Proof.
  intros Hne Hl. unfold path_Clean, is_rooted.
  assert (has_prefix (join_with "/" l) "/" = false) as ->.
  { apply not_true_iff_false. rewrite has_prefix_spec. intros [r Hr].
    destruct Hl as [|x l (Hx & _ & _ & Hs) _]; [done|]. rewrite join_app_nonempty in Hr.
    destruct x as [|c x]; [done|]. simpl in Hs. destruct l; simpl in Hr; injection Hr as -> _; done. }
  unfold clean_elems. rewrite (split_join l "/") by
    (try done; apply (Forall_impl _ _ _ Hl); by intros x (_ & _ & _ & Hx)).
  rewrite clean_plain, app_nil_r, rev_involutive by done.
  destruct (join_with "/" l == "") eqn:E; [|done]. exfalso. bool_facts.
  destruct Hl as [|x l (Hx & _) _]; [done|]. rewrite join_app_nonempty in E.
  destruct x, l; done.
Qed.
