(* ===== verification/Policy.v ===== *)
(** * Policy: fetch allowlists, visibility and the SSRF guard

    Models the [policy] package (src/policy): host patterns ([pattern.go]),
    fetch modes and their intersection across levels ([fetch.go]), function
    visibility ([visibility.go]) and the address guard ([ssrf.go]). *)

From S2P Require Import Prelude GoNet.

(** ** policy/pattern.go *)

Inductive PatternErr :=
| EmptyPattern
| InvalidPort
| SplitFailed (why : string)
| EmptyHost
| InvalidWildcardDomain
| InvalidHost.

(** [Pattern]: the parsed form of one allowlist entry; [port = 0] means that
    the entry names none. *)
Record Pattern := mkPattern {
  raw : string;
  host : string;
  wildcard : bool;
  port : Z
}.

Definition Pattern_String (p : Pattern) : string := raw p.

(** [hostLabelRE]: [^[a-zA-Z0-9]([a-zA-Z0-9-]{0,61}[a-zA-Z0-9])?$]. *)
Definition hostLabelRE (label : string) : bool :=
  match label with
  | EmptyString => false
  | String c EmptyString => is_alnum c
  | String c r =>
      is_alnum c
      && (String.length r <=? 62)%nat
      && str_forallb (fun d => is_alnum d || (d =? "-")%char) r
      && match str_rev r with String d _ => is_alnum d | EmptyString => false end
  end.

Definition isValidHostname (s : string) : bool :=
  if (str_len s =? 0) || (253 <? str_len s) then false
  else forallb hostLabelRE (split_byte s ".").

Section Patterns.
Context {U : UnicodeTables}.

Definition ParsePattern (s : string) : result PatternErr Pattern :=
  if s == "" then Err EmptyPattern
  else
    let! (h, n) :=
      match SplitHostPort s with
      | Ok (h, portStr) =>
          match atoi portStr with
          | None => Err InvalidPort
          | Some n => if (n <? 1) || (65535 <? n) then Err InvalidPort else Ok (h, n)
          end
      | Err why =>
          if str_contains why "missing port" then Ok (s, 0) else Err (SplitFailed why)
      end in
    let h := to_lower h in
    let h := trim_prefix h "[" in
    let h := trim_suffix h "]" in
    if h == "" then Err EmptyHost
    else if has_prefix h "*." then
      let domain := str_drop 2 h in
      if (domain == "") || negb (isValidHostname domain) then Err InvalidWildcardDomain
      else Ok (mkPattern s domain true n)
    else if negb (isValidHostname h) && negb (bool_decide (is_Some (ParseIP h)))
    then Err InvalidHost
    else Ok (mkPattern s h false n).

Definition portMatches (p : Pattern) (q : Z) : bool :=
  if q =? 0 then true
  else if negb (port p =? 0) then q =? port p
  else (q =? 80) || (q =? 443).

Definition Matches (p : Pattern) (h : string) (q : Z) : bool :=
  if negb (portMatches p q) then false
  else
    let h := to_lower (trim_suffix h ".") in
    if wildcard p
    then has_suffix h ("." +:+ host p)%stdpp && negb (h == host p)
    else h == host p.
End Patterns.

(** ** policy/fetch.go *)

Inductive FetchMode := FetchModeDeny | FetchModeAllowlist | FetchModeAllowAll.

#[export] Instance FetchMode_eq_dec : EqDecision FetchMode.
Proof. solve_decision. Defined.

(** The [iota] values, on which Go's [<] compares. *)
Definition mode_val (m : FetchMode) : Z :=
  match m with FetchModeDeny => 0 | FetchModeAllowlist => 1 | FetchModeAllowAll => 2 end.

Definition FetchMode_String (m : FetchMode) : string :=
  match m with
  | FetchModeDeny => "deny"
  | FetchModeAllowlist => "allowlist"
  | FetchModeAllowAll => "allow-all"
  end.

Definition ParseFetchMode (s : string) : option FetchMode :=
  if s == "deny" then Some FetchModeDeny
  else if s == "allowlist" then Some FetchModeAllowlist
  else if s == "allow-all" then Some FetchModeAllowAll
  else None.

Record FetchPolicy := mkFetchPolicy {
  Mode : FetchMode;
  Allow : list Pattern
}.

Record EffectivePolicy := mkEffective {
  eff_mode : FetchMode;
  eff_levels : list FetchPolicy
}.

(** The first loop of [Effective]: a running minimum. *)
Definition min_mode (levels : list FetchPolicy) : FetchMode :=
  fold_left (fun m l => if mode_val (Mode l) <? mode_val m then Mode l else m)
            levels FetchModeAllowAll.

Definition is_allowlist (l : FetchPolicy) : bool :=
  match Mode l with FetchModeAllowlist => true | _ => false end.

Definition Effective (levels : list FetchPolicy) : EffectivePolicy :=
  match levels with
  | [] => mkEffective FetchModeDeny []
  | _ =>
      let mode := min_mode levels in
      mkEffective mode
        (match mode with
         | FetchModeAllowlist => List.filter is_allowlist levels
         | _ => []
         end)
  end.

Section Decisions.
Context {U : UnicodeTables}.

Definition anyPatternMatches (patterns : list Pattern) (h : string) (q : Z) : bool :=
  existsb (fun p => Matches p h q) patterns.

Definition Decision (e : EffectivePolicy) (h : string) (q : Z) : bool :=
  match eff_mode e with
  | FetchModeAllowAll => true
  | FetchModeAllowlist =>
      forallb (fun l => anyPatternMatches (Allow l) h q) (eff_levels e)
  | FetchModeDeny => false
  end.

(** What one level alone permits: the specification of a level. *)
Definition level_allows (h : string) (q : Z) (l : FetchPolicy) : bool :=
  match Mode l with
  | FetchModeAllowAll => true
  | FetchModeAllowlist => anyPatternMatches (Allow l) h q
  | FetchModeDeny => false
  end.
End Decisions.

(** ** policy/visibility.go *)

Inductive Visibility := VisibilityWorkspace | VisibilityOrg | VisibilityPublic.

#[export] Instance Visibility_eq_dec : EqDecision Visibility.
Proof. solve_decision. Defined.

Definition vis_val (v : Visibility) : Z :=
  match v with VisibilityWorkspace => 0 | VisibilityOrg => 1 | VisibilityPublic => 2 end.

Definition Visibility_String (v : Visibility) : string :=
  match v with
  | VisibilityWorkspace => "workspace"
  | VisibilityOrg => "org"
  | VisibilityPublic => "public"
  end.

Definition ParseVisibility (s : string) : option Visibility :=
  if s == "public" then Some VisibilityPublic
  else if s == "org" then Some VisibilityOrg
  else if s == "workspace" then Some VisibilityWorkspace
  else None.

Definition MinVisibility (vs : list Visibility) : Visibility :=
  match vs with
  | [] => VisibilityWorkspace
  | v :: rest =>
      fold_left (fun narrowest w => if vis_val w <? vis_val narrowest then w else narrowest)
                rest v
  end.

(** ** policy/ssrf.go *)

Definition alibabaMetadataIP : IP := IPv4 100 100 100 200.

(** [BlockedIP]; the empty byte sequence is Go's nil address. *)
Definition BlockedIP (ip : IP) : bool :=
  match ip with
  | [] => true
  | _ =>
      if IsLoopback ip || IsLinkLocalUnicast ip || IsLinkLocalMulticast ip
         || IsInterfaceLocalMulticast ip || IsUnspecified ip || IsMulticast ip
      then true
      else match To4 ip with
           | Some ip4 => ip_equal ip4 alibabaMetadataIP
           | None => false
           end
  end.

(** ** Lemmas *)

Lemma mode_val_inj m n : mode_val m = mode_val n -> m = n.
Proof. by destruct m, n. Qed.

Lemma fold_min_mode ls m0 :
  let m := fold_left (fun m l => if mode_val (Mode l) <? mode_val m then Mode l else m) ls m0 in
  mode_val m <= mode_val m0 /\ Forall (fun l => mode_val m <= mode_val (Mode l)) ls
  /\ (m = m0 \/ Exists (fun l => m = Mode l) ls).
Proof.
  revert m0; induction ls as [|l ls IH]; intros m0; simpl; [split; [lia|auto]|].
  destruct (mode_val (Mode l) <? mode_val m0) eqn:E.
  - destruct (IH (Mode l)) as (H1 & H2 & H3). split; [bool_lia|]. split; [by constructor|].
    right. destruct H3 as [H3|H3]; [by left|by right].
  - destruct (IH m0) as (H1 & H2 & H3). split; [done|]. split; [constructor; [bool_lia|done]|].
    destruct H3 as [H3|H3]; [by left|by right; right].
Qed.

Lemma fold_min_vis vs v0 :
  let v := fold_left (fun n w => if vis_val w <? vis_val n then w else n) vs v0 in
  vis_val v <= vis_val v0 /\ Forall (fun w => vis_val v <= vis_val w) vs
  /\ (v = v0 \/ In v vs).
Proof.
  revert v0; induction vs as [|w vs IH]; intros v0; simpl; [split; [lia|auto]|].
  destruct (vis_val w <? vis_val v0) eqn:E.
  - destruct (IH w) as (H1 & H2 & H3). split; [bool_lia|]. split; [by constructor|].
    right. destruct H3 as [H3|H3]; [by left|by right].
  - destruct (IH v0) as (H1 & H2 & H3). split; [done|]. split; [constructor; [bool_lia|done]|].
    destruct H3 as [H3|H3]; [by left|by right; right].
Qed.

Section DecisionLemmas.
Context {U : UnicodeTables}.

Lemma deny_level h q ls l :
  In l ls -> Mode l = FetchModeDeny -> forallb (level_allows h q) ls = false.
Proof.
  intros Hin Hm. apply not_true_iff_false. rewrite forallb_forall. intros H.
  specialize (H l Hin). by unfold level_allows in H; rewrite Hm in H.
Qed.

Lemma allowlist_levels h q ls :
  Forall (fun l => Mode l <> FetchModeDeny) ls ->
  forallb (fun l => anyPatternMatches (Allow l) h q) (List.filter is_allowlist ls)
  = forallb (level_allows h q) ls.
Proof.
  induction 1 as [|l ls Hl _ IH]; simpl; [done|].
  unfold is_allowlist at 1, level_allows at 1.
  destruct (Mode l); simpl; [done|by rewrite IH|done].
Qed.

Lemma portMatches_0 p : portMatches p 0 = true.
Proof. done. Qed.

Lemma Matches_port_0 p h q : Matches p h q = true -> Matches p h 0 = true.
Proof.
  unfold Matches. rewrite portMatches_0; simpl.
  destruct (portMatches p q); simpl; [done|discriminate].
Qed.

Lemma level_allows_port_0 h q l : level_allows h q l = true -> level_allows h 0 l = true.
Proof.
  unfold level_allows, anyPatternMatches. destruct (Mode l); try done.
  rewrite !existsb_exists. intros (p & Hin & Hp). eauto using Matches_port_0.
Qed.

Lemma Decision_levels ls h q :
  Decision (Effective ls) h q = negb (bool_decide (ls = [])) && forallb (level_allows h q) ls.
Proof.
  destruct ls as [|l0 ls0]; [done|]. rewrite bool_decide_false by done; simpl negb.
  rewrite andb_true_l. set (ls := l0 :: ls0). unfold Effective; fold ls.
  destruct (fold_min_mode ls FetchModeAllowAll) as (_ & Hmin & Hex).
  fold (min_mode ls) in Hmin, Hex. unfold ls at 1. unfold Decision; cbn [eff_mode eff_levels].
  destruct (min_mode ls) eqn:Em; simpl in Hmin.
  - destruct Hex as [Hex|Hex]; [done|]. apply Exists_exists in Hex as (l & Hin & Hm).
    symmetry. eapply deny_level; [by apply list_elem_of_In|done].
  - apply allowlist_levels. apply (Forall_impl _ _ _ Hmin).
    intros l Hl Hd. rewrite Hd in Hl; simpl in Hl; lia.
  - symmetry; apply forallb_forall. intros l Hin.
    rewrite Forall_forall in Hmin. specialize (Hmin l (proj2 (list_elem_of_In _ _) Hin)).
    unfold level_allows. by destruct (Mode l); simpl in Hmin; try lia.
Qed.
End DecisionLemmas.

(** Parsing a label. *)
Definition label_char (c : ascii) : bool := is_alnum c || (c =? "-")%char.

Lemma hostLabelRE_chars l : hostLabelRE l = true -> l <> "" /\ str_forallb label_char l = true.
Proof.
  unfold label_char.
  destruct l as [|c [|d r]]; simpl; [done|intros ->; by split|].
  rewrite !andb_true_iff. intros [[[-> _] [-> ->]] _]. by split.
Qed.

Lemma isValidHostname_chars s :
  isValidHostname s = true ->
  s <> "" /\ str_len s <= 253 /\ str_forallb (fun c => label_char c || (c =? ".")%char) s = true.
Proof.
  unfold isValidHostname. case_goal; [done|]. intros H.
  rewrite orb_false_iff, Z.eqb_neq, Z.ltb_ge in E. destruct E as [E1 E2].
  split; [by intros ->|]. split; [done|].
  rewrite <- (join_split s "."). apply str_forallb_join; [|done].
  apply Forall_forall. intros x Hx. rewrite forallb_forall in H.
  apply list_elem_of_In in Hx. destruct (hostLabelRE_chars x (H x Hx)) as [_ Hc].
  revert Hc. apply str_forallb_impl. by intros c ->.
Qed.

Lemma isValidHostname_ascii s : isValidHostname s = true -> is_ascii s = true.
Proof.
  intros H. destruct (isValidHostname_chars s H) as (_ & _ & Hc).
  revert Hc. apply str_forallb_impl.
  intros [[] [] [] [] [] [] [] []]; vm_compute; congruence.
Qed.

Lemma isValidHostname_no_dot s : isValidHostname s = true -> trim_suffix s "." = s.
Proof.
  intros H. apply trim_suffix_id, not_true_iff_false.
  rewrite has_suffix_spec. intros [r ->].
  unfold isValidHostname in H. case_step H.
  rewrite split_byte_snoc, forallb_app in H. simpl in H.
  by rewrite andb_false_r in H.
Qed.

Section PatternLemmas.
Context {U : UnicodeTables}.

Lemma trim_suffix_forallb f s p :
  str_forallb f s = true -> str_forallb f (trim_suffix s p) = true.
Proof. unfold trim_suffix; case_goal; auto using str_forallb_take. Qed.

Lemma trim_prefix_forallb f s p :
  str_forallb f s = true -> str_forallb f (trim_prefix s p) = true.
Proof. unfold trim_prefix; case_goal; auto using str_forallb_drop. Qed.

(** The host text left once brackets are stripped holds no capital. *)
Lemma bare_host_no_upper h :
  str_forallb (fun c => negb (is_upper c))
    (trim_suffix (trim_prefix (to_lower h) "[") "]") = true.
Proof. apply trim_suffix_forallb, trim_prefix_forallb, to_lower_no_upper. Qed.

Lemma lowered_hostname h :
  isValidHostname h = true -> str_forallb (fun c => negb (is_upper c)) h = true ->
  to_lower (trim_suffix h ".") = h.
Proof.
  intros Hv Hu. rewrite isValidHostname_no_dot by done.
  rewrite to_lower_ascii by auto using isValidHostname_ascii. by apply lower_id.
Qed.

Lemma lowered_below h sub :
  isValidHostname h = true -> str_forallb (fun c => negb (is_upper c)) h = true ->
  is_ascii sub = true ->
  to_lower (trim_suffix (sub +:+ "." +:+ h) ".") = str_map byte_lower sub +:+ "." +:+ h.
Proof.
  intros Hv Hu Hs. pose proof (isValidHostname_chars h Hv) as (Hne & _ & _).
  rewrite trim_suffix_id.
  - rewrite to_lower_ascii.
    + rewrite !str_map_app. rewrite (lower_id h) by done. done.
    + rewrite !is_ascii_app, Hs. rewrite (isValidHostname_ascii h) by done. done.
  - rewrite <- str_app_assoc, has_suffix_app; [|destruct h; simpl; [done|lia]].
    apply not_true_iff_false. intros Hd. pose proof (isValidHostname_no_dot h Hv) as Ht.
    unfold trim_suffix in Ht. rewrite Hd in Ht.
    apply (f_equal String.length) in Ht. rewrite str_length_take in Ht.
    destruct h; simpl in *; [done|lia].
Qed.

Lemma portMatches_own p : portMatches p (port p) = true.
Proof.
  unfold portMatches. case_goal; [done|]. by rewrite Z.eqb_refl.
Qed.

Lemma wildcard_not_apex p q :
  wildcard p = true -> isValidHostname (host p) = true ->
  str_forallb (fun c => negb (is_upper c)) (host p) = true -> Matches p (host p) q = false.
Proof.
  intros Hw Hv Hu. unfold Matches. case_goal; [done|]. rewrite Hw, lowered_hostname by done.
  by rewrite String.eqb_refl, andb_false_r.
Qed.

Lemma wildcard_below p sub :
  wildcard p = true -> isValidHostname (host p) = true ->
  str_forallb (fun c => negb (is_upper c)) (host p) = true -> is_ascii sub = true ->
  Matches p (sub +:+ "." +:+ host p) (port p) = true.
Proof.
  intros Hw Hv Hu Hs. unfold Matches. rewrite portMatches_own; cbn [negb].
  rewrite Hw, lowered_below by done. rewrite andb_true_iff; split.
  - apply has_suffix_spec. eauto.
  - apply negb_true_iff, String.eqb_neq. intros Heq.
    apply (f_equal String.length) in Heq. rewrite !str_length_app in Heq. simpl in Heq. lia.
Qed.

Lemma exact_own p :
  wildcard p = false -> isValidHostname (host p) = true ->
  str_forallb (fun c => negb (is_upper c)) (host p) = true -> Matches p (host p) (port p) = true.
Proof.
  intros Hw Hv Hu. unfold Matches. rewrite portMatches_own; cbn [negb].
  rewrite Hw, lowered_hostname by done. apply String.eqb_refl.
Qed.
End PatternLemmas.

(** ** Properties *)

Section Properties.
Context {U : UnicodeTables}.

(** C1. The effective policy is the intersection of its levels: a request
    is permitted exactly when there is a level and every level alone permits
    it, so no level can be widened by another; and the host-level pre-check
    (port 0) never refuses a host some real port is permitted for. *)
Theorem effective_is_intersection ls h q :
  (Decision (Effective ls) h q = true <->
   ls <> [] /\ Forall (fun l => level_allows h q l = true) ls)
  /\ Bool.le (Decision (Effective ls) h q) (Decision (Effective ls) h 0).
Proof.
  rewrite !Decision_levels. split.
  - rewrite andb_true_iff, negb_true_iff, bool_decide_eq_false, forallb_forall, Forall_forall.
    by setoid_rewrite list_elem_of_In.
  - unfold Bool.le. case_goal; [|done].
    rewrite andb_true_iff in *. destruct E as [-> E]. split; [done|].
    rewrite forallb_forall in *. eauto using level_allows_port_0.
Qed.

(** What a parsed pattern means: its text is kept, its port is absent
    or in 1..65535, its host is lower-case; an exact pattern over a host name
    matches that name at its own port; a wildcard pattern matches every
    ASCII name below its domain and never the domain itself. *)
Theorem parse_pattern_sound s p (H : ParsePattern s = Ok p) :
  Pattern_String p = s /\ 0 <= port p <= 65535
  /\ str_forallb (fun c => negb (is_upper c)) (host p) = true
  /\ (if wildcard p
      then isValidHostname (host p) = true
           /\ (forall q, Matches p (host p) q = false)
           /\ (forall sub, is_ascii sub = true ->
                Matches p (sub +:+ "." +:+ host p) (port p) = true)
      else (isValidHostname (host p) = true /\ Matches p (host p) (port p) = true)
           \/ (isValidHostname (host p) = false /\ is_Some (ParseIP (host p)))).
Proof.
  unfold ParsePattern in H. case_step H.
  apply rbind_ok in H as ([h n] & Hsplit & H).
  assert (0 <= n <= 65535) as Hn.
  { repeat case_step Hsplit; injection Hsplit as <- <-; bool_lia. }
  clear Hsplit. pose proof (bare_host_no_upper h) as Hup.
  set (b := trim_suffix (trim_prefix (to_lower h) "[") "]") in *.
  case_step H. case_step H.
  - case_step H. injection H as <-; cbn [raw host wildcard port].
    rewrite orb_false_iff, negb_false_iff in E2. destruct E2 as [_ Hv].
    pose proof (str_forallb_drop _ 2 _ Hup).
    split_and!; try done; try lia; intros.
    + by apply (wildcard_not_apex (mkPattern s (str_drop 2 b) true n)).
    + by apply (wildcard_below (mkPattern s (str_drop 2 b) true n)).
  - case_step H. injection H as <-; cbn [raw host wildcard port].
    split_and!; try done; try lia.
    destruct (isValidHostname b) eqn:Hv; [left|right]; split; try done.
    + by apply (exact_own (mkPattern s b false n)).
    + rewrite andb_false_iff, !negb_false_iff in E2.
      by destruct E2 as [?|?%bool_decide_eq_true].
Qed.
End Properties.

Lemma parse_pattern_sound_witness :
  Pattern_String (mkPattern "*.Example.com:8443" "example.com" true 8443) = "*.Example.com:8443".
Proof.
  apply (parse_pattern_sound "*.Example.com:8443" _ eq_refl).
Defined.

(** [MinVisibility] is the greatest lower bound: the result is one of the
    arguments and no argument is narrower; without arguments it is the
    narrowest visibility. *)
Theorem min_visibility_glb v vs :
  In (MinVisibility (v :: vs)) (v :: vs)
  /\ Forall (fun w => vis_val (MinVisibility (v :: vs)) <= vis_val w) (v :: vs)
  /\ MinVisibility [] = VisibilityWorkspace.
Proof.
  destruct (fold_min_vis vs v) as (H1 & H2 & H3). simpl. split_and!; [|by constructor|done].
  destruct H3 as [H3|H3]; [by left; rewrite H3|by right].
Qed.

(** The SSRF guard refuses, among the IPv4 addresses, exactly loopback,
    link-local (the cloud metadata address included), the unspecified address,
    multicast and Alibaba's metadata address. *)
Theorem blocked_ipv4 a b c d (Ha : 0 <= a < 256) (Hb : 0 <= b < 256)
    (Hc : 0 <= c < 256) (Hd : 0 <= d < 256) :
  BlockedIP (IPv4 a b c d) = true <->
  a = 127 \/ (a = 169 /\ b = 254) \/ (a = 0 /\ b = 0 /\ c = 0 /\ d = 0)
  \/ 224 <= a < 240 \/ (a = 100 /\ b = 100 /\ c = 100 /\ d = 200).
Proof.
  assert (Z.land a 240 = 224 <-> 224 <= a < 240) as Hland.
  { assert (forallb (fun n => Bool.eqb (Z.land (Z.of_nat n) 240 =? 224)
      ((224 <=? Z.of_nat n) && (Z.of_nat n <? 240))) (seq 0 256) = true) as Hall by reflexivity.
    rewrite forallb_forall in Hall. specialize (Hall (Z.to_nat a)).
    rewrite in_seq, Z2Nat.id in Hall by lia. specialize (Hall ltac:(lia)).
    rewrite Bool.eqb_true_iff in Hall.
    rewrite <- Z.eqb_eq, Hall. bool_lia. }
  unfold BlockedIP, IsLoopback, IsLinkLocalUnicast, IsLinkLocalMulticast,
    IsInterfaceLocalMulticast, IsUnspecified, IsMulticast, alibabaMetadataIP.
  rewrite !To4_IPv4, ip_equal_IPv4_zero, ip_equal_IPv4, ip_equal_4_IPv4.
  change (byte_at (IPv4 a b c d) 0) with 0. simpl.
  change (byte_at [a; b; c; d] 0) with a. change (byte_at [a; b; c; d] 1) with b.
  change (byte_at [a; b; c; d] 2) with c.
  case_goal; rewrite ?orb_true_iff, ?orb_false_iff, !andb_true_iff, ?Z.eqb_eq in *.
  - split; [intros _|done]. destruct E as [[[E|E]|E]|E]; intuition (lia || done).
  - rewrite ?andb_false_iff, ?Z.eqb_neq in E. split; intuition lia.
Qed.

Lemma blocked_ipv4_witness : BlockedIP (IPv4 169 254 169 254) = true.
Proof. apply blocked_ipv4; lia. Defined.
