(* ===== verification/Capture.v ===== *)
(** * Capture: per-invocation output and fetch decisions

    Models src/server/internal/invoke/logcapture.go: bounded buffers, the
    captures they belong to, and the tracker that maps a goroutine to the
    capture of the invocation it is running. Captures are shared by pointer,
    so the state holds a heap of captures and the tracker's map into it. *)

From S2P Require Import Prelude.

Definition maxCapturedOutputBytes : Z := 32 * 1024.
Definition maxCapturedFetchDecisions : Z := 200.

(** [store.FetchDecision]. *)
Record FetchDecision := mkFetchDecision {
  fd_host : string;
  fd_port : Z;
  fd_allowed : bool;
  fd_stage : string
}.

(** [boundedBuffer.Write]: the new buffer and the count reported. *)
Definition boundedBuffer_Write (buf p : string) : string * Z :=
  if maxCapturedOutputBytes <=? str_len buf then (buf, str_len p)
  else
    let remaining := maxCapturedOutputBytes - str_len buf in
    let p := if remaining <? str_len p then str_take (Z.to_nat remaining) p else p in
    (buf +:+ p, str_len p).

Record capture := mkCapture {
  stdout : string;
  stderr : string;
  fetchDecisions : list FetchDecision
}.

Definition empty_capture : capture := mkCapture "" "" [].

Definition recordFetch (c : capture) (d : FetchDecision) : capture :=
  if maxCapturedFetchDecisions <=? Z.of_nat (length (fetchDecisions c)) then c
  else mkCapture (stdout c) (stderr c) (fetchDecisions c ++ [d]).

Definition fetchDecisionsSnapshot (c : capture) : list FetchDecision := fetchDecisions c.

(** [invocationTracker]: [byGID] holds pointers into [heap]. *)
Record invocationTracker := mkTracker {
  heap : gmap nat capture;
  byGID : gmap N nat
}.

Definition newInvocationTracker (h : gmap nat capture) : invocationTracker := mkTracker h ∅.

Definition begin (t : invocationTracker) (gid : N) : nat * invocationTracker :=
  let ptr := fresh (dom (heap t)) in
  (ptr, mkTracker (<[ptr := empty_capture]> (heap t)) (<[gid := ptr]> (byGID t))).

Definition end_ (t : invocationTracker) (gid : N) : invocationTracker :=
  mkTracker (heap t) (delete gid (byGID t)).

Definition current (t : invocationTracker) (gid : N) : option nat := byGID t !! gid.

(** Update of the capture a pointer names. *)
Definition update_capture (t : invocationTracker) (ptr : nat) (f : capture -> capture)
    : invocationTracker :=
  mkTracker (alter f ptr (heap t)) (byGID t).

Definition set_stdout (c : capture) (s : string) := mkCapture s (stderr c) (fetchDecisions c).
Definition set_stderr (c : capture) (s : string) := mkCapture (stdout c) s (fetchDecisions c).

(** [stdoutWriter.Write] and [stderrWriter.Write] on goroutine [gid]. *)
Definition stdoutWriter_Write (t : invocationTracker) (gid : N) (p : string)
    : invocationTracker * Z :=
  match current t gid with
  | Some ptr =>
      match heap t !! ptr with
      | Some c =>
          let '(b, n) := boundedBuffer_Write (stdout c) p in
          (update_capture t ptr (fun c => set_stdout c b), n)
      | None => (t, str_len p)
      end
  | None => (t, str_len p)
  end.

Definition stderrWriter_Write (t : invocationTracker) (gid : N) (p : string)
    : invocationTracker * Z :=
  match current t gid with
  | Some ptr =>
      match heap t !! ptr with
      | Some c =>
          let '(b, n) := boundedBuffer_Write (stderr c) p in
          (update_capture t ptr (fun c => set_stderr c b), n)
      | None => (t, str_len p)
      end
  | None => (t, str_len p)
  end.

(** [fetchPolicyAdapter.record] with a tracker: the decision goes to the
    goroutine's current capture, if it has one. *)
Definition record_decision (t : invocationTracker) (gid : N) (d : FetchDecision)
    : invocationTracker :=
  match current t gid with
  | Some ptr => update_capture t ptr (fun c => recordFetch c d)
  | None => t
  end.

(** What happens to a tracker: invocations begin and end, and guest code
    writes and fetches in between. *)
Inductive guest_op :=
| OpBegin
| OpEnd
| OpStdout (p : string)
| OpStderr (p : string)
| OpFetch (d : FetchDecision).

Definition guest_step (t : invocationTracker) (ev : N * guest_op) : invocationTracker :=
  let '(gid, op) := ev in
  match op with
  | OpBegin => (begin t gid).2
  | OpEnd => end_ t gid
  | OpStdout p => (stdoutWriter_Write t gid p).1
  | OpStderr p => (stderrWriter_Write t gid p).1
  | OpFetch d => record_decision t gid d
  end.

Definition is_guest_io (op : guest_op) : bool :=
  match op with OpBegin | OpEnd => false | _ => true end.

(** The output one goroutine wrote to stdout, and the decisions it took, in a
    sequence of operations of many goroutines. *)
Fixpoint stdout_of (gid : N) (evs : list (N * guest_op)) : string :=
  match evs with
  | [] => ""
  | (g, OpStdout p) :: r => if bool_decide (g = gid) then p +:+ stdout_of gid r else stdout_of gid r
  | _ :: r => stdout_of gid r
  end.

Fixpoint stderr_of (gid : N) (evs : list (N * guest_op)) : string :=
  match evs with
  | [] => ""
  | (g, OpStderr p) :: r => if bool_decide (g = gid) then p +:+ stderr_of gid r else stderr_of gid r
  | _ :: r => stderr_of gid r
  end.

Fixpoint fetches_of (gid : N) (evs : list (N * guest_op)) : list FetchDecision :=
  match evs with
  | [] => []
  | (g, OpFetch d) :: r => if bool_decide (g = gid) then d :: fetches_of gid r else fetches_of gid r
  | _ :: r => fetches_of gid r
  end.

(** ** Lemmas *)

Definition out_cap : nat := Z.to_nat maxCapturedOutputBytes.
Definition fetch_cap : nat := Z.to_nat maxCapturedFetchDecisions.

Lemma str_take_all n s : (String.length s <= n)%nat -> str_take n s = s.
Proof.
  revert s; induction n as [|n IH]; intros [|c s] Hl; simpl in *; try done; try lia.
  rewrite IH by lia. done.
Qed.

Lemma str_take_app_le n s t :
  str_take n (s +:+ t) = str_take n s +:+ str_take (n - String.length s) t.
Proof.
  revert s; induction n as [|n IH]; intros [|c s]; simpl; try done.
  by rewrite IH.
Qed.

(** A bounded buffer holds the first bytes of everything written to it. *)
Lemma boundedBuffer_take s p :
  (boundedBuffer_Write (str_take out_cap s) p).1 = str_take out_cap (s +:+ p).
Proof.
  rewrite str_take_app_le. unfold boundedBuffer_Write, str_len.
  rewrite !str_length_take.
  assert (Z.of_nat out_cap = maxCapturedOutputBytes) as Hcap by reflexivity.
  rewrite <- Hcap. generalize out_cap; intros n. clear Hcap.
  case_goal; simpl; [|case_goal; simpl].
  - assert (n - String.length s = 0)%nat as -> by bool_lia.
    destruct p; simpl; by rewrite str_app_nil_r.
  - rewrite (str_take_all n s) by bool_lia.
    do 2 f_equal. bool_lia.
  - rewrite (str_take_all n s) in * by bool_lia. f_equal.
    rewrite str_take_all; [done|bool_lia].
Qed.

Lemma recordFetch_take so se l d :
  recordFetch (mkCapture so se (take fetch_cap l)) d = mkCapture so se (take fetch_cap (l ++ [d])).
Proof.
  unfold recordFetch; simpl. rewrite length_take.
  assert (Z.of_nat fetch_cap = maxCapturedFetchDecisions) as Hcap by reflexivity.
  rewrite <- Hcap. generalize fetch_cap; intros n. clear Hcap. f_equal.
  case_goal; simpl.
  - rewrite take_app_le by bool_lia. done.
  - rewrite (take_ge l) by bool_lia. rewrite take_ge; [done|].
    rewrite length_app; simpl. bool_lia.
Qed.

#[local] Opaque out_cap fetch_cap.

(** Every registered goroutine has a capture of its own. *)
Record tracker_wf (t : invocationTracker) : Prop := {
  wf_alloc : forall g p, byGID t !! g = Some p -> is_Some (heap t !! p);
  wf_own : forall g g' p, byGID t !! g = Some p -> byGID t !! g' = Some p -> g = g'
}.

Lemma tracker_wf_new h : tracker_wf (newInvocationTracker h).
Proof. by split; intros *; simpl; rewrite lookup_empty. Qed.

Lemma tracker_wf_update t ptr f : tracker_wf t -> tracker_wf (update_capture t ptr f).
Proof.
  intros [H1 H2]; split; simpl; [|done].
  intros g p Hg. rewrite lookup_alter. apply H1 in Hg. destruct (decide (ptr = p)); [|done].
  subst; destruct Hg as [? ->]; eauto.
Qed.

Lemma begin_fresh t gid : tracker_wf t -> forall g, byGID t !! g <> Some (begin t gid).1.
Proof.
  intros [H1 _] g Hg. apply H1 in Hg. apply elem_of_dom in Hg. by apply is_fresh in Hg.
Qed.

Lemma tracker_wf_begin t gid : tracker_wf t -> tracker_wf (begin t gid).2.
Proof.
  intros Hwf. pose proof (begin_fresh t gid Hwf) as Hfr. destruct Hwf as [H1 H2].
  split; simpl in *.
  - intros g p. rewrite !lookup_insert. repeat case_decide; intros; simplify_eq; naive_solver.
  - intros g g' p. rewrite !lookup_insert. repeat case_decide; intros; simplify_eq; eauto;
      exfalso; naive_solver.
Qed.

Lemma tracker_wf_end t gid : tracker_wf t -> tracker_wf (end_ t gid).
Proof.
  intros [H1 H2]; split; simpl; intros *; rewrite !lookup_delete; repeat case_decide; naive_solver.
Qed.

Lemma tracker_wf_step t ev : tracker_wf t -> tracker_wf (guest_step t ev).
Proof.
  destruct ev as [g []]; cbn [guest_step]; auto using tracker_wf_begin, tracker_wf_end; intros Hwf.
  - unfold stdoutWriter_Write; repeat case_goal; simpl; auto using tracker_wf_update.
  - unfold stderrWriter_Write; repeat case_goal; simpl; auto using tracker_wf_update.
  - unfold record_decision; repeat case_goal; simpl; auto using tracker_wf_update.
Qed.

(** The capture of a goroutine's current invocation, as a function of what it
    has done so far. *)
Definition captured (so se : string) (l : list FetchDecision) : capture :=
  mkCapture (str_take out_cap so) (str_take out_cap se) (take fetch_cap l).

Lemma lookup_update_ne t ptr ptr' f :
  ptr' <> ptr -> heap (update_capture t ptr' f) !! ptr = heap t !! ptr.
Proof. intros. simpl. by rewrite lookup_alter_ne. Qed.

Lemma lookup_update_eq t ptr f c :
  heap t !! ptr = Some c -> heap (update_capture t ptr f) !! ptr = Some (f c).
Proof. intros H. simpl. by rewrite lookup_alter_eq, H. Qed.

(** Another goroutine's step leaves the capture alone. *)
Lemma guest_step_other t g op gid ptr :
  tracker_wf t -> byGID t !! gid = Some ptr -> g <> gid ->
  byGID (guest_step t (g, op)) !! gid = Some ptr
  /\ heap (guest_step t (g, op)) !! ptr = heap t !! ptr.
Proof.
  intros Hwf Hgid Hne.
  assert (forall p', byGID t !! g = Some p' -> p' <> ptr) as Hp
    by (intros p' Hp' ->; by apply Hne, (wf_own t Hwf g gid ptr)).
  destruct op; simpl.
  - pose proof (begin_fresh t g Hwf gid) as Hfr; simpl in Hfr.
    rewrite !lookup_insert_ne by congruence. done.
  - by rewrite lookup_delete_ne.
  - unfold stdoutWriter_Write, current. repeat case_goal; simpl; try done.
    by rewrite lookup_alter_ne by eauto.
  - unfold stderrWriter_Write, current. repeat case_goal; simpl; try done.
    by rewrite lookup_alter_ne by eauto.
  - unfold record_decision, current. repeat case_goal; simpl; try done.
    by rewrite lookup_alter_ne by eauto.
Qed.

(** The goroutine's own step extends its capture. *)
Lemma guest_step_own t op gid ptr so se l :
  byGID t !! gid = Some ptr -> heap t !! ptr = Some (captured so se l) ->
  is_guest_io op = true ->
  byGID (guest_step t (gid, op)) !! gid = Some ptr
  /\ heap (guest_step t (gid, op)) !! ptr =
     Some (captured (so +:+ stdout_of gid [(gid, op)]) (se +:+ stderr_of gid [(gid, op)])
                    (l ++ fetches_of gid [(gid, op)])).
Proof.
  intros Hgid Hptr Hio. destruct op; simpl in *; try done;
    rewrite (bool_decide_eq_true_2 (gid = gid)) by done;
    rewrite ?str_app_nil_r, ?app_nil_r.
  - unfold stdoutWriter_Write, current; rewrite Hgid, Hptr.
    pose proof (boundedBuffer_take so p) as Hb. simpl stdout.
    destruct (boundedBuffer_Write _ p) as [b n]. simpl in *. split; [done|].
    by rewrite lookup_alter_eq, Hptr; simpl; rewrite Hb.
  - unfold stderrWriter_Write, current; rewrite Hgid, Hptr.
    pose proof (boundedBuffer_take se p) as Hb. simpl stderr.
    destruct (boundedBuffer_Write _ p) as [b n]. simpl in *. split; [done|].
    by rewrite lookup_alter_eq, Hptr; simpl; rewrite Hb.
  - unfold record_decision, current; rewrite Hgid. split; [done|].
    rewrite (lookup_update_eq _ _ _ _ Hptr). unfold captured. by rewrite recordFetch_take.
Qed.

Lemma io_cons gid ev evs :
  stdout_of gid (ev :: evs) = stdout_of gid [ev] +:+ stdout_of gid evs
  /\ stderr_of gid (ev :: evs) = stderr_of gid [ev] +:+ stderr_of gid evs
  /\ fetches_of gid (ev :: evs) = fetches_of gid [ev] ++ fetches_of gid evs.
Proof.
  destruct ev as [g []]; simpl; split_and!; try done; case_goal; simpl;
    rewrite ?str_app_nil_r; done.
Qed.

Lemma io_other g gid op : g <> gid ->
  stdout_of gid [(g, op)] = "" /\ stderr_of gid [(g, op)] = "" /\ fetches_of gid [(g, op)] = [].
Proof.
  intros Hne. destruct op; simpl; try done; by rewrite (bool_decide_eq_false_2 (g = gid)).
Qed.

Lemma guest_steps evs t gid ptr so se l :
  tracker_wf t -> byGID t !! gid = Some ptr -> heap t !! ptr = Some (captured so se l) ->
  Forall (fun ev => ev.1 = gid -> is_guest_io ev.2 = true) evs ->
  heap (fold_left guest_step evs t) !! ptr =
    Some (captured (so +:+ stdout_of gid evs) (se +:+ stderr_of gid evs) (l ++ fetches_of gid evs)).
Proof.
  revert t so se l; induction evs as [|[g op] evs IH]; intros t so se l Hwf Hgid Hptr Hall.
  { simpl. by rewrite !str_app_nil_r, app_nil_r. }
  inversion Hall as [|? ? Hev Hall']; subst; simpl in Hev.
  destruct (io_cons gid (g, op) evs) as (-> & -> & ->).
  cbn [fold_left]. destruct (decide (g = gid)) as [->|Hne].
  - destruct (guest_step_own t op gid ptr so se l) as [H1 H2]; auto.
    rewrite (IH _ _ _ _ (tracker_wf_step _ _ Hwf) H1 H2 Hall').
    by rewrite !str_app_assoc, app_assoc.
  - destruct (guest_step_other t g op gid ptr Hwf Hgid Hne) as [H1 H2].
    destruct (io_other g gid op Hne) as (-> & -> & ->). simpl.
    rewrite Hptr in H2. apply (IH _ _ _ _ (tracker_wf_step _ _ Hwf) H1 H2 Hall').
Qed.

(** ** Properties *)

(** However the invocations of other goroutines interleave with it, an
    invocation's capture holds exactly the first 32 KiB of what its own
    goroutine wrote to each stream and its first 200 fetch decisions. *)
Theorem capture_isolated_and_bounded t gid evs
    (Hwf : tracker_wf t)
    (Hown : Forall (fun ev => ev.1 = gid -> is_guest_io ev.2 = true) evs) :
  let '(ptr, t1) := begin t gid in
  heap (fold_left guest_step evs t1) !! ptr =
    Some (mkCapture (str_take (Z.to_nat maxCapturedOutputBytes) (stdout_of gid evs))
                    (str_take (Z.to_nat maxCapturedOutputBytes) (stderr_of gid evs))
                    (take (Z.to_nat maxCapturedFetchDecisions) (fetches_of gid evs))).
Proof.
  destruct (begin t gid) as [ptr t1] eqn:Eb.
  pose proof (tracker_wf_begin t gid Hwf) as Hwf1. rewrite Eb in Hwf1.
  pose proof (f_equal fst Eb) as Ep. pose proof (f_equal snd Eb) as Et. simpl in Ep, Et.
  change (Z.to_nat maxCapturedOutputBytes) with out_cap.
  change (Z.to_nat maxCapturedFetchDecisions) with fetch_cap.
  apply (guest_steps evs t1 gid ptr "" "" []); try done; subst; simpl.
  - by rewrite lookup_insert_eq.
  - by rewrite lookup_insert_eq.
Qed.

Lemma capture_isolated_and_bounded_witness :
  let '(ptr, t1) := begin (newInvocationTracker ∅) 7 in
  heap (fold_left guest_step [(7%N, OpStdout "a"); (8%N, OpBegin); (8%N, OpStdout "b")] t1) !! ptr
  = Some (mkCapture "a" "" []).
Proof.
  apply (capture_isolated_and_bounded (newInvocationTracker ∅) 7
    [(7%N, OpStdout "a"); (8%N, OpBegin); (8%N, OpStdout "b")]).
  - apply tracker_wf_new.
  - repeat constructor; simpl; done.
Defined.

(** A truncated write reports the truncated length, not the length it was
    given. *)
Lemma truncated_write_is_short buf p :
  str_len buf < maxCapturedOutputBytes < str_len buf + str_len p ->
  (boundedBuffer_Write buf p).2 = maxCapturedOutputBytes - str_len buf
  /\ (boundedBuffer_Write buf p).2 < str_len p.
Proof.
  unfold boundedBuffer_Write. intros H. case_goal; [bool_lia|]. case_goal; [|bool_lia].
  simpl. rewrite str_len_take by lia. lia.
Qed.
