(* ===== verification/FetchGuard.v ===== *)
(** * FetchGuard: the hooks that decide what guest code may load and dial

    Models src/runtime/hooks.go (the Resolve and Dial hooks),
    src/runtime/loader.go (module resolution against a bundle) and
    src/server/internal/invoke/policy.go (the adapter that answers the hooks
    from the live effective policy and the SSRF guard). *)

From S2P Require Import Prelude GoNet Policy Capture.

(** ** runtime/hooks.go

    The [FetchPolicy] interface, over a state [W] the implementation may read
    and change (the recorded decisions). *)
Class FetchPolicyOps (W A : Type) := {
  AllowHost : A -> W -> string -> Z -> bool * W;
  AllowIP : A -> W -> string -> bool * W
}.

Section Hooks.
Context {W A : Type} `{FetchPolicyOps W A}.

Definition ResolveHook (policy : option A) (w : W) (host : string) : bool * W :=
  match policy with
  | None => (false, w)
  | Some p => AllowHost p w host 0
  end.

Definition DialHook (policy : option A) (w : W) (network host ip : string) (port : Z)
    : bool * W :=
  match policy with
  | None => (false, w)
  | Some p =>
      let matchHost := if host == "" then ip else host in
      let '(ok, w) := AllowHost p w matchHost port in
      if negb ok then (false, w) else AllowIP p w ip
  end.
End Hooks.

(** ** invoke/policy.go *)

Section Adapter.
Context {U : UnicodeTables}.

(** The world an adapter is called in: the live configuration its [resolve]
    closure reads, the trackers, and the calling goroutine. *)
Record adapter_world (C : Type) := mkWorld {
  live : C;
  tracking : invocationTracker;
  gid : N
}.
Arguments mkWorld {C}.
Arguments live {C}.
Arguments tracking {C}.
Arguments gid {C}.

(** [fetchPolicyAdapter]. [literalIPs] is keyed by the 16-byte form of an
    address, of which [net.IP.String] is an injective rendering;
    [has_tracker] is [tracker != nil]. *)
Record fetchPolicyAdapter (C : Type) := mkAdapter {
  resolve : C -> EffectivePolicy;
  literalIPs : list IP;
  has_tracker : bool
}.
Arguments mkAdapter {C}.
Arguments resolve {C}.
Arguments literalIPs {C}.
Arguments has_tracker {C}.

Definition patternLiteralIP (p : Pattern) : option IP :=
  let host := Pattern_String p in
  let host := match SplitHostPort host with Ok (h, _) => h | Err _ => host end in
  ParseIP host.

Definition newFetchPolicyAdapter {C} (resolve : C -> EffectivePolicy)
    (manifestAllow : list Pattern) (tracker : bool) : fetchPolicyAdapter C :=
  mkAdapter resolve (omap patternLiteralIP manifestAllow) tracker.

Definition record {C} (a : fetchPolicyAdapter C) (w : adapter_world C)
    (host : string) (port : Z) (allowed : bool) (stage : string) : adapter_world C :=
  if negb (has_tracker a) then w
  else mkWorld (live w)
         (record_decision (tracking w) (gid w) (mkFetchDecision host port allowed stage)) (gid w).

Definition Adapter_AllowHost {C} (a : fetchPolicyAdapter C) (w : adapter_world C)
    (host : string) (port : Z) : bool * adapter_world C :=
  let allowed := Decision (resolve a (live w)) host port in
  (allowed, record a w host port allowed "resolve").

Definition Adapter_AllowIP {C} (a : fetchPolicyAdapter C) (w : adapter_world C) (ip : string)
    : bool * adapter_world C :=
  match ParseIP ip with
  | None => (false, record a w ip 0 false "dial")
  | Some parsed =>
      if bool_decide (parsed ∈ literalIPs a) then (true, record a w ip 0 true "dial")
      else
        let allowed := negb (BlockedIP parsed) in
        (allowed, record a w ip 0 allowed "dial")
  end.

#[export] Instance adapter_ops {C} : FetchPolicyOps (adapter_world C) (fetchPolicyAdapter C) := {|
  AllowHost := Adapter_AllowHost;
  AllowIP := Adapter_AllowIP
|}.
End Adapter.
Arguments mkWorld {C}.
Arguments live {C}.
Arguments tracking {C}.
Arguments gid {C}.

(** ** runtime/loader.go *)

(** [Bundle]: virtual path to contents. *)
Definition Bundle := gmap string string.

(** [path.Ext]: the suffix from the last dot of the last path element. *)
Fixpoint path_ext_rev (rev acc : string) : string :=
  match rev with
  | EmptyString => ""
  | String c r =>
      if (c =? "/")%char then ""
      else if (c =? ".")%char then String c acc
      else path_ext_rev r (String c acc)
  end.
Definition path_Ext (p : string) : string := path_ext_rev (str_rev p) "".

Inductive LoadErr := NoFileExtension | EscapesRoot | ModuleNotFound.

(** [NewLoader]'s module loader (the engine configuration and the referrer are
    not used by the source). *)
Definition NewLoader (bundle : Bundle) (specifier : string) : result LoadErr string :=
  if path_Ext specifier == "" then Err NoFileExtension
  else
    let clean := trim_prefix specifier "/" in
    if (clean == "..") || has_prefix clean "../" then Err EscapesRoot
    else match bundle !! clean with
         | Some src => Ok src
         | None => Err ModuleNotFound
         end.

Example path_ext_example : path_Ext "lib/a.b/greet.js" = ".js" /\ path_Ext "a.b/c" = "".
Proof. by split. Qed.

(** ** Properties *)

Section Properties.
Context {U : UnicodeTables} {C : Type}.

Lemma record_live (a : fetchPolicyAdapter C) w h q b s : live (record a w h q b s) = live w.
Proof. unfold record; by case_goal. Qed.

(** C2. Outbound connections: the dial hook permits a connection exactly
    when the policy in force at that moment permits the host (the address
    itself for an unnamed dial) at the real port, and the address parses and
    is either outside the SSRF guard or one of the literal addresses the
    function's own manifest lists. *)
Theorem dial_guard (cfg : C -> EffectivePolicy) (manifestAllow : list Pattern) (tracker : bool)
    (w : adapter_world C) (network host ip : string) (port : Z) :
  (DialHook (Some (newFetchPolicyAdapter cfg manifestAllow tracker)) w network host ip port).1
    = true
  <-> Decision (cfg (live w)) (if host == "" then ip else host) port = true
      /\ exists parsed, ParseIP ip = Some parsed
         /\ (BlockedIP parsed = false
             \/ exists p, In p manifestAllow /\ patternLiteralIP p = Some parsed).
Proof.
  unfold DialHook; simpl AllowHost; unfold Adapter_AllowHost; cbn [resolve newFetchPolicyAdapter].
  set (mh := if host == "" then ip else host).
  destruct (Decision (cfg (live w)) mh port) eqn:ED; simpl; [|naive_solver].
  unfold Adapter_AllowIP. destruct (ParseIP ip) as [parsed|] eqn:EP; simpl; [|naive_solver].
  case_bool_decide as Hin; simpl.
  - apply list_elem_of_omap in Hin as (p & Hp & Hl). apply list_elem_of_In in Hp. naive_solver.
  - rewrite negb_true_iff. split; [naive_solver|].
    intros [_ (? & [= <-] & [Hb|(p & Hp & Hl)])]; [done|]. exfalso; apply Hin.
    apply list_elem_of_omap. exists p. by rewrite list_elem_of_In.
Qed.

(** Module loading never leaves the bundle: what the loader returns is a
    file of the bundle under a name with an extension that does not start
    above the root, and every such file is loadable by its own name. *)
Theorem loader_confined (b : Bundle) (specifier src : string) :
  NewLoader b specifier = Ok src <->
  path_Ext specifier <> "" /\ trim_prefix specifier "/" <> ".."
  /\ has_prefix (trim_prefix specifier "/") "../" = false
  /\ b !! trim_prefix specifier "/" = Some src.
Proof.
  unfold NewLoader. set (clean := trim_prefix specifier "/").
  destruct (path_Ext specifier == "") eqn:E1;
    [apply String.eqb_eq in E1; naive_solver|apply String.eqb_neq in E1].
  destruct (clean == "..") eqn:E2; simpl;
    [apply String.eqb_eq in E2; naive_solver|apply String.eqb_neq in E2].
  destruct (has_prefix clean "../") eqn:E3; [naive_solver|].
  destruct (b !! clean); naive_solver.
Qed.
End Properties.
