(* ===== verification/Manifest.v ===== *)
(** * Manifest: the function manifest

    Models the [manifest] package (src/manifest): parsing and typing of the
    fields ([parse.go], [size.go]), validation ([validate.go], [reserved.go]),
    entry-point resolution ([main.go]) and the stored form ([normalized.go]).
    The YAML decoder is a parameter. *)

From Stdlib Require Import SpecFloat.
From S2P Require Import Prelude GoNum Policy.

Inductive ManifestErr :=
| ErrParse
| ErrInvalidTimeout
| ErrInvalidMemory
| ErrInvalidFetchPolicy
| ErrInvalidVisibility
| ErrNilManifest
| ErrInvalidName
| ErrReservedName
| ErrInvalidOwner
| ErrDescriptionTooLong
| ErrInvalidEnv
| ErrMainNotFound
| ErrNoEntryPoint.

(** ** manifest/manifest.go *)

Record Compat := mkCompat { Nodejs : bool }.
Record FetchPermission := mkFetchPermission {
  fetch_mode : FetchMode;
  fetch_allow : list Pattern
}.
Record Permissions := mkPermissions { Fetch : FetchPermission }.

Record Manifest := mkManifest {
  Source : string;
  Name : string;
  Owner : string;
  Main : string;
  Description : string;
  Timeout : option Z;
  Memory : option Z;
  m_Compat : Compat;
  m_Permissions : Permissions;
  Env : list string;
  m_Visibility : option Visibility
}.

Definition FetchPermission_FetchPolicy (f : FetchPermission) : FetchPolicy :=
  mkFetchPolicy (fetch_mode f) (fetch_allow f).

(** ** manifest/size.go *)

Definition byteUnits : list (string * Z) :=
  [("kib", 2 ^ 10); ("mib", 2 ^ 20); ("gib", 2 ^ 30); ("tib", 2 ^ 40);
   ("kb", 1000); ("mb", 1000 * 1000); ("gb", 1000 * 1000 * 1000);
   ("tb", 1000 * 1000 * 1000 * 1000); ("b", 1)].

Section Sizes.
Context {U : UnicodeTables} {F : FloatToInt}.

Fixpoint size_with_unit (units : list (string * Z)) (trimmed lower : string)
    : option (result ManifestErr Z) :=
  match units with
  | [] => None
  | (suffix, multiplier) :: rest =>
      if has_suffix lower suffix then
        let numPart :=
          trim_space (str_take (String.length trimmed - String.length suffix) trimmed) in
        Some
          (if numPart == "" then Err ErrInvalidMemory
           else match ParseFloat numPart with
                | None => Err ErrInvalidMemory
                | Some n =>
                    if f64_lt0 n then Err ErrInvalidMemory
                    else Ok (int64_of_float (f64_mul n (f64_of_Z multiplier)))
                end)
      else size_with_unit rest trimmed lower
  end.

Definition parseByteSize (s : string) : result ManifestErr Z :=
  let trimmed := trim_space s in
  if trimmed == "" then Err ErrInvalidMemory
  else
    match size_with_unit byteUnits trimmed (to_lower trimmed) with
    | Some r => r
    | None =>
        match atoi trimmed with
        | Some n => if n <? 0 then Err ErrInvalidMemory else Ok n
        | None => Err ErrInvalidMemory
        end
    end.
End Sizes.

(** ** manifest/parse.go *)

Definition manifestFilenames : list string := ["funcbox.yaml"; "funcbox.yml"; "funcbox.json"].

Record rawManifest := mkRaw {
  r_Name : string;
  r_Owner : string;
  r_Main : string;
  r_Description : string;
  r_Timeout : string;
  r_Memory : string;
  r_Nodejs : bool;
  r_fetch_Mode : string;
  r_fetch_Allow : list string;
  r_Env : list string;
  r_Visibility : string
}.

(** The YAML decoder into [rawManifest], unknown fields disallowed. *)
Class YamlDecoder := { yaml_unmarshal : string -> option rawManifest }.

Fixpoint first_present (candidates : list string) (files : gmap string string)
    : option (string * string) :=
  match candidates with
  | [] => None
  | c :: rest =>
      match files !! c with
      | Some data => Some (c, data)
      | None => first_present rest files
      end
  end.

Definition findManifestFile (files : gmap string string) : option (string * string) :=
  first_present manifestFilenames files.

Section Parsing.
Context {U : UnicodeTables} {F : FloatToInt} {Y : YamlDecoder}.

Fixpoint parse_patterns (l : list string) : result ManifestErr (list Pattern) :=
  match l with
  | [] => Ok []
  | s :: rest =>
      match ParsePattern s with
      | Err _ => Err ErrInvalidFetchPolicy
      | Ok p => let! ps := parse_patterns rest in Ok (p :: ps)
      end
  end.

Definition buildFetchPermission (mode : string) (allow : list string)
    : result ManifestErr FetchPermission :=
  let! m :=
    if mode == "" then Ok FetchModeDeny
    else match ParseFetchMode mode with
         | Some m => Ok m
         | None => Err ErrInvalidFetchPolicy
         end in
  let! ps := parse_patterns allow in
  Ok (mkFetchPermission m ps).

Definition build_timeout (s : string) : result ManifestErr (option Z) :=
  if s == "" then Ok None
  else match ParseDuration s with
       | None => Err ErrInvalidTimeout
       | Some d => if d <=? 0 then Err ErrInvalidTimeout else Ok (Some d)
       end.

Definition build_memory (s : string) : result ManifestErr (option Z) :=
  if s == "" then Ok None
  else
    let! n := parseByteSize s in
    if n <=? 0 then Err ErrInvalidMemory else Ok (Some n).

Definition build_visibility (s : string) : result ManifestErr (option Visibility) :=
  if s == "" then Ok None
  else match ParseVisibility s with
       | Some v => Ok (Some v)
       | None => Err ErrInvalidVisibility
       end.

Definition buildManifest (raw : rawManifest) : result ManifestErr Manifest :=
  let! timeout := build_timeout (r_Timeout raw) in
  let! memory := build_memory (r_Memory raw) in
  let! fetch := buildFetchPermission (r_fetch_Mode raw) (r_fetch_Allow raw) in
  let! vis := build_visibility (r_Visibility raw) in
  Ok (mkManifest "" (r_Name raw) (r_Owner raw) (r_Main raw) (r_Description raw) timeout memory
        (mkCompat (r_Nodejs raw)) (mkPermissions fetch) (r_Env raw) vis).

Definition empty_manifest : Manifest :=
  mkManifest "" "" "" "" "" None None (mkCompat false)
    (mkPermissions (mkFetchPermission FetchModeDeny [])) [] None.

Definition with_source (m : Manifest) (name : string) : Manifest :=
  mkManifest name (Name m) (Owner m) (Main m) (Description m) (Timeout m) (Memory m)
    (m_Compat m) (m_Permissions m) (Env m) (m_Visibility m).

Definition Parse (files : gmap string string) : result ManifestErr Manifest :=
  match findManifestFile files with
  | None => Ok empty_manifest
  | Some (name, data) =>
      match yaml_unmarshal data with
      | None => Err ErrParse
      | Some raw => let! m := buildManifest raw in Ok (with_source m name)
      end
  end.
End Parsing.

(** ** manifest/reserved.go *)

Definition ReservedNames : list string :=
  ["dashboard"; "api"; "auth"; "dev"; "assets"; "healthz"; "metrics"; "run"; "www"; "admin";
   "status"; "favicon.ico"; "robots.txt"].

Definition IsReserved (name : string) : bool :=
  if has_prefix name "_" || has_prefix name "xn--" then true
  else existsb (String.eqb name) ReservedNames.

(** ** manifest/validate.go *)

(** [nameRE]: [^[a-z0-9]([a-z0-9-]{0,61}[a-z0-9])?$]. *)
Definition nameRE (s : string) : bool :=
  match s with
  | EmptyString => false
  | String c EmptyString => is_lower_alnum c
  | String c r =>
      is_lower_alnum c
      && (String.length r <=? 62)%nat
      && str_forallb (fun d => is_lower_alnum d || (d =? "-")%char) r
      && match str_rev r with String d _ => is_lower_alnum d | EmptyString => false end
  end.

Definition is_env_head (c : ascii) : bool := is_lower c || is_upper c || (c =? "_")%char.

(** [envNameRE]: [^[A-Za-z_][A-Za-z0-9_]*$]. *)
Definition envNameRE (s : string) : bool :=
  match s with
  | EmptyString => false
  | String c r => is_env_head c && str_forallb (fun d => is_env_head d || is_digit d) r
  end.

Definition MaxDescriptionLength : Z := 500.

Definition validateDNSLabel (value : string) (notMatch : ManifestErr) : result ManifestErr unit :=
  if negb (nameRE value) then Err notMatch
  else if IsReserved value then Err ErrReservedName
  else Ok tt.

Definition validateName (name : string) : result ManifestErr unit :=
  validateDNSLabel name ErrInvalidName.

Definition ValidateUserID (userID : string) : result ManifestErr unit :=
  validateDNSLabel userID ErrInvalidName.

Definition IsValidEnvKey (key : string) : bool := envNameRE key.

Fixpoint validate_env_loop (env : list string) (seen : gset string) : result ManifestErr unit :=
  match env with
  | [] => Ok tt
  | key :: rest =>
      if negb (envNameRE key) then Err ErrInvalidEnv
      else if bool_decide (key ∈ seen) then Err ErrInvalidEnv
      else validate_env_loop rest ({[key]} ∪ seen)
  end.

Definition validateEnv (env : list string) : result ManifestErr unit := validate_env_loop env ∅.

(** [Validate]; [None] is Go's nil manifest. *)
Definition Validate (m : option Manifest) : result ManifestErr unit :=
  match m with
  | None => Err ErrNilManifest
  | Some m =>
      let! _ := validateName (Name m) in
      let! _ := if Owner m == "" then Ok tt else validateDNSLabel (Owner m) ErrInvalidOwner in
      if MaxDescriptionLength <? RuneCountInString (Description m) then Err ErrDescriptionTooLong
      else validateEnv (Env m)
  end.

(** ** manifest/main.go *)

Definition DefaultMainCandidates : list string := ["index.js"; "index.mjs"].

Definition ResolveMain (main : string) (files : gmap string string) : result ManifestErr string :=
  if negb (main == "") then
    match files !! main with None => Err ErrMainNotFound | Some _ => Ok main end
  else
    match first_present DefaultMainCandidates files with
    | Some (c, _) => Ok c
    | None => Err ErrNoEntryPoint
    end.

(** ** manifest/normalized.go *)

Record NormalizedFetch := mkNormalizedFetch {
  n_Mode : string;
  n_Allow : list string
}.

Record Normalized := mkNormalized {
  n_Source : string;
  n_Name : string;
  n_Owner : string;
  n_Main : string;
  n_Description : string;
  n_Timeout : string;
  n_Memory : Z;
  n_Nodejs : bool;
  n_Fetch : NormalizedFetch;
  n_Env : list string;
  n_Visibility : string
}.

Definition patternStrings (patterns : list Pattern) : list string := map Pattern_String patterns.

Definition Manifest_Normalized (m : Manifest) : Normalized :=
  mkNormalized (Source m) (Name m) (Owner m) (Main m) (Description m)
    (match Timeout m with Some d => Duration_String d | None => "" end)
    (match Memory m with Some n => n | None => 0 end)
    (Nodejs (m_Compat m))
    (mkNormalizedFetch (FetchMode_String (fetch_mode (Fetch (m_Permissions m))))
                       (patternStrings (fetch_allow (Fetch (m_Permissions m)))))
    (Env m)
    (match m_Visibility m with Some v => Visibility_String v | None => "" end).

(** ** Lemmas *)

Definition name_char (c : ascii) : bool := is_lower_alnum c || (c =? "-")%char.

(** A DNS label, declaratively. *)
Definition dns_label (s : string) : Prop :=
  1 <= str_len s <= 63 /\ str_forallb name_char s = true
  /\ has_prefix s "-" = false /\ has_suffix s "-" = false.

Lemma name_char_hyphen c : name_char c = true -> (is_lower_alnum c = true <-> c <> "-"%char).
Proof. destruct c as [[] [] [] [] [] [] [] []]; vm_compute; intuition congruence. Qed.

Lemma has_prefix_hyphen c r : has_prefix (String c r) "-" = false <-> c <> "-"%char.
Proof.
  rewrite <- not_true_iff_false, has_prefix_spec. split; intros H.
  - intros ->. apply H. by exists r.
  - intros [r' Hr]. simpl in Hr. congruence.
Qed.

Lemma has_suffix_snoc r d e : has_suffix (r +:+ String d "") (String e "") = (d =? e)%char.
Proof.
  rewrite has_suffix_app by (simpl; lia). unfold has_suffix; simpl.
  by destruct (d =? e)%char.
Qed.

Lemma nameRE_spec s : nameRE s = true <-> dns_label s.
Proof.
  unfold dns_label. destruct s as [|c r].
  { split; [done|]. intros [H _]. unfold str_len in H; simpl in H. lia. }
  rewrite has_prefix_hyphen.
  destruct (decide (r = "")) as [->|Hne].
  - change (nameRE (String c "")) with (is_lower_alnum c).
    change (has_suffix (String c "") "-") with (has_suffix ("" +:+ String c "") "-").
    rewrite has_suffix_snoc. cbn [str_forallb]. rewrite andb_true_r.
    rewrite Ascii.eqb_neq. change (str_len (String c "")) with 1.
    pose proof (name_char_hyphen c). unfold name_char in *.
    destruct (is_lower_alnum c); simpl in *; naive_solver lia.
  - assert (nameRE (String c r) = is_lower_alnum c && (String.length r <=? 62)%nat
      && str_forallb name_char r
      && match str_rev r with String d _ => is_lower_alnum d | EmptyString => false end) as ->
      by (by destruct r).
    destruct (str_snoc_inv r Hne) as (r' & d & ->). rewrite str_rev_snoc.
    change (String c (r' +:+ String d "")) with (String c r' +:+ String d "").
    rewrite has_suffix_snoc, Ascii.eqb_neq. simpl.
    unfold str_len; simpl. rewrite !andb_true_iff, Nat.leb_le.
    rewrite !str_forallb_app; simpl. rewrite !str_length_app; simpl.
    rewrite !andb_true_iff.
    pose proof (name_char_hyphen c). pose proof (name_char_hyphen d).
    assert (forall x, is_lower_alnum x = true -> name_char x = true)
      by (unfold name_char; by intros x ->).
    split; intros; destruct_and?; split_and?; naive_solver lia.
Qed.

Lemma validate_env_loop_spec env seen :
  validate_env_loop env seen = Ok tt <->
  Forall (fun k => envNameRE k = true) env /\ NoDup env /\ (forall k, k ∈ env -> k ∉ seen).
Proof.
  revert seen; induction env as [|k env IH]; intros seen; simpl.
  { split; [|done]. intros _. split_and!; [constructor|constructor|]. intros k Hk. by inversion Hk. }
  rewrite Forall_cons, NoDup_cons. setoid_rewrite elem_of_cons.
  destruct (envNameRE k) eqn:E; simpl; [|naive_solver].
  case_bool_decide as Hs; [naive_solver|]. rewrite IH. setoid_rewrite elem_of_union.
  setoid_rewrite elem_of_singleton. naive_solver.
Qed.

Lemma validateDNSLabel_spec v e :
  validateDNSLabel v e = Ok tt <-> dns_label v /\ IsReserved v = false.
Proof.
  unfold validateDNSLabel. rewrite <- nameRE_spec.
  destruct (nameRE v); simpl; [|naive_solver]. destruct (IsReserved v); naive_solver.
Qed.

Lemma seq_unit {E} (m k : result E unit) : (let! _ := m in k) = Ok tt <-> m = Ok tt /\ k = Ok tt.
Proof. destruct m as [[]|]; simpl; naive_solver. Qed.

Lemma first_present_spec cs files :
  match first_present cs files with
  | Some (c, d) => exists l1 l2, cs = l1 ++ c :: l2 /\ files !! c = Some d
                    /\ Forall (fun x => files !! x = None) l1
  | None => Forall (fun x => files !! x = None) cs
  end.
Proof.
  induction cs as [|c cs IH]; simpl; [constructor|].
  destruct (files !! c) as [d|] eqn:E.
  { exists [], cs. split_and!; auto. }
  destruct (first_present cs files) as [[c' d]|]; [|by constructor].
  destruct IH as (l1 & l2 & -> & Hd & Hl). exists (c :: l1), l2. split_and!; auto.
Qed.

(** ** Properties *)

(** Validation accepts a manifest exactly when its name is an unreserved
    DNS label, its owner is absent or one too, its description has at most 500
    characters, and its environment keys are well formed and distinct. *)
Theorem validate_spec (m : Manifest) :
  Validate (Some m) = Ok tt <->
  (dns_label (Name m) /\ IsReserved (Name m) = false)
  /\ (Owner m = "" \/ (dns_label (Owner m) /\ IsReserved (Owner m) = false))
  /\ RuneCountInString (Description m) <= 500
  /\ Forall (fun k => envNameRE k = true) (Env m) /\ NoDup (Env m).
Proof.
  unfold Validate, validateName, MaxDescriptionLength. rewrite !seq_unit, validateDNSLabel_spec.
  assert ((if 500 <? RuneCountInString (Description m) then Err ErrDescriptionTooLong
           else validateEnv (Env m)) = Ok tt
    <-> RuneCountInString (Description m) <= 500 /\ validateEnv (Env m) = Ok tt) as ->.
  { destruct (500 <? _) eqn:E; [|]; rewrite ?Z.ltb_lt, ?Z.ltb_ge in E; naive_solver lia. }
  unfold validateEnv. rewrite validate_env_loop_spec.
  assert ((if Owner m == "" then Ok tt else validateDNSLabel (Owner m) ErrInvalidOwner) = Ok tt
    <-> Owner m = "" \/ (dns_label (Owner m) /\ IsReserved (Owner m) = false)) as ->.
  { destruct (Owner m == "") eqn:E; [apply String.eqb_eq in E|apply String.eqb_neq in E];
      rewrite ?validateDNSLabel_spec; naive_solver. }
  set_solver.
Qed.

Section Typing.
Context {U : UnicodeTables} {F : FloatToInt} {Y : YamlDecoder}.

Lemma size_with_unit_range us t l n :
  size_with_unit us t l = Some (Ok n) -> min_int64 <= n <= max_int64.
Proof.
  induction us as [|[suf mul] us IH]; simpl; [done|].
  destruct (has_suffix l suf); [|done]. intros [= H].
  case_all H. injection H as <-. apply int64_of_float_range.
Qed.

Lemma atoi_range s n : atoi s = Some n -> min_int64 <= n <= max_int64.
Proof. unfold atoi. intros H. case_all H; injection H as <-; bool_lia. Qed.

Lemma parseByteSize_range s n : parseByteSize s = Ok n -> min_int64 <= n <= max_int64.
Proof.
  unfold parseByteSize. intros H. case_all H; simplify_eq; eauto using size_with_unit_range.
  eauto using atoi_range.
Qed.

Lemma parse_patterns_spec l ps :
  parse_patterns l = Ok ps -> Forall2 (fun s p => ParsePattern s = Ok p) l ps.
Proof.
  revert ps; induction l as [|s l IH]; simpl; intros ps H; [by injection H as <-|].
  case_step H. apply rbind_ok in H as (ps' & H & [= <-]). auto.
Qed.

(** What a typed manifest guarantees about its source text. *)
Record typed_from (raw : rawManifest) (m : Manifest) : Prop := {
  tf_timeout : match Timeout m with
               | Some d => 0 < d <= max_int64 /\ ParseDuration (r_Timeout raw) = Some d
               | None => r_Timeout raw = ""
               end;
  tf_memory : match Memory m with
              | Some n => 0 < n <= max_int64 /\ parseByteSize (r_Memory raw) = Ok n
              | None => r_Memory raw = ""
              end;
  tf_mode : FetchMode_String (fetch_mode (Fetch (m_Permissions m))) = r_fetch_Mode raw
            \/ (r_fetch_Mode raw = "" /\ fetch_mode (Fetch (m_Permissions m)) = FetchModeDeny);
  tf_allow : Forall2 (fun s p => ParsePattern s = Ok p) (r_fetch_Allow raw)
               (fetch_allow (Fetch (m_Permissions m)));
  tf_visibility : match m_Visibility m with
                  | Some v => Visibility_String v = r_Visibility raw
                  | None => r_Visibility raw = ""
                  end;
  tf_text : Name m = r_Name raw /\ Owner m = r_Owner raw /\ Main m = r_Main raw
            /\ Description m = r_Description raw /\ Env m = r_Env raw
            /\ Nodejs (m_Compat m) = r_Nodejs raw
}.

Lemma build_timeout_spec s t : build_timeout s = Ok t ->
  match t with Some d => 0 < d <= max_int64 /\ ParseDuration s = Some d | None => s = "" end.
Proof.
  unfold build_timeout. intros H. case_all H; injection H as <-.
  - by apply String.eqb_eq.
  - pose proof (ParseDuration_range _ _ E0). split; [unfold max_int64; bool_lia|done].
Qed.

Lemma build_memory_spec s t : build_memory s = Ok t ->
  match t with Some n => 0 < n <= max_int64 /\ parseByteSize s = Ok n | None => s = "" end.
Proof.
  unfold build_memory. intros H. case_step H; [injection H as <-; by apply String.eqb_eq|].
  apply rbind_ok in H as (n & Hn & H). case_step H. injection H as <-.
  pose proof (parseByteSize_range _ _ Hn). split; [bool_lia|done].
Qed.

Lemma build_visibility_spec s t : build_visibility s = Ok t ->
  match t with Some v => Visibility_String v = s | None => s = "" end.
Proof.
  unfold build_visibility, ParseVisibility. intros H.
  repeat case_step H; simplify_eq; by repeat match goal with
    | H : (_ == _) = true |- _ => apply String.eqb_eq in H; rewrite H end.
Qed.

Lemma ParseFetchMode_spec s m : ParseFetchMode s = Some m -> FetchMode_String m = s.
Proof.
  unfold ParseFetchMode. intros H. repeat case_step H; simplify_eq;
  by repeat match goal with H : (_ == _) = true |- _ => apply String.eqb_eq in H; rewrite H end.
Qed.

Lemma buildManifest_typed raw m : buildManifest raw = Ok m -> typed_from raw m.
Proof.
  unfold buildManifest. intros H.
  apply rbind_ok in H as (t & Ht & H). apply rbind_ok in H as (mem & Hm & H).
  apply rbind_ok in H as (f & Hf & H). apply rbind_ok in H as (v & Hv & [= <-]).
  unfold buildFetchPermission in Hf. apply rbind_ok in Hf as (fm & Hfm & Hf).
  apply rbind_ok in Hf as (ps & Hps & [= <-]).
  split; simpl.
  - by apply build_timeout_spec.
  - by apply build_memory_spec.
  - case_step Hfm; [right|left].
    + apply String.eqb_eq in E. by injection Hfm as <-.
    + case_step Hfm. injection Hfm as ->. by apply ParseFetchMode_spec.
  - by apply parse_patterns_spec.
  - by apply build_visibility_spec.
  - done.
Qed.

(** C3. Parsing a bundle's manifest: without a manifest file every field is
    at its default and fetch is denied; otherwise the first of the accepted
    file names that is present decides, and every typed field is in range
    and spells the text it was parsed from. *)
Theorem parse_manifest_typed files m (H : Parse files = Ok m) :
  (Forall (fun f => files !! f = None) manifestFilenames /\ m = empty_manifest)
  \/ exists before after data raw,
      manifestFilenames = before ++ Source m :: after
      /\ Forall (fun f => files !! f = None) before
      /\ files !! Source m = Some data /\ yaml_unmarshal data = Some raw
      /\ typed_from raw m.
Proof.
  unfold Parse, findManifestFile in H.
  pose proof (first_present_spec manifestFilenames files) as Hf.
  destruct (first_present manifestFilenames files) as [[name data]|].
  - right. destruct Hf as (l1 & l2 & Hl & Hd & Hn).
    destruct (yaml_unmarshal data) as [raw|] eqn:Ey; [|done].
    apply rbind_ok in H as (m0 & Hm & [= <-]).
    exists l1, l2, data, raw. split_and!; try done.
    destruct (buildManifest_typed raw m0 Hm). by split.
  - left. by injection H as <-.
Qed.
End Typing.

(** A decoder that knows one document. *)
Definition one_doc_decoder : YamlDecoder := {|
  yaml_unmarshal := fun s =>
    if s == "doc" then
      Some (mkRaw "hello" "" "" "" "10s" "128MiB" false "allowlist" ["*.example.com"] [] "public")
    else None
|}.

(** The manifest that document denotes. *)
Definition hello_manifest : Manifest :=
  mkManifest "funcbox.yml" "hello" "" "" "" (Some (10 * Second)) (Some (128 * 2 ^ 20))
    (mkCompat false)
    (mkPermissions (mkFetchPermission FetchModeAllowlist
       [mkPattern "*.example.com" "example.com" true 0]))
    [] (Some VisibilityPublic).

Lemma parse_manifest_typed_witness :
  exists raw, typed_from raw hello_manifest.
Proof.
  assert (Parse (U := ascii_tables) (F := amd64_float_to_int) (Y := one_doc_decoder)
    {[ "funcbox.yml" := "doc" ]} = Ok hello_manifest) as Hp by (vm_compute; reflexivity).
  destruct (parse_manifest_typed _ _ Hp) as [[_ H]|(b & a & d & raw & _ & _ & _ & _ & H)].
  - discriminate H.
  - exists raw. exact H.
Defined.

(** The entry point a bundle resolves to is always one of its files: the
    one the manifest names, or else the first default candidate present; it
    fails only when there is none. *)
Theorem resolve_main_spec main files :
  match ResolveMain main files with
  | Ok f => is_Some (files !! f) /\ (main <> "" -> f = main)
            /\ (main = "" -> f = "index.js" \/ (f = "index.mjs" /\ files !! "index.js" = None))
  | Err e => (main <> "" /\ files !! main = None /\ e = ErrMainNotFound)
             \/ (main = "" /\ files !! "index.js" = None /\ files !! "index.mjs" = None
                 /\ e = ErrNoEntryPoint)
  end.
Proof.
  unfold ResolveMain. destruct (main == "") eqn:E; simpl.
  - apply String.eqb_eq in E as ->.
    destruct (files !! "index.js") eqn:E1; [naive_solver|].
    destruct (files !! "index.mjs") eqn:E2; naive_solver.
  - apply String.eqb_neq in E. destruct (files !! main) eqn:E1; naive_solver.
Qed.
