(* ===== verification/Bundle.v ===== *)
(** * Bundle: packing and unpacking function bundles

    Models the [bundle] package (src/bundle): the guarded extractor
    ([unpack.go]) and the canonical archiver ([pack.go]). The tar and gzip
    codecs are a parameter: an archive is read as a sequence of tar events. *)

From stdpp Require Import sorting.
From S2P Require Import Prelude GoPath.

Inductive BundleErr :=
| ErrTooLarge
| ErrTooManyFiles
| ErrBadPath
| ErrBadEntryType
| ErrRead.

Definition MaxUnpackedBytes : Z := Z.shiftl 5 20.
Definition MaxFiles : Z := 1000.
Definition MaxPathLength : Z := 256.

(** What [tar.Reader.Next] yields: an entry, whose contents may end in a read
    error, or a failure. *)
Inductive tar_event :=
| TarEntry (typeflag : ascii) (name content : string) (read_err : bool)
| TarErr.

Definition TypeReg : ascii := "0".
Definition TypeRegA : ascii := "000".
Definition TypeDir : ascii := "5".

(** ** bundle/unpack.go *)

Definition normalizePath (name : string) : result BundleErr string :=
  if name == "" then Err ErrBadPath
  else
    let norm := str_map (fun c => if (c =? "\")%char then "/"%char else c) name in
    if has_prefix norm "/" then Err ErrBadPath
    else
      let cleaned := path_Clean norm in
      if (cleaned == ".") || (cleaned == "..") || has_prefix cleaned "../" then Err ErrBadPath
      else if has_prefix cleaned "/" then Err ErrBadPath
      else if MaxPathLength <? str_len cleaned then Err ErrBadPath
      else Ok cleaned.

(** [readWithinBudget]: the data and the number of bytes charged. A read error
    is met only when the contents end before the limit. *)
Definition readWithinBudget (content : string) (read_err : bool) (remaining : Z)
    : result BundleErr string * Z :=
  let remaining := if remaining <? 0 then 0 else remaining in
  let data := str_take (Z.to_nat (remaining + 1)) content in
  if read_err && (str_len content <? remaining + 1) then (Err ErrRead, str_len data)
  else if remaining <? str_len data then (Err ErrTooLarge, remaining)
  else (Ok data, str_len data).

(** The loop of [Unpack]. *)
Fixpoint unpack_events (evs : list tar_event) (files : gmap string string) (total count : Z)
    : result BundleErr (gmap string string) :=
  match evs with
  | [] => Ok files
  | TarErr :: _ => Err ErrRead
  | TarEntry typeflag name content read_err :: rest =>
      if (typeflag =? TypeDir)%char then unpack_events rest files total count
      else if negb ((typeflag =? TypeReg)%char || (typeflag =? TypeRegA)%char)
      then Err ErrBadEntryType
      else
        match normalizePath name with
        | Err e => Err e
        | Ok name =>
            match files !! name with
            | Some _ => Err ErrBadPath
            | None =>
                let count := count + 1 in
                if MaxFiles <? count then Err ErrTooManyFiles
                else
                  let '(r, n) := readWithinBudget content read_err (MaxUnpackedBytes - total) in
                  let total := total + n in
                  match r with
                  | Err e => Err e
                  | Ok data => unpack_events rest (<[name := data]> files) total count
                  end
            end
        end
  end.

(** Byte-wise order of strings, on which [sort.Strings] sorts. *)
Definition str_le (s t : string) : Prop := String.leb s t = true.

#[export] Instance str_le_dec : RelDecision str_le.
Proof. intros s t. unfold str_le. apply _. Defined.

(** The archive codec. What the program relies on: the reader yields the
    regular files the writer was given, for names a tar header can hold
    without changing their kind. *)
Class ArchiveCodec := {
  read_archive : string -> option (list tar_event);
  write_archive : list (string * string) -> option string;
  archive_roundtrip l b :
    write_archive l = Some b ->
    Forall (fun f => f.1 <> "" /\ has_suffix f.1 "/" = false) l ->
    read_archive b = Some (map (fun f => TarEntry TypeReg f.1 f.2 false) l)
}.

Section Archives.
Context {A : ArchiveCodec}.

Definition Unpack (r : string) : result BundleErr (gmap string string) :=
  match read_archive r with
  | None => Err ErrRead
  | Some evs => unpack_events evs ∅ 0 0
  end.

(** ** bundle/pack.go

    [order] is the order in which the map of files is ranged over. *)
Definition Pack (order : list string) (files : gmap string string) : option string :=
  let names := merge_sort str_le order in
  write_archive (map (fun name => (name, default "" (files !! name))) names).
End Archives.

(** ** Lemmas: paths *)

Definition slashes (s : string) : string :=
  str_map (fun c => if (c =? "\")%char then "/"%char else c) s.

Lemma slashes_id s : str_forallb (fun d => negb (d =? "\")%char) s = true -> slashes s = s.
Proof.
  unfold slashes; induction s as [|c s IH]; simpl; [done|].
  rewrite andb_true_iff, negb_true_iff. intros [-> Hs]. f_equal. auto.
Qed.

Lemma slashes_no_backslash s : str_forallb (fun d => negb (d =? "\")%char) (slashes s) = true.
Proof.
  unfold slashes; induction s as [|c s IH]; simpl; [done|]. rewrite IH, andb_true_r.
  destruct (c =? "\")%char eqn:E; [done|].
  change (negb (c =? "\")%char = true). by rewrite E.
Qed.

Lemma split_byte_forallb f s c :
  str_forallb f s = true -> Forall (fun x => str_forallb f x = true) (split_byte s c).
Proof.
  induction s as [|d s IH]; simpl; [by repeat constructor|].
  rewrite andb_true_iff. intros [Hd Hs]. specialize (IH Hs).
  destruct (d =? c)%char; [by constructor|].
  destruct (split_byte s c) as [|x xs]; inversion IH; subst; constructor; simpl; by rewrite ?Hd.
Qed.

(** A bundle path: ordinary elements joined by slashes, of bounded length. *)
Definition bundle_path (p : string) : Prop :=
  str_len p <= MaxPathLength
  /\ exists l, l <> [] /\ Forall plain_elem l
       /\ Forall (fun e => str_forallb (fun d => negb (d =? "\")%char) e = true) l
       /\ p = join_with "/" l.

Lemma normalizePath_safe name p : normalizePath name = Ok p -> bundle_path p.
Proof.
  unfold normalizePath. fold (slashes name). intros H.
  repeat case_step H. injection H as <-. bool_facts.
  destruct (path_Clean_inside (slashes name)) as (l & Hne & Hl & Heq & Hin); try done.
  rewrite Heq in *. split; [done|]. exists l. split_and!; try done.
  pose proof (split_byte_forallb _ (slashes name) "/" (slashes_no_backslash name)) as Hs.
  rewrite Forall_forall in Hs. apply (Forall_impl _ _ _ Hin).
  intros x Hx. apply Hs. by apply list_elem_of_In.
Qed.

Lemma plain_join_first l :
  l <> [] -> Forall plain_elem l ->
  join_with "/" l <> "" /\ join_with "/" l <> "." /\ join_with "/" l <> ".."
  /\ has_prefix (join_with "/" l) "../" = false /\ has_prefix (join_with "/" l) "/" = false
  /\ has_suffix (join_with "/" l) "/" = false.
Proof.
  intros Hne Hl.
  assert (forall e r, split_byte e "/" = r -> join_with "/" l = e -> r = l) as Hsplit.
  { intros e r <- <-. apply split_join; [done|]. apply (Forall_impl _ _ _ Hl). by intros ? (_&_&_&?). }
  assert (forall x, In x l -> plain_elem x) as Hx
    by (intros x Hx; rewrite Forall_forall in Hl; apply Hl; by apply list_elem_of_In).
  split_and!.
  - intros E. specialize (Hsplit _ _ eq_refl E). subst. by destruct (Hx "" ltac:(by left)).
  - intros E. specialize (Hsplit _ _ eq_refl E). subst. by destruct (Hx "." ltac:(by left)) as (_&?&_).
  - intros E. specialize (Hsplit _ _ eq_refl E). subst. by destruct (Hx ".." ltac:(by left)) as (_&_&?&_).
  - apply not_true_iff_false. rewrite has_prefix_spec. intros [r E].
    specialize (Hsplit _ _ eq_refl E). simpl in Hsplit. 
    pose proof (split_byte_nonempty r "/"). destruct (split_byte r "/"); [done|].
    subst l. by destruct (Hx ".." ltac:(by left)) as (_&_&?&_).
  - apply not_true_iff_false. rewrite has_prefix_spec. intros [r E].
    specialize (Hsplit _ _ eq_refl E). simpl in Hsplit.
    subst l. by destruct (Hx "" ltac:(by left)).
  - apply not_true_iff_false. rewrite has_suffix_spec. intros [r E].
    specialize (Hsplit _ _ eq_refl E). rewrite split_byte_snoc in Hsplit.
    subst l. by destruct (Hx "" ltac:(apply in_or_app; right; by left)).
Qed.

Lemma normalizePath_fixed p : bundle_path p -> normalizePath p = Ok p.
Proof.
  intros (Hlen & l & Hne & Hl & Hb & ->).
  destruct (plain_join_first l Hne Hl) as (H1 & H2 & H3 & H4 & H5 & H6).
  unfold normalizePath. fold (slashes (join_with "/" l)).
  rewrite slashes_id by by apply str_forallb_join.
  rewrite path_Clean_plain by done.
  rewrite !(proj2 (String.eqb_neq _ _)) by done. rewrite H4, H5. simpl.
  by rewrite (proj2 (Z.ltb_ge _ _)).
Qed.

(** ** Lemmas: the extraction loop *)

(** The files the regular entries of an archive stand for, and their size. *)
Definition entry_files (ev : tar_event) : list (string * string) :=
  match ev with
  | TarEntry tf name content _ =>
      if (tf =? TypeReg)%char || (tf =? TypeRegA)%char then
        match normalizePath name with Ok n => [(n, content)] | Err _ => [] end
      else []
  | TarErr => []
  end.

Definition reg_files (evs : list tar_event) : list (string * string) := flat_map entry_files evs.

Definition contents_size (l : list (string * string)) : Z :=
  fold_right (fun f n => str_len f.2 + n) 0 l.

(** An entry the extractor accepts: a directory, or a readable regular file
    with an admissible path. *)
Definition acceptable (ev : tar_event) : Prop :=
  match ev with
  | TarErr => False
  | TarEntry tf name _ read_err =>
      tf = TypeDir
      \/ ((tf = TypeReg \/ tf = TypeRegA) /\ is_ok (normalizePath name) = true /\ read_err = false)
  end.

Lemma str_len_nonneg s : 0 <= str_len s.
Proof. unfold str_len; lia. Qed.

Lemma contents_size_nonneg l : 0 <= contents_size l.
Proof. induction l as [|f l IH]; simpl; [lia|]. pose proof (str_len_nonneg f.2). lia. Qed.

(** Within the budget the whole contents are read and charged; beyond it the
    read fails, whatever the entry's header says. *)
Lemma readWithinBudget_spec content re remaining :
  0 <= remaining ->
  readWithinBudget content re remaining =
    if remaining <? str_len content then (Err ErrTooLarge, remaining)
    else if re then (Err ErrRead, str_len content) else (Ok content, str_len content).
Proof.
  intros Hr. unfold readWithinBudget. rewrite (proj2 (Z.ltb_ge remaining 0)) by lia.
  rewrite str_len_take by lia.
  destruct (remaining <? str_len content) eqn:E; bool_facts.
  - rewrite (proj2 (Z.ltb_ge (str_len content) _)) by lia. rewrite andb_false_r.
    by rewrite (proj2 (Z.ltb_lt _ _)) by lia.
  - rewrite (proj2 (Z.ltb_lt (str_len content) _)) by lia. rewrite andb_true_r.
    rewrite Z.min_r by lia. rewrite (proj2 (Z.ltb_ge _ _)) by lia.
    assert (str_take (Z.to_nat (remaining + 1)) content = content) as ->.
    { rewrite <- (str_take_drop (Z.to_nat (remaining + 1)) content) at 2.
      assert (str_drop (Z.to_nat (remaining + 1)) content = "") as ->; [|by rewrite str_app_nil_r].
      destruct (str_drop _ content) as [|c r] eqn:Ed; [done|].
      apply (f_equal String.length) in Ed. rewrite str_length_drop in Ed.
      unfold str_len in *. simpl in Ed. lia. }
    by destruct re.
Qed.

Lemma typeflags_distinct :
  (TypeReg =? TypeDir)%char = false /\ (TypeRegA =? TypeDir)%char = false.
Proof. done. Qed.

Lemma unpack_events_spec evs files total count out :
  0 <= total <= MaxUnpackedBytes -> count <= MaxFiles ->
  unpack_events evs files total count = Ok out <->
  Forall acceptable evs
  /\ NoDup (map fst (reg_files evs))
  /\ Forall (fun n => files !! n = None) (map fst (reg_files evs))
  /\ count + Z.of_nat (length (reg_files evs)) <= MaxFiles
  /\ total + contents_size (reg_files evs) <= MaxUnpackedBytes
  /\ out = list_to_map (reg_files evs) ∪ files.
Proof.
  revert files total count; induction evs as [|ev evs IH]; intros files total count Ht Hc.
  { simpl. rewrite Z.add_0_r, Z.add_0_r. rewrite (left_id_L ∅ (∪)).
    split; [intros [= <-]; split_and!; auto using Forall_nil_2, NoDup_nil_2; lia|naive_solver]. }
  rewrite Forall_cons. destruct ev as [tf name content re|]; [|naive_solver].
  cbn [unpack_events reg_files flat_map entry_files acceptable].
  destruct (tf =? TypeDir)%char eqn:Ed.
  { apply Ascii.eqb_eq in Ed as ->. simpl. rewrite IH by done. naive_solver. }
  apply Ascii.eqb_neq in Ed.
  destruct ((tf =? TypeReg)%char || (tf =? TypeRegA)%char) eqn:Er; cbn [negb].
  2:{ rewrite orb_false_iff, !Ascii.eqb_neq in Er. naive_solver. }
  rewrite orb_true_iff, !Ascii.eqb_eq in Er.
  destruct (normalizePath name) as [n|e] eqn:En; simpl; [|naive_solver].
  fold (reg_files evs). rewrite NoDup_cons, Forall_cons.
  destruct (files !! n) eqn:Ef; [naive_solver|].
  destruct (MaxFiles <? count + 1) eqn:Em; bool_facts.
  { split; [done|]. intros (_ & _ & _ & Hl & _). lia. }
  rewrite readWithinBudget_spec by lia.
  pose proof (contents_size_nonneg (reg_files evs)). pose proof (str_len_nonneg content).
  destruct (MaxUnpackedBytes - total <? str_len content) eqn:Eb; bool_facts.
  { split; [done|]. intros (_ & _ & _ & _ & Hl & _). lia. }
  destruct re; [naive_solver|]. rewrite IH by lia.
  assert (Forall (fun m => (<[n := content]> files) !! m = None) (map fst (reg_files evs)) <->
          ((n ∉ map fst (reg_files evs))
           /\ Forall (fun m => files !! m = None) (map fst (reg_files evs)))) as ->.
  { rewrite !Forall_forall. split.
    - intros Hall. split; [intros Hin; specialize (Hall _ Hin); by rewrite lookup_insert_eq in Hall|].
      intros m Hm. specialize (Hall m Hm). destruct (decide (n = m)) as [->|];
        [by rewrite lookup_insert_eq in Hall|by rewrite lookup_insert_ne in Hall].
    - intros [Hn Hall] m Hm. rewrite lookup_insert_ne by (by intros ->). auto. }
  assert (n ∉ map fst (reg_files evs) ->
    (list_to_map (reg_files evs) ∪ <[n:=content]> files)
    = (<[n:=content]> (list_to_map (reg_files evs)) ∪ files)) as Hu.
  { intros Hn. rewrite <- insert_union_r by (by apply not_elem_of_list_to_map_1).
    by rewrite insert_union_l. }
  split.
  - intros (H1 & H2 & (H3 & H4) & H5 & H6 & ->). rewrite Hu by done.
    split_and!; auto; lia.
  - intros ((_ & H1) & (Hn & H2) & (_ & H3) & H5 & H6 & ->).
    split_and!; auto; try lia. by rewrite Hu.
Qed.

Lemma reg_files_paths evs : Forall (fun f => bundle_path f.1) (reg_files evs).
Proof.
  induction evs as [|[tf name content re|] evs IH]; simpl; [constructor| |done].
  destruct (_ || _); [|done]. destruct (normalizePath name) eqn:E; [|done].
  constructor; [|done]. eapply normalizePath_safe, E.
Qed.

(** ** Lemmas: the order of names *)

Lemma string_compare_cons c s d t :
  String.compare (String c s) (String d t) =
    match Ascii.compare c d with Eq => String.compare s t | x => x end.
Proof. reflexivity. Qed.

Lemma str_le_compare s t : str_le s t <-> String.compare s t <> Gt.
Proof. unfold str_le, String.leb. destruct (String.compare s t); naive_solver. Qed.

Lemma ascii_compare_lt c d : Ascii.compare c d = Lt <-> (N_of_ascii c < N_of_ascii d)%N.
Proof. apply N.compare_lt_iff. Qed.

Lemma ascii_compare_eq c d : Ascii.compare c d = Eq <-> c = d.
Proof.
  unfold Ascii.compare. rewrite N.compare_eq_iff. split; [|by intros ->].
  intros H. by rewrite <- (ascii_N_embedding c), H, ascii_N_embedding.
Qed.

#[export] Instance str_le_trans : Transitive str_le.
Proof.
  intros s t u. rewrite !str_le_compare. revert t u.
  induction s as [|c s IH]; intros [|d t] [|e u]; try done.
  rewrite !string_compare_cons.
  destruct (Ascii.compare c d) eqn:E1; [|intros _|done].
  - apply ascii_compare_eq in E1 as ->. destruct (Ascii.compare d e); try done. apply IH.
  - destruct (Ascii.compare d e) eqn:E2; [| |done]; intros H.
    + apply ascii_compare_eq in E2 as ->. by rewrite E1.
    + rewrite ascii_compare_lt in E1, E2.
      by rewrite (proj2 (ascii_compare_lt c e)) by lia.
Qed.

#[export] Instance str_le_antisymm : AntiSymm (=) str_le.
Proof. intros s t. apply String.leb_antisym. Qed.

#[export] Instance str_le_total : Total str_le.
Proof. intros s t. apply String.leb_total. Qed.

Lemma sorted_order order1 order2 :
  order1 ≡ₚ order2 -> merge_sort str_le order1 = merge_sort str_le order2.
Proof.
  intros Hp. apply (Sorted_unique str_le); try apply Sorted_merge_sort, _.
  by rewrite !merge_sort_Permutation.
Qed.

(** The names of a map of files, in some order. *)
Definition ranges (order : list string) (files : gmap string string) : Prop :=
  order ≡ₚ map fst (map_to_list files).

Lemma packed_files order (files : gmap string string) :
  ranges order files ->
  map (fun name => (name, default "" (files !! name))) (merge_sort str_le order)
    ≡ₚ map_to_list files.
Proof.
  intros Ho. rewrite merge_sort_Permutation, Ho. rewrite map_map.
  assert (map (fun x => (x.1, default "" (files !! x.1))) (map_to_list files)
          = map_to_list files) as ->; [|done].
  rewrite <- (map_id (map_to_list files)) at 2. apply map_ext_in. intros [k v] Hin.
  apply list_elem_of_In, elem_of_map_to_list in Hin. simpl. by rewrite Hin.
Qed.

(** A set of files the extractor accepts. *)
Definition within_limits (files : gmap string string) : Prop :=
  map_Forall (fun name _ => bundle_path name) files
  /\ Z.of_nat (size files) <= MaxFiles
  /\ contents_size (map_to_list files) <= MaxUnpackedBytes.

Lemma contents_size_perm l1 l2 : l1 ≡ₚ l2 -> contents_size l1 = contents_size l2.
Proof. induction 1; simpl; lia. Qed.

Lemma reg_files_packed (l : list (string * string)) :
  Forall (fun f => bundle_path f.1) l ->
  reg_files (map (fun f => TarEntry TypeReg f.1 f.2 false) l) = l
  /\ Forall acceptable (map (fun f => TarEntry TypeReg f.1 f.2 false) l).
Proof.
  induction 1 as [|[n d] l Hn Hl [IH1 IH2]]; [done|]. cbn [map reg_files flat_map].
  fold (reg_files (map (fun f => TarEntry TypeReg f.1 f.2 false) l)). rewrite IH1.
  simpl. simpl in Hn. rewrite normalizePath_fixed by done. split; [done|].
  constructor; [|done]. right. rewrite normalizePath_fixed by done. auto.
Qed.

Lemma bundle_path_name p : bundle_path p -> p <> "" /\ has_suffix p "/" = false.
Proof.
  intros (_ & l & Hne & Hl & _ & ->).
  by destruct (plain_join_first l Hne Hl) as (? & _ & _ & _ & _ & ?).
Qed.

Section ArchiveLemmas.
Context {A : ArchiveCodec}.

Lemma pack_unpack order files archive
    (Ho : ranges order files) (Hl : within_limits files) (Hp : Pack order files = Some archive) :
  Unpack archive = Ok files.
Proof.
  destruct Hl as (Hpaths & Hsize & Hbytes). unfold Unpack.
  set (l := map (fun name => (name, default "" (files !! name))) (merge_sort str_le order)) in *.
  pose proof (packed_files order files Ho) as Hperm. fold l in Hperm.
  assert (Forall (fun f => bundle_path f.1) l) as Hb.
  { rewrite Hperm. apply Forall_forall. intros [k v] Hin%elem_of_map_to_list. by apply (Hpaths k v). }
  rewrite (archive_roundtrip l archive Hp)
    by (apply (Forall_impl _ _ _ Hb); intros f; apply bundle_path_name).
  destruct (reg_files_packed l Hb) as [Hreg Hacc].
  apply unpack_events_spec; try done. rewrite Hreg. split_and!.
  - done.
  - rewrite Hperm. apply NoDup_fst_map_to_list.
  - apply Forall_forall; intros; apply lookup_empty.
  - rewrite Hperm. rewrite length_map_to_list. lia.
  - by rewrite (contents_size_perm _ _ Hperm).
  - rewrite (right_id_L ∅ (∪)). rewrite <- (list_to_map_to_list files) at 1.
    symmetry. apply list_to_map_proper; [|done]. rewrite Hperm. apply NoDup_fst_map_to_list.
Qed.

(** What was unpacked is within the limits, so packing it again is lossless. *)
Lemma unpack_within_limits r files : Unpack r = Ok files -> within_limits files.
Proof.
  unfold Unpack. destruct (read_archive r) as [evs|]; [|done]. intros H.
  apply unpack_events_spec in H as (_ & Hnd & _ & Hn & Hb & ->); [|done|done].
  rewrite (right_id_L ∅ (∪)). split_and!.
  - intros n c Hl. apply elem_of_list_to_map in Hl; [|done].
    pose proof (reg_files_paths evs) as Hp. rewrite Forall_forall in Hp. by apply (Hp (n, c)).
  - rewrite <- length_map_to_list, map_to_list_to_map by done. lia.
  - rewrite (contents_size_perm _ (reg_files evs)) by (by apply map_to_list_to_map). lia.
Qed.

Lemma repacked_loads r order files archive :
  Unpack r = Ok files -> ranges order files -> Pack order files = Some archive ->
  Unpack archive = Ok files.
Proof. intros H Ho Hp. by eapply pack_unpack, Hp; eauto using unpack_within_limits. Qed.
End ArchiveLemmas.

(** ** Properties *)

(** Entry names: an accepted name normalises to a relative path of at most
    256 bytes whose elements are neither empty, ["."] nor [".."] and hold no
    slash or backslash, normalising it again changes nothing, and exactly such
    paths are accepted unchanged. *)
Theorem normalize_path_safe name :
  match normalizePath name with
  | Ok p => bundle_path p /\ normalizePath p = Ok p
  | Err e => e = ErrBadPath /\ ~ bundle_path name
  end.
Proof.
  destruct (normalizePath name) as [p|e] eqn:E.
  - pose proof (normalizePath_safe _ _ E). auto using normalizePath_fixed.
  - split; [unfold normalizePath in E; fold (slashes name) in E; repeat case_step E; congruence|].
    intros H. apply normalizePath_fixed in H. congruence.
Qed.

Section ArchiveProperties.
Context {A : ArchiveCodec}.

(** C4. Extraction succeeds exactly when every entry is a directory or a
    readable regular file with an admissible path, the normalised paths are
    distinct, there are at most 1000 files and at most 5 MiB of contents in
    all; the result is then exactly those files under their normalised
    paths. *)
Theorem unpack_spec r evs files (Hr : read_archive r = Some evs) :
  Unpack r = Ok files <->
  Forall acceptable evs /\ NoDup (map fst (reg_files evs))
  /\ Z.of_nat (length (reg_files evs)) <= 1000
  /\ contents_size (reg_files evs) <= 5 * 1024 * 1024
  /\ files = list_to_map (reg_files evs).
Proof.
  unfold Unpack. rewrite Hr. change (5 * 1024 * 1024) with MaxUnpackedBytes.
  rewrite unpack_events_spec by done. rewrite (right_id_L ∅ (∪)).
  assert (Forall (fun n => (∅ : gmap string string) !! n = None) (map fst (reg_files evs)))
    by (apply Forall_forall; intros; apply lookup_empty).
  naive_solver.
Qed.

(** Packing is canonical: the archive depends on the set of files alone,
    never on the order in which the map is ranged over. *)
Theorem pack_deterministic order1 order2 files
    (H1 : ranges order1 files) (H2 : ranges order2 files) :
  Pack order1 files = Pack order2 files.
Proof.
  unfold Pack. rewrite (sorted_order order1 order2); [done|].
  unfold ranges in *. by rewrite H1, H2.
Qed.

(** Unpacking a packed bundle gives back the same files, for every set of
    files within the extractor's limits. *)
Theorem pack_unpack_roundtrip order files archive
    (Ho : ranges order files) (Hl : within_limits files) (Hp : Pack order files = Some archive) :
  Unpack archive = Ok files.
Proof. by apply (pack_unpack order). Qed.
End ArchiveProperties.

(** A codec that can write one archive: the law holds of it. *)
Definition sample_files : list (string * string) := [("index.js", "x"); ("lib/a.js", "y")].

#[export] Instance sample_codec : ArchiveCodec.
Proof.
  refine {|
    read_archive := fun r =>
      if r == "gz" then Some (map (fun f => TarEntry TypeReg f.1 f.2 false) sample_files) else None;
    write_archive := fun l => if bool_decide (l = sample_files) then Some "gz" else None
  |}.
  intros l b H _. case_bool_decide as Hl; [|done]. injection H as <-. by subst.
Defined.

Definition sample_map : gmap string string := list_to_map sample_files.
Definition sample_order : list string := ["lib/a.js"; "index.js"].

Lemma unpack_spec_witness : Unpack "gz" = Ok sample_map.
Proof.
  apply (unpack_spec (A := sample_codec) "gz"
    (map (fun f => TarEntry TypeReg f.1 f.2 false) sample_files) _ eq_refl).
  split_and!; try done.
  - repeat constructor; right; repeat split; auto.
  - apply (bool_decide_unpack _). reflexivity.
Defined.

Lemma sample_ranges : ranges sample_order sample_map /\ ranges (rev sample_order) sample_map.
Proof.
  unfold ranges.
  assert (map fst (map_to_list sample_map) = ["index.js"; "lib/a.js"]
          \/ map fst (map_to_list sample_map) = ["lib/a.js"; "index.js"]) as [-> | ->]
    by (vm_compute; tauto); split; try done; apply Permutation_swap.
Qed.

Lemma pack_deterministic_witness :
  Pack sample_order sample_map = Pack (rev sample_order) sample_map.
Proof.
  apply (pack_deterministic (A := sample_codec)); apply sample_ranges.
Defined.

Lemma sample_within_limits : within_limits sample_map.
Proof.
  unfold within_limits. split; [|split; vm_compute; discriminate].
  change sample_map with (<["index.js" := "x"]> (<["lib/a.js" := "y"]> (∅ : gmap string string))).
  apply map_Forall_insert_2; [|apply map_Forall_insert_2; [|apply map_Forall_empty]].
  - by apply (normalizePath_safe "index.js").
  - by apply (normalizePath_safe "lib/a.js").
Qed.

Lemma pack_unpack_roundtrip_witness : Unpack "gz" = Ok sample_map.
Proof.
  apply (pack_unpack_roundtrip (A := sample_codec) sample_order).
  - apply sample_ranges.
  - apply sample_within_limits.
  - reflexivity.
Defined.
