(* ===== verification/Types.v ===== *)
(** * Types: the control plane's data

    Models src/server/internal/store/types.go: one Record per entity and one
    Inductive per string enumeration. A timestamp is a count of nanoseconds;
    Go's zero time is [None] where the code tests for it. *)

From S2P Require Import Prelude.

Abbreviation Time := Z.

Inductive OwnerType := OwnerTypeUser | OwnerTypeWorkspace.
#[export] Instance OwnerType_eq_dec : EqDecision OwnerType.
Proof. solve_decision. Defined.

Inductive Role := RoleAdmin | RoleWorkspaceManager | RoleMember.
#[export] Instance Role_eq_dec : EqDecision Role.
Proof. solve_decision. Defined.

Inductive LoginRuleType :=
| LoginRuleTypeEmailDomain
| LoginRuleTypeEmailExact
| LoginRuleTypeEmailGlob
| LoginRuleTypeDefault.

Inductive LoginRuleAction := LoginRuleActionAllow | LoginRuleActionDeny.
#[export] Instance LoginRuleAction_eq_dec : EqDecision LoginRuleAction.
Proof. solve_decision. Defined.

Inductive Provider := ProviderGoogle | ProviderGitHub.
#[export] Instance Provider_eq_dec : EqDecision Provider.
Proof. solve_decision. Defined.

Inductive UserStatus := UserStatusActive | UserStatusPending | UserStatusDisabled.
#[export] Instance UserStatus_eq_dec : EqDecision UserStatus.
Proof. solve_decision. Defined.

Record Organization := mkOrganization {
  o_ID : string;
  o_Name : string;
  o_Settings : string;
  o_SettingsGen : Z;
  o_CreatedAt : Time;
  o_UpdatedAt : Time
}.

Record LoginRule := mkLoginRule {
  lr_ID : string;
  lr_Ord : Z;
  lr_RuleType : LoginRuleType;
  lr_Value : string;
  lr_Action : LoginRuleAction;
  lr_CreatedAt : Time;
  lr_UpdatedAt : Time
}.

Record User := mkUser {
  u_ID : string;
  u_Provider : Provider;
  u_ProviderSubject : string;
  u_Email : string;
  u_Name : string;
  u_Role : Role;
  u_Status : UserStatus;
  u_Language : string;
  u_CreatedAt : Time;
  u_UpdatedAt : Time
}.

Record PublicUserID := mkPublicUserID {
  p_UserID : string;
  p_InternalUserID : string;
  p_CreatedAt : Time;
  p_UpdatedAt : Time
}.

Record Workspace := mkWorkspace {
  w_ID : string;
  w_Name : string;
  w_Settings : string;
  w_SettingsGen : Z;
  w_CreatedAt : Time;
  w_UpdatedAt : Time
}.

Record WorkspaceMember := mkWorkspaceMember {
  wm_WorkspaceID : string;
  wm_UserID : string;
  wm_Role : Role;
  wm_CreatedAt : Time;
  wm_UpdatedAt : Time
}.

Record Function := mkFunction {
  f_ID : string;
  f_OwnerType : OwnerType;
  f_OwnerID : string;
  f_Name : string;
  f_Description : string;
  f_ActiveVersionID : option string;
  f_CreatedBy : option string;
  f_CreatedAt : Time;
  f_UpdatedAt : Time
}.

Record FunctionVersion := mkFunctionVersion {
  v_ID : string;
  v_FunctionID : string;
  v_Manifest : string;
  v_MainPath : string;
  v_BundleHash : string;
  v_BundleSize : Z;
  v_UnpackedSize : Z;
  v_Files : list (string * Z);
  v_CreatedBy : string;
  v_Note : string;
  v_CreatedAt : Time;
  v_UpdatedAt : Time
}.

Record EnvVar := mkEnvVar {
  e_FunctionID : string;
  e_Key : string;
  e_ValueEnc : string;
  e_CreatedAt : Time;
  e_UpdatedAt : Time
}.

Record Session := mkSession {
  s_ID : string;
  s_UserID : string;
  s_ExpiresAt : Time;
  s_CreatedAt : Time;
  s_UpdatedAt : Time
}.

Record InvokeAuthCode := mkInvokeAuthCode {
  ic_ID : string;
  ic_UserID : string;
  ic_FunctionID : string;
  ic_Host : string;
  ic_ReturnTo : string;
  ic_ExpiresAt : Time;
  ic_CreatedAt : Time
}.

Record CLICredential := mkCLICredential {
  cc_ID : string;
  cc_UserID : string;
  cc_Name : string;
  cc_SecretHash : string;
  cc_CreatedAt : Time;
  cc_UpdatedAt : Time;
  cc_LastUsedAt : option Time
}.

Record CLIAuthCode := mkCLIAuthCode {
  ca_ID : string;
  ca_UserID : string;
  ca_Name : string;
  ca_Challenge : string;
  ca_ExpiresAt : Time;
  ca_CreatedAt : Time
}.

Record OAuthClient := mkOAuthClient {
  oc_ID : string;
  oc_Name : string;
  oc_RedirectURIs : list string;
  oc_CreatedAt : Time;
  oc_UpdatedAt : Time
}.

Record OAuthAuthCode := mkOAuthAuthCode {
  oa_ID : string;
  oa_UserID : string;
  oa_ClientID : string;
  oa_RedirectURI : string;
  oa_Challenge : string;
  oa_Resource : string;
  oa_ExpiresAt : Time;
  oa_CreatedAt : Time
}.

Record OAuthGrant := mkOAuthGrant {
  og_ID : string;
  og_UserID : string;
  og_ClientID : string;
  og_SecretHash : string;
  og_PrevSecretHash : string;
  og_CreatedAt : Time;
  og_UpdatedAt : Time;
  og_LastUsedAt : option Time
}.

Record AuditLog := mkAuditLog {
  al_ID : string;
  al_ActorID : string;
  al_Action : string;
  al_Target : string;
  al_Detail : string;
  al_CreatedAt : Time;
  al_UpdatedAt : Time
}.

Record InvocationLog := mkInvocationLog {
  il_ID : string;
  il_FunctionID : string;
  il_VersionID : string;
  il_Method : string;
  il_Path : string;
  il_Status : Z;
  il_DurationMS : Z;
  il_Stdout : string;
  il_Stderr : string;
  il_FetchDecisions : string;
  il_CreatedAt : Time
}.
