(* ===== verification/Authz.v ===== *)
(** * Authz: the authorization matrix

    Models src/server/internal/authz/authz.go: every decision function over
    its explicit inputs, and the dispatcher [Can]. *)

From S2P Require Import Prelude Types.

Record Actor := mkActor {
  a_UserID : string;
  a_Role : Role
}.

Definition IsOrgAdmin (a : Actor) : bool := bool_decide (a_Role a = RoleAdmin).
Definition IsWorkspaceManager (a : Actor) : bool := bool_decide (a_Role a = RoleWorkspaceManager).

Definition CanUpdateOrgSettings (a : Actor) : bool := IsOrgAdmin a.
Definition CanReadAuditLog (a : Actor) : bool := IsOrgAdmin a.
Definition CanManageOrgUsers (a : Actor) : bool := IsOrgAdmin a.
Definition CanCreateWorkspace (a : Actor) : bool := IsOrgAdmin a || IsWorkspaceManager a.

Definition CanManageWorkspace (a : Actor) (wsRole : option Role) : bool :=
  IsOrgAdmin a || bool_decide (wsRole = Some RoleAdmin).

Definition CanDeployToWorkspace (a : Actor) (wsRole : option Role) (memberCanDeploy : bool) : bool :=
  if IsOrgAdmin a then true
  else match wsRole with
       | None => false
       | Some r => if bool_decide (r = RoleAdmin) then true else memberCanDeploy
       end.

Definition CanDeployPersonal (a : Actor) (ownerUserID : string) (allowUserFunctions : bool) : bool :=
  if IsOrgAdmin a then true
  else allowUserFunctions && (a_UserID a == ownerUserID).

Definition CanManageFunction (a : Actor) (ownerType : OwnerType) (ownerUserID : string)
    (wsRole : option Role) (memberCanDeploy : bool) : bool :=
  if bool_decide (ownerType = OwnerTypeWorkspace)
  then CanDeployToWorkspace a wsRole memberCanDeploy
  else IsOrgAdmin a || (a_UserID a == ownerUserID).

(** [Action] is a string type; [OtherAction] is any text but the constants. *)
Inductive Action :=
| ActionOrgSettingsUpdate
| ActionOrgUsersManage
| ActionAuditRead
| ActionWorkspaceCreate
| ActionWorkspaceManage
| ActionWorkspaceDeploy
| ActionPersonalDeploy
| ActionFunctionManage
| OtherAction (text : string).

Record Target := mkTarget {
  AllowUserFunctions : bool;
  WorkspaceRole : option Role;
  MemberCanDeploy : bool;
  t_OwnerType : OwnerType;
  OwnerUserID : string
}.

Definition Can (a : Actor) (action : Action) (t : Target) : bool :=
  match action with
  | ActionOrgSettingsUpdate => CanUpdateOrgSettings a
  | ActionOrgUsersManage => CanManageOrgUsers a
  | ActionAuditRead => CanReadAuditLog a
  | ActionWorkspaceCreate => CanCreateWorkspace a
  | ActionWorkspaceManage => CanManageWorkspace a (WorkspaceRole t)
  | ActionWorkspaceDeploy => CanDeployToWorkspace a (WorkspaceRole t) (MemberCanDeploy t)
  | ActionPersonalDeploy => CanDeployPersonal a (OwnerUserID t) (AllowUserFunctions t)
  | ActionFunctionManage =>
      CanManageFunction a (t_OwnerType t) (OwnerUserID t) (WorkspaceRole t) (MemberCanDeploy t)
  | OtherAction _ => false
  end.

(** ** The order on privileges *)

(** [t'] grants at least what [t] grants: more settings on, a workspace role at
    least as strong, the same owner. *)
Definition role_le (r r' : option Role) : Prop :=
  match r, r' with
  | None, _ => True
  | Some RoleAdmin, Some RoleAdmin => True
  | Some RoleAdmin, _ => False
  | Some _, Some _ => True
  | Some _, None => False
  end.

Definition target_le (t t' : Target) : Prop :=
  Bool.le (AllowUserFunctions t) (AllowUserFunctions t')
  /\ role_le (WorkspaceRole t) (WorkspaceRole t')
  /\ Bool.le (MemberCanDeploy t) (MemberCanDeploy t')
  /\ t_OwnerType t = t_OwnerType t' /\ OwnerUserID t = OwnerUserID t'.

(** [a'] acts for the same user with at least [a]'s organization role. *)
Definition org_rank (r : Role) : Z :=
  match r with RoleAdmin => 2 | RoleWorkspaceManager => 1 | RoleMember => 0 end.
Definition actor_le (a a' : Actor) : Prop :=
  a_UserID a = a_UserID a' /\ org_rank (a_Role a) <= org_rank (a_Role a').

(** ** Properties *)

(** The matrix is monotone: raising the organization role, the workspace
    role or the settings never withdraws a permission. *)
Theorem can_monotone a a' action t t' (Ha : actor_le a a') (Ht : target_le t t') :
  Bool.le (Can a action t) (Can a' action t').
Proof.
  destruct a as [u r], a' as [u' r'], t as [au wr md ot ou], t' as [au' wr' md' ot' ou'].
  destruct Ha as [Hu Hr], Ht as (H1 & H2 & H3 & H4 & H5); simpl in *; subst.
  unfold Bool.le. case_goal; [|done]. revert E.
  destruct action; simpl; try done;
    unfold CanUpdateOrgSettings, CanReadAuditLog, CanManageOrgUsers, CanCreateWorkspace,
      CanManageWorkspace, CanDeployPersonal, CanManageFunction, CanDeployToWorkspace,
      IsOrgAdmin, IsWorkspaceManager; simpl;
    destruct r, r', wr as [[]|], wr' as [[]|], au, au', md, md', ot'; simpl in *; try done; lia.
Qed.

Lemma can_monotone_witness :
  Bool.le (Can (mkActor "u" RoleMember) ActionWorkspaceDeploy
             (mkTarget false (Some RoleMember) true OwnerTypeWorkspace ""))
          (Can (mkActor "u" RoleWorkspaceManager) ActionWorkspaceDeploy
             (mkTarget false (Some RoleAdmin) true OwnerTypeWorkspace "")).
Proof. apply can_monotone; repeat split; done. Defined.

(** Who is allowed what, by role: an organization admin every named
    action; anybody else no organization-wide action; a workspace manager
    beyond a member only the creation of workspaces; and a caller outside a
    workspace nothing in it. *)
Theorem can_by_role a t :
  (forall action, (forall text, action <> OtherAction text) ->
     a_Role a = RoleAdmin -> Can a action t = true)
  /\ (a_Role a <> RoleAdmin ->
      Can a ActionOrgSettingsUpdate t = false /\ Can a ActionOrgUsersManage t = false
      /\ Can a ActionAuditRead t = false
      /\ (Can a ActionWorkspaceCreate t = true <-> a_Role a = RoleWorkspaceManager)
      /\ (WorkspaceRole t = None ->
          Can a ActionWorkspaceManage t = false /\ Can a ActionWorkspaceDeploy t = false
          /\ (t_OwnerType t = OwnerTypeWorkspace -> Can a ActionFunctionManage t = false))
      /\ (t_OwnerType t = OwnerTypeUser ->
          (Can a ActionFunctionManage t = true <-> a_UserID a = OwnerUserID t)))
  /\ (forall action, a_Role a = RoleWorkspaceManager -> action <> ActionWorkspaceCreate ->
      Can a action t = Can (mkActor (a_UserID a) RoleMember) action t).
Proof.
  destruct a as [u r], t as [au wr md ot ou]; simpl.
  split_and!.
  - intros [] Ho ->; try done; [by destruct ot|by destruct (Ho text)].
  - intros Hr. destruct r; [done|..]; simpl; split_and!; try done;
      try (intros ->; split_and!; try done; by intros ->);
      intros ->; unfold CanManageFunction, IsOrgAdmin; simpl; apply String.eqb_eq.
  - intros [] -> Hne; simpl; try done.
Qed.
