(* ===== verification/Settings.v ===== *)
(** * Settings: the organization and workspace settings documents

    Models src/server/internal/settings/settings.go. The text of a JSON
    document is read and written by a parameter; decoding a document into a
    struct the way [encoding/json] does it (onto the defaults, unknown keys
    ignored, absent keys left alone, [omitempty]) is modelled here. *)

From S2P Require Import Prelude GoNum Policy Bundle.

(** ** JSON documents *)

#[local] Set Warnings "-register-all".

Inductive json :=
| JNull
| JBool (b : bool)
| JInt (n : Z)
| JFloat (text : string)
| JStr (s : string)
| JArr (l : list json)
| JObj (l : list (string * json)).

(** Documents that print without loss: an encoder replaces the bytes of a string
    that are not UTF-8. *)
Fixpoint json_ok (j : json) : bool :=
  match j with
  | JNull | JBool _ | JInt _ => true
  | JFloat _ => false
  | JStr s => ValidString s
  | JArr l => forallb json_ok l
  | JObj l => forallb (fun kv => ValidString kv.1 && json_ok kv.2) l
  end.

(** The text codec of [encoding/json]. *)
Class JsonText := {
  json_parse : string -> option json;
  json_print : json -> string;
  json_parse_print j : json_ok j = true -> json_parse (json_print j) = Some j;
  json_print_nonempty j : json_print j <> ""
}.

(** A field of a struct: every key of the object that names it (case is
    folded) sets it in turn; [null] leaves it alone; a value of another kind
    fails. *)
Definition dec_string (cur : string) (j : json) : option string :=
  match j with JStr s => Some s | JNull => Some cur | _ => None end.
Definition dec_bool (cur : bool) (j : json) : option bool :=
  match j with JBool b => Some b | JNull => Some cur | _ => None end.
Definition dec_int (cur : Z) (j : json) : option Z :=
  match j with
  | JInt n => if (min_int64 <=? n) && (n <=? max_int64) then Some n else None
  | JNull => Some cur
  | _ => None
  end.
Definition dec_strings (cur : list string) (j : json) : option (list string) :=
  match j with
  | JArr l => mapM (dec_string "") l
  | JNull => Some []
  | _ => None
  end.

Section JsonFields.
Context {U : UnicodeTables}.

Fixpoint field {A : Type} (name : string) (dec : A -> json -> option A) (cur : A)
    (kvs : list (string * json)) : option A :=
  match kvs with
  | [] => Some cur
  | (k, v) :: rest =>
      if equal_fold k name then
        match dec cur v with Some cur => field name dec cur rest | None => None end
      else field name dec cur rest
  end.

Definition dec_object {A : Type} (dec : A -> list (string * json) -> option A) (cur : A) (j : json)
    : option A :=
  match j with JObj kvs => dec cur kvs | JNull => Some cur | _ => None end.
End JsonFields.

(** [omitempty]. *)
Definition opt_str (k s : string) : list (string * json) :=
  if s == "" then [] else [(k, JStr s)].
Definition opt_int (k : string) (n : Z) : list (string * json) :=
  if n =? 0 then [] else [(k, JInt n)].
Definition opt_strs (k : string) (l : list string) : list (string * json) :=
  match l with [] => [] | _ => [(k, JArr (map JStr l))] end.

(** ** The settings types *)

Record SFetchPolicy := mkSFetchPolicy {
  sf_Mode : string;
  sf_Allow : list string
}.

(** [FetchPolicy.Policy]. *)
Inductive SettingsErr := SErrFetchMode | SErrPattern (e : PatternErr) | SErrParse.

Record Limits := mkLimits {
  InvokeTimeoutMax : string;
  MemoryMax : Z;
  BundleUnpackedMax : Z
}.

Record Org := mkOrg {
  Language : string;
  org_AllowUserFunctions : bool;
  AllowNodejsCompat : bool;
  DefaultVisibility : string;
  MaxVisibility : string;
  org_FetchPolicy : SFetchPolicy;
  org_Limits : Limits;
  ExtraIDTokenAudiences : list string;
  SessionDurationSeconds : Z;
  LogRetentionDays : Z;
  RequireApproval : bool;
  MaxFunctionsPerUser : Z;
  OpenMode : bool;
  ExposeCallerIdentity : bool;
  McpEnabled : bool
}.

Record WorkspaceSettings := mkWorkspaceSettings {
  ws_FetchPolicy : SFetchPolicy;
  ws_DefaultVisibility : string;
  ws_MaxVisibility : string;
  ws_MemberCanDeploy : bool;
  MaxFunctionsPerMember : Z
}.

Definition DefaultLogRetentionDays : Z := 7.

Definition DefaultOrg : Org :=
  mkOrg "en" true true "org" "public" (mkSFetchPolicy "deny" [])
    (mkLimits "60s" (Z.shiftl 256 20) MaxUnpackedBytes) [] 0 DefaultLogRetentionDays
    false 0 false false true.

Definition DefaultWorkspace : WorkspaceSettings :=
  mkWorkspaceSettings (mkSFetchPolicy "allow-all" []) "" "" true 0.

Definition IsLanguage (language : string) : bool := (language == "en") || (language == "ja").

Definition EffectiveLanguage (userLanguage orgLanguage : string) : string :=
  if IsLanguage userLanguage then userLanguage
  else if IsLanguage orgLanguage then orgLanguage
  else "en".

Section Documents.
Context {U : UnicodeTables}.

Fixpoint settings_patterns (l : list string) : result SettingsErr (list Pattern) :=
  match l with
  | [] => Ok []
  | s :: rest =>
      match ParsePattern s with
      | Err e => Err (SErrPattern e)
      | Ok p => let! ps := settings_patterns rest in Ok (p :: ps)
      end
  end.

Definition FetchPolicy_Policy (f : SFetchPolicy) : result SettingsErr FetchPolicy :=
  match ParseFetchMode (sf_Mode f) with
  | None => Err SErrFetchMode
  | Some mode => let! ps := settings_patterns (sf_Allow f) in Ok (mkFetchPolicy mode ps)
  end.

(** [json.Unmarshal] into each struct, on top of a value of it. *)
Definition dec_fetch (cur : SFetchPolicy) (kvs : list (string * json)) : option SFetchPolicy :=
  match field "mode" dec_string (sf_Mode cur) kvs, field "allow" dec_strings (sf_Allow cur) kvs with
  | Some m, Some a => Some (mkSFetchPolicy m a)
  | _, _ => None
  end.

Definition dec_limits (cur : Limits) (kvs : list (string * json)) : option Limits :=
  match field "invoke_timeout_max" dec_string (InvokeTimeoutMax cur) kvs,
        field "memory_max" dec_int (MemoryMax cur) kvs,
        field "bundle_unpacked_max" dec_int (BundleUnpackedMax cur) kvs with
  | Some t, Some m, Some b => Some (mkLimits t m b)
  | _, _, _ => None
  end.

Definition dec_org (o : Org) (kvs : list (string * json)) : option Org :=
  match field "language" dec_string (Language o) kvs,
        field "allow_user_functions" dec_bool (org_AllowUserFunctions o) kvs,
        field "allow_nodejs_compat" dec_bool (AllowNodejsCompat o) kvs,
        field "default_visibility" dec_string (DefaultVisibility o) kvs,
        field "max_visibility" dec_string (MaxVisibility o) kvs,
        field "fetch_policy" (dec_object dec_fetch) (org_FetchPolicy o) kvs,
        field "limits" (dec_object dec_limits) (org_Limits o) kvs,
        field "extra_id_token_audiences" dec_strings (ExtraIDTokenAudiences o) kvs with
  | Some lang, Some auf, Some anc, Some dv, Some mv, Some fp, Some lim, Some aud =>
      match field "session_duration_seconds" dec_int (SessionDurationSeconds o) kvs,
            field "log_retention_days" dec_int (LogRetentionDays o) kvs,
            field "require_approval" dec_bool (RequireApproval o) kvs,
            field "max_functions_per_user" dec_int (MaxFunctionsPerUser o) kvs,
            field "open_mode" dec_bool (OpenMode o) kvs,
            field "expose_caller_identity" dec_bool (ExposeCallerIdentity o) kvs,
            field "mcp_enabled" dec_bool (McpEnabled o) kvs with
      | Some sd, Some lr, Some ra, Some mf, Some om, Some ec, Some mcp =>
          Some (mkOrg lang auf anc dv mv fp lim aud sd lr ra mf om ec mcp)
      | _, _, _, _, _, _, _ => None
      end
  | _, _, _, _, _, _, _, _ => None
  end.

Definition dec_workspace (w : WorkspaceSettings) (kvs : list (string * json))
    : option WorkspaceSettings :=
  match field "fetch_policy" (dec_object dec_fetch) (ws_FetchPolicy w) kvs,
        field "default_visibility" dec_string (ws_DefaultVisibility w) kvs,
        field "max_visibility" dec_string (ws_MaxVisibility w) kvs,
        field "member_can_deploy" dec_bool (ws_MemberCanDeploy w) kvs,
        field "max_functions_per_member" dec_int (MaxFunctionsPerMember w) kvs with
  | Some fp, Some dv, Some mv, Some mcd, Some mf => Some (mkWorkspaceSettings fp dv mv mcd mf)
  | _, _, _, _, _ => None
  end.

Context {J : JsonText}.

(** The repairs [ParseOrg] makes to a decoded document. *)
Definition repair_org (o : Org) : Org :=
  let lang := if IsLanguage (Language o) then Language o else "en" in
  let lim := org_Limits o in
  let bm :=
    if (BundleUnpackedMax lim <=? 0) || (MaxUnpackedBytes <? BundleUnpackedMax lim)
    then MaxUnpackedBytes else BundleUnpackedMax lim in
  mkOrg lang (org_AllowUserFunctions o) (AllowNodejsCompat o) (DefaultVisibility o)
    (MaxVisibility o) (org_FetchPolicy o)
    (mkLimits (InvokeTimeoutMax lim) (MemoryMax lim) bm)
    (ExtraIDTokenAudiences o) (SessionDurationSeconds o) (LogRetentionDays o) (RequireApproval o)
    (MaxFunctionsPerUser o) (OpenMode o) (ExposeCallerIdentity o) (McpEnabled o).

Definition ParseOrg (raw : string) : result SettingsErr Org :=
  let o := DefaultOrg in
  if raw == "" then Ok o
  else
    match json_parse raw with
    | Some j =>
        match dec_object dec_org o j with
        | Some o => Ok (repair_org o)
        | None => Err SErrParse
        end
    | None => Err SErrParse
    end.

Definition ParseWorkspace (raw : string) : result SettingsErr WorkspaceSettings :=
  let w := DefaultWorkspace in
  if raw == "" then Ok w
  else
    match json_parse raw with
    | Some j => match dec_object dec_workspace w j with Some w => Ok w | None => Err SErrParse end
    | None => Err SErrParse
    end.

Definition fetch_json (f : SFetchPolicy) : json :=
  JObj ([("mode", JStr (sf_Mode f))] ++ opt_strs "allow" (sf_Allow f)).

Definition limits_json (l : Limits) : json :=
  JObj (opt_str "invoke_timeout_max" (InvokeTimeoutMax l) ++ opt_int "memory_max" (MemoryMax l)
        ++ opt_int "bundle_unpacked_max" (BundleUnpackedMax l)).

Definition org_json (o : Org) : json :=
  JObj ([("language", JStr (Language o));
         ("allow_user_functions", JBool (org_AllowUserFunctions o));
         ("allow_nodejs_compat", JBool (AllowNodejsCompat o));
         ("default_visibility", JStr (DefaultVisibility o));
         ("max_visibility", JStr (MaxVisibility o));
         ("fetch_policy", fetch_json (org_FetchPolicy o));
         ("limits", limits_json (org_Limits o))]
        ++ opt_strs "extra_id_token_audiences" (ExtraIDTokenAudiences o)
        ++ opt_int "session_duration_seconds" (SessionDurationSeconds o)
        ++ opt_int "log_retention_days" (LogRetentionDays o)
        ++ [("require_approval", JBool (RequireApproval o))]
        ++ opt_int "max_functions_per_user" (MaxFunctionsPerUser o)
        ++ [("open_mode", JBool (OpenMode o));
            ("expose_caller_identity", JBool (ExposeCallerIdentity o));
            ("mcp_enabled", JBool (McpEnabled o))]).

Definition workspace_json (w : WorkspaceSettings) : json :=
  JObj ([("fetch_policy", fetch_json (ws_FetchPolicy w))]
        ++ opt_str "default_visibility" (ws_DefaultVisibility w)
        ++ opt_str "max_visibility" (ws_MaxVisibility w)
        ++ [("member_can_deploy", JBool (ws_MemberCanDeploy w))]
        ++ opt_int "max_functions_per_member" (MaxFunctionsPerMember w)).

Definition Org_JSON (o : Org) : string := json_print (org_json o).
Definition Workspace_JSON (w : WorkspaceSettings) : string := json_print (workspace_json w).

(** ** Lemmas *)

Definition int64 (n : Z) : Prop := min_int64 <= n <= max_int64.

Lemma dec_int_ok cur n : int64 n -> dec_int cur (JInt n) = Some n.
Proof.
  intros [H1 H2]. unfold dec_int. by rewrite (proj2 (Z.leb_le _ _) H1), (proj2 (Z.leb_le _ _) H2).
Qed.

Lemma mapM_strings l : mapM (dec_string "") (map JStr l) = Some l.
Proof. induction l as [|s l IH]; [done|]. simpl. by rewrite IH. Qed.

Lemma field_app {A} name (dec : A -> json -> option A) cur l1 l2 :
  field name dec cur (l1 ++ l2)
  = match field name dec cur l1 with Some c => field name dec c l2 | None => None end.
Proof.
  revert cur; induction l1 as [|[k v] l1 IH]; intros cur; simpl; [done|].
  destruct (equal_fold k name); [|done]. by destruct (dec cur v).
Qed.

Lemma field_miss {A} name (dec : A -> json -> option A) cur k v kvs :
  equal_fold k name = false -> field name dec cur ((k, v) :: kvs) = field name dec cur kvs.
Proof. intros H. simpl. by rewrite H. Qed.

Lemma field_hit {A} name (dec : A -> json -> option A) cur k v kvs :
  equal_fold k name = true ->
  field name dec cur ((k, v) :: kvs)
  = match dec cur v with Some c => field name dec c kvs | None => None end.
Proof. intros H. simpl. by rewrite H. Qed.

Lemma field_other_str {A} name (dec : A -> json -> option A) cur k s :
  equal_fold k name = false -> field name dec cur (opt_str k s) = Some cur.
Proof. intros H. unfold opt_str. destruct (s == ""); simpl; by rewrite ?H. Qed.

Lemma field_other_int {A} name (dec : A -> json -> option A) cur k n :
  equal_fold k name = false -> field name dec cur (opt_int k n) = Some cur.
Proof. intros H. unfold opt_int. destruct (n =? 0); simpl; by rewrite ?H. Qed.

Lemma field_other_strs {A} name (dec : A -> json -> option A) cur k l :
  equal_fold k name = false -> field name dec cur (opt_strs k l) = Some cur.
Proof. intros H. unfold opt_strs. destruct l; simpl; by rewrite ?H. Qed.

(** A field an [omitempty] encoder wrote: its value, or the value it had. *)
Definition or_str (cur s : string) : string := if s == "" then cur else s.
Definition or_int (cur n : Z) : Z := if n =? 0 then cur else n.
Definition or_strs (cur l : list string) : list string := match l with [] => cur | _ => l end.

Lemma field_own_str cur k s :
  equal_fold k k = true -> field k dec_string cur (opt_str k s) = Some (or_str cur s).
Proof. intros H. unfold opt_str, or_str. destruct (s == ""); simpl; by rewrite ?H. Qed.

Lemma field_own_int cur k n :
  equal_fold k k = true -> int64 n -> field k dec_int cur (opt_int k n) = Some (or_int cur n).
Proof.
  intros H Hn. unfold opt_int, or_int. destruct (n =? 0); cbn [field]; [done|].
  by rewrite H, dec_int_ok.
Qed.

Lemma field_own_strs cur k l :
  equal_fold k k = true -> field k dec_strings cur (opt_strs k l) = Some (or_strs cur l).
Proof.
  intros H. unfold opt_strs, or_strs. destruct l as [|s l]; [done|]. cbn [field].
  rewrite H. unfold dec_strings. by rewrite mapM_strings.
Qed.
End Documents.

#[local] Opaque opt_str opt_int opt_strs.

(** Evaluation of a field over an encoded document. *)
Ltac field_step :=
  lazymatch goal with
  | |- context [field ?n ?d ?c (?l1 ++ ?l2)] => rewrite (field_app n d c l1 l2)
  | |- context [field ?n ?d ?c (opt_str ?k ?s)] =>
      first [ rewrite (field_other_str n d c k s) by (vm_compute; reflexivity)
            | rewrite (field_own_str c k s) by (vm_compute; reflexivity) ]
  | |- context [field ?n ?d ?c (opt_int ?k ?s)] =>
      first [ rewrite (field_other_int n d c k s) by (vm_compute; reflexivity)
            | rewrite (field_own_int c k s) by (assumption || (vm_compute; reflexivity)) ]
  | |- context [field ?n ?d ?c (opt_strs ?k ?s)] =>
      first [ rewrite (field_other_strs n d c k s) by (vm_compute; reflexivity)
            | rewrite (field_own_strs c k s) by (vm_compute; reflexivity) ]
  | |- context [field ?n ?d ?c ((?k, ?v) :: ?r)] =>
      first [ rewrite (field_miss n d c k v r) by (vm_compute; reflexivity)
            | rewrite (field_hit n d c k v r) by (vm_compute; reflexivity) ]
  | |- context [field ?n ?d ?c []] => change (field n d c []) with (Some c)
  end; cbn beta iota.
Ltac fields := repeat field_step.

Section DocumentProperties.
Context {U : UnicodeTables} {J : JsonText}.

Lemma dec_fetch_json cur f :
  dec_object dec_fetch cur (fetch_json f)
  = Some (mkSFetchPolicy (sf_Mode f) (or_strs (sf_Allow cur) (sf_Allow f))).
Proof. unfold fetch_json. cbn [dec_object]. unfold dec_fetch. fields. cbn [dec_string]. fields. done. Qed.

Lemma dec_limits_json cur l :
  int64 (MemoryMax l) -> int64 (BundleUnpackedMax l) ->
  dec_object dec_limits cur (limits_json l)
  = Some (mkLimits (or_str (InvokeTimeoutMax cur) (InvokeTimeoutMax l))
            (or_int (MemoryMax cur) (MemoryMax l))
            (or_int (BundleUnpackedMax cur) (BundleUnpackedMax l))).
Proof. intros. unfold limits_json. cbn [dec_object]. unfold dec_limits. fields. done. Qed.
End DocumentProperties.

(** What a stored organization document means when it is read again. *)
Section DocumentRoundtrip.
Context {U : UnicodeTables} {J : JsonText}.

Definition reread_org (o : Org) : Org :=
  let lim := org_Limits o in
  mkOrg (if IsLanguage (Language o) then Language o else "en")
    (org_AllowUserFunctions o) (AllowNodejsCompat o) (DefaultVisibility o) (MaxVisibility o)
    (org_FetchPolicy o)
    (mkLimits (or_str "60s" (InvokeTimeoutMax lim)) (or_int (256 * 2 ^ 20) (MemoryMax lim))
       (if (0 <? BundleUnpackedMax lim) && (BundleUnpackedMax lim <=? MaxUnpackedBytes)
        then BundleUnpackedMax lim else MaxUnpackedBytes))
    (ExtraIDTokenAudiences o) (SessionDurationSeconds o) (or_int 7 (LogRetentionDays o))
    (RequireApproval o) (MaxFunctionsPerUser o) (OpenMode o) (ExposeCallerIdentity o)
    (McpEnabled o).

Lemma reread_repair o :
  let lim := org_Limits o in
  repair_org (mkOrg (Language o) (org_AllowUserFunctions o) (AllowNodejsCompat o)
    (DefaultVisibility o) (MaxVisibility o)
    (mkSFetchPolicy (sf_Mode (org_FetchPolicy o)) (or_strs [] (sf_Allow (org_FetchPolicy o))))
    (mkLimits (or_str "60s" (InvokeTimeoutMax lim)) (or_int (Z.shiftl 256 20) (MemoryMax lim))
       (or_int MaxUnpackedBytes (BundleUnpackedMax lim)))
    (ExtraIDTokenAudiences o) (or_int 0 (SessionDurationSeconds o))
    (or_int DefaultLogRetentionDays (LogRetentionDays o)) (RequireApproval o)
    (or_int 0 (MaxFunctionsPerUser o)) (OpenMode o) (ExposeCallerIdentity o) (McpEnabled o))
  = reread_org o.
Proof.
  assert (forall n, or_int 0 n = n) as Hz by (intros n; unfold or_int; case_goal; bool_facts; congruence).
  assert (forall l, or_strs [] l = l) as Hl by (by intros []).
  assert (0 < MaxUnpackedBytes) by done.
  unfold repair_org, reread_org; simpl. rewrite !Hz, Hl.
  destruct (org_FetchPolicy o). f_equal. f_equal.
  unfold or_int. destruct (BundleUnpackedMax (org_Limits o) =? 0) eqn:E1;
    repeat case_goal; bool_lia.
Qed.

(** The object an organization is written as. *)
Definition org_fields (o : Org) : list (string * json) :=
  match org_json o with JObj kvs => kvs | _ => [] end.

Lemma org_field_strings o :
  field "language" dec_string "en" (org_fields o) = Some (Language o)
  /\ field "default_visibility" dec_string "org" (org_fields o) = Some (DefaultVisibility o)
  /\ field "max_visibility" dec_string "public" (org_fields o) = Some (MaxVisibility o)
  /\ field "extra_id_token_audiences" dec_strings [] (org_fields o)
     = Some (ExtraIDTokenAudiences o).
Proof.
  unfold org_fields, org_json; split_and!; fields; cbn [dec_string]; fields; try done.
  unfold or_strs. by destruct (ExtraIDTokenAudiences o).
Qed.

Lemma org_field_bools o b :
  field "allow_user_functions" dec_bool b (org_fields o) = Some (org_AllowUserFunctions o)
  /\ field "allow_nodejs_compat" dec_bool b (org_fields o) = Some (AllowNodejsCompat o)
  /\ field "require_approval" dec_bool b (org_fields o) = Some (RequireApproval o)
  /\ field "open_mode" dec_bool b (org_fields o) = Some (OpenMode o)
  /\ field "expose_caller_identity" dec_bool b (org_fields o) = Some (ExposeCallerIdentity o)
  /\ field "mcp_enabled" dec_bool b (org_fields o) = Some (McpEnabled o).
Proof. unfold org_fields, org_json; split_and!; fields; cbn [dec_bool]; fields; done. Qed.

Lemma org_field_ints o cur :
  int64 (SessionDurationSeconds o) -> int64 (LogRetentionDays o) -> int64 (MaxFunctionsPerUser o) ->
  field "session_duration_seconds" dec_int cur (org_fields o)
    = Some (or_int cur (SessionDurationSeconds o))
  /\ field "log_retention_days" dec_int cur (org_fields o) = Some (or_int cur (LogRetentionDays o))
  /\ field "max_functions_per_user" dec_int cur (org_fields o)
    = Some (or_int cur (MaxFunctionsPerUser o)).
Proof. intros. unfold org_fields, org_json; split_and!; fields; done. Qed.

Lemma org_field_objects o f l :
  int64 (MemoryMax (org_Limits o)) -> int64 (BundleUnpackedMax (org_Limits o)) ->
  field "fetch_policy" (dec_object dec_fetch) f (org_fields o)
    = dec_object dec_fetch f (fetch_json (org_FetchPolicy o))
  /\ field "limits" (dec_object dec_limits) l (org_fields o)
    = dec_object dec_limits l (limits_json (org_Limits o)).
Proof.
  intros H1 H2. rewrite dec_fetch_json, dec_limits_json by done.
  unfold org_fields, org_json; split; fields;
    rewrite ?dec_fetch_json, ?dec_limits_json by done; fields; cbn [dec_string dec_bool]; fields; done.
Qed.

(** Storing an organization's settings (in valid UTF-8) and reading them
    back gives the same settings, up to the documented repairs: an unknown language becomes
    English, an absent timeout, memory or retention takes its default, and the
    bundle limit is kept within the system's. *)
Theorem org_settings_roundtrip o
    (H1 : int64 (MemoryMax (org_Limits o))) (H2 : int64 (BundleUnpackedMax (org_Limits o)))
    (H3 : int64 (SessionDurationSeconds o)) (H4 : int64 (LogRetentionDays o))
    (H5 : int64 (MaxFunctionsPerUser o)) (Hok : json_ok (org_json o) = true) :
  ParseOrg (Org_JSON o) = Ok (reread_org o).
Proof.
  unfold ParseOrg, Org_JSON.
  rewrite (proj2 (String.eqb_neq _ _) (json_print_nonempty _)), json_parse_print by done.
  change (org_json o) with (JObj (org_fields o)). cbn [dec_object]. unfold dec_org, DefaultOrg.
  cbn [Language org_AllowUserFunctions AllowNodejsCompat DefaultVisibility MaxVisibility
       org_FetchPolicy org_Limits ExtraIDTokenAudiences SessionDurationSeconds LogRetentionDays
       RequireApproval MaxFunctionsPerUser OpenMode ExposeCallerIdentity McpEnabled].
  destruct (org_field_strings o) as (-> & -> & -> & ->).
  destruct (org_field_bools o true) as (-> & -> & _ & _ & _ & ->).
  destruct (org_field_bools o false) as (_ & _ & -> & -> & -> & _).
  destruct (org_field_ints o 0 H3 H4 H5) as (-> & _ & ->).
  destruct (org_field_ints o DefaultLogRetentionDays H3 H4 H5) as (_ & -> & _).
  destruct (org_field_objects o (mkSFetchPolicy "deny" [])
    (mkLimits "60s" (Z.shiftl 256 20) MaxUnpackedBytes) H1 H2) as (-> & ->).
  rewrite dec_fetch_json, dec_limits_json by done.
  apply f_equal, reread_repair.
Qed.
End DocumentRoundtrip.

(** ** A codec the laws hold of, for concrete documents

    Documents are written as binary numerals of their encoding as a tree. *)

Section JsonInd.
Variable P : json -> Prop.
Hypothesis Hnull : P JNull.
Hypothesis Hbool : forall b, P (JBool b).
Hypothesis Hint : forall n, P (JInt n).
Hypothesis Hfloat : forall t, P (JFloat t).
Hypothesis Hstr : forall s, P (JStr s).
Hypothesis Harr : forall l, Forall P l -> P (JArr l).
Hypothesis Hobj : forall l, Forall (fun kv => P kv.2) l -> P (JObj l).

Fixpoint json_nested_ind (j : json) : P j :=
  match j with
  | JNull => Hnull
  | JBool b => Hbool b
  | JInt n => Hint n
  | JFloat t => Hfloat t
  | JStr s => Hstr s
  | JArr l =>
      Harr l ((fix go l : Forall P l :=
        match l with
        | [] => Forall_nil_2 _
        | x :: r => Forall_cons_2 _ _ _ (json_nested_ind x) (go r)
        end) l)
  | JObj l =>
      Hobj l ((fix go l : Forall (fun kv => P kv.2) l :=
        match l with
        | [] => Forall_nil_2 _
        | x :: r => Forall_cons_2 _ x _ (json_nested_ind x.2) (go r)
        end) l)
  end.
End JsonInd.

Abbreviation jtree := (gen_tree (bool + (Z + string))).

Fixpoint json_tree (j : json) : jtree :=
  match j with
  | JNull => GenNode 0 []
  | JBool b => GenLeaf (inl b)
  | JInt n => GenLeaf (inr (inl n))
  | JFloat t => GenNode 1 [GenLeaf (inr (inr t))]
  | JStr s => GenLeaf (inr (inr s))
  | JArr l => GenNode 2 (map json_tree l)
  | JObj l => GenNode 3 (map (fun kv => GenNode 4 [GenLeaf (inr (inr kv.1)); json_tree kv.2]) l)
  end.

Fixpoint tree_json (t : jtree) : json :=
  match t with
  | GenLeaf (inl b) => JBool b
  | GenLeaf (inr (inl n)) => JInt n
  | GenLeaf (inr (inr s)) => JStr s
  | GenNode 1 [GenLeaf (inr (inr t))] => JFloat t
  | GenNode 2 l => JArr (map tree_json l)
  | GenNode 3 l =>
      JObj (map (fun kv => match kv with
                           | GenNode 4 [GenLeaf (inr (inr k)); v] => (k, tree_json v)
                           | _ => ("", JNull)
                           end) l)
  | GenNode _ _ => JNull
  end.

Lemma tree_json_tree j : tree_json (json_tree j) = j.
Proof.
  induction j as [| | | | |l IH|l IH] using json_nested_ind; try done; simpl; f_equal.
  - induction IH as [|x l Hx Hl IHl]; [done|]. simpl. by rewrite Hx, IHl.
  - induction IH as [|[k v] l Hx Hl IHl]; [done|]. simpl in *. by rewrite Hx, IHl.
Qed.

Fixpoint pos_text (p : positive) : string :=
  match p with
  | xH => "1"
  | xO p => String "0" (pos_text p)
  | xI p => String "1" (pos_text p)
  end.

Fixpoint text_pos (s : string) : option positive :=
  match s with
  | String "1" EmptyString => Some xH
  | String "0" r => option_map xO (text_pos r)
  | String "1" r => option_map xI (text_pos r)
  | _ => None
  end.

Lemma text_pos_text p : text_pos (pos_text p) = Some p.
Proof.
  induction p as [p IH|p IH|]; [|simpl; by rewrite IH|done].
  simpl. rewrite IH. by destruct p.
Qed.

#[export] Instance numeral_json : JsonText.
Proof.
  refine {|
    json_print := fun j => pos_text (encode (json_tree j));
    json_parse := fun s => match text_pos s with
                           | Some p => option_map tree_json (decode p)
                           | None => None
                           end
  |}.
  - intros j _. rewrite text_pos_text, decode_encode. simpl. by rewrite tree_json_tree.
  - intros j. by destruct (encode (json_tree j)).
Defined.

Lemma org_settings_roundtrip_witness :
  ParseOrg (Org_JSON DefaultOrg) = Ok DefaultOrg.
Proof. apply (org_settings_roundtrip DefaultOrg); split; done. Defined.

Section DocumentSafety.
Context {U : UnicodeTables} {J : JsonText}.

(** Whatever a stored document holds, the settings read from it name a
    supported language and a bundle limit between one byte and the system's
    maximum; an empty document gives the defaults. *)
Theorem parse_org_valid raw :
  match ParseOrg raw with
  | Ok o => IsLanguage (Language o) = true
            /\ 0 < BundleUnpackedMax (org_Limits o) <= MaxUnpackedBytes
            /\ (raw = "" -> o = DefaultOrg)
  | Err e => e = SErrParse /\ raw <> ""
  end.
Proof.
  unfold ParseOrg. destruct (raw == "") eqn:E; bool_facts; [done|].
  destruct (json_parse raw) as [j|]; [|done].
  destruct (dec_object dec_org DefaultOrg j) as [o|]; [|done]. unfold repair_org; simpl.
  split_and!; [|case_goal; bool_facts; [done|lia]..|done].
  by destruct (IsLanguage (Language o)) eqn:El.
Qed.
End DocumentSafety.
