(* ===== verification/Manager.v ===== *)
(** * Manager: the pool of warm engine pools

    Models src/runtime/manager.go: the map from function-version keys to
    pools, its LRU cap, single-flight builds, and the background closing of
    evicted and invalidated pools. Every critical section of the mutex is one
    step; builds and closes are steps of their own, so that any interleaving of
    concurrent callers is a sequence of steps. *)

From S2P Require Import Prelude.

Section Manager.
(** What a Build returns: a pool, or an error. *)
Context {Pool BuildErr : Type}.

(** [managedPool]; [ready] is closed exactly when [mp_result] is set, and
    [mp_elem] says whether the entry was ever put on the LRU list. *)
Record managedPool := mkManagedPool {
  mp_key : string;
  mp_result : option (result BuildErr Pool);
  mp_elem : bool
}.

(** [Manager]. Entries are shared by pointer, so the map and the LRU list hold
    pointers into [entries]. [closing] are the goroutines waiting to close an
    entry, each with whether it reports an eviction; [closed] and [evicted]
    record what they did. *)
Record Manager := mkManager {
  entries : gmap nat managedPool;
  pools : gmap string nat;
  lru : list nat;
  maxPools : Z;
  closing : list (nat * bool);
  closed : list nat;
  evicted : list string
}.

Definition NewManager (maxPools : Z) : Manager := mkManager ∅ ∅ [] maxPools [] [] [].

Definition remove_ptr (p : nat) (l : list nat) : list nat := filter (fun q => q <> p) l.

(** [list.MoveToFront]: nothing happens to an element of another list. *)
Definition move_to_front (p : nat) (l : list nat) : list nat :=
  if bool_decide (p ∈ l) then p :: remove_ptr p l else l.

Definition set_elem (e : managedPool) : managedPool := mkManagedPool (mp_key e) (mp_result e) true.

Definition touchLocked (m : Manager) (p : nat) : Manager :=
  if maxPools m <=? 0 then m
  else
    match entries m !! p with
    | None => m
    | Some e =>
        if mp_elem e then
          mkManager (entries m) (pools m) (move_to_front p (lru m)) (maxPools m) (closing m)
            (closed m) (evicted m)
        else
          mkManager (<[p := set_elem e]> (entries m)) (pools m) (p :: lru m) (maxPools m)
            (closing m) (closed m) (evicted m)
    end.

(** [evictIfOverCapLocked]: the victim is the back of the list. *)
Definition evictIfOverCapLocked (m : Manager) : Manager * option nat :=
  if (maxPools m <=? 0) || (Z.of_nat (length (lru m)) <=? maxPools m) then (m, None)
  else
    match last (lru m) with
    | None => (m, None)
    | Some victim =>
        let key := match entries m !! victim with Some e => mp_key e | None => "" end in
        (mkManager (entries m) (delete key (pools m)) (remove_ptr victim (lru m)) (maxPools m)
           (closing m) (closed m) (evicted m), Some victim)
    end.

(** [evictAsync]: a goroutine that will close the victim. *)
Definition evictAsync (m : Manager) (victim : option nat) : Manager :=
  match victim with
  | None => m
  | Some v =>
      mkManager (entries m) (pools m) (lru m) (maxPools m) ((v, true) :: closing m) (closed m)
        (evicted m)
  end.

(** [HandlerFor] up to the build: the entry the caller waits on, and whether
    it is the one that must build it. *)
Definition handlerFor_locked (m : Manager) (key : string) : Manager * nat * bool :=
  match pools m !! key with
  | Some p => (touchLocked m p, p, false)
  | None =>
      let p := fresh (dom (entries m)) in
      let m := mkManager (<[p := mkManagedPool key None false]> (entries m))
                 (<[key := p]> (pools m)) (lru m) (maxPools m) (closing m) (closed m)
                 (evicted m) in
      let m := touchLocked m p in
      let '(m, victim) := evictIfOverCapLocked m in
      (evictAsync m victim, p, true)
  end.

(** [mp.pool, mp.err = spec.Build(ctx); close(mp.ready)]. *)
Definition finish_build (m : Manager) (p : nat) (r : result BuildErr Pool) : Manager :=
  match entries m !! p with
  | Some e =>
      mkManager (<[p := mkManagedPool (mp_key e) (Some r) (mp_elem e)]> (entries m)) (pools m)
        (lru m) (maxPools m) (closing m) (closed m) (evicted m)
  | None => m
  end.

(** What a caller waiting on the entry gets: nothing yet, or its result; a
    cancelled context gives up instead. *)
Definition handler_result (m : Manager) (p : nat) : option (result BuildErr Pool) :=
  match entries m !! p with Some e => mp_result e | None => None end.

Definition Invalidate (m : Manager) (key : string) : Manager :=
  match pools m !! key with
  | None => m
  | Some p =>
      let lru' :=
        match entries m !! p with
        | Some e => if mp_elem e then remove_ptr p (lru m) else lru m
        | None => lru m
        end in
      mkManager (entries m) (delete key (pools m)) lru' (maxPools m) ((p, false) :: closing m)
        (closed m) (evicted m)
  end.

(** [Close]: the map is emptied under the lock, then every entry is waited for
    and closed. *)
Definition Close_locked (m : Manager) : Manager :=
  mkManager (entries m) ∅ [] (maxPools m)
    (map (fun kp => (kp.2, false)) (map_to_list (pools m)) ++ closing m) (closed m) (evicted m).

(** One closing goroutine running to completion: it waits for the build, closes
    the pool if there is one, and reports an eviction. *)
Definition run_close (m : Manager) (i : nat) : Manager :=
  match closing m !! i with
  | None => m
  | Some (p, report) =>
      match entries m !! p with
      | Some (mkManagedPool key (Some r) _) =>
          mkManager (entries m) (pools m) (lru m) (maxPools m)
            (take i (closing m) ++ drop (S i) (closing m))
            (match r with Ok _ => p :: closed m | Err _ => closed m end)
            (if report : bool then key :: evicted m else evicted m)
      | _ => m
      end
  end.

(** The steps of any number of concurrent callers. A build finishes once: only
    the caller that made an entry builds it. *)
Inductive step : Manager -> Manager -> Prop :=
| StepHandlerFor m key : step m (handlerFor_locked m key).1.1
| StepBuilt m p e r :
    entries m !! p = Some e -> mp_result e = None -> step m (finish_build m p r)
| StepInvalidate m key : step m (Invalidate m key)
| StepClose m : step m (Close_locked m)
| StepRunClose m i : step m (run_close m i).

Inductive reachable (cap : Z) : Manager -> Prop :=
| ReachNew : reachable cap (NewManager cap)
| ReachStep m m' : reachable cap m -> step m m' -> reachable cap m'.

(** ** The invariant *)

(** Pointers that are live (in the map), waiting to be closed, or done. *)
Definition live (m : Manager) (p : nat) : Prop := exists k, pools m !! k = Some p.

Record inv_slack (s : Z) (m : Manager) : Prop := {
  inv_keys : forall k p, pools m !! k = Some p ->
             exists e, entries m !! p = Some e /\ mp_key e = k
                       /\ mp_elem e = negb (maxPools m <=? 0);
  inv_lru_nodup : NoDup (lru m);
  inv_lru : forall p, p ∈ lru m <-> (live m p /\ 0 < maxPools m);
  inv_cap : 0 < maxPools m -> Z.of_nat (length (lru m)) <= maxPools m + s;
  inv_closing : NoDup (map fst (closing m));
  inv_closing_dead : forall p, p ∈ map fst (closing m) ->
                     is_Some (entries m !! p) /\ ~ live m p /\ p ∉ closed m;
  inv_closed : NoDup (closed m);
  inv_closed_dead : forall p, p ∈ closed m -> ~ live m p
                    /\ exists e a, entries m !! p = Some e /\ mp_result e = Some (Ok a);
  inv_no_leak : forall p e, entries m !! p = Some e ->
                live m p \/ p ∈ map fst (closing m) \/ p ∈ closed m
                \/ exists err, mp_result e = Some (Err err)
}.

Definition inv (m : Manager) : Prop := inv_slack 0 m.

(** The keys of the LRU list, most recent first. *)
Definition key_of (m : Manager) (p : nat) : string :=
  match entries m !! p with Some e => mp_key e | None => "" end.
Definition lru_keys (m : Manager) : list string := map (key_of m) (lru m).

(** The reference LRU over keys. *)
Definition lru_touch (cap : Z) (k : string) (l : list string) : list string :=
  take (Z.to_nat cap) (k :: filter (fun x => x <> k) l).

(** ** Lemmas *)

Lemma elem_of_remove_ptr p q l : q ∈ remove_ptr p l <-> q ∈ l /\ q <> p.
Proof. unfold remove_ptr. rewrite list_elem_of_filter. tauto. Qed.

Lemma remove_ptr_nodup p l : NoDup l -> NoDup (remove_ptr p l).
Proof. apply NoDup_filter. Qed.

Lemma filter_ne_id {A} `{EqDecision A} (p : A) (l : list A) : p ∉ l -> filter (fun q => q <> p) l = l.
Proof.
  induction l as [|x l IH]; intros Hp; [done|].
  rewrite not_elem_of_cons in Hp. destruct Hp as [H1 H2].
  rewrite filter_cons_True by congruence. by rewrite IH.
Qed.

Lemma remove_ptr_notin p l : p ∉ l -> remove_ptr p l = l.
Proof. apply filter_ne_id. Qed.

Lemma remove_ptr_length p l : NoDup l -> p ∈ l -> S (length (remove_ptr p l)) = length l.
Proof.
  induction 1 as [|x l Hx Hl IH]; intros Hp; [by inversion Hp|]. unfold remove_ptr in *.
  destruct (decide (x = p)) as [->|Hne].
  - rewrite filter_cons_False by auto. simpl. f_equal. f_equal. by apply remove_ptr_notin.
  - rewrite filter_cons_True by done. simpl. f_equal. apply IH.
    apply elem_of_cons in Hp as [->|]; done.
Qed.

Lemma elem_of_move_to_front p q l : q ∈ move_to_front p l <-> q ∈ l.
Proof.
  unfold move_to_front. case_bool_decide as Hp; [|done].
  rewrite elem_of_cons, elem_of_remove_ptr. destruct (decide (q = p)); naive_solver.
Qed.

Lemma move_to_front_nodup p l : NoDup l -> NoDup (move_to_front p l).
Proof.
  intros Hl. unfold move_to_front. case_bool_decide; [|done].
  constructor; [|by apply remove_ptr_nodup]. rewrite elem_of_remove_ptr. naive_solver.
Qed.

Lemma move_to_front_length p l : NoDup l -> length (move_to_front p l) = length l.
Proof.
  intros Hl. unfold move_to_front. case_bool_decide; [|done]. simpl. by apply remove_ptr_length.
Qed.

Lemma live_unique s m k k' p :
  inv_slack s m -> pools m !! k = Some p -> pools m !! k' = Some p -> k = k'.
Proof.
  intros Hi H1 H2. destruct (inv_keys s m Hi k p H1) as (e & He & Hk & _).
  destruct (inv_keys s m Hi k' p H2) as (e' & He' & Hk' & _). congruence.
Qed.

(** An entry leaves the map and waits to be closed. *)
Definition remove_live (m : Manager) (k : string) (p : nat) (report : bool) : Manager :=
  mkManager (entries m) (delete k (pools m)) (remove_ptr p (lru m)) (maxPools m)
    ((p, report) :: closing m) (closed m) (evicted m).

Lemma live_remove s m k p report q :
  inv_slack s m -> pools m !! k = Some p ->
  live (remove_live m k p report) q <-> live m q /\ q <> p.
Proof.
  intros Hi Hk. unfold live; simpl. split.
  - intros [k' Hk']. rewrite lookup_delete in Hk'. case_decide; [done|].
    split; [by eauto|]. intros ->. by eapply H, live_unique.
  - intros [[k' Hk'] Hne]. exists k'. rewrite lookup_delete_ne; [done|]. intros ->. congruence.
Qed.

Lemma remove_live_inv s s' m k p report :
  inv_slack s m -> pools m !! k = Some p ->
  (0 < maxPools m -> Z.of_nat (length (remove_ptr p (lru m))) <= maxPools m + s') ->
  inv_slack s' (remove_live m k p report).
Proof.
  intros Hi Hk Hcap. pose proof (live_remove s m k p report) as Hlive.
  assert (live m p) as Hp by (by exists k).
  split; simpl.
  - intros k' p' Hk'. rewrite lookup_delete in Hk'. case_decide; [done|].
    by apply (inv_keys s m Hi).
  - apply remove_ptr_nodup, (inv_lru_nodup s m Hi).
  - intros q. rewrite elem_of_remove_ptr, (inv_lru s m Hi), Hlive by done. tauto.
  - done.
  - constructor; [|apply (inv_closing s m Hi)]. intros Hin.
    by destruct (inv_closing_dead s m Hi p Hin) as (_ & ? & _).
  - intros q Hq. rewrite Hlive by done. apply elem_of_cons in Hq as [->|Hq].
    + destruct (inv_keys s m Hi k p Hk) as (e & He & _). split_and!; [by eexists|tauto|].
      intros Hc. by destruct (inv_closed_dead s m Hi p Hc) as [? _].
    + destruct (inv_closing_dead s m Hi q Hq) as (? & ? & ?). tauto.
  - apply (inv_closed s m Hi).
  - intros q Hq. rewrite Hlive by done. destruct (inv_closed_dead s m Hi q Hq). tauto.
  - intros q e He. rewrite Hlive, elem_of_cons by done.
    destruct (inv_no_leak s m Hi q e He) as [|[|[|]]]; [|tauto..].
    destruct (decide (q = p)); tauto.
Qed.

Lemma touch_inv m p : inv m -> live m p -> inv (touchLocked m p).
Proof.
  intros Hi [k Hk]. unfold touchLocked. destruct (maxPools m <=? 0) eqn:Em; [done|].
  destruct (inv_keys 0 m Hi k p Hk) as (e & He & _ & Helem). rewrite He, Helem, Em. simpl.
  destruct Hi as [H1 H2 H3 H4 H5 H6 H7 H8 H9]. split; simpl; try done.
  - by apply move_to_front_nodup.
  - intros q. by rewrite elem_of_move_to_front.
  - by rewrite move_to_front_length.
Qed.

(** The state after a new entry has been put in the map and on the list. *)
Definition insert_new (m : Manager) (key : string) (p : nat) : Manager :=
  let enabled := negb (maxPools m <=? 0) in
  mkManager (<[p := mkManagedPool key None enabled]> (entries m)) (<[key := p]> (pools m))
    (if enabled then p :: lru m else lru m) (maxPools m) (closing m) (closed m) (evicted m).

Lemma insert_new_spec m key p :
  touchLocked (mkManager (<[p := mkManagedPool key None false]> (entries m))
    (<[key := p]> (pools m)) (lru m) (maxPools m) (closing m) (closed m) (evicted m)) p
  = insert_new m key p.
Proof.
  unfold touchLocked, insert_new; simpl. destruct (maxPools m <=? 0); simpl; [done|].
  rewrite lookup_insert_eq; simpl. by rewrite insert_insert_eq.
Qed.

Lemma insert_new_inv m key p :
  inv m -> pools m !! key = None -> entries m !! p = None -> inv_slack 1 (insert_new m key p).
Proof.
  intros Hi Hkey Hp.
  assert (forall k, pools m !! k <> Some p) as Hfresh.
  { intros k Hk. destruct (inv_keys 0 m Hi k p Hk) as (e & He & _). congruence. }
  assert (forall q, live (insert_new m key p) q <-> live m q \/ q = p) as Hlive.
  { intros q. unfold live; simpl. split.
    - intros [k Hk]. rewrite lookup_insert in Hk. case_decide; naive_solver.
    - intros [[k Hk]| ->]; [exists k|exists key; by rewrite lookup_insert_eq].
      rewrite lookup_insert_ne; [done|]. intros ->. congruence. }
  assert (forall q, q ∈ map fst (closing m) -> q <> p) as Hc.
  { intros q Hq ->. destruct (inv_closing_dead 0 m Hi p Hq) as ([e He] & _). congruence. }
  assert (forall q, q ∈ closed m -> q <> p) as Hd.
  { intros q Hq ->. destruct (inv_closed_dead 0 m Hi p Hq) as (_ & e & a & He & _). congruence. }
  assert (p ∉ lru m) as Hl.
  { intros Hin. apply (inv_lru 0 m Hi) in Hin as [[k Hk] _]. by apply (Hfresh k). }
  destruct Hi as [H1 H2 H3 H4 H5 H6 H7 H8 H9]. split; simpl.
  - intros k q. rewrite lookup_insert. case_decide as Hk; intros Hq.
    + simplify_eq. rewrite lookup_insert_eq. eauto.
    + rewrite lookup_insert_ne; [by apply H1|]. intros ->. by apply (Hfresh k).
  - destruct (maxPools m <=? 0); simpl; [done|by constructor].
  - intros q. rewrite Hlive. destruct (maxPools m <=? 0) eqn:Em; bool_facts; simpl;
      rewrite ?elem_of_cons, H3; naive_solver lia.
  - intros Hm. destruct (maxPools m <=? 0) eqn:Em; bool_facts; simpl; lia.
  - done.
  - intros q Hq. destruct (H6 q Hq) as (Hs & Hn & Hcl). rewrite Hlive.
    rewrite lookup_insert_ne by (intros ->; by apply (Hc q)). naive_solver.
  - done.
  - intros q Hq. destruct (H8 q Hq) as (Hn & Hs). rewrite Hlive.
    rewrite lookup_insert_ne by (intros ->; by apply (Hd q)). naive_solver.
  - intros q e. rewrite lookup_insert, Hlive. case_decide; intros He; [by auto|].
    destruct (H9 q e He) as [|[|[|]]]; tauto.
Qed.

(** Making room: the back of the list leaves when the cap is exceeded. *)
Lemma evict_spec m :
  inv_slack 1 m ->
  let m' := evictAsync (evictIfOverCapLocked m).1 (evictIfOverCapLocked m).2 in
  m' = m /\ (0 < maxPools m -> Z.of_nat (length (lru m)) <= maxPools m)
  \/ exists l v k, lru m = l ++ [v] /\ pools m !! k = Some v /\ m' = remove_live m k v true
       /\ 0 < maxPools m /\ Z.of_nat (length (lru m)) = maxPools m + 1.
Proof.
  intros Hi. unfold evictIfOverCapLocked.
  destruct (maxPools m <=? 0) eqn:Em; simpl; bool_facts; [left; split; [done|lia]|].
  destruct (Z.of_nat (length (lru m)) <=? maxPools m) eqn:El; simpl; bool_facts; [by left|].
  pose proof (inv_cap 1 m Hi Em) as Hcap.
  destruct (lru m) as [|v0 l0] eqn:Elru using rev_ind; [simpl in El; lia|clear IHl0].
  rewrite last_snoc. right.
  assert (v0 ∈ lru m) as Hv by (rewrite Elru; set_solver).
  apply (inv_lru 1 m Hi) in Hv as [[k Hk] _].
  destruct (inv_keys 1 m Hi k v0 Hk) as (e & He & Hke & _).
  exists l0, v0, k. rewrite He. subst k. split_and!; try done; [|lia].
  unfold remove_live. by rewrite Elru.
Qed.

Lemma evict_inv m :
  inv_slack 1 m -> inv (evictAsync (evictIfOverCapLocked m).1 (evictIfOverCapLocked m).2).
Proof.
  intros Hi. destruct (evict_spec m Hi) as [[-> Hcap]|(l & v & k & El & Hk & -> & Hm & Hlen)].
  - destruct Hi. split; try done. intros H. specialize (Hcap H). lia.
  - apply (remove_live_inv 1); try done. intros _.
    assert (v ∈ lru m) as Hv by (rewrite El; set_solver).
    pose proof (remove_ptr_length v (lru m) (inv_lru_nodup 1 m Hi) Hv). lia.
Qed.

Lemma handlerFor_miss m key :
  pools m !! key = None ->
  handlerFor_locked m key
  = (let m1 := insert_new m key (fresh (dom (entries m))) in
     (evictAsync (evictIfOverCapLocked m1).1 (evictIfOverCapLocked m1).2,
      fresh (dom (entries m)), true)).
Proof.
  intros Hk. unfold handlerFor_locked. rewrite Hk, insert_new_spec.
  by destruct (evictIfOverCapLocked _).
Qed.

Lemma fresh_entry (m : Manager) : entries m !! fresh (dom (entries m)) = None.
Proof. apply not_elem_of_dom, is_fresh. Qed.

Lemma handlerFor_inv m key : inv m -> inv (handlerFor_locked m key).1.1.
Proof.
  intros Hi. destruct (pools m !! key) as [p|] eqn:Hk.
  - unfold handlerFor_locked. rewrite Hk. apply touch_inv; [done|by exists key].
  - rewrite handlerFor_miss by done. apply evict_inv, insert_new_inv; auto using fresh_entry.
Qed.

Lemma Invalidate_inv m key : inv m -> inv (Invalidate m key).
Proof.
  intros Hi. unfold Invalidate. destruct (pools m !! key) as [p|] eqn:Hk; [|done].
  destruct (inv_keys 0 m Hi key p Hk) as (e & He & _ & Helem). rewrite He, Helem.
  assert ((if negb (maxPools m <=? 0) then remove_ptr p (lru m) else lru m)
          = remove_ptr p (lru m)) as ->.
  { destruct (maxPools m <=? 0) eqn:Em; simpl; [|done]. bool_facts.
    rewrite remove_ptr_notin; [done|]. rewrite (inv_lru 0 m Hi). lia. }
  apply (remove_live_inv 0 0 m key p false); try done. intros Hm.
  pose proof (inv_cap 0 m Hi Hm). unfold remove_ptr.
  pose proof (length_filter (fun q => q <> p) (lru m)). lia.
Qed.

Lemma finish_build_inv m p e r :
  inv m -> entries m !! p = Some e -> mp_result e = None -> inv (finish_build m p r).
Proof.
  intros Hi He Hr. unfold finish_build. rewrite He.
  assert (p ∉ closed m) as Hc.
  { intros Hc. destruct (inv_closed_dead 0 m Hi p Hc) as (_ & e' & a & He' & Hr'). congruence. }
  destruct Hi as [H1 H2 H3 H4 H5 H6 H7 H8 H9]. split; simpl; try done.
  - intros k q Hq. destruct (H1 k q Hq) as (e' & He' & ? & ?).
    rewrite lookup_insert. case_decide; [subst|by eauto].
    replace e' with e in * by congruence. eauto.
  - intros q Hq. destruct (H6 q Hq) as (Hs & ?). split; [|done].
    rewrite lookup_insert. by case_decide; [eexists|].
  - intros q Hq. destruct (H8 q Hq) as (? & e' & a & ? & ?). split; [done|].
    rewrite lookup_insert_ne by congruence. eauto.
  - intros q e'. rewrite lookup_insert. case_decide as Hpq; intros He'; [|by apply (H9 q e')].
    subst q. destruct (H9 p e He) as [|[|[|[err Herr]]]]; auto. congruence.
Qed.

Lemma closing_removed (l : list (nat * bool)) i x :
  l !! i = Some x -> l ≡ₚ x :: (take i l ++ drop (S i) l).
Proof. intros H. rewrite <- (take_drop_middle l i x H) at 1. by rewrite Permutation_middle. Qed.

Lemma run_close_inv m i : inv m -> inv (run_close m i).
Proof.
  intros Hi. unfold run_close. destruct (closing m !! i) as [[p report]|] eqn:Hc; [|done].
  destruct (entries m !! p) as [[key [r|] elem]|] eqn:He; [|done..].
  set (rest := take i (closing m) ++ drop (S i) (closing m)).
  assert (map fst (closing m) ≡ₚ p :: map fst rest) as Hperm
    by (rewrite (closing_removed _ _ _ Hc); done).
  pose proof (inv_closing 0 m Hi) as Hnd. rewrite Hperm in Hnd.
  apply NoDup_cons in Hnd as [Hp Hnd].
  destruct (inv_closing_dead 0 m Hi p) as (_ & Hlive & Hcl); [rewrite Hperm; by left|].
  assert (forall q, q ∈ map fst rest -> q ∈ map fst (closing m) /\ q <> p) as Hrest.
  { intros q Hq. rewrite Hperm. split; [by right|]. by intros ->. }
  destruct Hi as [H1 H2 H3 H4 H5 H6 H7 H8 H9]. split; simpl; try done.
  - intros q Hq. destruct (Hrest q Hq) as [Hq' Hne]. destruct (H6 q Hq') as (? & ? & ?).
    split_and!; try done. destruct r; [|done]. rewrite elem_of_cons. tauto.
  - destruct r; [|done]. by constructor.
  - intros q Hq. destruct r as [a|err]; [|by apply H8].
    apply elem_of_cons in Hq as [->|Hq]; [|by apply H8]. split; [done|]. eauto.
  - intros q e Hq. destruct (H9 q e Hq) as [|[Hin|[|]]]; auto.
    + rewrite Hperm in Hin. apply elem_of_cons in Hin as [->|Hin]; [|by auto].
      destruct r as [a|err]; [right; right; left; by left|].
      right; right; right. exists err. by simplify_eq.
    + right; right; left. destruct r; [by right|done].
Qed.

Lemma values_nodup m : inv m -> NoDup (map snd (map_to_list (pools m))).
Proof.
  intros Hi. apply NoDup_fmap_2_strong; [|apply NoDup_map_to_list].
  intros [k p] [k' p'] H1 H2 Heq; simpl in Heq; subst.
  apply elem_of_map_to_list in H1, H2. f_equal. by eapply live_unique.
Qed.

Lemma elem_of_values m p : p ∈ map snd (map_to_list (pools m)) <-> live m p.
Proof.
  unfold live. rewrite list_elem_of_fmap. split.
  - intros ([k q] & -> & Hin). exists k. by apply elem_of_map_to_list in Hin.
  - intros [k Hk]. exists (k, p). by rewrite elem_of_map_to_list.
Qed.

Lemma Close_inv m : inv m -> inv (Close_locked m).
Proof.
  intros Hi. pose proof (values_nodup m Hi) as Hv.
  assert (map fst (closing (Close_locked m))
          = map snd (map_to_list (pools m)) ++ map fst (closing m)) as Hcl.
  { simpl. rewrite map_app, map_map. done. }
  assert (forall q, ~ live (Close_locked m) q) as Hlive
    by (intros q [k Hk]; simpl in Hk; by rewrite lookup_empty in Hk).
  destruct Hi as [H1 H2 H3 H4 H5 H6 H7 H8 H9]. split; rewrite ?Hcl; simpl; try done.
  - constructor.
  - intros q. split; [by intros ?%elem_of_nil|]. intros [? _]. by destruct (Hlive q).
  - intros. lia.
  - apply NoDup_app. split_and!; [done| |done]. intros q Hq Hq'.
    apply elem_of_values in Hq. by destruct (H6 q Hq') as (_ & ? & _).
  - intros q Hq. apply elem_of_app in Hq as [Hq|Hq].
    + apply elem_of_values in Hq as [k Hk]. destruct (H1 k q Hk) as (e & He & _).
      split_and!; [by eexists|apply Hlive|]. intros Hc. destruct (H8 q Hc) as [Hn _].
      apply Hn. by exists k.
    + destruct (H6 q Hq) as (? & _ & ?). split_and!; try done.
  - intros q Hq. destruct (H8 q Hq) as [_ ?]. split; [apply Hlive|done].
  - intros q e He. rewrite elem_of_app, elem_of_values.
    destruct (H9 q e He) as [|[|[|]]]; auto.
Qed.

Lemma new_inv cap : inv (NewManager cap).
Proof.
  assert (forall q, ~ live (NewManager cap) q) as Hlive
    by (intros q [k Hk]; simpl in Hk; by rewrite lookup_empty in Hk).
  split; simpl.
  - intros k p. by rewrite lookup_empty.
  - constructor.
  - intros p. split; [by intros ?%elem_of_nil|]. intros [? _]. by destruct (Hlive p).
  - lia.
  - constructor.
  - by intros p ?%elem_of_nil.
  - constructor.
  - by intros p ?%elem_of_nil.
  - intros p e. by rewrite lookup_empty.
Qed.

Lemma step_inv m m' : inv m -> step m m' -> inv m'.
Proof.
  intros Hi Hs. destruct Hs.
  - by apply handlerFor_inv.
  - by eapply finish_build_inv.
  - by apply Invalidate_inv.
  - by apply Close_inv.
  - by apply run_close_inv.
Qed.

Lemma reachable_inv cap m : reachable cap m -> inv m.
Proof. induction 1; eauto using new_inv, step_inv. Qed.

(** ** The LRU order *)

Lemma key_of_inj m p q : inv m -> p ∈ lru m -> q ∈ lru m -> key_of m p = key_of m q -> p = q.
Proof.
  intros Hi Hp Hq. apply (inv_lru 0 m Hi) in Hp as [[k Hk] _], Hq as [[k' Hk'] _].
  destruct (inv_keys 0 m Hi k p Hk) as (e & He & Hek & _).
  destruct (inv_keys 0 m Hi k' q Hk') as (e' & He' & Hek' & _).
  unfold key_of. rewrite He, He'. intros. subst. congruence.
Qed.

Lemma map_remove_ptr (f : nat -> string) p k l :
  f p = k -> (forall q, q ∈ l -> f q = k -> q = p) ->
  map f (remove_ptr p l) = filter (fun x => x <> k) (map f l).
Proof.
  unfold remove_ptr. intros Hp Hinj. induction l as [|q l IH]; [done|]. cbn [map].
  assert (forall r, r ∈ l -> f r = k -> r = p) as Hinj' by (intros; apply Hinj; [by right|done]).
  destruct (decide (q = p)) as [->|Hne].
  - rewrite !filter_cons_False by auto. auto.
  - rewrite filter_cons_True by done. rewrite filter_cons_True by (intros H; apply Hne, Hinj; [by left|done]).
    cbn [map]. by rewrite IH.
Qed.

Lemma lru_keys_hit m key p :
  inv m -> 0 < maxPools m -> pools m !! key = Some p ->
  lru_keys (touchLocked m p) = lru_touch (maxPools m) key (lru_keys m).
Proof.
  intros Hi Hm Hk. destruct (inv_keys 0 m Hi key p Hk) as (e & He & Hek & Helem).
  rewrite (proj2 (Z.leb_gt _ _) Hm) in Helem.
  unfold touchLocked. rewrite (proj2 (Z.leb_gt _ _) Hm), He, Helem.
  assert (p ∈ lru m) as Hin by (apply (inv_lru 0 m Hi); split; [by exists key|done]).
  assert (key_of m p = key) as Hkp by (unfold key_of; by rewrite He).
  assert (filter (fun x => x <> key) (map (key_of m) (lru m)) = map (key_of m) (remove_ptr p (lru m)))
    as Hf.
  { symmetry. apply map_remove_ptr; [done|]. intros q Hq Heq.
    eapply key_of_inj; eauto. congruence. }
  unfold lru_keys, lru_touch. rewrite Hf. simpl. unfold move_to_front.
  rewrite bool_decide_eq_true_2 by done. cbn [map]. change (key_of _) with (key_of m) at 1 2.
  rewrite Hkp. symmetry. apply take_ge. simpl.
  rewrite length_map, remove_ptr_length by (try done; apply (inv_lru_nodup 0 m Hi)).
  pose proof (inv_cap 0 m Hi Hm). lia.
Qed.

Lemma key_not_tracked m key : inv m -> pools m !! key = None -> key ∉ lru_keys m.
Proof.
  intros Hi Hk. unfold lru_keys. rewrite list_elem_of_fmap. intros (q & Hq & Hin).
  apply (inv_lru 0 m Hi) in Hin as [[k Hk'] _].
  destruct (inv_keys 0 m Hi k q Hk') as (e & He & Hek & _).
  unfold key_of in Hq. rewrite He in Hq. congruence.
Qed.

Lemma lru_keys_insert m key :
  inv m -> 0 < maxPools m ->
  lru_keys (insert_new m key (fresh (dom (entries m)))) = key :: lru_keys m.
Proof.
  intros Hi Hm. unfold lru_keys, insert_new; simpl. rewrite (proj2 (Z.leb_gt _ _) Hm); simpl.
  unfold key_of at 1; simpl. rewrite lookup_insert_eq. simpl. f_equal.
  apply map_ext_in. intros q Hq%list_elem_of_In.
  apply (inv_lru 0 m Hi) in Hq as [[k Hk'] _].
  destruct (inv_keys 0 m Hi k q Hk') as (e & He & _).
  unfold key_of; simpl. rewrite lookup_insert_ne; [done|]. intros <-.
  by rewrite fresh_entry in He.
Qed.

Lemma remove_last (l : list nat) v : NoDup (l ++ [v]) -> remove_ptr v (l ++ [v]) = l.
Proof.
  intros [Hl [Hd _]]%NoDup_app. unfold remove_ptr.
  rewrite filter_app, filter_cons_False by auto. rewrite filter_nil, app_nil_r.
  apply remove_ptr_notin. intros Hv. apply (Hd v Hv). by left.
Qed.

(** ** The outcome of a build *)

Lemma touch_result m p q : handler_result (touchLocked m p) q = handler_result m q.
Proof.
  unfold touchLocked, handler_result. destruct (maxPools m <=? 0); [done|].
  destruct (entries m !! p) as [e|] eqn:E; [|done]. destruct (mp_elem e); [done|]. simpl.
  destruct (decide (p = q)) as [->|Hne]; [|by rewrite lookup_insert_ne].
  by rewrite lookup_insert_eq, E.
Qed.

Lemma evict_result m q :
  handler_result (evictAsync (evictIfOverCapLocked m).1 (evictIfOverCapLocked m).2) q = handler_result m q.
Proof.
  unfold evictIfOverCapLocked. destruct (_ || _); [done|]. by destruct (last (lru m)).
Qed.

Lemma step_result m m' p r : handler_result m p = Some r -> step m m' -> handler_result m' p = Some r.
Proof.
  intros Hr Hs. destruct Hs as [m key|m q e r' He Hn|m key|m|m i].
  - unfold handlerFor_locked. destruct (pools m !! key) as [q|]; [cbn [fst]; by rewrite touch_result|].
    set (f := fresh (dom (entries m))). set (m1 := touchLocked _ f).
    pose proof (evict_result m1 p) as Hev. destruct (evictIfOverCapLocked m1) as [m2 victim].
    simpl in *. rewrite Hev. unfold m1. rewrite touch_result. unfold handler_result in *. simpl.
    rewrite lookup_insert_ne; [done|]. intros <-. unfold f in Hr. by rewrite fresh_entry in Hr.
  - unfold finish_build. rewrite He. unfold handler_result in *. simpl.
    rewrite lookup_insert_ne; [done|]. intros <-. rewrite He in Hr. congruence.
  - unfold Invalidate. by destruct (pools m !! key).
  - done.
  - unfold run_close. destruct (closing m !! i) as [[q b]|]; [|done].
    destruct (entries m !! q) as [[k [x|] e]|]; done.
Qed.

Inductive steps : Manager -> Manager -> Prop :=
| steps_refl m : steps m m
| steps_step m m1 m2 : steps m m1 -> step m1 m2 -> steps m m2.

Lemma steps_result m m' p r : steps m m' -> handler_result m p = Some r -> handler_result m' p = Some r.
Proof. induction 1; eauto using step_result. Qed.

(** ** Properties *)

(** A build happens once and its outcome stands: once an entry's build has ended, every
    later caller for its key gets that outcome and builds nothing, whatever else
    happens, for as long as the entry is neither invalidated nor evicted. That
    holds of a failed build as well: a key whose first build failed answers that
    failure until something else removes it. *)
Theorem build_outcome_stands m m' key p r
    (Hr : handler_result m p = Some r) (Hs : steps m m') (Hlive : pools m' !! key = Some p) :
  let '(m2, q, builds) := handlerFor_locked m' key in
  q = p /\ builds = false /\ handler_result m2 q = Some r.
Proof.
  unfold handlerFor_locked. rewrite Hlive, touch_result. split_and!; [done|done|].
  by eapply steps_result.
Qed.

(** C5. Whatever the interleaving of concurrent callers, builds, invalidations
    and background closes: the map and the LRU list track the same pools, the
    cap holds, a pool reachable from the map has never been closed, no pool is
    closed twice, and a pool that left the map is closed or waiting to be. *)
Theorem manager_invariant cap m (H : reachable cap m) :
  (forall p, (p ∈ lru m) <-> (live m p /\ 0 < maxPools m))
  /\ (0 < maxPools m -> Z.of_nat (size (pools m)) <= maxPools m)
  /\ NoDup (closed m)
  /\ (forall p, live m p -> (p ∉ closed m) /\ (p ∉ map fst (closing m)))
  /\ (forall p e a, entries m !! p = Some e -> mp_result e = Some (Ok a) -> ~ live m p ->
       (p ∈ map fst (closing m)) \/ (p ∈ closed m)).
Proof.
  pose proof (reachable_inv cap m H) as Hi. split_and!.
  - apply (inv_lru 0 m Hi).
  - intros Hm. pose proof (inv_cap 0 m Hi Hm) as Hcap.
    assert (map snd (map_to_list (pools m)) ⊆+ lru m) as Hsub%submseteq_length.
    { apply NoDup_submseteq; [by apply values_nodup|]. intros p Hp%elem_of_values.
      by apply (inv_lru 0 m Hi). }
    rewrite length_map, length_map_to_list in Hsub. lia.
  - apply (inv_closed 0 m Hi).
  - intros p Hp. split; intros Hin.
    + by destruct (inv_closed_dead 0 m Hi p Hin).
    + by destruct (inv_closing_dead 0 m Hi p Hin) as (_ & ? & _).
  - intros p e a He Hr Hn. destruct (inv_no_leak 0 m Hi p e He) as [|[|[|[err Hx]]]]; auto; [done|].
    congruence.
Qed.

(** The tracked keys behave as the textbook LRU cache of the configured
    capacity: a request for a key moves it to the front and the last key
    beyond the cap leaves. *)
Theorem manager_refines_lru cap m key (H : reachable cap m) (Hm : 0 < maxPools m) :
  lru_keys (handlerFor_locked m key).1.1 = lru_touch (maxPools m) key (lru_keys m).
Proof.
  pose proof (reachable_inv cap m H) as Hi. destruct (pools m !! key) as [p|] eqn:Hk.
  { unfold handlerFor_locked. rewrite Hk. by apply lru_keys_hit. }
  rewrite handlerFor_miss by done. cbn [fst]. set (m1 := insert_new m key _).
  assert (inv_slack 1 m1) as Hi1 by (apply insert_new_inv; auto using fresh_entry).
  pose proof (lru_keys_insert m key Hi Hm) as Hkeys. fold m1 in Hkeys.
  unfold lru_touch. rewrite filter_ne_id by (by apply key_not_tracked).
  rewrite <- Hkeys. change (maxPools m) with (maxPools m1) in *. clearbody m1.
  destruct (evict_spec m1 Hi1) as [[-> Hcap]|(l & v & k & El & Hkv & -> & Hm1 & Hlen)].
  - rewrite take_ge; [done|]. unfold lru_keys. rewrite length_map. specialize (Hcap Hm). lia.
  - unfold lru_keys, remove_live; simpl. change (key_of _) with (key_of m1).
    pose proof (inv_lru_nodup 1 m1 Hi1) as Hnd. rewrite El in *. rewrite remove_last by done.
    rewrite map_app, take_app_le by (rewrite length_map; rewrite length_app in Hlen; simpl in Hlen; lia).
    rewrite take_ge; [done|]. rewrite length_map. rewrite length_app in Hlen; simpl in Hlen. lia.
Qed.
End Manager.

(** A manager of capacity one asked for two keys in turn. *)
Definition sample_manager : Manager (Pool := nat) (BuildErr := unit) :=
  (handlerFor_locked (handlerFor_locked (NewManager 1) "v1").1.1 "v2").1.1.

Lemma sample_reachable : reachable 1 sample_manager.
Proof. eapply ReachStep; [eapply ReachStep; [apply ReachNew|constructor]|constructor]. Qed.

Lemma manager_invariant_witness : NoDup (closed sample_manager).
Proof. apply (manager_invariant 1 sample_manager sample_reachable). Defined.

Lemma manager_refines_lru_witness :
  lru_keys (handlerFor_locked sample_manager "v1").1.1 = ["v1"].
Proof. apply (manager_refines_lru 1 sample_manager "v1" sample_reachable). reflexivity. Defined.

(** The first build of a key fails; the next caller is told so without a build. *)
Lemma build_outcome_stands_witness :
  let m := finish_build (handlerFor_locked (NewManager (Pool := nat) (BuildErr := unit) 4) "v1").1.1
             (handlerFor_locked (NewManager (Pool := nat) (BuildErr := unit) 4) "v1").1.2 (Err tt) in
  (handlerFor_locked m "v1").2 = false
  /\ handler_result (handlerFor_locked m "v1").1.1 (handlerFor_locked m "v1").1.2 = Some (Err tt).
Proof.
  cbv zeta. set (m := finish_build _ _ _).
  pose proof (build_outcome_stands m m "v1" (handlerFor_locked (NewManager (Pool := nat) (BuildErr := unit) 4) "v1").1.2
    (Err tt) eq_refl (steps_refl m) eq_refl) as H.
  destruct (handlerFor_locked m "v1") as [[m2 q] b]. destruct H as (_ & Hb & Hres). by split.
Defined.
