(* ===== verification/Store.v ===== *)
(** * Store: the relational store

    Models the SQL repositories of src/server/internal/store/sqlcommon: one
    finite map per table with its primary key, uniqueness constraints and
    foreign keys (a violated constraint of any kind is [ErrConflict], as the
    SQLite dialect maps it), one operation per repository method, and the transactional
    aggregates of aggregate.go. Any statement may fail in the backend: the
    world carries a schedule of such faults, consumed one per statement. *)

From stdpp Require Import sorting.
From S2P Require Import Prelude Types.

(** ** State and errors *)

(** The sentinel errors of the [store] package; [ErrBackend] is any other. *)
Inductive StoreErr := ErrNotFound | ErrConflict | ErrFunctionLimitReached | ErrBackend.

(** The tables of credentials: browser sessions, the codes and devices of the CLI
    login, the OAuth authorization server's clients, codes and grants, and the
    codes of the function single sign-on. *)
Record Creds := mkCreds {
  t_sessions : gmap string Session;
  t_invoke_codes : gmap string InvokeAuthCode;
  t_cli_credentials : gmap string CLICredential;
  t_cli_codes : gmap string CLIAuthCode;
  t_oauth_clients : gmap string OAuthClient;
  t_oauth_codes : gmap string OAuthAuthCode;
  t_oauth_grants : gmap string OAuthGrant
}.

Definition empty_creds : Creds := mkCreds ∅ ∅ ∅ ∅ ∅ ∅ ∅.

Record Tables := mkTables {
  t_organization : option Organization;
  t_login_rules : list LoginRule;
  t_users : gmap string User;
  t_handles : gmap string PublicUserID;
  t_workspaces : gmap string Workspace;
  t_members : gmap (string * string) WorkspaceMember;
  t_functions : gmap string Function;
  t_names : gmap string (string * bool);
  t_versions : gmap string FunctionVersion;
  t_env : gmap (string * string) EnvVar;
  t_logs : gmap string InvocationLog;
  t_audit : list AuditLog;
  t_creds : Creds
}.

Definition empty_tables : Tables := mkTables None [] ∅ ∅ ∅ ∅ ∅ ∅ ∅ ∅ ∅ [] empty_creds.

(** The world a request runs in: the tables, the blob store, the pools it asked
    the runtime to invalidate, the clock in nanoseconds, the number of
    identifiers and random strings handed out, and the backend faults to come. *)
Record World := mkWorld {
  tbl : Tables;
  blobs : gmap string string;
  invalidated : list string;
  now : Time;
  ids : nat;
  faults : list bool
}.

Definition with_tbl (w : World) (t : Tables) : World :=
  mkWorld t (blobs w) (invalidated w) (now w) (ids w) (faults w).

(** What the server runs on: [ulid] is the sequence of identifiers
    [store.NewID] produces and [random] the strings [crypto/rand] fills buffers
    with, no two alike; [dialect_Name] names the SQL dialect of the store
    ("sqlite", "postgres", ...). *)
Class IdGen := {
  ulid : nat -> string;
  random : nat -> string;
  dialect_Name : string;
  ulid_inj i j : ulid i = ulid j -> i = j;
  random_inj i j : random i = random j -> i = j
}.

(** ** The monad: state passing with errors *)

Definition M (E A : Type) : Type := World -> result E A * World.

Definition ret {E A} (a : A) : M E A := fun w => (Ok a, w).
Definition throw {E A} (e : E) : M E A := fun w => (Err e, w).
Definition bind {E A B} (m : M E A) (k : A -> M E B) : M E B :=
  fun w => match m w with (Ok a, w') => k a w' | (Err e, w') => (Err e, w') end.
(** Run an operation and look at its error, as [x, err := op()] does. *)
Definition attempt {E F A} (m : M E A) : M F (result E A) :=
  fun w => let '(r, w') := m w in (Ok r, w').
(** Map the error of an operation. *)
Definition or_err {E F A} (f : E -> F) (m : M E A) : M F A :=
  fun w => let '(r, w') := m w in (map_err f r, w').
Definition get {E A} (f : World -> A) : M E A := fun w => (Ok (f w), w).
Definition lift {E A} (r : result E A) : M E A := fun w => (r, w).

Declare Scope m_scope.
Delimit Scope m_scope with m.
Notation "'do!' x '<-' m ';' k" := (bind m (fun x => k))
  (at level 10, x pattern, m at level 100, k at level 200) : m_scope.
Notation "'run!' m ';' k" := (bind m (fun _ => k))
  (at level 10, m at level 100, k at level 200) : m_scope.
#[global] Open Scope m_scope.

(** [time.Now], and the whole seconds a timestamp column holds
    ([fromUnix(nowUnix())]). *)
Definition second : Time := 10 ^ 9.
Definition toUnix (t : Time) : Z := t / second.
Definition fromUnix (sec : Z) : Time := sec * second.
Definition time_Now {E} : M E Time := get now.
Definition stored (t : Time) : Time := fromUnix (toUnix t).
Definition stored_now {E} : M E Time := get (fun w => stored (now w)).

(** One statement reaching the backend. *)
Definition statement {A} (f : Tables -> result StoreErr (A * Tables)) : M StoreErr A :=
  fun w =>
    match faults w with
    | true :: rest =>
        (Err ErrBackend, mkWorld (tbl w) (blobs w) (invalidated w) (now w) (ids w) rest)
    | fs =>
        let w := mkWorld (tbl w) (blobs w) (invalidated w) (now w) (ids w) (List.tl fs) in
        match f (tbl w) with
        | Ok (a, t) => (Ok a, with_tbl w t)
        | Err e => (Err e, w)
        end
    end.

Definition query {A} (f : Tables -> result StoreErr A) : M StoreErr A :=
  statement (fun t => match f t with Ok a => Ok (a, t) | Err e => Err e end).
Definition write (f : Tables -> result StoreErr Tables) : M StoreErr unit :=
  statement (fun t => match f t with Ok t => Ok (tt, t) | Err e => Err e end).

(** [db.BeginTx]: statements whose writes are all kept or all dropped. *)
Definition transaction {A} (m : M StoreErr A) : M StoreErr A :=
  fun w => match m w with
           | (Ok a, w') => (Ok a, w')
           | (Err e, w') => (Err e, with_tbl w' (tbl w))
           end.

Definition row {A} (o : option A) : result StoreErr A :=
  match o with Some a => Ok a | None => Err ErrNotFound end.

(** ** Table updates *)

Definition set_organization (t : Tables) (x : option Organization) : Tables :=
  mkTables x (t_login_rules t) (t_users t) (t_handles t) (t_workspaces t) (t_members t)
    (t_functions t) (t_names t) (t_versions t) (t_env t) (t_logs t) (t_audit t) (t_creds t).
Definition set_login_rules (t : Tables) (x : list LoginRule) : Tables :=
  mkTables (t_organization t) x (t_users t) (t_handles t) (t_workspaces t) (t_members t)
    (t_functions t) (t_names t) (t_versions t) (t_env t) (t_logs t) (t_audit t) (t_creds t).
Definition set_users (t : Tables) (x : gmap string User) : Tables :=
  mkTables (t_organization t) (t_login_rules t) x (t_handles t) (t_workspaces t) (t_members t)
    (t_functions t) (t_names t) (t_versions t) (t_env t) (t_logs t) (t_audit t) (t_creds t).
Definition set_handles (t : Tables) (x : gmap string PublicUserID) : Tables :=
  mkTables (t_organization t) (t_login_rules t) (t_users t) x (t_workspaces t) (t_members t)
    (t_functions t) (t_names t) (t_versions t) (t_env t) (t_logs t) (t_audit t) (t_creds t).
Definition set_workspaces (t : Tables) (x : gmap string Workspace) : Tables :=
  mkTables (t_organization t) (t_login_rules t) (t_users t) (t_handles t) x (t_members t)
    (t_functions t) (t_names t) (t_versions t) (t_env t) (t_logs t) (t_audit t) (t_creds t).
Definition set_members (t : Tables) (x : gmap (string * string) WorkspaceMember) : Tables :=
  mkTables (t_organization t) (t_login_rules t) (t_users t) (t_handles t) (t_workspaces t) x
    (t_functions t) (t_names t) (t_versions t) (t_env t) (t_logs t) (t_audit t) (t_creds t).
Definition set_functions (t : Tables) (x : gmap string Function) : Tables :=
  mkTables (t_organization t) (t_login_rules t) (t_users t) (t_handles t) (t_workspaces t)
    (t_members t) x (t_names t) (t_versions t) (t_env t) (t_logs t) (t_audit t) (t_creds t).
Definition set_names (t : Tables) (x : gmap string (string * bool)) : Tables :=
  mkTables (t_organization t) (t_login_rules t) (t_users t) (t_handles t) (t_workspaces t)
    (t_members t) (t_functions t) x (t_versions t) (t_env t) (t_logs t) (t_audit t) (t_creds t).
Definition set_versions (t : Tables) (x : gmap string FunctionVersion) : Tables :=
  mkTables (t_organization t) (t_login_rules t) (t_users t) (t_handles t) (t_workspaces t)
    (t_members t) (t_functions t) (t_names t) x (t_env t) (t_logs t) (t_audit t) (t_creds t).
Definition set_env (t : Tables) (x : gmap (string * string) EnvVar) : Tables :=
  mkTables (t_organization t) (t_login_rules t) (t_users t) (t_handles t) (t_workspaces t)
    (t_members t) (t_functions t) (t_names t) (t_versions t) x (t_logs t) (t_audit t) (t_creds t).
Definition set_logs (t : Tables) (x : gmap string InvocationLog) : Tables :=
  mkTables (t_organization t) (t_login_rules t) (t_users t) (t_handles t) (t_workspaces t)
    (t_members t) (t_functions t) (t_names t) (t_versions t) (t_env t) x (t_audit t) (t_creds t).
Definition set_audit (t : Tables) (x : list AuditLog) : Tables :=
  mkTables (t_organization t) (t_login_rules t) (t_users t) (t_handles t) (t_workspaces t)
    (t_members t) (t_functions t) (t_names t) (t_versions t) (t_env t) (t_logs t) x (t_creds t).
Definition set_creds (t : Tables) (x : Creds) : Tables :=
  mkTables (t_organization t) (t_login_rules t) (t_users t) (t_handles t) (t_workspaces t)
    (t_members t) (t_functions t) (t_names t) (t_versions t) (t_env t) (t_logs t) (t_audit t) x.

(** Rows of a map that satisfy a predicate. *)
Definition rows {K A} `{Countable K} (p : A -> bool) (m : gmap K A) : list A :=
  List.filter p (map snd (map_to_list m)).
Definition count_rows {K A} `{Countable K} (p : A -> bool) (m : gmap K A) : Z :=
  Z.of_nat (length (rows p m)).
Definition delete_rows {K A} `{Countable K} (p : A -> bool) (m : gmap K A) : gmap K A :=
  filter (fun kv => p kv.2 = false) m.

(** [ORDER BY created_at ASC]. *)
Definition created_le {A} (created : A -> Time) (x y : A) : Prop := created x <= created y.
#[export] Instance created_le_dec {A} (created : A -> Time) : RelDecision (created_le created).
Proof. intros x y. unfold created_le. apply _. Defined.
Definition order_by {A} (created : A -> Time) (l : list A) : list A :=
  merge_sort (created_le created) l.

Section Repositories.
Context {I : IdGen}.

(** [if x.ID == "" { x.ID = store.NewID() }]. *)
Definition new_id {E} (id : string) : M E string :=
  if id == "" then
    fun w => (Ok (ulid (ids w)),
              mkWorld (tbl w) (blobs w) (invalidated w) (now w) (S (ids w)) (faults w))
  else ret id.

(** A buffer filled by [rand.Read]. *)
Definition rand_Read {E} : M E string :=
  fun w => (Ok (random (ids w)),
            mkWorld (tbl w) (blobs w) (invalidated w) (now w) (S (ids w)) (faults w)).

(** ** sqlcommon/functions.go *)

Definition same_owner (ot : OwnerType) (oid : string) (f : Function) : bool :=
  bool_decide (f_OwnerType f = ot) && (f_OwnerID f == oid).

(** [functionLimitScopeCond]: what counts towards the limit of [f]'s scope; a
    NULL creator equals nothing. *)
Definition functionLimitScopeCond (f g : Function) : bool :=
  same_owner (f_OwnerType f) (f_OwnerID f) g
  && (if bool_decide (f_OwnerType f = OwnerTypeWorkspace) then
        match f_CreatedBy f, f_CreatedBy g with
        | Some a, Some b => a == b
        | _, _ => false
        end
      else true).

Definition functionLimitScopeKey (f : Function) : string :=
  if bool_decide (f_OwnerType f = OwnerTypeWorkspace) then
    "workspace|" +:+ f_OwnerID f +:+ "|" +:+ default "" (f_CreatedBy f)
  else "user|" +:+ f_OwnerID f.

(** The constraints of the [functions] table: primary key, one name per owner,
    and a creator that exists. *)
Definition insert_function (f : Function) (t : Tables) : result StoreErr Tables :=
  if bool_decide (is_Some (t_functions t !! f_ID f)) then Err ErrConflict
  else if existsb (fun g => same_owner (f_OwnerType f) (f_OwnerID f) g && (f_Name g == f_Name f))
            (map snd (map_to_list (t_functions t))) then Err ErrConflict
  else if match f_CreatedBy f with
          | Some u => negb (bool_decide (is_Some (t_users t !! u)))
          | None => false
          end then Err ErrConflict
  else Ok (set_functions t (<[f_ID f := f]> (t_functions t))).

Definition insert_name (f : Function) (t : Tables) : result StoreErr Tables :=
  if bool_decide (is_Some (t_names t !! f_Name f)) then Err ErrConflict
  else if existsb (fun nf => nf.1 == f_ID f) (map snd (map_to_list (t_names t)))
  then Err ErrConflict
  else Ok (set_names t (<[f_Name f := (f_ID f, true)]> (t_names t))).

Definition stamp_function (f : Function) (id : string) (t : Time) : Function :=
  mkFunction id (f_OwnerType f) (f_OwnerID f) (f_Name f) (f_Description f) (f_ActiveVersionID f)
    (f_CreatedBy f) t t.

(** Its first statement on PostgreSQL: the advisory lock of the counting scope.
    It reads no table; what it waits for is the subject of StoreQuota. *)
Definition lock_scope (f : Function) (limit : Z) : M StoreErr unit :=
  if (0 <? limit) && (dialect_Name == "postgres") then query (fun _ => Ok tt) else ret tt.

(** [INSERT INTO functions ... SELECT ... WHERE (SELECT COUNT( * ) ...) < limit]. *)
Definition insert_within (f : Function) (limit : Z) (tb : Tables) : result StoreErr Tables :=
  if (0 <? limit) && negb (count_rows (functionLimitScopeCond f) (t_functions tb) <? limit)
  then Err ErrFunctionLimitReached
  else insert_function f tb.

(** [functionRepo.create]: the lock, the insert guarded by the quota, then the
    name claim, in one transaction. *)
Definition Functions_create (f : Function) (limit : Z) : M StoreErr Function :=
  do! id <- new_id (f_ID f);
  do! t <- stored_now;
  let f := stamp_function f id t in
  run! transaction (
    run! lock_scope f limit;
    run! write (insert_within f limit);
    write (insert_name f));
  ret f.

Definition Functions_Create (f : Function) : M StoreErr Function := Functions_create f 0.
Definition Functions_CreateWithinLimit (f : Function) (limit : Z) : M StoreErr Function :=
  Functions_create f limit.

Definition Functions_ByID (id : string) : M StoreErr Function :=
  query (fun t => row (t_functions t !! id)).

Definition Functions_ByName (name : string) : M StoreErr Function :=
  query (fun t =>
    match t_names t !! name with
    | Some (id, true) => row (t_functions t !! id)
    | _ => Err ErrNotFound
    end).

Definition Functions_ByOwnerAndName (ot : OwnerType) (oid name : string) : M StoreErr Function :=
  query (fun t =>
    row (head (rows (fun f => same_owner ot oid f && (f_Name f == name)) (t_functions t)))).

Definition Functions_ListByOwner (ot : OwnerType) (oid : string) : M StoreErr (list Function) :=
  query (fun t => Ok (order_by f_CreatedAt (rows (same_owner ot oid) (t_functions t)))).

Definition visible_to (t : Tables) (userID : string) (f : Function) : bool :=
  match f_OwnerType f with
  | OwnerTypeUser => f_OwnerID f == userID
  | OwnerTypeWorkspace => bool_decide (is_Some (t_members t !! (f_OwnerID f, userID)))
  end.

Definition Functions_ListVisibleTo (userID : string) : M StoreErr (list Function) :=
  query (fun t => Ok (order_by f_CreatedAt (rows (visible_to t userID) (t_functions t)))).

Definition Functions_CountByOwner (ot : OwnerType) (oid : string) : M StoreErr Z :=
  query (fun t => Ok (count_rows (same_owner ot oid) (t_functions t))).

Definition Functions_CountByWorkspaceAndCreator (wsID userID : string) : M StoreErr Z :=
  query (fun t =>
    Ok (count_rows (fun f => same_owner OwnerTypeWorkspace wsID f
                             && bool_decide (f_CreatedBy f = Some userID)) (t_functions t))).

Definition Functions_ListAll : M StoreErr (list Function) :=
  query (fun t => Ok (order_by f_CreatedAt (rows (fun _ => true) (t_functions t)))).

Definition Functions_Update (f : Function) : M StoreErr Function :=
  do! existing <- Functions_ByID (f_ID f);
  if negb (f_Name existing == f_Name f) then throw ErrConflict
  else
    do! n <- stored_now;
    statement (fun t =>
      match t_functions t !! f_ID f with
      | None => Err ErrNotFound
      | Some g =>
          let g' := mkFunction (f_ID g) (f_OwnerType g) (f_OwnerID g) (f_Name f)
                      (f_Description f) (f_ActiveVersionID f) (f_CreatedBy g) (f_CreatedAt g) n in
          Ok (mkFunction (f_ID f) (f_OwnerType f) (f_OwnerID f) (f_Name f) (f_Description f)
                (f_ActiveVersionID f) (f_CreatedBy f) (f_CreatedAt f) n,
              set_functions t (<[f_ID f := g']> (t_functions t)))
      end).

(** [ON DELETE CASCADE] of [invoke_auth_codes.function_id]. *)
Definition drop_function_codes (id : string) (c : Creds) : Creds :=
  mkCreds (t_sessions c) (delete_rows (fun k => ic_FunctionID k == id) (t_invoke_codes c))
    (t_cli_credentials c) (t_cli_codes c) (t_oauth_clients c) (t_oauth_codes c) (t_oauth_grants c).

(** [functionRepo.Delete]: five statements of their own. The name stays
    claimed. *)
Definition Functions_Delete (id : string) : M StoreErr unit :=
  run! write (fun t =>
    Ok (set_names t ((fun nf => if (nf.1 == id) && (nf.2 : bool) then (nf.1, false) else nf)
                       <$> t_names t)));
  run! write (fun t => Ok (set_env t (delete_rows (fun e => e_FunctionID e == id) (t_env t))));
  run! write (fun t => Ok (set_logs t (delete_rows (fun l => il_FunctionID l == id) (t_logs t))));
  run! write (fun t =>
    Ok (set_versions t (delete_rows (fun v => v_FunctionID v == id) (t_versions t))));
  write (fun t =>
    Ok (set_creds (set_functions t (delete id (t_functions t)))
          (drop_function_codes id (t_creds t)))).

Definition Functions_CreateVersion (v : FunctionVersion) : M StoreErr FunctionVersion :=
  do! id <- new_id (v_ID v);
  do! n <- stored_now;
  let v := mkFunctionVersion id (v_FunctionID v) (v_Manifest v) (v_MainPath v) (v_BundleHash v)
             (v_BundleSize v) (v_UnpackedSize v) (v_Files v) (v_CreatedBy v) (v_Note v) n n in
  run! write (fun t =>
    if bool_decide (is_Some (t_versions t !! id)) then Err ErrConflict
    else if negb (bool_decide (is_Some (t_functions t !! v_FunctionID v)))
            || negb (bool_decide (is_Some (t_users t !! v_CreatedBy v))) then Err ErrConflict
    else Ok (set_versions t (<[id := v]> (t_versions t))));
  ret v.

Definition Functions_Version (id : string) : M StoreErr FunctionVersion :=
  query (fun t => row (t_versions t !! id)).

(** [ORDER BY created_at DESC, id DESC LIMIT ?]. *)
Definition newer (v w : FunctionVersion) : Prop :=
  v_CreatedAt w < v_CreatedAt v \/ (v_CreatedAt w = v_CreatedAt v /\ String.leb (v_ID w) (v_ID v) = true).
#[export] Instance newer_dec : RelDecision newer.
Proof. intros v w. unfold newer. apply _. Defined.

Definition at_most {A} (limit : Z) (l : list A) : list A :=
  if 0 <? limit then take (Z.to_nat limit) l else l.

Definition Functions_ListVersions (funcID : string) (limit : Z)
    : M StoreErr (list FunctionVersion) :=
  query (fun t =>
    Ok (at_most limit (merge_sort newer (rows (fun v => v_FunctionID v == funcID) (t_versions t))))).

Definition Functions_SetEnv (funcID key valueEnc : string) : M StoreErr unit :=
  do! n <- stored_now;
  write (fun t =>
    if negb (bool_decide (is_Some (t_functions t !! funcID))) then Err ErrConflict
    else
      let created := match t_env t !! (funcID, key) with Some e => e_CreatedAt e | None => n end in
      Ok (set_env t (<[(funcID, key) := mkEnvVar funcID key valueEnc created n]> (t_env t)))).

Definition Functions_DeleteEnv (funcID key : string) : M StoreErr unit :=
  write (fun t => Ok (set_env t (delete (funcID, key) (t_env t)))).

Definition Functions_ListEnv (funcID : string) : M StoreErr (list (string * string)) :=
  query (fun t => Ok (map (fun e => (e_Key e, e_ValueEnc e))
                          (rows (fun e => e_FunctionID e == funcID) (t_env t)))).

(** ** sqlcommon/handles.go *)

Definition PublicUserIDs_Create (p : PublicUserID) : M StoreErr unit :=
  do! n <- stored_now;
  write (fun t =>
    if bool_decide (is_Some (t_handles t !! p_UserID p))
       || existsb (fun q => p_InternalUserID q == p_InternalUserID p)
            (map snd (map_to_list (t_handles t))) then Err ErrConflict
    else Ok (set_handles t (<[p_UserID p := mkPublicUserID (p_UserID p) (p_InternalUserID p) n n]>
                              (t_handles t)))).

Definition PublicUserIDs_ByUserID (userID : string) : M StoreErr PublicUserID :=
  query (fun t => row (t_handles t !! userID)).

Definition PublicUserIDs_ByOwner (internalID : string) : M StoreErr PublicUserID :=
  query (fun t => row (head (rows (fun p => p_InternalUserID p == internalID) (t_handles t)))).

Definition PublicUserIDs_Rename (oldUserID newUserID : string) : M StoreErr unit :=
  do! n <- stored_now;
  write (fun t =>
    match t_handles t !! oldUserID with
    | None => Err ErrNotFound
    | Some p =>
        if negb (newUserID == oldUserID) && bool_decide (is_Some (t_handles t !! newUserID))
        then Err ErrConflict
        else Ok (set_handles t (<[newUserID := mkPublicUserID newUserID (p_InternalUserID p)
               (p_CreatedAt p) n]> (delete oldUserID (t_handles t))))
    end).

Definition PublicUserIDs_Delete (userID : string) : M StoreErr unit :=
  write (fun t => Ok (set_handles t (delete userID (t_handles t)))).

(** ** sqlcommon/organizations.go *)

Definition Organizations_Get : M StoreErr Organization :=
  query (fun t => row (t_organization t)).

Definition Organizations_Update (o : Organization) : M StoreErr unit :=
  do! n <- stored_now;
  write (fun t =>
    match t_organization t with
    | None => Err ErrNotFound
    | Some old => Ok (set_organization t (Some (mkOrganization (o_ID old) (o_Name o) (o_Settings o)
                                             (o_SettingsGen o) (o_CreatedAt old) n)))
    end).

(** [ORDER BY ord ASC]. *)
Definition ord_le (a b : LoginRule) : Prop := lr_Ord a <= lr_Ord b.
#[export] Instance ord_le_dec : RelDecision ord_le.
Proof. intros a b. unfold ord_le. apply _. Defined.

Definition Organizations_ListLoginRules : M StoreErr (list LoginRule) :=
  query (fun t => Ok (merge_sort ord_le (t_login_rules t))).

Fixpoint insert_login_rules (rules : list LoginRule) (n : Time) : M StoreErr (list LoginRule) :=
  match rules with
  | [] => ret []
  | lr :: rules =>
      do! id <- new_id (lr_ID lr);
      let lr := mkLoginRule id (lr_Ord lr) (lr_RuleType lr) (lr_Value lr) (lr_Action lr) n n in
      run! write (fun t =>
        if existsb (fun x => lr_ID x == id) (t_login_rules t) then Err ErrConflict
        else Ok (set_login_rules t (t_login_rules t ++ [lr])));
      do! rest <- insert_login_rules rules n;
      ret (lr :: rest)
  end.

Definition Organizations_ReplaceLoginRules (rules : list LoginRule) : M StoreErr (list LoginRule) :=
  do! n <- stored_now;
  transaction (
    run! write (fun t => Ok (set_login_rules t []));
    insert_login_rules rules n).

(** ** sqlcommon/users.go *)

(** The constraints of the [users] table, against the other rows. *)
Definition user_unique (u : User) (t : Tables) : bool :=
  negb (existsb (fun v => negb (u_ID v == u_ID u)
                          && ((u_Email v == u_Email u)
                              || (bool_decide (u_Provider v = u_Provider u)
                                  && (u_ProviderSubject v == u_ProviderSubject u))))
          (map snd (map_to_list (t_users t)))).

Definition stamp_user (u : User) (id : string) (t : Time) : User :=
  mkUser id (u_Provider u) (u_ProviderSubject u) (u_Email u) (u_Name u) (u_Role u) (u_Status u)
    (u_Language u) t t.

Definition insert_user (u : User) (t : Tables) : result StoreErr Tables :=
  if bool_decide (is_Some (t_users t !! u_ID u)) || negb (user_unique u t) then Err ErrConflict
  else Ok (set_users t (<[u_ID u := u]> (t_users t))).

Definition Users_Create (u : User) : M StoreErr User :=
  do! id <- new_id (u_ID u);
  do! n <- stored_now;
  let u := stamp_user u id n in
  run! write (insert_user u);
  ret u.

Definition Users_ByID (id : string) : M StoreErr User := query (fun t => row (t_users t !! id)).

Definition Users_ByProviderSubject (p : Provider) (subject : string) : M StoreErr User :=
  query (fun t => row (head (rows (fun u => bool_decide (u_Provider u = p)
                                            && (u_ProviderSubject u == subject)) (t_users t)))).

Definition Users_ByEmail (email : string) : M StoreErr User :=
  query (fun t => row (head (rows (fun u => u_Email u == email) (t_users t)))).

Definition Users_Update (u : User) : M StoreErr unit :=
  do! n <- stored_now;
  write (fun t =>
    match t_users t !! u_ID u with
    | None => Err ErrNotFound
    | Some old =>
        if negb (user_unique u t) then Err ErrConflict
        else Ok (set_users t (<[u_ID u := mkUser (u_ID u) (u_Provider u) (u_ProviderSubject u)
               (u_Email u) (u_Name u) (u_Role u) (u_Status u) (u_Language u) (u_CreatedAt old) n]>
               (t_users t)))
    end).

Definition Users_List : M StoreErr (list User) :=
  query (fun t => Ok (order_by u_CreatedAt (rows (fun _ => true) (t_users t)))).

(** ** sqlcommon/workspaces.go *)

Definition Workspaces_ByID (id : string) : M StoreErr Workspace :=
  query (fun t => row (t_workspaces t !! id)).

Definition default_settings (x : Workspace) (id : string) (n : Time) : Workspace :=
  mkWorkspace id (w_Name x) (if w_Settings x == "" then "{}" else w_Settings x)
    (if w_SettingsGen x =? 0 then 1 else w_SettingsGen x) n n.

Definition insert_workspace (x : Workspace) (t : Tables) : result StoreErr Tables :=
  if bool_decide (is_Some (t_workspaces t !! w_ID x)) then Err ErrConflict
  else Ok (set_workspaces t (<[w_ID x := x]> (t_workspaces t))).

Definition Workspaces_Create (x : Workspace) : M StoreErr Workspace :=
  do! id <- new_id (w_ID x);
  do! n <- stored_now;
  let x := default_settings x id n in
  run! write (insert_workspace x);
  ret x.

Definition Workspaces_Update (x : Workspace) : M StoreErr unit :=
  do! n <- stored_now;
  write (fun t =>
    match t_workspaces t !! w_ID x with
    | None => Err ErrNotFound
    | Some old => Ok (set_workspaces t (<[w_ID x := mkWorkspace (w_ID x) (w_Name x) (w_Settings x)
                        (w_SettingsGen x) (w_CreatedAt old) n]> (t_workspaces t)))
    end).

Definition Workspaces_Delete (id : string) : M StoreErr unit :=
  run! write (fun t =>
    Ok (set_members t (delete_rows (fun m => wm_WorkspaceID m == id) (t_members t))));
  write (fun t => Ok (set_workspaces t (delete id (t_workspaces t)))).

Definition insert_member (m : WorkspaceMember) (t : Tables) : result StoreErr Tables :=
  if bool_decide (is_Some (t_members t !! (wm_WorkspaceID m, wm_UserID m))) then Err ErrConflict
  else if negb (bool_decide (is_Some (t_workspaces t !! wm_WorkspaceID m)))
          || negb (bool_decide (is_Some (t_users t !! wm_UserID m))) then Err ErrConflict
  else Ok (set_members t (<[(wm_WorkspaceID m, wm_UserID m) := m]> (t_members t))).

Definition Workspaces_AddMember (m : WorkspaceMember) : M StoreErr unit :=
  do! n <- stored_now;
  write (insert_member (mkWorkspaceMember (wm_WorkspaceID m) (wm_UserID m) (wm_Role m) n n)).

Definition Workspaces_RemoveMember (wsID userID : string) : M StoreErr unit :=
  write (fun t =>
    match t_members t !! (wsID, userID) with
    | None => Err ErrNotFound
    | Some _ => Ok (set_members t (delete (wsID, userID) (t_members t)))
    end).

Definition Workspaces_UpdateMemberRole (wsID userID : string) (role : Role) : M StoreErr unit :=
  do! n <- stored_now;
  write (fun t =>
    match t_members t !! (wsID, userID) with
    | None => Err ErrNotFound
    | Some m => Ok (set_members t (<[(wsID, userID) :=
                      mkWorkspaceMember wsID userID role (wm_CreatedAt m) n]> (t_members t)))
    end).

Definition Workspaces_ListMembers (wsID : string) : M StoreErr (list WorkspaceMember) :=
  query (fun t =>
    Ok (order_by wm_CreatedAt (rows (fun m => wm_WorkspaceID m == wsID) (t_members t)))).

Definition Workspaces_ListForUser (userID : string) : M StoreErr (list Workspace) :=
  query (fun t => Ok (order_by w_CreatedAt
    (rows (fun x => existsb (fun m => (wm_WorkspaceID m == w_ID x) && (wm_UserID m == userID))
                      (map snd (map_to_list (t_members t)))) (t_workspaces t)))).

Definition Workspaces_ListAll : M StoreErr (list Workspace) :=
  query (fun t => Ok (order_by w_CreatedAt (rows (fun _ => true) (t_workspaces t)))).

(** ** sqlcommon/aggregate.go *)

Definition org_row (name : string) (n : Time) : Organization := mkOrganization "org" name "{}" 1 n n.

Definition Store_BootstrapFirstUser (u : User) (orgName : string) : M StoreErr User :=
  do! n <- stored_now;
  transaction (
    do! count <- query (fun t => Ok (size (t_users t)));
    if (0 <? count)%nat then throw ErrConflict
    else
      do! org <- query (fun t => Ok (t_organization t));
      run! (match org with
            | Some _ => ret tt
            | None => write (fun t => Ok (set_organization t (Some (org_row orgName n))))
            end);
      do! id <- new_id (u_ID u);
      let u := mkUser id (u_Provider u) (u_ProviderSubject u) (u_Email u) (u_Name u) RoleAdmin
                 UserStatusActive (u_Language u) n n in
      run! write (insert_user u);
      ret u).

Definition Store_ActivateVersion (funcID versionID : string) : M StoreErr unit :=
  do! n <- stored_now;
  transaction (
    do! v <- query (fun t => row (t_versions t !! versionID));
    if negb (v_FunctionID v == funcID) then throw ErrNotFound
    else
      write (fun t =>
        match t_functions t !! funcID with
        | None => Err ErrNotFound
        | Some f => Ok (set_functions t (<[funcID := mkFunction (f_ID f) (f_OwnerType f)
                          (f_OwnerID f) (f_Name f) (f_Description f) (Some versionID)
                          (f_CreatedBy f) (f_CreatedAt f) n]> (t_functions t)))
        end)).

Definition Store_CreateWorkspace (x : Workspace) (creator : string) : M StoreErr Workspace :=
  do! id <- new_id (w_ID x);
  do! n <- stored_now;
  let x := default_settings x id n in
  run! transaction (
    run! write (insert_workspace x);
    write (insert_member (mkWorkspaceMember id creator RoleAdmin n n)));
  ret x.
End Repositories.

(** ** Reasoning about operations *)

(** [preserves R m]: whatever the outcome of [m], the worlds before and after
    are related by [R]. *)
Definition preserves {E A} (R : World -> World -> Prop) (m : M E A) : Prop :=
  forall w, R w (m w).2.

(** A relation on tables, together with nothing said of the rest. *)
Definition on_tables (R : Tables -> Tables -> Prop) (w w' : World) : Prop := R (tbl w) (tbl w').

Section Preserves.
Context (R : World -> World -> Prop) `{!Reflexive R, !Transitive R}.

Lemma preserves_ret {E A} (a : A) : preserves R (ret (E := E) a).
Proof. intros w. simpl. reflexivity. Qed.

Lemma preserves_throw {E A} (e : E) : preserves R (throw (A := A) e).
Proof. intros w. simpl. reflexivity. Qed.

Lemma preserves_get {E A} (f : World -> A) : preserves R (get (E := E) f).
Proof. intros w. simpl. reflexivity. Qed.

Lemma preserves_lift {E A} (r : result E A) : preserves R (lift r).
Proof. intros w. simpl. reflexivity. Qed.

Lemma preserves_bind {E A B} (m : M E A) (k : A -> M E B) :
  preserves R m -> (forall a, preserves R (k a)) -> preserves R (bind m k).
Proof.
  intros Hm Hk w. unfold bind. specialize (Hm w). destruct (m w) as [[a|e] w']; simpl in *; [|done].
  etrans; [exact Hm|apply Hk].
Qed.

Lemma preserves_attempt {E F A} (m : M E A) : preserves R m -> preserves R (attempt (F := F) m).
Proof. intros Hm w. unfold attempt. specialize (Hm w). by destruct (m w). Qed.

Lemma preserves_or_err {E F A} (f : E -> F) (m : M E A) : preserves R m -> preserves R (or_err f m).
Proof. intros Hm w. unfold or_err. specialize (Hm w). by destruct (m w). Qed.
End Preserves.

Section PreservesTables.
Context (R : Tables -> Tables -> Prop) `{!Reflexive R, !Transitive R}.

#[export] Instance on_tables_refl : Reflexive (on_tables R).
Proof. intros w. unfold on_tables. reflexivity. Qed.
#[export] Instance on_tables_trans : Transitive (on_tables R).
Proof. intros w1 w2 w3. unfold on_tables. apply transitivity. Qed.

(** From one world: only the table the statement meets matters. *)
Lemma statement_at {A} (f : Tables -> result StoreErr (A * Tables)) w :
  (forall a t', f (tbl w) = Ok (a, t') -> R (tbl w) t') -> on_tables R w (statement f w).2.
Proof.
  intros Hf. unfold statement, on_tables.
  destruct (faults w) as [|[] fs]; simpl; [|reflexivity|];
    destruct (f (tbl w)) as [[a t]|e] eqn:E; simpl; try reflexivity; by eapply Hf.
Qed.

Lemma preserves_statement {A} (f : Tables -> result StoreErr (A * Tables)) :
  (forall t a t', f t = Ok (a, t') -> R t t') -> preserves (on_tables R) (statement f).
Proof. intros Hf w. apply statement_at; eauto. Qed.

Lemma preserves_write f :
  (forall t t', f t = Ok t' -> R t t') -> preserves (on_tables R) (write f).
Proof.
  intros Hf. apply preserves_statement. intros t a t' H. destruct (f t) eqn:E; simplify_eq. auto.
Qed.

Lemma preserves_query {A} (f : Tables -> result StoreErr A) : preserves (on_tables R) (query f).
Proof.
  apply preserves_statement. intros t a t' H. destruct (f t); simplify_eq. reflexivity.
Qed.

(** Inside a transaction the writes may break [R], as long as the committed
    state restores it. *)
Lemma preserves_transaction {A} (m : M StoreErr A) :
  (forall w a w', m w = (Ok a, w') -> R (tbl w) (tbl w')) ->
  preserves (on_tables R) (transaction m).
Proof.
  intros Hm w. unfold transaction, on_tables.
  destruct (m w) as [[a|e] w'] eqn:E; simpl; [by eapply Hm|reflexivity].
Qed.

Lemma preserves_transaction' {A} (m : M StoreErr A) :
  preserves (on_tables R) m -> preserves (on_tables R) (transaction m).
Proof.
  intros Hm. apply preserves_transaction. intros w a w' H. specialize (Hm w).
  unfold on_tables in Hm. by rewrite H in Hm.
Qed.

Lemma preserves_new_id `{IdGen} {E} id : preserves (on_tables R) (new_id (E := E) id).
Proof. intros w. unfold new_id, on_tables. destruct (id == ""); simpl; reflexivity. Qed.

Lemma preserves_rand_Read `{IdGen} {E} : preserves (on_tables R) (rand_Read (E := E)).
Proof. intros w. unfold rand_Read, on_tables. simpl. reflexivity. Qed.
End PreservesTables.

(** A successful write did what it says. *)
Lemma write_ok f w u w' : write f w = (Ok u, w') -> f (tbl w) = Ok (tbl w').
Proof.
  unfold write, statement.
  destruct (faults w) as [|[] fs]; simpl; try done; destruct (f (tbl w)); intros H; by simplify_eq/=.
Qed.

Lemma query_ok {A} (f : Tables -> result StoreErr A) w a w' :
  query f w = (Ok a, w') -> f (tbl w) = Ok a /\ tbl w' = tbl w.
Proof.
  unfold query, statement.
  destruct (faults w) as [|[] fs]; simpl; try done; destruct (f (tbl w)); intros H; by simplify_eq/=.
Qed.

Lemma bind_ok {E A B} (m : M E A) (k : A -> M E B) w b w' :
  bind m k w = (Ok b, w') -> exists a w1, m w = (Ok a, w1) /\ k a w1 = (Ok b, w').
Proof. unfold bind. destruct (m w) as [[a|e] w1]; [eauto|done]. Qed.

Lemma transaction_ok {A} (m : M StoreErr A) w a w' :
  transaction m w = (Ok a, w') -> m w = (Ok a, w').
Proof. unfold transaction. by destruct (m w) as [[?|?] ?]. Qed.

(** What a creation commits. *)
Lemma create_committed `{IdGen} f limit w u w' :
  (run! lock_scope f limit; run! write (insert_within f limit); write (insert_name f)) w = (Ok u, w') ->
  (0 < limit -> count_rows (functionLimitScopeCond f) (t_functions (tbl w)) < limit)
  /\ exists t1, insert_function f (tbl w) = Ok t1 /\ insert_name f t1 = Ok (tbl w').
Proof.
  intros H0. apply bind_ok in H0 as ([] & w0 & Hl & H0).
  assert (Ht : tbl w0 = tbl w).
  { unfold lock_scope in Hl. case_match; [by apply query_ok in Hl as [_ ?]|by injection Hl as ->]. }
  apply bind_ok in H0 as ([] & w1 & Hw & H0). apply write_ok in Hw, H0. rewrite Ht in Hw.
  unfold insert_within in Hw. case_step Hw. split; [intros Hp; bool_lia|eauto].
Qed.

Create HintDb store discriminated.
#[export] Hint Resolve preserves_ret preserves_throw preserves_get preserves_lift preserves_bind
  preserves_attempt preserves_or_err preserves_query preserves_new_id : store.
#[export] Hint Resolve on_tables_refl on_tables_trans : store.

(** Descend through an operation to its statements. *)
Ltac preserve_step :=
  match goal with
  | |- preserves _ (let x := _ in _) => cbv zeta
  | |- preserves _ (bind _ _) => apply preserves_bind; [exact _| |intros ?]
  | |- preserves _ (attempt _) => apply preserves_attempt
  | |- preserves _ (or_err _ _) => apply preserves_or_err
  | |- preserves _ (ret _) => apply preserves_ret; exact _
  | |- preserves _ (throw _) => apply preserves_throw; exact _
  | |- preserves _ (get _) => apply preserves_get; exact _
  | |- preserves _ stored_now => apply preserves_get; exact _
  | |- preserves _ time_Now => apply preserves_get; exact _
  | |- preserves _ rand_Read => apply preserves_rand_Read; exact _
  | |- preserves _ (lift _) => apply preserves_lift; exact _
  | |- preserves _ (query _) => apply preserves_query; exact _
  | |- preserves _ (new_id _) => apply preserves_new_id; exact _
  | |- preserves _ (if ?b then _ else _) => destruct b eqn:?
  | |- preserves _ (match ?x with _ => _ end) => destruct x eqn:?
  | |- preserves _ (let '(_, _) := ?x in _) => destruct x eqn:?
  end.
Ltac preserve := repeat preserve_step.

(** Operations of the store do not move the clock. *)
Definition same_now (w w' : World) : Prop := now w' = now w.
#[export] Instance same_now_refl : Reflexive same_now.
Proof. by intros w. Qed.
#[export] Instance same_now_trans : Transitive same_now.
Proof. intros w1 w2 w3. unfold same_now. congruence. Qed.

Lemma statement_now {A} (f : Tables -> result StoreErr (A * Tables)) : preserves same_now (statement f).
Proof.
  intros w. unfold statement. destruct (faults w) as [|[] fs]; simpl; try done;
    by destruct (f (tbl w)) as [[]|].
Qed.

(** An operation that only reads. *)
Definition still (w w' : World) : Prop := tbl w' = tbl w /\ now w' = now w.
#[export] Instance still_refl : Reflexive still.
Proof. by intros w. Qed.
#[export] Instance still_trans : Transitive still.
Proof. intros w1 w2 w3 [? ?] [? ?]. split; congruence. Qed.

Lemma still_query {A} (f : Tables -> result StoreErr A) : preserves still (query f).
Proof.
  intros w. unfold query, statement.
  destruct (faults w) as [|[] fs]; simpl; try done; by destruct (f (tbl w)).
Qed.

Ltac still := repeat first [apply still_query | preserve_step].

Lemma rand_now `{IdGen} {E} : preserves same_now (rand_Read (E := E)).
Proof. by intros w. Qed.

Lemma preserves_at {E A} R (m : M E A) w r w' : preserves R m -> m w = (r, w') -> R w w'.
Proof. intros Hm H. specialize (Hm w). by rewrite H in Hm. Qed.

(** The row a lookup by hash returns. *)
Lemma head_rows {K A} `{Countable K} (p : A -> bool) (m : gmap K A) x :
  row (head (rows p m)) = Ok x -> exists k, m !! k = Some x /\ p x = true.
Proof.
  unfold rows. destruct (List.filter p (map snd (map_to_list m))) as [|y l] eqn:E; [done|].
  intros [= ->]. assert (Hin : In x (List.filter p (map snd (map_to_list m)))) by (rewrite E; by left).
  apply filter_In in Hin as [Hin Hp]. apply in_map_iff in Hin as ([k y] & <- & Hin).
  exists k. split; [|done]. by apply elem_of_map_to_list, list_elem_of_In.
Qed.

(** [attempt] never fails. *)
Lemma attempt_run {E G A} (m : M E A) w (r : result G (result E A)) w' :
  attempt m w = (r, w') -> exists x, r = Ok x /\ m w = (x, w').
Proof. unfold attempt. destruct (m w) as [x w1]. intros [= <- <-]. eauto. Qed.

Lemma query_tbl {B} (f : Tables -> result StoreErr B) w : tbl (query f w).2 = tbl w.
Proof.
  unfold query, statement. destruct (faults w) as [|[] fs]; simpl; try done; by destruct (f (tbl w)).
Qed.

Lemma query_faultless {B} (f : Tables -> result StoreErr B) w :
  faults w = [] -> faults (query f w).2 = [].
Proof. intros Hf. unfold query, statement. rewrite Hf. simpl. by destruct (f (tbl w)). Qed.

(** A statement that fails changes no table. *)
Lemma query_err {B} (f : Tables -> result StoreErr B) w e w' :
  query f w = (Err e, w') -> tbl w' = tbl w /\ (e = ErrBackend \/ f (tbl w) = Err e).
Proof.
  unfold query, statement. intros H.
  destruct (faults w) as [|[] fs]; simpl in H; try destruct (f (tbl w)) eqn:?; simplify_eq/=; auto.
Qed.

Lemma row_ok {B} (o : option B) b : row o = Ok b -> o = Some b.
Proof. destruct o; simpl; congruence. Qed.

Lemma elem_of_rows {K A} `{Countable K} (p : A -> bool) (m : gmap K A) x :
  x ∈ rows p m <-> p x = true /\ exists k, m !! k = Some x.
Proof.
  unfold rows. rewrite list_elem_of_In, filter_In, <- list_elem_of_In, list_elem_of_fmap.
  setoid_rewrite <- (elem_of_map_to_list m). split.
  - intros [([k y] & -> & Hk) Hp]. eauto.
  - intros [Hp [k Hk]]. split; [|done]. by exists (k, x).
Qed.

Lemma write_err f w e w' :
  write f w = (Err e, w') -> tbl w' = tbl w /\ (e = ErrBackend \/ f (tbl w) = Err e).
Proof.
  unfold write, statement. intros H.
  destruct (faults w) as [|[] fs]; simpl in H; try destruct (f (tbl w)) eqn:?; simplify_eq/=; auto.
Qed.

Lemma query_plain {B} (f : Tables -> result StoreErr B) w :
  faults w = [] -> query f w = (f (tbl w), w).
Proof.
  intros Hf. unfold query, statement. rewrite Hf. simpl.
  destruct w as [t b i n k fs]; simpl in *; subst; by destruct (f t).
Qed.

(** ** A small installation, for the witnesses *)

(** The value of a run known to succeed. *)
Definition ok_or {E A} (d : A) (r : result E A) : A := match r with Ok a => a | Err _ => d end.

Lemma ok_or_run {E A} (d : A) (p : result E A * World) :
  is_ok p.1 = true -> p = (Ok (ok_or d p.1), p.2).
Proof. by destruct p as [[a|e] w]. Qed.

Fixpoint unary (n : nat) : string :=
  match n with O => "0" | S n => String "1" (unary n) end.
Lemma unary_inj i j : unary i = unary j -> i = j.
Proof. revert j. induction i; intros [|j] H; simpl in H; try done. injection H as H. f_equal. auto. Qed.
#[export] Instance unary_ids : IdGen := {|
  ulid := unary;
  random := fun n => ("r" ++ unary n)%string;
  dialect_Name := "sqlite";
  ulid_inj := unary_inj;
  random_inj i j H := unary_inj i j ltac:(by injection H)
|}.

Definition alice : User :=
  mkUser "U1" ProviderGoogle "sub-1" "alice@example.com" "Alice" RoleAdmin UserStatusActive "en" 1 1.
Definition bob : User :=
  mkUser "U2" ProviderGoogle "sub-2" "bob@example.com" "Bob" RoleMember UserStatusActive "en" 2 2.
Definition sample_workspace : Workspace := mkWorkspace "W1" "Team" "" 1 3 3.
Definition sample_tables : Tables :=
  mkTables (Some (mkOrganization "org" "Example" "" 1 1 1)) []
    {["U1" := alice; "U2" := bob]}
    {["alice" := mkPublicUserID "alice" "U1" 1 1; "bob" := mkPublicUserID "bob" "U2" 2 2]}
    {["W1" := sample_workspace]}
    {[("W1", "U1") := mkWorkspaceMember "W1" "U1" RoleAdmin 3 3;
      ("W1", "U2") := mkWorkspaceMember "W1" "U2" RoleMember 3 3]}
    ∅ ∅ ∅ ∅ ∅ [] empty_creds.
Definition sample_world : World := mkWorld sample_tables ∅ [] 100 0 [].
Definition personal (user name : string) : Function :=
  mkFunction "" OwnerTypeUser user name "" None (Some user) 0 0.
