(* ===== verification/GoTime.v ===== *)
(** * GoTime: dates and the texts of timestamps

    The Gregorian calendar and [time.Time.Format] for the two layouts the program
    writes: RFC 3339 in whole seconds, in a given zone, and the RFC 3339 with
    nanoseconds that [encoding/json] writes for a time in UTC. *)

From S2P Require Import Prelude Types Store.

(** ** The calendar *)

(** The civil date of a number of days since 1970-01-01: year, month, day. *)
Definition month_day (doy : Z) : Z * Z :=
  let mp := (5 * doy + 2) / 153 in
  ((if mp <? 10 then mp + 3 else mp - 9), doy - (153 * mp + 2) / 5 + 1).

(** In a cycle of 400 years from a first of March: centuries, leap cycles, years. *)
Definition civil_of_era (doe : Z) : Z * Z * Z :=
  let c := Z.min 3 (doe / 36524) in
  let doc := doe - 36524 * c in
  let q := doc / 1461 in
  let doq := doc - 1461 * q in
  let a := Z.min 3 (doq / 365) in
  let '(m, d) := month_day (doq - 365 * a) in
  (100 * c + 4 * q + a, m, d).

Definition civil_from_days (days : Z) : Z * Z * Z :=
  let z := days + 719468 in
  let '(yoe, m, d) := civil_of_era (z mod 146097) in
  (yoe + 400 * (z / 146097) + (if m <=? 2 then 1 else 0), m, d).

(** And back. *)
Definition day_of_year (m d : Z) : Z := (153 * (if 2 <? m then m - 3 else m + 9) + 2) / 5 + d - 1.

Definition era_of_civil (yoe m d : Z) : Z := yoe * 365 + yoe / 4 - yoe / 100 + day_of_year m d.

Definition days_from_civil (y m d : Z) : Z :=
  let y := if m <=? 2 then y - 1 else y in
  146097 * (y / 400) + era_of_civil (y mod 400) m d - 719468.

(** ** Formats *)

Definition pad (width : nat) (n : Z) : string :=
  let s := itoa n in
  string_of_list_ascii (repeat "0"%char (width - String.length s)) +:+ s.

Definition year_text (y : Z) : string := if y <? 0 then "-" +:+ pad 4 (- y) else pad 4 y.

Definition date_text (sec : Z) : string :=
  let '(y, m, d) := civil_from_days (sec / 86400) in
  let s := sec mod 86400 in
  year_text y +:+ "-" +:+ pad 2 m +:+ "-" +:+ pad 2 d +:+ "T"
    +:+ pad 2 (s / 3600) +:+ ":" +:+ pad 2 (s / 60 mod 60) +:+ ":" +:+ pad 2 (s mod 60).

(** [Z07:00], for a zone so many seconds east. *)
Definition zone_text (offset : Z) : string :=
  if offset =? 0 then "Z"
  else
    let zone := Z.abs offset / 60 in
    (if offset <? 0 then "-" else "+") +:+ pad 2 (zone / 60) +:+ ":" +:+ pad 2 (zone mod 60).

(** [t.Format(time.RFC3339)] in a zone. *)
Definition Format_RFC3339 (offset : Z) (t : Time) : string :=
  date_text (toUnix t + offset) +:+ zone_text offset.

(** [.999999999]: the fraction without its trailing zeros. *)
Fixpoint drop_zeros (s : string) : string :=
  match s with
  | String c r => if (c =? "0")%char then drop_zeros r else s
  | EmptyString => ""
  end.

Definition fraction_text (nanos : Z) : string :=
  if nanos =? 0 then "" else "." +:+ str_rev (drop_zeros (str_rev (pad 9 nanos))).

(** [Time.MarshalJSON] of a time in UTC, within the years 0 to 9999. *)
Definition json_time (t : Time) : string :=
  date_text (toUnix t) +:+ fraction_text (t mod second) +:+ "Z".

Example format_examples :
  Format_RFC3339 0 0 = "1970-01-01T00:00:00Z"
  /\ Format_RFC3339 32400 (1709208000 * second) = "2024-02-29T21:00:00+09:00"
  /\ Format_RFC3339 (-16200) (1709208000 * second) = "2024-02-29T07:30:00-04:30"
  /\ json_time (951782400 * second + 120000000) = "2000-02-29T00:00:00.12Z"
  /\ json_time (253402300799 * second) = "9999-12-31T23:59:59Z".
Proof. by vm_compute. Qed.

(** ** The calendar is sound *)

(** Linear arithmetic with division. *)
Ltac div_lia := Z.to_euclidean_division_equations; lia.

(** Every day of a year, checked. *)
Definition day_ok (doy : Z) : bool :=
  let '(m, d) := month_day doy in
  (1 <=? m) && (m <=? 12) && (1 <=? d) && (d <=? 31) && (day_of_year m d =? doy).

Lemma days_checked : forallb day_ok (seqZ 0 366) = true.
Proof. by vm_compute. Qed.

Lemma month_day_ok doy m d : 0 <= doy < 366 -> month_day doy = (m, d) ->
  1 <= m <= 12 /\ 1 <= d <= 31 /\ day_of_year m d = doy.
Proof.
  intros Hd E. assert (day_ok doy = true) as H.
  { apply (proj1 (forallb_forall _ _) days_checked), list_elem_of_In, elem_of_seqZ. lia. }
  unfold day_ok in H. rewrite E in H. bool_facts. lia.
Qed.

Lemma civil_of_era_ok doe yoe m d : 0 <= doe < 146097 -> civil_of_era doe = (yoe, m, d) ->
  0 <= yoe < 400 /\ 1 <= m <= 12 /\ 1 <= d <= 31 /\ era_of_civil yoe m d = doe.
Proof.
  unfold civil_of_era. intros Hd E.
  set (c := Z.min 3 (doe / 36524)) in *. set (q := (doe - 36524 * c) / 1461) in *.
  set (a := Z.min 3 ((doe - 36524 * c - 1461 * q) / 365)) in *.
  assert (0 <= c <= 3 /\ 0 <= doe - 36524 * c <= 36524) as [Hc Hdoc] by (subst c q a; div_lia).
  assert (0 <= q <= 24 /\ 0 <= doe - 36524 * c - 1461 * q <= 1460) as [Hq Hdoq]
    by (subst q a; clearbody c; div_lia).
  assert (0 <= a <= 3 /\ 0 <= doe - 36524 * c - 1461 * q - 365 * a < 366) as [Ha Hdoy]
    by (subst a; clearbody c q; div_lia).
  destruct (month_day _) as [mo da] eqn:Em. injection E as <- <- <-.
  apply month_day_ok in Em as (Hm & Hda & Hy); [|done].
  unfold era_of_civil. rewrite Hy. clearbody c q a. div_lia.
Qed.

(** Every day has one date, and a date within its month. *)
Lemma civil_roundtrip days y m d : civil_from_days days = (y, m, d) ->
  days_from_civil y m d = days /\ 1 <= m <= 12 /\ 1 <= d <= 31.
Proof.
  unfold civil_from_days, days_from_civil. intros H.
  pose proof (Z.div_mod (days + 719468) 146097 ltac:(lia)) as Hdm.
  destruct (civil_of_era ((days + 719468) mod 146097)) as [[yoe mo] da] eqn:E. injection H as <- <- <-.
  apply civil_of_era_ok in E as (Hy & Hm & Hd & Hera); [|by apply Z.mod_pos_bound].
  assert ((if mo <=? 2 then yoe + 400 * ((days + 719468) / 146097) + (if mo <=? 2 then 1 else 0) - 1
           else yoe + 400 * ((days + 719468) / 146097) + (if mo <=? 2 then 1 else 0))
          = yoe + (days + 719468) / 146097 * 400) as -> by (destruct (mo <=? 2); lia).
  rewrite Z_div_plus_full, Z_mod_plus_full, Z.div_small, (Z.mod_small yoe) by lia.
  split_and!; lia.
Qed.

(** Distinct seconds have distinct texts of the calendar. *)
Lemma civil_inj d1 d2 : civil_from_days d1 = civil_from_days d2 -> d1 = d2.
Proof.
  intros H. destruct (civil_from_days d1) as [[y m] d] eqn:E1.
  apply civil_roundtrip in E1 as (<- & _). symmetry in H. by apply civil_roundtrip in H as (<- & _).
Qed.
