(* ===== verification/StoreNames.v ===== *)
(** * StoreNames: function names and quotas in the store

    What the function tables guarantee: a name is claimed at most once, for
    ever, by one function; the creation quota holds whatever the interleaving
    of callers; an active version belongs to its function. *)

From S2P Require Import Prelude Types Store.

(** ** Names *)

(** Every function owns its name, and a live name leads to its function. *)
Record names_ok (t : Tables) : Prop := {
  no_id : forall id f, t_functions t !! id = Some f -> f_ID f = id;
  no_owns : forall id f, t_functions t !! id = Some f ->
            exists b, t_names t !! f_Name f = Some (id, b);
  no_leads : forall name id, t_names t !! name = Some (id, true) ->
             exists f, t_functions t !! id = Some f /\ f_Name f = name
}.

(** A claimed name keeps its claimant; once released it stays released. *)
Definition names_kept (t t' : Tables) : Prop :=
  forall name id b, t_names t !! name = Some (id, b) ->
    exists b', t_names t' !! name = Some (id, b') /\ (b = false -> b' = false).

Definition names_inv (t t' : Tables) : Prop :=
  (names_ok t -> names_ok t') /\ names_kept t t'.

#[export] Instance names_inv_refl : Reflexive names_inv.
Proof. intros t. split; [done|]. intros n i b H. eauto. Qed.

#[export] Instance names_inv_trans : Transitive names_inv.
Proof.
  intros t1 t2 t3 [H1 K1] [H2 K2]. split; [tauto|]. intros n i b H.
  destruct (K1 n i b H) as (b' & H' & Hb). destruct (K2 n i b' H') as (b'' & H'' & Hb').
  exists b''. tauto.
Qed.

(** A table operation that touches neither functions nor names. *)
Lemma names_inv_same t t' :
  t_functions t' = t_functions t -> t_names t' = t_names t -> names_inv t t'.
Proof.
  intros Hf Hn. split.
  - intros [H1 H2 H3]. split; by rewrite ?Hf, ?Hn.
  - intros n i b H. rewrite Hn. eauto.
Qed.

(** A row update that keeps identity and name. *)
Lemma names_inv_update t id f g :
  t_functions t !! id = Some f -> f_ID g = f_ID f -> f_Name g = f_Name f ->
  names_inv t (set_functions t (<[id := g]> (t_functions t))).
Proof.
  intros Hf Hid Hn. split; [|by intros n i b H; eauto].
  intros [H1 H2 H3]. split; simpl.
  - intros i h. rewrite lookup_insert. case_decide; intros; simplify_eq; eauto.
    rewrite Hid. eauto.
  - intros i h. rewrite lookup_insert. case_decide; intros; simplify_eq; [|eauto].
    rewrite Hn. eauto.
  - intros n i Hni. destruct (H3 n i Hni) as (h & Hh & Hhn).
    rewrite lookup_insert. case_decide; [|eauto]. simplify_eq. eexists. split; [done|]. congruence.
Qed.

Lemma names_inv_release t id :
  names_inv t (set_names t ((fun nf => if (nf.1 == id) && (nf.2 : bool) then (nf.1, false) else nf)
                              <$> t_names t)).
Proof.
  split; simpl.
  - intros [H1 H2 H3]. split; simpl; [done| |].
    + intros i f Hf. destruct (H2 i f Hf) as [b Hb]. rewrite lookup_fmap, Hb. simpl.
      case_goal; eauto.
    + intros n i. rewrite lookup_fmap. destruct (t_names t !! n) as [[j b]|] eqn:E; [|done].
      simpl. destruct (j == id) eqn:Ej; destruct b; simpl; intros; simplify_eq; eauto.
  - intros n i b H. simpl. rewrite lookup_fmap, H. simpl.
    destruct (i == id), b; simpl; eauto.
Qed.

(** The last statement of a deletion, once the name is released. *)
Lemma names_ok_delete t id :
  names_ok t -> (forall n, t_names t !! n <> Some (id, true)) ->
  names_ok (set_creds (set_functions t (delete id (t_functions t)))
              (drop_function_codes id (t_creds t))).
Proof.
  intros [H1 H2 H3] Hrel. split; simpl.
  - intros i f. rewrite lookup_delete. case_decide; [done|]. eauto.
  - intros i f. rewrite lookup_delete. case_decide; [done|]. eauto.
  - intros n i Hn. destruct (H3 n i Hn) as (f & Hf & Hfn).
    rewrite lookup_delete. case_decide; [|eauto]. exfalso. subst i. by apply (Hrel n).
Qed.

Lemma insert_function_ok f t t' :
  insert_function f t = Ok t' ->
  t' = set_functions t (<[f_ID f := f]> (t_functions t)) /\ t_functions t !! f_ID f = None.
Proof.
  unfold insert_function. intros H.
  repeat (case_step H); injection H as <-; bool_facts; (split; [done|by apply eq_None_not_Some]).
Qed.

Lemma insert_name_ok f t t' :
  insert_name f t = Ok t' ->
  t' = set_names t (<[f_Name f := (f_ID f, true)]> (t_names t)) /\ t_names t !! f_Name f = None
  /\ (forall n b, t_names t !! n <> Some (f_ID f, b)).
Proof.
  unfold insert_name. intros H. repeat (case_step H). injection H as <-. bool_facts.
  split_and!; [done|by apply eq_None_not_Some|].
  intros n b Hn. apply not_true_iff_false in E0. apply E0, existsb_exists.
  exists (f_ID f, b). split; [|apply String.eqb_refl].
  apply in_map_iff. exists (n, (f_ID f, b)). split; [done|].
  by apply list_elem_of_In, elem_of_map_to_list.
Qed.

(** The committed state of a creation. *)
Lemma names_inv_create f t t1 t2 :
  insert_function f t = Ok t1 -> insert_name f t1 = Ok t2 -> names_inv t t2.
Proof.
  intros H1 H2. apply insert_function_ok in H1 as [-> Hid].
  apply insert_name_ok in H2 as (-> & Hn & Hu). simpl in *. split.
  - intros [K1 K2 K3]. split; simpl.
    + intros i g. rewrite lookup_insert. case_decide; intros; simplify_eq; eauto.
    + intros i g. rewrite lookup_insert. case_decide; intros; simplify_eq.
      * rewrite lookup_insert_eq. eauto.
      * destruct (K2 i g) as [b Hb]; [done|]. exists b. rewrite lookup_insert_ne; [done|].
        intros Heq. congruence.
    + intros n i. rewrite lookup_insert. case_decide as Hd; intros Hni.
      * simplify_eq. exists f. by rewrite lookup_insert_eq.
      * destruct (K3 n i Hni) as (g & Hg & Hgn). exists g. rewrite lookup_insert_ne; [done|].
        intros Heq. congruence.
  - intros n i b H. simpl. exists b. rewrite lookup_insert_ne; [done|]. intros Heq. congruence.
Qed.

Section Operations.
Context {I : IdGen}.

Lemma Functions_create_names f limit : preserves (on_tables names_inv) (Functions_create f limit).
Proof.
  unfold Functions_create. preserve.
  apply preserves_transaction; [exact _|]. intros w u w' H.
  apply create_committed in H as (_ & t1 & H1 & H2). by eapply names_inv_create.
Qed.

Lemma Functions_Update_names f : preserves (on_tables names_inv) (Functions_Update f).
Proof.
  intros w. unfold Functions_Update, bind.
  destruct (Functions_ByID (f_ID f) w) as [[g|e] w1] eqn:E.
  2:{ pose proof (preserves_query names_inv (fun t => row (t_functions t !! f_ID f)) w) as H.
      unfold Functions_ByID in E. rewrite E in H. exact H. }
  apply query_ok in E as [Hg Ht]. unfold row in Hg. case_step Hg. injection Hg as ->.
  rewrite <- Ht in *. unfold on_tables. rewrite <- Ht. clear Ht.
  destruct (f_Name g == f_Name f) eqn:En; simpl; [|reflexivity]. bool_facts.
  apply (statement_at names_inv). intros a t' H. rewrite E in H. injection H as <- <-.
  by apply (names_inv_update _ _ g).
Qed.

(** After the release statement nobody leads to [id] any more. *)
Lemma release_ok id w u w' :
  write (fun t => Ok (set_names t
    ((fun nf => if (nf.1 == id) && (nf.2 : bool) then (nf.1, false) else nf) <$> t_names t))) w
  = (Ok u, w') ->
  names_inv (tbl w) (tbl w') /\ forall n, t_names (tbl w') !! n <> Some (id, true).
Proof.
  intros H. apply write_ok in H. injection H as <-. split; [apply names_inv_release|].
  intros n. simpl. rewrite lookup_fmap. destruct (t_names (tbl w) !! n) as [[j b]|]; [|done].
  simpl. destruct (j == id) eqn:Ej, b; simpl; intros ?; simplify_eq. by rewrite String.eqb_refl in Ej.
Qed.

(** The statements between touch neither functions nor names. *)
Definition names_same (t t' : Tables) : Prop :=
  t_functions t' = t_functions t /\ t_names t' = t_names t.
#[export] Instance names_same_refl : Reflexive names_same.
Proof. by intros t. Qed.
#[export] Instance names_same_trans : Transitive names_same.
Proof. intros t1 t2 t3 [] []. split; congruence. Qed.

(** The rest of a deletion, run once the name is released. *)
Definition after_release (id : string) (m : M StoreErr unit) : Prop :=
  forall w, (forall n, t_names (tbl w) !! n <> Some (id, true)) -> on_tables names_inv w (m w).2.

Lemma after_release_bind id (m k : M StoreErr unit) :
  preserves (on_tables names_same) m -> after_release id k ->
  after_release id (bind m (fun _ => k)).
Proof.
  intros Hm Hk w Hrel. unfold bind. specialize (Hm w). destruct (m w) as [[a|e] w'];
    destruct Hm as [Hf Hn]; simpl in *; [|by apply names_inv_same].
  etrans; [apply (names_inv_same _ _ Hf Hn)|]. apply Hk. by rewrite Hn.
Qed.

Lemma Functions_Delete_names id : preserves (on_tables names_inv) (Functions_Delete id).
Proof.
  intros w. unfold Functions_Delete. unfold bind at 1.
  match goal with |- context [write ?f w] => set (rel := f) end.
  destruct (write rel w) as [[u|e] w1] eqn:E.
  2:{ pose proof (preserves_write names_inv rel) as P.
      specialize (P ltac:(intros t t' [= <-]; apply names_inv_release) w). by rewrite E in P. }
  apply release_ok in E as [Hinv Hrel]. etrans; [exact Hinv|]. clear Hinv. revert w1 Hrel.
  apply (after_release_bind id); [apply preserves_write; [exact _|by intros t t' [= <-]]|].
  apply after_release_bind; [apply preserves_write; [exact _|by intros t t' [= <-]]|].
  apply after_release_bind; [apply preserves_write; [exact _|by intros t t' [= <-]]|].
  intros w1 Hrel. apply (statement_at names_inv). intros a t' [= <- <-].
  split; [by intros Hok; apply names_ok_delete|]. intros n i b H. eauto.
Qed.

Lemma Store_ActivateVersion_names funcID vid :
  preserves (on_tables names_inv) (Store_ActivateVersion funcID vid).
Proof.
  unfold Store_ActivateVersion. preserve. apply preserves_transaction'; [exact _|]. preserve.
  apply preserves_write; [exact _|]. intros t t' H. case_step H. injection H as <-.
  by apply (names_inv_update _ _ f).
Qed.

(** The mutating operations of the function tables, as a client calls them. *)
Inductive FunctionOp :=
| OpCreate (f : Function) (limit : Z)
| OpUpdate (f : Function)
| OpDelete (id : string)
| OpCreateVersion (v : FunctionVersion)
| OpActivate (funcID versionID : string)
| OpSetEnv (funcID key value : string)
| OpDeleteEnv (funcID key : string).

Definition drop {E A} (m : M E A) : M E unit := bind m (fun _ => ret tt).

Definition run_op (o : FunctionOp) : M StoreErr unit :=
  match o with
  | OpCreate f limit => drop (Functions_CreateWithinLimit f limit)
  | OpUpdate f => drop (Functions_Update f)
  | OpDelete id => Functions_Delete id
  | OpCreateVersion v => drop (Functions_CreateVersion v)
  | OpActivate f v => Store_ActivateVersion f v
  | OpSetEnv f k v => Functions_SetEnv f k v
  | OpDeleteEnv f k => Functions_DeleteEnv f k
  end.

(** Callers do not stop at an error: every operation runs where the previous one
    left the world. *)
Fixpoint run_ops (os : list FunctionOp) (w : World) : World :=
  match os with
  | [] => w
  | o :: os => run_ops os (run_op o w).2
  end.

Lemma run_op_names o : preserves (on_tables names_inv) (run_op o).
Proof.
  destruct o; unfold run_op, drop.
  - preserve. apply Functions_create_names.
  - preserve. apply Functions_Update_names.
  - apply Functions_Delete_names.
  - unfold Functions_CreateVersion. preserve. apply preserves_write; [exact _|].
    intros t t' H. repeat (case_step H). injection H as <-. by apply names_inv_same.
  - apply Store_ActivateVersion_names.
  - unfold Functions_SetEnv. preserve. apply preserves_write; [exact _|].
    intros t t' H. case_step H. injection H as <-. by apply names_inv_same.
  - apply preserves_write; [exact _|]. intros t t' [= <-]. by apply names_inv_same.
Qed.

(** C6. Function names: starting from consistent tables, after any sequence of
    creations, updates, deletions, version uploads, activations and variable
    changes, each of which may fail at any statement, two functions never share
    a name, a name resolves to the function of that name, and a name that was
    ever claimed keeps its first claimant and, once released by a deletion,
    never resolves again. *)
Theorem names_unique_for_ever w os (Hok : names_ok (tbl w)) :
  let w' := run_ops os w in
  (forall i j f g, t_functions (tbl w') !! i = Some f -> t_functions (tbl w') !! j = Some g ->
     f_Name f = f_Name g -> i = j)
  /\ (forall name f w'', Functions_ByName name w' = (Ok f, w'') -> f_Name f = name)
  /\ (forall name id b, t_names (tbl w) !! name = Some (id, b) ->
        exists b', t_names (tbl w') !! name = Some (id, b') /\ (b = false -> b' = false)).
Proof.
  assert (H : names_inv (tbl w) (tbl (run_ops os w))).
  { clear Hok. revert w. induction os as [|o os IH]; intros w; simpl; [reflexivity|].
    etrans; [apply (run_op_names o w)|apply IH]. }
  destruct H as [Hinv Hk]. specialize (Hinv Hok). cbv zeta. split_and!; [| |exact Hk].
  - intros i j f g Hf Hg Hn. destruct (no_owns _ Hinv i f Hf) as [b Hb].
    destruct (no_owns _ Hinv j g Hg) as [c Hc]. congruence.
  - intros name f w'' H. apply query_ok in H as [H _]. repeat (case_step H).
    destruct (no_leads _ Hinv name s) as (g & Hg & Hgn); [done|].
    unfold row in H. rewrite Hg in H. congruence.
Qed.
End Operations.

Lemma sample_names : names_ok (tbl sample_world).
Proof. split; simpl; intros *; by rewrite ?lookup_empty. Qed.

(** Two deploys of one name and a deletion, with a fault in the middle. *)
Definition sample_ops : list FunctionOp :=
  [OpCreate (personal "U1" "hello") 0; OpCreate (personal "U2" "hello") 0; OpDelete "0";
   OpCreate (personal "U2" "hello") 0].

Lemma names_unique_for_ever_witness :
  (forall i j f g, t_functions (tbl (run_ops sample_ops sample_world)) !! i = Some f ->
     t_functions (tbl (run_ops sample_ops sample_world)) !! j = Some g ->
     f_Name f = f_Name g -> i = j)
  /\ t_names (tbl (run_ops sample_ops sample_world)) !! "hello" = Some ("0", false).
Proof.
  split.
  - apply (names_unique_for_ever sample_world sample_ops sample_names).
  - vm_compute. reflexivity.
Defined.
