(* ===== verification/StoreQuota.v ===== *)
(** * StoreQuota: the creation quota holds under overlapping transactions

    [functionRepo.create] (src/server/internal/store/sqlcommon/functions.go)
    counts and inserts in one statement of one transaction. On the SQLite family
    transactions never overlap; on PostgreSQL they do, each statement sees the
    rows committed when it starts, and the advisory lock of the counting scope
    is what keeps two creations from both reading the count before either
    commits. Here the transaction is cut into its statements, and the
    transactions of any number of clients interleave statement by statement. *)

From S2P Require Import Prelude Types Store StoreNames.

(** ** Counting rows *)

Section Counting.
Context {A : Type} (p : A -> bool).
Implicit Types m : gmap string A.

Lemma count_rows_insert m k v :
  m !! k = None -> count_rows p (<[k := v]> m) = count_rows p m + (if p v then 1 else 0).
Proof.
  intros Hk. unfold count_rows, rows.
  assert (H : length (List.filter p (map snd (map_to_list (<[k:=v]> m))))
              = length (List.filter p (map snd ((k, v) :: map_to_list m)))).
  { apply Permutation_length.
    assert (P : map snd (map_to_list (<[k:=v]> m)) ≡ₚ map snd ((k, v) :: map_to_list m))
      by (apply Permutation_map, map_to_list_insert; done).
    induction P; simpl; try done; repeat case_match; eauto using perm_swap, Permutation. }
  rewrite H. simpl. destruct (p v); simpl; lia.
Qed.

Lemma count_rows_delete m k v :
  m !! k = Some v -> count_rows p m = count_rows p (delete k m) + (if p v then 1 else 0).
Proof.
  intros Hk. rewrite <- (insert_delete_id m k v Hk) at 1.
  by rewrite count_rows_insert by apply lookup_delete_eq.
Qed.

Lemma count_rows_delete_le m k : count_rows p (delete k m) <= count_rows p m.
Proof.
  destruct (m !! k) as [v|] eqn:E.
  - rewrite (count_rows_delete m k v E). destruct (p v); lia.
  - by rewrite delete_id.
Qed.

Lemma count_rows_update m k v v' :
  m !! k = Some v' -> p v = p v' -> count_rows p (<[k := v]> m) = count_rows p m.
Proof.
  intros Hk Hp. rewrite (count_rows_delete m k v' Hk), <- insert_delete_eq.
  by rewrite count_rows_insert, Hp by apply lookup_delete_eq.
Qed.

Lemma count_rows_ext q m : (forall x, q x = p x) -> count_rows q m = count_rows p m.
Proof.
  intros H. unfold count_rows, rows. f_equal. f_equal. induction (map snd (map_to_list m)); simpl; [done|].
  rewrite H. destruct (p a); simpl; congruence.
Qed.
End Counting.

(** ** Scopes *)

(** The scope of a function in the scope of [f] is the scope of [f]. *)
Lemma scope_eq f g h :
  functionLimitScopeCond f g = true -> functionLimitScopeCond g h = functionLimitScopeCond f h.
Proof.
  unfold functionLimitScopeCond, same_owner. intros H.
  apply andb_true_iff in H as [H Hc]. bool_facts. rewrite H, H0.
  case_bool_decide; [|done].
  destruct (f_CreatedBy f), (f_CreatedBy g); try discriminate Hc. bool_facts. by subst.
Qed.

(** How many functions count towards the limit of [f]'s scope. *)
Definition used (f : Function) (t : Tables) : Z :=
  count_rows (functionLimitScopeCond f) (t_functions t).

Definition quota_kept (f : Function) (L : Z) (t t' : Tables) : Prop :=
  used f t' <= Z.max (used f t) L.

Section Quota.
Context {I : IdGen} (f : Function) (L : Z).

#[export] Instance quota_kept_refl : Reflexive (quota_kept f L).
Proof. intros t. unfold quota_kept. lia. Qed.
#[export] Instance quota_kept_trans : Transitive (quota_kept f L).
Proof. intros t1 t2 t3. unfold quota_kept. lia. Qed.

Lemma quota_same t t' : t_functions t' = t_functions t -> quota_kept f L t t'.
Proof. unfold quota_kept, used. intros ->. lia. Qed.

(** A creation in the scope obeys a limit of at most [L]; others do not count. *)
Lemma create_quota g l :
  (functionLimitScopeCond f g = true -> 0 < l <= L) ->
  preserves (on_tables (quota_kept f L)) (Functions_create g l).
Proof.
  intros Hl. unfold Functions_create. preserve.
  set (h := stamp_function g _ _).
  assert (Hh : functionLimitScopeCond f h = functionLimitScopeCond f g) by done.
  apply preserves_transaction; [exact _|]. intros w u w' H.
  apply create_committed in H as (Hc & t1 & Hw & H). apply insert_name_ok in H as (Ht & _ & _).
  apply insert_function_ok in Hw as [Ht1 Hid]. rewrite Ht, Ht1. unfold quota_kept, used. simpl.
  rewrite count_rows_insert by done. destruct (functionLimitScopeCond f h) eqn:Es; [|lia].
  specialize (Hl ltac:(congruence)).
  rewrite (count_rows_ext (functionLimitScopeCond f) (functionLimitScopeCond h)) in Hc
    by (intros; by apply scope_eq). lia.
Qed.

Lemma row_update_quota t id g g' :
  t_functions t !! id = Some g' -> functionLimitScopeCond f g = functionLimitScopeCond f g' ->
  quota_kept f L t (set_functions t (<[id := g]> (t_functions t))).
Proof.
  intros Hg Hs. unfold quota_kept, used. simpl.
  rewrite (count_rows_update _ _ _ _ _ Hg Hs). lia.
Qed.

Lemma Functions_Update_quota g : preserves (on_tables (quota_kept f L)) (Functions_Update g).
Proof.
  unfold Functions_Update, Functions_ByID. preserve.
  apply preserves_statement; [exact _|]. intros t a' t' H. case_step H. injection H as _ <-.
  by apply (row_update_quota _ _ _ f0).
Qed.

Lemma Functions_Delete_quota id : preserves (on_tables (quota_kept f L)) (Functions_Delete id).
Proof.
  unfold Functions_Delete. preserve; (apply preserves_write; [exact _|]); intros t t' [= <-];
    try by apply quota_same.
  unfold quota_kept, used. simpl.
  pose proof (count_rows_delete_le (functionLimitScopeCond f) (t_functions t) id). lia.
Qed.

(** Any other call only takes functions away from a scope. *)
Lemma run_op_quota o :
  (forall g l, o = OpCreate g l -> functionLimitScopeCond f g = true -> 0 < l <= L) ->
  preserves (on_tables (quota_kept f L)) (run_op o).
Proof.
  intros Ho. destruct o; unfold run_op, drop.
  - preserve. apply create_quota. eauto.
  - preserve. apply Functions_Update_quota.
  - apply Functions_Delete_quota.
  - unfold Functions_CreateVersion. preserve. apply preserves_write; [exact _|].
    intros t t' H. repeat (case_step H). injection H as <-. by apply quota_same.
  - unfold Store_ActivateVersion. preserve. apply preserves_transaction'; [exact _|]. preserve.
    apply preserves_write; [exact _|]. intros t t' H. case_step H. injection H as <-.
    by apply (row_update_quota _ _ _ f0).
  - unfold Functions_SetEnv. preserve. apply preserves_write; [exact _|].
    intros t t' H. case_step H. injection H as <-. by apply quota_same.
  - apply preserves_write; [exact _|]. intros t t' [= <-]. by apply quota_same.
Qed.

End Quota.

(** The lock key is the same for the functions of one scope. *)
Lemma scope_key f g :
  functionLimitScopeCond f g = true -> functionLimitScopeKey g = functionLimitScopeKey f.
Proof.
  unfold functionLimitScopeCond, functionLimitScopeKey, same_owner. intros H.
  apply andb_true_iff in H as [H Hc]. apply andb_true_iff in H as [Ht Ho].
  apply bool_decide_eq_true in Ht. apply String.eqb_eq in Ho. rewrite Ht, Ho.
  case_bool_decide; [|done]. destruct (f_CreatedBy f), (f_CreatedBy g); try discriminate Hc.
  apply String.eqb_eq in Hc. by subst.
Qed.

(** ** Overlapping creations *)

(** Where a transaction of [create] stands: begun; past the lock; its row of
    [functions] inserted; its name inserted too. Nobody else sees its rows
    before it commits. *)
Inductive TxPhase := Begun | Locked | Inserted | Named.
#[export] Instance TxPhase_eq_dec : EqDecision TxPhase.
Proof. solve_decision. Defined.
Record Tx := mkTx { x_fun : Function; x_limit : Z; x_phase : TxPhase }.

(** A database: the committed rows and the open transactions. *)
Record Db := mkDb { db_rows : Tables; db_open : gmap nat Tx }.

(** One client's next statement; [TxRollback] is the deferred rollback after an
    error, a lost connection or a crash, and may come at any time; [TxOther] is
    any other call of the function repository, with the faults and the clock it
    meets. *)
Inductive TxStep :=
  | TxBegin (i : nat) (f : Function) (limit : Z)
  | TxLock (i : nat)
  | TxInsert (i : nat)
  | TxName (i : nat)
  | TxCommit (i : nat)
  | TxRollback (i : nat)
  | TxOther (o : FunctionOp) (w : World).

Section Overlap.
Context {I : IdGen} (hashtext : string -> Z).

Definition postgres : bool := dialect_Name == "postgres".

(** [hashtext(functionLimitScopeKey(f))::bigint]. *)
Definition lock_key (f : Function) : Z := hashtext (functionLimitScopeKey f).

(** Who holds an advisory lock: it is taken for a positive limit, and released
    when the transaction ends. *)
Definition holds (x : Tx) : bool :=
  (0 <? x_limit x) && negb (bool_decide (x_phase x = Begun)).

(** [pg_advisory_xact_lock] waits while another transaction holds the key. *)
Definition lock_free (i : nat) (x : Tx) (d : Db) : bool :=
  forallb (fun jy => bool_decide (jy.1 = i) || negb (holds jy.2)
                     || negb (lock_key (x_fun jy.2) =? lock_key (x_fun x)))
    (map_to_list (db_open d)).

(** The pool of the SQLite family has one connection: a transaction has it to
    itself. *)
Definition connection_free (d : Db) : bool := postgres || bool_decide (db_open d = ∅).

Definition set_tx (d : Db) (i : nat) (x : Tx) : Db := mkDb (db_rows d) (<[i := x]> (db_open d)).
Definition end_tx (d : Db) (i : nat) : Db := mkDb (db_rows d) (delete i (db_open d)).
Definition move (x : Tx) (p : TxPhase) : Tx := mkTx (x_fun x) (x_limit x) p.

(** One step of the database; a statement that has to wait, or is not the
    transaction's next, changes nothing. The constraints are looked at again at
    the commit: between transactions the engine makes the later of two
    conflicting rows wait, and here it fails at the latest then. *)
Definition tx_step (s : TxStep) (d : Db) : Db :=
  match s with
  | TxBegin i f limit =>
      match db_open d !! i with
      | None => if connection_free d then set_tx d i (mkTx f limit Begun) else d
      | Some _ => d
      end
  | TxLock i =>
      match db_open d !! i with
      | Some (mkTx f limit Begun as x) =>
          if (0 <? limit) && postgres then
            if lock_free i x d then set_tx d i (move x Locked) else d
          else set_tx d i (move x Locked)
      | _ => d
      end
  | TxInsert i =>
      match db_open d !! i with
      | Some (mkTx f limit Locked as x) =>
          match insert_within f limit (db_rows d) with
          | Ok _ => set_tx d i (move x Inserted)
          | Err _ => end_tx d i
          end
      | _ => d
      end
  | TxName i =>
      match db_open d !! i with
      | Some (mkTx f limit Inserted as x) =>
          match insert_name f (db_rows d) with
          | Ok _ => set_tx d i (move x Named)
          | Err _ => end_tx d i
          end
      | _ => d
      end
  | TxCommit i =>
      match db_open d !! i with
      | Some (mkTx f limit Named) =>
          match (match insert_function f (db_rows d) with
                 | Ok t => insert_name f t
                 | Err e => Err e
                 end) with
          | Ok t => mkDb t (delete i (db_open d))
          | Err _ => end_tx d i
          end
      | _ => d
      end
  | TxRollback i => end_tx d i
  | TxOther o w =>
      if connection_free d then mkDb (tbl (run_op o (with_tbl w (db_rows d))).2) (db_open d) else d
  end.

Definition tx_run (ss : list TxStep) (d : Db) : Db := foldl (fun d s => tx_step s d) d ss.

(** *** The invariant of a scope *)

Section Scope.
Context (f : Function) (L : Z).

(** A schedule whose creations in the scope of [f] all pass a limit of at most
    [L], and whose other calls create nothing. *)
Definition limited (s : TxStep) : Prop :=
  match s with
  | TxBegin _ g l => functionLimitScopeCond f g = true -> 0 < l <= L
  | TxOther (OpCreate _ _) _ => False
  | _ => True
  end.

Record scope_inv (U : Z) (d : Db) : Prop := {
  si_used : used f (db_rows d) <= Z.max U L;
  si_limit i x : db_open d !! i = Some x -> functionLimitScopeCond f (x_fun x) = true ->
    0 < x_limit x <= L;
  (* a counted insertion still fits when it commits *)
  si_room i x : db_open d !! i = Some x -> functionLimitScopeCond f (x_fun x) = true ->
    x_phase x = Inserted \/ x_phase x = Named -> used f (db_rows d) < x_limit x;
  (* one creation of the scope at a time is past its lock *)
  si_lock i j x y : db_open d !! i = Some x -> db_open d !! j = Some y ->
    functionLimitScopeCond f (x_fun x) = true -> functionLimitScopeCond f (x_fun y) = true ->
    x_phase x <> Begun -> x_phase y <> Begun -> i = j;
  si_single i j x y : postgres = false -> db_open d !! i = Some x -> db_open d !! j = Some y -> i = j
}.

Lemma scope_inv_end U d i : scope_inv U d -> scope_inv U (end_tx d i).
Proof.
  intros [H1 H2 H3 H4 H5]. split; simpl; [done|..]; intros *;
    rewrite ?lookup_delete_Some; naive_solver.
Qed.

(** Moving on past the lock keeps the invariant if the room is there. *)
Lemma scope_inv_move U d i x p :
  scope_inv U d -> db_open d !! i = Some x -> x_phase x <> Begun ->
  (functionLimitScopeCond f (x_fun x) = true -> p = Inserted \/ p = Named ->
     used f (db_rows d) < x_limit x) ->
  scope_inv U (set_tx d i (move x p)).
Proof.
  intros [H1 H2 H3 H4 H5] Hi Hp Hr. split; simpl; [done|..].
  - intros j y. rewrite lookup_insert_Some. intros [[<- <-]|[_ Hy]]; simpl; eauto.
  - intros j y. rewrite lookup_insert_Some. intros [[<- <-]|[_ Hy]]; simpl; eauto.
  - intros j k y z. rewrite !lookup_insert_Some.
    intros [[<- <-]|[? Hy]] [[<- <-]|[? Hz]]; simpl; eauto.
  - intros j k y z Hpg. rewrite !lookup_insert_Some.
    intros [[<- <-]|[? Hy]] [[<- <-]|[? Hz]]; eauto.
Qed.

Lemma lock_free_spec i x d j y :
  lock_free i x d = true -> db_open d !! j = Some y -> holds y = true ->
  lock_key (x_fun y) = lock_key (x_fun x) -> j = i.
Proof.
  unfold lock_free. rewrite forallb_forall. intros H Hy Hh Hk.
  specialize (H (j, y) (proj1 (list_elem_of_In _ _) (proj2 (elem_of_map_to_list _ _ _) Hy))).
  simpl in H. rewrite Hh, Hk, Z.eqb_refl in H. simpl in H. rewrite !orb_false_r in H.
  by apply bool_decide_eq_true in H.
Qed.

Lemma scope_inv_begin U d i g l :
  scope_inv U d -> (functionLimitScopeCond f g = true -> 0 < l <= L) ->
  db_open d !! i = None -> connection_free d = true -> scope_inv U (set_tx d i (mkTx g l Begun)).
Proof.
  intros [H1 H2 H3 H4 H5] Hl Hn Hc. split; simpl; [done|..].
  - intros j y. rewrite lookup_insert_Some. intros [[<- <-]|[_ Hy]]; simpl; eauto.
  - intros j y. rewrite lookup_insert_Some. intros [[<- <-]|[_ Hy]]; simpl; [naive_solver|eauto].
  - intros j k y z. rewrite !lookup_insert_Some.
    intros [[<- <-]|[? Hy]] [[<- <-]|[? Hz]]; simpl; eauto; done.
  - intros j k y z Hpg. unfold connection_free in Hc. rewrite Hpg in Hc. simpl in Hc.
    apply bool_decide_eq_true in Hc. rewrite Hc, !lookup_insert_Some, !lookup_empty. naive_solver.
Qed.

(** Taking the lock: nobody else of the scope is past it. *)
Lemma scope_inv_lock U d i x :
  scope_inv U d -> db_open d !! i = Some x -> x_phase x = Begun ->
  ((0 <? x_limit x) && postgres = true -> lock_free i x d = true) ->
  scope_inv U (set_tx d i (move x Locked)).
Proof.
  intros [H1 H2 H3 H4 H5] Hi Hp Hf.
  assert (Hone : forall j y, db_open d !! j = Some y -> functionLimitScopeCond f (x_fun x) = true ->
    functionLimitScopeCond f (x_fun y) = true -> x_phase y <> Begun -> j = i).
  { intros j y Hy Hx Hsy Hpy. destruct postgres eqn:Ep; [|by eapply H5].
    destruct (H2 _ _ Hi Hx) as [Hlx _], (H2 _ _ Hy Hsy) as [Hly _].
    apply (lock_free_spec i x d j y); [apply Hf; bool_lia|done| |].
    - unfold holds. rewrite bool_decide_false by done. bool_lia.
    - unfold lock_key. by rewrite (scope_key f (x_fun x)), (scope_key f (x_fun y)). }
  split; simpl; [done|..].
  - intros j y. rewrite lookup_insert_Some. intros [[<- <-]|[_ Hy]]; simpl; eauto.
  - intros j y. rewrite lookup_insert_Some. intros [[<- <-]|[_ Hy]]; simpl; [naive_solver|eauto].
  - intros j k y z. rewrite !lookup_insert_Some.
    intros [[<- <-]|[? Hy]] [[<- <-]|[? Hz]]; simpl; intros; eauto; symmetry; eauto.
  - intros j k y z Hpg. rewrite !lookup_insert_Some.
    intros [[<- <-]|[? Hy]] [[<- <-]|[? Hz]]; eauto.
Qed.

(** A commit fills one of the free places. *)
Lemma scope_inv_commit U d i x t t' :
  scope_inv U d -> db_open d !! i = Some x -> x_phase x = Named ->
  insert_function (x_fun x) (db_rows d) = Ok t -> insert_name (x_fun x) t = Ok t' ->
  scope_inv U (mkDb t' (delete i (db_open d))).
Proof.
  intros [H1 H2 H3 H4 H5] Hi Hp Hf Hn.
  apply insert_function_ok in Hf as [-> Hid]. apply insert_name_ok in Hn as (-> & _ & _).
  assert (Hu : used f (set_names (set_functions (db_rows d) (<[f_ID (x_fun x):=x_fun x]>
       (t_functions (db_rows d)))) (<[f_Name (x_fun x):=(f_ID (x_fun x), true)]>
       (t_names (db_rows d)))) = used f (db_rows d)
       + (if functionLimitScopeCond f (x_fun x) then 1 else 0))
    by (unfold used; simpl; by rewrite count_rows_insert).
  simpl in Hu. split; simpl.
  - rewrite Hu. destruct (functionLimitScopeCond f (x_fun x)) eqn:Es; [|lia].
    pose proof (H2 _ _ Hi Es). pose proof (H3 _ _ Hi Es (or_intror Hp)). lia.
  - intros j y. rewrite lookup_delete_Some. naive_solver.
  - intros j y. rewrite lookup_delete_Some. intros [Hj Hy] Hs Hpy. rewrite Hu.
    destruct (functionLimitScopeCond f (x_fun x)) eqn:Es; [|rewrite Z.add_0_r; eauto].
    destruct Hj. apply (H4 i j x y); try done; [congruence|destruct Hpy; congruence].
  - intros j k y z. rewrite !lookup_delete_Some. naive_solver.
  - intros j k y z Hpg. rewrite !lookup_delete_Some. naive_solver.
Qed.

Lemma scope_inv_rows U d t :
  used f t <= used f (db_rows d) -> scope_inv U d -> scope_inv U (mkDb t (db_open d)).
Proof.
  intros Hu [H1 H2 H3 H4 H5]. split; simpl; [lia|done| |done|done].
  intros i x Hi Hs Hp. specialize (H3 i x Hi Hs Hp). lia.
Qed.

Lemma scope_inv_step U d s : limited s -> scope_inv U d -> scope_inv U (tx_step s d).
Proof.
  intros Hs Hd. destruct s as [i g l|i|i|i|i|i|o w]; simpl in *.
  - destruct (db_open d !! i) eqn:E; [done|]. case_match; [|done]. by apply scope_inv_begin.
  - destruct (db_open d !! i) as [[g l []]|] eqn:E; try done.
    repeat case_match; try done;
      (apply (scope_inv_lock U d i (mkTx g l Begun)); simpl; [done..|congruence]).
  - destruct (db_open d !! i) as [[g l []]|] eqn:E; try done.
    destruct (insert_within g l (db_rows d)) eqn:Ei; [|by apply scope_inv_end].
    apply (scope_inv_move U d i (mkTx g l Locked)); simpl; try done. intros Hg _.
    destruct (si_limit _ _ Hd _ _ E Hg) as [Hl _]. simpl in Hl.
    unfold insert_within in Ei. case_step Ei. unfold used.
    rewrite (count_rows_ext (functionLimitScopeCond f) (functionLimitScopeCond g)) in E0
      by (intros; by apply scope_eq). bool_lia.
  - destruct (db_open d !! i) as [[g l []]|] eqn:E; try done.
    destruct (insert_name g (db_rows d)) eqn:Ei; [|by apply scope_inv_end].
    apply (scope_inv_move U d i (mkTx g l Inserted)); simpl; try done. intros Hg _.
    apply (si_room _ _ Hd _ _ E Hg). by left.
  - destruct (db_open d !! i) as [[g l []]|] eqn:E; try done.
    destruct (insert_function g (db_rows d)) as [t|] eqn:Ef; [|by apply scope_inv_end].
    destruct (insert_name g t) as [t'|] eqn:En; [|by apply scope_inv_end].
    by eapply (scope_inv_commit U d i (mkTx g l Named)).
  - by apply scope_inv_end.
  - destruct (connection_free d); [|done]. apply scope_inv_rows; [|done].
    pose proof (run_op_quota f 0 o) as Hq. unfold preserves, on_tables, quota_kept in Hq.
    specialize (Hq ltac:(by intros g l -> ?) (with_tbl w (db_rows d))). simpl in Hq.
    assert (0 <= used f (db_rows d)) by (unfold used, count_rows; lia). lia.
Qed.

Lemma scope_inv_run U ss d : Forall limited ss -> scope_inv U d -> scope_inv U (tx_run ss d).
Proof.
  intros Hss. revert d. induction Hss as [|s ss Hs _ IH]; intros d Hd; [done|].
  simpl. apply IH. by apply scope_inv_step.
Qed.
End Scope.

(** Alone, the statements of a transaction amount to [Functions_create]: what it
    commits, by the constraints of the two tables. *)
Definition create_effect (h : Function) (l : Z) (t : Tables) : Tables :=
  match insert_within h l t with
  | Ok t1 => match insert_name h t1 with Ok t2 => t2 | Err _ => t end
  | Err _ => t
  end.

Lemma create_run g l t : f_ID g <> "" ->
  tbl (Functions_create g l (mkWorld t ∅ [] 0 0 [])).2
  = create_effect (stamp_function g (f_ID g) (Store.stored 0)) l t.
Proof.
  intros Hid. unfold Functions_create, new_id, create_effect.
  rewrite (proj2 (String.eqb_neq _ _) Hid).
  unfold bind, ret, get, stored_now, get, transaction, lock_scope, write, query, statement. simpl.
  destruct ((0 <? l) && (dialect_Name == "postgres")); simpl;
    (destruct (insert_within _ l t) as [t1|]; simpl; [|done]);
    by destruct (insert_name _ t1).
Qed.

Lemma insert_name_function h t t1 :
  insert_function h t = Ok t1 -> is_ok (insert_name h t1) = is_ok (insert_name h t).
Proof.
  intros H. apply insert_function_ok in H as [-> _]. unfold insert_name. simpl.
  by repeat case_goal.
Qed.

Lemma create_alone g l t : f_ID g <> "" ->
  let h := stamp_function g (f_ID g) (Store.stored 0) in
  db_rows (tx_run [TxBegin 0 h l; TxLock 0; TxInsert 0; TxName 0; TxCommit 0] (mkDb t ∅))
  = tbl (Functions_create g l (mkWorld t ∅ [] 0 0 [])).2.
Proof.
  intros Hid h. rewrite (create_run g l t Hid). fold h. unfold create_effect, tx_run.
  cbn [foldl]. set (d0 := mkDb t ∅).
  assert (E1 : tx_step (TxBegin 0 h l) d0 = mkDb t {[0%nat := mkTx h l Begun]}).
  { unfold tx_step, connection_free, d0. cbn [db_open]. rewrite lookup_empty.
    rewrite bool_decide_true by done. by rewrite orb_true_r. }
  assert (E2 : tx_step (TxLock 0) (mkDb t {[0%nat := mkTx h l Begun]})
               = mkDb t {[0%nat := mkTx h l Locked]}).
  { unfold tx_step, lock_free, set_tx. cbn [db_open db_rows].
    rewrite lookup_singleton_eq, map_to_list_singleton, insert_singleton_eq. simpl.
    by destruct ((0 <? l) && postgres). }
  rewrite E1, E2. unfold tx_step, set_tx, end_tx. cbn [db_open db_rows].
  rewrite lookup_singleton_eq. destruct (insert_within h l t) as [t1|e] eqn:Ei.
  2:{ cbn [db_open db_rows]. by rewrite delete_singleton_eq, !lookup_empty. }
  assert (Ef : insert_function h t = Ok t1) by (unfold insert_within in Ei; by case_step Ei).
  pose proof (insert_name_function h t t1 Ef) as Hn. cbn [db_open db_rows].
  rewrite insert_singleton_eq, lookup_singleton_eq.
  destruct (insert_name h t) as [u|] eqn:En, (insert_name h t1) as [t2|] eqn:En1; try done;
    unfold move; simpl; rewrite ?En; simpl.
  - by rewrite insert_singleton_eq, lookup_singleton_eq, Ef, En1.
  - by rewrite delete_singleton_eq, lookup_empty.
Qed.

(** C7. The creation quota holds however transactions overlap: in any schedule
    of the statements of any number of creation transactions and of other calls
    of the function repository, with rollbacks and faults anywhere, if every
    creation begun in the scope of [f] passes a limit of between 1 and [L], the
    scope never holds more than [L] functions unless it already did; on
    PostgreSQL this is the work of the advisory lock. And a creation that meets
    the limit is refused and changes nothing. *)
Theorem quota_never_exceeded (f : Function) (L : Z) (ss : list TxStep) (t : Tables)
    (Hlim : Forall (limited f L) ss) :
  used f (db_rows (tx_run ss (mkDb t ∅))) <= Z.max (used f t) L
  /\ (forall w, 0 < L -> L <= used f (tbl w) -> faults w = [] ->
      (Functions_CreateWithinLimit f L w).1 = Err ErrFunctionLimitReached
      /\ tbl (Functions_CreateWithinLimit f L w).2 = tbl w).
Proof.
  split.
  - apply (si_used f L). apply scope_inv_run; [done|]. split; simpl; [lia|..]; naive_solver.
  - intros w H1 H2 Hf. unfold Functions_CreateWithinLimit, Functions_create.
    assert (Hr : forall h, functionLimitScopeCond h = functionLimitScopeCond f ->
                 insert_within h L (tbl w) = Err ErrFunctionLimitReached).
    { intros h Hh. unfold insert_within, used in *. rewrite Hh.
      by rewrite (proj2 (Z.ltb_lt _ _)), (proj2 (Z.ltb_ge _ _)) by lia. }
    destruct w as [t' b iv n k fs]. simpl in *. subst fs.
    unfold new_id, bind, ret, get, stored_now, get, transaction, lock_scope, write, query, statement.
    destruct (f_ID f == ""), ((0 <? L) && (dialect_Name == "postgres")); simpl; by rewrite Hr.
Qed.
End Overlap.

(** Two creations of one owner on PostgreSQL, both begun before either inserts:
    the second waits for the lock until the first commits, and is refused. *)
Definition postgres_ids : IdGen := {|
  ulid := unary;
  random := fun n => ("r" ++ unary n)%string;
  dialect_Name := "postgres";
  ulid_inj := unary_inj;
  random_inj i j H := unary_inj i j ltac:(by injection H)
|}.
Definition numbered (id name : string) : Function := stamp_function (personal "U1" name) id 0.
Definition two_creations : list TxStep :=
  [TxBegin 0 (numbered "F1" "a") 1; TxBegin 1 (numbered "F2" "b") 1;
   TxLock 0; TxLock 1; TxInsert 0; TxInsert 1; TxName 0; TxName 1; TxCommit 0;
   TxLock 1; TxInsert 1; TxName 1; TxCommit 1].

Lemma quota_never_exceeded_witness :
  let d := tx_run (I := postgres_ids) (fun _ => 0) two_creations (mkDb sample_tables ∅) in
  used (personal "U1" "a") (db_rows d) <= 1 /\ used (personal "U1" "a") (db_rows d) = 1.
Proof.
  cbv zeta. split; [|vm_compute; reflexivity].
  etrans; [apply (quota_never_exceeded (I := postgres_ids) (fun _ => 0) (personal "U1" "a") 1)|].
  - repeat constructor; simpl; intros; lia.
  - vm_compute. discriminate.
Defined.

(** Without it they both count before either commits: had both been let past the
    lock, the scope would hold two functions under a limit of one. *)
Example lock_needed :
  let d := mkDb sample_tables {[0%nat := mkTx (numbered "F1" "a") 1 Locked;
                                1%nat := mkTx (numbered "F2" "b") 1 Locked]} in
  used (personal "U1" "a")
    (db_rows (tx_run (I := postgres_ids) (fun _ => 0)
       [TxInsert 0; TxInsert 1; TxName 0; TxName 1; TxCommit 0; TxCommit 1] d)) = 2.
Proof. vm_compute. reflexivity. Qed.
