(* ===== verification/StoreCreds.v ===== *)
(** * StoreCreds: sessions, codes, credentials, grants and logs in the store

    Models the remaining repositories of src/server/internal/store/sqlcommon
    (sessions, the three kinds of one-time codes, CLI credentials, OAuth clients
    and grants, audit and invocation logs), and proves what they promise: a code
    is consumed at most once and never late, a refresh secret is rotated by at
    most one of any number of racing callers. *)

From stdpp Require Import sorting.
From S2P Require Import Prelude Types Store.

Definition set_sessions (c : Creds) (x : gmap string Session) : Creds :=
  mkCreds x (t_invoke_codes c) (t_cli_credentials c) (t_cli_codes c) (t_oauth_clients c)
    (t_oauth_codes c) (t_oauth_grants c).
Definition set_invoke_codes (c : Creds) (x : gmap string InvokeAuthCode) : Creds :=
  mkCreds (t_sessions c) x (t_cli_credentials c) (t_cli_codes c) (t_oauth_clients c)
    (t_oauth_codes c) (t_oauth_grants c).
Definition set_cli_credentials (c : Creds) (x : gmap string CLICredential) : Creds :=
  mkCreds (t_sessions c) (t_invoke_codes c) x (t_cli_codes c) (t_oauth_clients c)
    (t_oauth_codes c) (t_oauth_grants c).
Definition set_cli_codes (c : Creds) (x : gmap string CLIAuthCode) : Creds :=
  mkCreds (t_sessions c) (t_invoke_codes c) (t_cli_credentials c) x (t_oauth_clients c)
    (t_oauth_codes c) (t_oauth_grants c).
Definition set_oauth_clients (c : Creds) (x : gmap string OAuthClient) : Creds :=
  mkCreds (t_sessions c) (t_invoke_codes c) (t_cli_credentials c) (t_cli_codes c) x
    (t_oauth_codes c) (t_oauth_grants c).
Definition set_oauth_codes (c : Creds) (x : gmap string OAuthAuthCode) : Creds :=
  mkCreds (t_sessions c) (t_invoke_codes c) (t_cli_credentials c) (t_cli_codes c)
    (t_oauth_clients c) x (t_oauth_grants c).
Definition set_oauth_grants (c : Creds) (x : gmap string OAuthGrant) : Creds :=
  mkCreds (t_sessions c) (t_invoke_codes c) (t_cli_credentials c) (t_cli_codes c)
    (t_oauth_clients c) (t_oauth_codes c) x.

(** The credential tables read and written by one statement. *)
Definition cquery {A} (f : Creds -> result StoreErr A) : M StoreErr A :=
  query (fun t => f (t_creds t)).
Definition cwrite (f : Creds -> result StoreErr Creds) : M StoreErr unit :=
  write (fun t => match f (t_creds t) with Ok c => Ok (set_creds t c) | Err e => Err e end).

(** An insertion: primary key, then what else the table requires. *)
Definition insert_row {A} (m : gmap string A) (id : string) (ok : bool) (x : A)
    : result StoreErr (gmap string A) :=
  if bool_decide (is_Some (m !! id)) then Err ErrConflict
  else guard! ok else ErrConflict in Ok (<[id := x]> m).

(** [expires_at > ?]. *)
Definition unexpired (expires n : Time) : bool := toUnix n <? toUnix expires.

(** [DELETE ... WHERE id = ? AND ... RETURNING]: one statement. *)
Definition consume {A} (sel : Creds -> gmap string A) (upd : Creds -> gmap string A -> Creds)
    (id : string) (ok : A -> bool) : M StoreErr A :=
  statement (fun t =>
    match sel (t_creds t) !! id with
    | Some x =>
        if ok x then Ok (x, set_creds t (upd (t_creds t) (delete id (sel (t_creds t)))))
        else Err ErrNotFound
    | None => Err ErrNotFound
    end).

Definition delete_counted {A} (sel : Creds -> gmap string A) (upd : Creds -> gmap string A -> Creds)
    (p : A -> bool) : M StoreErr Z :=
  statement (fun t =>
    Ok (count_rows p (sel (t_creds t)),
        set_creds t (upd (t_creds t) (delete_rows p (sel (t_creds t)))))).

Section Repositories.
Context {I : IdGen}.

Definition user_exists (t : Tables) (id : string) : bool := bool_decide (is_Some (t_users t !! id)).

(** ** sqlcommon/sessions.go *)

Definition Sessions_Create (s : Session) : M StoreErr Session :=
  do! id <- new_id (s_ID s);
  do! n <- stored_now;
  let s := mkSession id (s_UserID s) (stored (s_ExpiresAt s)) n n in
  run! write (fun t =>
    let! m := insert_row (t_sessions (t_creds t)) id (user_exists t (s_UserID s)) s in
    Ok (set_creds t (set_sessions (t_creds t) m)));
  ret s.

Definition Sessions_Refresh (id : string) (newExpiresAt : Time) : M StoreErr unit :=
  do! n <- stored_now;
  cwrite (fun c =>
    match t_sessions c !! id with
    | None => Err ErrNotFound
    | Some s => Ok (set_sessions c (<[id := mkSession (s_ID s) (s_UserID s) (stored newExpiresAt)
                                       (s_CreatedAt s) n]> (t_sessions c)))
    end).

Definition Sessions_Get (id : string) (n : Time) : M StoreErr Session :=
  cquery (fun c =>
    match t_sessions c !! id with
    | Some s => guard! unexpired (s_ExpiresAt s) n else ErrNotFound in Ok s
    | None => Err ErrNotFound
    end).

Definition Sessions_Delete (id : string) : M StoreErr unit :=
  cwrite (fun c => Ok (set_sessions c (delete id (t_sessions c)))).

Definition Sessions_DeleteExpired (n : Time) : M StoreErr Z :=
  delete_counted t_sessions set_sessions (fun s => negb (unexpired (s_ExpiresAt s) n)).

(** ** sqlcommon/cliauthcodes.go *)

Definition CLIAuthCodes_Create (k : CLIAuthCode) : M StoreErr unit :=
  do! n <- stored_now;
  run! cwrite (fun c =>
    Ok (set_cli_codes c (delete_rows (fun x => negb (unexpired (ca_ExpiresAt x) n)) (t_cli_codes c))));
  write (fun t =>
    let! m := insert_row (t_cli_codes (t_creds t)) (ca_ID k) (user_exists t (ca_UserID k))
                (mkCLIAuthCode (ca_ID k) (ca_UserID k) (ca_Name k) (ca_Challenge k)
                   (stored (ca_ExpiresAt k)) n) in
    Ok (set_creds t (set_cli_codes (t_creds t) m))).

Definition CLIAuthCodes_Consume (id : string) (n : Time) : M StoreErr CLIAuthCode :=
  consume t_cli_codes set_cli_codes id (fun k => unexpired (ca_ExpiresAt k) n).

Definition CLIAuthCodes_DeleteExpired (n : Time) : M StoreErr Z :=
  delete_counted t_cli_codes set_cli_codes (fun k => negb (unexpired (ca_ExpiresAt k) n)).

(** ** sqlcommon/clicredentials.go *)

Definition CLICredentials_Create (x : CLICredential) : M StoreErr CLICredential :=
  do! id <- new_id (cc_ID x);
  do! n <- stored_now;
  let x := mkCLICredential id (cc_UserID x) (cc_Name x) (cc_SecretHash x) n n None in
  run! write (fun t =>
    let! m := insert_row (t_cli_credentials (t_creds t)) id
                (user_exists t (cc_UserID x)
                 && negb (existsb (fun y => cc_SecretHash y == cc_SecretHash x)
                            (map snd (map_to_list (t_cli_credentials (t_creds t)))))) x in
    Ok (set_creds t (set_cli_credentials (t_creds t) m)));
  ret x.

Definition CLICredentials_ByHash (h : string) : M StoreErr CLICredential :=
  cquery (fun c => row (head (rows (fun x => cc_SecretHash x == h) (t_cli_credentials c)))).

Definition CLICredentials_ListByUser (userID : string) : M StoreErr (list CLICredential) :=
  cquery (fun c =>
    Ok (order_by cc_CreatedAt (rows (fun x => cc_UserID x == userID) (t_cli_credentials c)))).

Definition CLICredentials_Touch (id : string) (n : Time) : M StoreErr unit :=
  cwrite (fun c =>
    match t_cli_credentials c !! id with
    | None => Err ErrNotFound
    | Some x => Ok (set_cli_credentials c (<[id := mkCLICredential (cc_ID x) (cc_UserID x)
                  (cc_Name x) (cc_SecretHash x) (cc_CreatedAt x) (stored n) (Some (stored n))]>
                  (t_cli_credentials c)))
    end).

Definition CLICredentials_Delete (id : string) : M StoreErr unit :=
  cwrite (fun c => Ok (set_cli_credentials c (delete id (t_cli_credentials c)))).

(** ** sqlcommon/invokeauthcodes.go *)

Definition InvokeAuthCodes_Create (k : InvokeAuthCode) : M StoreErr unit :=
  do! n <- stored_now;
  run! cwrite (fun c =>
    Ok (set_invoke_codes c
          (delete_rows (fun x => negb (unexpired (ic_ExpiresAt x) n)) (t_invoke_codes c))));
  write (fun t =>
    let! m := insert_row (t_invoke_codes (t_creds t)) (ic_ID k)
                (user_exists t (ic_UserID k)
                 && bool_decide (is_Some (t_functions t !! ic_FunctionID k)))
                (mkInvokeAuthCode (ic_ID k) (ic_UserID k) (ic_FunctionID k) (ic_Host k)
                   (ic_ReturnTo k) (stored (ic_ExpiresAt k)) n) in
    Ok (set_creds t (set_invoke_codes (t_creds t) m))).

Definition InvokeAuthCodes_Consume (id functionID host : string) (n : Time)
    : M StoreErr InvokeAuthCode :=
  consume t_invoke_codes set_invoke_codes id
    (fun k => (ic_FunctionID k == functionID) && (ic_Host k == host) && unexpired (ic_ExpiresAt k) n).

Definition InvokeAuthCodes_DeleteExpired (n : Time) : M StoreErr Z :=
  delete_counted t_invoke_codes set_invoke_codes (fun k => negb (unexpired (ic_ExpiresAt k) n)).

(** ** sqlcommon/oauthclients.go *)

Definition OAuthClients_Create (x : OAuthClient) : M StoreErr OAuthClient :=
  do! id <- new_id (oc_ID x);
  do! n <- stored_now;
  let x := mkOAuthClient id (oc_Name x) (oc_RedirectURIs x) n n in
  run! cwrite (fun c =>
    let! m := insert_row (t_oauth_clients c) id true x in Ok (set_oauth_clients c m));
  ret x.

Definition OAuthClients_ByID (id : string) : M StoreErr OAuthClient :=
  cquery (fun c => row (t_oauth_clients c !! id)).

Definition client_unused (cutoff : Time) (c : Creds) (x : OAuthClient) : bool :=
  (toUnix (oc_CreatedAt x) <=? toUnix cutoff)
  && negb (existsb (fun g => og_ClientID g == oc_ID x) (map snd (map_to_list (t_oauth_grants c))))
  && negb (existsb (fun k => oa_ClientID k == oc_ID x) (map snd (map_to_list (t_oauth_codes c)))).

Definition OAuthClients_DeleteUnusedOlderThan (cutoff : Time) : M StoreErr Z :=
  statement (fun t =>
    let c := t_creds t in
    Ok (count_rows (client_unused cutoff c) (t_oauth_clients c),
        set_creds t (set_oauth_clients c
          (delete_rows (client_unused cutoff c) (t_oauth_clients c))))).

Definition client_exists (c : Creds) (id : string) : bool :=
  bool_decide (is_Some (t_oauth_clients c !! id)).

(** ** sqlcommon/oauthauthcodes.go *)

Definition OAuthAuthCodes_Create (k : OAuthAuthCode) : M StoreErr unit :=
  do! n <- stored_now;
  run! cwrite (fun c =>
    Ok (set_oauth_codes c
          (delete_rows (fun x => negb (unexpired (oa_ExpiresAt x) n)) (t_oauth_codes c))));
  write (fun t =>
    let! m := insert_row (t_oauth_codes (t_creds t)) (oa_ID k)
                (user_exists t (oa_UserID k) && client_exists (t_creds t) (oa_ClientID k))
                (mkOAuthAuthCode (oa_ID k) (oa_UserID k) (oa_ClientID k) (oa_RedirectURI k)
                   (oa_Challenge k) (oa_Resource k) (stored (oa_ExpiresAt k)) n) in
    Ok (set_creds t (set_oauth_codes (t_creds t) m))).

Definition OAuthAuthCodes_Consume (id : string) (n : Time) : M StoreErr OAuthAuthCode :=
  consume t_oauth_codes set_oauth_codes id (fun k => unexpired (oa_ExpiresAt k) n).

Definition OAuthAuthCodes_DeleteExpired (n : Time) : M StoreErr Z :=
  delete_counted t_oauth_codes set_oauth_codes (fun k => negb (unexpired (oa_ExpiresAt k) n)).

(** ** sqlcommon/oauthgrants.go *)

Definition hash_taken (h : string) (c : Creds) : bool :=
  existsb (fun g => og_SecretHash g == h) (map snd (map_to_list (t_oauth_grants c))).

Definition OAuthGrants_Create (g : OAuthGrant) : M StoreErr OAuthGrant :=
  do! id <- new_id (og_ID g);
  do! n <- stored_now;
  let g := mkOAuthGrant id (og_UserID g) (og_ClientID g) (og_SecretHash g) "" n n None in
  run! write (fun t =>
    let! m := insert_row (t_oauth_grants (t_creds t)) id
                (user_exists t (og_UserID g) && client_exists (t_creds t) (og_ClientID g)
                 && negb (hash_taken (og_SecretHash g) (t_creds t))) g in
    Ok (set_creds t (set_oauth_grants (t_creds t) m)));
  ret g.

Definition OAuthGrants_ByHash (h : string) : M StoreErr OAuthGrant :=
  cquery (fun c => row (head (rows (fun g => og_SecretHash g == h) (t_oauth_grants c)))).

Definition OAuthGrants_ListByUser (userID : string) : M StoreErr (list OAuthGrant) :=
  cquery (fun c => Ok (order_by og_CreatedAt (rows (fun g => og_UserID g == userID) (t_oauth_grants c)))).

Definition OAuthGrants_Touch (id : string) (n : Time) : M StoreErr unit :=
  cwrite (fun c =>
    match t_oauth_grants c !! id with
    | None => Err ErrNotFound
    | Some g => Ok (set_oauth_grants c (<[id := mkOAuthGrant (og_ID g) (og_UserID g) (og_ClientID g)
                  (og_SecretHash g) (og_PrevSecretHash g) (og_CreatedAt g) (stored n)
                  (Some (stored n))]> (t_oauth_grants c)))
    end).

Definition OAuthGrants_Delete (id : string) : M StoreErr unit :=
  cwrite (fun c => Ok (set_oauth_grants c (delete id (t_oauth_grants c)))).

Definition rotated (g : OAuthGrant) (oldHash newHash : string) (n : Time) : OAuthGrant :=
  mkOAuthGrant (og_ID g) (og_UserID g) (og_ClientID g) newHash oldHash (og_CreatedAt g) (stored n)
    (Some (stored n)).

(** The compare-and-swap [UPDATE ... WHERE id = ? AND secret_hash = ?]. *)
Definition OAuthGrants_Rotate (id oldHash newHash : string) (n : Time) : M StoreErr OAuthGrant :=
  statement (fun t =>
    let c := t_creds t in
    match t_oauth_grants c !! id with
    | Some g =>
        if og_SecretHash g == oldHash then
          if negb (newHash == oldHash) && hash_taken newHash c then Err ErrConflict
          else Ok (rotated g oldHash newHash n,
                   set_creds t (set_oauth_grants c
                     (<[id := rotated g oldHash newHash n]> (t_oauth_grants c))))
        else Err ErrConflict
    | None => Err ErrConflict
    end).

Definition reuses (h : string) (g : OAuthGrant) : bool :=
  (og_PrevSecretHash g == h) && negb (og_PrevSecretHash g == "").

Definition OAuthGrants_RevokeIfPreviousSecret (h : string) : M StoreErr bool :=
  do! n <- delete_counted t_oauth_grants set_oauth_grants (reuses h);
  ret (0 <? n).

(** ** sqlcommon/audit.go and invocationlogs.go *)

Definition id_ge {A} (id : A -> string) (x y : A) : Prop := String.leb (id y) (id x) = true.
#[export] Instance id_ge_dec {A} (id : A -> string) : RelDecision (id_ge id).
Proof. intros x y. unfold id_ge. apply _. Defined.

(** A page of rows, newest identifier first, below the cursor. *)
Definition page {A} (id : A -> string) (cursor : string) (limit : Z) (l : list A) : list A :=
  let limit := if limit <=? 0 then 50 else limit in
  let l := if cursor == "" then l else List.filter (fun x => String.ltb (id x) cursor) l in
  take (Z.to_nat limit) (merge_sort (id_ge id) l).

Definition Audit_Append (a : AuditLog) : M StoreErr unit :=
  do! id <- new_id (al_ID a);
  do! n <- stored_now;
  write (fun t =>
    if existsb (fun x => al_ID x == id) (t_audit t) then Err ErrConflict
    else Ok (set_audit t (t_audit t ++
           [mkAuditLog id (al_ActorID a) (al_Action a) (al_Target a) (al_Detail a) n n]))).

Definition Audit_List (cursor : string) (limit : Z) : M StoreErr (list AuditLog) :=
  query (fun t => Ok (page al_ID cursor limit (t_audit t))).

Definition InvocationLogs_Append (l : InvocationLog) : M StoreErr unit :=
  do! id <- new_id (il_ID l);
  do! n <- stored_now;
  write (fun t =>
    let! m := insert_row (t_logs t) id (bool_decide (is_Some (t_functions t !! il_FunctionID l)))
                (mkInvocationLog id (il_FunctionID l) (il_VersionID l) (il_Method l) (il_Path l)
                   (il_Status l) (il_DurationMS l) (il_Stdout l) (il_Stderr l)
                   (if il_FetchDecisions l == "" then "[]" else il_FetchDecisions l) n) in
    Ok (set_logs t m)).

Definition InvocationLogs_List (functionID cursor : string) (limit : Z)
    : M StoreErr (list InvocationLog) :=
  query (fun t =>
    Ok (page il_ID cursor limit (rows (fun l => il_FunctionID l == functionID) (t_logs t)))).

Definition InvocationLogs_DeleteOlderThan (cutoff : Time) : M StoreErr Z :=
  statement (fun t =>
    let old := fun l => toUnix (il_CreatedAt l) <? toUnix cutoff in
    Ok (count_rows old (t_logs t), set_logs t (delete_rows old (t_logs t)))).
End Repositories.

(** ** Races *)

(** Callers that reach the store one after the other, in any order; each one's
    outcome. *)
Fixpoint runs {A} (ms : list (M StoreErr A)) (w : World) : list (result StoreErr A) * World :=
  match ms with
  | [] => ([], w)
  | m :: ms => let '(r, w1) := m w in let '(rs, w2) := runs ms w1 in (r :: rs, w2)
  end.

Definition winners {A} (rs : list (result StoreErr A)) : nat := length (List.filter is_ok rs).

(** [m] can only win while [spent] does not hold, and winning makes it hold. *)
Record contested {A} (spent : World -> Prop) (m : M StoreErr A) : Prop := {
  ct_spent : forall w, spent w -> is_ok (m w).1 = false /\ spent (m w).2;
  ct_win : forall w, is_ok (m w).1 = true -> spent (m w).2
}.

Lemma no_winner {A} spent (ms : list (M StoreErr A)) w :
  Forall (contested spent) ms -> spent w -> winners (runs ms w).1 = 0%nat.
Proof.
  intros H. revert w. induction H as [|m ms Hm _ IH]; intros w Hw; simpl; [done|].
  destruct (ct_spent _ _ Hm w Hw) as [Hf Hs]. destruct (m w) as [r w1].
  specialize (IH w1 Hs). destruct (runs ms w1) as [rs w2]. unfold winners in *. simpl in *.
  by rewrite Hf.
Qed.

Lemma at_most_one_winner {A} spent (ms : list (M StoreErr A)) w :
  Forall (contested spent) ms -> (winners (runs ms w).1 <= 1)%nat.
Proof.
  intros H. revert w. induction H as [|m ms Hm H IH]; intros w; simpl; [unfold winners; simpl; lia|].
  pose proof (ct_win _ _ Hm w) as Hw. destruct (m w) as [r w1].
  specialize (IH w1). pose proof (no_winner spent ms w1 H) as Hno.
  destruct (runs ms w1) as [rs w2]. unfold winners in *. simpl in *.
  destruct (is_ok r); simpl; [|done]. rewrite Hno by auto. lia.
Qed.

(** What a statement does to its world, in the two cases. *)
Lemma statement_cases {A} (f : Tables -> result StoreErr (A * Tables)) w :
  ((statement f w).1 = Err ErrBackend /\ tbl (statement f w).2 = tbl w)
  \/ (exists e, f (tbl w) = Err e /\ (statement f w).1 = Err e /\ tbl (statement f w).2 = tbl w)
  \/ (exists a t, f (tbl w) = Ok (a, t) /\ (statement f w).1 = Ok a /\ tbl (statement f w).2 = t).
Proof.
  unfold statement. destruct (faults w) as [|[] fs]; simpl; [|by left|];
    right; destruct (f (tbl w)) as [[a t]|e]; simpl; eauto 10.
Qed.

Lemma consume_contested {A} sel upd id (ok : A -> bool) :
  (forall c x, sel (upd c x) = x) ->
  contested (fun w => sel (t_creds (tbl w)) !! id = None) (consume sel upd id ok).
Proof.
  intros Hsu. unfold consume. split; intros w; [intros Hs|];
    destruct (statement_cases (fun t => match sel (t_creds t) !! id with
      | Some x => if ok x then Ok (x, set_creds t (upd (t_creds t) (delete id (sel (t_creds t)))))
                  else Err ErrNotFound
      | None => Err ErrNotFound end) w) as [[-> ->]|[(e & Hf & -> & ->)|(a & t & Hf & -> & ->)]];
    simpl; intros; try done.
  - by rewrite Hs in Hf.
  - case_all Hf. injection Hf as _ <-. simpl. by rewrite Hsu, lookup_delete_eq.
Qed.

Lemma Rotate_contested id old new n :
  new <> old ->
  contested (fun w => forall g, t_oauth_grants (t_creds (tbl w)) !! id = Some g ->
                                og_SecretHash g <> old)
    (OAuthGrants_Rotate id old new n).
Proof.
  intros Hne. unfold OAuthGrants_Rotate. split; intros w; [intros Hs|];
    match goal with |- context [statement ?f w] =>
      destruct (statement_cases f w) as [[-> ->]|[(e & Hf & -> & ->)|(a & t & Hf & -> & ->)]] end;
    simpl; intros; try done.
  - destruct (t_oauth_grants (t_creds (tbl w)) !! id) as [g|]; [|done].
    specialize (Hs g eq_refl). apply String.eqb_neq in Hs. by rewrite Hs in Hf.
  - case_all Hf; injection Hf as _ <-; simpl in *;
      match goal with H : <[_ := _]> _ !! _ = _ |- _ => rewrite lookup_insert_eq in H end;
      by simplify_eq.
Qed.

(** Single use: of any number of callers presenting the same CLI login code,
    the same OAuth authorization code, the same single-sign-on code or the same
    refresh secret, in any order, at any times and with any backend failures, at
    most one succeeds. *)
Theorem single_winner id w :
  (forall times, (winners (runs (map (CLIAuthCodes_Consume id) times) w).1 <= 1)%nat)
  /\ (forall times, (winners (runs (map (OAuthAuthCodes_Consume id) times) w).1 <= 1)%nat)
  /\ (forall callers, (winners (runs (map (fun c => InvokeAuthCodes_Consume id c.1.1 c.1.2 c.2)
                                       callers) w).1 <= 1)%nat)
  /\ (forall old callers, Forall (fun c => c.1 <> old) callers ->
        (winners (runs (map (fun c => OAuthGrants_Rotate id old c.1 c.2) callers) w).1 <= 1)%nat).
Proof.
  split_and!; intros.
  - eapply at_most_one_winner, Forall_map, Forall_true. intros n. by apply consume_contested.
  - eapply at_most_one_winner, Forall_map, Forall_true. intros n. by apply consume_contested.
  - eapply at_most_one_winner, Forall_map, Forall_true. intros c. by apply consume_contested.
  - eapply at_most_one_winner, Forall_map, Forall_impl; [done|]. intros c Hc.
    by apply Rotate_contested.
Qed.

Definition sample_grant : OAuthGrant := mkOAuthGrant "G1" "U1" "C1" "h0" "" 1 1 None.
Definition granted_world : World :=
  with_tbl sample_world (set_creds sample_tables (set_oauth_grants empty_creds {["G1" := sample_grant]})).

Lemma single_winner_witness :
  (winners (runs (map (fun c => OAuthGrants_Rotate "G1" "h0" c.1 c.2) [("h1", 5%Z); ("h2", 6%Z)])
              granted_world).1 <= 1)%nat
  /\ winners (runs (map (fun c => OAuthGrants_Rotate "G1" "h0" c.1 c.2) [("h1", 5%Z); ("h2", 6%Z)])
               granted_world).1 = 1%nat.
Proof.
  split; [|vm_compute; reflexivity].
  apply (single_winner "G1" granted_world). repeat constructor; discriminate.
Defined.
