(* ===== verification/Digest.v ===== *)
(** * Digest: SHA-256, HMAC, hexadecimal and base64

    The parts of Go's [crypto/sha256], [crypto/hmac], [encoding/hex] and
    [base64.RawURLEncoding] the program builds its credentials from, as
    executable functions on byte strings; and [base64.StdEncoding], padded and not, on
    the digits of the URL alphabet's codec. *)

From S2P Require Import Prelude.

(** ** Bytes *)

Definition byte_of (z : Z) : ascii := ascii_of_nat (Z.to_nat z).

Lemma byte_of_val c : byte_of (byte_val c) = c.
Proof. unfold byte_of, byte_val. rewrite Nat2Z.id. apply ascii_nat_embedding. Qed.

Lemma byte_val_of z : 0 <= z < 256 -> byte_val (byte_of z) = z.
Proof. intros H. unfold byte_of, byte_val. rewrite nat_ascii_embedding; lia. Qed.

Lemma byte_val_range c : 0 <= byte_val c < 256.
Proof. unfold byte_val. pose proof (nat_ascii_bounded c). lia. Qed.

Definition bytes (s : string) : list Z := map byte_val (list_ascii_of_string s).
Definition of_bytes (l : list Z) : string := string_of_list_ascii (map byte_of l).

(** ** SHA-256 *)

Definition mask32 : Z := 2 ^ 32 - 1.
Definition w32 (z : Z) : Z := Z.land z mask32.
Definition rotr (n x : Z) : Z := Z.lor (Z.shiftr x n) (w32 (Z.shiftl x (32 - n))).

(** The constants are the first 32 bits of the fractional parts of the cube and
    square roots of the first primes. *)
Fixpoint primes_from (n : nat) (c : Z) : list Z :=
  match n with
  | O => []
  | S n =>
      if forallb (fun d => negb (c mod d =? 0)) (map Z.of_nat (seq 2 (Z.to_nat (Z.sqrt c) - 1)))
      then c :: primes_from n (c + 1) else primes_from n (c + 1)
  end.

(** The integer cube root of [z], bit by bit from the [bits]-th. *)
Fixpoint cube_root (bits : nat) (r z : Z) : Z :=
  match bits with
  | O => r
  | S b =>
      let r' := r + 2 ^ Z.of_nat b in
      cube_root b (if r' * r' * r' <=? z then r' else r) z
  end.

Definition sha_k : list Z :=
  Eval vm_compute in map (fun p => w32 (cube_root 40 0 (p * 2 ^ 96))) (take 64 (primes_from 310 2)).

Definition sha_init : list Z :=
  Eval vm_compute in map (fun p => w32 (Z.sqrt (p * 2 ^ 64))) (take 8 (primes_from 310 2)).

Definition small_sigma (a b c x : Z) : Z := Z.lxor (Z.lxor (rotr a x) (rotr b x)) (Z.shiftr x c).
Definition big_sigma (a b c x : Z) : Z := Z.lxor (Z.lxor (rotr a x) (rotr b x)) (rotr c x).

(** The message schedule, newest word first. *)
Fixpoint schedule (n : nat) (ws : list Z) : list Z :=
  match n with
  | O => ws
  | S n =>
      let w i := nth i ws 0 in
      schedule n (w32 (small_sigma 17 19 10 (w 1%nat) + w 6%nat
                       + small_sigma 7 18 3 (w 14%nat) + w 15%nat) :: ws)
  end.

Definition sha_round (st : list Z) (kw : Z) : list Z :=
  match st with
  | [a; b; c; d; e; f; g; h] =>
      let ch := Z.lxor (Z.land e f) (Z.land (Z.lxor e mask32) g) in
      let maj := Z.lxor (Z.lxor (Z.land a b) (Z.land a c)) (Z.land b c) in
      let t1 := h + big_sigma 6 11 25 e + ch + kw in
      let t2 := big_sigma 2 13 22 a + maj in
      [w32 (t1 + t2); a; b; c; w32 (d + t1); e; f; g]
  | _ => st
  end.

Fixpoint zip_with2 (f : Z -> Z -> Z) (l k : list Z) : list Z :=
  match l, k with x :: l, y :: k => f x y :: zip_with2 f l k | _, _ => [] end.

Definition sha_block (st block : list Z) : list Z :=
  let ws := rev (schedule 48 (rev block)) in
  zip_with2 (fun x y => w32 (x + y)) st
    (fold_left sha_round (zip_with2 Z.add sha_k ws) st).

Fixpoint words (l : list Z) : list Z :=
  match l with
  | a :: b :: c :: d :: r => (((a * 256 + b) * 256 + c) * 256 + d) :: words r
  | _ => []
  end.

(** Big-endian bytes of a [4 * n]-byte number. *)
Fixpoint be_bytes (n : nat) (z : Z) : list Z :=
  match n with O => [] | S n => be_bytes n (z / 256) ++ [z mod 256] end.

Definition sha_pad (l : list Z) : list Z :=
  let len := Z.of_nat (length l) in
  let zeros := (119 - len mod 64) mod 64 in
  l ++ 128 :: repeat 0 (Z.to_nat zeros) ++ be_bytes 8 (8 * len).

Fixpoint sha_blocks (fuel : nat) (st ws : list Z) : list Z :=
  match fuel, ws with
  | S fuel, _ :: _ => sha_blocks fuel (sha_block st (take 16 ws)) (drop 16 ws)
  | _, _ => st
  end.

(** [sha256.Sum256]: one block per 16 words, so the number of words is fuel
    enough. *)
Definition sha256 (s : string) : string :=
  let ws := words (sha_pad (bytes s)) in
  of_bytes (flat_map (be_bytes 4) (sha_blocks (length ws) sha_init ws)).

(** [hmac.New(sha256.New, key)]. *)
Definition hmac_sha256 (key msg : string) : string :=
  let key := if 64 <? str_len key then sha256 key else key in
  let kb := bytes key in
  let kb := kb ++ repeat 0 (64 - length kb) in
  let pad x := of_bytes (map (Z.lxor x) kb) in
  sha256 (pad 0x5c +:+ sha256 (pad 0x36 +:+ msg)).

(** ** Hexadecimal *)

Definition hex_digit (d : Z) : ascii := byte_of (if d <? 10 then 48 + d else 87 + d).
Fixpoint hex (s : string) : string :=
  match s with
  | EmptyString => EmptyString
  | String c r => String (hex_digit (byte_val c / 16)) (String (hex_digit (byte_val c mod 16)) (hex r))
  end.

(** [sha256Hex], the digest under which the program stores a secret. *)
Definition sha256Hex (s : string) : string := hex (sha256 s).

(** ** Unpadded base64url *)

Definition b64_alphabet : string :=
  "ABCDEFGHIJKLMNOPQRSTUVWXYZabcdefghijklmnopqrstuvwxyz0123456789-_".
Definition b64_char (d : Z) : ascii := default "A"%char (String.get (Z.to_nat d) b64_alphabet).
Definition b64_digit (c : ascii) : option Z := option_map Z.of_nat (index_byte b64_alphabet c).

Fixpoint b64_encode (s : string) : string :=
  match s with
  | EmptyString => EmptyString
  | String a EmptyString =>
      let v := byte_val a * 16 in
      String (b64_char (v / 64)) (String (b64_char (v mod 64)) EmptyString)
  | String a (String b EmptyString) =>
      let v := (byte_val a * 256 + byte_val b) * 4 in
      String (b64_char (v / 4096)) (String (b64_char (v / 64 mod 64))
        (String (b64_char (v mod 64)) EmptyString))
  | String a (String b (String c r)) =>
      let v := (byte_val a * 256 + byte_val b) * 256 + byte_val c in
      String (b64_char (v / 262144)) (String (b64_char (v / 4096 mod 64))
        (String (b64_char (v / 64 mod 64)) (String (b64_char (v mod 64)) (b64_encode r))))
  end.

(** The decoder skips line breaks and ignores the bits left over at the end. *)
Fixpoint b64_digits (s : string) : option (list Z) :=
  match s with
  | EmptyString => Some []
  | String c r =>
      if (c =? "010")%char || (c =? "013")%char then b64_digits r
      else
        match b64_digit c, b64_digits r with
        | Some d, Some ds => Some (d :: ds)
        | _, _ => None
        end
  end.

Fixpoint b64_bytes (ds : list Z) : option string :=
  match ds with
  | [] => Some EmptyString
  | [_] => None
  | [x; y] => Some (String (byte_of ((x * 64 + y) / 16)) EmptyString)
  | [x; y; z] =>
      let v := ((x * 64 + y) * 64 + z) / 4 in
      Some (String (byte_of (v / 256)) (String (byte_of (v mod 256)) EmptyString))
  | x :: y :: z :: t :: r =>
      let v := ((x * 64 + y) * 64 + z) * 64 + t in
      match b64_bytes r with
      | Some s => Some (String (byte_of (v / 65536)) (String (byte_of (v / 256 mod 256))
                          (String (byte_of (v mod 256)) s)))
      | None => None
      end
  end.

Definition b64_decode (s : string) : option string :=
  match b64_digits s with Some ds => b64_bytes ds | None => None end.

(** ** Lemmas *)

Definition line_break (c : ascii) : bool := (c =? "010")%char || (c =? "013")%char.
Definition url_safe (c : ascii) : bool := is_alnum c || (c =? "-")%char || (c =? "_")%char.

Lemma b64_char_ok d : 0 <= d < 64 ->
  b64_digit (b64_char d) = Some d /\ url_safe (b64_char d) = true
  /\ line_break (b64_char d) = false.
Proof.
  intros H.
  assert (A : forallb (fun n => bool_decide (b64_digit (b64_char (Z.of_nat n)) = Some (Z.of_nat n))
                        && url_safe (b64_char (Z.of_nat n))
                        && negb (line_break (b64_char (Z.of_nat n)))) (seq 0 64) = true)
    by (vm_compute; reflexivity).
  rewrite forallb_forall in A. specialize (A (Z.to_nat d)). rewrite Z2Nat.id in A by lia.
  specialize (A ltac:(apply in_seq; lia)). by bool_facts.
Qed.

Lemma b64_digits_char d s : 0 <= d < 64 ->
  b64_digits (String (b64_char d) s) = option_map (cons d) (b64_digits s).
Proof.
  intros H. simpl. destruct (b64_char_ok d H) as (E & _ & L). unfold line_break in L.
  rewrite L, E. by destruct (b64_digits s).
Qed.

(** Induction three bytes at a time. *)
Lemma string_ind3 (P : string -> Prop) :
  P EmptyString -> (forall a, P (String a EmptyString)) ->
  (forall a b, P (String a (String b EmptyString))) ->
  (forall a b c r, P r -> P (String a (String b (String c r)))) -> forall s, P s.
Proof.
  intros H0 H1 H2 H3. fix IH 1.
  intros [|a [|b [|c r]]]; [exact H0|apply H1|apply H2|apply H3, IH].
Qed.

Lemma byte_eq z c : z = byte_val c -> byte_of z = c.
Proof. intros ->. apply byte_of_val. Qed.

Lemma b64_decode_encode s : b64_decode (b64_encode s) = Some s.
Proof.
  unfold b64_decode. induction s as [|a|a b|a b c r IH] using string_ind3; [done| | |];
    simpl b64_encode; cbv zeta;
    repeat match goal with c : ascii |- _ =>
      lazymatch goal with
      | _ : 0 <= byte_val c < 256 |- _ => fail
      | _ => pose proof (byte_val_range c)
      end end;
    rewrite !b64_digits_char by (Z.to_euclidean_division_equations; lia).
  - simpl. do 2 f_equal. apply byte_eq. Z.to_euclidean_division_equations; lia.
  - simpl. f_equal. f_equal; [|f_equal]; apply byte_eq; Z.to_euclidean_division_equations; lia.
  - destruct (b64_digits (b64_encode r)) as [ds|]; [|done]. simpl in *. rewrite IH. f_equal.
    f_equal; [|f_equal; [|f_equal]]; apply byte_eq;
      Z.to_euclidean_division_equations; lia.
Qed.

Lemma b64_encode_safe s : str_forallb url_safe (b64_encode s) = true.
Proof.
  assert (Hc : forall d, 0 <= d < 64 -> url_safe (b64_char d) = true)
    by (intros d Hd; apply (b64_char_ok d Hd)).
  induction s as [|a|a b|a b c r IH] using string_ind3; [done| | |]; cbn [b64_encode str_forallb];
    cbv zeta; cbn [str_forallb];
    repeat match goal with c : ascii |- _ =>
      lazymatch goal with
      | _ : 0 <= byte_val c < 256 |- _ => fail
      | _ => pose proof (byte_val_range c)
      end end;
    rewrite !Hc by (Z.to_euclidean_division_equations; lia); done.
Qed.

(** A digest is 32 bytes long, 64 in hexadecimal, 43 in base64url. *)
Lemma sha_round_length st kw : length st = 8%nat -> length (sha_round st kw) = 8%nat.
Proof. do 9 (destruct st as [|? st]; try done). Qed.

Lemma zip_with2_length f l k : length (zip_with2 f l k) = Nat.min (length l) (length k).
Proof. revert k. induction l as [|x l IH]; intros [|y k]; simpl; by rewrite ?IH. Qed.

Lemma sha_block_length st b : length st = 8%nat -> length (sha_block st b) = 8%nat.
Proof.
  intros H. unfold sha_block. rewrite zip_with2_length, H.
  assert (Hf : forall l s, length s = 8%nat -> length (fold_left sha_round l s) = 8%nat).
  { intros l. induction l as [|k l IH]; intros s Hs; simpl; [done|]. by apply IH, sha_round_length. }
  by rewrite Hf.
Qed.

Lemma sha_blocks_length n st ws : length st = 8%nat -> length (sha_blocks n st ws) = 8%nat.
Proof.
  revert st ws. induction n as [|n IH]; intros st [|w ws] H; simpl; try done.
  by apply IH, sha_block_length.
Qed.

Lemma of_bytes_length l : String.length (of_bytes l) = length l.
Proof. unfold of_bytes. induction l as [|x l IH]; simpl; by rewrite ?IH. Qed.

Lemma sha256_length s : String.length (sha256 s) = 32%nat.
Proof.
  unfold sha256. rewrite of_bytes_length.
  assert (Hb : forall n z, length (be_bytes n z) = n).
  { intros n. induction n as [|n IH]; intros z; simpl; [done|]. rewrite length_app, IH. simpl. lia. }
  assert (Hf : forall l, length (flat_map (be_bytes 4) l) = (4 * length l)%nat).
  { intros l. induction l as [|x l IH]; [done|].
    cbn [flat_map length]. rewrite length_app, Hb, IH. lia. }
  rewrite Hf, sha_blocks_length; done.
Qed.

Lemma hex_length s : String.length (hex s) = (2 * String.length s)%nat.
Proof. induction s as [|c s IH]; simpl; [done|]. rewrite IH. lia. Qed.

Lemma sha256Hex_length s : String.length (sha256Hex s) = 64%nat.
Proof. unfold sha256Hex. by rewrite hex_length, sha256_length. Qed.

Lemma sha256Hex_nonempty s : (sha256Hex s == "") = false.
Proof.
  apply String.eqb_neq. intros H. pose proof (sha256Hex_length s) as Hl. rewrite H in Hl. discriminate.
Qed.

Lemma b64_encode_length s :
  str_len (b64_encode s) = (4 * str_len s + 2) / 3.
Proof.
  unfold str_len. induction s as [|a|a b|a b c r IH] using string_ind3; try done.
  cbn [b64_encode String.length]. cbv zeta. cbn [String.length].
  rewrite !Nat2Z.inj_succ. Z.to_euclidean_division_equations; lia.
Qed.

(** The digest of the standard's example message, and one HMAC test vector. *)
Example sha256_abc :
  sha256Hex "abc" = "ba7816bf8f01cfea414140de5dae2223b00361a396177a9cb410ff61f20015ad".
Proof. vm_compute. reflexivity. Qed.
Example hmac_jefe :
  hex (hmac_sha256 "Jefe" "what do ya want for nothing?")
  = "5bdcc146bf60754e6a042426089575c75a003f089d2739839dec58b964ec3843".
Proof. vm_compute. reflexivity. Qed.

(** ** Standard base64 *)

(** The two alphabets differ in two characters. *)
Definition to_std (c : ascii) : ascii :=
  if (c =? "-")%char then "+" else if (c =? "_")%char then "/" else c.
Definition std_only (c : ascii) : bool := is_alnum c || (c =? "+")%char || (c =? "/")%char.
Definition of_std (c : ascii) : ascii :=
  if (c =? "+")%char then "-" else if (c =? "/")%char then "_" else c.

Fixpoint drop_breaks (s : string) : string :=
  match s with
  | EmptyString => EmptyString
  | String c r => if line_break c then drop_breaks r else String c (drop_breaks r)
  end.

(** [base64.RawStdEncoding]. *)
Definition RawStd_Decode (s : string) : option string :=
  let s := drop_breaks s in
  if str_forallb std_only s then b64_decode (str_map of_std s) else None.
Definition RawStd_Encode (s : string) : string := str_map to_std (b64_encode s).

(** [base64.StdEncoding]: the last group of four is filled up with [=]. *)
Definition padding (n : nat) : string :=
  match (n mod 4)%nat with 2%nat => "==" | 3%nat => "=" | _ => "" end.
Definition Std_Encode (s : string) : string :=
  let r := RawStd_Encode s in r +:+ padding (String.length r).
Definition Std_Decode (s : string) : option string :=
  let s := drop_breaks s in
  if (String.length s mod 4 =? 0)%nat
  then RawStd_Decode (if has_suffix s "==" then trim_suffix s "==" else trim_suffix s "=")
  else None.

(** mcpserver's [decodeBase64]. *)
Definition decodeBase64 (s : string) : option string :=
  match Std_Decode s with Some d => Some d | None => RawStd_Decode s end.

(** ** Lemmas *)

Lemma of_to_std c : url_safe c = true -> of_std (to_std c) = c /\ std_only (to_std c) = true
  /\ line_break (to_std c) = false /\ (to_std c =? "=")%char = false.
Proof. destruct c as [[] [] [] [] [] [] [] []]; vm_compute; intros [=]; auto. Qed.

Lemma std_text s : str_forallb url_safe s = true ->
  drop_breaks (str_map to_std s) = str_map to_std s /\ str_forallb std_only (str_map to_std s) = true
  /\ str_map of_std (str_map to_std s) = s.
Proof.
  induction s as [|c s IH]; [done|]. cbn [str_forallb str_map drop_breaks]. intros H.
  apply andb_true_iff in H as [Hc Hs]. destruct (of_to_std c Hc) as (H1 & H2 & H3 & _).
  destruct (IH Hs) as (I1 & I2 & I3). rewrite H3, H1, H2, I1, I2, I3. done.
Qed.

Lemma raw_decode_encode s : RawStd_Decode (RawStd_Encode s) = Some s.
Proof.
  unfold RawStd_Decode, RawStd_Encode. destruct (std_text _ (b64_encode_safe s)) as (-> & -> & ->).
  apply b64_decode_encode.
Qed.

(** The number of digits is never one more than a multiple of four. *)
Lemma encode_length s : (String.length (b64_encode s) mod 4 <> 1)%nat.
Proof.
  induction s as [|a|a b|a b c r IH] using string_ind3; [vm_compute; lia|cbn; lia|cbn; lia|].
  cbn [b64_encode]. cbv zeta. cbn [String.length].
  replace (S (S (S (S (String.length (b64_encode r))))))%nat with (String.length (b64_encode r) + 1 * 4)%nat by lia.
  by rewrite Nat.Div0.mod_add.
Qed.

Lemma drop_breaks_app s t : drop_breaks (s +:+ t) = drop_breaks s +:+ drop_breaks t.
Proof. induction s as [|c s IH]; [done|]. cbn. destruct (line_break c); cbn; by rewrite IH. Qed.

Lemma no_equals s t : str_forallb std_only s = true -> s <> t +:+ "=".
Proof. intros H ->. rewrite str_forallb_app in H. apply andb_true_iff in H as [_ H]. discriminate. Qed.

Lemma not_padded s p : str_forallb std_only s = true -> p = "=" \/ p = "==" -> has_suffix s p = false.
Proof.
  intros H Hp. apply not_true_iff_false. intros [r ->]%has_suffix_spec. destruct Hp as [-> | ->].
  - by eapply no_equals.
  - apply (no_equals _ (r +:+ "=") H). by rewrite str_app_assoc.
Qed.

(** [Std_Encode] pads to whole groups, and [Std_Decode] takes the padding off. *)
Lemma std_decode_encode s : Std_Decode (Std_Encode s) = Some s.
Proof.
  unfold Std_Decode, Std_Encode. set (r := RawStd_Encode s).
  assert (Hl : String.length r = String.length (b64_encode s)) by apply str_map_length.
  destruct (std_text _ (b64_encode_safe s)) as (Hd & Hs & _). fold r in Hd, Hs.
  change (str_map to_std (b64_encode s)) with r in Hd, Hs.
  assert (Hp : drop_breaks (padding (String.length r)) = padding (String.length r))
    by (unfold padding; by destruct (_ mod 4)%nat as [|[|[|[|]]]]).
  rewrite drop_breaks_app, Hd, Hp, str_length_app. pose proof (encode_length s) as He. rewrite <- Hl in He.
  pose proof (Nat.mod_upper_bound (String.length r) 4 ltac:(lia)) as Hb.
  unfold padding. destruct (String.length r mod 4)%nat as [|[|[|[|]]]] eqn:E; try lia; try done;
    cbn [String.length]; rewrite Nat.Div0.add_mod, E; cbn [Nat.modulo Nat.divmod Nat.eqb fst snd Nat.add Nat.sub].
  - rewrite str_app_nil_r, (not_padded r "=="), trim_suffix_id by auto using not_padded. apply raw_decode_encode.
  - rewrite has_suffix_app by done. cbn. rewrite trim_suffix_app. apply raw_decode_encode.
  - replace (has_suffix (r +:+ "=") "==") with false.
    + rewrite trim_suffix_app. apply raw_decode_encode.
    + symmetry. apply not_true_iff_false. intros [t Ht]%has_suffix_spec.
      replace (t +:+ "==") with ((t +:+ "=") +:+ "=") in Ht by by rewrite str_app_assoc.
      apply (f_equal (fun x => trim_suffix x "=")) in Ht. rewrite !trim_suffix_app in Ht.
      by eapply no_equals.
Qed.

Lemma decode_encode s : decodeBase64 (Std_Encode s) = Some s.
Proof. unfold decodeBase64. by rewrite std_decode_encode. Qed.

Lemma decode_unpadded s : (String.length (b64_encode s) mod 4 <> 0)%nat -> decodeBase64 (RawStd_Encode s) = Some s.
Proof.
  intros H. unfold decodeBase64, Std_Decode.
  destruct (std_text _ (b64_encode_safe s)) as (Hd & _ & _). unfold RawStd_Encode at 1 2. rewrite Hd, str_map_length.
  destruct (_ =? 0)%nat eqn:E; [by apply Nat.eqb_eq in E|]. apply raw_decode_encode.
Qed.

Example decode_examples :
  decodeBase64 "aGk=" = Some "hi" /\ decodeBase64 "aGk" = Some "hi" /\ decodeBase64 "+/8" = Some (of_bytes [251; 255])
  /\ decodeBase64 "a" = None /\ decodeBase64 "aG=k" = None /\ decodeBase64 "-_8=" = None.
Proof. by vm_compute. Qed.
