(* ===== verification/GoHTTP.v ===== *)
(** * GoHTTP: what the program uses of net/http and net/url's escaping

    Canonical header keys and header maps, the parsing of the Cookie header,
    query escaping, [http.Error] and the commitment of a response. *)

From S2P Require Import Prelude Digest.

(** ** Header maps *)

(** RFC 7230 token characters. *)
Definition is_token_byte (c : ascii) : bool := is_alnum c || contains_byte "!#$%&'*+-.^_`|~" c.

Definition byte_upper (c : ascii) : ascii :=
  if is_lower c then byte_of (byte_val c - 32) else c.

(** [textproto.CanonicalMIMEHeaderKey]: upper case at the start and after each
    hyphen; a key with any other byte is returned as it is. *)
Fixpoint canonical_from (upper : bool) (s : string) : string :=
  match s with
  | EmptyString => EmptyString
  | String c r =>
      String (if upper then byte_upper c else byte_lower c) (canonical_from (c =? "-")%char r)
  end.
Definition CanonicalHeaderKey (s : string) : string :=
  if str_forallb is_token_byte s then canonical_from true s else s.

Abbreviation Header := (gmap string (list string)).

Definition h_Get (h : Header) (k : string) : string :=
  match h !! CanonicalHeaderKey k with Some (v :: _) => v | _ => "" end.
Definition h_Set (h : Header) (k v : string) : Header := <[CanonicalHeaderKey k := [v]]> h.
Definition h_Add (h : Header) (k v : string) : Header :=
  <[CanonicalHeaderKey k := default [] (h !! CanonicalHeaderKey k) ++ [v]]> h.
Definition h_Del (h : Header) (k : string) : Header := delete (CanonicalHeaderKey k) h.

(** Every key is canonical, as in the headers net/http hands out and after every
    operation above. *)
Definition header_wf (h : Header) : Prop :=
  forall k v, h !! k = Some v -> CanonicalHeaderKey k = k.

(** [for k := range h { if strings.HasPrefix(k, p) { h.Del(k) } }] *)
Definition h_DelPrefix (h : Header) (p : string) : Header :=
  foldr (fun k h => if has_prefix k p then h_Del h k else h) h (map fst (map_to_list h)).

(** ** Cookies *)

Definition is_ows (c : ascii) : bool := (c =? " ")%char || (c =? "009")%char.
(** [textproto.TrimString]: also trims line ends. *)
Definition trim_string (s : string) : string :=
  let f := fun c => is_ows c || (c =? "010")%char || (c =? "013")%char in
  trim_right_func f (trim_left_func f s).

Definition cookie_value_byte (c : ascii) : bool :=
  (32 <=? byte_val c) && (byte_val c <? 127)
  && negb ((c =? "034")%char || (c =? ";")%char || (c =? "\")%char).

Definition unquote (v : string) : string :=
  match v with
  | String c r =>
      if (c =? "034")%char && has_suffix r (String "034" "")
      then trim_suffix r (String "034" "") else v
  | EmptyString => v
  end.

Definition read_cookie (part : string) : list (string * string) :=
  let '(name, val, _) := cut_byte (trim_string part) "=" in
  let name := trim_string name in
  if (trim_string part == "") || (name == "") || negb (str_forallb is_token_byte name) then []
  else if str_forallb cookie_value_byte (unquote val) then [(name, unquote val)] else [].

(** [readCookies] of the lines of the Cookie header. *)
Definition readCookies (lines : list string) : list (string * string) :=
  flat_map (fun l => flat_map read_cookie (split_byte (trim_string l) ";")) lines.

(** ** Escaping *)

Definition upper_hex (d : Z) : ascii := byte_of (if d <? 10 then 48 + d else 55 + d).

(** [url.QueryEscape]. *)
Fixpoint QueryEscape (s : string) : string :=
  match s with
  | EmptyString => ""
  | String c r =>
      if is_alnum c || contains_byte "-_.~" c then String c (QueryEscape r)
      else if (c =? " ")%char then String "+" (QueryEscape r)
      else String "%" (String (upper_hex (byte_val c / 16))
                         (String (upper_hex (byte_val c mod 16)) (QueryEscape r)))
  end.

(** [url.Values.Encode] of keys that are already sorted and plain. *)
Definition encode_values (kvs : list (string * string)) : string :=
  join_with "&" (map (fun kv => kv.1 +:+ "=" +:+ QueryEscape kv.2) kvs).

(** ** Responses *)

(** [strconv.ParseInt(s, 10, 64)] of a Content-Length, when it is not negative. *)
Fixpoint decimal_from (n : Z) (s : string) : option Z :=
  match s with
  | EmptyString => Some n
  | String c r => if is_digit c then decimal_from (10 * n + (byte_val c - 48)) r else None
  end.
Definition decimal (s : string) : option Z :=
  match decimal_from 0 s with
  | Some n => if negb (s == "") && (n <=? 2 ^ 63 - 1) then Some n else None
  | None => None
  end.
Definition content_length (s : string) : option Z :=
  match s with
  | String "+" r => decimal r
  | String "-" r => match decimal r with Some 0 => Some 0 | _ => None end
  | _ => decimal s
  end.
Definition declared_length (h : Header) : option Z := content_length (h_Get h "Content-Length").

(** [bodyAllowedForStatus]. *)
Definition body_allowed (code : Z) : bool :=
  negb ((100 <=? code) && (code <=? 199) || (code =? 204) || (code =? 304)).

(** The response of net/http: nothing is on the wire until the status and the
    headers of that moment are; later changes of the header map are lost.
    [rw_Handed] counts the bytes given to [Write], [rw_Body] are those accepted. *)
Record ResponseWriter := mkWriter {
  rw_Header : Header;
  rw_Committed : option (Z * Header);
  rw_Body : string;
  rw_Handed : Z
}.

Definition new_writer : ResponseWriter := mkWriter ∅ None "" 0.

Definition rw_set_header (w : ResponseWriter) (h : Header) : ResponseWriter :=
  mkWriter h (rw_Committed w) (rw_Body w) (rw_Handed w).

(** Interim responses: they are sent on their own and commit nothing. *)
Definition informational (code : Z) : bool := (100 <=? code) && (code <=? 199) && negb (code =? 101).

Definition rw_WriteHeader (w : ResponseWriter) (code : Z) : ResponseWriter :=
  match rw_Committed w with
  | Some _ => w
  | None => if informational code then w
            else mkWriter (rw_Header w) (Some (code, rw_Header w)) (rw_Body w) (rw_Handed w)
  end.

(** A write is refused whole when the status allows no body, or when it goes past the
    declared length; a refused write still counts towards that length. *)
Definition accepts (w : ResponseWriter) (handed : Z) : bool :=
  match rw_Committed w with
  | Some (code, h) => body_allowed code && match declared_length h with Some n => handed <=? n | None => true end
  | None => true
  end.
Definition rw_Write (w : ResponseWriter) (b : string) : ResponseWriter :=
  let w := rw_WriteHeader w 200 in
  let handed := rw_Handed w + str_len b in
  mkWriter (rw_Header w) (rw_Committed w) (if accepts w handed then rw_Body w +:+ b else rw_Body w) handed.

(** What the client has once the handler returns; the answer to HEAD has no body. *)
Definition rw_Finish (method : string) (w : ResponseWriter) : Z * Header * string :=
  let body := if method == "HEAD" then "" else rw_Body w in
  match rw_Committed w with
  | Some (code, h) => (code, h, body)
  | None => (200, rw_Header w, body)
  end.

Example content_lengths :
  map content_length ["5"; "+5"; "-0"; "-1"; "+-0"; ""; "5 "; "9223372036854775808"]
  = [Some 5; Some 5; Some 0; None; None; None; None; None].
Proof. by vm_compute. Qed.

(** ** Lemmas *)

Lemma canonical_byte (u : bool) c :
  (if u then byte_upper (if u then byte_upper c else byte_lower c)
   else byte_lower (if u then byte_upper c else byte_lower c)) = (if u then byte_upper c else byte_lower c)
  /\ ((if u then byte_upper c else byte_lower c) =? "-")%char = (c =? "-")%char
  /\ is_token_byte (if u then byte_upper c else byte_lower c) = is_token_byte c.
Proof. destruct u; destruct c as [[] [] [] [] [] [] [] []]; vm_compute; auto. Qed.

Lemma canonical_from_token u s : str_forallb is_token_byte (canonical_from u s) = str_forallb is_token_byte s.
Proof.
  revert u. induction s as [|c s IH]; intros u; simpl; [done|].
  destruct (canonical_byte u c) as (_ & _ & ->). by rewrite IH.
Qed.

Lemma canonical_from_idem u s : canonical_from u (canonical_from u s) = canonical_from u s.
Proof.
  revert u. induction s as [|c s IH]; intros u; simpl; [done|].
  destruct (canonical_byte u c) as (-> & -> & _). by rewrite IH.
Qed.

Lemma CanonicalHeaderKey_idem s : CanonicalHeaderKey (CanonicalHeaderKey s) = CanonicalHeaderKey s.
Proof.
  unfold CanonicalHeaderKey. destruct (str_forallb is_token_byte s) eqn:E; [|by rewrite E].
  by rewrite canonical_from_token, E, canonical_from_idem.
Qed.

Lemma header_wf_empty : header_wf ∅.
Proof. intros k v H. by rewrite lookup_empty in H. Qed.

Lemma header_wf_insert h k v : header_wf h -> header_wf (<[CanonicalHeaderKey k := v]> h).
Proof.
  intros Hw k' v' H. destruct (decide (k' = CanonicalHeaderKey k)) as [->|Hne].
  - apply CanonicalHeaderKey_idem.
  - rewrite lookup_insert_ne in H by congruence. eauto.
Qed.

Lemma header_wf_delete h k : header_wf h -> header_wf (delete k h).
Proof. intros Hw k' v' H. apply lookup_delete_Some in H as [_ H]. eauto. Qed.

#[export] Hint Resolve header_wf_empty header_wf_insert header_wf_delete : core.

Lemma header_wf_set h k v : header_wf h -> header_wf (h_Set h k v).
Proof. unfold h_Set. auto. Qed.
Lemma header_wf_add h k v : header_wf h -> header_wf (h_Add h k v).
Proof. unfold h_Add. auto. Qed.
Lemma header_wf_del h k : header_wf h -> header_wf (h_Del h k).
Proof. unfold h_Del. auto. Qed.
#[export] Hint Resolve header_wf_set header_wf_add header_wf_del : core.

(** Deleting every key of a list that has the prefix, one canonical key at a
    time. *)
Lemma del_prefix_fold p ks h k :
  (forall k, In k ks -> CanonicalHeaderKey k = k) ->
  foldr (fun k h => if has_prefix k p then h_Del h k else h) h ks !! k
  = if bool_decide (k ∈ ks) && has_prefix k p then None else h !! k.
Proof.
  intros Hc. induction ks as [|x ks IH]; simpl; [done|].
  specialize (IH (fun k H => Hc k (or_intror H))).
  destruct (decide (x = k)) as [->|Hne].
  - rewrite (bool_decide_eq_true_2 (k ∈ k :: ks)) by constructor. simpl.
    destruct (has_prefix k p) eqn:E; [unfold h_Del; rewrite Hc by (by left); apply lookup_delete_eq|].
    rewrite IH. by rewrite andb_false_r.
  - rewrite (bool_decide_ext (k ∈ x :: ks) (k ∈ ks)) by (rewrite elem_of_cons; naive_solver).
    destruct (has_prefix x p); [|done].
    unfold h_Del. rewrite Hc by (by left). by rewrite lookup_delete_ne.
Qed.

Lemma h_DelPrefix_lookup h p k :
  header_wf h -> h_DelPrefix h p !! k = if has_prefix k p then None else h !! k.
Proof.
  intros Hw. unfold h_DelPrefix. rewrite del_prefix_fold.
  - destruct (h !! k) as [v|] eqn:E; [|by destruct (_ && _), (has_prefix k p)].
    rewrite bool_decide_eq_true_2; [done|]. apply list_elem_of_fmap. exists (k, v).
    by rewrite elem_of_map_to_list.
  - intros x Hx. apply list_elem_of_In, list_elem_of_fmap in Hx as ([y v] & -> & Hx).
    apply elem_of_map_to_list in Hx. eauto.
Qed.

Lemma h_DelPrefix_wf h p : header_wf h -> header_wf (h_DelPrefix h p).
Proof.
  intros Hw k v H. rewrite h_DelPrefix_lookup in H by done. destruct (has_prefix k p); [done|]. eauto.
Qed.
#[export] Hint Resolve h_DelPrefix_wf : core.
