(* ===== verification/Routes.v ===== *)
(** * Routes: which subsystem answers a request

    [server/internal/server]: the top-level router ([routes.go]) with its two
    modes, by path and by host, and the middleware in front of it
    ([middleware.go]): the normalization of loopback aliases, panic recovery,
    the status writer and the labels of metrics and logs. A subsystem's own
    answer is not part of this file: a request is mapped to the subsystem and to
    what it is handed. *)

From S2P Require Import Prelude GoNet GoURL GoHTTP Manifest.

(** ** The request and the wiring *)

(** What the router reads of an [http.Request]; [rq_URI] is
    [r.URL.RequestURI()]. *)
Record RouteRequest := mkRoute {
  rq_Method : string;
  rq_Host : string;
  rq_Path : string;
  rq_URI : string
}.

(** [Deps]: which handlers are not nil, the gate of the MCP routes and the
    configured origins. *)
Record Deps := mkDeps {
  has_API : bool;
  has_Invoker : bool;
  has_Auth : bool;
  has_DevOIDC : bool;
  has_Dashboard : bool;
  has_Metrics : bool;
  has_MCP : bool;
  has_OAuth : bool;
  MCPGate : option (RouteRequest -> bool);
  ControlURL : string;
  FunctionDomain : string;
  LandingURL : string;
  BaseURL : string
}.

Inductive Subsystem := SubAPI | SubDashboard | SubMetrics | SubAuth | SubDevOIDC | SubMCP | SubOAuth.

(** How a request is answered: by a platform subsystem, by a guest (named by
    path, by host, or the sign-on callback of a function host), or here. *)
Inductive Route :=
| ToSubsystem (s : Subsystem)
| InvokeByPath (owner name : string)
| InvokeByHost (name host : string)
| InvokeCallback (name host : string)
| RouteRedirect (code : Z) (target : string)
| Health
| RouteNotFound
| NotImplemented (message : string)
| Misdirected
| Panics.

(** ** middleware.go: the status writer and recovery *)

Record statusWriter := mkStatusWriter { sw_Inner : ResponseWriter; sw_Status : Z; sw_Wrote : bool }.

Definition sw_new (w : ResponseWriter) : statusWriter := mkStatusWriter w 200 false.

Definition sw_WriteHeader (w : statusWriter) (code : Z) : statusWriter :=
  if sw_Wrote w then mkStatusWriter (rw_WriteHeader (sw_Inner w) code) (sw_Status w) true
  else mkStatusWriter (rw_WriteHeader (sw_Inner w) code) code true.

Definition sw_Write (w : statusWriter) (b : string) : statusWriter :=
  let w := if sw_Wrote w then w else sw_WriteHeader w 200 in
  mkStatusWriter (rw_Write (sw_Inner w) b) (sw_Status w) (sw_Wrote w).

(** A handler writes through the wrapper and may panic; the recovery middleware
    then asks for a 500. *)
Definition recoverMiddleware (outcome : statusWriter * bool) : statusWriter :=
  let '(w, panicked) := outcome in if panicked then sw_WriteHeader w 500 else w.

(** ** routes.go *)

(** [strings.Trim(path, "/")] *)
Definition trim_slashes (path : string) : string :=
  let f := fun c => (c =? "/")%char in trim_right_func f (trim_left_func f path).

Definition pathSegments (path : string) : list string :=
  if trim_slashes path == "" then [] else split_byte (trim_slashes path) "/".

Definition reservedRoutes : list string := ["assets"].

Definition not_implemented_yet (what : string) : Route :=
  NotImplemented ("funcbox: " +:+ what +:+ " is not implemented yet").

Definition mcpGateAllows (d : Deps) (q : RouteRequest) : bool :=
  match MCPGate d with None => false | Some gate => gate q end.

(** The MCP and OAuth routes: wired, then gated. *)
Definition gated (d : Deps) (q : RouteRequest) (wired : bool) (what : string) (s : Subsystem) : Route :=
  if negb wired then not_implemented_yet what
  else if negb (mcpGateAllows d q) then RouteNotFound
  else ToSubsystem s.

Definition mounted (wired : bool) (what : string) (s : Subsystem) : Route :=
  if wired then ToSubsystem s else not_implemented_yet what.

Definition serveControl (d : Deps) (q : RouteRequest) : Route :=
  if rq_Path q == "/" then RouteRedirect 302 "/dashboard"
  else if rq_Path q == "/healthz" then Health
  else
    match pathSegments (rq_Path q) with
    | [] => RouteNotFound
    | first :: rest =>
        if first == "api" then mounted (has_API d) "api" SubAPI
        else if first == "dashboard" then mounted (has_Dashboard d) "dashboard" SubDashboard
        else if first == "metrics" then
          if has_Metrics d then ToSubsystem SubMetrics
          else NotImplemented "funcbox: metrics are not enabled (FUNCBOX_METRICS=1 required)"
        else if first == "auth" then mounted (has_Auth d) "auth" SubAuth
        else if (first == "dev") && match rest with second :: _ => second == "oidc" | [] => false end then
          if has_DevOIDC d then ToSubsystem SubDevOIDC
          else NotImplemented "funcbox: dev oidc is not enabled (FUNCBOX_AUTH_MODE=dev required)"
        else if first == "dev" then not_implemented_yet "dev"
        else if first == "mcp" then gated d q (has_MCP d) "mcp" SubMCP
        else if (first == "oauth") || (first == ".well-known") then gated d q (has_OAuth d) "oauth" SubOAuth
        else if existsb (String.eqb first) reservedRoutes then not_implemented_yet first
        else match rest with
             | second :: _ =>
                 if has_Invoker d then InvokeByPath first second
                 else not_implemented_yet "function invocation"
             | [] => RouteNotFound
             end
    end.

(** The headers [serveControl] sets before anything else. *)
Definition control_headers (h : Header) : Header :=
  h_Set (h_Set h "Content-Security-Policy" "frame-ancestors 'none'") "X-Content-Type-Options" "nosniff".

Definition bad_authority_byte (c : ascii) : bool :=
  contains_byte "\/@ " c || (c =? "009")%char || (c =? "013")%char || (c =? "010")%char.

Definition label_byte (c : ascii) : bool := is_lower_alnum c || (c =? "-")%char.

Definition first_is (s : string) (c : ascii) : bool :=
  match s with String d _ => (d =? c)%char | EmptyString => false end.

Section Routes.
Context {U : UnicodeTables}.

Definition normalizedRequestHost (authority : string) : option string :=
  if (authority == "") || str_existsb bad_authority_byte authority then None
  else
    let finish host :=
      let host := to_lower (trim_suffix host ".") in
      if (host == "") || bool_decide (ParseIP host <> None) then None else Some host in
    match SplitHostPort authority with
    | Ok (h, _) => finish h
    | Err _ => if contains_byte authority ":" then None else finish authority
    end.

Definition domain_suffix (domain : string) : string := "." +:+ to_lower (trim_suffix domain ".").

Definition managedFunctionName (host domain : string) : option string :=
  if negb (has_suffix host (domain_suffix domain)) then None
  else
    let name := trim_suffix host (domain_suffix domain) in
    if (name == "") || contains_byte name "." || (63 <? str_len name) || first_is name "-"
       || has_suffix name "-" then None
    else if str_forallb label_byte name then Some name else None.

Definition is_get_or_head (m : string) : bool := (m == "GET") || (m == "HEAD").

Definition serveByHost (d : Deps) (q : RouteRequest) : Route :=
  match normalizedRequestHost (rq_Host q) with
  | None => Misdirected
  | Some host =>
      match url_Parse (ControlURL d) with
      | None => Panics
      | Some control =>
          if equal_fold host (url_Hostname control) then serveControl d q
          else
            let function_host :=
              match managedFunctionName host (FunctionDomain d) with
              | None => Misdirected
              | Some name =>
                  if negb (has_Invoker d) then not_implemented_yet "function invocation"
                  else if rq_Path q == "/.funcbox/auth/callback" then InvokeCallback name host
                  else if has_prefix (rq_Path q) "/.funcbox/" then RouteNotFound
                  else InvokeByHost name host
              end in
            if LandingURL d == "" then function_host
            else match url_Parse (LandingURL d) with
                 | None => Panics
                 | Some landing =>
                     if equal_fold host (url_Hostname landing) then
                       if negb (is_get_or_head (rq_Method q)) then Misdirected
                       else RouteRedirect 308 (trim_suffix (ControlURL d) "/" +:+ rq_URI q)
                     else function_host
                 end
      end
  end.

Definition ServeHTTP (d : Deps) (q : RouteRequest) : Route :=
  if negb (ControlURL d == "") || negb (FunctionDomain d == "") then serveByHost d q
  else serveControl d q.

(** ** middleware.go: labels and loopback aliases *)

Definition routeClass (path : string) : string :=
  match pathSegments path with
  | [] => "root"
  | first :: rest =>
      if existsb (String.eqb first) ["api"; "dashboard"; "auth"; "dev"; "metrics"; "mcp"; "oauth"] then first
      else if first == ".well-known" then "well-known"
      else if first == "healthz" then "healthz"
      else match rest with _ :: _ => "invoke" | [] => "other" end
  end.

(** The path the request log shows. *)
Definition logged_path (path : string) : string :=
  if path == "/.funcbox/auth/callback" then "/.funcbox/auth/callback?[REDACTED]" else path.

Definition loopbackHostAliases : list string := ["localhost"; "127.0.0.1"; "::1"].
Definition isLoopbackHost (host : string) : bool := existsb (String.eqb host) loopbackHostAliases.

Definition splitRequestHost (authority : string) : string * string :=
  match SplitHostPort authority with
  | Ok (h, p) => (to_lower h, p)
  | Err _ => (trim_prefix (trim_suffix (to_lower authority) "]") "[", "")
  end.

Definition effectivePort (scheme port : string) : string :=
  if negb (port == "") then port else if scheme == "https" then "443" else "80".

Definition canonicalControlOrigin (d : Deps) : string :=
  if negb (ControlURL d == "") then ControlURL d else BaseURL d.

(** The paths whose clients do not use cookies. *)
Definition alias_exempt (path : string) : bool :=
  match pathSegments path with
  | [] => false
  | first :: rest =>
      (first == "api") || (first == "mcp") || (first == ".well-known")
      || (first == "oauth") && negb match rest with second :: _ => second == "authorize" | [] => false end
  end.

Definition loopbackAliasRedirectTarget (canonicalOrigin : string) (q : RouteRequest) : option string :=
  if canonicalOrigin == "" then None
  else if alias_exempt (rq_Path q) then None
  else match url_Parse canonicalOrigin with
       | None => None
       | Some canon =>
           if url_Hostname canon == "" then None
           else
             let canonHost := to_lower (url_Hostname canon) in
             if negb (isLoopbackHost canonHost) then None
             else
               let '(reqHost, reqPort) := splitRequestHost (rq_Host q) in
               if (reqHost == "") || negb (isLoopbackHost reqHost) || (reqHost == canonHost) then None
               else if negb (effectivePort (u_Scheme canon) (url_Port canon)
                             == effectivePort (u_Scheme canon) reqPort) then None
               else Some (trim_suffix canonicalOrigin "/" +:+ rq_URI q)
       end.

Definition canonicalOriginMiddleware (d : Deps) (next : RouteRequest -> Route) (q : RouteRequest) : Route :=
  match loopbackAliasRedirectTarget (canonicalControlOrigin d) q with
  | Some target => RouteRedirect (if is_get_or_head (rq_Method q) then 302 else 307) target
  | None => next q
  end.

(** [New]: the router behind the middleware that decides something. *)
Definition New (d : Deps) (q : RouteRequest) : Route := canonicalOriginMiddleware d (ServeHTTP d) q.
End Routes.

(** ** The addresses of functions *)

Section Addresses.
Context {U : UnicodeTables}.

Lemma first_is_prefix s : first_is s "-" = has_prefix s "-".
Proof.
  destruct s as [|c s]; [done|]. pose proof (has_prefix_hyphen c s) as H.
  change (first_is (String c s) "-") with (c =? "-")%char.
  destruct (c =? "-")%char eqn:E, (has_prefix (String c s) "-"); try done; exfalso.
  - apply Ascii.eqb_eq in E. by apply (proj1 H eq_refl).
  - apply Ascii.eqb_neq in E. by specialize (proj2 H E).
Qed.

Lemma label_no_dot name : str_forallb label_byte name = true -> contains_byte name "." = false.
Proof.
  intros H. rewrite contains_byte_spec. apply negb_false_iff.
  revert H. apply str_forallb_impl. intros c. unfold label_byte.
  destruct (c =? ".")%char eqn:E; [|done]. by apply Ascii.eqb_eq in E as ->.
Qed.

(** A managed host is a DNS label in front of the function domain. *)
Lemma managed_name_spec host domain name :
  managedFunctionName host domain = Some name <-> host = name +:+ domain_suffix domain /\ dns_label name.
Proof.
  unfold managedFunctionName, dns_label. split.
  - intros H. case_all H. injection H as <-. rewrite first_is_prefix in *. bool_facts.
    match goal with E : has_suffix _ _ = true |- _ => apply has_suffix_spec in E as [r ->] end.
    rewrite trim_suffix_app in *. split_and!; try done.
    unfold str_len in *. destruct r; [done|]. simpl in *. lia.
  - intros (-> & [Hl1 Hl2] & Hc & Hp & Hs).
    assert (has_suffix (name +:+ domain_suffix domain) (domain_suffix domain) = true) as ->
      by (apply has_suffix_spec; eauto).
    rewrite trim_suffix_app. simpl. rewrite first_is_prefix, Hp, Hs, (label_no_dot name) by done.
    destruct (name == "") eqn:E; bool_facts; [by subst|].
    destruct (63 <? str_len name) eqn:E2; bool_facts; [lia|]. simpl.
    change label_byte with name_char. by rewrite Hc.
Qed.

(** ** Platform and guests are apart *)

Lemma gated_route d q b what s :
  gated d q b what s = ToSubsystem s \/ gated d q b what s = RouteNotFound
  \/ exists m, gated d q b what s = NotImplemented m.
Proof. unfold gated, not_implemented_yet. destruct b, (mcpGateAllows d q); simpl; eauto. Qed.

(** Off the function domain a request never reaches a guest by host. *)
Lemma control_never_by_host d q name host :
  serveControl d q <> InvokeByHost name host /\ serveControl d q <> InvokeCallback name host.
Proof.
  assert (match serveControl d q with InvokeByHost _ _ | InvokeCallback _ _ => False | _ => True end) as H;
    [|by split; intros E; rewrite E in H].
  unfold serveControl, mounted, not_implemented_yet.
  pose proof (gated_route d q (has_MCP d) "mcp" SubMCP) as G1.
  pose proof (gated_route d q (has_OAuth d) "oauth" SubOAuth) as G2.
  repeat (case_goal; try done);
    destruct G1 as [?|[?|[? ?]]]; destruct G2 as [?|[?|[? ?]]]; simplify_eq/=; congruence.
Qed.

(** The alias redirect is the only thing the middleware adds. *)
Lemma New_cases d q :
  New d q = ServeHTTP d q
  \/ exists target, loopbackAliasRedirectTarget (canonicalControlOrigin d) q = Some target
       /\ New d q = RouteRedirect (if is_get_or_head (rq_Method q) then 302 else 307) target.
Proof. unfold New, canonicalOriginMiddleware. case_goal; eauto. Qed.

(** C21. Host routing keeps the platform and the guests apart: no platform
    subsystem and no function by path is served except at the control host, a
    guest is reached by host only at its own host, which is its DNS label in
    front of the function domain and not the control host, and never under the
    reserved prefix; and every function host is served, at its root and at
    [/api], [/auth] or [/dashboard] alike, by that function. *)
Theorem host_routing_isolation d q (Hmode : ControlURL d <> "" \/ FunctionDomain d <> "") :
  ((exists s, New d q = ToSubsystem s) \/ (exists o n, New d q = InvokeByPath o n) \/ New d q = Health ->
     exists h c, normalizedRequestHost (rq_Host q) = Some h /\ url_Parse (ControlURL d) = Some c
       /\ equal_fold h (url_Hostname c) = true)
  /\ (forall name host, New d q = InvokeByHost name host \/ New d q = InvokeCallback name host ->
       normalizedRequestHost (rq_Host q) = Some host
       /\ host = name +:+ domain_suffix (FunctionDomain d) /\ dns_label name
       /\ (forall c, url_Parse (ControlURL d) = Some c -> equal_fold host (url_Hostname c) = false)
       /\ (New d q = InvokeByHost name host -> has_prefix (rq_Path q) "/.funcbox/" = false))
  /\ (forall name c, New d q = ServeHTTP d q -> dns_label name -> url_Parse (ControlURL d) = Some c ->
       normalizedRequestHost (rq_Host q) = Some (name +:+ domain_suffix (FunctionDomain d)) ->
       equal_fold (name +:+ domain_suffix (FunctionDomain d)) (url_Hostname c) = false ->
       LandingURL d = "" -> has_Invoker d = true -> has_prefix (rq_Path q) "/.funcbox/" = false ->
       New d q = InvokeByHost name (name +:+ domain_suffix (FunctionDomain d))).
Proof.
  assert (Hby : ServeHTTP d q = serveByHost d q).
  { unfold ServeHTTP. destruct (ControlURL d == "") eqn:E1, (FunctionDomain d == "") eqn:E2; bool_facts; naive_solver. }
  split_and!.
  - intros Hs.
    destruct (New_cases d q) as [E|(t & _ & E)]; rewrite E in Hs; [|naive_solver].
    rewrite Hby in Hs. unfold serveByHost, not_implemented_yet in Hs.
    destruct (normalizedRequestHost (rq_Host q)) as [h|] eqn:Eh; [|naive_solver].
    destruct (url_Parse (ControlURL d)) as [c|] eqn:Ec; [|naive_solver].
    destruct (equal_fold h (url_Hostname c)) eqn:Ef; [by exists h, c|].
    exfalso. repeat case_match; naive_solver.
  - intros name host Hs.
    destruct (New_cases d q) as [E|(t & _ & E)]; rewrite E in *; [|naive_solver].
    rewrite Hby in *. unfold serveByHost, not_implemented_yet in *.
    destruct (normalizedRequestHost (rq_Host q)) as [h|] eqn:Eh; [|naive_solver].
    destruct (url_Parse (ControlURL d)) as [c|] eqn:Ec; [|naive_solver].
    destruct (equal_fold h (url_Hostname c)) eqn:Ef.
    { pose proof (control_never_by_host d q name host). tauto. }
    assert (exists n, managedFunctionName h (FunctionDomain d) = Some n /\ name = n /\ host = h) as (n & Hn & -> & ->).
    { repeat case_match; naive_solver. }
    apply managed_name_spec in Hn as [Hh Hl]. split_and!; try done; [naive_solver|].
    intros H. repeat case_match; naive_solver.
  - intros name c E Hl Hc Hh Hf Hlan Hi Hp. rewrite E, Hby. unfold serveByHost.
    rewrite Hh, Hc, Hf, Hlan, Hi. simpl.
    assert (managedFunctionName (name +:+ domain_suffix (FunctionDomain d)) (FunctionDomain d) = Some name) as ->
      by (apply managed_name_spec; done).
    simpl. destruct (rq_Path q == "/.funcbox/auth/callback") eqn:E3; bool_facts; [|by rewrite Hp].
    by rewrite E3 in Hp.
Qed.
End Addresses.

(** ** Owners and the platform's own paths *)

Section Owners.
Context {U : UnicodeTables}.

Lemma trim_left_app f x c y : f c = false ->
  trim_left_func f (x +:+ String c y) = trim_left_func f x +:+ String c y.
Proof. intros Hc. induction x as [|d x IH]; simpl; [by rewrite Hc|]. by destruct (f d). Qed.

Lemma trim_right_app f a c b : f c = false ->
  trim_right_func f ((a +:+ String c "") +:+ b) = (a +:+ String c "") +:+ trim_right_func f b.
Proof.
  intros Hc. unfold trim_right_func. rewrite !str_rev_append. change (str_rev (String c "")) with (String c "").
  change (String c "" +:+ str_rev a) with (String c (str_rev a)).
  rewrite (trim_left_app f _ c) by done. rewrite str_rev_append, str_rev_cons, str_rev_rev. done.
Qed.

Lemma trim_left_suffix f s : exists z, s = z +:+ trim_left_func f s.
Proof.
  induction s as [|c s [z Hz]]; simpl; [by exists ""|]. destruct (f c); [|by exists ""].
  exists (String c z). simpl. f_equal. exact Hz.
Qed.

Lemma trim_right_prefix f s : exists z, s = trim_right_func f s +:+ z.
Proof.
  unfold trim_right_func. destruct (trim_left_suffix f (str_rev s)) as [z Hz].
  exists (str_rev z). rewrite <- str_rev_append, <- Hz. symmetry. apply str_rev_rev.
Qed.

Definition no_slash (s : string) : Prop := str_forallb (fun d => negb (d =? "/")%char) s = true.

Lemma split_head o t : no_slash o -> split_byte (o +:+ String "/" t) "/" = o :: split_byte t "/".
Proof.
  induction o as [|c o IH]; intros H; [done|]. unfold no_slash in *. simpl in *. bool_facts.
  rewrite (IH H0), H. done.
Qed.

Lemma split_single o : no_slash o -> split_byte o "/" = [o].
Proof.
  induction o as [|c o IH]; intros H; [done|]. unfold no_slash in *. simpl in *. bool_facts.
  by rewrite (IH H0), H.
Qed.

(** [/a/b] followed by nothing or by a subpath splits into [a], [b] and more. *)
Lemma two_segments a b rest : no_slash a -> no_slash b -> a <> "" -> b <> "" ->
  (rest = "" \/ exists r, rest = String "/" r) ->
  exists more, pathSegments (String "/" (a +:+ String "/" (b +:+ rest))) = a :: b :: more.
Proof.
  intros Ha Hb Hna Hnb Hr.
  destruct (str_snoc_inv b Hnb) as (b0 & c & ->).
  assert (Hc : (c =? "/")%char = false).
  { unfold no_slash in Hb. rewrite str_forallb_app in Hb. simpl in Hb. by bool_facts. }
  assert (trim_slashes (String "/" (a +:+ String "/" ((b0 +:+ String c "") +:+ rest)))
    = a +:+ String "/" ((b0 +:+ String c "") +:+ trim_right_func (fun c => (c =? "/")%char) rest)) as E.
  { destruct a as [|d a]; [done|]. unfold no_slash in Ha. simpl in Ha. bool_facts.
    assert (forall r, String d a +:+ String "/" ((b0 +:+ String c "") +:+ r)
      = (String d (a +:+ String "/" b0) +:+ String c "") +:+ r) as Hr'.
    { intros r. simpl. by rewrite !str_app_assoc. }
    unfold trim_slashes.
    assert (forall x, trim_left_func (fun c => (c =? "/")%char) (String "/" (String d a +:+ x)) = String d a +:+ x)
      as -> by (intros x; simpl; by rewrite H).
    rewrite !Hr'. by apply trim_right_app. }
  unfold pathSegments. rewrite E.
  destruct (_ == "") eqn:E0; [by bool_facts; destruct a|].
  rewrite split_head by done.
  destruct (trim_right_prefix (fun c => (c =? "/")%char) rest) as [z Hz].
  destruct Hr as [->|[r ->]].
  - exists []. assert (trim_right_func (fun c => (c =? "/")%char) "" = "") as -> by done.
    rewrite str_app_nil_r, split_single by done. done.
  - destruct (trim_right_func _ (String "/" r)) as [|x t].
    + exists []. by rewrite str_app_nil_r, split_single.
    + simpl in Hz. injection Hz as <- _. rewrite split_head by done. eauto.
Qed.

(** A function addressed by path is reached by its invoker, with any subpath,
    whoever owns it: no owner that [ValidateUserID] admits is shadowed by a
    platform route, except that an owner named [mcp] or [oauth] always is, for
    the reserved names lack both. *)
Theorem owner_paths d q owner name rest
    (Howner : ValidateUserID owner = Ok tt) (Hname : dns_label name)
    (Hrest : rest = "" \/ exists r, rest = String "/" r) (Hinv : has_Invoker d = true)
    (Hpath : rq_Path q = String "/" (owner +:+ String "/" (name +:+ rest))) :
  serveControl d q = InvokeByPath owner name <-> owner <> "mcp" /\ owner <> "oauth".
Proof.
  apply validateDNSLabel_spec in Howner as [Hl Hr].
  assert (forall s, dns_label s -> no_slash s /\ s <> "") as Hdns.
  { intros s (Hlen & Hc & _). split; [|intros ->; unfold str_len in Hlen; simpl in Hlen; lia].
    revert Hc. apply str_forallb_impl. intros c. unfold name_char.
    destruct (c =? "/")%char eqn:E; [|done]. by apply Ascii.eqb_eq in E as ->. }
  destruct (Hdns _ Hl) as [Hs Hne], (Hdns _ Hname) as [Hs' Hne'].
  destruct (two_segments owner name rest Hs Hs' Hne Hne' Hrest) as [more Hseg].
  assert (forall t, IsReserved t = true -> (owner == t) = false) as Hres.
  { intros t Ht. apply String.eqb_neq. intros ->; congruence. }
  assert ((owner == ".well-known") = false) as Hwk.
  { apply String.eqb_neq. intros ->. destruct Hl as (_ & Hl & _). done. }
  unfold serveControl. rewrite !Hpath, Hseg.
  assert ((String "/" (owner +:+ String "/" (name +:+ rest)) == "/") = false) as ->.
  { apply String.eqb_neq. by destruct owner. }
  assert ((String "/" (owner +:+ String "/" (name +:+ rest)) == "/healthz") = false) as ->.
  { apply String.eqb_neq. intros E. injection E as E.
    apply (f_equal (fun s => contains_byte s "/")) in E. rewrite contains_byte_spec, str_forallb_app in E.
    simpl in E. by rewrite andb_false_r in E. }
  rewrite !(Hres "api"), !(Hres "dashboard"), !(Hres "metrics"), !(Hres "auth"), !(Hres "dev") by done.
  unfold reservedRoutes. simpl. rewrite (Hres "assets"), Hwk, Hinv by done. simpl.
  pose proof (gated_route d q (has_MCP d) "mcp" SubMCP) as G1.
  pose proof (gated_route d q (has_OAuth d) "oauth" SubOAuth) as G2.
  destruct (owner == "mcp") eqn:E1; bool_facts.
  { split; [|naive_solver]. intros E. exfalso. destruct G1 as [G|[G|[? G]]]; congruence. }
  destruct (owner == "oauth") eqn:E2; bool_facts; simpl.
  { split; [|naive_solver]. intros E. exfalso. destruct G2 as [G|[G|[? G]]]; congruence. }
  done.
Qed.
End Owners.

(** ** Loopback aliases *)

Section Aliases.
Context {U : UnicodeTables}.

Definition lacks (c : ascii) (s : string) : Prop := str_forallb (fun d => negb (d =? c)%char) s = true.

Lemma lacks_app c s t : lacks c (s +:+ t) <-> lacks c s /\ lacks c t.
Proof. unfold lacks. rewrite str_forallb_app. apply andb_true_iff. Qed.
Lemma lacks_cons c d s : lacks c (String d s) <-> d <> c /\ lacks c s.
Proof. unfold lacks. simpl. by rewrite andb_true_iff, negb_true_iff, Ascii.eqb_neq. Qed.
Lemma lacks_contains c s : lacks c s -> contains_byte s c = false.
Proof. intros H. rewrite contains_byte_spec. by apply negb_false_iff. Qed.
Lemma lacks_digits c s : is_digit c = false -> str_forallb is_digit s = true -> lacks c s.
Proof.
  intros Hc. apply str_forallb_impl. intros d Hd. apply negb_true_iff, Ascii.eqb_neq. congruence.
Qed.

Lemma hex_val_range c : is_hex c = true -> 0 <= hex_val c < 16.
Proof. destruct c as [[] [] [] [] [] [] [] []]; vm_compute; intuition discriminate. Qed.

(** A byte escaped in a host is of 128 or more, or a percent sign. *)
Lemma escaped_host_byte h l c : is_hex h = true -> is_hex l = true -> escape_ok EscHost h l = true ->
  byte_val c < 128 -> byte_val c <> 37 -> ascii_of_nat (Z.to_nat (hex_val h * 16 + hex_val l)) <> c.
Proof.
  intros Hh Hl Hok Hc Hn E. apply hex_val_range in Hh, Hl. unfold escape_ok in Hok.
  assert (byte_val c = hex_val h * 16 + hex_val l) as Hv.
  { rewrite <- E. unfold byte_val. rewrite nat_ascii_embedding; lia. }
  bool_facts. destruct Hok as [H|H]; bool_facts; lia.
Qed.

Lemma unescape_lacks c s t : byte_val c < 128 -> byte_val c <> 37 ->
  lacks c s -> unescape EscHost s = Some t -> lacks c t.
Proof.
  intros Hc Hn. remember (String.length s) as n eqn:En.
  revert s t En. induction n as [n IH] using lt_wf_ind. intros s t -> Hl H.
  destruct s as [|d s]; [by injection H as <-|]. apply lacks_cons in Hl as [Hd Hl]. simpl in H.
  destruct (d =? "%")%char.
  - destruct s as [|h [|l s]]; try done. apply lacks_cons in Hl as [_ Hl]. apply lacks_cons in Hl as [_ Hl].
    case_all H. destruct (unescape EscHost s) as [t'|] eqn:Et; [|done]. injection H as <-. rename E into Ee. apply andb_true_iff in Ee as [Ee ?]. apply andb_true_iff in Ee as [? ?].
    apply lacks_cons. split; [by apply escaped_host_byte|]. eapply IH; [|done|done|done]. simpl. lia.
  - case_all H. destruct (unescape EscHost s) as [t'|] eqn:Et; [|done]. injection H as <-.
    apply lacks_cons. split; [done|]. eapply IH; [|done|done|done]. simpl. lia.
Qed.

Lemma unescape_app_byte c s p t : is_hex c = false -> c <> "%"%char ->
  unescape EscHost (s +:+ String c p) = Some t ->
  exists a b, unescape EscHost s = Some a /\ unescape EscHost p = Some b /\ t = a +:+ String c b.
Proof.
  intros Hc Hp. remember (String.length s) as n eqn:En.
  revert s t En. induction n as [n IH] using lt_wf_ind. intros s t -> H.
  destruct s as [|d s].
  - simpl in H. apply Ascii.eqb_neq in Hp. rewrite Hp in H. case_all H.
    destruct (unescape EscHost p) as [b|]; [|done]. injection H as <-. by exists "", b.
  - simpl in H |- *. destruct (d =? "%")%char.
    + destruct s as [|h [|l s]]; simpl in H.
      * destruct p; [done|]. by rewrite Hc in H.
      * rewrite Hc, andb_false_r in H. done.
      * case_all H. destruct (unescape EscHost (s +:+ String c p)) as [t'|] eqn:Et; [|done]. injection H as <-.
        destruct (IH (String.length s) ltac:(simpl; lia) s t' eq_refl Et) as (a & b & -> & -> & ->).
        by eexists _, b.
    + case_all H. destruct (unescape EscHost (s +:+ String c p)) as [t'|] eqn:Et; [|done]. injection H as <-.
      destruct (IH (String.length s) ltac:(simpl; lia) s t' eq_refl Et) as (a & b & -> & -> & ->).
      by eexists _, b.
Qed.

Lemma unescape_digits s t : str_forallb is_digit s = true -> unescape EscHost s = Some t -> t = s.
Proof.
  revert t. induction s as [|c s IH]; intros t Hd H; [by injection H as <-|]. simpl in *. bool_facts.
  destruct (c =? "%")%char eqn:E; [by apply Ascii.eqb_eq in E as ->|]. case_all H.
  destruct (unescape EscHost s) as [t'|] eqn:Et; [|done]. injection H as <-. f_equal. by apply IH.
Qed.

(** A parsed host: a bracketed literal, or a name, each with an optional port. *)
Definition port_suffix (p : string) : Prop := p = "" \/ exists d, p = String ":" d /\ str_forallb is_digit d = true.

Lemma valid_port_suffix p : validOptionalPort p = true <-> port_suffix p.
Proof.
  unfold port_suffix. destruct p as [|c p]; simpl; [by split; auto|].
  rewrite andb_true_iff, Ascii.eqb_eq. split; [intros [-> H]; eauto|].
  intros [H|(d & H & Hd)]; [done|]. by injection H as -> ->.
Qed.

Lemma parseHost_shape host h : parseHost host = Some h ->
  exists n p, port_suffix p
    /\ (h = "[" +:+ (n +:+ ("]" +:+ p)) \/ h = n +:+ p /\ lacks ":" n /\ lacks "[" n).
Proof.
  unfold parseHost. pose proof (last_index_split host "[") as Hb.
  destruct (last_index_byte host "[") as [o|].
  - intros H. case_all H; injection H as <-; bool_facts;
      (eexists _, _; split; [by apply valid_port_suffix|]; left; reflexivity).
  - change (lacks "[" host) in Hb. destruct (index_byte host ":") as [i|] eqn:Ei; intros H.
    + case_all H.
      assert (cut_byte host ":" = (str_take i host, str_drop (S i) host, true)) as Ecut
        by (unfold cut_byte; by rewrite Ei).
      apply cut_byte_found in Ecut as [Eh Hl]. change (lacks ":" (str_take i host)) in Hl.
      rewrite Eh in H, Hb. apply lacks_app in Hb as [Hb _].
      apply unescape_app_byte in H as (a & b & Ha & Hp & ->); [|done|done].
      assert (str_forallb is_digit (str_drop (S i) host) = true) as Hd.
      { assert (str_drop i host = String ":" (str_drop (S i) host)) as Hs.
        { rewrite Eh at 1. assert (i = String.length (str_take i host)) as Hi.
          { rewrite str_length_take. apply (f_equal String.length) in Eh.
            rewrite str_length_app in Eh. cbn [String.length] in Eh. rewrite str_length_take, str_length_drop in Eh. lia. }
          rewrite Hi at 1. by rewrite str_drop_app. }
        rewrite Hs in E. simpl in E. done. }
      apply unescape_digits in Hp as ->; [|done].
      exists a, (String ":" (str_drop (S i) host)). split; [right; eauto|]. right. split; [done|].
      split; eapply unescape_lacks; try done; by vm_compute.
    + exists h, "". split; [by left|]. right. rewrite str_app_nil_r. split; [done|].
      assert (lacks ":" host) as Hc.
      { pose proof (contains_byte_spec host ":") as Hs. unfold contains_byte in Hs. rewrite Ei in Hs.
        symmetry in Hs. by apply negb_false_iff in Hs. }
      split; eapply unescape_lacks; try done; by vm_compute.
Qed.
Lemma parseAuthority_host a o h : parseAuthority a = Some (o, h) -> exists host, parseHost host = Some h.
Proof.
  unfold parseAuthority. intros H. repeat case_step H; simplify_eq; eauto.
  apply fmap_Some in H as (x & Hx & [= _ ->]). eauto.
Qed.

Lemma url_Parse_host raw u : url_Parse raw = Some u ->
  u_Host u = "" \/ exists host, parseHost host = Some (u_Host u).
Proof.
  unfold url_Parse. destruct (cut_byte raw "#") as [[x frag] ?].
  destruct (parse_url x false) as [v|] eqn:E; [|done]. destruct (unescape EscFragment frag); [|done].
  intros [= <-]. cbn [u_Host].
  unfold parse_url in E. repeat case_step E; try (injection E as <-; by left).
  all: apply fmap_Some in E as (? & ? & ->); cbn [u_Host].
  all: first [by left | right; eapply parseAuthority_host; eassumption].
Qed.

(** The loopback aliases have neither brackets nor upper case. *)
Lemma alias_lacks a s c : isLoopbackHost a = true -> str_map byte_lower s = a ->
  c = "["%char \/ c = "]"%char -> lacks c s.
Proof.
  intros Ha Hs Hc.
  assert (lacks c (str_map byte_lower s)) as Hl.
  { rewrite Hs. unfold isLoopbackHost in Ha. simpl in Ha.
    destruct Hc as [->| ->]; bool_facts; repeat (destruct Ha as [Ha|Ha]; bool_facts);
      try discriminate Ha; rewrite Ha; vm_compute; reflexivity. }
  clear Ha Hs. induction s as [|d s IH]; [done|]. simpl in Hl. apply lacks_cons in Hl as [Hd Hl].
  apply lacks_cons. split; [|auto]. intros ->. apply Hd. by destruct Hc as [->| ->].
Qed.

Lemma index_lacks c s : lacks c s -> index_byte s c = None.
Proof.
  intros H. apply lacks_contains in H. unfold contains_byte in H. by destruct (index_byte s c).
Qed.

Lemma lacks_bytes_ascii s p q : is_ascii (s +:+ (p +:+ q)) = true -> is_ascii p = true.
Proof. rewrite !is_ascii_app. intros. by bool_facts. Qed.

Lemma port_suffix_facts p : port_suffix p ->
  lacks "[" p /\ lacks "]" p /\ is_ascii p = true.
Proof.
  intros [->|(d & -> & Hd)]; [done|].
  split_and!; try (apply lacks_cons; split; [done|by apply lacks_digits]).
  unfold is_ascii. simpl. revert Hd. apply str_forallb_impl. intros c.
  destruct c as [[] [] [] [] [] [] [] []]; vm_compute; intros Hc; done.
Qed.

Lemma last_colon_port n p : port_suffix p -> lacks "]" p ->
  validOptionalPort p = true /\
  (url_split_host_port ("[" +:+ (n +:+ ("]" +:+ p)))).1 = n.
Proof.
  intros Hp Hl. split; [by apply valid_port_suffix|]. unfold url_split_host_port.
  set (h := "[" +:+ (n +:+ ("]" +:+ p))).
  assert (forall x : string, (if has_prefix ("[" +:+ (n +:+ "]")) "[" && has_suffix ("[" +:+ (n +:+ "]")) "]"
    then (str_take (String.length ("[" +:+ (n +:+ "]")) - 2) (str_drop 1 ("[" +:+ (n +:+ "]"))), x)
    else ("[" +:+ (n +:+ "]"), x)).1 = n) as Hn.
  { intros x.
    assert (has_prefix ("[" +:+ (n +:+ "]")) "[" = true) as -> by (apply has_prefix_spec; eauto).
    assert (has_suffix ("[" +:+ (n +:+ "]")) "]" = true) as ->
      by (apply has_suffix_spec; exists ("[" +:+ n); by rewrite str_app_assoc).
    simpl. rewrite str_length_app. simpl.
    replace (String.length n + 1 - 1)%nat with (String.length n) by lia. apply str_take_app. }
  destruct Hp as [->|(d & -> & Hd)].
  - unfold h. rewrite str_app_nil_r. pose proof (last_index_split ("[" +:+ (n +:+ "]")) ":") as Hs.
    destruct (last_index_byte ("[" +:+ (n +:+ "]")) ":") as [i|]; [|apply Hn].
    destruct Hs as (a & r & Hs & <- & Hr).
    assert (validOptionalPort (str_drop (String.length a) ("[" +:+ (n +:+ "]"))) = false) as ->; [|apply Hn].
    rewrite Hs, str_drop_app. simpl. apply not_true_iff_false. intros Hd.
    destruct (str_snoc_inv r) as (r0 & c & ->).
    { intros ->. change ("[" +:+ (n +:+ "]")) with (("[" +:+ n) +:+ "]") in Hs.
      apply (f_equal str_rev) in Hs. by rewrite !str_rev_snoc in Hs. }
    change ("[" +:+ (n +:+ "]")) with (("[" +:+ n) +:+ "]") in Hs.
    change (String ":" (r0 +:+ String c "")) with (String ":" r0 +:+ String c "") in Hs.
    rewrite <- str_app_assoc in Hs. apply (f_equal str_rev) in Hs. rewrite !str_rev_snoc in Hs.
    injection Hs as <- _. rewrite str_forallb_app in Hd. simpl in Hd. by rewrite andb_false_r in Hd.
  - assert (h = ("[" +:+ (n +:+ "]")) +:+ String ":" d) as ->
      by (unfold h; by rewrite !str_app_assoc).
    rewrite last_index_app by (by apply lacks_digits).
    rewrite str_drop_app, str_take_app. simpl validOptionalPort. rewrite Hd. simpl andb. apply Hn.
Qed.
Definition is_alias (s : string) : Prop := isLoopbackHost (str_map byte_lower s) = true.

Lemma alias_trim a : isLoopbackHost a = true -> trim_prefix (trim_suffix a "]") "[" = a.
Proof.
  unfold isLoopbackHost. simpl. intros Ha. bool_facts.
  repeat (destruct Ha as [Ha|Ha]; bool_facts); try discriminate Ha; subst; reflexivity.
Qed.

(** A literal: what [net.SplitHostPort], or the fallback, makes of it. *)
Lemma request_host_bracketed n p : port_suffix p -> is_alias n -> is_ascii n = true ->
  (splitRequestHost ("[" +:+ (n +:+ ("]" +:+ p)))).1 = str_map byte_lower n.
Proof.
  intros Hp Ha Hasc. destruct (port_suffix_facts p Hp) as (Hp1 & Hp2 & Hp3).
  assert (lacks "[" n) as Hn1 by (eapply alias_lacks; eauto).
  assert (lacks "]" n) as Hn2 by (eapply alias_lacks; eauto).
  unfold splitRequestHost. destruct Hp as [->|(d & -> & Hd)].
  - assert (exists e, SplitHostPort ("[" +:+ (n +:+ ("]" +:+ ""))) = Err e) as [e ->].
    { unfold SplitHostPort. destruct (last_index_byte _ _); [|by eexists].
      assert (has_prefix ("[" +:+ (n +:+ "]" +:+ "")) "[" = true) as -> by (apply has_prefix_spec; eauto).
      assert (index_byte ("[" +:+ (n +:+ "]" +:+ "")) "]" = Some (S (String.length n))) as ->.
      { simpl. by rewrite index_byte_app. }
      assert ((S (S (String.length n)) =? String.length ("[" +:+ (n +:+ "]" +:+ "")))%nat = true) as ->.
      { apply Nat.eqb_eq. simpl. rewrite str_length_app. simpl. lia. }
      by eexists. }
    cbn [fst]. unfold to_lower.
    assert (is_ascii ("[" +:+ (n +:+ ("]" +:+ ""))) = true) as -> by (rewrite !is_ascii_app, Hasc; reflexivity).
    rewrite !str_map_app.
    change (str_map byte_lower "[" +:+ (str_map byte_lower n +:+ (str_map byte_lower "]" +:+ str_map byte_lower "")))
      with (("[" +:+ str_map byte_lower n) +:+ "]").
    rewrite trim_suffix_app. apply (trim_prefix_app _ "[").
  - assert (SplitHostPort ("[" +:+ (n +:+ ("]" +:+ String ":" d))) = Ok (n, d)) as ->.
    { unfold SplitHostPort.
      replace ("[" +:+ (n +:+ ("]" +:+ String ":" d))) with (("[" +:+ (n +:+ "]")) +:+ String ":" d)
        by (by rewrite !str_app_assoc).
      rewrite last_index_app by (by apply lacks_digits).
      assert (has_prefix (("[" +:+ (n +:+ "]")) +:+ String ":" d) "[" = true) as -> by (apply has_prefix_spec; eauto).
      replace (index_byte (("[" +:+ (n +:+ "]")) +:+ String ":" d) "]") with (Some (S (String.length n)))
        by (simpl; rewrite str_app_assoc; simpl; by rewrite index_byte_app).
      assert ((S (S (String.length n)) =? String.length (("[" +:+ (n +:+ "]")) +:+ String ":" d))%nat = false) as ->.
      { apply Nat.eqb_neq. simpl. rewrite !str_length_app. simpl. lia. }
      assert ((S (S (String.length n)) =? String.length ("[" +:+ (n +:+ "]")))%nat = true) as ->.
      { apply Nat.eqb_eq. simpl. rewrite str_length_app. simpl. lia. }
      rewrite str_drop_S_app.
      assert (lacks "[" (str_drop 1 (("[" +:+ (n +:+ "]")) +:+ String ":" d))) as Hl1.
      { simpl. apply lacks_app. split; [|done]. apply lacks_app. by split. }
      rewrite (lacks_contains "[" _ Hl1).
      replace (str_drop (S (S (String.length n))) (("[" +:+ (n +:+ "]")) +:+ String ":" d)) with (String ":" d).
      2: { change (str_drop (S (S (String.length n))) (("[" +:+ (n +:+ "]")) +:+ String ":" d))
             with (str_drop (S (String.length n)) ((n +:+ "]") +:+ String ":" d)).
           replace (S (String.length n)) with (String.length (n +:+ "]")) by (rewrite str_length_app; simpl; lia).
           by rewrite str_drop_app. }
      rewrite (lacks_contains "]" _ Hp2). do 2 f_equal. simpl.
      rewrite Nat.sub_0_r, str_app_assoc. apply str_take_app. }
    cbn [fst]. unfold to_lower. by rewrite Hasc.
Qed.

Lemma request_host_named n p : port_suffix p -> lacks ":" n -> is_alias n -> is_ascii n = true ->
  (splitRequestHost (n +:+ p)).1 = str_map byte_lower n.
Proof.
  intros Hp Hc Ha Hasc.
  assert (lacks "[" n) as Hn1 by (eapply alias_lacks; eauto).
  assert (lacks "]" n) as Hn2 by (eapply alias_lacks; eauto).
  assert (forall r, n <> String "[" r) as Hnb.
  { intros r ->. by apply lacks_cons in Hn1 as [? _]. }
  unfold splitRequestHost, SplitHostPort. destruct Hp as [->|(d & -> & Hd)].
  - rewrite str_app_nil_r, last_index_none by done.
    cbn [fst]. unfold to_lower. rewrite Hasc. by apply alias_trim.
  - rewrite last_index_app by (by apply lacks_digits). rewrite str_take_app, str_drop_S_app.
    assert (has_prefix (n +:+ String ":" d) "[" = false) as ->.
    { apply not_true_iff_false. intros E. apply has_prefix_spec in E as [r E]. destruct n as [|x n]; [done|].
      injection E as -> _. by destruct (Hnb n). }
    rewrite (lacks_contains ":" n Hc).
    change (str_drop 0 (n +:+ String ":" d)) with (n +:+ String ":" d).
    rewrite !lacks_contains by (apply lacks_app; split; [done|]; apply lacks_cons; split; [done|]; by apply lacks_digits).
    cbn [fst]. unfold to_lower. by rewrite Hasc.
Qed.

(** What a client sends as Host for a parsed URL names the same alias. *)
Lemma same_alias raw u : url_Parse raw = Some u -> is_ascii (u_Host u) = true ->
  isLoopbackHost (to_lower (url_Hostname u)) = true ->
  (splitRequestHost (u_Host u)).1 = to_lower (url_Hostname u).
Proof.
  intros Hu Hasc Ha. unfold url_Hostname in *.
  destruct (url_Parse_host raw u Hu) as [E|[host Hh]]; [by rewrite E in *|].
  apply parseHost_shape in Hh as (n & p & Hp & Hs). destruct (port_suffix_facts p Hp) as (_ & Hp2 & _).
  destruct Hs as [E|(E & Hc & Hb)]; rewrite E in *; rewrite !is_ascii_app in Hasc; bool_facts.
  - destruct (last_colon_port n p Hp Hp2) as [_ Hn]. rewrite Hn in *. unfold to_lower in *.
    assert (is_ascii n = true) as Hna by done. rewrite Hna in *. by apply request_host_bracketed.
  - assert ((url_split_host_port (n +:+ p)).1 = n) as Hn.
    { unfold url_split_host_port. destruct (has_prefix n "[") eqn:E0.
      { apply has_prefix_spec in E0 as [r ->]. by apply lacks_cons in Hb as [? _]. }
      destruct Hp as [->|(d & -> & Hd)].
      - rewrite str_app_nil_r, last_index_none by done. by rewrite E0.
      - rewrite last_index_app by (by apply lacks_digits). rewrite str_drop_app, str_take_app.
        simpl validOptionalPort. rewrite Hd, E0. done. }
    rewrite Hn in *. unfold to_lower in *. assert (is_ascii n = true) as Hna by done. rewrite Hna in *.
    by apply request_host_named.
Qed.
(** The normalization of loopback aliases settles after one redirect: a
    redirected request is sent to the canonical origin with its own path and
    query, with its method and body unless it is a GET or HEAD; the paths whose
    clients use no cookies are never redirected; and a request that names the
    canonical origin's host, as the redirected client's does, reaches the
    router, whatever its path, method or query. *)
Theorem canonical_redirect_settles d q target :
  loopbackAliasRedirectTarget (canonicalControlOrigin d) q = Some target ->
  New d q = RouteRedirect (if is_get_or_head (rq_Method q) then 302 else 307) target
  /\ alias_exempt (rq_Path q) = false
  /\ exists u, url_Parse (canonicalControlOrigin d) = Some u
       /\ target = trim_suffix (canonicalControlOrigin d) "/" +:+ rq_URI q
       /\ (is_ascii (u_Host u) = true ->
           forall q', rq_Host q' = u_Host u -> New d q' = ServeHTTP d q').
Proof.
  intros H. split; [unfold New, canonicalOriginMiddleware; by rewrite H|].
  unfold loopbackAliasRedirectTarget in H.
  destruct (canonicalControlOrigin d == "") eqn:E0; [done|].
  destruct (alias_exempt (rq_Path q)) eqn:E1; [done|]. split; [done|].
  destruct (url_Parse (canonicalControlOrigin d)) as [u|] eqn:Eu; [|done].
  destruct (url_Hostname u == "") eqn:E2; [done|].
  destruct (isLoopbackHost (to_lower (url_Hostname u))) eqn:E3; [|done].
  exists u. split; [done|]. split; [simpl in H; case_all H; by injection H as <-|].
  intros Hasc q' Hq'. unfold New, canonicalOriginMiddleware, loopbackAliasRedirectTarget.
  rewrite E0, Eu, E2, E3, Hq'.
  pose proof (same_alias _ _ Eu Hasc E3) as Hs. destruct (splitRequestHost (u_Host u)) as [h p].
  simpl in Hs. rewrite Hs, String.eqb_refl, orb_true_r. destruct (alias_exempt (rq_Path q')); reflexivity.
Qed.
End Aliases.

(** ** Witnesses *)

Definition host_deps : Deps :=
  mkDeps true true true false true false true true None
    "https://dash.example.com" "fn.example.com" "" "https://dash.example.com".
Definition alias_deps : Deps :=
  mkDeps true true true false true false true true None "" "" "" "http://127.0.0.1:8093/".

(** A guest owns every path of its host, the platform's names included. *)
Lemma host_routing_isolation_witness :
  New (U := ascii_tables) host_deps (mkRoute "GET" "Hello.fn.example.com:443" "/api/v1/me" "/api/v1/me")
    = InvokeByHost "hello" "hello.fn.example.com"
  /\ equal_fold (U := ascii_tables) "hello.fn.example.com" "dash.example.com" = false.
Proof.
  assert (ControlURL host_deps <> "" \/ FunctionDomain host_deps <> "") as Hm by (by left).
  assert (dns_label "hello") as Hl by (apply nameRE_spec; vm_compute; reflexivity).
  destruct (host_routing_isolation (U := ascii_tables) host_deps
    (mkRoute "GET" "Hello.fn.example.com:443" "/api/v1/me" "/api/v1/me") Hm) as (_ & H2 & H3).
  split.
  - eapply (H3 "hello"); try exact Hl; vm_compute; reflexivity.
  - destruct (H2 "hello" "hello.fn.example.com") as (_ & _ & _ & H & _); [left; vm_compute; reflexivity|].
    apply (H (mkURL "https" "" None "dash.example.com" "" "" "")). vm_compute. reflexivity.
Defined.

Lemma owner_paths_witness :
  serveControl host_deps (mkRoute "GET" "dash.example.com" "/alice/hello/a/b" "/alice/hello/a/b")
    = InvokeByPath "alice" "hello"
  /\ ValidateUserID "mcp" = Ok tt
  /\ serveControl host_deps (mkRoute "GET" "dash.example.com" "/mcp/hello" "/mcp/hello")
     <> InvokeByPath "mcp" "hello".
Proof.
  assert (dns_label "hello") as Hl by (apply nameRE_spec; vm_compute; reflexivity).
  split; [|split; [vm_compute; reflexivity|]].
  - apply (owner_paths host_deps _ "alice" "hello" "/a/b"); try (vm_compute; reflexivity); [done|by eauto|done].
  - intros H. apply (owner_paths host_deps _ "mcp" "hello" "") in H; try (vm_compute; reflexivity);
      [by destruct H|done|by left].
Defined.

Lemma canonical_redirect_settles_witness :
  New (U := ascii_tables) alias_deps (mkRoute "POST" "localhost:8093" "/auth/login" "/auth/login?a=b")
    = RouteRedirect 307 "http://127.0.0.1:8093/auth/login?a=b"
  /\ New (U := ascii_tables) alias_deps (mkRoute "POST" "127.0.0.1:8093" "/auth/login" "/auth/login?a=b")
     = ServeHTTP (U := ascii_tables) alias_deps (mkRoute "POST" "127.0.0.1:8093" "/auth/login" "/auth/login?a=b").
Proof.
  destruct (canonical_redirect_settles (U := ascii_tables) alias_deps
    (mkRoute "POST" "localhost:8093" "/auth/login" "/auth/login?a=b")
    "http://127.0.0.1:8093/auth/login?a=b" ltac:(vm_compute; reflexivity)) as (H1 & _ & u & Hu & _ & H2).
  split; [exact H1|].
  assert (u = mkURL "http" "" None "127.0.0.1:8093" "/" "" "") as ->.
  { assert (Some u = Some (mkURL "http" "" None "127.0.0.1:8093" "/" "" "")) as E
      by (rewrite <- Hu; vm_compute; reflexivity). by injection E. }
  apply H2; reflexivity.
Defined.
