(* ===== verification/ServerConfig.v ===== *)
(** * ServerConfig: the server's configuration

    Models src/server/internal/config/config.go: reading the environment, the checks
    on origins and the function domain, and the addresses of functions. The public
    suffix list is a parameter. *)

From S2P Require Import Prelude GoNet GoURL GoNum GoHTTP Manifest Routes.

Definition DefaultAddr : string := ":8080".
Definition DefaultInvokeTimeout : Z := 30 * Second.
Definition DefaultPoolMaxFunctions : Z := 10.

(** [Config]; [c_ControlURL] and its like are [""] when unset. *)
Record Config := mkConfig {
  c_Addr : string;
  c_BaseURL : string;
  c_ControlURL : string;
  c_FunctionDomain : string;
  c_LandingURL : string;
  c_OriginProfile : string;
  c_DB : string;
  c_Blob : string;
  c_InvokeTimeout : Z;
  c_PoolMaxFunctions : Z;
  c_AuthMode : string;
  c_AuthProvider : string;
  c_GoogleClientID : string;
  c_GoogleClientSecret : string;
  c_GitHubClientID : string;
  c_GitHubClientSecret : string;
  c_SessionSecret : string;
  c_DashboardDistDir : string;
  c_OpenMode : bool
}.

(** The errors of [FromEnv], by what they say; [PanicNil] is the dereference of a
    URL that did not parse. *)
Inductive ConfigErr :=
| EmptyAddr
| BaseAndControlDiffer
| BadOrigin (name raw : string)
| BadScheme (name raw : string)
| NoHostname (name raw : string)
| BadDNSName (name raw : string)
| BadDNSLabel (name raw : string)
| BadProfile (profile : string)
| ControlAndDomainTogether
| ControlCollides (host : string)
| LandingIsControl
| ControlNotHTTPS
| NotRegistrable
| NotSameSite
| NotCrossSite
| BadTimeout (raw : string)
| TimeoutNotPositive (raw : string)
| BadPoolSize (raw : string)
| PoolSizeNegative (raw : string)
| BadAuthMode (mode : string)
| BadAuthProvider (provider : string)
| PanicNil.

(** ** [url.URL.String] of what is left of an origin *)

(** [escape(host, encodeHost)] *)
Definition escape_host_byte (c : ascii) : string :=
  if host_byte c then String c ""
  else String "%" (String (upper_hex (byte_val c / 16)) (String (upper_hex (byte_val c mod 16)) "")).
Fixpoint escape_host (s : string) : string :=
  match s with
  | "" => ""
  | String c s => escape_host_byte c +:+ escape_host s
  end.

(** [ForceQuery]: the URL ends with its only question mark. *)
Definition force_query (raw : string) : bool :=
  let u := (cut_byte raw "#").1.1 in
  has_suffix u "?" && (count_byte u "?" =? 1)%nat.

Section Config.
Context {U : UnicodeTables} (EffectiveTLDPlusOne : string -> option string).

Definition parseOrigin (name raw : string) (allowHTTP : bool) : result ConfigErr string :=
  match url_Parse raw with
  | None => Err (BadOrigin name raw)
  | Some u =>
      guard! negb ((u_Scheme u == "") || (u_Host u == "") || bool_decide (u_User u <> None)
                   || negb (u_Path u == "") || negb (u_RawQuery u == "") || negb (u_Fragment u == ""))
        else BadOrigin name raw in
      guard! (u_Scheme u == "https") || allowHTTP && (u_Scheme u == "http") else BadScheme name raw in
      guard! negb (url_Hostname u == "") else NoHostname name raw in
      Ok (trim_suffix (u_Scheme u +:+ "://" +:+ escape_host (to_lower (u_Host u))
                       +:+ (if force_query raw then "?" else "")) "/")
  end.

Definition no_dns_byte (c : ascii) : bool :=
  contains_byte "/:@[] \" c || (c =? "009")%char || (c =? "013")%char || (c =? "010")%char.

Definition dns_label_ok (label : string) : bool :=
  negb (label == "") && (str_len label <=? 63) && negb (has_prefix label "-") && negb (has_suffix label "-")
  && str_forallb (fun c => is_lower c || is_digit c || (c =? "-")%char) label.

Definition parseDNSName (name raw : string) : result ConfigErr string :=
  let domain := to_lower (trim_suffix raw ".") in
  guard! negb ((domain == "") || str_existsb no_dns_byte raw || bool_decide (ParseIP domain <> None)
               || (253 <? str_len domain)) else BadDNSName name raw in
  guard! forallb dns_label_ok (split_byte domain ".") else BadDNSLabel name raw in
  Ok domain.

(** [validateHosting], the landing origin apart. *)
Definition control_collides (control : URL) (domain : string) : bool :=
  let host := url_Hostname control in
  (equal_fold host domain
   || has_suffix (to_lower host) ("." +:+ domain)
      && (count_byte host "." =? count_byte domain "." + 1)%nat)
  && negb (trim_suffix (to_lower host) ("." +:+ domain) == "dashboard").

Definition check_landing (control : URL) (landingURL : string) : result ConfigErr unit :=
  if landingURL == "" then Ok tt
  else match url_Parse landingURL with
       | None => Err PanicNil
       | Some landing => guard! negb (equal_fold (u_Host landing) (u_Host control)) else LandingIsControl in Ok tt
       end.

Definition check_profile (profile : string) (control : URL) (domain : string) : result ConfigErr unit :=
  if profile == "development" then Ok tt
  else
    guard! u_Scheme control == "https" else ControlNotHTTPS in
    match EffectiveTLDPlusOne (url_Hostname control), EffectiveTLDPlusOne domain with
    | Some controlSite, Some functionSite =>
        let sameSite := equal_fold controlSite functionSite in
        guard! negb ((profile == "same-site") && negb sameSite) else NotSameSite in
        guard! negb ((profile == "cross-site") && sameSite) else NotCrossSite in
        Ok tt
    | _, _ => Err NotRegistrable
    end.

Definition validateHosting (controlURL domain landingURL profile : string) : result ConfigErr unit :=
  if (controlURL == "") && (domain == "") && (landingURL == "") then Ok tt
  else if (controlURL == "") || (domain == "") then Err ControlAndDomainTogether
  else match url_Parse controlURL with
       | None => Err PanicNil
       | Some control =>
           guard! negb (control_collides control domain) else ControlCollides (url_Hostname control) in
           let! _ := check_landing control landingURL in
           check_profile profile control domain
       end.

(** [FromEnv] by its parts: the address, the origins, the numbers, the modes. *)
Section FromEnv.
Context (env : string -> option string).

Definition Getenv (k : string) : string := default "" (env k).

Definition read_addr : result ConfigErr string :=
  match env "FUNCBOX_ADDR" with
  | None => Ok DefaultAddr
  | Some v => if v == "" then Err EmptyAddr else Ok v
  end.

(** The base URL and the control URL. *)
Definition read_control : result ConfigErr (string * string) :=
  let baseURL := Getenv "FUNCBOX_BASE_URL" in
  let controlURL := Getenv "FUNCBOX_CONTROL_URL" in
  if negb (controlURL == "") && negb (baseURL == "") && negb (baseURL == controlURL)
  then Err BaseAndControlDiffer
  else if negb (controlURL == "") then
    let! u := parseOrigin "FUNCBOX_CONTROL_URL" controlURL true in Ok (u, u)
  else if negb (baseURL == "") then
    let! u := parseOrigin "FUNCBOX_BASE_URL" baseURL true in Ok (u, "")
  else Ok ("", "").

Definition read_domain : result ConfigErr string :=
  let v := Getenv "FUNCBOX_FUNCTION_DOMAIN" in
  if v == "" then Ok "" else parseDNSName "FUNCBOX_FUNCTION_DOMAIN" v.

Definition read_landing : result ConfigErr string :=
  let v := Getenv "FUNCBOX_LANDING_URL" in
  if v == "" then Ok "" else parseOrigin "FUNCBOX_LANDING_URL" v true.

Definition read_profile : result ConfigErr string :=
  let v := Getenv "FUNCBOX_ORIGIN_PROFILE" in
  let v := if v == "" then "same-site" else v in
  guard! (v == "same-site") || (v == "cross-site") || (v == "development") else BadProfile v in
  Ok v.

Definition read_timeout : result ConfigErr Z :=
  let v := Getenv "FUNCBOX_INVOKE_TIMEOUT" in
  if v == "" then Ok DefaultInvokeTimeout
  else match ParseDuration v with
       | None => Err (BadTimeout v)
       | Some d => if d <=? 0 then Err (TimeoutNotPositive v) else Ok d
       end.

Definition read_pool : result ConfigErr Z :=
  let v := Getenv "FUNCBOX_POOL_MAX_FUNCTIONS" in
  if v == "" then Ok DefaultPoolMaxFunctions
  else match atoi v with
       | None => Err (BadPoolSize v)
       | Some n => if n <? 0 then Err (PoolSizeNegative v) else Ok n
       end.

Definition read_mode : result ConfigErr string :=
  let v := Getenv "FUNCBOX_AUTH_MODE" in
  guard! (v == "") || (v == "google") || (v == "dev") else BadAuthMode v in Ok v.

Definition read_provider : result ConfigErr string :=
  let v := Getenv "FUNCBOX_AUTH_PROVIDER" in
  guard! (v == "") || (v == "google") || (v == "github") else BadAuthProvider v in Ok v.

Definition FromEnv : result ConfigErr Config :=
  let! addr := read_addr in
  let! control := read_control in
  let! domain := read_domain in
  let! landing := read_landing in
  let! profile := read_profile in
  let! _ := validateHosting control.2 domain landing profile in
  let! timeout := read_timeout in
  let! pool := read_pool in
  let! mode := read_mode in
  let! provider := read_provider in
  Ok (mkConfig addr control.1 control.2 domain landing profile (Getenv "FUNCBOX_DB") (Getenv "FUNCBOX_BLOB")
        timeout pool mode provider (Getenv "FUNCBOX_GOOGLE_CLIENT_ID") (Getenv "FUNCBOX_GOOGLE_CLIENT_SECRET")
        (Getenv "FUNCBOX_GITHUB_CLIENT_ID") (Getenv "FUNCBOX_GITHUB_CLIENT_SECRET")
        (Getenv "FUNCBOX_SESSION_SECRET") (Getenv "FUNCBOX_DASHBOARD_DIST_DIR")
        (Getenv "FUNCBOX_OPEN_MODE" == "1")).
End FromEnv.

(** ** The addresses of functions *)

Inductive AddressErr := NoDomain | BadFunctionName (name : string).

Definition controlPort (cfg : Config) : string :=
  match url_Parse (c_ControlURL cfg) with
  | None => ""
  | Some control => if url_Port control == "" then "" else ":" +:+ url_Port control
  end.

(** The host and port of a function. *)
Definition function_authority (cfg : Config) (name : string) : string :=
  to_lower name +:+ "." +:+ c_FunctionDomain cfg +:+ controlPort cfg.

Definition ManagedFunctionURL (cfg : Config) (name requestPath : string) : result AddressErr string :=
  if c_FunctionDomain cfg == "" then Err NoDomain
  else
    guard! is_ok (parseDNSName "function name" name) && negb (contains_byte name ".") else BadFunctionName name in
    let scheme :=
      if c_OriginProfile cfg == "development" then
        match url_Parse (c_ControlURL cfg) with
        | Some control => if u_Scheme control == "http" then "http" else "https"
        | None => "https"
        end
      else "https" in
    let requestPath :=
      if requestPath == "" then "/"
      else if has_prefix requestPath "/" then requestPath else "/" +:+ requestPath in
    Ok (scheme +:+ "://" +:+ function_authority cfg name +:+ requestPath).
End Config.

(** ** Host names *)

Definition host_char (c : ascii) : bool := label_byte c || (c =? ".")%char.
Definition host_name (s : string) : Prop := str_forallb host_char s = true.

Section Hosts.
Context {U : UnicodeTables}.

Lemma host_char_facts c : host_char c = true ->
  bad_authority_byte c = false /\ is_upper c = false /\ (byte_val c <? 128) = true
  /\ c <> ":"%char /\ c <> "["%char /\ c <> "]"%char.
Proof. destruct c as [[] [] [] [] [] [] [] []]; vm_compute; intros H; try discriminate H; by split_and!. Qed.

Lemma host_lacks c s : c = ":"%char \/ c = "["%char \/ c = "]"%char -> host_name s -> lacks c s.
Proof.
  intros Hc. apply str_forallb_impl. intros d Hd. apply negb_true_iff, Ascii.eqb_neq.
  apply host_char_facts in Hd as (_ & _ & _ & ? & ? & ?). intros ->. naive_solver.
Qed.

Lemma host_plain s : host_name s -> is_ascii s = true /\ to_lower s = s /\ str_existsb bad_authority_byte s = false.
Proof.
  intros H. assert (is_ascii s = true) as Ha.
  { revert H. apply str_forallb_impl. intros c Hc. apply host_char_facts in Hc. naive_solver. }
  split_and!; [done| |].
  - rewrite to_lower_ascii by done. apply lower_id. revert H. apply str_forallb_impl.
    intros c Hc. apply host_char_facts in Hc as (_ & -> & _). done.
  - unfold str_existsb. apply negb_false_iff. revert H. apply str_forallb_impl.
    intros c Hc. by apply host_char_facts in Hc as (-> & _).
Qed.

Lemma split_plain n p : host_name n -> port_suffix p ->
  (p = "" /\ exists e, SplitHostPort (n +:+ p) = Err e) \/ exists d, SplitHostPort (n +:+ p) = Ok (n, d).
Proof.
  intros Hn Hp. assert (lacks ":" n /\ lacks "[" n /\ lacks "]" n) as (H1 & H2 & H3)
    by (split_and!; apply host_lacks; auto).
  unfold SplitHostPort. destruct Hp as [->|(d & -> & Hd)].
  - left. split; [done|]. rewrite str_app_nil_r, last_index_none by done. by eexists.
  - right. exists d. rewrite last_index_app by (by apply lacks_digits). rewrite str_take_app, str_drop_S_app.
    assert (has_prefix (n +:+ String ":" d) "[" = false) as ->.
    { apply not_true_iff_false. intros E. apply has_prefix_spec in E as [r E]. destruct n as [|x n]; [done|].
      injection E as -> _. by apply lacks_cons in H2 as [? _]. }
    rewrite (lacks_contains ":" n H1).
    change (str_drop 0 (n +:+ String ":" d)) with (n +:+ String ":" d).
    by rewrite !lacks_contains by (apply lacks_app; split; [done|]; apply lacks_cons; split; [done|]; by apply lacks_digits).
Qed.

Lemma port_good p : port_suffix p -> str_existsb bad_authority_byte p = false.
Proof.
  intros [->|(d & -> & Hd)]; [done|]. unfold str_existsb. apply negb_false_iff.
  change (str_forallb (fun c => negb (bad_authority_byte c)) d = true). revert Hd. apply str_forallb_impl.
  intros c Hc. destruct (host_char_facts c) as (-> & _); [|done].
  unfold host_char, label_byte, is_lower_alnum. by rewrite Hc.
Qed.

Lemma str_existsb_app f s t : str_existsb f (s +:+ t) = str_existsb f s || str_existsb f t.
Proof. unfold str_existsb. by rewrite str_forallb_app, negb_andb. Qed.

(** A host name with an optional port is a request host. *)
Lemma request_host_plain n p : host_name n -> n <> "" -> has_suffix n "." = false -> ParseIP n = None ->
  port_suffix p -> normalizedRequestHost (n +:+ p) = Some n.
Proof.
  intros Hn Hne Hs Hip Hp. unfold normalizedRequestHost.
  destruct (host_plain n Hn) as (_ & Hl & Hb).
  assert ((n +:+ p == "") = false) as -> by (destruct n; done).
  rewrite str_existsb_app, Hb, port_good by done. simpl.
  assert ((let host := to_lower (trim_suffix n ".") in
    if (host == "") || bool_decide (ParseIP host <> None) then None else Some host) = Some n) as Hf.
  { cbv zeta. rewrite trim_suffix_id, Hl by done. rewrite Hip, bool_decide_eq_false_2 by tauto.
    destruct (n == "") eqn:E; bool_facts; done. }
  destruct (split_plain n p Hn Hp) as [[-> [e ->]]|[d ->]]; [|exact Hf].
  rewrite str_app_nil_r, lacks_contains by (apply host_lacks; auto). exact Hf.
Qed.

Lemma request_host_split n p : host_name n -> port_suffix p -> (splitRequestHost (n +:+ p)).1 = n.
Proof.
  intros Hn Hp. destruct (host_plain n Hn) as (_ & Hl & _). unfold splitRequestHost.
  destruct (split_plain n p Hn Hp) as [[-> [e ->]]|[d ->]]; [|exact Hl]. cbn [fst]. rewrite str_app_nil_r, Hl.
  assert (has_suffix n "]" = false) as Hs.
  { apply not_true_iff_false. intros E. apply has_suffix_spec in E as [r ->].
    apply (host_lacks "]"), lacks_app in Hn as [_ H]; [by apply lacks_cons in H as [? _]|auto]. }
  rewrite trim_suffix_id by done. unfold trim_prefix. destruct (has_prefix n "[") eqn:E; [|done].
  apply has_prefix_spec in E as [r ->]. apply (host_lacks "[") in Hn; [by apply lacks_cons in Hn as [? _]|auto].
Qed.

(** ** Checked DNS names *)

Lemma checked_label l : dns_label_ok l = true -> dns_label l.
Proof.
  unfold dns_label_ok, dns_label. intros H. bool_facts. split_and!; try done.
  - unfold str_len. destruct l; [done|]. simpl. lia.
  - match goal with H : str_forallb _ l = true |- _ => revert H end. apply str_forallb_impl.
    intros c. unfold name_char, is_lower_alnum. intros Hc.
    rewrite (orb_comm (is_digit c)). exact Hc.
Qed.

Lemma checked_domain d : Forall dns_label (split_byte d ".") -> host_name d /\ has_suffix d "." = false.
Proof.
  intros H. split.
  - rewrite <- (join_split d "."). apply str_forallb_join; [|done].
    eapply Forall_impl; [exact H|]. intros l (_ & Hl & _). revert Hl. apply str_forallb_impl.
    intros c Hc. unfold host_char, label_byte. unfold name_char in Hc. by rewrite Hc.
  - apply not_true_iff_false. intros E. apply has_suffix_spec in E as [r ->].
    rewrite split_byte_snoc in H. apply Forall_app in H as [_ H]. apply Forall_singleton in H as [H _].
    unfold str_len in H. simpl in H. lia.
Qed.

Lemma domain_checked name raw d : parseDNSName name raw = Ok d ->
  d = to_lower (trim_suffix raw ".") /\ ParseIP d = None /\ str_len d <= 253
  /\ forallb dns_label_ok (split_byte d ".") = true.
Proof.
  unfold parseDNSName. intros H. case_step H. case_step H. injection H as <-. bool_facts.
  split_and!; try done. by apply dec_stable.
Qed.

Lemma dot_lower c : byte_lower c = "."%char -> c = "."%char.
Proof. destruct c as [[] [] [] [] [] [] [] []]; vm_compute; congruence. Qed.

Lemma split_lacks s c : lacks c s -> split_byte s c = [s].
Proof.
  induction s as [|d s IH]; intros H; [done|]. apply lacks_cons in H as [Hd H]. simpl.
  apply Ascii.eqb_neq in Hd. by rewrite Hd, IH.
Qed.

(** A plain name without dots that passes is a label in lower case. *)
Lemma label_checked name raw d : parseDNSName name raw = Ok d -> contains_byte raw "." = false ->
  is_ascii raw = true -> dns_label (to_lower raw) /\ to_lower raw <> "" /\ contains_byte (to_lower raw) "." = false.
Proof.
  intros H Hd Ha. apply domain_checked in H as (-> & _ & _ & H).
  assert (trim_suffix raw "." = raw) as E.
  { apply trim_suffix_id, not_true_iff_false. intros E. apply has_suffix_spec in E as [r ->].
    rewrite contains_byte_spec, str_forallb_app in Hd. simpl in Hd. by rewrite andb_false_r in Hd. }
  rewrite E in *. assert (lacks "." (to_lower raw)) as Hl.
  { rewrite to_lower_ascii by done. rewrite contains_byte_spec in Hd. apply negb_false_iff in Hd.
    clear -Hd. induction raw as [|c r IH]; [done|]. apply lacks_cons in Hd as [Hc Hd].
    apply lacks_cons. split; [by intros E%dot_lower|by apply IH]. }
  rewrite split_lacks in H by done. cbn [forallb] in H. rewrite andb_true_r in H. apply checked_label in H as H2.
  split_and!; [done| |by apply lacks_contains]. intros E2. by rewrite E2 in H.
Qed.

(** ** The port of the control origin *)

Lemma split_port h : (url_split_host_port h).2 = "" \/ port_suffix (":" +:+ (url_split_host_port h).2).
Proof.
  unfold url_split_host_port. pose proof (last_index_split h ":") as Hs.
  destruct (last_index_byte h ":") as [i|]; [|left; by destruct (_ && _)].
  destruct Hs as (a & r & -> & <- & _). rewrite str_drop_app, str_drop_S_app, str_take_app.
  destruct (validOptionalPort (String ":" r)) eqn:E; [|left; by destruct (_ && _)].
  right. apply valid_port_suffix in E. by destruct (_ && _).
Qed.

Lemma control_port_suffix cfg : port_suffix (controlPort cfg).
Proof.
  unfold controlPort. destruct (url_Parse (c_ControlURL cfg)) as [c|]; [|by left].
  destruct (url_Port c == "") eqn:E; [by left|]. bool_facts. unfold url_Port in *.
  by destruct (split_port (u_Host c)).
Qed.

Lemma count_byte_app a b c : count_byte (a +:+ b) c = (count_byte a c + count_byte b c)%nat.
Proof. induction a as [|d a IH]; simpl; [done|]. by rewrite IH, Nat.add_assoc. Qed.
Lemma count_byte_lacks s c : lacks c s -> count_byte s c = 0%nat.
Proof.
  induction s as [|d s IH]; intros H; [done|]. apply lacks_cons in H as [Hd H]. simpl.
  apply Ascii.eqb_neq in Hd. by rewrite Hd, IH.
Qed.
Lemma count_dots_lower s : count_byte (str_map byte_lower s) "." = count_byte s ".".
Proof.
  induction s as [|d s IH]; [done|]. simpl. rewrite IH. f_equal.
  destruct d as [[] [] [] [] [] [] [] []]; reflexivity.
Qed.

(** A function's host is not the control host. *)
Lemma no_collision control domain n : control_collides control domain = false ->
  is_ascii (url_Hostname control) = true -> host_name domain -> host_name n ->
  contains_byte n "." = false -> n <> "dashboard" ->
  equal_fold (n +:+ "." +:+ domain) (url_Hostname control) = false.
Proof.
  intros Hc Ha Hd Hn Hdot Hne. apply not_true_iff_false. intros He.
  assert (host_name (n +:+ "." +:+ domain)) as Hh.
  { unfold host_name in *. by rewrite !str_forallb_app, Hn, Hd. }
  destruct (host_plain _ Hh) as (Hha & Hhl & _). unfold equal_fold in He. rewrite Hha, Ha in He. cbn [andb] in He.
  bool_facts. rewrite to_lower_ascii in Hhl by done. rewrite Hhl in He.
  unfold control_collides in Hc. rewrite (to_lower_ascii (url_Hostname control)), <- He in Hc by done.
  assert (has_suffix (n +:+ "." +:+ domain) ("." +:+ domain) = true) as Hs by (apply has_suffix_spec; eauto).
  rewrite Hs, trim_suffix_app in Hc.
  assert (count_byte (url_Hostname control) "." = count_byte domain "." + 1)%nat as Hcount.
  { rewrite <- (count_dots_lower (url_Hostname control)), <- He, !count_byte_app.
    rewrite (count_byte_lacks n); [simpl; lia|]. rewrite contains_byte_spec in Hdot. by apply negb_false_iff in Hdot. }
  rewrite Hcount, Nat.eqb_refl in Hc. simpl in Hc. rewrite orb_true_r in Hc. simpl in Hc.
  apply negb_false_iff in Hc. by bool_facts.
Qed.

Lemma no_alias origin q : isLoopbackHost (splitRequestHost (rq_Host q)).1 = false ->
  loopbackAliasRedirectTarget origin q = None.
Proof.
  intros H. unfold loopbackAliasRedirectTarget. destruct (splitRequestHost (rq_Host q)) as [h p]. simpl in H.
  rewrite H. simpl. rewrite orb_true_r. simpl. by repeat case_goal.
Qed.

(** A configuration that was accepted. *)
Record accepted (cfg : Config) : Prop := {
  ac_timeout : 0 < c_InvokeTimeout cfg;
  ac_pool : 0 <= c_PoolMaxFunctions cfg;
  ac_profile : c_OriginProfile cfg = "same-site" \/ c_OriginProfile cfg = "cross-site"
               \/ c_OriginProfile cfg = "development";
  ac_base : c_ControlURL cfg = "" \/ c_BaseURL cfg = c_ControlURL cfg;
  ac_together : c_ControlURL cfg = "" <-> c_FunctionDomain cfg = "";
  ac_https : c_ControlURL cfg <> "" -> c_OriginProfile cfg <> "development" ->
             exists u, url_Parse (c_ControlURL cfg) = Some u /\ u_Scheme u = "https";
  ac_domain : c_FunctionDomain cfg <> "" ->
              Forall dns_label (split_byte (c_FunctionDomain cfg) ".") /\ ParseIP (c_FunctionDomain cfg) = None
}.

Section Accepted.
Context (registrable : string -> option string) (env : string -> option string).

Lemma hosting_checked controlURL domain landing profile :
  validateHosting registrable controlURL domain landing profile = Ok tt ->
  (controlURL = "" <-> domain = "")
  /\ (controlURL <> "" -> exists c, url_Parse controlURL = Some c /\ control_collides c domain = false
       /\ (profile <> "development" -> u_Scheme c = "https")
       /\ (landing <> "" -> exists l, url_Parse landing = Some l)).
Proof.
  unfold validateHosting. intros H.
  destruct ((controlURL == "") && (domain == "") && (landing == "")) eqn:E0; [bool_facts; by subst|]. clear E0.
  destruct ((controlURL == "") || (domain == "")) eqn:E1; [done|]. bool_facts.
  split; [tauto|]. intros _. destruct (url_Parse controlURL) as [c|]; [|done]. exists c.
  case_step H. apply rbind_ok in H as ([] & Hl & H). bool_facts. split_and!; try done.
  - intros Hp. unfold check_profile in H. destruct (profile == "development") eqn:Ep; bool_facts; [done|].
    case_step H. by bool_facts.
  - intros Hne. unfold check_landing in Hl. destruct (landing == "") eqn:El; bool_facts; [done|].
    destruct (url_Parse landing) as [l|]; [by exists l|done].
Qed.

Lemma from_env_parts cfg : FromEnv registrable env = Ok cfg ->
  validateHosting registrable (c_ControlURL cfg) (c_FunctionDomain cfg) (c_LandingURL cfg) (c_OriginProfile cfg) = Ok tt
  /\ read_domain env = Ok (c_FunctionDomain cfg) /\ accepted cfg.
Proof.
  unfold FromEnv. intros H. apply rbind_ok in H as (addr & _ & H). apply rbind_ok in H as (control & Hc & H).
  apply rbind_ok in H as (domain & Hd & H). apply rbind_ok in H as (landing & Hl & H).
  apply rbind_ok in H as (profile & Hp & H). apply rbind_ok in H as ([] & Hv & H).
  apply rbind_ok in H as (timeout & Ht & H). apply rbind_ok in H as (pool & Hpool & H).
  apply rbind_ok in H as (mode & _ & H). apply rbind_ok in H as (provider & _ & H). injection H as <-. cbn.
  split_and!; [done|done|]. apply hosting_checked in Hv as [Htog Hv]. split; cbn.
  - unfold read_timeout in Ht. case_all Ht; injection Ht as <-; bool_facts; [done|lia].
  - unfold read_pool in Hpool. case_all Hpool; injection Hpool as <-; bool_facts; [done|lia].
  - unfold read_profile in Hp. cbv zeta in Hp. set (v := if Getenv env "FUNCBOX_ORIGIN_PROFILE" == "" then _ else _) in Hp.
    clearbody v. destruct ((v == "same-site") || (v == "cross-site") || (v == "development")) eqn:Ev; [|done].
    injection Hp as <-. repeat rewrite orb_true_iff in Ev. rewrite !String.eqb_eq in Ev. tauto.
  - unfold read_control in Hc. case_all Hc; try (apply rbind_ok in Hc as (u & _ & Hc)); injection Hc as <-; auto.
  - done.
  - intros Hne Hdev. destruct (Hv Hne) as (c & Hcp & _ & Hs & _). exists c. auto.
  - intros Hne. unfold read_domain in Hd. case_step Hd; [by injection Hd as <-|].
    apply domain_checked in Hd as (_ & Hip & _ & Hls). split; [|done]. apply Forall_forall. intros l Hin.
    apply checked_label. rewrite forallb_forall in Hls. by apply Hls, list_elem_of_In.
Qed.

(** Where the router takes a request on a function's host. *)
Definition landing_host (cfg : Config) (host : string) : bool :=
  negb (c_LandingURL cfg == "")
  && match url_Parse (c_LandingURL cfg) with Some l => equal_fold host (url_Hostname l) | None => false end.
Definition function_route (cfg : Config) (n host : string) (q : RouteRequest) : Route :=
  if landing_host cfg host then
    if is_get_or_head (rq_Method q) then RouteRedirect 308 (trim_suffix (c_ControlURL cfg) "/" +:+ rq_URI q) else Misdirected
  else if rq_Path q == "/.funcbox/auth/callback" then InvokeCallback n host
  else if has_prefix (rq_Path q) "/.funcbox/" then RouteNotFound
  else InvokeByHost n host.

(** C29. A configuration that is accepted is well formed, and it gives function names
    addresses of their own. For an ASCII name other than dashboard, under a control
    origin whose host is ASCII, the address has the host name.domain with the port of
    the control origin or none, and every request for that host, if it is not an IP
    address, goes where the function's requests go: the function itself, at the
    callback path its sign-on, and nothing under the rest of the reserved prefix. One
    kind of accepted configuration is an exception, and the statement has it: when
    the landing origin is that very host, GET and HEAD are redirected to the control
    origin and the rest refused. The control plane never serves such a request
    itself. *)
Theorem managed_urls_reach_functions cfg d q name path url control
    (Hcfg : FromEnv registrable env = Ok cfg) (Hcontrol : url_Parse (c_ControlURL cfg) = Some control)
    (Hurl : ManagedFunctionURL cfg name path = Ok url)
    (Hname : to_lower name <> "dashboard") (Hascii : is_ascii name = true)
    (Hhost : is_ascii (url_Hostname control) = true)
    (Hd : (ControlURL d, FunctionDomain d, LandingURL d, has_Invoker d)
          = (c_ControlURL cfg, c_FunctionDomain cfg, c_LandingURL cfg, true))
    (Hip : ParseIP (to_lower name +:+ "." +:+ c_FunctionDomain cfg) = None)
    (Hq : rq_Host q = function_authority cfg name) :
  accepted cfg
  /\ (exists scheme p, (scheme = "https" \/ scheme = u_Scheme control) /\ has_prefix p "/" = true
       /\ url = scheme +:+ "://" +:+ rq_Host q +:+ p)
  /\ New d q = function_route cfg (to_lower name) (to_lower name +:+ "." +:+ c_FunctionDomain cfg) q.
Proof.
  apply from_env_parts in Hcfg as (Hv & Hdom & Hacc). split; [done|].
  apply hosting_checked in Hv as [Htog Hv]. injection Hd as D1 D2 D3 D4.
  unfold ManagedFunctionURL in Hurl. case_step Hurl. case_step Hurl. bool_facts.
  destruct (parseDNSName "function name" name) as [n'|] eqn:En; [|done]. apply label_checked in En as (Hl & Hne & Hdot); [|done..].
  assert (c_ControlURL cfg <> "") as Hcne by (intros Hz; by apply Htog in Hz).
  destruct (Hv Hcne) as (c & Hc & Hcol & _ & Hlok). rewrite Hcontrol in Hc. injection Hc as <-.
  destruct (ac_domain _ Hacc) as [Hlabels _]; [done|]. apply checked_domain in Hlabels as [Hdn Hds].
  set (n := to_lower name) in *. set (host := n +:+ "." +:+ c_FunctionDomain cfg) in *.
  assert (host_name n) as Hnn.
  { destruct Hl as (_ & Hl & _). revert Hl. apply str_forallb_impl. intros ch Hch.
    unfold host_char, label_byte. unfold name_char in Hch. by rewrite Hch. }
  assert (host_name host) as Hhn by (unfold host_name, host in *; by rewrite !str_forallb_app, Hnn, Hdn).
  assert (rq_Host q = host +:+ controlPort cfg) as Hauth.
  { rewrite Hq. unfold function_authority, host. fold n. by rewrite !str_app_assoc. }
  pose proof (control_port_suffix cfg) as Hport.
  assert (has_suffix host "." = false) as Hsuf.
  { unfold host. rewrite <- str_app_assoc, has_suffix_app; [done|]. destruct (c_FunctionDomain cfg); [done|simpl; lia]. }
  assert (host <> "") as Hhne by (unfold host; by destruct n).
  assert (ServeHTTP d q = function_route cfg n host q) as Hserve.
  { unfold ServeHTTP. rewrite D1, D2. destruct (c_ControlURL cfg == "") eqn:Ecu; bool_facts; [done|]. simpl.
    unfold serveByHost. rewrite Hauth, request_host_plain, D1, Hcontrol by done.
    assert (equal_fold host (url_Hostname control) = false) as -> by (apply no_collision; try done; by apply lacks_contains).
    assert (managedFunctionName host (FunctionDomain d) = Some n) as ->.
    { apply managed_name_spec. split; [|done]. unfold host, domain_suffix. rewrite D2, trim_suffix_id by done.
      f_equal. f_equal. symmetry. by apply host_plain. }
    rewrite D4, D3. unfold function_route, landing_host. destruct (c_LandingURL cfg == "") eqn:El; bool_facts; [done|].
    destruct (Hlok El) as [l Hlp]. rewrite Hlp. simpl. by destruct (equal_fold host (url_Hostname l)), (is_get_or_head (rq_Method q)). }
  split.
  - eexists _, _. split_and!; [| |injection Hurl as <-; rewrite Hq; reflexivity].
    + destruct (c_OriginProfile cfg == "development"); [|by left]. rewrite Hcontrol.
      destruct (u_Scheme control == "http") eqn:Es; bool_facts; auto.
    + destruct (path == "") eqn:E1; [done|]. destruct (has_prefix path "/") eqn:E2; [done|apply has_prefix_spec; by exists path].
  - rewrite <- Hserve. unfold New, canonicalOriginMiddleware.
    rewrite no_alias; [done|]. rewrite Hauth, request_host_split by done. apply not_true_iff_false. intros Ha.
    apply existsb_exists in Ha as (x & Hx & Ha). apply String.eqb_eq in Ha.
    assert (contains_byte host "." = true) as Hdots.
    { rewrite contains_byte_spec. unfold host. rewrite !str_forallb_app. simpl. by rewrite andb_false_r. }
    rewrite Ha in *. destruct Hx as [<-|[<-|[<-|[]]]]; [done|by vm_compute in Hip|done].
Qed.
End Accepted.
End Hosts.

(** ** Witness *)

Definition site_of (host : string) : option string := if has_suffix host "example.com" then Some "example.com" else None.
Definition sample_env (k : string) : option string :=
  if k == "FUNCBOX_CONTROL_URL" then Some "https://Dash.example.com:8443"
  else if k == "FUNCBOX_FUNCTION_DOMAIN" then Some "fn.example.com."
  else None.
Abbreviation sample_config := (FromEnv (U := ascii_tables) site_of sample_env).
Definition ok_config (r : result ConfigErr Config) : Config :=
  match r with
  | Ok c => c
  | Err _ => mkConfig "" "" "" "" "" "" "" "" 0 0 "" "" "" "" "" "" "" "" false
  end.
Definition sample_cfg : Config := ok_config sample_config.
Definition sample_deps : Deps :=
  mkDeps true true true false true false false false None (c_ControlURL sample_cfg) (c_FunctionDomain sample_cfg) ""
    (c_BaseURL sample_cfg).

Example sample_address :
  ManagedFunctionURL (U := ascii_tables) sample_cfg "hello" "api"
  = Ok "https://hello.fn.example.com:8443/api".
Proof. vm_compute. reflexivity. Qed.

Lemma managed_urls_reach_functions_witness :
  accepted (U := ascii_tables) sample_cfg
  /\ New (U := ascii_tables) sample_deps (mkRoute "GET" "hello.fn.example.com:8443" "/api" "/api")
     = InvokeByHost "hello" "hello.fn.example.com".
Proof.
  destruct (managed_urls_reach_functions (U := ascii_tables) site_of sample_env sample_cfg sample_deps
    (mkRoute "GET" "hello.fn.example.com:8443" "/api" "/api") "hello" "api"
    "https://hello.fn.example.com:8443/api"
    (mkURL "https" "" None "dash.example.com:8443" "" "" "")
    ltac:(vm_compute; reflexivity) ltac:(vm_compute; reflexivity) ltac:(vm_compute; reflexivity)
    ltac:(vm_compute; discriminate) ltac:(reflexivity) ltac:(reflexivity) ltac:(reflexivity)
    ltac:(vm_compute; reflexivity) ltac:(vm_compute; reflexivity)) as (Ha & _ & Hr).
  exact (conj Ha Hr).
Defined.

(** A landing origin may take a function's host, and a control origin may keep a
    question mark. *)
Example landing_takes_function :
  is_ok (FromEnv (U := ascii_tables) site_of
    (fun k => if k == "FUNCBOX_LANDING_URL" then Some "https://hello.fn.example.com" else sample_env k)) = true.
Proof. vm_compute. reflexivity. Qed.
Example origin_keeps_question_mark :
  parseOrigin (U := ascii_tables) "FUNCBOX_CONTROL_URL" "https://dash.example.com?" true
  = Ok "https://dash.example.com?".
Proof. vm_compute. reflexivity. Qed.
