(* ===== verification/Response.v ===== *)
(** * Response: from a guest's answer to the bytes the client gets

    Models src/server/internal/invoke/responsewriter.go, the writer that turns a
    timed-out invocation into a 504, and the response half of
    src/runtime/enginepool/worker.go (serve and serveStreamingBody), which turns
    what the engine did into calls of a response writer. What the engine did is
    the [outcome]: the JavaScript engine is not code of this repository. *)

From S2P Require Import Prelude GoNum GoHTTP.

(** ** invoke/responsewriter.go *)

Definition sniffLimit : Z := 64.

Record invokeResponseWriter := mkIW {
  iw_rw : ResponseWriter;
  iw_expired : bool;            (** [w.ctx.Err() != nil] *)
  iw_wroteHeader : bool;
  iw_swapped : bool;
  iw_status : Z;
  iw_sniff : string
}.

Definition new_iw (w : ResponseWriter) : invokeResponseWriter := mkIW w false false false 0 "".

Definition timeout_body : string :=
  "{" +:+ quoted "error" +:+ ":{" +:+ quoted "code" +:+ ":" +:+ quoted "timeout" +:+ ","
  +:+ quoted "message" +:+ ":" +:+ quoted "function invocation timed out" +:+ "}}".

Definition iw_WriteHeader (w : invokeResponseWriter) (code : Z) : invokeResponseWriter :=
  if iw_wroteHeader w then w
  else
    let rw := rw_set_header (iw_rw w) (h_DelPrefix (rw_Header (iw_rw w)) "X-Funcbox-") in
    if (code =? 500) && iw_expired w then
      let rw := rw_set_header rw (h_Set (rw_Header rw) "Content-Type" "application/json; charset=utf-8") in
      mkIW (rw_Write (rw_WriteHeader rw 504) timeout_body) (iw_expired w) true true code (iw_sniff w)
    else mkIW (rw_WriteHeader rw code) (iw_expired w) true (iw_swapped w) code (iw_sniff w).

Definition iw_Write (w : invokeResponseWriter) (b : string) : invokeResponseWriter :=
  let w := if iw_wroteHeader w then w else iw_WriteHeader w 200 in
  let sniff :=
    if str_len (iw_sniff w) <? sniffLimit then
      iw_sniff w +:+ str_take (Z.to_nat (Z.min (sniffLimit - str_len (iw_sniff w)) (str_len b))) b
    else iw_sniff w in
  mkIW (if iw_swapped w then iw_rw w else rw_Write (iw_rw w) b)
    (iw_expired w) (iw_wroteHeader w) (iw_swapped w) (iw_status w) sniff.

Definition isLikelyOOM (w : invokeResponseWriter) : bool :=
  (iw_status w =? 500) && str_contains (iw_sniff w) "out of memory".

Definition finalStatus (w : invokeResponseWriter) : Z :=
  if iw_swapped w then 504 else if iw_status w =? 0 then 200 else iw_status w.

(** ** What is done to the writer

    The calls of a handler, and the moment its deadline passes. *)
Inductive action :=
| AddHeader (k v : string)
| SetHeader (k v : string)
| DelHeader (k : string)
| WriteHeader (code : Z)
| Write (b : string)
| Expire.

Definition iw_step (w : invokeResponseWriter) (a : action) : invokeResponseWriter :=
  let on_header f :=
    mkIW (rw_set_header (iw_rw w) (f (rw_Header (iw_rw w)))) (iw_expired w) (iw_wroteHeader w)
      (iw_swapped w) (iw_status w) (iw_sniff w) in
  match a with
  | AddHeader k v => on_header (fun h => h_Add h k v)
  | SetHeader k v => on_header (fun h => h_Set h k v)
  | DelHeader k => on_header (fun h => h_Del h k)
  | WriteHeader code => iw_WriteHeader w code
  | Write b => iw_Write w b
  | Expire => mkIW (iw_rw w) true (iw_wroteHeader w) (iw_swapped w) (iw_status w) (iw_sniff w)
  end.

Definition iw_run (w : invokeResponseWriter) (acts : list action) : invokeResponseWriter :=
  fold_left iw_step acts w.

(** ** enginepool/worker.go: [serve] *)

(** [responseMeta]. *)
Record responseMeta := mkMeta { meta_Status : Z; meta_Headers : list (string * string) }.

Inductive outcome :=
| BodyTooLarge (err : string)
| EngineFailed (stage err : string)        (** a call into the engine failed *)
| LoopFailed (err : string)                (** the event loop ended with an error, as at the deadline *)
| NeverSettled
| HandlerThrew (msg : string)
| Buffered (meta : responseMeta) (body : string)
| Streamed (meta : responseMeta) (chunks : list string) (finished : bool).

(** [http.Error]. *)
Definition http_Error (msg : string) (code : Z) : list action :=
  [DelHeader "Content-Length"; SetHeader "Content-Type" "text/plain; charset=utf-8";
   SetHeader "X-Content-Type-Options" "nosniff"; WriteHeader code; Write (msg +:+ String "010" "")].

Definition clamp_status (s : Z) : Z := if (s <? 100) || (999 <? s) then 500 else s.

Definition write_meta (m : responseMeta) : list action :=
  map (fun kv => AddHeader kv.1 kv.2) (meta_Headers m) ++ [WriteHeader (clamp_status (meta_Status m))].

(** The calls made on the writer, and whether the connection is aborted after
    them ([panic(http.ErrAbortHandler)]). *)
Definition serve (o : outcome) : list action * bool :=
  match o with
  | BodyTooLarge err => (http_Error ("reading request body: " +:+ err) 413, false)
  | EngineFailed stage err => (http_Error (stage +:+ ": " +:+ err) 500, false)
  | LoopFailed err => (http_Error ("handler failed: " +:+ err) 500, false)
  | NeverSettled => (http_Error "handler never settled" 500, false)
  | HandlerThrew msg => (http_Error ("worker error: " +:+ msg) 500, false)
  | Buffered m body => (write_meta m ++ (if body == "" then [] else [Write body]), false)
  | Streamed m chunks finished => (write_meta m ++ map Write chunks, negb finished)
  end.

(** pool.go's [ServeHTTP] when no instance is free before the deadline. *)
Definition no_worker : list action := Expire :: http_Error "no worker available" 503.

(** ** Specification *)

Definition commits (a : action) : bool :=
  match a with WriteHeader _ | Write _ => true | _ => false end.
Definition code_of (a : action) : Z := match a with WriteHeader c => c | _ => 200 end.
Definition bytes_of (acts : list action) : string :=
  foldr (fun a s => match a with Write b => b +:+ s | _ => s end) "" acts.

(** The header map after header operations only. *)
Definition header_after (h : Header) (acts : list action) : Header :=
  fold_left (fun h a => match a with
                        | AddHeader k v => h_Add h k v
                        | SetHeader k v => h_Set h k v
                        | DelHeader k => h_Del h k
                        | _ => h
                        end) acts h.

Definition expired_in (acts : list action) : bool :=
  existsb (fun a => match a with Expire => true | _ => false end) acts.

(** ** Lemmas *)

Lemma header_after_wf h acts : header_wf h -> header_wf (header_after h acts).
Proof.
  unfold header_after. revert h. induction acts as [|[] acts IH]; intros h H; simpl; auto.
Qed.

(** Until something is committed only the header map and the clock move. *)
Lemma run_uncommitted pre : forall w, forallb (fun a => negb (commits a)) pre = true ->
  iw_run w pre = mkIW (rw_set_header (iw_rw w) (header_after (rw_Header (iw_rw w)) pre))
                   (iw_expired w || expired_in pre) (iw_wroteHeader w) (iw_swapped w) (iw_status w)
                   (iw_sniff w).
Proof.
  induction pre as [|a pre IH]; intros w H; simpl.
  - unfold rw_set_header. rewrite orb_false_r. destruct w as [[] ? ? ? ? ?]. done.
  - simpl in H. apply andb_true_iff in H as [Ha H]. unfold iw_run in *. simpl. rewrite IH by done.
    destruct a; try done; cbn; rewrite ?orb_true_r; done.
Qed.

(** A status that allows a body, and headers that declare no length: net/http refuses
    no write. *)
Definition unlimited (c : Z) (h : Header) : Prop := body_allowed c = true /\ declared_length h = None.

(** After the header is written with such a final status, the body is what is written
    and nothing else changes. *)
Lemma run_committed post : forall w c h,
  iw_wroteHeader w = true -> rw_Committed (iw_rw w) = Some (c, h) -> unlimited c h ->
  let w' := iw_run w post in
  iw_wroteHeader w' = true /\ iw_swapped w' = iw_swapped w /\ iw_status w' = iw_status w
  /\ rw_Committed (iw_rw w') = Some (c, h)
  /\ rw_Body (iw_rw w') = rw_Body (iw_rw w) +:+ (if iw_swapped w then "" else bytes_of post).
Proof.
  induction post as [|a post IH]; intros w c h Hw Hc Hu; simpl.
  - split_and!; try done. destruct (iw_swapped w); by rewrite str_app_nil_r.
  - unfold iw_run in *. simpl.
    assert (Hs : let w1 := iw_step w a in
       iw_wroteHeader w1 = true /\ iw_swapped w1 = iw_swapped w /\ iw_status w1 = iw_status w
       /\ rw_Committed (iw_rw w1) = Some (c, h)
       /\ rw_Body (iw_rw w1) = rw_Body (iw_rw w) +:+ (if iw_swapped w then ""
            else match a with Write b => b | _ => "" end)).
    { destruct a as [k v|k v|k|code|b|]; cbn; unfold iw_WriteHeader, iw_Write; rewrite ?Hw;
        cbn; unfold rw_Write, rw_WriteHeader, accepts; rewrite ?Hc; cbn; rewrite ?Hc, ?(proj1 Hu), ?(proj2 Hu); cbn;
        destruct (iw_swapped w) eqn:Es; cbn; rewrite ?Hw, ?Es, ?str_app_nil_r; split_and!; try done.
      all: by rewrite ?Hc. }
    destruct Hs as (H1 & H2 & H3 & H4 & H5). specialize (IH _ _ _ H1 H4 Hu).
    destruct IH as (I1 & I2 & I3 & I4 & I5). split_and!; try congruence.
    rewrite I5, H5, H2. destruct (iw_swapped w); [by rewrite !str_app_nil_r|].
    destruct a; simpl; rewrite ?str_app_nil_r, ?str_app_assoc; done.
Qed.

Lemma declared_stripped h : header_wf h -> declared_length (h_DelPrefix h "X-Funcbox-") = declared_length h.
Proof. intros Hw. unfold declared_length, h_Get. by rewrite h_DelPrefix_lookup. Qed.
Lemma declared_typed h v : declared_length (h_Set h "Content-Type" v) = declared_length h.
Proof. unfold declared_length, h_Get, h_Set. by rewrite lookup_insert_ne. Qed.

(** The first commitment decides the status line and the headers. *)
Lemma run_commit h pre a :
  forallb (fun a => negb (commits a)) pre = true -> commits a = true ->
  (informational (code_of a) = false) -> unlimited (code_of a) (header_after h pre) -> header_wf (header_after h pre) ->
  let w := iw_step (iw_run (new_iw (rw_set_header new_writer h)) pre) a in
  let timed_out := (code_of a =? 500) && expired_in pre in
  let stripped := h_DelPrefix (header_after h pre) "X-Funcbox-" in
  iw_wroteHeader w = true /\ iw_swapped w = timed_out /\ iw_status w = code_of a
  /\ rw_Committed (iw_rw w)
     = Some (if timed_out then (504, h_Set stripped "Content-Type" "application/json; charset=utf-8")
             else (code_of a, stripped))
  /\ rw_Body (iw_rw w) = if timed_out then timeout_body else bytes_of [a].
Proof.
  intros Hp Ha Hi [Hb Hl] Hwf. rewrite run_uncommitted by done. cbn zeta.
  destruct a as [| | |c|b|]; try done; simpl in Hi |- *.
  - unfold iw_WriteHeader. cbn. destruct ((c =? 500) && expired_in pre) eqn:E; cbn.
    + unfold accepts. cbn. rewrite declared_typed, declared_stripped, Hl by done. by split_and!.
    + unfold rw_WriteHeader. cbn. rewrite Hi. by split_and!.
  - unfold accepts. cbn. rewrite declared_stripped, Hl by done. split_and!; try done. by rewrite str_app_nil_r.
Qed.

(** What the client gets of an invocation, whatever the guest does and
    whenever its deadline passes: once anything is sent, no header in the
    [X-Funcbox-] namespace; the 504 answer of the platform, and not a byte of the
    guest, exactly when the first thing sent is a 500 after the deadline; and
    otherwise the guest's own status and bytes, unchanged, which is also the
    status that is recorded. The body is what reaches a client that did not send
    HEAD, of a response whose status allows one and that declares no length. *)
Theorem client_response (method : string) (h : Header) (pre : list action) (a : action) (post : list action)
    (Hh : header_wf h) (Hpre : forallb (fun a => negb (commits a)) pre = true)
    (Ha : commits a = true) (Hcode : informational (code_of a) = false)
    (Hm : method <> "HEAD") (Hlen : unlimited (code_of a) (header_after h pre)) :
  let w := iw_run (new_iw (rw_set_header new_writer h)) (pre ++ a :: post) in
  let '(status, sent, body) := rw_Finish method (iw_rw w) in
  (forall k, has_prefix k "X-Funcbox-" = true -> sent !! k = None)
  /\ finalStatus w = (if code_of a =? 0 then 200 else status)
  /\ if (code_of a =? 500) && expired_in pre
     then status = 504 /\ body = timeout_body
     else status = code_of a /\ body = bytes_of (a :: post)
          /\ (forall k, has_prefix k "X-Funcbox-" = false -> sent !! k = header_after h pre !! k).
Proof.
  cbn zeta. unfold iw_run. rewrite fold_left_app. simpl. fold (iw_run (new_iw (rw_set_header new_writer h)) pre).
  assert (Hw : header_wf (header_after h pre)) by by apply header_after_wf.
  pose proof (run_commit h pre a Hpre Ha Hcode Hlen Hw) as (H1 & H2 & H3 & H4 & H5). cbn zeta in *.
  set (w := iw_step (iw_run _ pre) a) in *. fold (iw_run w post).
  destruct (if (code_of a =? 500) && expired_in pre then _ else _) as [c sent] eqn:E in H4.
  assert (unlimited c sent) as Hu.
  { destruct Hlen as [Hb Hl]. split; destruct (_ && _) in E; injection E as <- <-; rewrite ?declared_typed, ?declared_stripped; done. }
  destruct (run_committed post w c sent H1 H4 Hu) as (I1 & I2 & I3 & I4 & I5). cbn zeta in *.
  unfold rw_Finish, finalStatus. destruct (method == "HEAD") eqn:Em; bool_facts; [done|]. rewrite I4, I5, I2, I3, H2, H3, H5.
  destruct ((code_of a =? 500) && expired_in pre) eqn:Et; injection E as <- <-.
  - assert (H0 : (code_of a =? 0) = false) by (bool_facts; lia). rewrite H0. split_and!.
    + intros k Hk. unfold h_Set. rewrite lookup_insert_ne by (intros <-; discriminate Hk).
      by rewrite h_DelPrefix_lookup, Hk.
    + done.
    + done.
    + by rewrite str_app_nil_r.
  - split_and!; try done.
    1,3: by intros k Hk; rewrite h_DelPrefix_lookup, Hk.
    destruct a; simpl; by rewrite ?str_app_nil_r.
Qed.

(** Everything the engine's outcomes do to the writer commits a response, after
    nothing but header operations. *)
Lemma serve_commits o :
  exists pre a post, (serve o).1 = pre ++ a :: post
  /\ forallb (fun a => negb (commits a)) pre = true /\ commits a = true /\ expired_in pre = false
  /\ (100 <= code_of a).
Proof.
  assert (He : forall msg c, 100 <= c -> exists pre a post, http_Error msg c = pre ++ a :: post
     /\ forallb (fun a => negb (commits a)) pre = true /\ commits a = true /\ expired_in pre = false
     /\ (100 <= code_of a)).
  { intros msg c Hc. eexists [_; _; _], _, _. split_and!; reflexivity || exact Hc. }
  assert (Hm : forall m tl, exists pre a post, write_meta m ++ tl = pre ++ a :: post
     /\ forallb (fun a => negb (commits a)) pre = true /\ commits a = true /\ expired_in pre = false
     /\ (100 <= code_of a)).
  { intros m tl. eexists (map _ _), (WriteHeader _), tl. unfold write_meta. rewrite <- app_assoc.
    split_and!; try reflexivity.
    - by apply forallb_forall; intros x (kv & <- & _)%in_map_iff.
    - apply not_true_iff_false. intros (x & (kv & <- & _)%in_map_iff & Hx)%existsb_exists. done.
    - simpl. unfold clamp_status. destruct (_ || _) eqn:E; bool_facts; lia. }
  destruct o; simpl; try (apply He; lia); apply Hm.
Qed.

(** A guest that times out, and one that answers with headers of its own. *)
Lemma client_response_witness :
  rw_Finish "GET" (iw_rw (iw_run (new_iw new_writer)
     (Expire :: (serve (LoopFailed "context deadline exceeded")).1)))
  = (504, h_Set (header_after ∅ (http_Error "" 500)) "Content-Type" "application/json; charset=utf-8",
     timeout_body)
  /\ let '(status, sent, _) := rw_Finish "GET" (iw_rw (iw_run (new_iw (rw_set_header new_writer ∅))
           ([AddHeader "x-funcbox-caller-email" "root"; AddHeader "x-mine" "1"]
            ++ WriteHeader 200 :: [Write "ok"]))) in
     status = 200 /\ sent !! "X-Funcbox-Caller-Email" = None /\ sent !! "X-Mine" = Some ["1"].
Proof.
  split; [vm_compute; reflexivity|].
  pose proof (client_response "GET" ∅ [AddHeader "x-funcbox-caller-email" "root"; AddHeader "x-mine" "1"]
    (WriteHeader 200) [Write "ok"] header_wf_empty eq_refl eq_refl eq_refl ltac:(done) (conj eq_refl eq_refl)) as H. cbv zeta in H.
  revert H. generalize (rw_Finish "GET" (iw_rw (iw_run (new_iw (rw_set_header new_writer ∅))
    ([AddHeader "x-funcbox-caller-email" "root"; AddHeader "x-mine" "1"]
     ++ WriteHeader 200 :: [Write "ok"])))).
  intros [[status sent] body] (Hx & _ & Hs & _ & Ho).
  split; [exact Hs|]. split; [apply Hx; reflexivity|]. rewrite Ho by reflexivity. reflexivity.
Defined.

(** The 504 answer keeps the guest's own headers: a length the guest declared for its
    500 is too short for the platform's body, which is then refused. *)
Example timeout_body_refused :
  let acts := Expire :: (serve (Buffered (mkMeta 500 [("Content-Length", "4")]) "oops")).1 in
  let w := iw_run (new_iw new_writer) acts in
  finalStatus w = 504 /\ (rw_Finish "GET" (iw_rw w)).2 = "".
Proof. by vm_compute. Qed.
