(* ===== verification/Signed.v ===== *)
(** * Signed: short-lived values signed into cookies and form fields

    The shape shared by signState/parseState (src/server/internal/auth/login.go)
    and signConsentState/parseConsentState (src/server/internal/oauth/consent.go):
    the JSON of a value in base64url, a dot, and its HMAC in hexadecimal. *)

From S2P Require Import Prelude Types Settings Store Digest.

Definition hmacHex (key data : string) : string := hex (hmac_sha256 key data).

Definition seal (key payload : string) : string :=
  b64_encode payload +:+ "." +:+ hmacHex key payload.

Inductive StateErr := StateMalformed | StateSignature | StateExpired.

(** [dec] decodes the value, [issued] is the second it was signed in, [n] the
    current time. *)
Definition open_sealed `{JsonText} {A} (key : string) (dec : json -> option A) (issued : A -> Z)
    (maxAge : Z) (n : Time) (raw : string) : result StateErr A :=
  let '(payloadB64, sig, ok) := cut_byte raw "." in
  guard! ok else StateMalformed in
  match b64_decode payloadB64 with
  | None => Err StateMalformed
  | Some payload =>
      guard! hmacHex key payload == sig else StateSignature in
      match json_parse payload with
      | None => Err StateMalformed
      | Some j =>
          match dec j with
          | None => Err StateMalformed
          | Some st =>
              guard! n - fromUnix (issued st) <=? maxAge else StateExpired in
              Ok st
          end
      end
  end.

Lemma b64_no_dot s : str_forallb (fun d => negb (d =? ".")%char) (b64_encode s) = true.
Proof.
  eapply str_forallb_impl; [|apply b64_encode_safe].
  intros c H. destruct (c =? ".")%char eqn:E; [|done]. apply Ascii.eqb_eq in E as ->. discriminate H.
Qed.

Section Sealed.
Context {J : JsonText} {A : Type} (key : string) (dec : json -> option A) (issued : A -> Z) (maxAge : Z).

(** A sealed value opens until it is too old. *)
Lemma open_seal n j a :
  json_ok j = true -> dec j = Some a ->
  open_sealed key dec issued maxAge n (seal key (json_print j))
  = if n - fromUnix (issued a) <=? maxAge then Ok a else Err StateExpired.
Proof.
  intros Hj Hd. unfold open_sealed, seal. set (p := json_print j).
  change ("." +:+ hmacHex key p) with (String "." (hmacHex key p)).
  rewrite (cut_byte_app _ "." _ (b64_no_dot _)). unfold p. rewrite b64_decode_encode, String.eqb_refl, json_parse_print, Hd by done. by destruct (_ <=? _).
Qed.

(** What opens carries the key's signature over what was decoded, and is young. *)
Lemma open_sealed_signed n raw a :
  open_sealed key dec issued maxAge n raw = Ok a ->
  exists p payload j, raw = p +:+ "." +:+ hmacHex key payload /\ b64_decode p = Some payload
  /\ json_parse payload = Some j /\ dec j = Some a /\ n - fromUnix (issued a) <= maxAge.
Proof.
  unfold open_sealed. intros H. destruct (cut_byte raw ".") as [[p sig] []] eqn:Ec; [|done].
  apply cut_byte_found in Ec as [-> _]. destruct (b64_decode p) as [payload|] eqn:Eb; [|done].
  destruct (hmacHex key payload == sig) eqn:Es; [|done]. bool_facts. subst sig.
  destruct (json_parse payload) as [j|] eqn:Ej; [|done]. destruct (dec j) as [st|] eqn:Ed; [|done].
  destruct (_ <=? _) eqn:El; [|done]. injection H as <-. bool_facts.
  exists p, payload, j. by split_and!.
Qed.
End Sealed.
