(* ===== verification/Glob.v ===== *)
(** * Glob: code points and [filepath.Match]

    Go's shell patterns, which the e-mail login rules use: a parser from a
    pattern to its terms and the match of a name against them, on code points,
    with the separator ['/'] and backslash as the escape. *)

From S2P Require Import Prelude.

(** ** Code points *)

Definition byte_at (s : string) (n : nat) : Z :=
  match String.get n s with Some c => byte_val c | None => 0 end.

(** The first rune of a non-empty string; an invalid byte is U+FFFD. *)
Definition first_rune (s : string) : Z :=
  let b n := byte_at s n in
  match rune_width s with
  | 1%nat => if b 0%nat <? 128 then b 0%nat else 65533
  | 2%nat => (b 0%nat - 192) * 64 + (b 1%nat - 128)
  | 3%nat => ((b 0%nat - 224) * 64 + (b 1%nat - 128)) * 64 + (b 2%nat - 128)
  | 4%nat => (((b 0%nat - 240) * 64 + (b 1%nat - 128)) * 64 + (b 2%nat - 128)) * 64 + (b 3%nat - 128)
  | _ => 65533
  end.

Fixpoint runes_fuel (fuel : nat) (s : string) : list Z :=
  match fuel, s with
  | S f, String _ _ => first_rune s :: runes_fuel f (str_drop (rune_width s) s)
  | _, _ => []
  end.
(** Every rune is at least one byte: the length is fuel enough. *)
Definition runes (s : string) : list Z := runes_fuel (String.length s) s.

(** ** Patterns *)

Inductive term :=
| Star
| AnyRune
| CharClass (negated : bool) (ranges : list (Z * Z))
| Lit (r : Z).

Definition rune_of (c : ascii) : Z := byte_val c.

(** [getEsc]: a possibly escaped character of a class; something must follow. *)
Definition get_esc (p : list Z) : option (Z * list Z) :=
  match p with
  | [] => None
  | c :: rest =>
      if (c =? rune_of "-") || (c =? rune_of "]") then None
      else
        let q := if c =? rune_of "\" then rest else p in
        match q with
        | r :: x :: q => Some (r, x :: q)
        | _ => None
        end
  end.

(** The ranges of a class up to its closing bracket; at least one is required. *)
Fixpoint class_ranges (fuel : nat) (seen : bool) (p : list Z) : option (list (Z * Z) * list Z) :=
  match fuel with
  | O => None
  | S fuel =>
      match p with
      | c :: rest =>
          if (c =? rune_of "]") && seen then Some ([], rest)
          else
            match get_esc p with
            | None => None
            | Some (lo, q) =>
                let hi_q := match q with
                            | d :: q' => if d =? rune_of "-" then get_esc q' else Some (lo, q)
                            | [] => None
                            end in
                match hi_q with
                | None => None
                | Some (hi, q) =>
                    match class_ranges fuel true q with
                    | Some (rs, rest) => Some ((lo, hi) :: rs, rest)
                    | None => None
                    end
                end
            end
      | [] => None
      end
  end.

(** The terms of a pattern; [None] is [ErrBadPattern]. Each step consumes a rune,
    so one more than the length is fuel enough. *)
Fixpoint parse_terms (fuel : nat) (p : list Z) : option (list term) :=
  match fuel, p with
  | _, [] => Some []
  | O, _ => None
  | S fuel, c :: rest =>
      if c =? rune_of "*" then option_map (cons Star) (parse_terms fuel rest)
      else if c =? rune_of "?" then option_map (cons AnyRune) (parse_terms fuel rest)
      else if c =? rune_of "[" then
        let '(neg, q) := match rest with
                         | d :: q => if d =? rune_of "^" then (true, q) else (false, rest)
                         | [] => (false, [])
                         end in
        match class_ranges (S (length q)) false q with
        | Some (rs, rest) => option_map (cons (CharClass neg rs)) (parse_terms fuel rest)
        | None => None
        end
      else if c =? rune_of "\" then
        match rest with
        | r :: rest => option_map (cons (Lit r)) (parse_terms fuel rest)
        | [] => None
        end
      else option_map (cons (Lit c)) (parse_terms fuel rest)
  end.

Definition in_class (neg : bool) (rs : list (Z * Z)) (r : Z) : bool :=
  xorb neg (existsb (fun lh => (lh.1 <=? r) && (r <=? lh.2)) rs).

Definition separator : Z := rune_of "/".

Fixpoint match_terms (ts : list term) (s : list Z) : bool :=
  match ts with
  | [] => match s with [] => true | _ => false end
  | Star :: ts =>
      (fix star (s : list Z) : bool :=
         match_terms ts s
         || match s with
            | r :: s => negb (r =? separator) && star s
            | [] => false
            end) s
  | AnyRune :: ts =>
      match s with r :: s => negb (r =? separator) && match_terms ts s | [] => false end
  | CharClass neg rs :: ts =>
      match s with r :: s => in_class neg rs r && match_terms ts s | [] => false end
  | Lit c :: ts => match s with r :: s => (r =? c) && match_terms ts s | [] => false end
  end.

(** [filepath.Match]; [None] is [ErrBadPattern]. *)
Definition Match (pattern name : string) : option bool :=
  let p := runes pattern in
  match parse_terms (S (length p)) p with
  | Some ts => Some (match_terms ts (runes name))
  | None => None
  end.

Example match_examples :
  map (fun pn => Match pn.1 pn.2)
    [("*@example.com", "alice@example.com"); ("*@example.com", "a/b@example.com");
     ("a[b-d]?", "acz"); ("a[^b-d]?", "acz"); ("[]a]", "a"); ("a\*", "a*"); ("[a", "a")]
  = [Some true; Some false; Some true; Some false; None; Some true; None].
Proof. vm_compute. reflexivity. Qed.

(** A leading star matches any prefix without a separator. *)
Lemma star_suffix ts s :
  match_terms (Star :: ts) s = true <->
  exists a b, s = a ++ b /\ Forall (fun r => r <> separator) a /\ match_terms ts b = true.
Proof.
  induction s as [|r s IH].
  - simpl. rewrite orb_false_r. split.
    + intros H. by exists [], [].
    + intros (a & b & Hab & _ & H). symmetry in Hab. apply app_eq_nil in Hab as [-> ->]. done.
  - change (match_terms (Star :: ts) (r :: s))
      with (match_terms ts (r :: s) || (negb (r =? separator) && match_terms (Star :: ts) s)).
    rewrite orb_true_iff, andb_true_iff, negb_true_iff, Z.eqb_neq, IH. split.
    + intros [H|[Hr (a & b & -> & Ha & H)]]; [by exists [], (r :: s)|].
      exists (r :: a), b. by repeat constructor.
    + intros ([|x a] & b & Hab & Ha & H); simpl in Hab.
      * subst b. by left.
      * injection Hab as <- ->. inversion_clear Ha. right. split; [done|]. by exists a, b.
Qed.
