(* ===== verification/NodeDetect.v ===== *)
(** * NodeDetect: finding imports of Node core modules

    Models src/runtime/nodedetect.go: the regular expression that recognises a
    specifier [node:...] after [from], [require(], [import(] or [import], as the
    leftmost-first matcher it denotes, and the scan that collects the distinct
    specifiers; and, from src/server/internal/service/deploy.go, the scan of a
    whole bundle. *)

From stdpp Require Import sorting.
From S2P Require Import Prelude Bundle.

(** [\w] of the pattern's [\b], and RE2's [\s]. *)
Definition is_word (c : ascii) : bool := is_alnum c || (c =? "_")%char.
Definition re_space (c : ascii) : bool :=
  let v := byte_val c in (v =? 32) || (v =? 9) || (v =? 10) || (v =? 12) || (v =? 13).
Definition is_quote (c : ascii) : bool := (c =? "039")%char || (c =? "034")%char.

Fixpoint span (f : ascii -> bool) (s : string) : string * string :=
  match s with
  | String c r => if f c then let '(a, b) := span f r in (String c a, b) else ("", s)
  | EmptyString => ("", "")
  end.

Definition skip_spaces (s : string) : string := (span re_space s).2.

(** A literal at the head of the text. *)
Definition literal (p s : string) : option string :=
  if has_prefix s p then Some (str_drop (String.length p) s) else None.

(** The four lead-ins, in the order of the alternation; each leaves the text
    after it. *)
Definition lead_in_from (s : string) : option string :=
  match literal "from" s with Some r => Some (skip_spaces r) | None => None end.
Definition lead_in_call (word : string) (s : string) : option string :=
  match literal word s with
  | Some r => match literal "(" (skip_spaces r) with
              | Some r => Some (skip_spaces r)
              | None => None
              end
  | None => None
  end.
Definition lead_in_import (s : string) : option string :=
  match literal "import" s with
  | Some r => let '(sp, r) := span re_space r in if sp == "" then None else Some r
  | None => None
  end.

(** A quote, [node:], one or more other bytes and a quote: the captured specifier
    and the text after the closing quote. *)
Definition quoted_node (s : string) : option (string * string) :=
  match s with
  | String q r =>
      if is_quote q then
        match literal "node:" r with
        | Some r =>
            let '(name, r) := span (fun c => negb (is_quote c)) r in
            match r with
            | String _ rest => if name == "" then None else Some ("node:" +:+ name, rest)
            | EmptyString => None
            end
        | None => None
        end
      else None
  | EmptyString => None
  end.

Definition first_match (alts : list (option string)) : option (string * string) :=
  fold_right (fun a acc =>
    match a with
    | Some r => match quoted_node r with Some m => Some m | None => acc end
    | None => acc
    end) None alts.

(** A match at this position; [before] says that the previous byte is a word
    byte. *)
Definition match_here (before : bool) (s : string) : option (string * string) :=
  if before then None
  else first_match [lead_in_from s; lead_in_call "require" s; lead_in_call "import" s;
                    lead_in_import s].

(** [FindAllStringSubmatch]: non-overlapping matches from the left. A match
    consumes at least one byte, so the length of the text is fuel enough. *)
Fixpoint find_all (fuel : nat) (before : bool) (s : string) : list string :=
  match fuel, s with
  | S fuel, String c r =>
      match match_here before s with
      | Some (spec, rest) => spec :: find_all fuel false rest
      | None => find_all fuel (is_word c) r
      end
  | _, _ => []
  end.

(** Keep the first of equal strings. *)
Fixpoint first_seen (seen : gset string) (l : list string) : list string :=
  match l with
  | [] => []
  | x :: l =>
      if bool_decide (x ∈ seen) then first_seen seen l else x :: first_seen ({[ x ]} ∪ seen) l
  end.

Definition DetectNodeCoreImports (source : string) : list string :=
  first_seen ∅ (find_all (String.length source) false source).

(** ** service/deploy.go *)

Definition looksLikeJSModule (path : string) : bool :=
  existsb (fun ext => has_suffix path ext) [".js"; ".mjs"; ".cjs"].

Definition detectNodeCoreImports (files : gmap string string) : list string :=
  let names := merge_sort str_le (map fst (map_to_list files)) in
  first_seen ∅ (flat_map (fun name =>
    if looksLikeJSModule name then DetectNodeCoreImports (default "" (files !! name)) else []) names).

(** ** Examples: every form, and what is not one *)

Example detect_forms :
  DetectNodeCoreImports "import fs from 'node:fs'; require( 'node:path' ); import('node:os') ; import 'node:fs'"
  = ["node:fs"; "node:path"; "node:os"].
Proof. vm_compute. reflexivity. Qed.
Example detect_none :
  DetectNodeCoreImports "xfrom 'node:fs'; import'node:a'; from 'fs'; from 'node:'" = [].
Proof. vm_compute. reflexivity. Qed.
