(* ===== verification/Collect.v ===== *)
(** * Collect: the files of a project that go into its bundle

    Models src/internal/cli/ignore.go and collect.go: the patterns of
    [.funcboxignore] and their matching, and the walk over the project's directory,
    symbolic links included. The file system is a parameter, taken not to change
    during a walk. Proved: the walk ends on every file system, it collects exactly
    the files that are not excluded, within the limits the server enforces, and the
    server unpacks what was packed of them. *)

From S2P Require Import Prelude GoPath Glob Bundle.

(** ** ignore.go *)

Record ignoreRule := mkIgnoreRule {
  ir_negate : bool;
  ir_dirOnly : bool;
  ir_anchored : bool;
  ir_segments : list string
}.
Definition Matcher : Type := list ignoreRule.

Definition parseIgnoreLine (pattern : string) : option ignoreRule :=
  let negate := has_prefix pattern "!" in
  let pattern := if negate then str_drop 1 pattern else pattern in
  if pattern == "" then None
  else
    let anchored := has_prefix pattern "/" in
    let pattern := if anchored then str_drop 1 pattern else pattern in
    let dirOnly := has_suffix pattern "/" in
    let pattern := if dirOnly then trim_suffix pattern "/" else pattern in
    if pattern == "" then None
    else
      let segments := split_byte pattern "/" in
      Some (mkIgnoreRule negate dirOnly (anchored || (1 <? length segments)%nat) segments).

Definition ignore_line {U : UnicodeTables} (line : string) : option ignoreRule :=
  let trimmed := trim_space (trim_right_func (fun c => (c =? "013")%char) line) in
  if (trimmed == "") || has_prefix trimmed "#" then None else parseIgnoreLine trimmed.

Definition NewMatcher {U : UnicodeTables} (data : string) : Matcher := omap ignore_line (split_byte data "010").

Fixpoint segmentsMatch (pattern : list string) (path : list string) : bool :=
  match pattern with
  | [] => match path with [] => true | _ => false end
  | p :: rest =>
      if p == "**" then
        (fix skip (path : list string) : bool :=
           segmentsMatch rest path || match path with [] => false | _ :: path => skip path end) path
      else
        match path with
        | [] => false
        | s :: path => match Match p s with
                       | Some true => segmentsMatch rest path
                       | _ => false
                       end
        end
  end.

(** The ends of a path, from the whole to the empty one. *)
Fixpoint tails {A} (l : list A) : list (list A) :=
  l :: match l with [] => [] | _ :: l => tails l end.

Definition ruleMatches (rule : ignoreRule) (path : list string) : bool :=
  if ir_anchored rule then segmentsMatch (ir_segments rule) path
  else existsb (segmentsMatch (ir_segments rule)) (tails path).

Definition rule_step (path : list string) (isDir : bool) (ignored : bool) (rule : ignoreRule) : bool :=
  if ir_dirOnly rule && negb isDir then ignored
  else if ruleMatches rule path then negb (ir_negate rule) else ignored.

Definition Matcher_Match (m : Matcher) (relPath : string) (isDir : bool) : bool :=
  if relPath == "" then false
  else fold_left (rule_step (split_byte relPath "/") isDir) m false.

Definition sample_ignore : Matcher :=
  NewMatcher (join_with (String "010" "") ["# comment"; ""; "*.log"; "/build/"; "src/**/*.gen.js"; "!keep.log"; "docs/*.md"]).

Example match_ignore_examples :
  map (fun p => Matcher_Match sample_ignore p false)
    ["a.log"; "sub/dir/a.log"; "keep.log"; "build"; "src/a.gen.js"; "src/x/y/a.gen.js"; "docs/a.md"; "docs/x/a.md"]
  = [true; true; false; false; true; true; true; false]
  /\ Matcher_Match sample_ignore "build" true = true /\ Matcher_Match sample_ignore "x/build" true = false.
Proof. by vm_compute. Qed.

(** ** What a pattern means *)

(** A pattern matches a path segment by segment; [**] stands for any number of
    segments. *)
Inductive glob_path : list string -> list string -> Prop :=
| glob_nil : glob_path [] []
| glob_any rest skipped path : glob_path rest path -> glob_path ("**" :: rest) (skipped ++ path)
| glob_one p s rest path : p <> "**" -> Match p s = Some true -> glob_path rest path ->
    glob_path (p :: rest) (s :: path).

Lemma segmentsMatch_spec pattern : forall path, segmentsMatch pattern path = true <-> glob_path pattern path.
Proof.
  induction pattern as [|p rest IH]; intros path.
  - simpl. destruct path; split; intros H; try done; [constructor|inversion H].
  - cbn [segmentsMatch]. destruct (p == "**") eqn:E; bool_facts; subst.
    + split.
      * induction path as [|s path IHp]; intros H; apply orb_true_iff in H as [H|H]; try done.
        -- apply (glob_any rest []). by apply IH.
        -- apply (glob_any rest []). by apply IH.
        -- apply IHp in H. inversion H as [|? skipped ? Hm|]; subst; [|done]. by apply (glob_any rest (s :: skipped)).
      * intros H. inversion H as [|? skipped path' Hm|]; subst; [|done]. clear H. apply IH in Hm.
        induction skipped as [|s skipped IHs]; [|apply orb_true_iff; by right].
        simpl. destruct path'; by rewrite Hm.
    + split.
      * destruct path as [|s path]; [done|]. destruct (Match p s) as [[]|] eqn:Em; try done.
        intros H. constructor; [done|done|by apply IH].
      * intros H. inversion H as [| |? ? ? ? Hp Hm Hr]; subst; [done|]. rewrite Hm. by apply IH.
Qed.

(** A rule applies to a path: to a directory only where it says so, and from the
    root or at any depth. *)
Definition rule_applies (r : ignoreRule) (path : list string) (isDir : bool) : Prop :=
  (ir_dirOnly r = true -> isDir = true)
  /\ if ir_anchored r then glob_path (ir_segments r) path
     else exists above below, path = above ++ below /\ glob_path (ir_segments r) below.

Lemma elem_of_tails {A} (x l : list A) : x ∈ tails l <-> exists above, l = above ++ x.
Proof.
  induction l as [|a l IH]; simpl.
  - rewrite list_elem_of_singleton. split; [intros ->; by exists []|]. intros [above H]. by destruct above, x.
  - rewrite elem_of_cons, IH. split.
    + intros [->|[above ->]]; [by exists []|by exists (a :: above)].
    + intros [[|b above] H]; simpl in H; [by left|]. injection H as -> ->. right. by exists above.
Qed.

Lemma ruleMatches_spec r path isDir :
  negb (ir_dirOnly r && negb isDir) && ruleMatches r path = true <-> rule_applies r path isDir.
Proof.
  unfold rule_applies, ruleMatches. rewrite andb_true_iff.
  assert (negb (ir_dirOnly r && negb isDir) = true <-> (ir_dirOnly r = true -> isDir = true)) as ->
    by (destruct (ir_dirOnly r), isDir; simpl; split; intros H; try done; by (discriminate H || specialize (H eq_refl))).
  destruct (ir_anchored r); [by rewrite segmentsMatch_spec|].
  rewrite existsb_exists. split; intros [H1 H]; (split; [exact H1|]).
  - destruct H as (below & Hin & Hm). apply list_elem_of_In, elem_of_tails in Hin as [above ->].
    apply segmentsMatch_spec in Hm. eauto.
  - destruct H as (above & below & -> & Hm). exists below. rewrite segmentsMatch_spec, <- list_elem_of_In, elem_of_tails. eauto.
Qed.

(** The last rule that applies decides. *)
Definition decided (m : Matcher) (path : list string) (isDir : bool) : Prop :=
  exists before r after, m = before ++ r :: after /\ rule_applies r path isDir /\ ir_negate r = false
    /\ Forall (fun r' => ~ rule_applies r' path isDir) after.

Lemma decided_snoc m r path isDir : decided (m ++ [r]) path isDir <->
  (rule_applies r path isDir /\ ir_negate r = false) \/ (~ rule_applies r path isDir /\ decided m path isDir).
Proof.
  split.
  - intros (before & r' & after & E & Ha & Hn & Hl). destruct after as [|x after _] using rev_ind.
    + apply app_inj_tail in E as [-> ->]. by left.
    + rewrite app_comm_cons, app_assoc in E. apply app_inj_tail in E as [-> ->]. apply Forall_app in Hl as [Hl Hx].
      inversion Hx. right. split; [done|]. by exists before, r', after.
  - intros [[Ha Hn]|[Hn (before & r' & after & -> & Ha & Hneg & Hl)]].
    + exists m, r, []. split_and!; try done; constructor.
    + exists before, r', (after ++ [r]). rewrite <- app_assoc. split_and!; try done. apply Forall_app. split; [done|].
      by constructor.
Qed.

(** A path is ignored exactly when a line of the ignore file that is no negation
    applies to it and no later line does; a pattern applies segment by segment, with
    [**] standing for any number of segments, from the root if it is anchored and at
    any depth otherwise. *)
Theorem ignored_spec m relPath isDir :
  Matcher_Match m relPath isDir = true <-> relPath <> "" /\ decided m (split_byte relPath "/") isDir.
Proof.
  unfold Matcher_Match. destruct (relPath == "") eqn:E; bool_facts; [split; [done|by intros []]|].
  set (path := split_byte relPath "/"). induction m as [|r m IH] using rev_ind.
  { split; [done|]. intros [_ ([] & ? & ? & H & _)]; done. }
  rewrite fold_left_app, decided_snoc. cbn [fold_left]. unfold rule_step at 1.
  pose proof (ruleMatches_spec r path isDir) as Hr. destruct (ir_dirOnly r && negb isDir); cbn [negb andb] in Hr.
  - rewrite IH, <- Hr. intuition congruence.
  - destruct (ruleMatches r path); rewrite <- Hr; [|rewrite IH; intuition congruence].
    rewrite negb_true_iff. intuition congruence.
Qed.

Lemma ignored_spec_witness : decided sample_ignore ["src"; "x"; "y"; "a.gen.js"] false.
Proof.
  apply (proj1 (ignored_spec sample_ignore "src/x/y/a.gen.js" false)). by vm_compute.
Defined.

(** ** collect.go *)

Definition IgnoreFileName : string := ".funcboxignore".

(** [path.Base]. *)
Definition path_Base (p : string) : string :=
  if p == "" then "."
  else
    let p := trim_right_func (fun c => (c =? "/")%char) p in
    let p := match last_index_byte p "/" with Some i => str_drop (S i) p | None => p end in
    if p == "" then "/" else p.

Definition isImplicitDirExclude (rel : string) (includeNodeModules : bool) : bool :=
  let base := path_Base rel in
  (base == ".git") || (negb includeNodeModules && (base == "node_modules")).

Definition isImplicitFileExclude (rel : string) : bool :=
  let base := path_Base rel in
  (base == IgnoreFileName) || match Match ".env*" base with Some ok => ok | None => false end.

Record DirEntry := mkDirEntry { de_Name : string; de_Symlink : bool; de_Dir : bool }.

(** The file system under the project's directory: a path is the list of names from
    there. A directory lists its names once each; symbolic links resolve to one of
    finitely many directories. *)
Class FileSystem := {
  ReadDir : list string -> option (list DirEntry);
  StatIsDir : list string -> option bool;
  EvalSymlinks : list string -> option string;
  ReadFile : list string -> option string;
  real_dirs : gset string;
  ReadDir_names p es : ReadDir p = Some es -> Forall (fun e => plain_elem (de_Name e)) es;
  EvalSymlinks_dirs p r : EvalSymlinks p = Some r -> r ∈ real_dirs
}.

Inductive CollectErr :=
| ErrResolveDir (rel : string)
| ErrReadDirectory (rel : string)
| ErrBrokenSymlink (rel : string)
| ErrReadFile (rel : string)
| ErrBundleTooLarge (rel : string).

Section Walk.
Context {FS : FileSystem} (includeNodeModules : bool) (ignoreMatcher : Matcher).

(** The path of an entry, relative to the project. *)
Definition rel_path (p : list string) : string := join_with "/" p.

(** The files so far and the bytes read. *)
Definition collected : Type := gmap string string * Z.

Definition entry_is_dir (p : list string) (e : DirEntry) : result CollectErr bool :=
  if de_Symlink e then
    match StatIsDir p with Some b => Ok b | None => Err (ErrBrokenSymlink (rel_path p)) end
  else Ok (de_Dir e).

Definition collect_file (p : list string) (st : collected) : result CollectErr collected :=
  let rel := rel_path p in
  if isImplicitFileExclude rel || Matcher_Match ignoreMatcher rel false then Ok st
  else
    match ReadFile p with
    | None => Err (ErrReadFile rel)
    | Some data =>
        let total := st.2 + str_len data in
        if (MaxFiles <? Z.of_nat (size st.1) + 1) || (MaxUnpackedBytes <? total)
        then Err (ErrBundleTooLarge rel)
        else Ok (<[rel := data]> st.1, total)
    end.

(** The entries of a directory; [rec] collects a directory below it. *)
Fixpoint walk (rec : list string -> gset string -> collected -> option (result CollectErr collected))
    (cur : list string) (ancestors : gset string) (entries : list DirEntry) (st : collected)
    : option (result CollectErr collected) :=
  match entries with
  | [] => Some (Ok st)
  | e :: entries =>
      let p := cur ++ [de_Name e] in
      match entry_is_dir p e with
      | Err err => Some (Err err)
      | Ok true =>
          if isImplicitDirExclude (rel_path p) includeNodeModules || Matcher_Match ignoreMatcher (rel_path p) true
          then walk rec cur ancestors entries st
          else
            match EvalSymlinks p with
            | None => Some (Err (ErrResolveDir (rel_path p)))
            | Some real =>
                if bool_decide (real ∈ ancestors) then walk rec cur ancestors entries st
                else
                  match rec p ({[real]} ∪ ancestors) st with
                  | Some (Ok st) => walk rec cur ancestors entries st
                  | r => r
                  end
            end
      | Ok false =>
          match collect_file p st with
          | Ok st => walk rec cur ancestors entries st
          | Err err => Some (Err err)
          end
      end
  end.

(** [None] when the fuel, the number of directories that may be nested, is not
    enough. *)
Fixpoint collectDir (fuel : nat) (cur : list string) (ancestors : gset string) (st : collected)
    : option (result CollectErr collected) :=
  match fuel with
  | O => None
  | S fuel =>
      match ReadDir cur with
      | None => Some (Err (ErrReadDirectory (rel_path cur)))
      | Some entries => walk (collectDir fuel) cur ancestors entries st
      end
  end.

Definition CollectFiles (fuel : nat) : option (result CollectErr (gmap string string)) :=
  match EvalSymlinks [] with
  | None => Some (Err (ErrResolveDir ""))
  | Some rootReal =>
      match collectDir fuel [] {[rootReal]} (∅, 0) with
      | Some (Ok st) => Some (Ok st.1)
      | Some (Err e) => Some (Err e)
      | None => None
      end
  end.
End Walk.

Definition CheckUnpackedSize (files : gmap string string) : bool :=
  negb (MaxUnpackedBytes <? contents_size (map_to_list files))
  && negb (MaxFiles <? Z.of_nat (size files)).

(** ** The walk ends *)

Section Termination.
Context {FS : FileSystem} (includeNodeModules : bool) (ignoreMatcher : Matcher).

Lemma collectDir_ends fuel : forall cur ancestors st, (size (real_dirs ∖ ancestors) < fuel)%nat ->
  is_Some (collectDir includeNodeModules ignoreMatcher fuel cur ancestors st).
Proof.
  induction fuel as [|fuel IH]; intros cur ancestors st Hf; [lia|]. cbn [collectDir].
  destruct (ReadDir cur) as [entries|]; [|eauto]. revert st. induction entries as [|e entries IHe]; intros st; [simpl; eauto|].
  cbn [walk]. cbv zeta. destruct (entry_is_dir _ e) as [[]|]; [| |eauto].
  - case_goal; [apply IHe|]. destruct (EvalSymlinks _) as [real|] eqn:Er; [|eauto].
    case_bool_decide as Hin; [apply IHe|].
    destruct (IH (cur ++ [de_Name e]) ({[real]} ∪ ancestors) st) as [[st'|err] ->]; [|apply IHe|eauto].
    assert (size (real_dirs ∖ ({[real]} ∪ ancestors)) < size (real_dirs ∖ ancestors))%nat; [|lia].
    apply subset_size. pose proof (EvalSymlinks_dirs _ _ Er). set_solver.
  - destruct (collect_file _ _ st); [apply IHe|eauto].
Qed.

Lemma collectDir_more fuel : forall cur ancestors st r,
  collectDir includeNodeModules ignoreMatcher fuel cur ancestors st = Some r ->
  forall more, (fuel <= more)%nat -> collectDir includeNodeModules ignoreMatcher more cur ancestors st = Some r.
Proof.
  induction fuel as [|fuel IH]; intros cur ancestors st r H more Hm; [done|]. destruct more as [|more]; [lia|].
  cbn [collectDir] in *. destruct (ReadDir cur) as [entries|]; [|done]. revert st H.
  induction entries as [|e entries IHe]; intros st H; [done|]. cbn [walk] in *. cbv zeta in *.
  destruct (entry_is_dir _ e) as [[]|]; [| |done].
  - case_goal; [by apply IHe|]. destruct (EvalSymlinks _) as [real|] eqn:Er; [|done].
    case_bool_decide as Hin; [by apply IHe|].
    destruct (collectDir _ _ fuel _ _ st) as [x|] eqn:Ec; [|done]. rewrite (IH _ _ _ _ Ec more) by lia.
    destruct x; [by apply IHe|done].
  - destruct (collect_file _ _ st); [by apply IHe|done].
Qed.

(** Collecting a project's files ends, whatever symbolic links its directories
    hold, cycles included: a nesting as deep as there are directories is enough, and
    allowing more changes nothing. *)
Theorem collect_ends : exists r, forall fuel, (size real_dirs < fuel)%nat ->
  CollectFiles includeNodeModules ignoreMatcher fuel = Some r.
Proof.
  unfold CollectFiles. destruct (EvalSymlinks []) as [root|]; [|eauto].
  destruct (collectDir_ends (S (size real_dirs)) [] {[root]} (∅, 0)) as [r Hr].
  { assert (size (real_dirs ∖ {[root]}) <= size real_dirs)%nat by (apply subseteq_size; set_solver). lia. }
  destruct r as [st|e]; eexists; intros fuel Hf; by rewrite (collectDir_more _ _ _ _ _ Hr fuel Hf).
Qed.
End Termination.

(** ** What is collected *)

Section Exact.
Context {FS : FileSystem} (includeNodeModules : bool) (ignoreMatcher : Matcher).

(** The files reached from a directory without passing an excluded directory, or one
    that is an ancestor of itself, and not excluded themselves. *)
Inductive included : gset string -> list string -> list string -> Prop :=
| included_entry ancestors cur es e p : ReadDir cur = Some es -> e ∈ es -> via ancestors cur e p ->
    included ancestors cur p
with via : gset string -> list string -> DirEntry -> list string -> Prop :=
| via_file ancestors cur e : entry_is_dir (cur ++ [de_Name e]) e = Ok false ->
    isImplicitFileExclude (rel_path (cur ++ [de_Name e])) = false ->
    Matcher_Match ignoreMatcher (rel_path (cur ++ [de_Name e])) false = false ->
    via ancestors cur e (cur ++ [de_Name e])
| via_dir ancestors cur e real p : entry_is_dir (cur ++ [de_Name e]) e = Ok true ->
    isImplicitDirExclude (rel_path (cur ++ [de_Name e])) includeNodeModules = false ->
    Matcher_Match ignoreMatcher (rel_path (cur ++ [de_Name e])) true = false ->
    EvalSymlinks (cur ++ [de_Name e]) = Some real -> real ∉ ancestors ->
    included ({[real]} ∪ ancestors) (cur ++ [de_Name e]) p -> via ancestors cur e p.

(** The files hold what the file system holds, within the limits. *)
Record sound (st : collected) : Prop := {
  s_read k c : st.1 !! k = Some c -> exists p, k = rel_path p /\ Forall plain_elem p /\ p <> [] /\ ReadFile p = Some c;
  s_count : Z.of_nat (size st.1) <= MaxFiles;
  s_bytes : contents_size (map_to_list st.1) <= st.2 <= MaxUnpackedBytes
}.

(** From one state to another exactly the files of a set of paths are added. *)
Definition adds (Q : list string -> Prop) (st st' : collected) : Prop :=
  sound st' /\ forall k, is_Some (st'.1 !! k) <-> is_Some (st.1 !! k) \/ exists p, Q p /\ k = rel_path p.

Lemma adds_none (Q : list string -> Prop) st : sound st -> (forall p, ~ Q p) -> adds Q st st.
Proof. intros Hs HQ. split; [done|]. intros k. split; [by left|]. intros [H|(p & H & _)]; [done|by apply HQ in H]. Qed.

Lemma adds_both (Q1 Q2 Q : list string -> Prop) st1 st2 st3 :
  (forall p, Q p <-> Q1 p \/ Q2 p) -> adds Q1 st1 st2 -> adds Q2 st2 st3 -> adds Q st1 st3.
Proof.
  intros HQ [_ H1] [Hs H2]. split; [done|]. intros k. rewrite H2, H1. split.
  - intros [[H|(p & H & ->)]|(p & H & ->)]; [by left| |]; right; exists p; (split; [apply HQ; auto|done]).
  - intros [H|(p & H & ->)]; [by left; left|]. apply HQ in H as [H|H]; [left; right; eauto|right; eauto].
Qed.

Lemma contents_fresh (m : gmap string string) k d : m !! k = None ->
  contents_size (map_to_list (<[k := d]> m)) = str_len d + contents_size (map_to_list m).
Proof. intros E. exact (contents_size_perm _ _ (map_to_list_insert m k d E)). Qed.

Lemma contents_insert (m : gmap string string) k d :
  contents_size (map_to_list (<[k := d]> m)) <= contents_size (map_to_list m) + str_len d.
Proof.
  pose proof (contents_fresh (delete k m) k d (lookup_delete_eq _ _)) as H. rewrite insert_delete_eq in H.
  rewrite H. destruct (m !! k) as [d'|] eqn:E; [|rewrite delete_id by done; lia].
  pose proof (contents_fresh (delete k m) k d' (lookup_delete_eq _ _)) as H'. rewrite insert_delete_id in H' by done.
  rewrite H'. pose proof (str_len_nonneg d'). lia.
Qed.

Lemma file_added cur e st st' : Forall plain_elem (cur ++ [de_Name e]) ->
  entry_is_dir (cur ++ [de_Name e]) e = Ok false -> sound st ->
  collect_file ignoreMatcher (cur ++ [de_Name e]) st = Ok st' ->
  forall ancestors, adds (via ancestors cur e) st st'.
Proof.
  intros Hp Hd Hs H ancestors. unfold collect_file in H.
  destruct (isImplicitFileExclude _ || _) eqn:Ex.
  - injection H as <-. apply adds_none; [done|]. intros p Hv. apply orb_true_iff in Ex.
    inversion Hv; subst; destruct Ex; congruence.
  - apply orb_false_iff in Ex as [Ex1 Ex2]. destruct (ReadFile _) as [data|] eqn:Er; [|done].
    destruct (_ || _) eqn:El; [done|]. injection H as <-. bool_facts. split.
    + destruct Hs as [Hs1 Hs2 Hs3]. split; simpl.
      * intros k c Hk. apply lookup_insert_Some in Hk as [[<- <-]|[_ Hk]]; [|by apply Hs1].
        exists (cur ++ [de_Name e]). split_and!; try done. by destruct cur.
      * rewrite map_size_insert. destruct (st.1 !! _); simpl; lia.
      * pose proof (contents_insert st.1 (rel_path (cur ++ [de_Name e])) data). lia.
    + intros k. simpl. rewrite lookup_insert_is_Some'. split.
      * intros [<-|Hk]; [|by left]. right. eexists. split; [by apply via_file|done].
      * intros [Hk|(p & Hv & ->)]; [by right|]. inversion Hv; subst; [by left|congruence].
Qed.

Lemma collected_exactly fuel : forall cur ancestors st st', Forall plain_elem cur -> sound st ->
  collectDir includeNodeModules ignoreMatcher fuel cur ancestors st = Some (Ok st') ->
  adds (included ancestors cur) st st'.
Proof.
  induction fuel as [|fuel IH]; intros cur ancestors st st' Hc Hs H; [done|]. cbn [collectDir] in H.
  destruct (ReadDir cur) as [es|] eqn:Er; [|done]. pose proof (ReadDir_names _ _ Er) as Hn.
  cut (adds (fun p => exists e, e ∈ es /\ via ancestors cur e p) st st').
  { intros [Hs' Hk]. split; [done|]. intros k. rewrite Hk. split.
    - intros [Hl|(p & (e & He & Hv) & ->)]; [by left|right]. exists p. split; [by econstructor|done].
    - intros [Hl|(p & Hi & ->)]; [by left|right]. inversion Hi as [? ? es' e ? Hr He Hv]; subst.
      rewrite Er in Hr. injection Hr as <-. eauto. }
  clear Er. revert st Hs H. induction es as [|e es IHe]; intros st Hs H.
  { injection H as <-. apply adds_none; [done|]. intros p (e & He & _). by apply elem_of_nil in He. }
  inversion Hn as [|? ? Hn1 Hn2]; subst. cbn [walk] in H. cbv zeta in H.
  assert (Forall plain_elem (cur ++ [de_Name e])) as Hp by (apply Forall_app; split; [done|by constructor]).
  assert (forall st1, adds (via ancestors cur e) st st1 -> walk includeNodeModules ignoreMatcher
            (collectDir includeNodeModules ignoreMatcher fuel) cur ancestors es st1 = Some (Ok st') ->
            adds (fun p => exists e', e' ∈ e :: es /\ via ancestors cur e' p) st st') as Hrest.
  { intros st1 H1 H2. eapply adds_both; [|exact H1|apply (IHe Hn2 st1); [by destruct H1|exact H2]].
    intros p. split.
    - intros (e' & [->|He]%elem_of_cons & Hv); [by left|right; eauto].
    - intros [Hv|(e' & He & Hv)]; eexists; (split; [|exact Hv]); [by left|by right]. }
  destruct (entry_is_dir _ e) as [[]|] eqn:Ed; [| |done].
  - destruct (_ || _) eqn:Ex.
    + apply (Hrest st); [|done]. apply adds_none; [done|]. intros p Hv. apply orb_true_iff in Ex.
      inversion Hv; subst; destruct Ex; congruence.
    + apply orb_false_iff in Ex as [Ex1 Ex2]. destruct (EvalSymlinks _) as [real|] eqn:Es; [|done].
      case_bool_decide as Hin.
      * apply (Hrest st); [|done]. apply adds_none; [done|]. intros p Hv. inversion Hv; subst; congruence.
      * destruct (collectDir _ _ fuel _ _ st) as [[st1|]|] eqn:Ec; try done.
        apply (Hrest st1); [|done]. destruct (IH _ _ _ _ Hp Hs Ec) as [Hs1 Hk]. split; [done|].
        intros k. rewrite Hk. split; (intros [Hl|(p & Hv & ->)]; [by left|right]); exists p; (split; [|done]).
        -- by eapply via_dir.
        -- inversion Hv; subst; congruence.
  - destruct (collect_file _ _ st) as [st1|] eqn:Ef; [|done]. apply (Hrest st1); [|done].
    by apply file_added.
Qed.
End Exact.

(** ** Private names stay behind *)

Lemma between_at lo hi s n : byte_between lo hi s n = true -> lo <= byte_at s n <= hi.
Proof. unfold byte_between, byte_at. destruct (String.get n s); [|done]. intros H. bool_lia. Qed.

(** Only the byte of the separator stands for it. *)
Lemma separator_rune c s : first_rune (String c s) = separator -> c = "/"%char.
Proof.
  intros H. assert (byte_val c = 47) as Hc.
  { unfold first_rune in H. change separator with 47 in H. unfold rune_width in H. cbv zeta in H.
    assert (byte_at (String c s) 0 = byte_val c) as E0 by done. rewrite E0 in H.
    repeat (case_step H; bool_facts); repeat match goal with H : byte_between _ _ _ _ = true |- _ => apply between_at in H end;
      try lia. }
  unfold byte_val in Hc. rewrite <- (ascii_nat_embedding c). replace (nat_of_ascii c) with 47%nat by lia. done.
Qed.

Lemma plain_runes s : str_forallb (fun d => negb (d =? "/")%char) s = true -> Forall (fun r => r <> separator) (runes s).
Proof.
  unfold runes. generalize (String.length s) as n. intros n. revert s.
  induction n as [|n IH]; intros s Hs; destruct s as [|c s]; simpl; try constructor.
  - intros E. apply separator_rune in E as ->. simpl in Hs. done.
  - apply IH. by apply str_forallb_drop.
Qed.

Lemma env_excluded s : str_forallb (fun d => negb (d =? "/")%char) s = true -> Match ".env*" (".env" +:+ s) = Some true.
Proof.
  intros Hs. unfold Match. change (runes (".env" +:+ s)) with (46 :: 101 :: 110 :: 118 :: runes s).
  change (parse_terms _ _) with (Some [Lit 46; Lit 101; Lit 110; Lit 118; Star]). f_equal.
  change (match_terms _ _) with (match_terms [Star] (runes s)). apply star_suffix.
  exists (runes s), []. rewrite app_nil_r. split_and!; [done|by apply plain_runes|done].
Qed.

Lemma trim_plain e p : plain_elem e -> trim_right_func (fun c => (c =? "/")%char) (p +:+ e) = p +:+ e.
Proof.
  intros (He & _ & _ & Hs). destruct (str_snoc_inv e He) as (r & d & ->).
  rewrite str_forallb_app in Hs. simpl in Hs. bool_facts. unfold trim_right_func.
  rewrite <- str_app_assoc, str_rev_snoc. simpl. rewrite H0. by rewrite <- str_rev_snoc, str_rev_rev.
Qed.

Lemma join_snoc d dirs name : exists p, join_with "/" ((d :: dirs) ++ [name]) = p +:+ String "/" name.
Proof.
  revert d. induction dirs as [|d' dirs IH]; intros d; [by exists d|]. destruct (IH d') as [p Hp].
  exists (d +:+ "/" +:+ p). change ((d :: d' :: dirs) ++ [name]) with (d :: (d' :: dirs) ++ [name]).
  rewrite join_app_nonempty, Hp. simpl. by rewrite str_app_assoc.
Qed.

Lemma base_of_path dirs name : plain_elem name -> path_Base (rel_path (dirs ++ [name])) = name.
Proof.
  intros Hn. pose proof Hn as (He & _ & _ & Hs). apply String.eqb_neq in He as E. unfold path_Base, rel_path.
  destruct dirs as [|d dirs].
  - simpl. pose proof (trim_plain name "" Hn) as Ht. simpl in Ht. by rewrite E, Ht, last_index_none, E.
  - destruct (join_snoc d dirs name) as [p ->]. change (String "/" name) with ("/" +:+ name).
    rewrite <- str_app_assoc, trim_plain, str_app_assoc by done. change ("/" +:+ name) with (String "/" name).
    rewrite last_index_app, str_drop_S_app, E by done. by destruct p.
Qed.

(** ** The collected files *)

Section Files.
Context {FS : FileSystem} (includeNodeModules : bool) (ignoreMatcher : Matcher).

(** No directory on the way is left out, and the file's own name is not private. *)
Definition admitted (p : list string) : Prop :=
  exists dirs name, p = dirs ++ [name] /\ name <> IgnoreFileName /\ has_prefix name ".env" = false
    /\ (".git" ∉ dirs) /\ (includeNodeModules = false -> "node_modules" ∉ dirs).

Scheme included_via := Induction for included Sort Prop
  with via_included := Induction for via Sort Prop.

Lemma file_excluded dirs name : plain_elem name -> isImplicitFileExclude (rel_path (dirs ++ [name])) = false ->
  name <> IgnoreFileName /\ has_prefix name ".env" = false.
Proof.
  intros Hn. unfold isImplicitFileExclude. rewrite base_of_path by done. rewrite orb_false_iff.
  intros [H1 H2]. split; [by apply String.eqb_neq|]. apply not_true_is_false. intros Hp.
  apply has_prefix_spec in Hp as [t ->]. destruct Hn as (_ & _ & _ & Hs). rewrite env_excluded in H2; [done|].
  rewrite str_forallb_app in Hs. by apply andb_true_iff in Hs as [_ ?].
Qed.

Lemma dir_excluded dirs name : plain_elem name ->
  isImplicitDirExclude (rel_path (dirs ++ [name])) includeNodeModules = false ->
  name <> ".git" /\ (includeNodeModules = false -> name <> "node_modules").
Proof.
  intros Hn. unfold isImplicitDirExclude. rewrite base_of_path by done. rewrite orb_false_iff.
  intros [H1 H2]. split; [by apply String.eqb_neq|]. intros ->. by apply String.eqb_neq.
Qed.

Definition clean_dirs (dirs : list string) : Prop :=
  (".git" ∉ dirs) /\ (includeNodeModules = false -> "node_modules" ∉ dirs).

Lemma included_paths ancestors cur p : included includeNodeModules ignoreMatcher ancestors cur p ->
  Forall plain_elem cur -> clean_dirs cur -> Forall plain_elem p /\ p <> [] /\ admitted p.
Proof.
  intros H. induction H as [anc cur es e p Hr He Hv IH|anc cur e Hd Hf Hm|anc cur e real p Hd Hx Hm Hs Ha Hi IH]
    using included_via with (P0 := fun anc cur e p _ => plain_elem (de_Name e) -> Forall plain_elem cur ->
      clean_dirs cur -> Forall plain_elem p /\ p <> [] /\ admitted p).
  - intros Hc Hcl. apply IH; [|done|done]. apply ReadDir_names in Hr. rewrite Forall_forall in Hr. by apply Hr.
  - intros Hn Hc [Hg Hnm]. split_and!; [apply Forall_app; split; [done|by constructor]|by destruct cur|].
    destruct (file_excluded cur (de_Name e) Hn Hf) as [H1 H2]. exists cur, (de_Name e). by split_and!.
  - intros Hn Hc [Hg Hnm]. destruct (dir_excluded cur (de_Name e) Hn Hx) as [H1 H2].
    apply IH; [apply Forall_app; split; [done|by constructor]|]. split.
    + rewrite elem_of_app, list_elem_of_singleton. intros [?|?]; [done|by subst].
    + intros Hf. rewrite elem_of_app, list_elem_of_singleton. intros [?|E]; [by apply Hnm|]. by destruct (H2 Hf).
Qed.

Lemma rel_path_inj p q : Forall plain_elem p -> Forall plain_elem q -> p <> [] -> q <> [] -> rel_path p = rel_path q -> p = q.
Proof.
  intros Hp Hq Hpn Hqn E. apply (f_equal (fun s => split_byte s "/")) in E. unfold rel_path in E.
  rewrite !(split_join _ "/") in E; [done|done| |done|]; (eapply Forall_impl; [eassumption|]); by intros x (_ & _ & _ & ?).
Qed.

Lemma sound_empty : sound (∅, 0).
Proof.
  split; simpl; [intros k c H; by rewrite lookup_empty in H|by rewrite map_size_empty|].
  by rewrite map_to_list_empty.
Qed.

(** When collecting succeeds, the bundle holds exactly the files reached without
    passing an excluded directory or a directory inside itself, each under its path
    and with its contents; its size is one the server accepts; and no environment
    file, no ignore file and nothing of a [.git] directory, nor of [node_modules]
    without Node compatibility, is among them. *)
Theorem collected_files fuel files (H : CollectFiles includeNodeModules ignoreMatcher fuel = Some (Ok files)) :
  exists root, EvalSymlinks [] = Some root
  /\ (forall k c, files !! k = Some c <->
        exists p, included includeNodeModules ignoreMatcher {[root]} [] p /\ k = rel_path p /\ ReadFile p = Some c)
  /\ CheckUnpackedSize files = true
  /\ forall p, included includeNodeModules ignoreMatcher {[root]} [] p -> admitted p.
Proof.
  unfold CollectFiles in H. destruct (EvalSymlinks []) as [root|]; [|done]. exists root. split; [done|].
  destruct (collectDir _ _ _ _ _ _) as [[st|]|] eqn:E; try done. injection H as <-.
  destruct (collected_exactly _ _ _ _ _ _ _ (Forall_nil_2 _) sound_empty E)
    as [[Hread Hcount Hbytes] Hkeys].
  assert (forall p, included includeNodeModules ignoreMatcher {[root]} [] p -> Forall plain_elem p /\ p <> [] /\ admitted p)
    as Hinc by (intros p Hp; apply (included_paths _ _ _ Hp); [done|split; [|intros _]; apply not_elem_of_nil]).
  split_and!.
  - intros k c. split.
    + intros Hk. destruct (Hread k c Hk) as (p & -> & Hp & Hne & Hc).
      destruct (proj1 (Hkeys (rel_path p)) (mk_is_Some _ _ Hk)) as [[x Hx]|(q & Hq & Eq)]; [done|].
      destruct (Hinc q Hq) as (Hqp & Hqn & _). exists q.
      rewrite <- (rel_path_inj p q Hp Hqp Hne Hqn Eq) in *. by split_and!.
    + intros (p & Hp & -> & Hc). destruct (Hinc p Hp) as (Hpp & Hpn & _).
      destruct (proj2 (Hkeys (rel_path p))) as [c' Hc']; [right; eauto|].
      destruct (Hread _ _ Hc') as (q & Eq & Hq & Hqn & Hcq). rewrite (rel_path_inj p q Hpp Hq Hpn Hqn Eq) in Hc. congruence.
  - unfold CheckUnpackedSize. apply andb_true_iff. split; apply negb_true_iff, Z.ltb_ge; lia.
  - intros p Hp. by apply Hinc.
Qed.
End Files.

(** ** From the project to the server *)

(** What the client collects and packs, the server unpacks to the same files, in
    whatever order the map of files was ranged over, as long as the paths are ones a
    bundle may hold (no backslash, at most 256 bytes). *)
Theorem upload_unpacks {FS : FileSystem} {A : ArchiveCodec} includeNodeModules ignoreMatcher fuel files order archive
    (Hc : CollectFiles includeNodeModules ignoreMatcher fuel = Some (Ok files))
    (Hp : forall k c, files !! k = Some c -> str_len k <= MaxPathLength
            /\ str_forallb (fun d => negb (d =? "\")%char) k = true)
    (Ho : ranges order files) (Ha : Pack order files = Some archive) :
  Unpack archive = Ok files.
Proof.
  apply (pack_unpack order); [done| |done]. unfold CollectFiles in Hc.
  destruct (EvalSymlinks []) as [root|]; [|done].
  destruct (collectDir _ _ _ _ _ _) as [[st|]|] eqn:E; try done. injection Hc as <-.
  destruct (collected_exactly _ _ _ _ _ _ _ (Forall_nil_2 _) sound_empty E) as [[Hread Hcount Hbytes] _].
  split_and!; [|done|lia]. intros k c Hk. destruct (Hp k c Hk) as [Hl Hb]. split; [done|].
  destruct (Hread k c Hk) as (p & -> & Hpl & Hne & _). exists p. split_and!; try done.
  unfold rel_path in Hb. apply (split_byte_forallb _ _ "/") in Hb. rewrite (split_join p "/") in Hb; [done|done|].
  eapply Forall_impl; [exact Hpl|]. by intros x (_ & _ & _ & ?).
Qed.

(** ** A project with a symbolic link to itself *)

Definition entry (name : string) (link dir : bool) : DirEntry := mkDirEntry name link dir.

#[export] Program Instance sample_fs : FileSystem := {|
  ReadDir p :=
    if bool_decide (p = []) then
      Some [entry ".env" false false; entry "index.js" false false; entry "lib" false true; entry "loop" true false]
    else if bool_decide (p = ["lib"]) then Some [entry "a.js" false false; entry "up" true false]
    else None;
  StatIsDir p := if bool_decide (p = ["loop"]) || bool_decide (p = ["lib"; "up"]) then Some true else None;
  EvalSymlinks p := if bool_decide (p = ["lib"]) then Some "/p/lib" else Some "/p";
  ReadFile p :=
    if bool_decide (p = ["index.js"]) then Some "x"
    else if bool_decide (p = ["lib"; "a.js"]) then Some "y"
    else if bool_decide (p = [".env"]) then Some "SECRET=1" else None;
  real_dirs := {["/p"; "/p/lib"]}
|}.
Next Obligation. intros p es H. cbv beta in H. repeat case_step H; injection H as <-; repeat constructor; done. Qed.
Next Obligation. intros p r H. cbv beta in H. case_step H; injection H as <-; set_solver. Qed.

Lemma sample_collected : CollectFiles (FS := sample_fs) false [] 3 = Some (Ok sample_map).
Proof. vm_compute. reflexivity. Qed.

Lemma collect_ends_witness : exists r, CollectFiles (FS := sample_fs) false [] 3 = Some r.
Proof. destruct (collect_ends (FS := sample_fs) false []) as [r H]. exists r. apply H. vm_compute. lia. Defined.

Lemma collected_files_witness :
  included (FS := sample_fs) false [] {["/p"]} [] ["lib"; "a.js"] /\ ~ included (FS := sample_fs) false [] {["/p"]} [] [".env"].
Proof.
  destruct (collected_files (FS := sample_fs) false [] 3 sample_map sample_collected) as (root & Hr & Hf & _ & Ha).
  injection Hr as <-. split.
  - destruct (proj1 (Hf "lib/a.js" "y") eq_refl) as (p & Hp & Ek & Hc). simpl in Hc.
    repeat case_step Hc; bool_facts; subst; done.
  - intros H. destruct (Ha _ H) as (dirs & name & E & _ & He & _). destruct dirs as [|d dirs]; [|by destruct dirs].
    injection E as <-. done.
Defined.

Lemma upload_unpacks_witness : Unpack (A := sample_codec) "gz" = Ok sample_map.
Proof.
  apply (upload_unpacks (FS := sample_fs) (A := sample_codec) false [] 3 sample_map sample_order).
  - exact sample_collected.
  - intros k c H. unfold sample_map in H. simpl in H. apply lookup_insert_Some in H as [[<- _]|[_ H]]; [done|].
    apply lookup_insert_Some in H as [[<- _]|[_ H]]; [done|]. by rewrite lookup_empty in H.
  - apply sample_ranges.
  - reflexivity.
Defined.
