(* ===== verification/CliFlags.v ===== *)
(** * CliFlags: flags among the positional arguments

    Models src/internal/cli/flagparse.go over the standard library's [flag]: a flag
    set is what each flag is and the values it was given so far, in order. *)

From S2P Require Import Prelude.

(** ** Package flag *)

(** What [FlagSet.Parse] needs of a flag: a boolean one takes no argument of its
    own. A value may be refused. *)
Record FlagDef := mkFlag { fl_Bool : bool; fl_Accepts : string -> bool }.

Definition FlagSet := string -> option FlagDef.

Inductive FlagErr :=
| BadSyntax (arg : string)
| NotDefined (name : string)
| ErrHelp
| NeedsArgument (name : string)
| InvalidValue (name value : string).

(** The calls of [Set], in order. *)
Definition Sets := list (string * string).

(** The name and the value of [name=value]; the sign is looked for from the second
    byte on. *)
Definition cut_value (name : string) : string * option string :=
  match name with
  | EmptyString => ("", None)
  | String c rest =>
      let '(a, b, found) := cut_byte rest "=" in
      if found then (String c a, Some b) else (name, None)
  end.

(** [FlagSet.parseOne]: nothing more to parse, or the arguments left and the value
    to set. *)
Inductive Parsed := StopAt (args : list string) | SetFlag (name value : string) (args : list string).

Definition set_value (f : FlagDef) (name value : string) (args : list string) : result FlagErr Parsed :=
  if fl_Accepts f value then Ok (SetFlag name value args) else Err (InvalidValue name value).

Definition parse_flag (fs : FlagSet) (arg name : string) (args : list string) : result FlagErr Parsed :=
  if (name == "") || has_prefix name "-" || has_prefix name "=" then Err (BadSyntax arg)
  else
    let '(name, value) := cut_value name in
    match fs name with
    | None => if (name == "help") || (name == "h") then Err ErrHelp else Err (NotDefined name)
    | Some f =>
        if fl_Bool f then set_value f name (default "true" value) args
        else match value, args with
             | Some v, _ => set_value f name v args
             | None, v :: args => set_value f name v args
             | None, [] => Err (NeedsArgument name)
             end
    end.

Definition parseOne (fs : FlagSet) (args : list string) : result FlagErr Parsed :=
  match args with
  | [] => Ok (StopAt [])
  | s :: rest =>
      if (str_len s <? 2) || negb (has_prefix s "-") then Ok (StopAt args)
      else if s == "--" then Ok (StopAt rest)
      else if has_prefix s "--" then parse_flag fs s (str_drop 2 s) rest
      else parse_flag fs s (str_drop 1 s) rest
  end.

(** [FlagSet.Parse] and [FlagSet.Args]; each step uses up an argument. *)
Fixpoint Parse (fuel : nat) (fs : FlagSet) (args : list string) (sets : Sets)
    : option (result FlagErr (list string * Sets)) :=
  match fuel with
  | O => None
  | S fuel =>
      match parseOne fs args with
      | Err e => Some (Err e)
      | Ok (StopAt args) => Some (Ok (args, sets))
      | Ok (SetFlag name value args) => Parse fuel fs args (sets ++ [(name, value)])
      end
  end.

(** ** parseFlagsInterspersed *)

Fixpoint intersperse (fuel : nat) (fs : FlagSet) (remaining positional : list string) (sets : Sets)
    : option (result FlagErr (list string * Sets)) :=
  match fuel with
  | O => None
  | S fuel =>
      match Parse (S (length remaining)) fs remaining sets with
      | None => None
      | Some (Err e) => Some (Err e)
      | Some (Ok ([], sets)) => Some (Ok (positional, sets))
      | Some (Ok (p :: rest, sets)) => intersperse fuel fs rest (positional ++ [p]) sets
      end
  end.

(** The round for each positional argument, and one more, are enough. *)
Definition parseFlagsInterspersed (fs : FlagSet) (args : list string) : option (result FlagErr (list string * Sets)) :=
  intersperse (S (length args)) fs args [] [].

(** ** It ends *)

Lemma parse_one_shrinks fs args p : parseOne fs args = Ok p ->
  match p with
  | StopAt rest => (length rest <= length args)%nat
  | SetFlag _ _ rest => (length rest < length args)%nat
  end.
Proof.
  unfold parseOne, parse_flag, set_value. destruct args as [|s rest]; intros H; [by injection H as <-|].
  case_step H; [injection H as <-; simpl; lia|]. case_step H; [injection H as <-; simpl; lia|].
  destruct (has_prefix s "--"); (case_step H; destruct (cut_value _) as [name value];
    repeat case_step H; injection H as <-; simpl; lia).
Qed.

Lemma parse_ends fs fuel : forall args sets, (length args < fuel)%nat ->
  exists r, Parse fuel fs args sets = Some r
    /\ forall rest sets', r = Ok (rest, sets') -> (length rest <= length args)%nat.
Proof.
  induction fuel as [|fuel IH]; intros args sets Hl; [lia|]. simpl.
  destruct (parseOne fs args) as [p|e] eqn:E; [|by eexists]. apply parse_one_shrinks in E.
  destruct p as [rest|name value rest].
  - eexists. split; [done|]. intros r s' [= <- _]. done.
  - destruct (IH rest (sets ++ [(name, value)])) as (r & -> & Hr); [lia|]. exists r. split; [done|].
    intros r' s' Hr'. specialize (Hr _ _ Hr'). lia.
Qed.

Lemma intersperse_ends fs fuel : forall args positional sets, (length args < fuel)%nat ->
  intersperse fuel fs args positional sets <> None.
Proof.
  induction fuel as [|fuel IH]; intros args positional sets Hl; [lia|]. cbn [intersperse].
  destruct (parse_ends fs (S (length args)) args sets) as (r & -> & Hr); [lia|].
  destruct r as [[[|p rest] sets']|e]; try done. apply IH. specialize (Hr _ _ eq_refl). simpl in Hr. lia.
Qed.

(** ** Where the flags stand *)

(** A piece of a command line: a plain argument, or a flag as one or two
    arguments. *)
Inductive Piece := Plain (arg : string) | FlagArgs (args : list string) (name value : string).

Definition piece_args (p : Piece) : list string :=
  match p with Plain a => [a] | FlagArgs args _ _ => args end.

Definition piece_ok (fs : FlagSet) (p : Piece) : Prop :=
  match p with
  | Plain a => has_prefix a "-" = false \/ a = "-"
  | FlagArgs args name value => forall rest, parseOne fs (args ++ rest) = Ok (SetFlag name value rest)
  end.

Definition plain_of (p : Piece) : list string := match p with Plain a => [a] | FlagArgs _ _ _ => [] end.
Definition set_of (p : Piece) : Sets := match p with Plain _ => [] | FlagArgs _ name value => [(name, value)] end.

Definition line_args (l : list Piece) : list string := concat (map piece_args l).
Definition line_plain (l : list Piece) : list string := concat (map plain_of l).
Definition line_sets (l : list Piece) : Sets := concat (map set_of l).

Lemma flag_args_nonempty fs args name value : piece_ok fs (FlagArgs args name value) -> args <> [].
Proof. intros H ->. specialize (H []). apply parse_one_shrinks in H. simpl in H. lia. Qed.

Lemma plain_stops fs a rest : piece_ok fs (Plain a) -> parseOne fs (a :: rest) = Ok (StopAt (a :: rest)).
Proof.
  intros [H| ->]; [|reflexivity]. unfold parseOne. rewrite H. simpl. by rewrite orb_true_r.
Qed.

(** One round takes the flags up to the first plain argument. *)
Lemma parse_line fs fuel : forall l sets, Forall (piece_ok fs) l -> (length (line_args l) < fuel)%nat ->
  exists k, Parse fuel fs (line_args l) sets = Some (Ok (line_args (drop k l), sets ++ line_sets (take k l)))
    /\ line_plain (take k l) = []
    /\ match drop k l with Plain _ :: _ | [] => True | FlagArgs _ _ _ :: _ => False end.
Proof.
  induction fuel as [|fuel IH]; intros l sets Hl Hf; [lia|].
  destruct l as [|[a|args name value] l].
  - exists 0%nat. simpl. by rewrite app_nil_r.
  - exists 0%nat. inversion Hl as [|? ? Ha _]; subst. unfold line_args. cbn [map concat piece_args app Parse].
    rewrite plain_stops by done. by rewrite app_nil_r.
  - inversion Hl as [|? ? Ha Hl']; subst. pose proof (flag_args_nonempty _ _ _ _ Ha) as Hne.
    unfold line_args in *. cbn [map concat piece_args] in *. rewrite length_app in Hf.
    destruct (IH l (sets ++ [(name, value)]) Hl') as (k & Hk & Hp & Hd); [destruct args; [done|simpl in *; lia]|].
    exists (S k). cbn [Parse]. rewrite Ha, Hk. split_and!; [|done|done].
    unfold line_sets. simpl. by rewrite <- app_assoc.
Qed.

Lemma line_plain_split k l : line_plain l = line_plain (take k l) ++ line_plain (drop k l).
Proof. unfold line_plain. by rewrite <- concat_app, <- map_app, take_drop. Qed.
Lemma line_sets_split k l : line_sets l = line_sets (take k l) ++ line_sets (drop k l).
Proof. unfold line_sets. by rewrite <- concat_app, <- map_app, take_drop. Qed.

Lemma intersperse_line fs fuel : forall l positional sets, Forall (piece_ok fs) l ->
  (length (line_args l) < fuel)%nat ->
  intersperse fuel fs (line_args l) positional sets = Some (Ok (positional ++ line_plain l, sets ++ line_sets l)).
Proof.
  induction fuel as [|fuel IH]; intros l positional sets Hl Hf; [lia|]. cbn [intersperse].
  destruct (parse_line fs (S (length (line_args l))) l sets Hl ltac:(lia)) as (k & -> & Hp & Hd).
  rewrite (line_plain_split k l), (line_sets_split k l), Hp.
  assert (length (line_args (drop k l)) <= length (line_args l))%nat as Hlen.
  { unfold line_args. rewrite <- (take_drop k l) at 2. rewrite map_app, concat_app, length_app. lia. }
  assert (Forall (piece_ok fs) (drop k l)) as Hok by (by apply Forall_drop).
  destruct (drop k l) as [|[a|args name value] rest]; [unfold line_plain, line_sets; simpl; by rewrite !app_nil_r| |done].
  unfold line_args at 1. cbn [map concat piece_args app]. fold (line_args rest). inversion Hok; subst.
  unfold line_args in Hlen. cbn [map concat piece_args app length] in Hlen. fold (line_args rest) (line_args l) in Hlen.
  rewrite IH by (done || lia). unfold line_plain, line_sets. simpl. by rewrite <- !app_assoc.
Qed.

(** C24. The flags of a command may stand anywhere: whatever the arguments, the parse
    ends, and a line of plain arguments and flags, in whatever order and each flag
    in whichever form it is accepted in, gives its plain arguments in their order
    and sets its flags in theirs. *)
Theorem flags_anywhere fs args l (Hl : Forall (piece_ok fs) l) :
  parseFlagsInterspersed fs args <> None
  /\ parseFlagsInterspersed fs (line_args l) = Some (Ok (line_plain l, line_sets l)).
Proof.
  split; [by apply intersperse_ends; lia|]. unfold parseFlagsInterspersed.
  by rewrite (intersperse_line fs (S (length (line_args l))) l [] [] Hl ltac:(lia)).
Qed.

(** ** Witness *)

(** The flags of [funcbox deploy]. *)
Definition any_string : FlagDef := mkFlag false (fun _ => true).
Definition boolean : FlagDef :=
  mkFlag true (fun v => existsb (String.eqb v)
    ["1"; "0"; "t"; "f"; "T"; "F"; "true"; "false"; "TRUE"; "FALSE"; "True"; "False"]).
Definition deploy_flags : FlagSet := fun name =>
  if (name == "owner") || (name == "name") || (name == "note") then Some any_string
  else if name == "dry-run" then Some boolean else None.

Lemma flags_anywhere_witness :
  parseFlagsInterspersed deploy_flags ["dir"; "--owner"; "acme"; "--dry-run"; "-note=x"; "-"]
  = Some (Ok (["dir"; "-"], [("owner", "acme"); ("dry-run", "true"); ("note", "x")])).
Proof.
  refine (proj2 (flags_anywhere deploy_flags [] [Plain "dir"; FlagArgs ["--owner"; "acme"] "owner" "acme";
    FlagArgs ["--dry-run"] "dry-run" "true"; FlagArgs ["-note=x"] "note" "x"; Plain "-"] _)).
  repeat (apply Forall_cons; split; [first [by left | by right | intros rest; reflexivity]|]). by apply Forall_nil.
Defined.

(** After the terminator only the next argument is taken as it stands. *)
Example terminator_covers_one :
  parseFlagsInterspersed deploy_flags ["--"; "-dir"; "--owner"; "acme"]
  = Some (Ok (["-dir"], [("owner", "acme")])).
Proof. reflexivity. Qed.
