(* ===== verification/CliConfig.v ===== *)
(** * CliConfig: the CLI's configuration and the server it may talk to

    Models src/internal/cli/serverurl.go, config.go and the owner resolution of
    project.go. The YAML codec of the configuration file is a parameter. *)

From S2P Require Import Prelude GoURL GoPath Manifest.

(** [Config]. *)
Record CliConfig := mkCliConfig { cf_Server : string; cf_Credential : string }.

(** ** serverurl.go *)

Definition loopbackServerHosts : list string := ["localhost"; "127.0.0.1"; "::1"].

Inductive ServerURLErr :=
| URLRequired | URLInvalid | URLScheme | URLHost | URLUser | URLPath | URLQuery | URLFragment | URLCleartext.

Section ServerURL.
Context {U : UnicodeTables}.

Definition isLoopbackServerHost (host : string) : bool := existsb (String.eqb (to_lower host)) loopbackServerHosts.

Definition validateServerURL (raw : string) : result ServerURLErr string :=
  if raw == "" then Err URLRequired
  else match url_Parse raw with
       | None => Err URLInvalid
       | Some u =>
           if negb (u_Scheme u == "http") && negb (u_Scheme u == "https") then Err URLScheme
           else if u_Host u == "" then Err URLHost
           else if bool_decide (u_User u <> None) then Err URLUser
           else if negb (u_Path u == "") && negb (u_Path u == "/") then Err URLPath
           else if negb (u_RawQuery u == "") then Err URLQuery
           else if negb (u_Fragment u == "") then Err URLFragment
           else if (u_Scheme u == "http") && negb (isLoopbackServerHost (url_Hostname u)) then Err URLCleartext
           else Ok (u_Scheme u +:+ "://" +:+ u_Host u)
       end.

(** A server that may be sent a credential. *)
Definition safe_server (s : string) : Prop :=
  exists raw u, url_Parse raw = Some u /\ s = u_Scheme u +:+ "://" +:+ u_Host u /\ u_User u = None /\ u_Host u <> ""
    /\ (u_Scheme u = "https" \/ u_Scheme u = "http" /\ isLoopbackServerHost (url_Hostname u) = true).

Lemma validated_safe raw s : validateServerURL raw = Ok s -> safe_server s.
Proof.
  unfold validateServerURL. intros H. case_step H. destruct (url_Parse raw) as [u|] eqn:Eu; [|done].
  destruct (negb (u_Scheme u == "http") && negb (u_Scheme u == "https")) eqn:Es; [done|].
  case_step H. case_step H. case_step H. case_step H. case_step H.
  destruct ((u_Scheme u == "http") && negb (isLoopbackServerHost (url_Hostname u))) eqn:El; [done|].
  injection H as <-. exists raw, u.
  assert (u_Scheme u = "https" \/ u_Scheme u = "http" /\ isLoopbackServerHost (url_Hostname u) = true) as Hs.
  { destruct (u_Scheme u == "https") eqn:Eh; [by left; apply String.eqb_eq|]. right.
    destruct (u_Scheme u == "http") eqn:Ep; [|done]. split; [by apply String.eqb_eq|]. by apply negb_false_iff in El. }
  clear Es El. bool_facts. split_and!; try done. by apply dec_stable.
Qed.
End ServerURL.

(** ** config.go *)

(** What reading a file gives. *)
Inductive FileRead := Missing | Unreadable | Content (data : string).

Inductive ConfigFailure :=
| NoHome
| ReadFailed
| ParseFailed
| NotLoggedIn
| BadServer (e : ServerURLErr).

(** [filepath.Join] on Unix: the elements that are not empty, cleaned. *)
Definition filepath_Join (elems : list string) : string :=
  match List.filter (fun e => negb (e == "")) elems with
  | [] => ""
  | l => path_Clean (join_with "/" l)
  end.

Section Config.
Context {U : UnicodeTables} (decode : string -> option CliConfig).

(** [ConfigPath] for the directory of the environment and the home directory. *)
Definition ConfigPath (xdg : string) (home : option string) : result ConfigFailure string :=
  if xdg == "" then
    match home with
    | None => Err NoHome
    | Some h => Ok (filepath_Join [h; ".config"; "funcbox"; "config.yaml"])
    end
  else Ok (filepath_Join [xdg; "funcbox"; "config.yaml"]).

Definition LoadConfig (path : result ConfigFailure string) (read : string -> FileRead) : result ConfigFailure CliConfig :=
  let! path := path in
  match read path with
  | Missing => Ok (mkCliConfig "" "")
  | Unreadable => Err ReadFailed
  | Content data => match decode data with Some c => Ok c | None => Err ParseFailed end
  end.

Definition ResolveConfig (path : result ConfigFailure string) (read : string -> FileRead)
    (env_server env_credential : string) : result ConfigFailure CliConfig :=
  let! c := LoadConfig path read in
  Ok (mkCliConfig (if env_server == "" then cf_Server c else env_server)
                  (if env_credential == "" then cf_Credential c else env_credential)).

Definition RequireConfig (path : result ConfigFailure string) (read : string -> FileRead)
    (env_server env_credential : string) : result ConfigFailure CliConfig :=
  let! c := ResolveConfig path read env_server env_credential in
  if (cf_Server c == "") || (cf_Credential c == "") then Err NotLoggedIn
  else match validateServerURL (cf_Server c) with
       | Err e => Err (BadServer e)
       | Ok server => Ok (mkCliConfig server (cf_Credential c))
       end.

Lemma required_safe path read es ec c : RequireConfig path read es ec = Ok c ->
  safe_server (cf_Server c) /\ cf_Credential c <> "".
Proof.
  unfold RequireConfig. intros H. apply rbind_ok in H as (c0 & _ & H). case_step H.
  destruct (validateServerURL (cf_Server c0)) as [s|] eqn:Ev; [|done]. injection H as <-. bool_facts.
  split; [by apply (validated_safe (cf_Server c0))|done].
Qed.
End Config.

(** ** project.go *)

Inductive OwnerErr (E : Type) := OwnerUnspecified | OwnerLookup (e : E) | NoUserIDYet.
Arguments OwnerUnspecified {E}.
Arguments OwnerLookup {E} _.
Arguments NoUserIDYet {E}.

(** [ResolveOwner]; the fallback is a request, asked for only when it is needed. *)
Inductive OwnerSource := OwnerKnown (owner : string) | AskServer.
Definition owner_source (flagOwner manifestOwner : string) : OwnerSource :=
  if negb (flagOwner == "") then OwnerKnown flagOwner
  else if negb (manifestOwner == "") then OwnerKnown manifestOwner
  else AskServer.

Definition ResolveOwner {E} (flagOwner manifestOwner : string) (meFallback : option (result E string))
    : result (OwnerErr E) string :=
  match owner_source flagOwner manifestOwner with
  | OwnerKnown o => Ok o
  | AskServer =>
      match meFallback with
      | None => Err OwnerUnspecified
      | Some (Err e) => Err (OwnerLookup e)
      | Some (Ok u) => if u == "" then Err NoUserIDYet else Ok u
      end
  end.

(** An address with a zone is validated into one that is refused: [funcbox login]
    stores it, and every later command stops at it. *)
Example zone_is_lost :
  validateServerURL (U := ascii_tables) "https://[fe80::1%25eth0]:8443" = Ok "https://[fe80::1%eth0]:8443"
  /\ validateServerURL (U := ascii_tables) "https://[fe80::1%eth0]:8443" = Err URLInvalid.
Proof. split; vm_compute; reflexivity. Qed.
