(* ===== verification/CliClient.v ===== *)
(** * CliClient: the CLI's client of the management API

    Models src/internal/cli/client.go, the authenticating transport of mcp.go and the
    commands that are one call (logs.go apart). The network is a parameter: what one
    exchange answers, and the clock it leaves. Neither client sets a policy for
    redirects, so [http.Client.Do] follows them, and that is modelled: up to nine
    further requests, whose method, body and Authorization header depend on the
    answers and on the hosts. (The Referer header it adds is left out.) *)

From S2P Require Import Prelude GoURL GoNum GoHTTP Types Settings CliConfig.

(** The ASCII form of a host name that is not ASCII, or the name itself where it has
    none ([golang.org/x/net/idna], not under src/). *)
Class Idna := idna_ascii : string -> string.

Definition accessTokenRequestTTL : Z := 15 * Minute.
Definition accessTokenRefreshMargin : Z := 2 * Minute.
Definition mcpEndpointPath : string := "/mcp".

(** ** Requests *)

(** A body: none, JSON, the form of an upload, or a message handed through. *)
Inductive ReqBody :=
| EmptyBody
| JsonBody (j : json)
| UploadBody (bundle : string) (fields : list (string * string))
| RawBody (data : string).

Record HttpReq := mkHttpReq {
  hq_Method : string;
  hq_URL : string;
  hq_Auth : option string;
  hq_Body : ReqBody
}.

Definition with_auth (token : string) (r : HttpReq) : HttpReq :=
  mkHttpReq (hq_Method r) (hq_URL r) (Some ("Bearer " +:+ token)) (hq_Body r).

Inductive CliErr :=
| CliNotLoggedIn
| CliBadURL
| CliTransport
| CliAPI (status : Z) (code message : string)
| CliDecode (what : string)
| CliExpiry
| CliEmptyCredential
| CliStill401.

(** An answer: its status, the address its Location header leads to (resolved
    against that of the request), if it has one, and its body. *)
Record Answer := mkAnswer { an_Status : Z; an_Location : option string; an_Body : string }.

(** What happens, in order: the client sends a request of its own at a time; it is
    answered; the client follows a redirect (of the MCP transport, or not); a
    token comes in. *)
Inductive Event :=
| Sent (time : Time) (r : HttpReq)
| Answered (a : Answer)
| Followed (mcp : bool) (time : Time) (r : HttpReq)
| Minted (token : string) (expires : Time).

(** ** Redirects, as [net/http] follows them *)

(** [redirectBehavior]: the statuses that redirect, those that keep the body, and
    the method of the next request. *)
Definition redirects (status : Z) : bool := existsb (Z.eqb status) [301; 302; 303; 307; 308].
Definition keeps_body (status : Z) : bool := (status =? 307) || (status =? 308).
Definition redirect_method (meth : string) (status : Z) : string :=
  if keeps_body status || (meth == "GET") || (meth == "HEAD") then meth else "GET".

(** [isDomainOrSubdomain] *)
Definition is_domain_or_subdomain (sub parent : string) : bool :=
  (sub == parent)
  || str_forallb (fun c => negb ((c =? ":")%char || (c =? "%")%char)) sub && has_suffix sub ("." +:+ parent).

(** [defaultCheckRedirect]: ten requests in all. *)
Definition maxFollowed : nat := 9.

Section Client.
Context {U : UnicodeTables} {J : JsonText} {N : Idna}.
Context {Net : Type} (exchange : HttpReq -> Net -> result string Answer * Net) (clock : Net -> Time).
Context (parse_time : string -> option Time).

(** The network, the client's cache, and what happened so far. *)
Record CliWorld := mkCliWorld {
  cw_net : Net;
  cw_token : string;
  cw_expires : Time;
  cw_events : list Event
}.

Definition CM (A : Type) : Type := CliWorld -> result CliErr A * CliWorld.
Definition cret {A} (a : A) : CM A := fun w => (Ok a, w).
Definition cthrow {A} (e : CliErr) : CM A := fun w => (Err e, w).
Definition cbind {A B} (m : CM A) (k : A -> CM B) : CM B := fun w =>
  match m w with
  | (Ok a, w') => k a w'
  | (Err e, w') => (Err e, w')
  end.
Notation "'let*' x := m 'in' k" := (cbind m (fun x => k)) (at level 10, x binder, m at level 100, k at level 200).

(** One exchange, and the reading of the answer's body. *)
Definition transmit (mark : Time -> HttpReq -> Event) (r : HttpReq) : CM Answer := fun w =>
  let '(out, net) := exchange r (cw_net w) in
  let sent := (cw_events w ++ [mark (clock (cw_net w)) r])%list in
  match out with
  | Ok a => (Ok a, mkCliWorld net (cw_token w) (cw_expires w) (sent ++ [Answered a]))
  | Err _ => (Err CliTransport, mkCliWorld net (cw_token w) (cw_expires w) sent)
  end.

(** [shouldCopyHeaderOnRedirect]: the same host and port, or the host or a host
    below it; [None] for an address that does not parse. *)
Definition host_name (u : URL) : string :=
  let h := url_Hostname u in if is_ascii h then h else idna_ascii h.
Definition stays (initial dest : string) : option bool :=
  match url_Parse initial, url_Parse dest with
  | Some i, Some d => Some ((u_Host i == u_Host d) || is_domain_or_subdomain (host_name d) (host_name i))
  | _, _ => None
  end.

(** The loop of [http.Client.do] once [r] is answered by [a]: once a redirect has
    left the site the Authorization header is gone for good, and once one has
    dropped the body so is the body. *)
Fixpoint follow (hop : HttpReq -> CM Answer) (more : nat) (first r : HttpReq) (strip drop : bool) (a : Answer)
    : CM Answer :=
  if negb (redirects (an_Status a)) then cret a
  else
    match an_Location a, more with
    | None, _ => cret a
    | Some _, O => cthrow CliTransport
    | Some url, S more =>
        match stays (hq_URL first) url with
        | None => cthrow CliTransport
        | Some same =>
            let strip := strip || negb same in
            let drop := drop || negb (keeps_body (an_Status a)) in
            let r' := mkHttpReq (redirect_method (hq_Method r) (an_Status a)) url
                        (if strip then None else hq_Auth first) (if drop then EmptyBody else hq_Body first) in
            let* a := hop r' in
            follow hop more first r' strip drop a
        end
    end.

(** [http.Client.Do] over the default transport. *)
Definition send (r : HttpReq) : CM (Z * string) :=
  let* a := transmit Sent r in
  let* a := follow (transmit (Followed false)) maxFollowed r r false false a in
  cret (an_Status a, an_Body a).

Definition dec_api_error (c : string * string) (kvs : list (string * json)) : option (string * string) :=
  match field "code" dec_string c.1 kvs, field "message" dec_string c.2 kvs with
  | Some x, Some y => Some (x, y)
  | _, _ => None
  end.

Definition error_envelope (body : string) : option (string * string) :=
  match json_parse body with
  | None => None
  | Some j => dec_object (fun c kvs => field "error" (dec_object dec_api_error) c kvs) ("", "") j
  end.

Definition api_error (status : Z) (body : string) : CliErr :=
  match error_envelope body with
  | Some (code, message) => if code == "" then CliAPI status "" body else CliAPI status code message
  | None => CliAPI status "" body
  end.

Definition doRaw (r : HttpReq) : CM string :=
  let* x := send r in
  if (x.1 <? 200) || (300 <=? x.1) then cthrow (api_error x.1 x.2) else cret x.2.

Definition decode {A} (what : string) (dec : A -> json -> option A) (zero : A) (body : string) : CM A :=
  match json_parse body with
  | None => cthrow (CliDecode what)
  | Some j => match dec zero j with Some a => cret a | None => cthrow (CliDecode what) end
  end.

(** [http.NewRequest] with a method of the client's. *)
Definition newRequest (meth url : string) (body : ReqBody) : CM HttpReq :=
  match url_Parse url with
  | None => cthrow CliBadURL
  | Some _ => cret (mkHttpReq meth url None body)
  end.

Section Calls.
Context (cfg : CliConfig).

(** [NewClient] *)
Definition base_url : string := trim_suffix (cf_Server cfg) "/".
Definition new_client (net : Net) : CliWorld := mkCliWorld net "" 0 [].

Definition dec_access_token (c : string * string) (kvs : list (string * json)) : option (string * string) :=
  match field "access_token" dec_string c.1 kvs, field "expires_at" dec_string c.2 kvs with
  | Some x, Some y => Some (x, y)
  | _, _ => None
  end.

Definition mint_url : string := base_url +:+ "/api/v1/cli/access-token".

Definition mintAccessToken (ttl : Z) : CM (string * Time) :=
  if cf_Credential cfg == "" then cthrow CliNotLoggedIn
  else
    let* r := newRequest "POST" mint_url (JsonBody (JObj (if 0 <? ttl then [("ttl", JStr (Duration_String ttl))] else []))) in
    let* body := doRaw (with_auth (cf_Credential cfg) r) in
    let* out := decode "access-token response" (dec_object dec_access_token) ("", "") body in
    match parse_time out.2 with
    | None => cthrow CliExpiry
    | Some exp => cret (out.1, exp)
    end.

Definition remember (token : string) (exp : Time) : CM unit := fun w =>
  (Ok tt, mkCliWorld (cw_net w) token exp (cw_events w ++ [Minted token exp])).

Definition ensureAccessToken : CM string := fun w =>
  if negb (cw_token w == "") && (accessTokenRefreshMargin <? cw_expires w - clock (cw_net w))
  then (Ok (cw_token w), w)
  else (let* t := mintAccessToken accessTokenRequestTTL in
        let* _ := remember t.1 t.2 in
        cret t.1) w.

Definition do_request (r : HttpReq) : CM string :=
  let* token := ensureAccessToken in
  doRaw (with_auth token r).

(** ** The calls *)

Definition dec_credential (c : string) (kvs : list (string * json)) : option string := field "credential" dec_string c kvs.

Definition ExchangeCLICode (code verifier : string) : CM string :=
  let* r := newRequest "POST" (base_url +:+ "/api/v1/cli/token") (JsonBody (JObj [("code", JStr code); ("verifier", JStr verifier)])) in
  let* body := doRaw r in
  let* c := decode "token response" (dec_object dec_credential) "" body in
  if c == "" then cthrow CliEmptyCredential else cret c.

(** A [map[string]any] *)
Definition dec_map (c : list (string * json)) (j : json) : option (list (string * json)) :=
  match j with JObj kvs => Some kvs | JNull => Some c | _ => None end.

Definition Me : CM (list (string * json)) :=
  let* r := newRequest "GET" (base_url +:+ "/api/v1/me") EmptyBody in
  let* body := do_request r in
  decode "/api/v1/me response" dec_map [] body.

(** [me["user_id"].(string)]: the last key of that name counts. *)
Definition callerUserID : CM string :=
  let* me := Me in
  cret (match List.find (fun kv => kv.1 == "user_id") (rev me) with Some (_, JStr s) => s | _ => "" end).

Record FunctionDTO := mkFunctionDTO {
  fd_ID : string; fd_OwnerType : string; fd_Owner : string; fd_Name : string; fd_URL : string;
  fd_Description : string; fd_ActiveVersionID : string; fd_CreatedAt : string; fd_UpdatedAt : string
}.
Definition dec_function (c : FunctionDTO) (kvs : list (string * json)) : option FunctionDTO :=
  match field "id" dec_string (fd_ID c) kvs, field "owner_type" dec_string (fd_OwnerType c) kvs,
        field "owner" dec_string (fd_Owner c) kvs, field "name" dec_string (fd_Name c) kvs,
        field "url" dec_string (fd_URL c) kvs, field "description" dec_string (fd_Description c) kvs,
        field "active_version_id" dec_string (fd_ActiveVersionID c) kvs,
        field "created_at" dec_string (fd_CreatedAt c) kvs, field "updated_at" dec_string (fd_UpdatedAt c) kvs with
  | Some a, Some b, Some d, Some e, Some f, Some g, Some h, Some i, Some j => Some (mkFunctionDTO a b d e f g h i j)
  | _, _, _, _, _, _, _, _, _ => None
  end.
Definition no_function : FunctionDTO := mkFunctionDTO "" "" "" "" "" "" "" "" "".

Record LogDTO := mkLogDTO {
  ld_ID : string; ld_VersionID : string; ld_Method : string; ld_Path : string; ld_Status : Z; ld_DurationMS : Z;
  ld_Stdout : string; ld_Stderr : string; ld_CreatedAt : string
}.
Definition dec_log (c : LogDTO) (kvs : list (string * json)) : option LogDTO :=
  match field "id" dec_string (ld_ID c) kvs, field "version_id" dec_string (ld_VersionID c) kvs, field "method" dec_string (ld_Method c) kvs,
        field "path" dec_string (ld_Path c) kvs, field "status" dec_int (ld_Status c) kvs,
        field "duration_ms" dec_int (ld_DurationMS c) kvs, field "stdout" dec_string (ld_Stdout c) kvs,
        field "stderr" dec_string (ld_Stderr c) kvs, field "created_at" dec_string (ld_CreatedAt c) kvs with
  | Some a, Some b, Some d, Some e, Some f, Some g, Some h, Some i, Some j => Some (mkLogDTO a b d e f g h i j)
  | _, _, _, _, _, _, _, _, _ => None
  end.
Definition no_log : LogDTO := mkLogDTO "" "" "" "" 0 0 "" "" "".

(** A slice field of structs. *)
Definition dec_slice {A} (dec : A -> list (string * json) -> option A) (zero : A) (cur : list A) (j : json) : option (list A) :=
  match j with
  | JArr l => mapM (dec_object dec zero) l
  | JNull => Some []
  | _ => None
  end.

(** The parameters of [DeployRequest] but the bundle are fields of the form when
    they are given. *)
Record DeployRequest := mkDeployRequest {
  dq_Bundle : string; dq_Owner : string; dq_Name : string; dq_Note : string; dq_DryRun : bool
}.
Definition deploy_form (r : DeployRequest) : list (string * string) :=
  List.filter (fun f => negb (f.2 == "")) [("owner", dq_Owner r); ("name", dq_Name r); ("note", dq_Note r)].

(** A [json.RawMessage]: whatever value stands there. *)
Definition dec_raw (c j : json) : option json := Some j.

Record VersionDTO := mkVersionDTO { vd_ID : string; vd_Note : string; vd_Manifest : json }.
Definition dec_version (c : VersionDTO) (kvs : list (string * json)) : option VersionDTO :=
  match field "id" dec_string (vd_ID c) kvs, field "note" dec_string (vd_Note c) kvs,
        field "manifest" dec_raw (vd_Manifest c) kvs with
  | Some a, Some b, Some d => Some (mkVersionDTO a b d)
  | _, _, _ => None
  end.

Record DeployResponse := mkDeployResponse {
  dr_DryRun : bool; dr_Manifest : json; dr_Warnings : list string;
  dr_Function : option FunctionDTO; dr_Version : option VersionDTO
}.
Definition dec_opt {A} (dec : A -> list (string * json) -> option A) (zero : A) (cur : option A) (j : json) : option (option A) :=
  match j with
  | JNull => Some None
  | j => option_map Some (dec_object dec (default zero cur) j)
  end.
Definition dec_deploy (c : DeployResponse) (kvs : list (string * json)) : option DeployResponse :=
  match field "dry_run" dec_bool (dr_DryRun c) kvs, field "manifest" dec_raw (dr_Manifest c) kvs,
        field "warnings" dec_strings (dr_Warnings c) kvs,
        field "function" (dec_opt dec_function no_function) (dr_Function c) kvs,
        field "version" (dec_opt dec_version (mkVersionDTO "" "" JNull)) (dr_Version c) kvs with
  | Some a, Some b, Some d, Some e, Some f => Some (mkDeployResponse a b d e f)
  | _, _, _, _, _ => None
  end.

Definition Deploy (q : DeployRequest) : CM DeployResponse :=
  let* r := newRequest "POST" (base_url +:+ "/api/v1/functions" +:+ (if dq_DryRun q then "?dry_run=true" else ""))
              (UploadBody (dq_Bundle q) (deploy_form q)) in
  let* body := do_request r in
  decode "deploy response" (dec_object dec_deploy) (mkDeployResponse false JNull [] None None) body.

Definition List_ (owner : string) : CM (list FunctionDTO) :=
  let* r := newRequest "GET" (base_url +:+ "/api/v1/functions" +:+ (if owner == "" then "" else "?owner=" +:+ owner)) EmptyBody in
  let* body := do_request r in
  decode "list response" (dec_object (fun c kvs => field "functions" (dec_slice dec_function no_function) c kvs)) [] body.

Definition logs_query (since : string) (limit : Z) : string :=
  let q : list string := ((if since == "" then [] else ["since=" +:+ since])
                          ++ (if 0 <? limit then ["limit=" +:+ itoa limit] else []))%list in
  match q with
  | [] => ""
  | _ => "?" +:+ join_with "&" q
  end.

Definition Logs (owner name since : string) (limit : Z) : CM (list LogDTO) :=
  let* r := newRequest "GET" (base_url +:+ "/api/v1/functions/" +:+ owner +:+ "/" +:+ name +:+ "/logs" +:+ logs_query since limit)
              EmptyBody in
  let* body := do_request r in
  decode "logs response" (dec_object (fun c kvs => field "logs" (dec_slice dec_log no_log) c kvs)) [] body.

Definition Activate (owner name versionID : string) : CM FunctionDTO :=
  let* r := newRequest "POST" (base_url +:+ "/api/v1/functions/" +:+ owner +:+ "/" +:+ name +:+ "/versions/" +:+ versionID
              +:+ "/activate") EmptyBody in
  let* body := do_request r in
  decode "activate response" (dec_object dec_function) no_function body.

(** ** mcp.go: the authenticating transport *)

Definition forget : CM unit := fun w => (Ok tt, mkCliWorld (cw_net w) "" (cw_expires w) (cw_events w)).

(** [RoundTrip] of a message for the MCP endpoint. *)
Definition mcp_request (meth data : string) : HttpReq := mkHttpReq meth (base_url +:+ mcpEndpointPath) None (RawBody data).

Definition RoundTrip (mark : Time -> HttpReq -> Event) (r : HttpReq) : CM Answer :=
  let* token := ensureAccessToken in
  let* resp := transmit mark (with_auth token r) in
  if negb (an_Status resp =? 401) then cret resp
  else
    let* _ := forget in
    let* token := ensureAccessToken in
    let* resp := transmit mark (with_auth token r) in
    if an_Status resp =? 401 then cthrow CliStill401 else cret resp.

(** [http.Client.Do] over that transport, which authenticates every request it is
    given, a redirected one too. *)
Definition mcp_send (r : HttpReq) : CM Answer :=
  let* a := RoundTrip Sent r in
  follow (RoundTrip (Followed true)) maxFollowed r r false false a.

(** ** What is sent where *)

(** The calls a command may make. *)
Inductive Call :=
| CallMe
| CallDeploy (q : DeployRequest)
| CallList (owner : string)
| CallLogs (owner name since : string) (limit : Z)
| CallActivate (owner name versionID : string)
| CallMint (ttl : Z)
| CallExchange (code verifier : string)
| CallMCP (meth data : string).

Definition ignore {A} (m : CM A) : CM unit := fun w => (Ok tt, (m w).2).

Definition run_call (c : Call) : CM unit :=
  match c with
  | CallMe => ignore Me
  | CallDeploy q => ignore (Deploy q)
  | CallList owner => ignore (List_ owner)
  | CallLogs owner name since limit => ignore (Logs owner name since limit)
  | CallActivate owner name v => ignore (Activate owner name v)
  | CallMint ttl => ignore (mintAccessToken ttl)
  | CallExchange code verifier => ignore (ExchangeCLICode code verifier)
  | CallMCP meth data => ignore (mcp_send (mcp_request meth data))
  end.

Fixpoint run_calls (cs : list Call) (w : CliWorld) : CliWorld :=
  match cs with
  | [] => w
  | c :: cs => run_calls cs (run_call c w).2
  end.

(** A request of the client's own after some events: it goes to a path of the server;
    the credential goes with the minting request only, and any other token is one
    the server gave, with more than the margin left or fresh. *)
Definition to_server (r : HttpReq) : Prop := exists path, hq_URL r = base_url +:+ path /\ has_prefix path "/" = true.
Definition usable (l : list Event) (n : Time) (t : string) : Prop :=
  exists e, In (Minted t e) l /\ (accessTokenRefreshMargin < e - n \/ last l = Some (Minted t e)).
Definition request_ok (l : list Event) (n : Time) (r : HttpReq) : Prop :=
  to_server r
  /\ match hq_Auth r with
     | None => True
     | Some a => (a = "Bearer " +:+ cf_Credential cfg /\ hq_Method r = "POST" /\ hq_URL r = mint_url)
                 \/ exists t, a = "Bearer " +:+ t /\ usable l n t
     end.

(** A redirect followed after some events: its address is the one a redirecting answer
    leads to; and with regard to a request [r1] of the client's own, it has its
    body or none, its method or GET, and its Authorization header or none, and
    that header only if the host is the one of [r1] or below it. The MCP transport
    sends a usable access token on, wherever the redirect leads. *)
Definition hop_ok (l : list Event) (n : Time) (mcp : bool) (r : HttpReq) : Prop :=
  (exists a, In (Answered a) l /\ redirects (an_Status a) = true /\ an_Location a = Some (hq_URL r))
  /\ exists n1 r1, In (Sent n1 r1) l
     /\ (hq_Body r = EmptyBody \/ hq_Body r = hq_Body r1)
     /\ (hq_Method r = "GET" \/ hq_Method r = hq_Method r1)
     /\ if mcp then hq_URL r1 = base_url +:+ mcpEndpointPath
                    /\ exists t, hq_Auth r = Some ("Bearer " +:+ t) /\ usable l n t
        else hq_Auth r = None \/ hq_Auth r = hq_Auth r1 /\ stays (hq_URL r1) (hq_URL r) = Some true.

Inductive trace_ok : list Event -> Prop :=
| trace_nil : trace_ok []
| trace_minted l t e : trace_ok l -> trace_ok (l ++ [Minted t e])
| trace_answered l a : trace_ok l -> trace_ok (l ++ [Answered a])
| trace_sent l n r : trace_ok l -> request_ok l n r -> trace_ok (l ++ [Sent n r])
| trace_followed l n mcp r : trace_ok l -> hop_ok l n mcp r -> trace_ok (l ++ [Followed mcp n r]).

Definition client_inv (w : CliWorld) : Prop :=
  trace_ok (cw_events w) /\ (cw_token w <> "" -> In (Minted (cw_token w) (cw_expires w)) (cw_events w)).
Definition keeps {A} (m : CM A) : Prop := forall w, client_inv w -> client_inv (m w).2.

Lemma keeps_bind {A B} (m : CM A) (k : A -> CM B) : keeps m -> (forall a, keeps (k a)) -> keeps (cbind m k).
Proof.
  intros Hm Hk w Hw. specialize (Hm w Hw). unfold cbind. destruct (m w) as [[a|e] w']; [by apply Hk|done].
Qed.
Lemma keeps_ret {A} (a : A) : keeps (cret a).
Proof. by intros w Hw. Qed.
Lemma keeps_throw {A} e : keeps (cthrow (A := A) e).
Proof. by intros w Hw. Qed.
Lemma keeps_decode {A} what dec (zero : A) body : keeps (decode what dec zero body).
Proof. unfold decode. destruct (json_parse body) as [j|]; [destruct (dec zero j)|]; by intros w Hw. Qed.
Lemma keeps_request meth url body : keeps (newRequest meth url body).
Proof. unfold newRequest. destruct (url_Parse url); by intros w Hw. Qed.
Lemma keeps_ignore {A} (m : CM A) : keeps m -> keeps (ignore m).
Proof. intros H w Hw. by apply H. Qed.

(** The events only grow; the clock and the cache stay in step. *)
Definition grows (w w' : CliWorld) : Prop := exists l, cw_events w' = (cw_events w ++ l)%list.
Lemma grows_in w w' e : grows w w' -> In e (cw_events w) -> In e (cw_events w').
Proof. intros [l ->] H. apply in_or_app. by left. Qed.

(** A request that may be sent leaves a good trace, with its answer. *)
Lemma transmit_keeps mark r w : client_inv w ->
  trace_ok (cw_events w ++ [mark (clock (cw_net w)) r]) ->
  client_inv (transmit mark r w).2
  /\ In (mark (clock (cw_net w)) r) (cw_events (transmit mark r w).2)
  /\ grows w (transmit mark r w).2
  /\ forall a w', transmit mark r w = (Ok a, w') -> In (Answered a) (cw_events w').
Proof.
  intros [Ht Hc] Hr. unfold transmit. destruct (exchange r (cw_net w)) as [[a|e] net]; simpl; split_and!.
  - split; simpl; [by apply trace_answered|]. intros Hne. rewrite !in_app_iff. auto.
  - rewrite !in_app_iff. simpl. auto.
  - exists [mark (clock (cw_net w)) r; Answered a]. simpl. by rewrite <- app_assoc.
  - intros a' w' [= <- <-]. simpl. rewrite !in_app_iff. simpl. auto.
  - split; simpl; [done|]. intros Hne. rewrite !in_app_iff. auto.
  - rewrite !in_app_iff. simpl. auto.
  - by exists [mark (clock (cw_net w)) r].
  - done.
Qed.

(** Following redirects keeps the invariant, if each request that follows one
    does: [ok] is what is known of the request that a redirect makes. *)
Section Follow.
Context (hop : HttpReq -> CM Answer) (first : HttpReq) (seen : CliWorld -> Prop).
Context (Hseen : forall w w', grows w w' -> seen w -> seen w').
Definition redirected (url : string) (r : HttpReq) : Prop :=
  hq_URL r = url
  /\ (hq_Body r = EmptyBody \/ hq_Body r = hq_Body first)
  /\ (hq_Method r = "GET" \/ hq_Method r = hq_Method first)
  /\ (hq_Auth r = None \/ hq_Auth r = hq_Auth first /\ stays (hq_URL first) url = Some true).
Context (Hhop : forall r w a, client_inv w -> seen w -> In (Answered a) (cw_events w) ->
  redirects (an_Status a) = true -> an_Location a = Some (hq_URL r) -> redirected (hq_URL r) r ->
  client_inv (hop r w).2 /\ grows w (hop r w).2
  /\ forall a' w', hop r w = (Ok a', w') -> In (Answered a') (cw_events w')).

Lemma follow_keeps more : forall r strip drop a w,
  client_inv w -> seen w -> In (Answered a) (cw_events w) ->
  hq_Method r = "GET" \/ hq_Method r = hq_Method first ->
  client_inv (follow hop more first r strip drop a w).2.
Proof.
  induction more as [|more IH]; intros r strip drop a w Hw Hin Ha Hm; simpl;
    destruct (redirects (an_Status a)) eqn:Er; cbn [negb]; try done;
    destruct (an_Location a) as [url|] eqn:El; try done.
  destruct (stays (hq_URL first) url) as [same|] eqn:Es; [|done].
  set (r' := mkHttpReq _ url _ _).
  assert (redirected url r') as Hr.
  { unfold redirected, r'. simpl. split_and!; [done| | |].
    - destruct (drop || _); auto.
    - unfold redirect_method. case_goal; [exact Hm|by left].
    - destruct strip; [by left|]. destruct same; simpl; auto. }
  destruct (Hhop r' w a Hw Hin Ha Er El Hr) as (Hw' & Hg & Ha').
  unfold cbind. destruct (hop r' w) as [[a'|e] w'] eqn:Eh; [|done]. simpl in *.
  apply IH; [done|by apply (Hseen w)|by apply Ha'|apply Hr].
Qed.
End Follow.

Lemma api_hop_keeps first n1 r w a :
  client_inv w -> In (Sent n1 first) (cw_events w) -> In (Answered a) (cw_events w) ->
  redirects (an_Status a) = true -> an_Location a = Some (hq_URL r) -> redirected first (hq_URL r) r ->
  client_inv (transmit (Followed false) r w).2 /\ grows w (transmit (Followed false) r w).2
  /\ forall a' w', transmit (Followed false) r w = (Ok a', w') -> In (Answered a') (cw_events w').
Proof.
  intros Hw Hin Ha Er El (_ & Hb & Hm & Hau).
  destruct (transmit_keeps (Followed false) r w Hw) as (K1 & _ & K2 & K3); [|done].
  apply trace_followed; [apply Hw|]. split; [by exists a|]. exists n1, first. by split_and!.
Qed.

Lemma bind_keeps_at {A B} (m : CM A) (k : A -> CM B) w :
  client_inv (m w).2 -> (forall a w', m w = (Ok a, w') -> client_inv w' -> client_inv (k a w').2) ->
  client_inv (cbind m k w).2.
Proof. unfold cbind. destruct (m w) as [[a|e] w']; simpl; auto. Qed.

(** A request the client may send, and what becomes of it. *)
Lemma send_keeps r w : client_inv w -> request_ok (cw_events w) (clock (cw_net w)) r -> client_inv (send r w).2.
Proof.
  intros Hw Hr. unfold send.
  destruct (transmit_keeps Sent r w Hw) as (K1 & K2 & K3 & K4); [by apply trace_sent; [apply Hw|]|].
  apply bind_keeps_at; [exact K1|]. intros a w1 E Hw1. specialize (K4 _ _ E). rewrite E in K2.
  apply bind_keeps_at; [|by intros a' w2 _ Hw2].
  apply (follow_keeps _ r (fun v => In (Sent (clock (cw_net w)) r) (cw_events v))); try done; [| |by right].
  - intros v v' Hg Hv. by apply (grows_in v).
  - intros r' v a'. by apply api_hop_keeps.
Qed.

Lemma raw_keeps r w : client_inv w -> request_ok (cw_events w) (clock (cw_net w)) r -> client_inv (doRaw r w).2.
Proof.
  intros Hw Hr. pose proof (send_keeps r w Hw Hr) as H. unfold doRaw, cbind.
  destruct (send r w) as [[x|e] w']; [|done]. simpl in *. by destruct (_ || _).
Qed.

Lemma prefix_slash s : has_prefix (String "/" s) "/" = true.
Proof. apply has_prefix_spec. by exists s. Qed.

Lemma new_request_shape meth url body w r w' : newRequest meth url body w = (Ok r, w') ->
  w' = w /\ r = mkHttpReq meth url None body.
Proof. unfold newRequest. destruct (url_Parse url); [|done]. by intros [= <- <-]. Qed.

(** A request is built and handed on. *)
Lemma request_then {A} meth url body (k : HttpReq -> CM A) w : client_inv w ->
  client_inv (k (mkHttpReq meth url None body) w).2 -> client_inv (cbind (newRequest meth url body) k w).2.
Proof. intros Hw Hk. unfold cbind, newRequest. by destruct (url_Parse url). Qed.

Lemma mint_keeps ttl : keeps (mintAccessToken ttl).
Proof.
  intros w Hw. unfold mintAccessToken. destruct (cf_Credential cfg == ""); [done|]. apply request_then; [done|].
  apply bind_keeps_at.
  - apply raw_keeps; [done|]. split; [exists "/api/v1/cli/access-token"; split; [done|apply prefix_slash]|]. by left.
  - intros body w1 _ Hw1. revert w1 Hw1. apply (keeps_bind (decode _ _ _ _)); [apply keeps_decode|]. intros out.
    destruct (parse_time out.2); [apply keeps_ret|apply keeps_throw].
Qed.

Lemma last_snoc {A} (l : list A) x : last (l ++ [x]) = Some x.
Proof. by rewrite last_snoc. Qed.

(** The token handed out may be used at once. *)
Lemma ensure_ok w : client_inv w ->
  let '(r, w') := ensureAccessToken w in
  client_inv w' /\ match r with Ok t => usable (cw_events w') (clock (cw_net w')) t | Err _ => True end.
Proof.
  intros Hw. unfold ensureAccessToken.
  destruct (negb (cw_token w == "") && (accessTokenRefreshMargin <? cw_expires w - clock (cw_net w))) eqn:E.
  - split; [done|]. bool_facts. exists (cw_expires w). split; [by apply Hw|by left].
  - pose proof (mint_keeps accessTokenRequestTTL w Hw) as Hm. unfold cbind.
    destruct (mintAccessToken accessTokenRequestTTL w) as [[[t e]|err] w1]; [|by split]. simpl in *.
    destruct Hm as [Ht _]. split.
    + split; simpl; [by apply trace_minted|]. intros _. apply in_or_app. right. by left.
    + exists e. split; [apply in_or_app; right; by left|]. right. apply last_snoc.
Qed.

Lemma authorised l n t r : usable l n t -> to_server r -> request_ok l n (with_auth t r).
Proof. intros Ht [path Hp]. split; [by exists path|]. right. by exists t. Qed.

Lemma do_keeps r : to_server r -> keeps (do_request r).
Proof.
  intros Hr w Hw. unfold do_request, cbind. pose proof (ensure_ok w Hw) as H.
  destruct (ensureAccessToken w) as [[t|e] w1]; destruct H as [Hw1 Ht]; [|done].
  apply raw_keeps; [done|by apply authorised].
Qed.

(** Calls only add events. *)
Definition extends {A} (m : CM A) : Prop := forall w, grows w (m w).2.
Lemma net_grows_refl w : grows w w.
Proof. exists []. by rewrite app_nil_r. Qed.
Lemma net_grows_trans w1 w2 w3 : grows w1 w2 -> grows w2 w3 -> grows w1 w3.
Proof. intros [l Hl] [l' Hl']. exists (l ++ l')%list. by rewrite Hl', Hl, app_assoc. Qed.
Lemma extends_bind {A B} (m : CM A) (k : A -> CM B) : extends m -> (forall a, extends (k a)) -> extends (cbind m k).
Proof.
  intros Hm Hk w. specialize (Hm w). unfold cbind. destruct (m w) as [[a|e] w']; [|done].
  by apply (net_grows_trans _ w'); [|apply Hk].
Qed.
Lemma extends_same {A} (m : CM A) : (forall w, cw_events (m w).2 = cw_events w) -> extends m.
Proof. intros H w. exists []. by rewrite H, app_nil_r. Qed.
Lemma extends_transmit mark r : extends (transmit mark r).
Proof.
  intros w. unfold transmit. destruct (exchange r (cw_net w)) as [[a|e] net].
  - exists [mark (clock (cw_net w)) r; Answered a]. simpl. by rewrite <- app_assoc.
  - by exists [mark (clock (cw_net w)) r].
Qed.
Lemma extends_follow hop first : (forall r, extends (hop r)) ->
  forall more r strip drop a, extends (follow hop more first r strip drop a).
Proof.
  intros Hh more. induction more as [|more IH]; intros r strip drop a; simpl;
    (destruct (negb _); [by apply extends_same|]); (destruct (an_Location a) as [url|]; [|by apply extends_same]);
    [by apply extends_same|].
  destruct (stays (hq_URL first) url); [|by apply extends_same]. apply extends_bind; [apply Hh|]. intros a'. apply IH.
Qed.
Lemma extends_ensure : extends ensureAccessToken.
Proof.
  intros w. unfold ensureAccessToken. case_goal; [apply net_grows_refl|]. revert w E.
  assert (extends (cbind (mintAccessToken accessTokenRequestTTL)
    (fun t => cbind (remember t.1 t.2) (fun _ => cret t.1)))) as H; [|intros w _; apply H].
  apply extends_bind; [|intros t; apply extends_bind; [|intros []; by apply extends_same]].
  2:{ intros w. by exists [Minted t.1 t.2]. }
  unfold mintAccessToken. case_goal; [by apply extends_same|]. apply extends_bind.
  { apply extends_same. intros w. unfold newRequest. by case_goal. }
  intros r. apply extends_bind; [|intros body; apply extends_bind].
  - unfold doRaw, send. apply extends_bind; [|intros x; case_goal; by apply extends_same].
    apply extends_bind; [apply extends_transmit|]. intros a. apply extends_bind; [|intros a'; by apply extends_same].
    apply extends_follow. intros r'. apply extends_transmit.
  - apply extends_same. intros w. unfold decode. destruct (json_parse body) as [j|]; [|done]. by case_goal.
  - intros out. case_goal; by apply extends_same.
Qed.

(** One request of the MCP transport: retried once with a new token. *)
Section Round.
Context (mark : Time -> HttpReq -> Event) (r : HttpReq) (w0 : CliWorld).
Context (Hmark : forall w n t, grows w0 w -> client_inv w -> usable (cw_events w) n t ->
  trace_ok (cw_events w ++ [mark n (with_auth t r)])).

Lemma attempt_keeps w t : grows w0 w -> client_inv w -> usable (cw_events w) (clock (cw_net w)) t ->
  client_inv (transmit mark (with_auth t r) w).2
  /\ (exists n, In (mark n (with_auth t r)) (cw_events (transmit mark (with_auth t r) w).2))
  /\ grows w0 (transmit mark (with_auth t r) w).2
  /\ forall a w', transmit mark (with_auth t r) w = (Ok a, w') -> In (Answered a) (cw_events w').
Proof.
  intros Hg Hw Ht. destruct (transmit_keeps mark (with_auth t r) w Hw) as (K1 & K2 & K3 & K4); [by apply Hmark|].
  split_and!; [done|by eexists|by apply (net_grows_trans _ w)|done].
Qed.

(** How a round ends. *)
Definition round_good (p : result CliErr Answer * CliWorld) : Prop :=
  client_inv p.2 /\ grows w0 p.2
  /\ forall a w', p = (Ok a, w') -> In (Answered a) (cw_events w') /\ exists n t, In (mark n (with_auth t r)) (cw_events w').

(** A token, and the request with it. *)
Lemma round_attempt (k : Answer -> CM Answer) w : grows w0 w -> client_inv w ->
  (forall a w1, client_inv w1 -> grows w0 w1 -> In (Answered a) (cw_events w1) ->
     (exists n t, In (mark n (with_auth t r)) (cw_events w1)) -> round_good (k a w1)) ->
  round_good (cbind ensureAccessToken (fun t => cbind (transmit mark (with_auth t r)) k) w).
Proof.
  intros Hg Hw Hk. pose proof (ensure_ok w Hw) as H. pose proof (net_grows_trans _ _ _ Hg (extends_ensure w)) as Hg1.
  unfold cbind at 1. destruct (ensureAccessToken w) as [[t|e] w1]; destruct H as [Hw1 Ht]; [|by split_and!].
  destruct (attempt_keeps w1 t Hg1 Hw1 Ht) as (K1 & (n1 & K2) & K3 & K4).
  unfold cbind. destruct (transmit mark (with_auth t r) w1) as [[a|e] w2]; [|by split_and!].
  apply Hk; [done|done|by apply K4|eauto].
Qed.

Lemma round_keeps : client_inv w0 -> round_good (RoundTrip mark r w0).
Proof.
  intros Hw. unfold RoundTrip. apply round_attempt; [apply net_grows_refl|done|].
  intros a w1 Hw1 Hg1 Ha Hs. case_goal; [split_and!; [done..|]; by intros a' w' [= <- <-]|].
  unfold cbind at 1, forget. cbv iota beta. apply round_attempt; [done|by split; [apply Hw1|]|].
  intros a2 w2 Hw2 Hg2 Ha2 Hs2. case_goal; split_and!; try done. by intros a' w' [= <- <-].
Qed.
End Round.

Lemma extends_round mark r : extends (RoundTrip mark r).
Proof.
  unfold RoundTrip. apply extends_bind; [apply extends_ensure|]. intros t. apply extends_bind; [apply extends_transmit|].
  intros a. case_goal; [by apply extends_same|]. apply extends_bind; [by apply extends_same|]. intros _.
  apply extends_bind; [apply extends_ensure|]. intros t2. apply extends_bind; [apply extends_transmit|]. intros a2.
  case_goal; by apply extends_same.
Qed.

Lemma mcp_keeps meth data : keeps (mcp_send (mcp_request meth data)).
Proof.
  set (r := mcp_request meth data). intros w Hw.
  assert (to_server r) as Hr by (eexists; split; [reflexivity|apply prefix_slash]).
  destruct (round_keeps Sent r w) as (K1 & K2 & K3); [|done|].
  { intros v n t _ Hv Ht. apply trace_sent; [apply Hv|by apply authorised]. }
  unfold mcp_send. apply bind_keeps_at; [exact K1|]. intros a w1 E Hw1. destruct (K3 _ _ E) as [Ha Hsent].
  apply (follow_keeps _ r (fun v => exists n t, In (Sent n (with_auth t r)) (cw_events v))); try done; [| |by right].
  - intros v v' Hg (n & t & Hin). exists n, t. by apply (grows_in v).
  - intros r' v a' Hv (n1 & t1 & Hin) Ha' Er El (_ & Hb & Hm & _).
    destruct (round_keeps (Followed true) r' v) as (L1 & L2 & L3); [|done|].
    { intros v2 n t Hg Hv2 Ht. apply trace_followed; [apply Hv2|]. split; [exists a'; split_and!; [by apply (grows_in v)|done|done]|].
      exists n1, (with_auth t1 r). split_and!; [by apply (grows_in v)|exact Hb|exact Hm|done|by exists t]. }
    split_and!; [done|done|]. intros a2 w2 E2. by destruct (L3 _ _ E2).
Qed.

Ltac to_path := eexists; split; [cbn [hq_URL]; rewrite ?str_app_assoc; reflexivity|apply prefix_slash].
Ltac call_keeps :=
  apply keeps_ignore; intros w Hw; apply request_then; [exact Hw|];
  apply bind_keeps_at; [apply do_keeps; [to_path|exact Hw]|intros body w1 _ Hw1; by apply keeps_decode].

Lemma run_call_keeps c : keeps (run_call c).
Proof.
  destruct c; cbn [run_call].
  - call_keeps.
  - call_keeps.
  - call_keeps.
  - call_keeps.
  - call_keeps.
  - apply keeps_ignore, mint_keeps.
  - apply keeps_ignore. intros w Hw. apply request_then; [exact Hw|]. apply bind_keeps_at.
    + apply raw_keeps; [done|]. split; [to_path|done].
    + intros body w1 _ Hw1. revert w1 Hw1. apply (keeps_bind (decode _ _ _ _)); [apply keeps_decode|]. intros out.
      destruct (out == ""); [apply keeps_throw|apply keeps_ret].
  - apply keeps_ignore, mcp_keeps.
Qed.

Lemma run_calls_keep cs : forall w, client_inv w -> client_inv (run_calls cs w).
Proof. induction cs as [|c cs IH]; intros w Hw; [done|]. apply IH. by apply run_call_keeps. Qed.
End Calls.

End Client.

(** ** Witness *)

(** A server whose clock advances by a minute with every request. *)
Definition sample_answer (r : HttpReq) : Answer :=
  mkAnswer 200 None
    (if has_suffix (hq_URL r) "/access-token"
     then json_print (JsonText := numeral_json) (JObj [("access_token", JStr "t1"); ("expires_at", JStr "later")])
     else json_print (JsonText := numeral_json) (JObj [("user_id", JStr "alice")])).
Definition sample_exchange (r : HttpReq) (n : Z) : result string Answer * Z := (Ok (sample_answer r), n + Minute).
Definition no_yaml (data : string) : option CliConfig := None.
Definition in_fifteen (s : string) : option Time := Some (15 * Minute).

(** The same server, but for one address that redirects (307) to another. *)
Definition redirecting (from to : string) (r : HttpReq) (n : Z) : result string Answer * Z :=
  (Ok (if hq_URL r == from then mkAnswer 307 (Some to) "" else sample_answer r), n + Minute).

Abbreviation sample_run exchange calls :=
  (run_calls (U := ascii_tables) (J := numeral_json) (N := fun s => s) exchange (fun n => n) in_fifteen
     (mkCliConfig "https://fb.example.com" "fbxc_1") calls (new_client 0)).
Abbreviation sample_session := (sample_run sample_exchange [CallMe; CallList ""]).

Definition heads (events : list Event) : list (bool * string * option string) :=
  omap (fun e => match e with
                 | Sent _ r => Some (false, hq_URL r, hq_Auth r)
                 | Followed _ _ r => Some (true, hq_URL r, hq_Auth r)
                 | _ => None
                 end) events.


(** A redirect to another host loses the Authorization header of an API call... *)
Example redirect_strips_header :
  heads (cw_events (sample_run (redirecting "https://fb.example.com/api/v1/me" "https://other.example/me") [CallMe]))
  = [(false, "https://fb.example.com/api/v1/cli/access-token", Some "Bearer fbxc_1");
     (false, "https://fb.example.com/api/v1/me", Some "Bearer t1"); (true, "https://other.example/me", None)].
Proof. vm_compute. reflexivity. Qed.

(** ...but the MCP transport takes the access token there... *)
Example mcp_redirect_takes_token :
  heads (cw_events (sample_run (redirecting "https://fb.example.com/mcp" "https://other.example/mcp") [CallMCP "POST" "{}"]))
  = [(false, "https://fb.example.com/api/v1/cli/access-token", Some "Bearer fbxc_1");
     (false, "https://fb.example.com/mcp", Some "Bearer t1"); (true, "https://other.example/mcp", Some "Bearer t1")].
Proof. vm_compute. reflexivity. Qed.

(** ...and one to plain http on the same host takes the credential there. *)
Example redirect_downgrades_credential :
  heads (cw_events (sample_run (redirecting "https://fb.example.com/api/v1/cli/access-token"
                                  "http://fb.example.com/access-token") [CallMint 0]))
  = [(false, "https://fb.example.com/api/v1/cli/access-token", Some "Bearer fbxc_1");
     (true, "http://fb.example.com/access-token", Some "Bearer fbxc_1")].
Proof. vm_compute. reflexivity. Qed.
