(* ===== verification/CliLogs.v ===== *)
(** * CliLogs: following a function's invocation logs

    Models src/internal/cli/logs.go over the client: the newest page of a log is
    asked for again and again, and what was not shown yet is printed, oldest first.
    What goes on elsewhere during the wait between two polls is a parameter. *)

From stdpp Require Import sorting.
From S2P Require Import Prelude GoURL GoNum Types Settings CliConfig CliFlags CliClient.

Definition logsPageSize : Z := 50.

(** ** Lines *)

Definition writeIndented (label s : string) : list string :=
  map (fun line => "  [" +:+ label +:+ "] " +:+ line)
    (split_byte (trim_right_func (fun c => (c =? "010")%char) s) "010").

Definition printLogLine (l : LogDTO) : list string :=
  ((ld_CreatedAt l +:+ " " +:+ ld_Method l +:+ " " +:+ ld_Path l +:+ " " +:+ itoa (ld_Status l) +:+ " "
     +:+ itoa (ld_DurationMS l) +:+ "ms")
   :: (if ld_Stdout l == "" then [] else writeIndented "stdout" (ld_Stdout l))
   ++ (if ld_Stderr l == "" then [] else writeIndented "stderr" (ld_Stderr l)))%list.

Definition print_lines (l : list LogDTO) : list string := concat (map printLogLine l).
Definition no_logs_yet : string := "no invocation logs yet".

(** The walk over a page, oldest first: the newest identifier printed and the
    entries printed so far. *)
Definition show_entry (afterID : string) (st : string * list LogDTO) (l : LogDTO) : string * list LogDTO :=
  if negb (afterID == "") && String.leb (ld_ID l) afterID then st
  else (if (st.1 == "") || String.ltb st.1 (ld_ID l) then ld_ID l else st.1, st.2 ++ [l]).
Definition show (afterID : string) (logs : list LogDTO) : string * list LogDTO :=
  foldl (show_entry afterID) (afterID, []) (rev logs).

Inductive LogsErr :=
| LogsFlags (e : FlagErr)
| LogsExit (message : string)
| LogsConfig (e : ConfigFailure)
| LogsNotFound (owner name message : string)
| LogsFailed (e : CliErr).

(** ** The command *)

Section Logs.
Context {U : UnicodeTables} {J : JsonText}.
Context {N : Idna} {Net : Type} (exchange : HttpReq -> Net -> result string Answer * Net) (clock : Net -> Time).
Context (parse_time : string -> option Time) (wait : Net -> Net).

Definition LogsWorld : Type := CliWorld (Net := Net).

Section Printing.
Context (cfg : CliConfig) (owner name : string).

Definition printLogsPage (afterID : string) : LogsWorld -> result LogsErr (string * list string) * LogsWorld := fun w =>
  match Logs exchange clock parse_time cfg owner name "" logsPageSize w with
  | (Err e, w') =>
      (Err match e with
           | CliAPI status _ message => if status =? 404 then LogsNotFound owner name message else LogsFailed e
           | e => LogsFailed e
           end, w')
  | (Ok logs, w') =>
      let '(newest, shown) := show afterID logs in
      (Ok (newest, print_lines shown
             ++ (if bool_decide (shown = []) && (afterID == "") && bool_decide (logs = []) then [no_logs_yet] else [])), w')
  end.

(** [time.Sleep(logsFollowInterval)] *)
Definition sleep (w : LogsWorld) : LogsWorld := mkCliWorld (wait (cw_net w)) (cw_token w) (cw_expires w) (cw_events w).

(** The first so many rounds of the loop: what they print, and the failure that ends
    it. *)
Fixpoint poll (rounds : nat) (lastSeenID : string) (w : LogsWorld) : list string * option LogsErr * LogsWorld :=
  match rounds with
  | O => ([], None, w)
  | S rounds =>
      match printLogsPage lastSeenID (sleep w) with
      | (Err e, w') => ([], Some e, w')
      | (Ok (newest, out), w') =>
          let '(out', e, w'') := poll rounds (if newest == "" then lastSeenID else newest) w' in
          (out ++ out', e, w'')
      end
  end.

Definition logs_loop (follow : bool) (rounds : nat) (w : LogsWorld) : list string * option LogsErr * LogsWorld :=
  match printLogsPage "" w with
  | (Err e, w') => ([], Some e, w')
  | (Ok (newest, out), w') =>
      if follow then let '(out', e, w'') := poll rounds newest w' in (out ++ out', e, w'') else (out, None, w')
  end.
End Printing.

Definition logs_flags : FlagSet := fun name => if name == "follow" then Some boolean else None.

(** The last value of a boolean flag, as [strconv.ParseBool] reads it. *)
Definition true_value (v : string) : bool := existsb (String.eqb v) ["1"; "t"; "T"; "true"; "TRUE"; "True"].
Definition bool_flag (name : string) (sets : Sets) : bool :=
  match last (List.filter (fun nv => nv.1 == name) sets) with Some (_, v) => true_value v | None => false end.
Definition string_flag (name dflt : string) (sets : Sets) : string :=
  match last (List.filter (fun nv => nv.1 == name) sets) with Some (_, v) => v | None => dflt end.

(** [<owner>/<name>] *)
Definition target (arg : string) : option (string * string) :=
  let '(owner, name, ok) := cut_byte arg "/" in
  if negb ok || (owner == "") || (name == "") then None else Some (owner, name).

(** [RunLogs] for so many rounds; [config] is what [RequireConfig] gives and [net]
    the network. *)
Definition RunLogs (args : list string) (config : result ConfigFailure CliConfig) (rounds : nat) (net : Net)
    : option (list string * option LogsErr * LogsWorld) :=
  let w := new_client net in
  match parseFlagsInterspersed logs_flags args with
  | None => None
  | Some (Err e) => Some ([], Some (LogsFlags e), w)
  | Some (Ok (positional, sets)) =>
      Some match positional with
           | [arg] =>
               match target arg with
               | None => ([], Some (LogsExit "funcbox logs: expected <owner>/<name>"), w)
               | Some (owner, name) =>
                   match config with
                   | Err e => ([], Some (LogsConfig e), w)
                   | Ok cfg => logs_loop cfg owner name (bool_flag "follow" sets) rounds w
                   end
               end
           | _ => ([], Some (LogsExit "usage: funcbox logs <owner>/<name> [--follow]"), w)
           end
  end.

(** ** Every entry once *)

Definition id_lt (a b : LogDTO) : Prop := String.ltb (ld_ID a) (ld_ID b) = true.

(** A log, oldest first: the identifiers grow. *)
Definition log_ok (h : list LogDTO) : Prop := StronglySorted id_lt h /\ Forall (fun l => ld_ID l <> "") h.

(** The newest page of a log. *)
Definition page (h : list LogDTO) : list LogDTO := take (Z.to_nat logsPageSize) (rev h).
Definition last_id (h : list LogDTO) : string := match last h with Some l => ld_ID l | None => "" end.

(** What the log is at each poll, grown by at most a page between two of them. *)
Inductive grows : list LogDTO -> list (list LogDTO) -> Prop :=
| grows_nil h : grows h []
| grows_cons h new hs : Z.of_nat (length new) <= logsPageSize -> grows (h ++ new) hs -> grows h ((h ++ new) :: hs).

Lemma id_lt_leb a b : id_lt a b -> String.leb (ld_ID a) (ld_ID b) = true /\ String.leb (ld_ID b) (ld_ID a) = false.
Proof.
  unfold id_lt, String.ltb, String.leb. rewrite (String.compare_antisym (ld_ID a) (ld_ID b)).
  by destruct (String.compare _ _).
Qed.

Lemma show_fresh after l : forall st,
  Forall (fun x => negb (after == "") && String.leb (ld_ID x) after = false) l ->
  Sorted id_lt l -> (st.1 = "" \/ match l with [] => True | x :: _ => String.ltb st.1 (ld_ID x) = true end) ->
  foldl (show_entry after) st l = (match last l with Some x => ld_ID x | None => st.1 end, st.2 ++ l).
Proof.
  induction l as [|x l IH]; intros st Hf Hs Hst; [simpl; rewrite app_nil_r; by destruct st|].
  apply Forall_cons in Hf as [Hx Hf]. inversion Hs as [|? ? Hs' Hh]; subst. cbn [foldl].
  unfold show_entry at 2. rewrite Hx.
  assert ((if (st.1 == "") || String.ltb st.1 (ld_ID x) then ld_ID x else st.1) = ld_ID x) as ->.
  { destruct Hst as [-> |Hst]; [done|]. rewrite Hst. by rewrite orb_true_r. }
  rewrite IH; [|done|done|].
  - cbn [fst snd]. rewrite <- app_assoc. rewrite last_cons. by destruct (last l).
  - right. destruct l as [|y l]; [done|]. by inversion Hh.
Qed.

Lemma show_seen after l : forall st,
  Forall (fun x => negb (after == "") && String.leb (ld_ID x) after = true) l ->
  foldl (show_entry after) st l = st.
Proof.
  induction l as [|x l IH]; intros st Hf; [done|]. apply Forall_cons in Hf as [Hx Hf].
  cbn [foldl]. unfold show_entry at 2. rewrite Hx. by apply IH.
Qed.

Lemma rev_page h : rev (page h) = drop (length h - Z.to_nat logsPageSize) h.
Proof. unfold page. by rewrite firstn_rev, rev_involutive. Qed.

(** A poll prints what came since the last one. *)
Lemma show_page old new : log_ok (old ++ new) -> Z.of_nat (length new) <= logsPageSize -> old <> [] ->
  show (last_id old) (page (old ++ new)) = (last_id (old ++ new), new).
Proof.
  intros [Hs Hn] Hl Hne. unfold show. rewrite rev_page, drop_app, length_app.
  replace (drop (_ - length old) new) with new
    by (rewrite <- (drop_0 new) at 1; f_equal; unfold logsPageSize in *; lia).
  apply StronglySorted_app in Hs as (Hcross & Hs1 & Hs2).
  destruct old as [|z old _] using rev_ind; [done|].
  assert (last_id (old ++ [z]) = ld_ID z) as Hz by (unfold last_id; by rewrite last_snoc).
  apply Forall_app in Hn as [Hn1 Hn2]. apply Forall_app in Hn1 as [Hn1 Hnz]. apply Forall_inv, String.eqb_neq in Hnz.
  rewrite Hz, foldl_app, (show_seen _ (drop _ _)).
  2: { apply Forall_drop, Forall_forall. intros x Hx. rewrite Hnz. simpl.
    apply elem_of_app in Hx as [Hx|Hx%list_elem_of_singleton]; [|subst; by destruct (String.leb_total (ld_ID z) (ld_ID z))].
    apply StronglySorted_app in Hs1 as (Hc & _ & _). apply (id_lt_leb x z). apply Hc; set_solver. }
  rewrite show_fresh; cbn [fst snd].
  - f_equal. unfold last_id. rewrite last_app. by destruct (last new) as [y|]; [|rewrite last_snoc].
  - apply Forall_forall. intros x Hx. rewrite Hnz. simpl. apply (id_lt_leb z x). apply Hcross; set_solver.
  - by apply StronglySorted_Sorted.
  - right. destruct new as [|y new]; [done|]. apply Hcross; set_solver.
Qed.

(** The first page is printed whole. *)
Lemma show_first h : log_ok h -> show "" (page h) = (last_id h, drop (length h - Z.to_nat logsPageSize) h).
Proof.
  intros [Hs Hn]. unfold show. rewrite rev_page, show_fresh; cbn [fst snd].
  - f_equal. unfold last_id. destruct h as [|z h _] using rev_ind; [by rewrite drop_nil|].
    rewrite length_app, drop_app_le by (unfold logsPageSize; simpl; lia). by rewrite !last_snoc.
  - apply Forall_forall. done.
  - apply StronglySorted_Sorted. rewrite <- (take_drop (length h - Z.to_nat logsPageSize) h) in Hs.
    by apply StronglySorted_app in Hs as (_ & _ & ?).
  - by left.
Qed.

Definition final (h : list LogDTO) (hs : list (list LogDTO)) : list LogDTO := default h (last hs).
Definition empties (hs : list (list LogDTO)) : nat := length (filter (fun h => h = []) hs).

Lemma final_cons h h1 hs : final h (h1 :: hs) = final h1 hs.
Proof. unfold final. rewrite last_cons. by destruct (last hs). Qed.

Lemma grows_final h hs : grows h hs -> exists m, final h hs = h ++ m.
Proof.
  induction 1 as [h|h new hs _ _ [m Hm]]; [exists []; by rewrite app_nil_r|].
  exists (new ++ m). by rewrite final_cons, Hm, <- app_assoc.
Qed.

Lemma never_empty_again h hs : grows h hs -> h <> [] -> empties hs = 0%nat.
Proof.
  induction 1 as [h|h new hs _ _ IH]; intros Hne; [done|]. unfold empties in *.
  assert (h ++ new <> []) as Hne' by (by destruct h). rewrite filter_cons_False by done. by apply IH.
Qed.

Lemma log_prefix h m : log_ok (h ++ m) -> log_ok h.
Proof. intros [Hs Hn]. split; [by apply StronglySorted_app in Hs as (_ & ? & _)|by apply Forall_app in Hn as [? _]]. Qed.

Lemma no_last_id h : log_ok h -> last_id h = "" -> h = [].
Proof.
  intros [_ Hn] E. destruct h as [|z h _] using rev_ind; [done|]. unfold last_id in E. rewrite last_snoc in E.
  by apply Forall_app in Hn as [_ Hz%Forall_inv].
Qed.

Lemma page_empty h : page h = [] <-> h = [].
Proof.
  split; [|by intros ->]. intros E. destruct h as [|z h _] using rev_ind; [done|]. unfold page in E.
  by rewrite rev_app_distr in E.
Qed.

Lemma print_lines_app l1 l2 : print_lines (l1 ++ l2) = print_lines l1 ++ print_lines l2.
Proof. unfold print_lines. by rewrite map_app, concat_app. Qed.

Section Following.
Context (cfg : CliConfig) (owner name : string).

(** What the server answers to the polls. *)
Fixpoint answered (w : LogsWorld) (hs : list (list LogDTO)) : Prop :=
  match hs with
  | [] => True
  | h :: hs => exists w', Logs exchange clock parse_time cfg owner name "" logsPageSize w = (Ok (page h), w')
                 /\ answered (sleep w') hs
  end.

Lemma page_shown h new w w' : log_ok (h ++ new) -> Z.of_nat (length new) <= logsPageSize ->
  Logs exchange clock parse_time cfg owner name "" logsPageSize w = (Ok (page (h ++ new)), w') ->
  printLogsPage cfg owner name (last_id h) w
  = (Ok (last_id (h ++ new), print_lines new ++ (if bool_decide (h ++ new = []) then [no_logs_yet] else [])), w').
Proof.
  intros Hok Hl E. unfold printLogsPage. rewrite E.
  assert (show (last_id h) (page (h ++ new)) = (last_id (h ++ new), new)) as ->.
  { destruct h as [|z h]; [|by apply show_page]. simpl. rewrite show_first by done. simpl.
    by replace (_ - _)%nat with 0%nat by (unfold logsPageSize in *; lia). }
  do 4 f_equal. pose proof (page_empty (h ++ new)) as Hp. apply log_prefix in Hok.
  destruct (bool_decide (h ++ new = [])) eqn:Eb; bool_facts.
  - destruct h, new; try done.
  - rewrite (bool_decide_eq_false_2 (page _ = [])) by tauto. by rewrite andb_false_r.
Qed.

Lemma poll_spec hs : forall h w, grows h hs -> log_ok (final h hs) -> answered (sleep w) hs ->
  exists w', poll cfg owner name (length hs) (last_id h) w
             = (repeat no_logs_yet (empties hs) ++ print_lines (drop (length h) (final h hs)), None, w').
Proof.
  induction hs as [|h1 hs IH]; intros h w Hg Hok Ha.
  { exists w. unfold final. cbn [last default]. simpl. by rewrite drop_all. }
  inversion Hg as [|? new ? Hl Hg']; subst. rewrite final_cons in *. destruct Ha as (w1 & E & Ha).
  destruct (grows_final _ _ Hg') as [m Hm].
  assert (log_ok (h ++ new)) as Hok1 by (rewrite Hm in Hok; by apply log_prefix in Hok).
  cbn [length poll]. rewrite (page_shown h new _ w1 Hok1 Hl E).
  assert ((if last_id (h ++ new) == "" then last_id h else last_id (h ++ new)) = last_id (h ++ new)) as ->.
  { destruct (last_id (h ++ new) == "") eqn:E0; [|done]. bool_facts. apply no_last_id in E0; [|done]. by destruct h, new. }
  destruct (IH (h ++ new) w1 Hg' Hok Ha) as [w2 ->]. exists w2. f_equal. f_equal.
  rewrite Hm, drop_app_length. rewrite <- (app_assoc h), drop_app_length, print_lines_app. unfold empties.
  case_bool_decide as Eb.
  - rewrite filter_cons_True by done. destruct h, new; [|done..]. done.
  - rewrite filter_cons_False by done. rewrite app_nil_r.
    pose proof (never_empty_again _ _ Hg' Eb) as H0. unfold empties in H0. rewrite H0. done.
Qed.

(** Following a log prints every entry once, in order. As long as the log only
    grows, with growing identifiers and by no more than a page between two polls,
    so many rounds print the notice once for each time the log was empty, then the
    newest page of the log as it was first seen and after it every entry that came
    since, each once and oldest first; and nothing stops them. *)
Theorem follow_each_once h hs w (Hg : grows h hs) (Hok : log_ok (final h hs)) (Ha : answered w (h :: hs)) :
  exists w', logs_loop cfg owner name true (length hs) w
  = (repeat no_logs_yet (empties (h :: hs)) ++ print_lines (drop (length h - Z.to_nat logsPageSize) (final h hs)),
     None, w').
Proof.
  destruct Ha as (w1 & E & Ha). destruct (grows_final _ _ Hg) as [m Hm].
  assert (log_ok h) as Hh by (rewrite Hm in Hok; by apply log_prefix in Hok).
  unfold logs_loop, printLogsPage. rewrite E, (show_first h Hh).
  destruct (poll_spec hs h w1 Hg Hok Ha) as [w2 ->]. exists w2. f_equal. f_equal.
  rewrite Hm, drop_app_length, drop_app_le by lia. rewrite print_lines_app. unfold empties.
  destruct h as [|l h].
  - rewrite filter_cons_True by done. done.
  - rewrite filter_cons_False by done. pose proof (never_empty_again _ _ Hg ltac:(done)) as H0. unfold empties in H0.
    rewrite H0. cbn [repeat app]. rewrite (bool_decide_eq_false_2 (page _ = [])) by (by rewrite page_empty).
    by rewrite andb_false_r, app_nil_r.
Qed.
End Following.
End Logs.

(** ** Witness *)

(** A server whose log gets one entry between two polls. *)
Definition sample_log (n : nat) : LogDTO :=
  mkLogDTO (String (ascii_of_nat (97 + n)) "") "" "GET" "/" 200 3 "" "" "now".
Definition sample_logs (n : nat) : list LogDTO := map sample_log (seq 0 n).
Definition log_json (l : LogDTO) : json :=
  JObj [("id", JStr (ld_ID l)); ("method", JStr "GET"); ("path", JStr "/"); ("status", JInt 200);
        ("duration_ms", JInt 3); ("created_at", JStr "now")].
Definition log_server (r : HttpReq) (n : nat) : result string Answer * nat :=
  (Ok (mkAnswer 200 None (json_print (JsonText := numeral_json)
              (if has_suffix (hq_URL r) "/access-token"
               then JObj [("access_token", JStr "t1"); ("expires_at", JStr "later")]
               else JObj [("logs", JArr (map log_json (page (sample_logs n))))]))), n).

Abbreviation sample_follow w :=
  (logs_loop (U := ascii_tables) (J := numeral_json) (N := fun s => s) log_server (fun _ => 0) in_fifteen S
     (mkCliConfig "https://fb.example.com" "fbxc_1") "acme" "hello" true 2 w).

Lemma follow_each_once_witness :
  exists w', sample_follow (new_client O) = ([no_logs_yet; "now GET / 200 3ms"; "now GET / 200 3ms"], None, w').
Proof.
  refine (follow_each_once (U := ascii_tables) (J := numeral_json) (N := fun s => s) log_server (fun _ => 0) in_fifteen S
    (mkCliConfig "https://fb.example.com" "fbxc_1") "acme" "hello" [] [sample_logs 1; sample_logs 2] (new_client O) _ _ _).
  - apply (grows_cons [] [sample_log 0]); [done|]. apply (grows_cons [sample_log 0] [sample_log 1]); [done|constructor].
  - split; repeat constructor; done.
  - eexists. split; [vm_compute; reflexivity|]. eexists. split; [vm_compute; reflexivity|].
    eexists. split; [vm_compute; reflexivity|exact I].
Defined.
