(* ===== verification/CliCommands.v ===== *)
(** * CliCommands: the commands that are one exchange with the server

    Models src/internal/cli/project.go, deploy.go, list.go, rollback.go and
    printaccesstoken.go, and the ignore file's reading of collect.go. A project is
    what reading a file of its root gives and the file system below it; the
    alignment of a table and the order in which a map is ranged over are
    parameters. *)

From S2P Require Import Prelude GoURL GoNum GoPath Types Settings Manifest Bundle Collect.
From S2P Require Import CliFlags CliConfig CliClient CliLogs.

(** ** project.go and collect.go *)

Record Project := mkProject {
  pj_Root : string -> FileRead;
  pj_FS : FileSystem
}.

Inductive ProjectErr :=
| ManifestUnreadable (name : string)
| ManifestInvalid (e : ManifestErr)
| IgnoreUnreadable
| NotCollected (e : CollectErr)
| TooBig.

Section ProjectFiles.
Context {U : UnicodeTables} {F : FloatToInt} {Y : YamlDecoder}.

(** The first manifest that is there. *)
Fixpoint load_first (names : list string) (root : string -> FileRead) : result ProjectErr Manifest :=
  match names with
  | [] => Ok empty_manifest
  | name :: names =>
      match root name with
      | Missing => load_first names root
      | Unreadable => Err (ManifestUnreadable name)
      | Content data => map_err ManifestInvalid (Manifest.Parse {[name := data]})
      end
  end.
Definition LoadProjectManifest (p : Project) : result ProjectErr Manifest := load_first manifestFilenames (pj_Root p).

Definition LoadIgnoreMatcher (p : Project) : result ProjectErr Matcher :=
  match pj_Root p IgnoreFileName with
  | Missing => Ok (NewMatcher "")
  | Unreadable => Err IgnoreUnreadable
  | Content data => Ok (NewMatcher data)
  end.

(** The nesting the walk may need. *)
Definition walk_fuel (p : Project) : nat := S (size (real_dirs (FileSystem := pj_FS p))).

(** What [deploy] and [dev] do with a project once its manifest is read: the ignore
    file, the walk and the check of the size. *)
Definition project_files (p : Project) (m : Manifest) : option (result ProjectErr (gmap string string)) :=
  match LoadIgnoreMatcher p with
  | Err e => Some (Err e)
  | Ok matcher =>
      match CollectFiles (FS := pj_FS p) (Nodejs (m_Compat m)) matcher (walk_fuel p) with
      | None => None
      | Some (Err e) => Some (Err (NotCollected e))
      | Some (Ok files) => Some (if CheckUnpackedSize files then Ok files else Err TooBig)
      end
  end.

Lemma project_files_end p m : is_Some (project_files p m).
Proof.
  unfold project_files. destruct (LoadIgnoreMatcher p) as [matcher|e]; [|by eexists]. unfold CollectFiles.
  destruct (EvalSymlinks (FileSystem := pj_FS p) []) as [root|]; [|by eexists].
  destruct (collectDir_ends (FS := pj_FS p) (Nodejs (m_Compat m)) matcher (walk_fuel p) [] {[root]} (∅, 0)) as [[st|e] ->].
  - unfold walk_fuel. assert (size (real_dirs (FileSystem := pj_FS p) ∖ {[root]}) <= size (real_dirs (FileSystem := pj_FS p)))%nat;
      [apply subseteq_size; set_solver|lia].
  - by eexists.
  - by eexists.
Qed.
End ProjectFiles.

(** ** The commands *)

Inductive CmdErr :=
| CmdFlags (e : FlagErr)
| CmdConfig (e : ConfigFailure)
| CmdProject (e : ProjectErr)
| NameMismatch (manifest flag : string)
| CmdOwner (e : OwnerErr CliErr)
| PackFailed
| CmdClient (e : CliErr)
| CmdUsage
| ToRequired
| BadTarget
| BadTTL
| MintFailed (e : CliErr).

Section Commands.
Context {U : UnicodeTables} {F : FloatToInt} {Y : YamlDecoder} {A : ArchiveCodec} {J : JsonText}.
Context {N : Idna} {Net : Type} (exchange : HttpReq -> Net -> result string Answer * Net) (clock : Net -> Time).
Context (parse_time : string -> option Time).
Context (order : gmap string string -> list string) (align : list string -> list string).

(** What a command prints to its two outputs, how it fails, and the state of its
    client. *)
Record Outcome := mkOutcome {
  oc_Out : list string;
  oc_Err : list string;
  oc_Failure : option CmdErr;
  oc_World : CliWorld (Net := Net)
}.
Definition fails (e : CmdErr) (w : CliWorld) : Outcome := mkOutcome [] [] (Some e) w.
Definition prints (out : list string) (w : CliWorld) : Outcome := mkOutcome out [] None w.

Definition with_flags (fs : FlagSet) (args : list string) (net : Net)
    (k : list string -> Sets -> CliWorld -> option Outcome) : option Outcome :=
  match parseFlagsInterspersed fs args with
  | None => None
  | Some (Err e) => Some (fails (CmdFlags e) (new_client net))
  | Some (Ok (positional, sets)) => k positional sets (new_client net)
  end.

Definition with_config (config : result ConfigFailure CliConfig) (w : CliWorld)
    (k : CliConfig -> option Outcome) : option Outcome :=
  match config with Err e => Some (fails (CmdConfig e) w) | Ok cfg => k cfg end.

(** ** deploy.go *)

Definition print_deployed (owner : string) (resp : DeployResponse) : list string :=
  if dr_DryRun resp then ["dry run OK: manifest is valid"]
  else match dr_Function resp with
       | None => ["deploy succeeded"]
       | Some fn =>
           (("Deployed " +:+ owner +:+ "/" +:+ fd_Name fn)
              :: (if fd_URL fn == "" then [] else ["URL: " +:+ fd_URL fn])
              ++ match dr_Version resp with Some v => ["Version: " +:+ vd_ID v] | None => [] end)%list
       end.

(** [ResolveOwner] over [callerUserID]. *)
Definition deploy_owner (cfg : CliConfig) (m : Manifest) (flag : string) (w : CliWorld (Net := Net))
    : result (OwnerErr CliErr) string * CliWorld :=
  match owner_source flag (Owner m) with
  | OwnerKnown _ => (ResolveOwner flag (Owner m) None, w)
  | AskServer =>
      let '(r, w) := callerUserID exchange clock parse_time cfg w in
      (ResolveOwner flag (Owner m) (Some r), w)
  end.

(** The end of [RunDeploy]: the owner, the archive and the upload. *)
Definition upload (cfg : CliConfig) (m : Manifest) (files : gmap string string) (sets : Sets) (w : CliWorld) : Outcome :=
  let flag name := string_flag name "" sets in
  let '(owner, w) := deploy_owner cfg m (flag "owner") w in
  match owner with
  | Err e => fails (CmdOwner e) w
  | Ok owner =>
      match Pack (order files) files with
      | None => fails PackFailed w
      | Some packed =>
          match Deploy exchange clock parse_time cfg
                  (mkDeployRequest packed owner (flag "name") (flag "note") (bool_flag "dry-run" sets)) w with
          | (Err e, w) => fails (CmdClient e) w
          | (Ok resp, w) =>
              mkOutcome (print_deployed owner resp) (map (fun x => "warning: " +:+ x) (dr_Warnings resp)) None w
          end
      end
  end.

Definition RunDeploy (args : list string) (config : result ConfigFailure CliConfig) (project : string -> Project)
    (net : Net) : option Outcome :=
  with_flags deploy_flags args net (fun positional sets w =>
    let dir := match positional with dir :: _ => dir | [] => "." end in
    let flag name := string_flag name "" sets in
    with_config config w (fun cfg =>
      match LoadProjectManifest (project dir) with
      | Err e => Some (fails (CmdProject e) w)
      | Ok m =>
          if negb (Name m == "") && negb (flag "name" == "") && negb (Name m == flag "name")
          then Some (fails (NameMismatch (Name m) (flag "name")) w)
          else match project_files (project dir) m with
               | None => None
               | Some (Err e) => Some (fails (CmdProject e) w)
               | Some (Ok files) => Some (upload cfg m files sets w)
               end
      end)).

(** ** list.go *)

Definition orDash (s : string) : string := if s == "" then "-" else s.
Definition tab : string := String "009" "".
Definition row_of (cells : list string) : string := join_with tab cells.

Definition list_flags : FlagSet := fun name => if name == "owner" then Some any_string else None.

Definition list_table (owner : string) (fns : list FunctionDTO) : list string :=
  if owner == "" then
    row_of ["NAME"; "URL"; "ACTIVE VERSION"; "UPDATED"]
      :: map (fun fn => row_of [fd_Name fn; orDash (fd_URL fn); orDash (fd_ActiveVersionID fn); fd_UpdatedAt fn]) fns
  else
    row_of ["OWNER"; "NAME"; "URL"; "ACTIVE VERSION"; "UPDATED"]
      :: map (fun fn => row_of [fd_Owner fn; fd_Name fn; orDash (fd_URL fn); orDash (fd_ActiveVersionID fn); fd_UpdatedAt fn]) fns.

Definition RunList (args : list string) (config : result ConfigFailure CliConfig) (net : Net) : option Outcome :=
  with_flags list_flags args net (fun _ sets w =>
    let owner := string_flag "owner" "" sets in
    with_config config w (fun cfg =>
      Some match List_ exchange clock parse_time cfg owner w with
           | (Err e, w) => fails (CmdClient e) w
           | (Ok [], w) => prints ["no functions found"] w
           | (Ok fns, w) => prints (align (list_table owner fns)) w
           end)).

(** ** rollback.go *)

Definition rollback_flags : FlagSet := fun name => if name == "to" then Some any_string else None.

Definition RunRollback (args : list string) (config : result ConfigFailure CliConfig) (net : Net) : option Outcome :=
  with_flags rollback_flags args net (fun positional sets w =>
    let to := string_flag "to" "" sets in
    match positional with
    | [arg] =>
        if to == "" then Some (fails ToRequired w)
        else match target arg with
             | None => Some (fails BadTarget w)
             | Some (owner, name) =>
                 with_config config w (fun cfg =>
                   Some match Activate exchange clock parse_time cfg owner name to w with
                        | (Err e, w) => fails (CmdClient e) w
                        | (Ok fn, w) =>
                            prints ["Rolled back " +:+ owner +:+ "/" +:+ name +:+ " to version " +:+ fd_ActiveVersionID fn] w
                        end)
             end
    | _ => Some (fails CmdUsage w)
    end).

(** ** printaccesstoken.go *)

Definition token_flags : FlagSet := fun name => if name == "ttl" then Some any_string else None.

Definition RunPrintAccessToken (args : list string) (config : result ConfigFailure CliConfig) (net : Net) : option Outcome :=
  with_flags token_flags args net (fun _ sets w =>
    let ttlFlag := string_flag "ttl" "" sets in
    match (if ttlFlag == "" then Some 0 else ParseDuration ttlFlag) with
    | None => Some (fails BadTTL w)
    | Some ttl =>
        with_config config w (fun cfg =>
          Some match mintAccessToken exchange clock parse_time cfg ttl w with
               | (Err e, w) => fails (MintFailed e) w
               | (Ok (token, _), w) => prints [token] w
               end)
    end).
End Commands.

(** ** What a deployment sends *)

Section Sent.
Context {U : UnicodeTables} {J : JsonText}.
Context {N : Idna} {Net : Type} (exchange : HttpReq -> Net -> result string Answer * Net) (clock : Net -> Time).
Context (parse_time : string -> option Time).

(** The call only adds events, each of a kind. *)
Definition emits {A} (P : Event -> Prop) (m : CM (Net := Net) A) : Prop :=
  forall w, exists l, cw_events (m w).2 = (cw_events w ++ l)%list /\ Forall P l.

Lemma emits_bind {A B} P (m : CM A) (k : A -> CM B) : emits P m -> (forall a, emits P (k a)) -> emits P (cbind m k).
Proof.
  intros Hm Hk w. destruct (Hm w) as (l & El & Hl). unfold cbind. destruct (m w) as [[a|e] w'] eqn:E; simpl in *.
  - destruct (Hk a w') as (l' & El' & Hl'). exists (l ++ l')%list. rewrite El', El, app_assoc. split; [done|].
    by apply Forall_app.
  - by exists l.
Qed.
Lemma emits_nothing {A} P (m : CM A) : (forall w, cw_events (m w).2 = cw_events w) -> emits P m.
Proof. intros H w. exists []. by rewrite H, app_nil_r. Qed.
Lemma emits_transmit P mark r : (forall t, P (mark t r)) -> (forall a, P (Answered a)) ->
  emits P (transmit exchange clock mark r).
Proof.
  intros HP HA w. unfold transmit. destruct (exchange r (cw_net w)) as [[a|e] net].
  - exists [mark (clock (cw_net w)) r; Answered a]. simpl. rewrite <- app_assoc. split; [done|]. by repeat constructor.
  - exists [mark (clock (cw_net w)) r]. split; [done|]. by repeat constructor.
Qed.
Lemma emits_follow P first hop : (forall r, hq_Body r = EmptyBody \/ hq_Body r = hq_Body first -> emits P (hop r)) ->
  forall more r strip drop a, emits P (follow hop more first r strip drop a).
Proof.
  intros Hh more. induction more as [|more IH]; intros r strip drop a; simpl;
    (destruct (negb _); [by apply emits_nothing|]); (destruct (an_Location a) as [url|]; [|by apply emits_nothing]);
    [by apply emits_nothing|].
  destruct (stays (hq_URL first) url); [|by apply emits_nothing]. apply emits_bind; [|intros a'; apply IH].
  apply Hh. simpl. destruct (drop || _); auto.
Qed.
Lemma emits_raw P r : (forall t, P (Sent t r)) -> (forall a, P (Answered a)) ->
  (forall mcp t r', hq_Body r' = EmptyBody \/ hq_Body r' = hq_Body r -> P (Followed mcp t r')) ->
  emits P (doRaw exchange clock r).
Proof.
  intros HP HA HF. unfold doRaw, send. apply emits_bind.
  { apply emits_bind; [by apply emits_transmit|]. intros a. apply emits_bind; [|intros a'; by apply emits_nothing].
    apply emits_follow. intros r' Hr'. apply emits_transmit; [|done]. intros t. by apply HF. }
  intros x. apply emits_nothing. intros w. by case_goal.
Qed.
Lemma emits_request {A} P meth url body (k : HttpReq -> CM A) : emits P (k (mkHttpReq meth url None body)) ->
  emits P (cbind (newRequest meth url body) k).
Proof.
  intros Hk. unfold cbind, newRequest. destruct (url_Parse url); [done|]. apply emits_nothing. done.
Qed.
Lemma emits_decode {B} P what dec (zero : B) body : emits P (decode what dec zero body).
Proof. apply emits_nothing. intros w. unfold decode. destruct (json_parse body) as [j|]; [destruct (dec zero j)|]; done. Qed.

(** No upload. *)
Definition no_upload (e : Event) : Prop :=
  match e with
  | Sent _ r | Followed _ _ r => match hq_Body r with UploadBody _ _ => False | _ => True end
  | Answered _ | Minted _ _ => True
  end.

Lemma ensure_no_upload cfg : emits no_upload (ensureAccessToken exchange clock parse_time cfg).
Proof.
  intros w. unfold ensureAccessToken. case_goal; [exists []; by rewrite app_nil_r|]. clear E. revert w.
  apply (emits_bind no_upload (mintAccessToken exchange clock parse_time cfg accessTokenRequestTTL)).
  - unfold mintAccessToken. case_goal; [by apply emits_nothing|]. apply emits_request, emits_bind.
    { apply emits_raw; [done|done|]. intros mcp t r' Hr'. simpl in *. by destruct Hr' as [->| ->]. }
    intros body. apply emits_bind; [apply emits_decode|]. intros out. apply emits_nothing. intros w.
    by destruct (parse_time out.2).
  - intros t. apply emits_bind; [|intros []; by apply emits_nothing]. intros w. eexists. split; [done|]. by repeat constructor.
Qed.

(** The upload of a request, sent or redirected, and nothing else, besides what has
    no upload. *)
Definition only_upload (r : HttpReq) (e : Event) : Prop :=
  no_upload e \/ (exists t token, e = Sent t (with_auth token r))
  \/ exists mcp t r', e = Followed mcp t r' /\ hq_Body r' = hq_Body r.

Lemma do_emits cfg r : emits (only_upload r) (do_request exchange clock parse_time cfg r).
Proof.
  apply emits_bind.
  - intros w. destruct (ensure_no_upload cfg w) as (l & El & Hl). exists l. split; [done|].
    eapply Forall_impl; [exact Hl|]. by left.
  - intros token. apply emits_raw; [intros t; right; left; eauto|by left|].
    intros mcp t r' [Hr'|Hr']; [left; simpl; by rewrite Hr'|right; right; eauto 10].
Qed.

Lemma do_sent cfg r w body w' : do_request exchange clock parse_time cfg r w = (Ok body, w') ->
  exists t token, In (Sent t (with_auth token r)) (cw_events w').
Proof.
  unfold do_request. unfold cbind at 1. destruct (ensureAccessToken _ _ _ cfg w) as [[token|e] w1]; [|done].
  unfold doRaw, send. unfold cbind at 1 2. intros H. exists (clock (cw_net w1)), token.
  destruct (transmit exchange clock Sent (with_auth token r) w1) as [[a|e] w2] eqn:Et; [|done].
  assert (In (Sent (clock (cw_net w1)) (with_auth token r)) (cw_events w2)) as Hin.
  { revert Et. unfold transmit. destruct (exchange _ _) as [[x|e] net]; [|done]. intros [= _ <-]. simpl.
    rewrite !in_app_iff. simpl. auto. }
  pose proof (extends_follow (transmit exchange clock (Followed false)) (with_auth token r)
    (fun r' => extends_transmit exchange clock (Followed false) r') maxFollowed (with_auth token r) false false a w2) as [l Hl].
  unfold cbind in H. destruct (follow _ _ _ _ _ _ _ w2) as [[a'|e] w3] eqn:Ef; [|done].
  simpl in H. assert (w' = w3) as -> by (destruct (_ || _) in H; by injection H as _ <-).
  simpl in Hl. rewrite Hl. apply in_or_app. by left.
Qed.

Lemma caller_no_upload cfg : emits no_upload (callerUserID exchange clock parse_time cfg).
Proof.
  unfold callerUserID, Me. apply emits_bind; [|intros me; by apply emits_nothing]. apply emits_request.
  apply emits_bind; [|intros body; apply emits_decode]. intros w.
  destruct (do_emits cfg (mkHttpReq "GET" (base_url cfg +:+ "/api/v1/me") None EmptyBody) w) as (l & El & Hl).
  exists l. split; [done|]. eapply Forall_impl; [exact Hl|]. intros e [He|[(t & token & ->)|(mcp & t & r' & -> & Hb)]]; [done|done|]. simpl. by rewrite Hb.
Qed.

Definition upload_request (cfg : CliConfig) (q : DeployRequest) : HttpReq :=
  mkHttpReq "POST" (base_url cfg +:+ "/api/v1/functions" +:+ (if dq_DryRun q then "?dry_run=true" else "")) None
    (UploadBody (dq_Bundle q) (deploy_form q)).

Lemma deploy_emits cfg q : emits (only_upload (upload_request cfg q)) (Deploy exchange clock parse_time cfg q).
Proof.
  apply emits_request, emits_bind; [|intros body; apply emits_decode]. apply (do_emits cfg (upload_request cfg q)).
Qed.

Lemma deploy_sent cfg q w resp w' : Deploy exchange clock parse_time cfg q w = (Ok resp, w') ->
  exists t token, In (Sent t (with_auth token (upload_request cfg q))) (cw_events w').
Proof.
  unfold Deploy, cbind at 1, newRequest. destruct (url_Parse _) as [u|]; [|done]. fold (upload_request cfg q).
  unfold cbind, cret. cbv beta iota. destruct (do_request exchange clock parse_time cfg (upload_request cfg q) w) as [[body|e] w1] eqn:E; [|done].
  apply do_sent in E as (t & token & Hin). intros H. exists t, token.
  destruct (emits_decode no_upload "deploy response" (dec_object dec_deploy) (mkDeployResponse false JNull [] None None) body w1)
    as (l & El & _). rewrite H in El. simpl in El. rewrite El. apply in_or_app. by left.
Qed.
End Sent.

(** ** Properties *)

Section Deployment.
Context {U : UnicodeTables} {F : FloatToInt} {Y : YamlDecoder} {A : ArchiveCodec} {J : JsonText}.
Context {N : Idna} {Net : Type} (exchange : HttpReq -> Net -> result string Answer * Net) (clock : Net -> Time).
Context (parse_time : string -> option Time).
Context (order : gmap string string -> list string).

(** Where the owner comes from. *)
Definition owner_ok (cfg : CliConfig) (m : Manifest) (flag owner : string) : Prop :=
  owner <> ""
  /\ (flag <> "" /\ owner = flag
      \/ flag = "" /\ Owner m <> "" /\ owner = Owner m
      \/ flag = "" /\ Owner m = "" /\ exists w w', callerUserID exchange clock parse_time cfg w = (Ok owner, w')).

Lemma owner_resolved cfg m flag net :
  let r := deploy_owner exchange clock parse_time cfg m flag (new_client net) in
  Forall no_upload (cw_events r.2) /\ forall owner, r.1 = Ok owner -> owner_ok cfg m flag owner.
Proof.
  unfold deploy_owner, ResolveOwner, owner_source, owner_ok. destruct (flag == "") eqn:Eo; cbn [negb]; bool_facts;
    [destruct (Owner m == "") eqn:Em; cbn [negb]; bool_facts|].
  - destruct (callerUserID _ _ _ cfg (new_client net)) as [r w] eqn:Ec. split.
    + destruct (caller_no_upload exchange clock parse_time cfg (new_client net)) as (l & El & Hl).
      rewrite Ec in El. simpl in *. by rewrite El.
    + simpl. intros owner Ho. destruct r as [u|e]; [|done]. destruct (u == "") eqn:Eu; [done|]. injection Ho as <-.
      bool_facts. split; [done|]. right. right. split_and!; try done. by exists (new_client net), w.
  - split; [by apply Forall_nil_2|]. simpl. intros owner [= <-]. split; [done|]. right. left. done.
  - split; [by apply Forall_nil_2|]. simpl. intros owner [= <-]. split; [done|]. by left.
Qed.

(** An upload of a project: its files, packed, and the owner and the name that its
    manifest and the flags agree on. *)
Definition uploads (cfg : CliConfig) (p : Project) (sets : Sets) (q : DeployRequest) : Prop :=
  let flag name := string_flag name "" sets in
  exists m files,
    LoadProjectManifest p = Ok m /\ project_files p m = Some (Ok files)
    /\ (Name m = "" \/ flag "name" = "" \/ Name m = flag "name")
    /\ Pack (order files) files = Some (dq_Bundle q) /\ owner_ok cfg m (flag "owner") (dq_Owner q)
    /\ dq_Name q = flag "name" /\ dq_Note q = flag "note" /\ dq_DryRun q = bool_flag "dry-run" sets.

(** The outcome of [upload]. *)
Lemma upload_sends cfg p m files sets net (Hm : LoadProjectManifest p = Ok m) (Hf : project_files p m = Some (Ok files))
    (Hn : negb (Name m == "") && negb (string_flag "name" "" sets == "") && negb (Name m == string_flag "name" "" sets) = false) :
  let oc := upload exchange clock parse_time order cfg m files sets (new_client net) in
  (Forall no_upload (cw_events (oc_World oc)) /\ oc_Failure oc <> None)
  \/ exists q, uploads cfg p sets q
     /\ Forall (only_upload (upload_request cfg q)) (cw_events (oc_World oc))
     /\ (oc_Failure oc = None -> exists t token, In (Sent t (with_auth token (upload_request cfg q))) (cw_events (oc_World oc))).
Proof.
  unfold upload. destruct (owner_resolved cfg m (string_flag "owner" "" sets) net) as [Hq Hown].
  destruct (deploy_owner _ _ _ cfg m _ (new_client net)) as [[owner|e] w]; [|by left].
  specialize (Hown owner eq_refl). simpl in Hq. destruct (Pack (order files) files) as [packed|] eqn:Ep; [|by left].
  set (q := mkDeployRequest packed owner (string_flag "name" "" sets) (string_flag "note" "" sets) (bool_flag "dry-run" sets)).
  right. exists q. assert (uploads cfg p sets q) as Hu.
  { exists m, files. split_and!; try done. clear -Hn. destruct (String.eqb_spec (Name m) ""); [by left|].
    destruct (String.eqb_spec (string_flag "name" "" sets) ""); [by right; left|]. right. right.
    by destruct (String.eqb_spec (Name m) (string_flag "name" "" sets)). }
  destruct (deploy_emits exchange clock parse_time cfg q w) as (l & El & Hl).
  assert (Forall (only_upload (upload_request cfg q)) (cw_events w ++ l)) as Hall.
  { apply Forall_app. split; [|done]. eapply Forall_impl; [exact Hq|]. by left. }
  destruct (Deploy _ _ _ cfg q w) as [[resp|e] w'] eqn:Ed; simpl in *; rewrite El; split_and!; try done.
  intros _. rewrite <- El. by apply (deploy_sent _ _ _ _ _ _ _ _ Ed).
Qed.

(** [upload] fails in ways of its own. *)
Lemma upload_failures cfg m files sets w e :
  oc_Failure (upload exchange clock parse_time order cfg m files sets w) = Some e ->
  match e with CmdFlags _ | CmdConfig _ | CmdProject _ | NameMismatch _ _ => False | _ => True end.
Proof.
  unfold upload. destruct (deploy_owner _ _ _ _ _ _ w) as [[owner|e'] w1]; [|by intros [= <-]].
  destruct (Pack _ _) as [packed|]; [|by intros [= <-]]. destruct (Deploy _ _ _ _ _ w1) as [[resp|e'] w2]; [done|].
  by intros [= <-].
Qed.

End Deployment.

(** ** Witness *)

(** The directory of [Collect]'s example, with the one manifest the decoder knows. *)
Definition sample_project (dir : string) : Project :=
  mkProject (fun name => if name == "funcbox.yml" then Content "doc" else Missing) sample_fs.
Definition sorted_keys (files : gmap string string) : list string := map fst (map_to_list files).

Abbreviation sample_deployment :=
  (RunDeploy (U := ascii_tables) (F := amd64_float_to_int) (Y := one_doc_decoder) (A := sample_codec) (J := numeral_json)
     (N := fun s => s) sample_exchange (fun n => n) in_fifteen sorted_keys ["."; "--owner"; "acme"]
     (Ok (mkCliConfig "https://fb.example.com" "fbxc_1")) sample_project 0).

