(* ===== verification/CliDev.v ===== *)
(** * CliDev: the development server of the CLI

    Models src/internal/cli/dev.go: the environment of [--env-file] and [--env], the
    fetch policy of local development, the snapshot a pool is built from, and the
    server as a system of steps: requests over the pool manager of Manager.v, and
    reloads after changes on the disk, which run beside each other. The engine that
    warms a pool is a parameter; reading a project takes one step. *)

From stdpp Require Import sorting.
From S2P Require Import Prelude GoNet GoNum GoURL Policy FetchGuard Manifest Bundle NodeDetect Manager Collect.
From S2P Require Import CliFlags CliConfig CliClient CliLogs CliCommands.

(** ** The environment *)

Section Env.
Context {U : UnicodeTables}.

(** [strings.Trim] of the two quotes. *)
Definition trim_quotes (s : string) : string := trim_right_func is_quote (trim_left_func is_quote s).

Definition parse_env_line (out : gmap string string) (line : string) : gmap string string :=
  let line := trim_space line in
  if (line == "") || has_prefix line "#" then out
  else
    let '(key, value, ok) := cut_byte line "=" in
    if negb ok then out
    else
      let key := trim_space key in
      if key == "" then out else <[key := trim_quotes (trim_space value)]> out.
Definition parseEnvLines (data : string) : gmap string string := foldl parse_env_line ∅ (split_byte data "010").

Inductive DevErr :=
| EnvUnreadable
| BadEnvFlag (kv : string)
| DevProject (e : ProjectErr)
| DevManifest (e : ManifestErr)
| NodeImports (imports : list string)
| NameMissing.

Definition parseEnvFile (read : FileRead) : result DevErr (gmap string string) :=
  match read with
  | Missing => Ok ∅
  | Unreadable => Err EnvUnreadable
  | Content data => Ok (parseEnvLines data)
  end.

Fixpoint set_flags (flags : list string) (values : gmap string string) : result DevErr (gmap string string) :=
  match flags with
  | [] => Ok values
  | kv :: flags =>
      let '(key, value, ok) := cut_byte kv "=" in
      if negb ok then Err (BadEnvFlag kv) else set_flags flags (<[key := value]> values)
  end.
Definition resolveDevEnv (read : FileRead) (flags : list string) : result DevErr (gmap string string) :=
  let! values := parseEnvFile read in set_flags flags values.

(** Only what the manifest declares. *)
Definition buildDevEnv (declared : list string) (values : gmap string string) : gmap string string :=
  foldl (fun env key => match values !! key with Some v => <[key := v]> env | None => env end) ∅ declared.
End Env.

(** ** The fetch policy *)

Record devFetchPolicy := mkDevFetchPolicy { dfp_eff : EffectivePolicy; dfp_allowAll : bool }.

Section DevPolicy.
Context {U : UnicodeTables}.

Definition Dev_AllowHost (p : devFetchPolicy) (w : unit) (host : string) (port : Z) : bool * unit :=
  (if dfp_allowAll p then true else Decision (dfp_eff p) host port, w).
Definition Dev_AllowIP (p : devFetchPolicy) (w : unit) (ip : string) : bool * unit :=
  (match ParseIP ip with
   | None => false
   | Some parsed => if IsLoopback parsed then true else negb (BlockedIP parsed)
   end, w).

#[export] Instance dev_ops : FetchPolicyOps unit devFetchPolicy := {|
  AllowHost := Dev_AllowHost;
  AllowIP := Dev_AllowIP
|}.
End DevPolicy.

(** ** The snapshot *)

Record devSnapshot := mkDevSnapshot { ds_files : gmap string string; ds_manifest : Manifest; ds_mainPath : string }.

(** The copy of the server's scan. *)
Definition looksLikeJSModule (path : string) : bool :=
  existsb (fun ext => has_suffix path ext) [".js"; ".mjs"; ".cjs"].
Definition detectNodeCoreImportsInFiles (files : gmap string string) : list string :=
  let names := merge_sort str_le (map fst (map_to_list files)) in
  first_seen ∅ (flat_map (fun name =>
    if looksLikeJSModule name then DetectNodeCoreImports (default "" (files !! name)) else []) names).

(** What the pool is warmed with. *)
Record devPoolConfig := mkDevPoolConfig {
  dp_Size : Z;
  dp_Entry : string;
  dp_Env : gmap string string;
  dp_NodeCompat : bool;
  dp_Fetch : devFetchPolicy;
  dp_MaxMemoryBytes : option Z;
  dp_Bundle : gmap string string
}.
Definition devPoolSize : Z := 2.
Definition devKey : string := "dev".

Section Snapshot.
Context {U : UnicodeTables} {F : FloatToInt} {Y : YamlDecoder}.

Definition buildDevSnapshot (p : Project) : option (result DevErr devSnapshot) :=
  match LoadProjectManifest p with
  | Err e => Some (Err (DevProject e))
  | Ok m =>
      match Validate (Some m) with
      | Err e => Some (Err (DevManifest e))
      | Ok _ =>
          match project_files p m with
          | None => None
          | Some (Err e) => Some (Err (DevProject e))
          | Some (Ok files) =>
              Some match ResolveMain (Main m) files with
                   | Err e => Err (DevManifest e)
                   | Ok mainPath =>
                       let imports := detectNodeCoreImportsInFiles files in
                       if negb (Nodejs (m_Compat m)) && negb (bool_decide (imports = []))
                       then Err (NodeImports imports)
                       else Ok (mkDevSnapshot files m mainPath)
                   end
          end
      end
  end.

Definition dev_config (s : devSnapshot) (values : gmap string string) (allowAllFetch : bool) : devPoolConfig :=
  let m := ds_manifest s in
  let eff := Effective [FetchPermission_FetchPolicy (Fetch (m_Permissions m))] in
  mkDevPoolConfig devPoolSize (ds_mainPath s) (buildDevEnv (Env m) values) (Nodejs (m_Compat m))
    (mkDevFetchPolicy eff allowAllFetch) (Memory m) (ds_files s).

(** The owner and the name of [newDevServer]. *)
Definition dev_names (s : devSnapshot) : result DevErr (string * string) :=
  let owner := if Owner (ds_manifest s) == "" then "dev" else Owner (ds_manifest s) in
  if Name (ds_manifest s) == "" then Err NameMissing else Ok (owner, Name (ds_manifest s)).
End Snapshot.

(** ** The command's settings *)

Definition dev_flags : FlagSet := fun name =>
  if (name == "addr") || (name == "env-file") || (name == "env") then Some any_string
  else if name == "allow-all-fetch" then Some boolean else None.

Record DevSettings := mkDevSettings { dv_Dir : string; dv_Addr : string; dv_Env : gmap string string; dv_AllowAll : bool }.
Inductive DevFailure := DevFlags (e : FlagErr) | NoWorkingDir | DevFails (e : DevErr).

(** [RunDev] up to the server; [abs] is [filepath.Abs] and [read] reads a file. *)
Definition dev_settings {U : UnicodeTables} (abs : string -> option string) (read : string -> FileRead) (args : list string)
    : option (result DevFailure DevSettings) :=
  match parseFlagsInterspersed dev_flags args with
  | None => None
  | Some (Err e) => Some (Err (DevFlags e))
  | Some (Ok (positional, sets)) =>
      Some match abs (match positional with dir :: _ => dir | [] => "." end) with
           | None => Err NoWorkingDir
           | Some dir =>
               match resolveDevEnv (read (string_flag "env-file" ".env" sets))
                       (map snd (List.filter (fun nv => nv.1 == "env") sets)) with
               | Err e => Err (DevFails e)
               | Ok values => Ok (mkDevSettings dir (string_flag "addr" "127.0.0.1:8787" sets) values (bool_flag "allow-all-fetch" sets))
               end
           end
  end.

(** ** The server *)

Section Server.
Context {U : UnicodeTables} {F : FloatToInt} {Y : YamlDecoder}.
Context {Pool BuildErr : Type} (new_pool : devPoolConfig -> result BuildErr Pool).
Context (values : gmap string string) (allowAllFetch : bool).

(** A reload: started, with the snapshot it read, or with that snapshot in place. *)
Inductive Reload := Started | Read (s : devSnapshot) | Swapped.

(** A request that is under way: the entry it was given, and for the statements how
    many snapshots had been replaced, and how many reloads had ended, when its
    pool was last dropped before it arrived. *)
Record DevRequest := mkDevRequest { rq_entry : nat; rq_floor : nat; rq_drops : nat }.

(** [devServer]: the project on the disk, the served snapshot and those it replaced,
    the pools, whether the debounce timer is armed, the reloads that run, the
    snapshot (by its number) each build read, the requests under way, how many
    snapshots had been replaced when the pool was last dropped, how often it was,
    and the lines printed. *)
Record Dev := mkDev {
  dv_disk : Project;
  dv_snap : devSnapshot;
  dv_old : list devSnapshot;
  dv_manager : Manager (Pool := Pool) (BuildErr := BuildErr);
  dv_timer : bool;
  dv_reloads : list Reload;
  dv_built : gmap nat nat;
  dv_requests : gmap nat DevRequest;
  dv_floor : nat;
  dv_drops : nat;
  dv_out : list string
}.

(** The snapshots in the order they were put in place. *)
Definition dv_snapshots (d : Dev) : list devSnapshot := dv_old d ++ [dv_snap d].

(** [newDevServer]. *)
Definition newDevServer (disk : Project) : option (result DevErr Dev) :=
  match buildDevSnapshot disk with
  | None => None
  | Some (Err e) => Some (Err e)
  | Some (Ok s) =>
      Some (let! _ := dev_names s in Ok (mkDev disk s [] (NewManager 0) false [] ∅ ∅ 0 0 []))
  end.

(** The parts of the state, replaced one at a time. *)
Definition with_timer (d : Dev) (t : bool) : Dev :=
  mkDev (dv_disk d) (dv_snap d) (dv_old d) (dv_manager d) t (dv_reloads d) (dv_built d) (dv_requests d)
    (dv_floor d) (dv_drops d) (dv_out d).
Definition with_reloads (d : Dev) (l : list Reload) : Dev :=
  mkDev (dv_disk d) (dv_snap d) (dv_old d) (dv_manager d) (dv_timer d) l (dv_built d) (dv_requests d)
    (dv_floor d) (dv_drops d) (dv_out d).
Definition with_manager (d : Dev) (m : Manager) : Dev :=
  mkDev (dv_disk d) (dv_snap d) (dv_old d) m (dv_timer d) (dv_reloads d) (dv_built d) (dv_requests d)
    (dv_floor d) (dv_drops d) (dv_out d).
Definition with_requests (d : Dev) (rs : gmap nat DevRequest) : Dev :=
  mkDev (dv_disk d) (dv_snap d) (dv_old d) (dv_manager d) (dv_timer d) (dv_reloads d) (dv_built d) rs
    (dv_floor d) (dv_drops d) (dv_out d).

(** The disk changes; the watcher's event restarts the timer; the timer starts a
    reload. *)
Definition edit (d : Dev) (disk : Project) : Dev :=
  mkDev disk (dv_snap d) (dv_old d) (dv_manager d) (dv_timer d) (dv_reloads d) (dv_built d) (dv_requests d)
    (dv_floor d) (dv_drops d) (dv_out d).
Definition on_event (d : Dev) : Dev := with_timer d true.
Definition on_timer (d : Dev) : Dev :=
  if dv_timer d then with_reloads (with_timer d false) (dv_reloads d ++ [Started]) else d.

Definition at_phase (d : Dev) (i : nat) (r : option Reload) : Dev :=
  with_reloads d
    (match r with Some r => <[i := r]> (dv_reloads d) | None => take i (dv_reloads d) ++ drop (S i) (dv_reloads d) end).
Definition dev_prints (d : Dev) (line : string) : Dev :=
  mkDev (dv_disk d) (dv_snap d) (dv_old d) (dv_manager d) (dv_timer d) (dv_reloads d) (dv_built d) (dv_requests d)
    (dv_floor d) (dv_drops d) (dv_out d ++ [line]).
Definition serves (d : Dev) (s : devSnapshot) : Dev :=
  mkDev (dv_disk d) s (dv_snapshots d) (dv_manager d) (dv_timer d) (dv_reloads d) (dv_built d) (dv_requests d)
    (dv_floor d) (dv_drops d) (dv_out d).
Definition drops (d : Dev) : Dev :=
  mkDev (dv_disk d) (dv_snap d) (dv_old d) (Invalidate (dv_manager d) devKey) (dv_timer d) (dv_reloads d) (dv_built d)
    (dv_requests d) (length (dv_old d)) (S (dv_drops d)) (dv_out d).
Definition read_by (d : Dev) (p : nat) : Dev :=
  mkDev (dv_disk d) (dv_snap d) (dv_old d) (dv_manager d) (dv_timer d) (dv_reloads d)
    (<[p := length (dv_old d)]> (dv_built d)) (dv_requests d) (dv_floor d) (dv_drops d) (dv_out d).

(** The next step of a reload: [buildDevSnapshot], [st.set] or [Invalidate]. *)
Definition reload_step (d : Dev) (i : nat) : Dev :=
  match dv_reloads d !! i with
  | None => d
  | Some Started =>
      match buildDevSnapshot (dv_disk d) with
      | Some (Ok s) => at_phase d i (Some (Read s))
      | _ => dev_prints (at_phase d i None) "funcbox dev: reload failed, still serving previous version"
      end
  | Some (Read s) => serves (at_phase d i (Some Swapped)) s
  | Some Swapped => dev_prints (drops (at_phase d i None)) "funcbox dev: reloaded"
  end.

(** The steps of requests: taking an entry, the build reading the snapshot and
    ending, the end of the request, and a closing goroutine. *)
Definition on_request (d : Dev) (i : nat) : Dev :=
  match dv_requests d !! i with
  | Some _ => d
  | None =>
      let '(m, p, _) := handlerFor_locked (dv_manager d) devKey in
      with_requests (with_manager d m) (<[i := mkDevRequest p (dv_floor d) (dv_drops d)]> (dv_requests d))
  end.
Definition build_reads (d : Dev) (p : nat) : Dev :=
  match entries (dv_manager d) !! p, dv_built d !! p with
  | Some (mkManagedPool _ None _), None => read_by d p
  | _, _ => d
  end.
Definition warm (s : devSnapshot) : result BuildErr Pool := new_pool (dev_config s values allowAllFetch).
Definition build_ends (d : Dev) (p : nat) : Dev :=
  match entries (dv_manager d) !! p, (dv_built d !! p ≫= fun v => dv_snapshots d !! v) with
  | Some (mkManagedPool _ None _), Some s => with_manager d (finish_build (dv_manager d) p (warm s))
  | _, _ => d
  end.
Definition request_ends (d : Dev) (i : nat) : Dev := with_requests d (delete i (dv_requests d)).
Definition close_one (d : Dev) (i : nat) : Dev := with_manager d (run_close (dv_manager d) i).

Inductive dev_step : Dev -> Dev -> Prop :=
| DevEdit d disk : dev_step d (edit d disk)
| DevEvent d : dev_step d (on_event d)
| DevTimer d : dev_step d (on_timer d)
| DevReload d i : dev_step d (reload_step d i)
| DevRequestStep d i : dev_step d (on_request d i)
| DevReads d p : dev_step d (build_reads d p)
| DevBuilt d p : dev_step d (build_ends d p)
| DevDone d i : dev_step d (request_ends d i)
| DevClose d i : dev_step d (close_one d i).

Inductive dev_run : Dev -> Prop :=
| DevNew disk d : newDevServer disk = Some (Ok d) -> dev_run d
| DevStep d d' : dev_run d -> dev_step d d' -> dev_run d'.

(** ** What is served *)

(** A snapshot that some state of the disk gave. *)
Definition from_disk (s : devSnapshot) : Prop := exists disk, buildDevSnapshot disk = Some (Ok s).

Record dev_inv (d : Dev) : Prop := {
  di_manager : Manager.reachable 0 (dv_manager d);
  di_cap : maxPools (dv_manager d) = 0;
  di_snaps v s : dv_snapshots d !! v = Some s -> from_disk s;
  di_reloads i s : dv_reloads d !! i = Some (Read s) -> from_disk s;
  di_floor : (dv_floor d <= length (dv_old d))%nat;
  di_level : dv_floor d = length (dv_old d) \/ exists i, dv_reloads d !! i = Some Swapped;
  di_read p v : dv_built d !! p = Some v -> is_Some (entries (dv_manager d) !! p) /\ (v <= length (dv_old d))%nat;
  di_built p e r : entries (dv_manager d) !! p = Some e -> mp_result e = Some r ->
    exists v s, dv_built d !! p = Some v /\ dv_snapshots d !! v = Some s /\ r = warm s;
  di_current p v : pools (dv_manager d) !! devKey = Some p -> dv_built d !! p = Some v -> (dv_floor d <= v)%nat;
  di_fresh i q : dv_requests d !! i = Some q ->
    is_Some (entries (dv_manager d) !! rq_entry q) /\ (rq_floor q <= dv_floor d)%nat
    /\ forall v, dv_built d !! rq_entry q = Some v -> (rq_floor q <= v)%nat;
  di_held i q : dv_requests d !! i = Some q ->
    (rq_drops q < dv_drops d)%nat \/ rq_drops q = dv_drops d /\ pools (dv_manager d) !! devKey = Some (rq_entry q)
}.

(** What a request is given: the entry of the map, or a new one put there. *)
Lemma handler_taken m : Manager.inv m -> maxPools m = 0 ->
  let m' := (handlerFor_locked (Pool := Pool) (BuildErr := BuildErr) m devKey).1.1 in
  let p := (handlerFor_locked (Pool := Pool) (BuildErr := BuildErr) m devKey).1.2 in
  m' = m /\ pools m !! devKey = Some p /\ is_Some (entries m !! p)
  \/ pools m !! devKey = None /\ entries m !! p = None
     /\ entries m' = <[p := mkManagedPool devKey None false]> (entries m) /\ pools m' = <[devKey := p]> (pools m)
     /\ maxPools m' = 0.
Proof.
  intros Hi H0. unfold handlerFor_locked. destruct (pools m !! devKey) as [p|] eqn:Ep.
  - left. simpl. unfold touchLocked. rewrite H0. split_and!; [done..|].
    destruct (inv_keys 0 m Hi devKey p Ep) as (e & He & _). by eexists.
  - right. pose proof (handlerFor_miss m devKey Ep) as Hmiss. unfold handlerFor_locked in Hmiss. rewrite Ep in Hmiss.
    rewrite Hmiss. cbv zeta. unfold insert_new. rewrite H0. unfold evictIfOverCapLocked. simpl.
    split_and!; [done|apply fresh_entry|done..].
Qed.

Lemma swapped_kept (l : list Reload) i r (n m : nat) : (forall r', l !! i = Some r' -> r' <> Swapped) ->
  n = m \/ (exists j, l !! j = Some Swapped) -> n = m \/ (exists j, (<[i := r]> l : list Reload) !! j = Some Swapped).
Proof.
  intros Hi [H|[j Hj]]; [by left|right]. exists j. rewrite list_lookup_insert_ne; [done|]. intros ->. by destruct (Hi _ Hj).
Qed.

Lemma removed_keeps (l : list Reload) i r (n m : nat) : l !! i = Some r -> r <> Swapped ->
  n = m \/ (exists j, l !! j = Some Swapped) -> n = m \/ (exists j, (take i l ++ drop (S i) l) !! j = Some Swapped).
Proof.
  intros Hi Hr [H|[j Hj]]; [by left|right]. apply list_elem_of_lookup_1. apply list_elem_of_lookup_2 in Hj.
  rewrite <- (take_drop_middle l i r Hi) in Hj. set_solver.
Qed.

Lemma removed_lookup (l : list Reload) i j r : (take i l ++ drop (S i) l) !! j = Some r -> exists k, l !! k = Some r.
Proof.
  intros H. apply list_elem_of_lookup_2 in H. apply elem_of_app in H as [H|H].
  - apply list_elem_of_lookup_1 in H as [k Hk]. apply lookup_take_Some in Hk as [Hk _]. by exists k.
  - apply list_elem_of_lookup_1 in H as [k Hk]. rewrite lookup_drop in Hk. by eexists.
Qed.

(** A step that leaves the snapshots, the builds, the pools and the requests. *)
Lemma dev_inv_same d d' : dev_inv d -> dv_snap d' = dv_snap d -> dv_old d' = dv_old d ->
  dv_manager d' = dv_manager d -> dv_built d' = dv_built d -> dv_requests d' = dv_requests d ->
  dv_floor d' = dv_floor d -> dv_drops d' = dv_drops d ->
  (forall i s, dv_reloads d' !! i = Some (Read s) -> exists j, dv_reloads d !! j = Some (Read s)) ->
  dv_floor d = length (dv_old d) \/ (exists i, dv_reloads d' !! i = Some Swapped) -> dev_inv d'.
Proof.
  intros [H1 H2 H3 H4 H5 _ H6 H7 H8 H9 H10] E1 E2 E3 E4 E5 E6 E7 Hr Hl.
  assert (dv_snapshots d' = dv_snapshots d) as E8 by (unfold dv_snapshots; by rewrite E1, E2).
  split; rewrite ?E1, ?E2, ?E3, ?E4, ?E5, ?E6, ?E7, ?E8; auto.
  intros i s Hi. destruct (Hr i s Hi) as [j Hj]. by apply (H4 j).
Qed.

Lemma request_inv d i : dev_inv d -> dev_inv (on_request d i).
Proof.
  intros Hd. unfold on_request. destruct (dv_requests d !! i) eqn:Ei; [done|].
  pose proof Hd as [Hm Hc Hs Hr Hfl Hlv Hrd Hb Hcur Hfr Hh].
  assert (Manager.reachable 0 (handlerFor_locked (dv_manager d) devKey).1.1) as Hm'
    by (eapply ReachStep; [done|constructor]).
  pose proof (handler_taken (dv_manager d) (reachable_inv 0 _ Hm) Hc) as Hcase.
  destruct (handlerFor_locked (dv_manager d) devKey) as [[m p] b]. simpl in *.
  destruct Hcase as [(-> & Hp & Hex)|(Hn & Hnew & He & Hk & H0)].
  - split; simpl; try done.
    + intros j q. rewrite lookup_insert_Some. intros [[<- <-]|[_ Hj]]; simpl; [|by apply (Hfr j)].
      split_and!; [done|done|]. intros v Hv. by apply (Hcur p).
    + intros j q. rewrite lookup_insert_Some. intros [[<- <-]|[_ Hj]]; simpl; [by right|by apply (Hh j)].
  - assert (dv_built d !! p = None) as Hbp.
    { destruct (dv_built d !! p) as [v|] eqn:E; [|done]. destruct (Hrd p v E) as [[e He'] _]. congruence. }
    split; simpl; try done; rewrite ?He, ?Hk.
    + intros q v Hq. rewrite lookup_insert. destruct (Hrd q v Hq). case_decide; by split.
    + intros q e r. rewrite lookup_insert. case_decide; [by intros [= <-]|]. apply Hb.
    + intros q v. rewrite lookup_insert_eq. intros [= <-]. by rewrite Hbp.
    + intros j q. rewrite lookup_insert_Some. intros [[<- <-]|[_ Hj]]; simpl.
      * rewrite lookup_insert_eq, Hbp. by split_and!.
      * destruct (Hfr j q Hj) as ([e He'] & Hf1 & Hf2). split_and!; [|done|done]. rewrite lookup_insert. case_decide; eauto.
    + intros j q. rewrite lookup_insert_eq, lookup_insert_Some. intros [[<- <-]|[_ Hj]]; simpl; [by right|].
      destruct (Hh j q Hj) as [|[_ Hq]]; [by left|congruence].
Qed.

Lemma reads_inv d p : dev_inv d -> dev_inv (build_reads d p).
Proof.
  intros Hd. unfold build_reads. destruct (entries (dv_manager d) !! p) as [[key [r|] el]|] eqn:Ee; try done.
  destruct (dv_built d !! p) eqn:Eb; [done|]. destruct Hd as [Hm Hc Hs Hr Hfl Hlv Hrd Hb Hcur Hfr Hh]. split; simpl; try done.
  - intros q v. rewrite lookup_insert_Some. intros [[<- <-]|[_ Hq]]; [split; [by rewrite Ee|done]|by apply Hrd].
  - intros q e r He Hres. destruct (Hb q e r He Hres) as (v & s & Hq & Hw). exists v, s. split; [|done].
    rewrite lookup_insert_ne; [done|]. intros ->. congruence.
  - intros q v Hk. rewrite lookup_insert_Some. intros [[<- <-]|[_ Hq]]; [done|by apply (Hcur q)].
  - intros i q Hi. destruct (Hfr i q Hi) as (He & Hf1 & Hf2). split_and!; [done|done|]. intros v.
    rewrite lookup_insert_Some. intros [[_ <-]|[_ Hq]]; [lia|by apply Hf2].
Qed.

Lemma built_inv d p : dev_inv d -> dev_inv (build_ends d p).
Proof.
  intros Hd. unfold build_ends. destruct (entries (dv_manager d) !! p) as [[key [r|] el]|] eqn:Ee; try done.
  destruct (dv_built d !! p) as [v|] eqn:Eb; [|done]. simpl. destruct (dv_snapshots d !! v) as [s|] eqn:Es; [|done].
  destruct Hd as [Hm Hc Hs Hr Hfl Hlv Hrd Hb Hcur Hfr Hh].
  unfold finish_build. rewrite Ee. split; simpl; try done.
  - eapply ReachStep; [exact Hm|]. pose proof (StepBuilt (dv_manager d) p _ (warm s) Ee eq_refl) as H.
    unfold finish_build in H. by rewrite Ee in H.
  - intros q u Hq. rewrite lookup_insert. destruct (Hrd q u Hq). case_decide; by split.
  - intros q e r. rewrite lookup_insert. case_decide as Eq; [|apply Hb]. subst. intros [= <-] [= <-]. by exists v, s.
  - intros i q Hi. destruct (Hfr i q Hi) as (He & Hf). split; [|done]. rewrite lookup_insert. case_decide; [done|exact He].
Qed.

Lemma close_inv d i : dev_inv d -> dev_inv (close_one d i).
Proof.
  intros [Hm Hc Hs Hr Hfl Hlv Hrd Hb Hcur Hfr Hh]. unfold close_one.
  pose proof (ReachStep 0 _ _ Hm (StepRunClose (dv_manager d) i)) as Hm'.
  unfold run_close in *. repeat case_goal; by split.
Qed.

Lemma ends_inv d i : dev_inv d -> dev_inv (request_ends d i).
Proof.
  intros [Hm Hc Hs Hr Hfl Hlv Hrd Hb Hcur Hfr Hh]. split; simpl; try done; intros j q Hj;
    apply lookup_delete_Some in Hj as [_ Hj]; [by apply (Hfr j)|by apply (Hh j)].
Qed.

Lemma invalidated_gone m : pools (Invalidate (Pool := Pool) (BuildErr := BuildErr) m devKey) !! devKey = None
  /\ entries (Invalidate m devKey) = entries m /\ maxPools (Invalidate m devKey) = maxPools m.
Proof.
  unfold Invalidate. destruct (pools m !! devKey) eqn:E; [|done]. simpl. by rewrite lookup_delete_eq.
Qed.

Lemma serves_inv d s : from_disk s -> (exists i, dv_reloads d !! i = Some Swapped) -> dev_inv d -> dev_inv (serves d s).
Proof.
  intros Hs' Hi [Hm Hc Hs Hr Hfl Hlv Hrd Hb Hcur Hfr Hh].
  assert (length (dv_snapshots d) = S (length (dv_old d))) as Hlen by (unfold dv_snapshots; rewrite length_app; simpl; lia).
  split; simpl; try done; rewrite ?Hlen; [|lia|by right| |].
  - intros v t Ht. unfold dv_snapshots in Ht. simpl in Ht. apply lookup_app_Some in Ht as [Ht|[_ Ht]]; [by apply (Hs v)|].
    apply list_lookup_singleton_Some in Ht as [_ <-]. done.
  - intros p v Hv. destruct (Hrd p v Hv). split; [done|lia].
  - intros p e r He Hres. destruct (Hb p e r He Hres) as (v & t & Hv & Ht & ->). exists v, t. split_and!; [done| |done].
    unfold dv_snapshots at 1. simpl. by apply lookup_app_l_Some.
Qed.

Lemma drops_inv d : dev_inv d -> dev_inv (drops d).
Proof.
  intros [Hm Hc Hs Hr Hfl Hlv Hrd Hb Hcur Hfr Hh].
  destruct (invalidated_gone (dv_manager d)) as (Hn & He & H0). split; simpl; try done; rewrite ?He, ?H0; try done.
  - eapply ReachStep; [exact Hm|constructor].
  - by left.
  - intros p v. by rewrite Hn.
  - intros i q Hi. destruct (Hfr i q Hi) as (H1 & H2 & H3). split_and!; [done|lia|done].
  - intros i q Hi. left. destruct (Hh i q Hi) as [|[-> _]]; lia.
Qed.

Lemma reload_inv d i : dev_inv d -> dev_inv (reload_step d i).
Proof.
  intros Hd. pose proof (di_level d Hd) as Hlv. unfold reload_step.
  destruct (dv_reloads d !! i) as [[|s|]|] eqn:Ei; [| | |done].
  - destruct (buildDevSnapshot (dv_disk d)) as [[s|e]|] eqn:Es.
    + destruct Hd as [Hm Hc Hs Hr Hfl _ Hrd Hb Hcur Hfr Hh]. split; simpl; try done.
      * intros j t Hj. apply list_lookup_insert_Some in Hj as [(<- & [= <-] & _)|(_ & Hj)]; [by exists (dv_disk d)|by apply (Hr j)].
      * apply swapped_kept; [by intros r'; rewrite Ei; intros [= <-]|done].
    + apply (dev_inv_same d); try done; [intros j t Hj; by apply removed_lookup in Hj|by apply (removed_keeps _ i Started)].
    + apply (dev_inv_same d); try done; [intros j t Hj; by apply removed_lookup in Hj|by apply (removed_keeps _ i Started)].
  - assert (dv_reloads (at_phase d i (Some Swapped)) !! i = Some Swapped) as Hi
      by (apply list_lookup_insert_eq; by eapply lookup_lt_Some).
    apply serves_inv; [by apply (di_reloads d Hd i)|by exists i|].
    apply (dev_inv_same d); try done; [|right; by exists i]. intros j t Hj.
    apply list_lookup_insert_Some in Hj as [(_ & [=] & _)|(_ & Hj)]. by exists j.
  - apply (dev_inv_same (drops d)); try done; [by apply drops_inv| |by left].
    intros j t Hj. by apply removed_lookup in Hj.
Qed.

Lemma timer_inv d : dev_inv d -> dev_inv (on_timer d).
Proof.
  intros Hd. unfold on_timer. destruct (dv_timer d); [|done]. apply (dev_inv_same d); try done.
  - intros j t Hj. apply lookup_app_Some in Hj as [Hj|[_ Hj]]; [by exists j|]. by apply list_lookup_singleton_Some in Hj as [_ [=]].
  - destruct (di_level d Hd) as [|[j Hj]]; [by left|right]. exists j. by apply lookup_app_l_Some.
Qed.

Lemma dev_run_inv d : dev_run d -> dev_inv d.
Proof.
  induction 1 as [disk d H|d d' _ Hd Hstep].
  - unfold newDevServer in H. destruct (buildDevSnapshot disk) as [[s|e]|] eqn:Es; try done. injection H as H.
    destruct (dev_names s); [|done]. injection H as <-. split; simpl; try done.
    + apply ReachNew.
    + intros v t Ht. apply list_lookup_singleton_Some in Ht as [_ <-]. by exists disk.
    + by left.
  - destruct Hstep; auto using request_inv, reads_inv, built_inv, close_inv, reload_inv, ends_inv, timer_inv.
    + apply (dev_inv_same d); try done; [intros j t Hj; by exists j|exact (di_level d Hd)].
    + apply (dev_inv_same d); try done; [intros j t Hj; by exists j|exact (di_level d Hd)].
Qed.

(** A request that arrives, and one that is under way. *)
Lemma live_not_closed d p : dev_inv d -> pools (dv_manager d) !! devKey = Some p -> p ∉ closed (dv_manager d).
Proof.
  intros Hd Hp Hcl. destruct (inv_closed_dead 0 _ (reachable_inv 0 _ (di_manager d Hd)) p Hcl) as [Hdead _].
  apply Hdead. by exists devKey.
Qed.

Lemma arrival d i : dev_inv d -> dv_requests d !! i = None -> exists p floor,
  dv_requests (on_request d i) !! i = Some (mkDevRequest p floor (dv_drops d))
  /\ pools (dv_manager (on_request d i)) !! devKey = Some p /\ p ∉ closed (dv_manager (on_request d i))
  /\ (floor = length (dv_old d) \/ exists j, dv_reloads d !! j = Some Swapped).
Proof.
  intros Hd Hi. pose proof (request_inv d i Hd) as Hd'.
  pose proof (handler_taken (dv_manager d) (reachable_inv 0 _ (di_manager d Hd)) (di_cap d Hd)) as Hcase.
  assert (pools (dv_manager (on_request d i)) !! devKey = Some (handlerFor_locked (dv_manager d) devKey).1.2
    /\ dv_requests (on_request d i) !! i
       = Some (mkDevRequest (handlerFor_locked (dv_manager d) devKey).1.2 (dv_floor d) (dv_drops d))) as [Hp Hq].
  { unfold on_request. rewrite Hi. destruct (handlerFor_locked (dv_manager d) devKey) as [[m p] b]. simpl in *.
    rewrite lookup_insert_eq. destruct Hcase as [(-> & Hp & _)|(_ & _ & _ & -> & _)]; [done|].
    by rewrite lookup_insert_eq. }
  eexists _, _. split_and!; [exact Hq|exact Hp|by apply live_not_closed|exact (di_level d Hd)].
Qed.

Lemma under_way d i q r : dev_inv d -> dv_requests d !! i = Some q ->
  handler_result (dv_manager d) (rq_entry q) = Some r ->
  (exists v s, (rq_floor q <= v)%nat /\ dv_snapshots d !! v = Some s /\ from_disk s /\ r = warm s)
  /\ (rq_entry q ∈ closed (dv_manager d) -> (rq_drops q < dv_drops d)%nat).
Proof.
  intros Hd Hq Hres. split.
  - unfold handler_result in Hres. destruct (entries (dv_manager d) !! rq_entry q) as [e|] eqn:Ee; [|done].
    destruct (di_built d Hd _ e r Ee Hres) as (v & s & Hv & Hs & ->). destruct (di_fresh d Hd i q Hq) as (_ & _ & Hf).
    exists v, s. split_and!; [by apply Hf|done|by apply (di_snaps d Hd v)|done].
  - intros Hcl. destruct (di_held d Hd i q Hq) as [|[_ Hp]]; [done|]. by destruct (live_not_closed d _ Hd Hp).
Qed.

(** C28. The development server serves what was last loaded. In every state that any
    interleaving of edits, watcher events, reloads, requests, builds and closes
    reaches: the snapshot in place is one that some state of the disk gave, and a
    reload that fails leaves it and the pools as they were. A request that arrives
    is given an entry that is in the map and not closed, at whatever point the
    reloads are. While it is under way, the pool it holds was warmed, or failed to
    warm, from a snapshot at least as new as the one in place when the pool was last
    dropped before it arrived; that is the snapshot in place at its arrival, unless a
    reload stood between putting its snapshot in place and dropping the pool; and
    the pool can have been closed only when a reload dropped it after the request
    took it. The step that drops it leaves no entry, so the next request gets a new
    one. *)
Theorem dev_serves_current d (H : dev_run d) :
  from_disk (dv_snap d)
  /\ (forall i e, dv_reloads d !! i = Some Started -> buildDevSnapshot (dv_disk d) = Some (Err e) ->
       dv_snap (reload_step d i) = dv_snap d /\ dv_manager (reload_step d i) = dv_manager d)
  /\ (forall i, dv_requests d !! i = None -> exists p floor,
       dv_requests (on_request d i) !! i = Some (mkDevRequest p floor (dv_drops d))
       /\ pools (dv_manager (on_request d i)) !! devKey = Some p /\ p ∉ closed (dv_manager (on_request d i))
       /\ (floor = length (dv_old d) \/ exists j, dv_reloads d !! j = Some Swapped))
  /\ (forall i q r, dv_requests d !! i = Some q -> handler_result (dv_manager d) (rq_entry q) = Some r ->
       (exists v s, (rq_floor q <= v)%nat /\ dv_snapshots d !! v = Some s /\ from_disk s /\ r = warm s)
       /\ (rq_entry q ∈ closed (dv_manager d) -> (rq_drops q < dv_drops d)%nat))
  /\ (forall i, dv_reloads d !! i = Some Swapped ->
       let d' := reload_step d i in
       pools (dv_manager d') !! devKey = None /\ dv_floor d' = length (dv_old d') /\ dv_drops d' = S (dv_drops d)).
Proof.
  apply dev_run_inv in H as Hd. split_and!.
  - apply (di_snaps d Hd (length (dv_old d))). apply list_lookup_middle. done.
  - intros i e Hi He. unfold reload_step. by rewrite Hi, He.
  - intros i Hi. apply arrival; done.
  - intros i q r Hq Hres. by apply (under_way d i q).
  - intros i Hi. unfold reload_step. rewrite Hi. simpl. split_and!; [apply invalidated_gone|done..].
Qed.
End Server.

(** ** The guard of local development *)

(** Whatever the flags and the manifest, a connection is made only to an address that
    parses and is this machine's, or outside the guard; the flag lifts the check of
    the host alone. *)
Lemma dev_guard {U : UnicodeTables} (p : devFetchPolicy) w network host ip port :
  (DialHook (Some p) w network host ip port).1 = true
  <-> (dfp_allowAll p = true \/ Decision (dfp_eff p) (if host == "" then ip else host) port = true)
      /\ exists parsed, ParseIP ip = Some parsed /\ (IsLoopback parsed = true \/ BlockedIP parsed = false).
Proof.
  unfold DialHook. simpl. unfold Dev_AllowIP. destruct (dfp_allowAll p), (Decision _ _ _), (ParseIP ip) as [parsed|]; simpl;
    try (destruct (IsLoopback parsed) eqn:El, (BlockedIP parsed) eqn:Eb; simpl); naive_solver.
Qed.

(** ** Witness: two reloads at once *)

(** A project of one file. *)
#[export] Program Instance one_file (content : string) : FileSystem := {|
  ReadDir p := if bool_decide (p = []) then Some [mkDirEntry "index.js" false false] else None;
  StatIsDir p := None;
  EvalSymlinks p := Some "/p";
  ReadFile p := if bool_decide (p = ["index.js"]) then Some content else None;
  real_dirs := {["/p"]}
|}.
Next Obligation. intros content p es H. cbv beta in H. case_step H. injection H as <-. repeat constructor; done. Qed.
Next Obligation. intros content p r H. injection H as <-. set_solver. Qed.

Definition small_project (content : string) : Project :=
  mkProject (fun name => if name == "funcbox.yml" then Content "doc" else Missing) (one_file content).

Section Overlap.
Definition pool_of (c : devPoolConfig) : result unit (gmap string string) := Ok (dp_Bundle c).
Abbreviation reload d i := (reload_step (U := ascii_tables) (F := amd64_float_to_int) (Y := one_doc_decoder)
  (Pool := gmap string string) (BuildErr := unit) d i).

Definition dev_start : option (result DevErr (Dev (Pool := gmap string string) (BuildErr := unit))) :=
  newDevServer (U := ascii_tables) (F := amd64_float_to_int) (Y := one_doc_decoder) (small_project "v1").

(** An edit whose reload reads it before the next edit, whose own reload overtakes. *)
Definition overtaken (d : Dev (Pool := gmap string string) (BuildErr := unit)) : Dev :=
  let d := on_timer (on_event (edit d (small_project "v2"))) in
  let d := reload d 0 in
  let d := on_timer (on_event (edit d (small_project "v3"))) in
  let d := reload (reload (reload d 1) 1) 1 in
  reload (reload d 0) 0.

(** The older of two overlapping reloads ends last: its snapshot stays, though the
    disk holds a newer one and nothing is left to load it. *)
Example stale_after_overlap :
  match dev_start with
  | Some (Ok d) =>
      let d := overtaken d in
      ds_files (dv_snap d) = {["index.js" := "v2"]} /\ ReadFile (FileSystem := pj_FS (dv_disk d)) ["index.js"] = Some "v3"
      /\ dv_reloads d = [] /\ dv_timer d = false
      /\ dv_out d = ["funcbox dev: reloaded"; "funcbox dev: reloaded"]
  | _ => False
  end.
Proof. vm_compute. done. Qed.

(** A request whose pool a reload drops, and a closing goroutine closes, while it is
    under way; another arrives after the reload. *)
Definition held (d : Dev (Pool := gmap string string) (BuildErr := unit)) : Dev :=
  let d := build_ends pool_of ∅ false (build_reads (on_request d 0) 0) 0 in
  let d := on_timer (on_event (edit d (small_project "v2"))) in
  let d := close_one (reload (reload (reload d 0) 0) 0) 0 in
  let d := build_reads (on_request d 1) 1 in
  build_ends pool_of ∅ false d 1.

Definition answer (d : Dev (Pool := gmap string string) (BuildErr := unit)) (i : nat)
    : option (result unit (gmap string string)) :=
  dv_requests d !! i ≫= fun q => handler_result (dv_manager d) (rq_entry q).

Lemma answer_held d i r : answer d i = Some r ->
  exists q, dv_requests d !! i = Some q /\ handler_result (dv_manager d) (rq_entry q) = Some r.
Proof. unfold answer. destruct (dv_requests d !! i) as [q|]; simpl; [by exists q|done]. Qed.

Example held_serves_its_own :
  match dev_start with
  | Some (Ok d) =>
      answer (held d) 0 = Some (Ok {["index.js" := "v1"]}) /\ answer (held d) 1 = Some (Ok {["index.js" := "v2"]})
      /\ closed (dv_manager (held d)) = [0%nat]
  | _ => False
  end.
Proof. vm_compute. done. Qed.

Lemma dev_serves_current_witness :
  exists d q, dev_start = Some (Ok d) /\ dv_requests (held d) !! 0%nat = Some q
  /\ (rq_entry q ∈ closed (dv_manager (held d)) -> (rq_drops q < dv_drops (held d))%nat).
Proof.
  destruct dev_start as [[d|e]|] eqn:E; [|by vm_compute in E|by vm_compute in E].
  assert (exists q r, dv_requests (held d) !! 0%nat = Some q /\ handler_result (dv_manager (held d)) (rq_entry q) = Some r)
    as (q & r & Hq & Hr).
  { generalize held_serves_its_own. rewrite E. intros (H & _). apply answer_held in H as (q & Hq). eexists _, _. exact Hq. }
  exists d, q. split_and!; [done|done|].
  refine (proj2 (proj1 (proj2 (proj2 (proj2 (dev_serves_current (U := ascii_tables) (F := amd64_float_to_int)
    (Y := one_doc_decoder) pool_of ∅ false (held d) _)))) 0%nat q r Hq Hr)).
  unfold held. repeat (eapply DevStep; [|constructor]). exact (DevNew _ _ _ (small_project "v1") d E).
Defined.
End Overlap.
