(* ===== verification/EnginePool.v ===== *)
(** * EnginePool: the pool of engine instances

    Models src/runtime/enginepool/pool.go and the use of an instance by a request of
    worker.go and js/glue.js. What guest code does is not modelled: a step stands for
    everything the guest may do while an instance is driven. Requests are numbers;
    what is written to a client is recorded with the request it is an answer to. The
    modules a guest may import are in GuestModules, the writing of an answer in
    Response. *)

From S2P Require Import Prelude FetchGuard Collect.

(** ** worker.go: one instance *)

(** [worker] and the state of the glue: the generation and the sink of the shared
    stream callbacks, the request for which each generation was started, the
    handlers that have not settled, and the request whose outcome [state.result]
    holds. *)
Record worker := mkWorker {
  wk_streamGen : Z;
  wk_sink : option nat;
  wk_started : gmap Z nat;
  wk_pending : list nat;
  wk_result : option nat
}.
Definition new_worker : worker := mkWorker 0 None ∅ [] None.

(** What reaches a client: the outcome of a handler, a chunk of a stream, or an error
    page. *)
Inductive sent :=
| SentOutcome (handler : nat)
| SentChunk (gen : Z)
| SentError (status : Z).

(** [__fbw_run]. *)
Definition run_handler (wk : worker) (r : nat) : worker :=
  mkWorker (wk_streamGen wk) (wk_sink wk) (wk_started wk) (r :: wk_pending wk) None.

(** The promise chain of a handler settles. *)
Definition settle (wk : worker) (q : nat) : worker :=
  if bool_decide (q ∈ wk_pending wk)
  then mkWorker (wk_streamGen wk) (wk_sink wk) (wk_started wk) (List.filter (fun x => negb (x =? q)%nat) (wk_pending wk)) (Some q)
  else wk.

(** The start of [serveStreamingBody]: a new generation, the sink armed. *)
Definition start_stream (wk : worker) (r : nat) : worker :=
  let gen := wk_streamGen wk + 1 in
  mkWorker gen (Some r) (<[gen := r]> (wk_started wk)) (wk_pending wk) (wk_result wk).

(** [hostWrite]: where a chunk of a generation goes; nowhere when it is stale. *)
Definition host_write (wk : worker) (gen : Z) : option nat :=
  match wk_sink wk with
  | Some r => if gen =? wk_streamGen wk then Some r else None
  | None => None
  end.

(** The deferred end of [serveStreamingBody]. *)
Definition end_stream (wk : worker) : worker :=
  mkWorker (wk_streamGen wk) None (wk_started wk) (wk_pending wk) (wk_result wk).

(** ** pool.go *)

(** [Pool]: the instances, the channel, who uses which, how many [Close] still waits
    for, the closed ones, and what was sent to whom. *)
Record Pool := mkPool {
  pl_workers : gmap nat worker;
  pl_free : list nat;
  pl_busy : list (nat * nat);
  pl_size : nat;
  pl_closing : nat;
  pl_closed : list nat;
  pl_sent : list (nat * (nat * sent))
}.

(** [NewPool]: the instances are booted one after the other; when one fails those
    before it are closed. *)
Fixpoint boot {E} (boots : nat -> option E) (i more : nat) (created : list nat) : (nat * E) * list nat + list nat :=
  match more with
  | O => inr created
  | S more =>
      match boots i with
      | Some e => inl ((i, e), created)
      | None => boot boots (S i) more (created ++ [i])
      end
  end.
Definition pool_of (created : list nat) : Pool :=
  mkPool (list_to_map (map (fun i => (i, new_worker)) created)) created [] (length created) 0 [] [].
Definition NewPool {E} (boots : nat -> option E) (size procs : Z) : (nat * E) * list nat + Pool :=
  let size := if size <=? 0 then procs else size in
  match boot boots 0 (Z.to_nat size) [] with
  | inl failed => inl failed
  | inr created => inr (pool_of created)
  end.

Definition set_worker (p : Pool) (w : nat) (wk : worker) : Pool :=
  mkPool (<[w := wk]> (pl_workers p)) (pl_free p) (pl_busy p) (pl_size p) (pl_closing p) (pl_closed p) (pl_sent p).
Definition send_to (p : Pool) (r : nat) (x : nat * sent) : Pool :=
  mkPool (pl_workers p) (pl_free p) (pl_busy p) (pl_size p) (pl_closing p) (pl_closed p) (pl_sent p ++ [(r, x)]).

(** [ServeHTTP] receives an instance; [w] is the one at the head of the channel. *)
Definition checkout (p : Pool) (r : nat) : option (nat * Pool) :=
  match pl_free p with
  | [] => None
  | w :: free =>
      Some (w, mkPool (pl_workers p) free ((w, r) :: pl_busy p) (pl_size p) (pl_closing p) (pl_closed p) (pl_sent p))
  end.

(** The deferred send: the instance goes back, whatever happened. *)
Definition give_back (p : Pool) (w r : nat) : Pool :=
  mkPool (pl_workers p) (pl_free p ++ [w]) (List.filter (fun x => negb (x.1 =? w)%nat) (pl_busy p)) (pl_size p)
    (pl_closing p) (pl_closed p) (pl_sent p).

(** [Close]: it takes as many instances as the pool has, one by one; then the pool
    has none. *)
Definition begin_close (p : Pool) : Pool :=
  mkPool (pl_workers p) (pl_free p) (pl_busy p) (pl_size p) (pl_size p) (pl_closed p) (pl_sent p).
Definition close_next (p : Pool) : Pool :=
  match pl_closing p, pl_free p with
  | S rest, w :: free =>
      mkPool (pl_workers p) free (pl_busy p) (if (rest =? 0)%nat then 0 else pl_size p) rest (w :: pl_closed p) (pl_sent p)
  | _, _ => p
  end.

(** A step: of a request that uses an instance, of the guest while a request drives
    its instance, or of [Close], which is called once at a time. *)
Inductive pool_step : Pool -> Pool -> Prop :=
| StepCheckout p r w p' : checkout p r = Some (w, p') -> r ∉ map snd (pl_busy p) -> pool_step p p'
| StepNoWorker p r : pool_step p (send_to p r (0%nat, SentError 503))
| StepRun p w r wk : (w, r) ∈ pl_busy p -> pl_workers p !! w = Some wk -> pool_step p (set_worker p w (run_handler wk r))
| StepSettle p w r wk q : (w, r) ∈ pl_busy p -> pl_workers p !! w = Some wk -> pool_step p (set_worker p w (settle wk q))
| StepAnswer p w r wk q : (w, r) ∈ pl_busy p -> pl_workers p !! w = Some wk -> wk_result wk = Some q ->
    pool_step p (send_to p r (w, SentOutcome q))
| StepFail p w r status : (w, r) ∈ pl_busy p -> pool_step p (send_to p r (w, SentError status))
| StepStream p w r wk : (w, r) ∈ pl_busy p -> pl_workers p !! w = Some wk -> pool_step p (set_worker p w (start_stream wk r))
| StepWrite p w r wk gen to : (w, r) ∈ pl_busy p -> pl_workers p !! w = Some wk -> host_write wk gen = Some to ->
    pool_step p (send_to p to (w, SentChunk gen))
| StepEndStream p w r wk : (w, r) ∈ pl_busy p -> pl_workers p !! w = Some wk -> pool_step p (set_worker p w (end_stream wk))
| StepGiveBack p w r wk : (w, r) ∈ pl_busy p -> pl_workers p !! w = Some wk -> wk_sink wk = None -> pool_step p (give_back p w r)
| StepClose p : pl_closing p = 0%nat -> pool_step p (begin_close p)
| StepCloseNext p : pool_step p (close_next p).

Inductive pool_run (n : nat) : Pool -> Prop :=
| PoolNew p boots size procs : NewPool (E := unit) boots size procs = inr p -> pl_size p = n -> pool_run n p
| PoolStep p p' : pool_run n p -> pool_step p p' -> pool_run n p'.

(** ** The invariant *)

Definition held (p : Pool) : list nat := pl_free p ++ map fst (pl_busy p) ++ pl_closed p.

Record pool_inv (n : nat) (p : Pool) : Prop := {
  pi_held : held p ≡ₚ seq 0 n;
  pi_workers : forall w, is_Some (pl_workers p !! w) <-> (w < n)%nat;
  pi_requests : NoDup (map snd (pl_busy p));
  pi_sink : forall w wk r, pl_workers p !! w = Some wk -> wk_sink wk = Some r ->
              (w, r) ∈ pl_busy p /\ wk_started wk !! wk_streamGen wk = Some r;
  pi_started : forall w wk g r, pl_workers p !! w = Some wk -> wk_started wk !! g = Some r -> g <= wk_streamGen wk;
  pi_sent : forall r w g, (r, (w, SentChunk g)) ∈ pl_sent p ->
              exists wk, pl_workers p !! w = Some wk /\ wk_started wk !! g = Some r;
  pi_close : ((pl_size p = n /\ pl_closing p = 0 /\ pl_closed p = [])
             \/ (pl_size p = n /\ 0 < pl_closing p /\ length (pl_closed p) + pl_closing p = n)
             \/ (pl_size p = 0 /\ pl_closing p = 0 /\ length (pl_closed p) = n))%nat
}.

Lemma boot_created {E} (boots : nat -> option E) : forall more i created c, boot boots i more created = inr c ->
  c = created ++ seq i more.
Proof.
  induction more as [|more IH]; intros i created c H; simpl in H; [injection H as <-; by rewrite app_nil_r|].
  destruct (boots i); [done|]. apply IH in H as ->. by rewrite <- app_assoc.
Qed.

Lemma boot_failed {E} (boots : nat -> option E) : forall more i created j e c, boot boots i more created = inl ((j, e), c) ->
  boots j = Some e /\ c = created ++ seq i (j - i) /\ (i <= j < i + more)%nat.
Proof.
  induction more as [|more IH]; intros i created j e c H; simpl in H; [done|]. destruct (boots i) eqn:Eb.
  - injection H as <- <- <-. rewrite Nat.sub_diag, app_nil_r. split_and!; [done|done|lia|lia].
  - apply IH in H as (Hj & -> & Hr). split_and!; [done| |lia|lia]. rewrite <- app_assoc. simpl. do 2 f_equal.
    replace (j - i)%nat with (S (j - S i)) by lia. done.
Qed.

Lemma pool_inv_start {E} (boots : nat -> option E) size procs p : NewPool boots size procs = inr p -> pool_inv (pl_size p) p.
Proof.
  unfold NewPool. destruct (boot boots 0 _ []) as [|c] eqn:Eb; [done|]. intros [= <-]. apply boot_created in Eb. simpl in Eb.
  set (n := Z.to_nat _) in Eb. subst c. split; simpl.
  - unfold held. simpl. by rewrite app_nil_r, length_seq.
  - intros w. rewrite length_seq. unfold pool_of. simpl. split.
    + intros [wk Hw]. apply elem_of_list_to_map_2, list_elem_of_In, in_map_iff in Hw as (i & [= <- _] & Hi). apply in_seq in Hi. lia.
    + intros Hw. exists new_worker. apply elem_of_list_to_map_1.
      * rewrite <- list_fmap_compose. simpl. rewrite list_fmap_id. apply NoDup_seq.
      * apply list_elem_of_In, in_map_iff. exists w. split; [done|]. apply in_seq. lia.
  - constructor.
  - intros w wk r Hw Hs. apply elem_of_list_to_map_2, list_elem_of_In, in_map_iff in Hw as (i & [= _ <-] & _). done.
  - intros w wk g r Hw Hs. apply elem_of_list_to_map_2, list_elem_of_In, in_map_iff in Hw as (i & [= _ <-] & _). done.
  - intros r w g Hin. by apply elem_of_nil in Hin.
  - left. by rewrite length_seq.
Qed.

Lemma held_nodup n p : pool_inv n p -> NoDup (held p).
Proof. intros Hp. rewrite (pi_held n p Hp). apply NoDup_seq. Qed.

Lemma busy_unique n p w r r' : pool_inv n p -> (w, r) ∈ pl_busy p -> (w, r') ∈ pl_busy p -> r = r'.
Proof.
  intros Hp. pose proof (held_nodup n p Hp) as Hn. unfold held in Hn.
  apply NoDup_app in Hn as (_ & _ & Hn). apply NoDup_app in Hn as (Hn & _ & _). clear Hp.
  induction (pl_busy p) as [|[a b] l IH]; intros H1 H2; [by apply elem_of_nil in H1|].
  simpl in Hn. apply NoDup_cons in Hn as [Ha Hn].
  assert (forall x, (a, x) ∈ l -> False) as Hno by (intros x Hx; apply Ha; apply list_elem_of_fmap; by exists (a, x)).
  apply elem_of_cons in H1, H2. destruct H1 as [E1|H1], H2 as [E2|H2].
  - congruence.
  - injection E1 as -> ->. by apply Hno in H2.
  - injection E2 as -> ->. by apply Hno in H1.
  - by apply IH.
Qed.

(** A step of one instance in use. *)
Lemma set_inv n p w r wk wk' : pool_inv n p -> (w, r) ∈ pl_busy p -> pl_workers p !! w = Some wk ->
  (forall r0, wk_sink wk' = Some r0 -> r0 = r /\ wk_started wk' !! wk_streamGen wk' = Some r0) ->
  (forall g x, wk_started wk !! g = Some x -> wk_started wk' !! g = Some x) ->
  (forall g x, wk_started wk' !! g = Some x -> g <= wk_streamGen wk') -> pool_inv n (set_worker p w wk').
Proof.
  intros [Hh Hw Hr Hs Hst Hsent Hc] Hin Hwk Hsink Hkeep Hle. split; simpl; try done.
  - intros v. rewrite lookup_insert. case_decide as E; [|apply Hw]. subst. rewrite <- Hw, Hwk. by split.
  - intros v x r0. rewrite lookup_insert. case_decide as E; [|apply Hs]. subst. intros [= <-] H0.
    destruct (Hsink _ H0) as [-> H1]. done.
  - intros v x g r0. rewrite lookup_insert. case_decide; [intros [= <-]; apply Hle|apply Hst].
  - intros r0 v g H0. destruct (Hsent _ _ _ H0) as (x & Hv & Hx). rewrite lookup_insert. case_decide as E; [|by exists x].
    subst. rewrite Hwk in Hv. injection Hv as <-. exists wk'. split; [done|by apply Hkeep].
Qed.

(** A page or an outcome: no chunk. *)
Lemma send_inv n p r x : pool_inv n p ->
  (forall w g, x = (w, SentChunk g) -> exists wk, pl_workers p !! w = Some wk /\ wk_started wk !! g = Some r) ->
  pool_inv n (send_to p r x).
Proof.
  intros [Hh Hw Hr Hs Hst Hsent Hc] Hx. split; simpl; try done. intros r0 w g H0.
  apply elem_of_app in H0 as [H0|H0%list_elem_of_singleton]; [by apply Hsent|]. injection H0 as -> <-. by apply Hx.
Qed.

Lemma filter_busy l w r : NoDup (map fst l) -> (w, r) ∈ l ->
  map fst l ≡ₚ w :: map fst (List.filter (fun x : nat * nat => negb (x.1 =? w)%nat) l)
  /\ (forall x, x ∈ List.filter (fun x => negb (x.1 =? w)%nat) l -> x ∈ l)
  /\ forall x, x ∈ l -> x.1 <> w -> x ∈ List.filter (fun x => negb (x.1 =? w)%nat) l.
Proof.
  intros Hn Hin. split_and!.
  - induction l as [|[a b] l IH]; [by apply elem_of_nil in Hin|]. simpl in *. apply NoDup_cons in Hn as [Ha Hn].
    destruct (a =? w)%nat eqn:E; simpl; bool_facts.
    + subst. f_equiv. assert (List.filter (fun x : nat * nat => negb (x.1 =? w)%nat) l = l) as ->; [|done].
      apply forallb_filter_id, forallb_forall. intros [c d] Hc. simpl. apply negb_true_iff, Nat.eqb_neq. intros ->. apply Ha, list_elem_of_fmap.
      exists (w, d). by rewrite list_elem_of_In.
    + apply elem_of_cons in Hin as [[= -> ->]|Hin]; [done|]. rewrite (IH Hn Hin) at 1. apply Permutation_swap.
  - intros x Hx. apply list_elem_of_In, filter_In in Hx as [Hx _]. by apply list_elem_of_In.
  - intros x Hx Hne. apply list_elem_of_In, filter_In. split; [by apply list_elem_of_In|]. by apply negb_true_iff, Nat.eqb_neq.
Qed.

Lemma nodup_snd_filter (f : nat * nat -> bool) l : NoDup (map snd l) -> NoDup (map snd (List.filter f l)).
Proof.
  induction l as [|x l IH]; intros H; simpl in *; [constructor|]. apply NoDup_cons in H as [Hx H].
  destruct (f x); [|by apply IH]. simpl. apply NoDup_cons. split; [|by apply IH]. intros Hin. apply Hx.
  apply list_elem_of_fmap in Hin as (y & -> & Hy). apply list_elem_of_In, filter_In in Hy as [Hy _].
  apply list_elem_of_fmap. exists y. by rewrite list_elem_of_In.
Qed.

Lemma checkout_inv n p r w p' : pool_inv n p -> checkout p r = Some (w, p') -> r ∉ map snd (pl_busy p) -> pool_inv n p'.
Proof.
  intros [Hh Hw Hrq Hs Hst Hsent Hcl] Hc Hr. unfold checkout in Hc. destruct (pl_free p) as [|v free] eqn:Ef; [done|]. injection Hc as <- <-.
  split; simpl; try done.
  - rewrite <- Hh. unfold held. simpl. rewrite Ef. simpl. symmetry. apply Permutation_middle.
  - by apply NoDup_cons.
  - intros x wk r0 Hx H0. destruct (Hs x wk r0 Hx H0) as [H1 H2]. split; [by apply elem_of_cons; right|done].
Qed.

Lemma give_back_inv n p w r wk : pool_inv n p -> (w, r) ∈ pl_busy p -> pl_workers p !! w = Some wk -> wk_sink wk = None ->
  pool_inv n (give_back p w r).
Proof.
  intros Hp Hin Hwk Hsk. pose proof (held_nodup n p Hp) as Hn. unfold held in Hn.
  apply NoDup_app in Hn as (_ & _ & Hn). apply NoDup_app in Hn as (Hnd & _ & _).
  destruct (filter_busy _ w r Hnd Hin) as (Hperm & _ & Hkeep). destruct Hp as [Hh Hw Hrq Hs Hst Hsent Hc]. split; simpl; try done.
  - rewrite <- Hh. unfold held. simpl. rewrite <- app_assoc. apply Permutation_app_head.
    change ([w] ++ ?l) with (w :: l). rewrite app_comm_cons. by rewrite <- Hperm.
  - by apply nodup_snd_filter.
  - intros x wk' r0 Hx H0. destruct (Hs x wk' r0 Hx H0) as [H1 H2]. split; [|done]. apply Hkeep; [done|]. simpl. intros ->. congruence.
Qed.

Lemma begin_close_inv n p : pool_inv n p -> pl_closing p = 0%nat -> pool_inv n (begin_close p).
Proof.
  intros [Hh Hw Hrq Hs Hst Hsent Hc] H0. split; simpl; try done.
  destruct Hc as [(? & ? & ->)|[(? & ? & ?)|(? & ? & ?)]]; simpl; lia.
Qed.

Lemma close_next_inv n p : pool_inv n p -> pool_inv n (close_next p).
Proof.
  intros Hp. unfold close_next. destruct (pl_closing p) as [|rest] eqn:Ec; [done|]. destruct (pl_free p) as [|w free] eqn:Ef; [done|].
  destruct Hp as [Hh Hw Hrq Hs Hst Hsent Hc]. split; simpl; try done.
  - rewrite <- Hh. unfold held. simpl. rewrite Ef. simpl. rewrite app_assoc. rewrite <- Permutation_middle. by rewrite <- app_assoc.
  - destruct (rest =? 0)%nat eqn:E0; bool_facts; lia.
Qed.

(** What a driven instance sends as a chunk goes to the request its generation was
    started for. *)
Lemma write_inv n p w wk gen to : pool_inv n p -> pl_workers p !! w = Some wk -> host_write wk gen = Some to ->
  pool_inv n (send_to p to (w, SentChunk gen)).
Proof.
  intros Hp Hwk Hto. apply send_inv; [done|]. intros v g [= <- <-]. exists wk. split; [done|]. unfold host_write in Hto.
  destruct (wk_sink wk) as [s|] eqn:Es; [|done]. case_step Hto. injection Hto as <-. bool_facts. subst.
  by apply (pi_sink n p Hp _ _ _ Hwk Es).
Qed.

(** A step of the guest that leaves the generations alone. *)
Lemma guest_inv n p w r wk wk' : pool_inv n p -> (w, r) ∈ pl_busy p -> pl_workers p !! w = Some wk ->
  wk_streamGen wk' = wk_streamGen wk -> wk_started wk' = wk_started wk -> wk_sink wk' = wk_sink wk \/ wk_sink wk' = None ->
  pool_inv n (set_worker p w wk').
Proof.
  intros Hp Hin Hwk Hg Hs Hk. eapply (set_inv n p w r wk); [done|done|done| | |]; rewrite ?Hg, ?Hs; [|done|].
  - intros r0 H0. destruct Hk as [Hk|Hk]; rewrite Hk in H0; [|done].
    destruct (pi_sink n p Hp _ _ _ Hwk H0) as [H1 H2]. split; [by eapply busy_unique|done].
  - intros g x. by apply (pi_started n p Hp w wk g x).
Qed.

Lemma start_stream_inv n p w r wk : pool_inv n p -> (w, r) ∈ pl_busy p -> pl_workers p !! w = Some wk ->
  pool_inv n (set_worker p w (start_stream wk r)).
Proof.
  intros Hp Hin Hwk. pose proof (fun g x Hg => pi_started n p Hp w wk g x Hwk Hg) as Hle.
  eapply (set_inv n p w r wk); try done; simpl.
  - intros r0 [= <-]. split; [done|]. apply lookup_insert_eq.
  - intros g x Hg. rewrite lookup_insert_ne; [done|]. pose proof (Hle _ _ Hg). lia.
  - intros g x. rewrite lookup_insert. case_decide; [lia|]. intros Hg. pose proof (Hle _ _ Hg). lia.
Qed.

Lemma pool_step_inv n p p' : pool_inv n p -> pool_step p p' -> pool_inv n p'.
Proof.
  intros Hp Hstep. destruct Hstep as [p r w p' Hc Hr|p r|p w r wk Hin Hwk|p w r wk q Hin Hwk|p w r wk q Hin Hwk Hres
    |p w r status Hin|p w r wk Hin Hwk|p w r wk gen to Hin Hwk Hto|p w r wk Hin Hwk|p w r wk Hin Hwk Hsk|p H0|p].
  - by eapply checkout_inv.
  - by apply send_inv.
  - eapply guest_inv; try done. by left.
  - unfold settle. case_bool_decide; (eapply guest_inv; try done; by left).
  - by apply send_inv.
  - by apply send_inv.
  - by eapply start_stream_inv.
  - by eapply write_inv.
  - eapply guest_inv; try done. by right.
  - by eapply give_back_inv.
  - by apply begin_close_inv.
  - by apply close_next_inv.
Qed.

(** C37. The instances of a pool are shared without mixing their requests. After any
    steps of requests, guests and [Close]: each instance is free, in use by one
    request, or closed, and no two requests use one; at most as many requests are
    served as there are instances; a chunk of a stream reaches only the request the
    stream was started for, however long its pump outlives that request; a closed
    instance is not in use, and when [Close] has ended all are closed. *)
Theorem pool_isolates n p (H : pool_run n p) :
  held p ≡ₚ seq 0 n
  /\ (length (pl_busy p) <= n)%nat
  /\ (forall w r r', (w, r) ∈ pl_busy p -> (w, r') ∈ pl_busy p -> r = r')
  /\ (forall w w' r, (w, r) ∈ pl_busy p -> (w', r) ∈ pl_busy p -> w = w')
  /\ (forall r w g, (r, (w, SentChunk g)) ∈ pl_sent p ->
        exists wk, pl_workers p !! w = Some wk /\ wk_started wk !! g = Some r)
  /\ (forall w r, (w, r) ∈ pl_busy p -> w ∉ pl_closed p)
  /\ (pl_size p = 0%nat -> pl_free p = [] /\ pl_busy p = [] /\ pl_closed p ≡ₚ seq 0 n).
Proof.
  assert (pool_inv n p) as Hp.
  { induction H as [p boots size procs H <-|p p' _ IH Hs]; [by eapply pool_inv_start|by eapply pool_step_inv]. }
  pose proof (held_nodup n p Hp) as Hn. pose proof (pi_held n p Hp) as Hh. unfold held in Hn, Hh.
  pose proof (Permutation_length Hh) as Hl. rewrite !length_app, length_map, length_seq in Hl.
  split_and!; [done|lia| | | | |].
  - intros w r r'. by apply (busy_unique n p).
  - intros w w' r H1 H2. pose proof (pi_requests n p Hp) as Hr. clear -H1 H2 Hr.
    induction (pl_busy p) as [|[a b] l IH]; [by apply elem_of_nil in H1|]. simpl in Hr. apply NoDup_cons in Hr as [Hb Hr].
    assert (forall x, (x, b) ∈ l -> False) as Hno by (intros x Hx; apply Hb; apply list_elem_of_fmap; by exists (x, b)).
    apply elem_of_cons in H1, H2. destruct H1 as [E1|H1], H2 as [E2|H2]; [congruence| | |by apply IH].
    + injection E1 as -> ->. by apply Hno in H2.
    + injection E2 as -> ->. by apply Hno in H1.
  - apply (pi_sent n p Hp).
  - intros w r Hb Hc. apply NoDup_app in Hn as (_ & _ & Hn). apply NoDup_app in Hn as (_ & Hd & _).
    apply (Hd w); [|done]. apply list_elem_of_fmap. by exists (w, r).
  - intros H0. assert (length (pl_free p) = 0 /\ length (pl_busy p) = 0)%nat as [E1%nil_length_inv E2%nil_length_inv].
    { destruct (pi_close n p Hp) as [(E & _ & Ec)|[(E & _ & _)|(_ & _ & E)]]; lia. }
    split_and!; [done|done|]. by rewrite E1, E2 in Hh.
Qed.

(** ** Witness: a handler that settles late *)

Definition one_instance : Pool := pool_of [0%nat].

(** Request 0 starts a handler that does not settle and fails; request 1 settles it,
    by what it shares with it in the instance. *)
Definition late_settle : option Pool :=
  match checkout one_instance 0 with
  | Some (w, p) =>
      let p := set_worker p w (run_handler new_worker 0) in
      let p := give_back (send_to p 0 (w, SentError 500)) w 0 in
      match checkout p 1 with
      | Some (w, p) =>
          match pl_workers p !! w with
          | Some wk =>
              let p := set_worker p w (run_handler wk 1) in
              let wk := settle (run_handler wk 1) 0 in
              match wk_result wk with
              | Some q => Some (send_to (set_worker p w wk) 1 (w, SentOutcome q))
              | None => None
              end
          | None => None
          end
      | None => None
      end
  | None => None
  end.

(** The outcome of a buffered answer carries no generation: the second client is sent
    the answer of the first one's handler. *)
Example stale_handler_answers :
  match late_settle with
  | Some p => pl_sent p = [(0%nat, (0%nat, SentError 500)); (1%nat, (0%nat, SentOutcome 0))]
  | None => False
  end.
Proof. vm_compute. reflexivity. Qed.

Lemma pool_isolates_witness :
  exists p, late_settle = Some p /\ (length (pl_busy p) <= 1)%nat.
Proof.
  destruct late_settle as [p|] eqn:E; [|by vm_compute in E]. exists p. split; [done|].
  refine (proj1 (proj2 (pool_isolates 1 p _))). unfold late_settle in E.
  assert (pool_run 1 one_instance) as H0 by (apply (PoolNew 1 one_instance (fun _ => None) 1 1); reflexivity).
  destruct (checkout one_instance 0) as [[w p0]|] eqn:E0; [|done].
  assert (pool_run 1 p0) as H1 by (eapply PoolStep; [exact H0|eapply StepCheckout; [exact E0|apply not_elem_of_nil]]).
  injection E0 as <- <-.
  assert (pool_run 1 (give_back (send_to (set_worker (mkPool (pl_workers one_instance) [] [(0%nat, 0%nat)] 1 0 [] []) 0
      (run_handler new_worker 0)) 0 (0%nat, SentError 500)) 0 0)) as H2.
  { eapply PoolStep; [|eapply (StepGiveBack _ 0%nat 0%nat (run_handler new_worker 0)); [by left|reflexivity|reflexivity]].
    eapply PoolStep; [|eapply StepFail; by left]. eapply PoolStep; [exact H1|]. eapply StepRun; [by left|reflexivity]. }
  destruct (checkout _ 1) as [[w p2]|] eqn:E2 in E; [|done].
  assert (pool_run 1 p2) as H3 by (eapply PoolStep; [exact H2|eapply StepCheckout; [exact E2|apply not_elem_of_nil]]).
  injection E2 as <- <-. simpl in E. injection E as <-.
  eapply PoolStep; [|eapply (StepAnswer _ 0%nat 1%nat); [by left|reflexivity|reflexivity]].
  eapply PoolStep; [|eapply (StepSettle _ 0%nat 1%nat _ 0%nat); [by left|reflexivity]].
  eapply PoolStep; [exact H3|]. eapply StepRun; [by left|reflexivity].
Defined.
