(* ===== verification/GuestModules.v ===== *)
(** * GuestModules: what a guest may import

    Models src/runtime/enginepool/env.go, nodecompat.go and internal.go: the preamble
    that gives each module of a function its [import.meta.env], in front of a loader's
    source or of a file's bytes, the modules in the [funcbox:] namespace, and the
    asynchronous functions such a module exports. The engine and the file system are
    parameters; the functions a module exports may return anything. *)

From stdpp Require Import sorting.
From S2P Require Import Prelude FetchGuard Bundle Collect.

(** ** env.go *)

Definition envGlobalName : string := "__funcbox_env".

Definition envPreamble : string :=
  "Object.defineProperty(import.meta, " +:+ quoted "env" +:+ ", { value: globalThis[" +:+ quoted envGlobalName
  +:+ "], enumerable: true, writable: false, configurable: false });" +:+ String "010" "".

(** [spidermonkey.ModuleLoader], of a specifier. *)
Definition ModuleLoader (E : Type) : Type := string -> result E string.

Definition wrapLoaderWithEnv {E} (inner : option (ModuleLoader E)) : option (ModuleLoader E) :=
  option_map (fun load specifier => let! src := load specifier in Ok (envPreamble +:+ src)) inner.

(** The global object of an instance, as far as this file writes it: objects of
    string properties, and whether each is frozen. *)
Definition Globals : Type := gmap string (gmap string string * bool).

(** [installEnv], where no call into the engine fails. *)
Definition installEnv (g : Globals) (env : list (string * string)) : Globals :=
  let obj := fold_left (fun o kv => <[kv.1 := kv.2]> o) env ∅ in
  <[envGlobalName := (obj, true)]> g.

(** ** nodecompat.go *)

Definition shouldInjectEnvPath (name : string) : bool :=
  if str_contains name "node_modules/" then false
  else (path_Ext name == ".js") || (path_Ext name == ".mjs").

(** [fs.FileInfo] and [fs.File]: what [Stat], reading to the end and [Close] give. *)
Record FileInfo := mkFileInfo { fi_Name : string; fi_Size : Z; fi_Mode : Z; fi_ModTime : Z; fi_IsDir : bool }.
Record File (E : Type) := mkFile { f_Stat : result E FileInfo; f_Read : result E string; f_Close : option E }.
Arguments mkFile {E}. Arguments f_Stat {E}. Arguments f_Read {E}. Arguments f_Close {E}.

(** [envInjectedFile] and its [envInjectedFileInfo]. *)
Definition envInjectedFile {E} (name combined : string) (info : FileInfo) : File E :=
  mkFile (Ok (mkFileInfo (path_Base name) (str_len combined) (fi_Mode info) (fi_ModTime info) false)) (Ok combined) None.

Definition envInjectingFS_Open {E} (inner : string -> result E (File E)) (name : string) : result E (File E) :=
  let! f := inner name in
  if negb (shouldInjectEnvPath name) then Ok f
  else
    let! info := f_Stat f in
    if fi_IsDir info then Ok f
    else
      let! data := f_Read f in
      match f_Close f with
      | Some e => Err e
      | None => Ok (envInjectedFile name (envPreamble +:+ data) info)
      end.
Definition wrapFSWithEnv {E} (inner : option (string -> result E (File E))) : option (string -> result E (File E)) :=
  option_map envInjectingFS_Open inner.

(** ** internal.go: the [funcbox:] modules *)

Definition internalGlobalName (specifier : string) : string := "__funcbox_internal__" +:+ specifier.

(** [InternalModule]: the names a module exports, each with the value that was built
    for it in the instance. *)
Definition InternalModule (V : Type) : Type := gmap string V.

Definition sortedExportNames {V} (exports : InternalModule V) : list string := merge_sort str_le (map fst (map_to_list exports)).

(** [strconv.Quote], of text in ASCII. *)
Definition hex_char (d : Z) : ascii := ascii_of_nat (Z.to_nat (if d <? 10 then 48 + d else 87 + d)).
Definition quote_char (c : ascii) : string :=
  if (c =? "034")%char || (c =? "092")%char then String "092" (String c "")
  else if (c =? "007")%char then "\a" else if (c =? "008")%char then "\b" else if (c =? "009")%char then "\t"
  else if (c =? "010")%char then "\n" else if (c =? "011")%char then "\v" else if (c =? "012")%char then "\f"
  else if (c =? "013")%char then "\r"
  else if (byte_val c <? 32) || (byte_val c =? 127)
  then "\x" +:+ String (hex_char (byte_val c / 16)) (String (hex_char (byte_val c mod 16)) "")
  else String c "".
Definition Quote (s : string) : string := quoted (String.concat "" (map quote_char (list_ascii_of_string s))).

Definition export_line (name : string) : string :=
  "export const " +:+ name +:+ " = __m[" +:+ Quote name +:+ "];" +:+ String "010" "".

Inductive ResolveErr := NoInternalModule (specifier : string) | NoLoader | LoaderErr (e : LoadErr).

Definition internalModuleLoader {V} (modules : gmap string (InternalModule V)) (specifier : string) : result ResolveErr string :=
  match modules !! specifier with
  | None => Err (NoInternalModule specifier)
  | Some exports =>
      Ok ("const __m = globalThis[" +:+ Quote (internalGlobalName specifier) +:+ "];" +:+ String "010" ""
          +:+ String.concat "" (map export_line (sortedExportNames exports)))
  end.

(** [installInternalModules]: the object built for each module, under its name. *)
Definition installInternalModules {V} (g : gmap string (InternalModule V)) (modules : list (string * InternalModule V)) :
    gmap string (InternalModule V) :=
  fold_left (fun g sm => <[internalGlobalName sm.1 := sm.2]> g) modules g.

(** How newWorker composes them: the prefix resolver is there only for a pool with
    internal modules, every other specifier is the wrapped loader's. *)
Definition by_loader (loader : option (ModuleLoader LoadErr)) (specifier : string) : result ResolveErr string :=
  match wrapLoaderWithEnv loader with
  | Some load => map_err LoaderErr (load specifier)
  | None => Err NoLoader
  end.
Definition resolve_module {V} (internal : option (gmap string (InternalModule V))) (loader : option (ModuleLoader LoadErr))
    (specifier : string) : result ResolveErr string :=
  match internal with
  | Some modules => if has_prefix specifier "funcbox:" then internalModuleLoader modules specifier else by_loader loader specifier
  | None => by_loader loader specifier
  end.

(** ** internal.go: [AsyncExport]

    The state of one exported function: the last id, the goroutines that run, the
    results that wait, the promises whose interval is armed, and, for the
    specification, what each goroutine returned and how each promise was settled. *)
Section Async.
Context {V : Type}.

Definition outcome : Type := result string V.

Record Async := mkAsync {
  as_nextID : Z;
  as_running : list Z;
  as_results : gmap Z outcome;
  as_armed : list Z;
  as_returned : list (Z * outcome);
  as_settled : list (Z * outcome)
}.
Definition new_async : Async := mkAsync 0 [] ∅ [] [] [].

(** [float64(id)], for a positive id: rounded to 53 bits, ties to even. *)
Definition to_float (z : Z) : Z :=
  if z <? 2 ^ 53 then z
  else
    let k := Z.log2 z - 52 in
    let q := z / 2 ^ k in
    let r := z mod 2 ^ k in
    let half := 2 ^ (k - 1) in
    (if (half <? r) || ((r =? half) && Z.odd q) then q + 1 else q) * 2 ^ k.

(** The call of the wrapper: [kick], and the interval that polls its id. *)
Definition kick (s : Async) : Async :=
  let id := as_nextID s + 1 in
  mkAsync id (id :: as_running s) (as_results s) (to_float id :: as_armed s) (as_returned s) (as_settled s).

(** The goroutine of a call returns. *)
Definition finish (s : Async) (id : Z) (o : outcome) : Async :=
  mkAsync (as_nextID s) (List.filter (fun x => negb (x =? id)) (as_running s)) (<[id := o]> (as_results s)) (as_armed s)
    ((id, o) :: as_returned s) (as_settled s).

(** [poll]: what it answers, and the results after it. *)
Definition poll (s : Async) (id : Z) : option outcome * gmap Z outcome :=
  match as_results s !! id with
  | Some o => (Some o, delete id (as_results s))
  | None => (None, as_results s)
  end.

(** One turn of the interval of a promise. *)
Definition tick (s : Async) (id : Z) : Async :=
  match poll s id with
  | (None, _) => s
  | (Some o, results) =>
      mkAsync (as_nextID s) (as_running s) results (List.filter (fun x => negb (x =? id)) (as_armed s)) (as_returned s)
        ((id, o) :: as_settled s)
  end.

(** The end of a request: the loop of the instance drops its timers. *)
Definition reset (s : Async) : Async :=
  mkAsync (as_nextID s) (as_running s) (as_results s) [] (as_returned s) (as_settled s).

Inductive async_step : Async -> Async -> Prop :=
| AsyncKick s : async_step s (kick s)
| AsyncFinish s id o : id ∈ as_running s -> async_step s (finish s id o)
| AsyncTick s id : id ∈ as_armed s -> async_step s (tick s id)
| AsyncReset s : async_step s (reset s).

Definition async_run : Async -> Async -> Prop := rtc async_step.

(** *** Invariant *)

Lemma fst_unique {K A} (l : list (K * A)) k a b : NoDup (map fst l) -> (k, a) ∈ l -> (k, b) ∈ l -> a = b.
Proof.
  induction l as [|[i x] l IH]; intros Hn H1 H2; [by apply elem_of_nil in H1|]. simpl in Hn. apply NoDup_cons in Hn as [Hi Hn].
  assert (forall y, (i, y) ∈ l -> False) as Hno by (intros y Hy; apply Hi, list_elem_of_fmap; by exists (i, y)).
  apply elem_of_cons in H1, H2. destruct H1 as [E1|H1], H2 as [E2|H2]; [congruence| | |by apply IH].
  - injection E1 as -> ->. by apply Hno in H2.
  - injection E2 as -> ->. by apply Hno in H1.
Qed.

Record async_inv (s : Async) : Prop := {
  ai_next : 0 <= as_nextID s;
  ai_ids : as_running s ++ map fst (as_returned s) ≡ₚ map Z.of_nat (seq 1 (Z.to_nat (as_nextID s)));
  ai_results : forall id o, as_results s !! id = Some o -> (id, o) ∈ as_returned s;
  ai_settled : forall id o, (id, o) ∈ as_settled s -> (id, o) ∈ as_returned s /\ as_results s !! id = None;
  ai_once : NoDup (map fst (as_settled s));
  ai_kept : forall id o, (id, o) ∈ as_returned s -> as_results s !! id = Some o \/ (id, o) ∈ as_settled s;
  ai_armed : forall id, id ∈ as_armed s -> 1 <= id <= as_nextID s /\ id ∉ map fst (as_settled s);
  ai_armed_once : NoDup (as_armed s)
}.

Lemma to_float_exact z : z < 2 ^ 53 -> to_float z = z.
Proof. intros H. unfold to_float. by apply Z.ltb_lt in H as ->. Qed.

Lemma ids_range s id : async_inv s -> id ∈ as_running s ++ map fst (as_returned s) <-> 1 <= id <= as_nextID s.
Proof.
  intros Hs. rewrite (ai_ids s Hs), list_elem_of_In, in_map_iff. pose proof (ai_next s Hs). split.
  - intros (i & <- & Hi%in_seq). lia.
  - intros Hid. exists (Z.to_nat id). rewrite in_seq. lia.
Qed.

Lemma returned_range s id o : async_inv s -> (id, o) ∈ as_returned s -> 1 <= id <= as_nextID s.
Proof.
  intros Hs Hin. apply (ids_range s id Hs), elem_of_app. right. apply list_elem_of_fmap. by exists (id, o).
Qed.

Lemma ids_nodup s : async_inv s -> NoDup (as_running s ++ map fst (as_returned s)).
Proof.
  intros Hs. rewrite (ai_ids s Hs). apply NoDup_fmap_2; [|apply NoDup_seq]. intros a b. lia.
Qed.

Lemma kick_inv s : async_inv s -> as_nextID s + 1 < 2 ^ 53 -> async_inv (kick s).
Proof.
  intros Hs Hb. pose proof (ai_next s Hs) as Hn. pose proof (fun id o => returned_range s id o Hs) as Hr.
  pose proof (ai_settled s Hs) as Hset. destruct Hs. unfold kick. rewrite to_float_exact by done. split; simpl; try done.
  - lia.
  - replace (Z.to_nat (as_nextID s + 1)) with (Z.to_nat (as_nextID s) + 1)%nat by lia. rewrite seq_app, map_app.
    assert (map Z.of_nat (seq (1 + Z.to_nat (as_nextID s)) 1) = [as_nextID s + 1]) as -> by (cbn [seq map]; f_equal; lia).
    by rewrite <- ai_ids0, <- Permutation_cons_append.
  - intros id Hid. apply elem_of_cons in Hid as [->|Hid]; [|destruct (ai_armed0 id Hid); split; [lia|done]]. split; [lia|].
    intros ((id & o) & E & Hin)%list_elem_of_fmap. simpl in E. subst. apply Hset in Hin as [Hin _]. apply Hr in Hin. lia.
  - apply NoDup_cons. split; [|done]. intros Hid%ai_armed0. lia.
Qed.

Lemma filter_out_perm (l : list Z) id : NoDup l -> id ∈ l -> l ≡ₚ id :: List.filter (fun x => negb (x =? id)) l.
Proof.
  intros Hn Hin. induction l as [|a l IH]; [by apply elem_of_nil in Hin|]. apply NoDup_cons in Hn as [Ha Hn]. simpl.
  destruct (a =? id) eqn:E; simpl; bool_facts.
  - subst. f_equiv. assert (List.filter (fun x => negb (x =? id)) l = l) as ->; [|done].
    apply forallb_filter_id, forallb_forall. intros x Hx. apply negb_true_iff, Z.eqb_neq. intros ->. by apply Ha, list_elem_of_In.
  - apply elem_of_cons in Hin as [->|Hin]; [done|]. rewrite (IH Hn Hin) at 1. apply Permutation_swap.
Qed.

Lemma finish_inv s id o : async_inv s -> id ∈ as_running s -> async_inv (finish s id o).
Proof.
  intros Hs Hin. pose proof (ids_nodup s Hs) as Hn. pose proof (ai_results s Hs) as Hres. apply NoDup_app in Hn as (Hn & Hd & _).
  assert (forall x, (id, x) ∈ as_returned s -> False) as Hno.
  { intros x Hx. apply (Hd id Hin), list_elem_of_fmap. by exists (id, x). }
  destruct Hs. split; simpl; try done.
  - rewrite <- ai_ids0. rewrite (filter_out_perm (as_running s) id) at 2 by done. symmetry. apply Permutation_middle.
  - intros i x. rewrite lookup_insert. case_decide as E; [intros [= <-]; subst; apply elem_of_cons; by left|].
    intros Hi. apply elem_of_cons. right. by apply Hres.
  - intros i x Hi. apply ai_settled0 in Hi as [H1 H2]. split; [apply elem_of_cons; by right|]. rewrite lookup_insert_ne; [done|].
    intros ->. by apply Hno in H1.
  - intros i x Hi. apply elem_of_cons in Hi as [[= -> ->]|Hi]; [left; apply lookup_insert_eq|].
    rewrite lookup_insert_ne; [by apply ai_kept0|]. intros ->. by apply Hno in Hi.
Qed.

Lemma tick_inv s id : async_inv s -> id ∈ as_armed s -> async_inv (tick s id).
Proof.
  intros Hs Hin. unfold tick, poll. destruct (as_results s !! id) as [o|] eqn:Eo; [|done].
  pose proof (ai_armed s Hs id Hin) as [_ Hnew]. pose proof (filter_out_perm _ _ (ai_armed_once s Hs) Hin) as Hperm.
  pose proof (ai_armed_once s Hs) as Hao. rewrite Hperm in Hao. apply NoDup_cons in Hao as [Hout Hao].
  destruct Hs. split; simpl; try done.
  - intros i x [_ Hi]%lookup_delete_Some. by apply ai_results0.
  - intros i x Hi. rewrite lookup_delete_None. apply elem_of_cons in Hi as [[= -> ->]|Hi]; [split; [by apply ai_results0|by left]|].
    apply ai_settled0 in Hi as [H1 H2]. split; [done|by right].
  - by apply NoDup_cons.
  - intros i x Hi. destruct (decide (i = id)) as [->|Hne].
    + right. apply elem_of_cons. left. apply ai_kept0 in Hi as [Hi|Hi]; [congruence|]. apply ai_settled0 in Hi as [_ Hi]. congruence.
    + rewrite lookup_delete_ne by done. destruct (ai_kept0 i x Hi); [by left|right; apply elem_of_cons; by right].
  - intros i Hi. assert (i ∈ as_armed s) as Hi' by (rewrite Hperm; apply elem_of_cons; by right). destruct (ai_armed0 i Hi'). split; [done|].
    intros [->|Hx]%elem_of_cons; done.
Qed.

Lemma async_next s s' : async_step s s' -> as_nextID s <= as_nextID s'.
Proof. destruct 1; simpl; try lia. unfold tick. by destruct (poll s id) as [[o|] results]. Qed.

Lemma async_step_inv s s' : async_inv s -> async_step s s' -> as_nextID s' < 2 ^ 53 -> async_inv s'.
Proof.
  intros Hs Hstep Hb. destruct Hstep as [s|s id o Hin|s id Hin|s].
  - by apply kick_inv.
  - by apply finish_inv.
  - by apply tick_inv.
  - destruct Hs. split; simpl; try done; [by intros id Hid%elem_of_nil|constructor].
Qed.

Lemma async_inv_new : async_inv new_async.
Proof.
  split; simpl; [done|done|done| |constructor| | |constructor].
  - by intros id o Hin%elem_of_nil.
  - by intros id o Hin%elem_of_nil.
  - by intros id Hin%elem_of_nil.
Qed.

Lemma async_run_inv s : async_run new_async s -> as_nextID s < 2 ^ 53 -> async_inv s.
Proof.
  intros Hrun. assert (forall a b, async_run a b -> async_inv a -> as_nextID b < 2 ^ 53 -> async_inv b) as H.
  { clear. intros a b H Ha. revert b H. apply (rtc_ind_r (fun b => as_nextID b < 2 ^ 53 -> async_inv b)); [done|].
    intros x y _ Hxy IH Hb. eapply async_step_inv; [|exact Hxy|done]. apply IH. pose proof (async_next _ _ Hxy). lia. }
  apply (H _ _ Hrun async_inv_new).
Qed.

(** A result whose promise has lost its interval stays in the map for good. *)
Lemma orphan_stays s s' id o : async_inv s -> async_run s s' -> as_nextID s' < 2 ^ 53 ->
  as_results s !! id = Some o -> id ∉ as_armed s -> as_results s' !! id = Some o /\ id ∉ as_armed s'.
Proof.
  intros Hs Hrun. revert Hs. induction Hrun as [s|s s1 s' Hstep Hrun IH]; [done|]. intros Hs Hb Ho Hid.
  assert (as_nextID s1 < 2 ^ 53) as Hb1.
  { assert (as_nextID s1 <= as_nextID s'); [|lia]. clear -Hrun. induction Hrun; [lia|]. pose proof (async_next _ _ H). lia. }
  apply IH; [by eapply async_step_inv|done| |]; clear IH Hrun; destruct Hstep as [s|s i x Hin|s i Hin|s]; simpl in *; try done.
  - rewrite lookup_insert_ne; [done|]. intros ->. pose proof (ids_nodup s Hs) as (_ & Hd & _)%NoDup_app.
    apply (Hd id Hin), list_elem_of_fmap. exists (id, o). split; [done|]. by apply (ai_results s Hs).
  - unfold tick, poll. destruct (as_results s !! i) eqn:Ei; simpl; [|done]. rewrite lookup_delete_ne; [done|]. by intros ->.
  - rewrite to_float_exact by done. intros [->|Hx]%elem_of_cons; [|done]. apply (ai_results s Hs), (returned_range s _ _ Hs) in Ho. lia.
  - unfold tick, poll. destruct (as_results s !! i) eqn:Ei; simpl; [|done]. rewrite list_elem_of_In, filter_In, <- list_elem_of_In. tauto.
  - by intros Hx%elem_of_nil.
Qed.

(** C38. An asynchronous export keeps its promises. Under any interleaving of calls,
    returns of the goroutines, turns of the intervals and ends of requests, and as long
    as fewer than 2^53 calls were made: a promise is settled at most once, with what
    its own call returned; while its interval is armed its call runs, or its result
    waits and the next turn settles it; a turn before the call has returned changes
    nothing; and a call whose request has ended is never settled afterwards, though
    what it returns is kept for good. *)
Theorem async_settles_once s (Hrun : async_run new_async s) (Hb : as_nextID s < 2 ^ 53) :
  NoDup (map fst (as_settled s))
  /\ (forall id o, (id, o) ∈ as_settled s -> (id, o) ∈ as_returned s)
  /\ (forall id o o', (id, o) ∈ as_returned s -> (id, o') ∈ as_returned s -> o = o')
  /\ (forall id, id ∈ as_armed s ->
        (id ∈ as_running s /\ tick s id = s)
        \/ exists o, as_results s !! id = Some o /\ (id, o) ∈ as_settled (tick s id) /\ id ∉ as_armed (tick s id))
  /\ (forall id o s', as_results s !! id = Some o -> id ∉ as_armed s -> async_run s s' -> as_nextID s' < 2 ^ 53 ->
        as_results s' !! id = Some o /\ id ∉ map fst (as_settled s')).
Proof.
  pose proof (async_run_inv s Hrun Hb) as Hs. pose proof (ids_nodup s Hs) as Hn. apply NoDup_app in Hn as (_ & Hd & Hret).
  split_and!.
  - apply (ai_once s Hs).
  - intros id o Hin. by apply (ai_settled s Hs).
  - intros id o o' H1 H2. by apply (fst_unique (as_returned s) id).
  - intros id Hid. destruct (ai_armed s Hs id Hid) as [Hrange Hnew]. apply (ids_range s id Hs), elem_of_app in Hrange as [Hrun'|Hret'].
    + left. split; [done|]. unfold tick, poll. destruct (as_results s !! id) as [o|] eqn:Eo; [|done].
      apply (ai_results s Hs) in Eo. exfalso. apply (Hd id Hrun'), list_elem_of_fmap. by exists (id, o).
    + right. apply list_elem_of_fmap in Hret' as ((i & o) & E & Hin). simpl in E. subst i. exists o.
      assert (as_results s !! id = Some o) as Eo.
      { destruct (ai_kept s Hs id o Hin) as [|Hx]; [done|]. exfalso. apply Hnew, list_elem_of_fmap. by exists (id, o). }
      split; [done|]. unfold tick, poll. rewrite Eo. simpl. split; [apply elem_of_cons; by left|].
      rewrite list_elem_of_In, filter_In. rewrite Z.eqb_refl. by intros [_ H].
  - intros id o s' Ho Hid Hrun' Hb'. destruct (orphan_stays s s' id o Hs Hrun' Hb' Ho Hid) as [Ho' _]. split; [done|].
    assert (async_inv s') as Hs' by (apply async_run_inv; [by etrans|done]).
    intros ((i & x) & E & Hin)%list_elem_of_fmap. simpl in E. subst i. apply (ai_settled s' Hs') in Hin as [_ Hin]. congruence.
Qed.
End Async.

Definition sample_async : Async := tick (finish (kick new_async) 1 (Ok 7)) 1.

Lemma async_settles_once_witness :
  exists s : @Async Z, async_run new_async s /\ as_settled s = [(1, Ok 7)] /\ NoDup (map fst (as_settled s)).
Proof.
  exists sample_async.
  assert (async_run new_async sample_async) as Hrun.
  { eapply rtc_l; [apply AsyncKick|]. eapply rtc_l; [apply (AsyncFinish _ 1 (Ok 7)); by left|].
    eapply rtc_l; [apply (AsyncTick _ 1); by left|apply rtc_refl]. }
  split_and!; [done|by vm_compute|].
  exact (proj1 (async_settles_once sample_async Hrun ltac:(by vm_compute))).
Defined.

(** A request that ends while its call runs: what the call returns is never taken
    out of the map again. *)
Example result_is_left : as_results (finish (reset (kick new_async)) 1 (Ok 7)) !! 1 = Some (Ok 7)
  /\ as_armed (finish (reset (kick new_async)) 1 (Ok 7)) = [].
Proof. by vm_compute. Qed.

(** ** The modules *)

(** Every module of a function is its source behind the preamble, whichever way the
    engine reads it: from the loader, or, for a module file of its own under Node
    compatibility, from the file system, with the size the file says it has. Files of
    dependencies and directories are as they were, and errors are the inner ones. *)
Lemma loader_sees_env {V} (internal : option (gmap string (InternalModule V))) bundle specifier text :
  internal = None \/ has_prefix specifier "funcbox:" = false ->
  resolve_module internal (Some (NewLoader bundle)) specifier = Ok text
  <-> exists src, text = envPreamble +:+ src /\ NewLoader bundle specifier = Ok src.
Proof.
  intros H. assert (resolve_module internal (Some (NewLoader bundle)) specifier = by_loader (Some (NewLoader bundle)) specifier) as ->.
  { unfold resolve_module. destruct internal; [|done]. destruct H as [H|H]; [done|by rewrite H]. }
  unfold by_loader, wrapLoaderWithEnv. cbn [option_map]. destruct (NewLoader bundle specifier) as [src|e]; cbn [rbind map_err].
  - split; [intros Ht; injection Ht as Ht; by exists src|intros (x & Ht & Hx); injection Hx as Hx; by subst].
  - split; [done|by intros (x & _ & Hx)].
Qed.

Lemma file_sees_env {E} (inner : string -> result E (File E)) name f :
  envInjectingFS_Open inner name = Ok f ->
  exists f0, inner name = Ok f0
    /\ (f = f0 /\ (shouldInjectEnvPath name = false \/ exists i, f_Stat f0 = Ok i /\ fi_IsDir i = true)
        \/ exists i data, f_Stat f0 = Ok i /\ f_Read f0 = Ok data /\ f_Close f0 = None /\ shouldInjectEnvPath name = true
             /\ fi_IsDir i = false /\ f_Read f = Ok (envPreamble +:+ data) /\ f_Close f = None
             /\ f_Stat f = Ok (mkFileInfo (path_Base name) (str_len envPreamble + str_len data) (fi_Mode i) (fi_ModTime i) false)).
Proof.
  unfold envInjectingFS_Open. intros H. apply rbind_ok in H as (f0 & H0 & H). exists f0. split; [done|].
  destruct (shouldInjectEnvPath name) eqn:En; cbn [negb] in H; [|injection H as <-; left; auto].
  apply rbind_ok in H as (i & Hi & H). destruct (fi_IsDir i) eqn:Ed; [injection H as <-; left; eauto|].
  apply rbind_ok in H as (data & Hd & H). destruct (f_Close f0) eqn:Ec; [done|].
  assert (f = envInjectedFile name (envPreamble +:+ data) i) as -> by congruence. clear H. right. exists i, data.
  split_and!; try done. unfold envInjectedFile. cbn [f_Stat]. unfold str_len. by rewrite str_length_app, Nat2Z.inj_add.
Qed.

(** A directory whose name only ends in [node_modules] counts as one. *)
Example own_directory_skipped :
  shouldInjectEnvPath "src/index.mjs" = true /\ shouldInjectEnvPath "my_node_modules/index.mjs" = false.
Proof. by vm_compute. Qed.

(** A module of the namespace is found exactly when it is configured, and its source
    exports each of its names once, in order. *)
Lemma sorted_export_names {V} (exports : InternalModule V) :
  Sorted str_le (sortedExportNames exports) /\ NoDup (sortedExportNames exports)
  /\ forall name, name ∈ sortedExportNames exports <-> is_Some (exports !! name).
Proof.
  unfold sortedExportNames, InternalModule in *. split_and!; [apply Sorted_merge_sort; apply _|rewrite merge_sort_Permutation; apply NoDup_fst_map_to_list|].
  intros name. rewrite merge_sort_Permutation, list_elem_of_fmap. split.
  - intros ((k & v) & -> & Hin%elem_of_map_to_list). by exists v.
  - intros [v Hv]. exists (name, v). split; [done|]. by apply elem_of_map_to_list.
Qed.

Lemma internal_found {V} (modules : gmap string (InternalModule V)) loader specifier : has_prefix specifier "funcbox:" = true ->
  is_ok (resolve_module (Some modules) loader specifier) = true <-> is_Some (modules !! specifier).
Proof.
  intros H. unfold resolve_module. rewrite H. unfold internalModuleLoader. destruct (modules !! specifier) eqn:Em; simpl.
  - split; [by eexists|done].
  - split; [done|by intros [? ?]].
Qed.

Example internal_module :
  internalModuleLoader {[ "funcbox:internal" := {[ "ping" := tt ]} ]} "funcbox:internal"
  = Ok ("const __m = globalThis[" +:+ quoted "__funcbox_internal__funcbox:internal" +:+ "];" +:+ String "010"
        ("export const ping = __m[" +:+ quoted "ping" +:+ "];" +:+ String "010" "")).
Proof. by vm_compute. Qed.
