(* ===== verification/Service.v ===== *)
(** * Service: deploying and managing functions

    Models src/server/internal/service: errors.go, functions.go and the whole of
    deploy.go, as programs over the store's world. Bundle bytes, YAML, JSON text
    and the cipher for variables come in through the type classes of the files
    that use them. *)

From stdpp Require Import sorting.
From S2P Require Import Prelude GoNum Policy Manifest Bundle Types Authz Settings Store Digest.
From S2P Require Import NodeDetect.

(** ** service/errors.go *)

(** The error an [*Error] wraps. *)
Inductive Cause :=
| CStore (e : StoreErr)
| CManifest (e : ManifestErr)
| CBundle (e : BundleErr)
| CSettings (e : SettingsErr)
| CEncode.

(** A message: literal text, the text of the wrapped error, or a format with its
    arguments. *)
Inductive Msg :=
| Text (s : string)
| OfCause
| Fmt (format : string) (args : list string).

Record Error := newError { Status : Z; Code : string; Message : Msg; Unwrap : option Cause }.

Definition BadRequest (code : string) (m : Msg) (e : option Cause) : Error := newError 400 code m e.
Definition TooLarge (m : Msg) (e : option Cause) : Error := newError 413 "too_large" m e.
Definition NotFoundErr (m : Msg) (e : option Cause) : Error := newError 404 "not_found" m e.
Definition Forbidden (m : Msg) : Error := newError 403 "forbidden" m None.
Definition Unauthorized (m : Msg) : Error := newError 401 "unauthorized" m None.
Definition ConflictErr (m : Msg) (e : option Cause) : Error := newError 409 "conflict" m e.
Definition FunctionNameTaken (e : option Cause) : Error :=
  newError 409 "function_name_taken" (Text "function name is already taken") e.
Definition FunctionLimitExceeded (current limit : Z) : Error :=
  newError 403 "function_limit_exceeded"
    (Fmt "function limit reached (%d/%d); delete an existing function or ask an organization administrator to raise the limit"
       [itoa current; itoa limit]) None.
Definition Internal (m : string) (e : option Cause) : Error := newError 500 "internal" (Text m) e.

Definition internal (m : string) (e : StoreErr) : Error := Internal m (Some (CStore e)).

(** ** Parameters of a deployment *)

Record Deployer := mkDeployer { d_Runtime : bool }.

Record DeployParams := mkDeployParams {
  dp_Bundle : string;
  dp_Owner : string;
  dp_Name : string;
  dp_Note : string;
  dp_DryRun : bool;
  dp_Actor : option User
}.

Record DeployResult := mkDeployResult {
  dr_DryRun : bool;
  dr_Function : option Function;
  dr_Version : option FunctionVersion;
  dr_Manifest : Normalized;
  dr_Warnings : list string
}.

(** AES-256-GCM under a key, with a fresh nonce. *)
Class Cipher := {
  seal : string -> string -> string -> option string;
  unseal : string -> string -> option string;
  unseal_seal key nonce plain c : seal key nonce plain = Some c -> unseal key c = Some plain
}.

Section Service.
Context {U : UnicodeTables} {F : FloatToInt} {Y : YamlDecoder} {A : ArchiveCodec} {J : JsonText}
  {I : IdGen}.

Definition BundleBlobKey (sha256Hex : string) : string :=
  "bundles/sha256/" +:+ sha256Hex +:+ ".tar.gz".

Definition MaxCompressedBundleBytes : Z := Z.shiftl 5 20.

(** [blob.Store.Put] may fail like any backend call; it replaces the whole
    object. *)
Definition Blob_Put (key data : string) : M StoreErr unit :=
  fun w =>
    match faults w with
    | true :: rest =>
        (Err ErrBackend, mkWorld (tbl w) (blobs w) (invalidated w) (now w) (ids w) rest)
    | fs => (Ok tt, mkWorld (tbl w) (<[key := data]> (blobs w)) (invalidated w) (now w) (ids w)
                      (List.tl fs))
    end.

(** [Runtime.Invalidate]. *)
Definition Runtime_Invalidate {E} (id : string) : M E unit :=
  fun w => (Ok tt, mkWorld (tbl w) (blobs w) (invalidated w ++ [id]) (now w) (ids w) (faults w)).

(** [encoding/json] on the normalized manifest. *)
Definition normalized_json (n : Normalized) : json :=
  JObj (opt_str "source" (n_Source n) ++ [("name", JStr (n_Name n))] ++ opt_str "owner" (n_Owner n)
    ++ opt_str "main" (n_Main n) ++ opt_str "description" (n_Description n)
    ++ opt_str "timeout" (n_Timeout n) ++ opt_int "memory" (n_Memory n)
    ++ [("compat", JObj [("nodejs", JBool (n_Nodejs n))]);
        ("permissions", JObj [("fetch", JObj ([("mode", JStr (n_Mode (n_Fetch n)))]
                                              ++ opt_strs "allow" (n_Allow (n_Fetch n))))])]
    ++ opt_strs "env" (n_Env n) ++ opt_str "visibility" (n_Visibility n)).

(** ** deploy.go: mapping errors *)

Definition mapBundleErr (e : BundleErr) : Error :=
  match e with
  | ErrTooLarge => TooLarge (Text "bundle exceeds the unpacked size limit") (Some (CBundle e))
  | ErrTooManyFiles => BadRequest "too_many_files" OfCause (Some (CBundle e))
  | ErrBadPath => BadRequest "bad_path" OfCause (Some (CBundle e))
  | ErrBadEntryType => BadRequest "bad_entry_type" OfCause (Some (CBundle e))
  | _ => BadRequest "bad_bundle" OfCause (Some (CBundle e))
  end.

Definition manifest_code (e : ManifestErr) : string :=
  match e with
  | ErrReservedName => "reserved_name"
  | ErrInvalidName | ErrInvalidOwner => "invalid_name"
  | ErrDescriptionTooLong => "description_too_long"
  | ErrInvalidEnv => "invalid_env"
  | ErrParse => "manifest_parse_error"
  | ErrInvalidTimeout => "invalid_timeout"
  | ErrInvalidMemory => "invalid_memory"
  | ErrInvalidFetchPolicy => "invalid_fetch_policy"
  | ErrInvalidVisibility => "invalid_visibility"
  | _ => "invalid_manifest"
  end.

Definition mapManifestErr (e : ManifestErr) : Error :=
  BadRequest (manifest_code e) OfCause (Some (CManifest e)).

(** ** deploy.go: owners, settings, authorization *)

(** [ByID]-style lookups whose error is reported as not found or internal. *)
Definition lookup_or {B} (missing : Error) (failed : string) (m : M StoreErr B) : M Error B :=
  or_err (fun e => match e with ErrNotFound => missing | e => internal failed e end) m.

Definition resolveOwner (owner : string) : M Error (OwnerType * string) :=
  do! h <- attempt (PublicUserIDs_ByUserID owner);
  match h with
  | Ok p => ret (OwnerTypeUser, p_InternalUserID p)
  | Err ErrNotFound =>
      do! ws <- attempt (Workspaces_ByID owner);
      match ws with
      | Ok x => ret (OwnerTypeWorkspace, w_ID x)
      | Err ErrNotFound =>
          match ValidateUserID owner with
          | Err e => throw (mapManifestErr e)
          | Ok _ => throw (NotFoundErr (Text "owner not found") (Some (CStore ErrNotFound)))
          end
      | Err e => throw (internal "failed to look up workspace" e)
      end
  | Err e => throw (internal "failed to look up User ID" e)
  end.

Definition loadOrgSettings : M Error Org :=
  do! r <- attempt Organizations_Get;
  match r with
  | Ok o =>
      match ParseOrg (o_Settings o) with
      | Ok s => ret s
      | Err e => throw (Internal "failed to parse organization settings" (Some (CSettings e)))
      end
  | Err ErrNotFound => ret DefaultOrg
  | Err e => throw (internal "failed to load organization settings" e)
  end.

Definition workspaceRole (wsID userID : string) : M StoreErr (option Role) :=
  do! members <- Workspaces_ListMembers wsID;
  ret (option_map wm_Role (List.find (fun m => wm_UserID m == userID) members)).

Definition actor_of (u : User) : Actor := mkActor (u_ID u) (u_Role u).

(** The workspace an owner names, its settings and the actor's role in it. *)
Definition load_workspace (wsID : string) (missing : Error) (actor : User)
    : M Error (WorkspaceSettings * option Role) :=
  do! x <- lookup_or missing "failed to load workspace" (Workspaces_ByID wsID);
  do! s <- lift (map_err (fun e => Internal "failed to parse workspace settings" (Some (CSettings e)))
                   (ParseWorkspace (w_Settings x)));
  do! role <- or_err (internal "failed to load workspace membership") (workspaceRole wsID (u_ID actor));
  ret (s, role).

Definition owner_workspace_missing : Error :=
  NotFoundErr (Text "owner workspace not found") (Some (CStore ErrNotFound)).

Definition authorizeDeploy (actor : User) (ot : OwnerType) (oid : string) (orgSet : Org)
    : M Error unit :=
  match ot with
  | OwnerTypeUser =>
      if CanDeployPersonal (actor_of actor) oid (org_AllowUserFunctions orgSet) then ret tt
      else throw (Forbidden (Text "not permitted to deploy as this user"))
  | OwnerTypeWorkspace =>
      do! x <- load_workspace oid owner_workspace_missing actor;
      if CanDeployToWorkspace (actor_of actor) x.2 (ws_MemberCanDeploy x.1) then ret tt
      else throw (Forbidden (Text "not permitted to deploy to this workspace"))
  end.

Definition checkFunctionLimit (ot : OwnerType) (oid actorID : string) (orgSet : Org)
    : M Error (Z * Z) :=
  match ot with
  | OwnerTypeUser =>
      if MaxFunctionsPerUser orgSet <=? 0 then ret (0, 0)
      else
        do! n <- or_err (internal "failed to count personal functions")
                   (Functions_CountByOwner OwnerTypeUser oid);
        ret (n, MaxFunctionsPerUser orgSet)
  | OwnerTypeWorkspace =>
      do! x <- or_err (internal "failed to load workspace") (Workspaces_ByID oid);
      match ParseWorkspace (w_Settings x) with
      | Err e => throw (Internal "failed to parse workspace settings" (Some (CSettings e)))
      | Ok s =>
          if MaxFunctionsPerMember s <=? 0 then ret (0, 0)
          else
            do! n <- or_err (internal "failed to count workspace functions")
                       (Functions_CountByWorkspaceAndCreator oid actorID);
            ret (n, MaxFunctionsPerMember s)
      end
  end.

(** [None] is the empty warning. *)
Definition functionLimitDryRunWarning (owner name actorID : string) (orgSet : Org)
    : M Error (option string) :=
  do! o <- attempt (resolveOwner owner);
  match o with
  | Err _ => ret None
  | Ok (ot, oid) =>
      do! f <- attempt (Functions_ByName name);
      match f with
      | Err ErrNotFound =>
          do! c <- attempt (checkFunctionLimit ot oid actorID orgSet);
          match c with
          | Err _ => ret None
          | Ok (current, limit) =>
              if (limit <=? 0) || (current <? limit) then ret None
              else ret (Some ("this owner has reached its function limit (" +:+ itoa current +:+ "/"
                     +:+ itoa limit +:+ "); creating a new function would be rejected"))
          end
      | _ => ret None
      end
  end.

(** ** deploy.go: warnings and the checks before any write *)

Definition buildWarnings (m : Manifest) (orgSet : Org) : list string :=
  (if Source m == "" then
     ["no funcbox.yaml/funcbox.json found; using all-default settings (main resolved from index.js/index.mjs, fetch denied, no compat.nodejs)"]
   else [])
  ++ (if (FetchMode_String (fetch_mode (Fetch (m_Permissions m))) == "allowlist")
         && bool_decide (fetch_allow (Fetch (m_Permissions m)) = []) then
        ["permissions.fetch.mode is " +:+ quoted "allowlist"
         +:+ " with an empty allow list, which behaves the same as " +:+ quoted "deny"]
      else [])
  ++ (if Nodejs (m_Compat m) && negb (AllowNodejsCompat orgSet) then
        ["compat.nodejs is set, but this organization has allow_nodejs_compat disabled; Node.js-compatible module resolution will be OFF at runtime regardless of this manifest"]
      else []).

Definition with_name (m : Manifest) (name : string) : Manifest :=
  mkManifest (Source m) name (Owner m) (Main m) (Description m) (Timeout m) (Memory m) (m_Compat m)
    (m_Permissions m) (Env m) (m_Visibility m).
Definition with_main (m : Manifest) (main : string) : Manifest :=
  mkManifest (Source m) (Name m) (Owner m) main (Description m) (Timeout m) (Memory m) (m_Compat m)
    (m_Permissions m) (Env m) (m_Visibility m).

(** The name a deployment uses: the manifest's and the request's must agree. *)
Definition reconcile_name (declared requested : string) : result Error string :=
  if negb (declared == "") && negb (requested == "") && negb (declared == requested) then
    Err (BadRequest "name_mismatch"
           (Fmt "manifest declares name %q but the request specified %q" [declared; requested]) None)
  else
    let name := if declared == "" then requested else declared in
    guard! negb (name == "") else BadRequest "missing_name"
      (Text ("function name is required (set it in the manifest's " +:+ quoted "name"
             +:+ " field or the deploy request's " +:+ quoted "name" +:+ " form field)")) None
    in Ok name.

(** While open mode is on, workspace visibility is refused. *)
Definition check_open_mode (m : Manifest) (orgSet : Org) : result Error unit :=
  if OpenMode orgSet then
    let declared := match m_Visibility m with
                    | Some v => Visibility_String v
                    | None => DefaultVisibility orgSet
                    end in
    match ParseVisibility declared with
    | Some VisibilityWorkspace => Err (BadRequest "workspace_visibility_disabled"
        (Text "visibility: workspace is not available while this organization has open mode enabled (only public and org are)") None)
    | _ => Ok tt
    end
  else Ok tt.

Definition check_node_imports (m : Manifest) (files : gmap string string) : result Error unit :=
  if Nodejs (m_Compat m) then Ok tt
  else
    match detectNodeCoreImports files with
    | [] => Ok tt
    | imports => Err (BadRequest "node_core_import"
        (Fmt "function imports node core modules (%s); enable compat.nodejs in funcbox.yaml to use them"
           [join_with ", " imports]) None)
    end.

Definition sum_sizes (files : gmap string string) : Z :=
  fold_right (fun f acc => str_len f.2 + acc) 0 (map_to_list files).

(** Everything between loading the settings and the dry-run return: the checked
    manifest and the files. *)
Definition deploy_checks (p : DeployParams) (orgSet : Org)
    : result Error (Manifest * gmap string string) :=
  let! files := map_err mapBundleErr (Unpack (dp_Bundle p)) in
  let! m := map_err mapManifestErr (Parse files) in
  let! name := reconcile_name (Name m) (dp_Name p) in
  let m := with_name m name in
  let! _ := map_err mapManifestErr (Validate (Some m)) in
  let! _ := check_open_mode m orgSet in
  let! main := map_err (fun e => BadRequest "main_not_found" OfCause (Some (CManifest e)))
                 (ResolveMain (Main m) files) in
  let m := with_main m main in
  let! _ := check_node_imports m files in
  Ok (m, files).

(** ** deploy.go: claiming the function and writing the version *)

(** Quota, then the atomic creation. *)
Definition create_function (actor : User) (ot : OwnerType) (oid name description : string)
    (orgSet : Org) : M Error Function :=
  do! cl <- checkFunctionLimit ot oid (u_ID actor) orgSet;
  let '(current, limit) := cl in
  if (0 <? limit) && (limit <=? current) then throw (FunctionLimitExceeded current limit)
  else
    do! r <- attempt (Functions_CreateWithinLimit
               (mkFunction "" ot oid name description None (Some (u_ID actor)) 0 0) limit);
    match r with
    | Ok f => ret f
    | Err ErrFunctionLimitReached =>
        do! again <- checkFunctionLimit ot oid (u_ID actor) orgSet;
        throw (FunctionLimitExceeded again.1 limit)
    | Err ErrConflict => throw (FunctionNameTaken (Some (CStore ErrConflict)))
    | Err e => throw (internal "failed to create function" e)
    end.

Definition with_description (f : Function) (d : string) : Function :=
  mkFunction (f_ID f) (f_OwnerType f) (f_OwnerID f) (f_Name f) d (f_ActiveVersionID f)
    (f_CreatedBy f) (f_CreatedAt f) (f_UpdatedAt f).
Definition with_active (f : Function) (v : string) : Function :=
  mkFunction (f_ID f) (f_OwnerType f) (f_OwnerID f) (f_Name f) (f_Description f) (Some v)
    (f_CreatedBy f) (f_CreatedAt f) (f_UpdatedAt f).

(** The function row: created, refused because the name is someone else's, or
    reused with its description brought up to date. *)
Definition claim_function (actor : User) (ot : OwnerType) (oid name description : string)
    (orgSet : Org) : M Error Function :=
  do! r <- attempt (Functions_ByName name);
  match r with
  | Err ErrNotFound => create_function actor ot oid name description orgSet
  | Err e => throw (internal "failed to look up function" e)
  | Ok f =>
      if negb (same_owner ot oid f) then throw (FunctionNameTaken (Some (CStore ErrConflict)))
      else if negb (f_Description f == description) then
        or_err (internal "failed to update function") (Functions_Update (with_description f description))
      else ret f
  end.

Definition bundleFilesMeta (files : gmap string string) : list (string * Z) :=
  map (fun name => (name, str_len (default "" (files !! name))))
    (merge_sort str_le (map fst (map_to_list files))).

Definition new_version (p : DeployParams) (actor : User) (f : Function) (m : Manifest)
    (files : gmap string string) (packed : string) : FunctionVersion :=
  mkFunctionVersion "" (f_ID f) (json_print (normalized_json (Manifest_Normalized m))) (Main m)
    (sha256Hex packed) (str_len packed) (sum_sizes files) (bundleFilesMeta files) (u_ID actor)
    (dp_Note p) 0 0.

(** Version, activation, invalidation. *)
Definition publish (d : Deployer) (f : Function) (v : FunctionVersion)
    : M Error (Function * FunctionVersion) :=
  do! v <- or_err (internal "failed to create version") (Functions_CreateVersion v);
  run! or_err (internal "failed to activate version") (Store_ActivateVersion (f_ID f) (v_ID v));
  run! match f_ActiveVersionID f with
       | Some old => if d_Runtime d then Runtime_Invalidate old else ret tt
       | None => ret tt
       end;
  ret (with_active f (v_ID v), v).

(** The writes, in the code's order: the blob, the function row, the version, the
    activation. *)
Definition deploy_commit (d : Deployer) (p : DeployParams) (actor : User) (ot : OwnerType)
    (oid : string) (orgSet : Org) (m : Manifest) (files : gmap string string) (packed : string)
    : M Error DeployResult :=
  run! or_err (internal "failed to store bundle")
         (Blob_Put (BundleBlobKey (sha256Hex packed)) packed);
  do! f <- claim_function actor ot oid (Name m) (Description m) orgSet;
  do! fv <- publish d f (new_version p actor f m files packed);
  ret (mkDeployResult false (Some fv.1) (Some fv.2) (Manifest_Normalized m)
         (buildWarnings m orgSet)).

(** A real deployment, from the repacked bundle on. *)
Definition deploy_write (d : Deployer) (p : DeployParams) (actor : User) (orgSet : Org)
    (m : Manifest) (files : gmap string string) : M Error DeployResult :=
  match Pack (map fst (map_to_list files)) files with
  | None => throw (Internal "failed to repack bundle" (Some CEncode))
  | Some packed =>
      do! o <- resolveOwner (dp_Owner p);
      let '(ot, oid) := o in
      if OpenMode orgSet && bool_decide (ot = OwnerTypeWorkspace) then
        throw (BadRequest "workspace_owner_disabled"
          (Text "deploying to a workspace-scoped owner is not available while this organization has open mode enabled") None)
      else
        run! authorizeDeploy actor ot oid orgSet;
        deploy_commit d p actor ot oid orgSet m files packed
  end.

Definition deploy_dry (p : DeployParams) (orgSet : Org) (m : Manifest) : M Error DeployResult :=
  do! warn <- match dp_Actor p with
              | Some actor => functionLimitDryRunWarning (dp_Owner p) (Name m) (u_ID actor) orgSet
              | None => ret None
              end;
  ret (mkDeployResult true None None (Manifest_Normalized m)
         (buildWarnings m orgSet ++ match warn with Some x => [x] | None => [] end)).

Definition Deploy (d : Deployer) (p : DeployParams) : M Error DeployResult :=
  if dp_Owner p == "" then
    throw (BadRequest "missing_owner" (Text "owner is required") None)
  else if negb (dp_DryRun p) && bool_decide (dp_Actor p = None) then
    throw (Unauthorized (Text "authentication is required to deploy"))
  else
    run! match ValidateUserID (dp_Owner p) with
         | Err e => if dp_Owner p == to_lower (dp_Owner p) then throw (mapManifestErr e) else ret tt
         | Ok _ => ret tt
         end;
    do! orgSet <- loadOrgSettings;
    do! mf <- lift (deploy_checks p orgSet);
    let '(m, files) := mf in
    if dp_DryRun p then deploy_dry p orgSet m
    else match dp_Actor p with
         | Some actor => deploy_write d p actor orgSet m files
         | None => throw (Unauthorized (Text "authentication is required to deploy"))
         end.
End Service.
