(* ===== verification/Functions.v ===== *)
(** * Functions: lookup, rollback, deletion and variables

    Models src/server/internal/service/functions.go. A handler's function row is
    the one it loaded; the definitions take it as an argument, as the code does. *)

From S2P Require Import Prelude Types Authz Settings Store Service.

Section Functions.
Context {U : UnicodeTables} {J : JsonText} {I : IdGen} {C : Cipher}.

Definition ResolveOwner (owner : string) : M Error (OwnerType * string) :=
  do! h <- attempt (PublicUserIDs_ByUserID owner);
  match h with
  | Ok p => ret (OwnerTypeUser, p_InternalUserID p)
  | Err ErrNotFound =>
      do! x <- lookup_or (NotFoundErr (Text "owner not found") (Some (CStore ErrNotFound)))
                 "failed to look up workspace" (Workspaces_ByID owner);
      ret (OwnerTypeWorkspace, w_ID x)
  | Err e => throw (internal "failed to look up User ID" e)
  end.

Definition Resolve (owner name : string) : M Error Function :=
  do! o <- ResolveOwner owner;
  lookup_or (NotFoundErr (Text "function not found") (Some (CStore ErrNotFound)))
    "failed to look up function" (Functions_ByOwnerAndName o.1 o.2 name).

Definition OwnerSelector (f : Function) : M Error string :=
  match f_OwnerType f with
  | OwnerTypeWorkspace =>
      run! lookup_or (NotFoundErr (Text "workspace owner not found") (Some (CStore ErrNotFound)))
             "failed to resolve workspace owner" (Workspaces_ByID (f_OwnerID f));
      ret (f_OwnerID f)
  | OwnerTypeUser =>
      do! p <- lookup_or (NotFoundErr (Text "User ID not found") (Some (CStore ErrNotFound)))
                 "failed to resolve User ID" (PublicUserIDs_ByOwner (f_OwnerID f));
      ret (p_UserID p)
  end.

Definition List_ (userID : string) : M Error (list Function) :=
  or_err (internal "failed to list functions") (Functions_ListVisibleTo userID).

Definition ListAll : M Error (list Function) :=
  or_err (internal "failed to list functions") Functions_ListAll.

Definition CanView (actor : User) (ot : OwnerType) (oid : string) : M StoreErr bool :=
  if IsOrgAdmin (actor_of actor) then ret true
  else
    match ot with
    | OwnerTypeUser => ret (u_ID actor == oid)
    | OwnerTypeWorkspace =>
        do! role <- workspaceRole oid (u_ID actor);
        ret (match role with Some _ => true | None => false end)
    end.

(** [errors.Is(err, store.ErrNotFound)] looks through the wrapped cause. *)
Definition is_not_found (e : Error) : bool :=
  match Unwrap e with Some (CStore ErrNotFound) => true | _ => false end.

Definition ListByOwner (owner : string) : M Error (list Function) :=
  do! o <- or_err (fun e =>
             if is_not_found e then NotFoundErr (Text "owner not found") (Unwrap e)
             else Internal "failed to look up owner" (Unwrap e)) (ResolveOwner owner);
  or_err (internal "failed to list functions") (Functions_ListByOwner o.1 o.2).

Definition ActiveVersion (f : Function) : M Error FunctionVersion :=
  match f_ActiveVersionID f with
  | None => throw (NotFoundErr (Text "function has no active version") None)
  | Some v => lookup_or (NotFoundErr (Text "active version not found") (Some (CStore ErrNotFound)))
                "failed to look up active version" (Functions_Version v)
  end.

Definition ListVersions (f : Function) (limit : Z) : M Error (list FunctionVersion) :=
  or_err (internal "failed to list versions") (Functions_ListVersions (f_ID f) limit).

Definition Activate (d : Deployer) (f : Function) (versionID : string) : M Error Function :=
  run! lookup_or (NotFoundErr (Text "version not found for this function") (Some (CStore ErrNotFound)))
         "failed to activate version" (Store_ActivateVersion (f_ID f) versionID);
  run! match f_ActiveVersionID f with
       | Some old => if d_Runtime d && negb (old == versionID) then Runtime_Invalidate old else ret tt
       | None => ret tt
       end;
  ret (with_active f versionID).

Definition Delete (d : Deployer) (f : Function) : M Error unit :=
  run! match f_ActiveVersionID f with
       | Some v => if d_Runtime d then Runtime_Invalidate v else ret tt
       | None => ret tt
       end;
  or_err (internal "failed to delete function") (Functions_Delete (f_ID f)).

Definition CanManage (actor : User) (f : Function) : M Error unit :=
  match f_OwnerType f with
  | OwnerTypeWorkspace =>
      do! x <- load_workspace (f_OwnerID f) owner_workspace_missing actor;
      if CanManageFunction (actor_of actor) (f_OwnerType f) "" x.2 (ws_MemberCanDeploy x.1) then ret tt
      else throw (Forbidden (Text "not permitted to manage this function"))
  | OwnerTypeUser =>
      if CanManageFunction (actor_of actor) (f_OwnerType f) (f_OwnerID f) None false then ret tt
      else throw (Forbidden (Text "not permitted to manage this function"))
  end.

Definition SetEnv (envKey : string) (actor : User) (f : Function) (key value : string)
    : M Error unit :=
  run! CanManage actor f;
  if envKey == "" then throw (Internal "env var encryption key is not configured" None)
  else
    do! nonce <- rand_Read;
    match seal envKey nonce value with
    | None => throw (Internal "failed to encrypt env var" (Some CEncode))
    | Some c => or_err (internal "failed to store env var") (Functions_SetEnv (f_ID f) key c)
    end.

Definition DeleteEnv (actor : User) (f : Function) (key : string) : M Error unit :=
  run! CanManage actor f;
  or_err (internal "failed to delete env var") (Functions_DeleteEnv (f_ID f) key).

Definition ListEnvKeys (f : Function) : M Error (list string) :=
  do! env <- or_err (internal "failed to list env vars") (Functions_ListEnv (f_ID f));
  ret (map fst env).
End Functions.
