(* ===== verification/Deploy.v ===== *)
(** * Deploy: what a deployment guarantees

    The contract of [Deployer.Deploy] (src/server/internal/service/deploy.go):
    a dry run writes nothing, nothing is written without authority over the
    owner, a failed deployment leaves every function serving what it served, and
    a successful one serves exactly what was uploaded. *)

From stdpp Require Import sorting.
From S2P Require Import Prelude GoNum Policy Manifest Bundle Types Authz Settings Store.
From S2P Require Import StoreNames StoreCreds Digest NodeDetect Service.

(** ** Operations that only read *)

Definition unchanged (w w' : World) : Prop :=
  tbl w' = tbl w /\ blobs w' = blobs w /\ invalidated w' = invalidated w.

#[export] Instance unchanged_refl : Reflexive unchanged.
Proof. by intros w. Qed.
#[export] Instance unchanged_trans : Transitive unchanged.
Proof. intros w1 w2 w3 (?&?&?) (?&?&?). split_and!; congruence. Qed.

Lemma unchanged_query {A} (f : Tables -> result StoreErr A) : preserves unchanged (query f).
Proof.
  intros w. unfold query, statement.
  destruct (faults w) as [|[] fs]; simpl; try done; by destruct (f (tbl w)).
Qed.

(** A statement leaves blobs and pools alone. *)
Definition pools_kept (w w' : World) : Prop := blobs w' = blobs w /\ invalidated w' = invalidated w.
#[export] Instance pools_kept_refl : Reflexive pools_kept.
Proof. by intros w. Qed.
#[export] Instance pools_kept_trans : Transitive pools_kept.
Proof. intros w1 w2 w3 (?&?) (?&?). split; congruence. Qed.

Lemma pools_statement {A} (f : Tables -> result StoreErr (A * Tables)) :
  preserves pools_kept (statement f).
Proof.
  intros w. unfold statement. destruct (faults w) as [|[] fs]; simpl; try done;
    by destruct (f (tbl w)) as [[]|].
Qed.

Lemma pools_transaction {A} (m : M StoreErr A) :
  preserves pools_kept m -> preserves pools_kept (transaction m).
Proof. intros Hm w. specialize (Hm w). unfold transaction. by destruct (m w) as [[]]. Qed.

Lemma pools_new_id {E} `{IdGen} id : preserves pools_kept (new_id (E := E) id).
Proof. intros w. unfold new_id. by destruct (id == ""). Qed.

(** Descend through a reading operation. *)
Ltac reads_step :=
  match goal with
  | |- preserves unchanged (query _) => apply unchanged_query
  | |- preserves pools_kept (query _) => apply pools_statement
  | |- preserves pools_kept (write _) => apply pools_statement
  | |- preserves pools_kept (statement _) => apply pools_statement
  | |- preserves pools_kept (transaction _) => apply pools_transaction
  | |- preserves pools_kept (new_id _) => apply pools_new_id
  | |- preserves _ (lookup_or _ _ _) => unfold lookup_or
  | _ => preserve_step
  end.
Ltac reads := repeat reads_step.

(** ** What the tables say *)

Section Contract.
Context {U : UnicodeTables} {F : FloatToInt} {Y : YamlDecoder} {A : ArchiveCodec} {J : JsonText}
  {I : IdGen}.

Definition owner_of (t : Tables) (owner : string) : option (OwnerType * string) :=
  match t_handles t !! owner with
  | Some p => Some (OwnerTypeUser, p_InternalUserID p)
  | None => match t_workspaces t !! owner with
            | Some x => Some (OwnerTypeWorkspace, w_ID x)
            | None => None
            end
  end.

Definition org_of (t : Tables) : result SettingsErr Org :=
  match t_organization t with None => Ok DefaultOrg | Some o => ParseOrg (o_Settings o) end.

Definition role_in (t : Tables) (wsID userID : string) : option Role :=
  option_map wm_Role (List.find (fun m => wm_UserID m == userID)
    (order_by wm_CreatedAt (rows (fun m => wm_WorkspaceID m == wsID) (t_members t)))).

(** The authority a deployment needs. *)
Definition may_deploy (t : Tables) (actor : User) (ot : OwnerType) (oid : string) : Prop :=
  exists org, org_of t = Ok org /\
  match ot with
  | OwnerTypeUser => CanDeployPersonal (actor_of actor) oid (org_AllowUserFunctions org) = true
  | OwnerTypeWorkspace =>
      OpenMode org = false /\
      exists x s, t_workspaces t !! oid = Some x /\ ParseWorkspace (w_Settings x) = Ok s
        /\ CanDeployToWorkspace (actor_of actor) (role_in t oid (u_ID actor)) (ws_MemberCanDeploy s)
           = true
  end.

Lemma resolveOwner_reads owner : preserves unchanged (resolveOwner owner).
Proof. unfold resolveOwner, PublicUserIDs_ByUserID, Workspaces_ByID. reads. Qed.

Lemma loadOrgSettings_reads : preserves unchanged loadOrgSettings.
Proof. unfold loadOrgSettings, Organizations_Get. reads. Qed.

Lemma load_workspace_reads oid e actor : preserves unchanged (load_workspace oid e actor).
Proof. unfold load_workspace, Workspaces_ByID, workspaceRole, Workspaces_ListMembers. reads. Qed.

Lemma authorizeDeploy_reads actor ot oid org : preserves unchanged (authorizeDeploy actor ot oid org).
Proof. unfold authorizeDeploy. destruct ot; reads; try (apply load_workspace_reads). Qed.

Lemma checkFunctionLimit_reads ot oid a org : preserves unchanged (checkFunctionLimit ot oid a org).
Proof.
  unfold checkFunctionLimit, Workspaces_ByID, Functions_CountByOwner,
    Functions_CountByWorkspaceAndCreator.
  destruct ot; reads.
Qed.

Lemma dry_warning_reads owner name a org :
  preserves unchanged (functionLimitDryRunWarning owner name a org).
Proof.
  unfold functionLimitDryRunWarning, Functions_ByName. reads;
    auto using resolveOwner_reads, checkFunctionLimit_reads.
Qed.

(** ** Successful runs *)

Lemma attempt_ok {E G B} (m : M E B) w r w' :
  attempt (F := G) m w = (Ok r, w') -> m w = (r, w').
Proof. unfold attempt. destruct (m w). congruence. Qed.

Lemma or_err_ok {E G B} (f : E -> G) (m : M E B) w b w' :
  or_err f m w = (Ok b, w') -> m w = (Ok b, w').
Proof. unfold or_err. destruct (m w) as [[]]; simpl; congruence. Qed.

Lemma ret_ok {E B} (b : B) w c w' : ret (E := E) b w = (Ok c, w') -> c = b /\ w' = w.
Proof. unfold ret. by intros [= -> ->]. Qed.

Lemma query_run {B} (f : Tables -> result StoreErr B) w r w' :
  query f w = (r, w') -> unchanged w w' /\ (r = f (tbl w) \/ r = Err ErrBackend).
Proof.
  intros H. pose proof (unchanged_query f w) as Hu. rewrite H in Hu. split; [done|].
  revert H. unfold query, statement. destruct (faults w) as [|[] fs]; simpl;
    try destruct (f (tbl w)); intros [= <- <-]; auto.
Qed.

Lemma resolveOwner_ok owner w o w' :
  resolveOwner owner w = (Ok o, w') -> owner_of (tbl w) owner = Some o.
Proof.
  unfold resolveOwner, owner_of. intros H. apply bind_ok in H as (r & w1 & Hr & H).
  apply attempt_ok, query_run in Hr as [(Ht & _) Hr].
  destruct r as [p|e].
  - destruct Hr as [Hr|]; [|done]. unfold row in Hr. case_step Hr. injection Hr as ->.
    by apply ret_ok in H as [-> _].
  - destruct e; try discriminate H. destruct Hr as [Hr|]; [|done].
    unfold row in Hr. case_step Hr. apply bind_ok in H as (r & w2 & Hr2 & H).
    apply attempt_ok, query_run in Hr2 as [_ Hr2]. destruct r as [x|e].
    + destruct Hr2 as [Hr2|]; [|done]. unfold row in Hr2. rewrite Ht in Hr2. case_step Hr2.
      injection Hr2 as ->. by apply ret_ok in H as [-> _].
    + destruct e; try discriminate H. by destruct (ValidateUserID owner).
Qed.

Lemma loadOrgSettings_ok w s w' : loadOrgSettings w = (Ok s, w') -> org_of (tbl w) = Ok s.
Proof.
  unfold loadOrgSettings, org_of. intros H. apply bind_ok in H as (r & w1 & Hr & H).
  apply attempt_ok, query_run in Hr as [_ Hr].
  destruct r as [o|e].
  - destruct Hr as [Hr|]; [|done]. unfold row in Hr. case_step Hr. injection Hr as ->.
    case_step H. by apply ret_ok in H as [-> _].
  - destruct e; try discriminate H. destruct Hr as [Hr|]; [|done]. unfold row in Hr. case_step Hr.
    by apply ret_ok in H as [-> _].
Qed.

Lemma authorizeDeploy_ok actor ot oid org w u w' :
  org_of (tbl w) = Ok org -> OpenMode org && bool_decide (ot = OwnerTypeWorkspace) = false ->
  authorizeDeploy actor ot oid org w = (Ok u, w') -> may_deploy (tbl w) actor ot oid.
Proof.
  intros Ho Hm H. exists org. split; [done|]. unfold authorizeDeploy in H. destruct ot.
  - by case_step H.
  - split; [by destruct (OpenMode org)|].
    apply bind_ok in H as ([s role] & w1 & Hl & H). unfold load_workspace in Hl.
    apply bind_ok in Hl as (x & w2 & Hx & Hl). apply or_err_ok, query_run in Hx as [(Ht & _) Hx].
    destruct Hx as [Hx|]; [|done]. unfold row in Hx. case_step Hx. injection Hx as ->.
    apply bind_ok in Hl as (s' & w3 & Hs & Hl). unfold lift in Hs.
    destruct (ParseWorkspace (w_Settings w0)) as [s''|] eqn:Es; [|done].
    injection Hs as <- <-. apply bind_ok in Hl as (r & w4 & Hr & Hl).
    apply or_err_ok, bind_ok in Hr as (ms & w5 & Hms & Hr). apply query_run in Hms as [_ Hms].
    destruct Hms as [[= ->]|]; [|done]. apply ret_ok in Hr as [-> _]. apply ret_ok in Hl as [[= -> ->] _].
    exists w0, s''. split_and!; [done|done|]. rewrite Ht in H. unfold role_in. simpl in H.
    by case_step H.
Qed.

(** ** What a deployment for an owner may change *)

(** Every function keeps its owner, its name and the version it serves. *)
Definition serving_kept (t t' : Tables) : Prop :=
  forall id f, t_functions t !! id = Some f -> exists f',
    t_functions t' !! id = Some f' /\ f_ActiveVersionID f' = f_ActiveVersionID f
    /\ f_OwnerType f' = f_OwnerType f /\ f_OwnerID f' = f_OwnerID f /\ f_Name f' = f_Name f
    /\ f_CreatedBy f' = f_CreatedBy f.

(** The function a deployment is about: of the owner, and of the deployed name. *)
Definition target (ot : OwnerType) (oid name : string) (f : Function) : Prop :=
  same_owner ot oid f = true /\ f_Name f = name.

(** Tables [t'] differ from [t] by what a deployment of [name] under [(ot, oid)]
    by the user [by_] may do: no function or version is dropped; a function that
    is new or changed is the owner's and has that name, and was so before or is
    the deployer's creation; a new version is that function's; a newly claimed
    name is that name; and no other table changes. *)
Record deploy_frame (ot : OwnerType) (oid name by_ : string) (t t' : Tables) : Prop := {
  df_kept : forall id, is_Some (t_functions t !! id) -> is_Some (t_functions t' !! id);
  df_functions : forall id f', t_functions t' !! id = Some f' ->
    t_functions t !! id = Some f'
    \/ target ot oid name f'
       /\ match t_functions t !! id with
          | Some f => target ot oid name f /\ f_CreatedBy f' = f_CreatedBy f
          | None => f_CreatedBy f' = Some by_
          end;
  df_names : names_inv t t';
  df_claims : forall n x, t_names t' !! n = Some x -> t_names t !! n = Some x \/ n = name;
  df_versions : forall id v, t_versions t !! id = Some v -> t_versions t' !! id = Some v;
  df_uploads : forall id v, t_versions t' !! id = Some v ->
    t_versions t !! id = Some v
    \/ exists f, t_functions t' !! v_FunctionID v = Some f /\ target ot oid name f;
  df_rest : t' = set_versions (set_names (set_functions t (t_functions t')) (t_names t'))
                   (t_versions t')
}.

#[export] Instance deploy_frame_refl ot oid name by_ : Reflexive (deploy_frame ot oid name by_).
Proof. intros t. split; eauto; [done|by destruct t]. Qed.

(** The target stays the target. *)
Lemma frame_target ot oid name by_ t t' id f :
  deploy_frame ot oid name by_ t t' -> t_functions t !! id = Some f -> target ot oid name f ->
  exists f', t_functions t' !! id = Some f' /\ target ot oid name f'.
Proof.
  intros D Hf Ht. destruct (df_kept _ _ _ _ _ _ D id) as [f' Hf']; [by eauto|].
  exists f'. split; [done|]. destruct (df_functions _ _ _ _ _ _ D id f' Hf') as [?|[? _]]; [|done].
  by simplify_eq.
Qed.

Lemma frame_functions_trans ot oid name by_ t1 t2 t3 id f' :
  deploy_frame ot oid name by_ t1 t2 -> deploy_frame ot oid name by_ t2 t3 ->
  t_functions t3 !! id = Some f' ->
  t_functions t1 !! id = Some f'
  \/ target ot oid name f'
     /\ match t_functions t1 !! id with
        | Some f => target ot oid name f /\ f_CreatedBy f' = f_CreatedBy f
        | None => f_CreatedBy f' = Some by_
        end.
Proof.
  intros D1 D2 Hf. destruct (df_functions _ _ _ _ _ _ D2 id f' Hf) as [H2|[Ht' Hm]].
  { by apply (df_functions _ _ _ _ _ _ D1). }
  right. split; [done|]. destruct (t_functions t2 !! id) as [f2|] eqn:E2.
  - destruct Hm as [Ht2 Hc]. destruct (df_functions _ _ _ _ _ _ D1 id f2 E2) as [H1|[_ H1]].
    + by rewrite H1.
    + destruct (t_functions t1 !! id); [|congruence]. destruct H1. split; [done|congruence].
  - destruct (t_functions t1 !! id) as [f1|] eqn:E1; [|done].
    destruct (df_kept _ _ _ _ _ _ D1 id) as [? ?]; [by eauto|congruence].
Qed.

#[export] Instance deploy_frame_trans ot oid name by_ : Transitive (deploy_frame ot oid name by_).
Proof.
  intros t1 t2 t3 D1 D2.
  pose proof D1 as [K1 F1 N1 C1 V1 U1 R1]. pose proof D2 as [K2 F2 N2 C2 V2 U2 R2]. split.
  - auto.
  - intros id f'. by apply (frame_functions_trans _ _ _ _ t1 t2 t3).
  - by transitivity t2.
  - intros n x Hn. destruct (C2 n x Hn); auto.
  - auto.
  - intros id v Hv. destruct (U2 id v Hv) as [H|]; [|by right].
    destruct (U1 id v H) as [|(f & Hf & Ht)]; [by left|right]. by apply (frame_target _ _ _ _ _ _ _ f D2).
  - rewrite R2, R1. by destruct t1.
Qed.

#[export] Instance serving_kept_refl : Reflexive serving_kept.
Proof. intros t id f H. eauto 10. Qed.

#[export] Instance serving_kept_trans : Transitive serving_kept.
Proof.
  intros t1 t2 t3 K1 K2 id f H. destruct (K1 id f H) as (f' & H' & ?&?&?&?&?).
  destruct (K2 id f' H') as (f'' & H'' & ?&?&?&?&?). exists f''. split_and!; congruence.
Qed.

(** The steps before activation do both. *)
Definition deploy_step (ot : OwnerType) (oid name by_ : string) (t t' : Tables) : Prop :=
  deploy_frame ot oid name by_ t t' /\ serving_kept t t'.
#[export] Instance deploy_step_refl ot oid name by_ : Reflexive (deploy_step ot oid name by_).
Proof. intros t. split; reflexivity. Qed.
#[export] Instance deploy_step_trans ot oid name by_ : Transitive (deploy_step ot oid name by_).
Proof. intros t1 t2 t3 [H1 K1] [H2 K2]. split; by transitivity t2. Qed.

Lemma frame_create ot oid name by_ f t t1 t2 :
  target ot oid name f -> f_CreatedBy f = Some by_ ->
  insert_function f t = Ok t1 -> insert_name f t1 = Ok t2 -> deploy_step ot oid name by_ t t2.
Proof.
  intros Ht Hc H1 H2. pose proof (names_inv_create f t t1 t2 H1 H2) as Hn.
  apply insert_function_ok in H1 as [-> Hid]. apply insert_name_ok in H2 as (-> & _ & _).
  assert (Hk : forall id g, t_functions t !! id = Some g ->
               <[f_ID f := f]> (t_functions t) !! id = Some g).
  { intros id g Hg. rewrite lookup_insert_ne; [done|]. congruence. }
  split; [split; simpl; [|  |exact Hn| |done|by auto|by destruct t]|].
  - intros id [g Hg]. eauto.
  - intros id g. rewrite lookup_insert. case_decide as Hd; [|by auto]. intros [= <-]. right.
    subst id. by rewrite Hid.
  - intros n x. rewrite lookup_insert. case_decide as Hd; [|by auto]. right. subst n. apply Ht.
  - intros id g Hg. exists g. simpl. split_and!; auto.
Qed.

Lemma create_frame ot oid name by_ f limit :
  target ot oid name f -> f_CreatedBy f = Some by_ ->
  preserves (on_tables (deploy_step ot oid name by_)) (Functions_create f limit).
Proof.
  intros Ht Hc. unfold Functions_create. preserve.
  apply preserves_transaction; [exact _|]. intros w u w' H.
  apply create_committed in H as (_ & t1 & H1 & H2).
  refine (frame_create _ _ _ _ _ _ _ _ _ _ H1 H2); [split; apply Ht|exact Hc].
Qed.

Lemma query_frame {B} ot oid name by_ (f : Tables -> result StoreErr B) :
  preserves (on_tables (deploy_step ot oid name by_)) (query f).
Proof. apply preserves_query; exact _. Qed.

Lemma reads_frame {E B} ot oid name by_ (m : M E B) :
  preserves unchanged m -> preserves (on_tables (deploy_step ot oid name by_)) m.
Proof. intros Hm w. destruct (Hm w) as (Ht & _). unfold on_tables. by rewrite Ht. Qed.

(** Rewriting a row of the owner with another description. *)
Lemma frame_update ot oid name by_ t id f d n :
  names_ok t -> t_functions t !! id = Some f -> target ot oid name f ->
  deploy_step ot oid name by_ t (set_functions t (<[id := mkFunction (f_ID f) (f_OwnerType f) (f_OwnerID f)
     (f_Name f) d (f_ActiveVersionID f) (f_CreatedBy f) (f_CreatedAt f) n]> (t_functions t))).
Proof.
  intros Hok Hf Ho. split; [constructor; simpl; [| | |by auto|done|by auto|by destruct t]|].
  - intros i [g Hg]. rewrite lookup_insert. case_decide; eauto.
  - intros i g. rewrite lookup_insert. case_decide; [|by auto]. intros [= <-]. right. simplify_eq.
    by rewrite Hf.
  - by apply (names_inv_update t id f).
  - intros i g Hg. simpl. rewrite lookup_insert. case_decide; [|by eauto 10]. simplify_eq.
    eexists. split_and!; done.
Qed.

(** [Functions_Update] of a row just read: the outcome. *)
Lemma update_description w f d :
  names_ok (tbl w) -> t_functions (tbl w) !! f_ID f = Some f ->
  let r := Functions_Update (with_description f d) w in
  pools_kept w r.2
  /\ ((exists e, r.1 = Err e /\ tbl r.2 = tbl w)
      \/ exists g n, r.1 = Ok g /\ g = mkFunction (f_ID f) (f_OwnerType f) (f_OwnerID f) (f_Name f) d
           (f_ActiveVersionID f) (f_CreatedBy f) (f_CreatedAt f) n
         /\ tbl r.2 = set_functions (tbl w) (<[f_ID f := g]> (t_functions (tbl w)))).
Proof.
  intros Hok Hf. cbv zeta. split.
  { unfold Functions_Update, Functions_ByID.
    assert (preserves pools_kept (Functions_Update (with_description f d))) as Hp
      by (unfold Functions_Update, Functions_ByID; reads).
    apply Hp. }
  unfold Functions_Update, Functions_ByID, bind.
  destruct (query _ w) as [r w1] eqn:E. apply query_run in E as [(Ht & _) Hr]. simpl in Hr.
  destruct r as [g|e]; [|left; eauto]. rewrite Hf in Hr. destruct Hr as [[= ->]|]; [|done].
  simpl. rewrite String.eqb_refl. simpl.
  match goal with |- context [statement ?h w1] =>
    destruct (statement_cases h w1) as [[-> ->]|[(e & Hx & -> & ->)|(a & t & Hx & -> & ->)]] end.
  - left. eauto.
  - left. eauto.
  - right. rewrite Ht, Hf in Hx. injection Hx as <- <-. simpl. eauto.
Qed.

(** The claim of the function: its outcome, whatever fails. *)
Definition claimed (ot : OwnerType) (oid name : string) (w w' : World) (f : Function) : Prop :=
  t_functions (tbl w') !! f_ID f = Some f /\ same_owner ot oid f = true /\ f_Name f = name
  /\ t_names (tbl w') !! name = Some (f_ID f, true)
  /\ match t_functions (tbl w) !! f_ID f with
     | Some g => f_ActiveVersionID f = f_ActiveVersionID g
     | None => f_ActiveVersionID f = None
     end.

Lemma created ot oid name d c limit w f w' :
  Functions_CreateWithinLimit (mkFunction "" ot oid name d None (Some c) 0 0) limit w = (Ok f, w') ->
  claimed ot oid name w w' f /\ f_Description f = d /\ f_CreatedBy f = Some c.
Proof.
  unfold Functions_CreateWithinLimit, Functions_create, new_id. simpl. intros H.
  apply bind_ok in H as (id & w1 & [= <- <-] & H).
  apply bind_ok in H as (n & w2 & [= <- <-] & H). simpl in H.
  apply bind_ok in H as ([] & w3 & Hx & H). apply ret_ok in H as [-> ->].
  apply transaction_ok, create_committed in Hx as (_ & t1 & Hw & Hn).
  apply insert_function_ok in Hw as [Ht Hid].
  apply insert_name_ok in Hn as (Ht' & _ & _). simpl in *.
  split; [|by repeat split]. split_and!; simpl.
  - rewrite Ht'. simpl. rewrite Ht. simpl. by rewrite lookup_insert_eq.
  - unfold same_owner. simpl. by rewrite bool_decide_true, String.eqb_refl.
  - done.
  - rewrite Ht'. simpl. by rewrite lookup_insert_eq.
  - by rewrite Hid.
Qed.

Lemma create_function_outcome actor ot oid name d org w r w' :
  create_function actor ot oid name d org w = (r, w') ->
  deploy_step ot oid name (u_ID actor) (tbl w) (tbl w') /\ pools_kept w w'
  /\ forall f, r = Ok f -> claimed ot oid name w w' f /\ f_Description f = d.
Proof.
  intros H. split_and!.
  - assert (P : preserves (on_tables (deploy_step ot oid name (u_ID actor))) (create_function actor ot oid name d org)).
    { unfold create_function. preserve; auto using reads_frame, checkFunctionLimit_reads.
      apply create_frame; [|done]. split; [|done]. unfold same_owner. simpl.
      by rewrite bool_decide_true, String.eqb_refl. }
    specialize (P w). by rewrite H in P.
  - assert (P : preserves pools_kept (create_function actor ot oid name d org)).
    { unfold create_function, Functions_CreateWithinLimit, Functions_create, lock_scope. reads;
        (intros v; destruct (checkFunctionLimit_reads ot oid (u_ID actor) org v) as (_&?&?); by split). }
    specialize (P w). by rewrite H in P.
  - intros f ->. unfold create_function in H. apply bind_ok in H as ([cur lim] & w1 & Hc & H).
    pose proof (checkFunctionLimit_reads ot oid (u_ID actor) org w) as (Ht & _). rewrite Hc in Ht.
    simpl in Ht. case_step H. apply bind_ok in H as (r & w2 & Hr & H). apply attempt_ok in Hr.
    destruct r as [g|[]]; try discriminate H.
    + apply ret_ok in H as [-> ->]. apply created in Hr as (Hr & Hd & _).
      split; [|done]. unfold claimed in *. by rewrite Ht in Hr.
    + apply bind_ok in H as ([] & w3 & _ & H). discriminate H.
Qed.

Lemma claim_function_outcome actor ot oid name d org w r w' :
  names_ok (tbl w) -> claim_function actor ot oid name d org w = (r, w') ->
  deploy_step ot oid name (u_ID actor) (tbl w) (tbl w') /\ pools_kept w w'
  /\ forall f, r = Ok f -> claimed ot oid name w w' f /\ f_Description f = d.
Proof.
  intros Hok H. unfold claim_function, attempt, Functions_ByName in H. unfold bind at 1 in H.
  destruct (query _ w) as [q w1] eqn:E. apply query_run in E as [(Ht & Hb & Hi) Hq].
  destruct q as [f|e].
  - destruct Hq as [Hq|]; [|done].
    destruct (t_names (tbl w) !! name) as [[s []]|] eqn:E; [|discriminate Hq|discriminate Hq].
    destruct (no_leads _ Hok name s E) as (g & E1 & Hgn). rewrite E1 in Hq. injection Hq as ->.
    pose proof (no_id _ Hok _ _ E1) as Hid. subst s. destruct (same_owner ot oid g) eqn:Ho; simpl in H.
    2:{ injection H as <- <-. rewrite Ht. split_and!; [reflexivity|done|done]. }
    destruct (f_Description g == d) eqn:Ed; simpl in H.
    { injection H as <- <-. rewrite Ht. split_and!; [reflexivity|done|]. intros f [= <-]. bool_facts.
      split; [|done]. unfold claimed. rewrite Ht, E1. by split_and!. }
    pose proof (update_description w1 g d) as Hu. rewrite Ht in Hu. specialize (Hu Hok E1).
    unfold or_err in H. destruct (Functions_Update (with_description g d) w1) as [r' w2].
    simpl in Hu. injection H as <- <-. destruct Hu as [[Hb' Hi'] Hu].
    assert (Hp : pools_kept w w2) by (split; congruence).
    destruct Hu as [(e & -> & Ht')|(x & n & -> & -> & Ht')]; rewrite Ht'.
    + split_and!; [reflexivity|done|done].
    + split_and!; [by apply (frame_update ot oid name _ _ _ g)|done|]. intros f [= <-]. split; [|done].
      unfold claimed. rewrite Ht'. simpl. rewrite lookup_insert_eq, E1. by split_and!.
  - destruct e; try by (injection H as <- <-; rewrite Ht; split_and!; [reflexivity|done|done]).
    apply create_function_outcome in H as (Hf & [Hb' Hi'] & Hc). rewrite Ht in Hf.
    split_and!; [done|split; congruence|]. intros f Hr. destruct (Hc f Hr) as [Hc' Hd].
    split; [|done]. unfold claimed in *. by rewrite Ht in Hc'.
Qed.

(** ** Publishing *)

(** An upload touches the versions only, and only those of its function. *)
Definition version_step (fid : string) (t t' : Tables) : Prop :=
  t' = set_versions t (t_versions t')
  /\ (forall id v, t_versions t !! id = Some v -> t_versions t' !! id = Some v)
  /\ forall id v, t_versions t' !! id = Some v -> t_versions t !! id = Some v \/ v_FunctionID v = fid.
#[export] Instance version_step_refl fid : Reflexive (version_step fid).
Proof. intros t. split_and!; auto. by destruct t. Qed.
#[export] Instance version_step_trans fid : Transitive (version_step fid).
Proof.
  intros t1 t2 t3 (E1 & K1 & N1) (E2 & K2 & N2). split_and!; auto.
  - rewrite E2, E1. done.
  - intros id v Hv. destruct (N2 id v Hv); auto.
Qed.

Lemma CreateVersion_versions v :
  preserves (on_tables (version_step (v_FunctionID v))) (Functions_CreateVersion v).
Proof.
  unfold Functions_CreateVersion. preserve. apply preserves_write; [exact _|].
  intros t t' H. repeat (case_step H). injection H as <-. bool_facts. split_and!; simpl; [done|..].
  - intros i x Hx. rewrite lookup_insert_ne; [done|]. intros ->. apply E. by rewrite Hx.
  - intros i x. rewrite lookup_insert. case_decide; [|by left]. intros [= <-]. by right.
Qed.

Lemma version_step_frame ot oid name by_ fid f t t' :
  version_step fid t t' -> t_functions t !! fid = Some f -> target ot oid name f ->
  deploy_step ot oid name by_ t t'.
Proof.
  intros (He & Hk & Hn) Hf Ht. rewrite He. split; [constructor; simpl; auto|].
  - by apply names_inv_same.
  - intros id v Hv. destruct (Hn id v Hv) as [|<-]; eauto.
  - intros i g Hg; simpl; eauto 10.
Qed.

Lemma CreateVersion_step ot oid name by_ v f w :
  t_functions (tbl w) !! v_FunctionID v = Some f -> target ot oid name f ->
  deploy_step ot oid name by_ (tbl w) (tbl (Functions_CreateVersion v w).2).
Proof. intros Hf Ht. by eapply version_step_frame; [apply CreateVersion_versions|..]. Qed.

Lemma CreateVersion_ok v w v' w' :
  Functions_CreateVersion v w = (Ok v', w') ->
  t_versions (tbl w) !! v_ID v' = None /\ tbl w' = set_versions (tbl w) (<[v_ID v' := v']> (t_versions (tbl w)))
  /\ exists id n, v' = mkFunctionVersion id (v_FunctionID v) (v_Manifest v) (v_MainPath v)
       (v_BundleHash v) (v_BundleSize v) (v_UnpackedSize v) (v_Files v) (v_CreatedBy v) (v_Note v) n n.
Proof.
  unfold Functions_CreateVersion. intros H. apply bind_ok in H as (id & w1 & Hid & H).
  assert (Ht : tbl w1 = tbl w).
  { unfold new_id in Hid. destruct (v_ID v == ""); by injection Hid as _ <-. }
  apply bind_ok in H as (n & w2 & [= <- <-] & H).
  apply bind_ok in H as ([] & w3 & Hw & H). apply ret_ok in H as [-> ->]. apply write_ok in Hw.
  repeat (case_step Hw). injection Hw as Hw. bool_facts. rewrite Ht in *. simpl.
  split_and!; [by apply eq_None_not_Some|done|eauto].
Qed.

Lemma ActivateVersion_outcome funcID vid w r w' :
  Store_ActivateVersion funcID vid w = (r, w') ->
  pools_kept w w'
  /\ match r with
     | Err _ => tbl w' = tbl w
     | Ok _ => exists f n, t_functions (tbl w) !! funcID = Some f
         /\ tbl w' = set_functions (tbl w) (<[funcID := mkFunction (f_ID f) (f_OwnerType f)
              (f_OwnerID f) (f_Name f) (f_Description f) (Some vid) (f_CreatedBy f) (f_CreatedAt f) n]>
              (t_functions (tbl w)))
     end.
Proof.
  intros H. split.
  { assert (P : preserves pools_kept (Store_ActivateVersion funcID vid))
      by (unfold Store_ActivateVersion; reads).
    specialize (P w). by rewrite H in P. }
  unfold Store_ActivateVersion in H. unfold bind at 1, stored_now, get in H. unfold transaction in H.
  match type of H with (match ?m with _ => _ end = _) => destruct m as [[u|e] w1] eqn:E end;
    injection H as <- <-; [|done].
  apply bind_ok in E as (v & w2 & Hv & H). apply query_ok in Hv as [_ Ht].
  case_step H. apply write_ok in H. rewrite Ht in H. case_step H. injection H as <-. eauto.
Qed.

(** A publication that fails leaves the function serving what it served. *)
Lemma publish_failed d f v ot oid name by_ w e w' :
  t_functions (tbl w) !! v_FunctionID v = Some f -> target ot oid name f ->
  publish d f v w = (Err e, w') -> deploy_step ot oid name by_ (tbl w) (tbl w') /\ pools_kept w w'.
Proof.
  unfold publish. intros Hf Ht H. unfold bind at 1, or_err at 1 in H.
  pose proof (CreateVersion_step ot oid name by_ v f w Hf Ht) as Hs.
  assert (Hp : preserves pools_kept (Functions_CreateVersion v))
    by (unfold Functions_CreateVersion; reads).
  specialize (Hp w). destruct (Functions_CreateVersion v w) as [[v'|e1] w1]; simpl in H, Hs, Hp.
  2:{ by injection H as <- <-. }
  unfold bind at 1, or_err at 1 in H.
  destruct (Store_ActivateVersion (f_ID f) (v_ID v') w1) as [[[]|e2] w2] eqn:E2; simpl in H.
  - destruct (f_ActiveVersionID f), (d_Runtime d); discriminate H.
  - injection H as <- <-. apply ActivateVersion_outcome in E2 as [Hp2 Ht2]. rewrite Ht2.
    split; [done|]. by transitivity w1.
Qed.

(** What a successful publication leaves. *)
Record published (d : Deployer) (f : Function) (w w' : World) (f' : Function) (v : FunctionVersion)
    : Prop := {
  pb_function : exists n, t_functions (tbl w') !! f_ID f
    = Some (mkFunction (f_ID f) (f_OwnerType f) (f_OwnerID f) (f_Name f) (f_Description f)
              (Some (v_ID v)) (f_CreatedBy f) (f_CreatedAt f) n);
  pb_result : f' = with_active f (v_ID v);
  pb_fresh : t_versions (tbl w) !! v_ID v = None;
  pb_version : t_versions (tbl w') !! v_ID v = Some v;
  pb_blobs : blobs w' = blobs w;
  pb_pools : invalidated w' = invalidated w
    ++ match f_ActiveVersionID f with Some old => if d_Runtime d then [old] else [] | None => [] end
}.

Lemma activate_frame ot oid name by_ t f vid n :
  t_functions t !! f_ID f = Some f -> target ot oid name f ->
  deploy_frame ot oid name by_ t (set_functions t (<[f_ID f := mkFunction (f_ID f) (f_OwnerType f)
    (f_OwnerID f) (f_Name f) (f_Description f) (Some vid) (f_CreatedBy f) (f_CreatedAt f) n]>
    (t_functions t))).
Proof.
  intros Hf Ht. split; simpl; auto.
  - intros i [g Hg]. rewrite lookup_insert. case_decide; eauto.
  - intros i g. rewrite lookup_insert. case_decide; [|by auto]. intros [= <-]. right. simplify_eq.
    by rewrite Hf.
  - by apply (names_inv_update _ _ f).
Qed.

Lemma publish_done d f v ot oid name by_ w f' v' w' :
  names_ok (tbl w) -> t_functions (tbl w) !! f_ID f = Some f -> v_FunctionID v = f_ID f ->
  target ot oid name f ->
  publish d f v w = (Ok (f', v'), w') ->
  deploy_frame ot oid name by_ (tbl w) (tbl w') /\ t_names (tbl w') = t_names (tbl w)
  /\ published d f w w' f' v' /\ exists id n,
     v' = mkFunctionVersion id (v_FunctionID v) (v_Manifest v) (v_MainPath v)
       (v_BundleHash v) (v_BundleSize v) (v_UnpackedSize v) (v_Files v) (v_CreatedBy v) (v_Note v) n n.
Proof.
  intros Hok Hf Hfid Ho H. unfold publish in H.
  apply bind_ok in H as (v1 & w1 & H1 & H). apply or_err_ok in H1.
  pose proof (CreateVersion_step ot oid name by_ v f w) as Hs. rewrite Hfid in Hs.
  specialize (Hs Hf Ho).
  assert (Hp : preserves pools_kept (Functions_CreateVersion v))
    by (unfold Functions_CreateVersion; reads).
  specialize (Hp w). rewrite H1 in Hs, Hp. destruct Hs as [Hs _], Hp as [Hb1 Hi1]. simpl in *.
  apply CreateVersion_ok in H1 as (Hfresh & Ht1 & Hv).
  apply bind_ok in H as ([] & w2 & H2 & H). apply or_err_ok, ActivateVersion_outcome in H2 as [[Hb2 Hi2] H2].
  destruct H2 as (g & n & Hg & Ht2). rewrite Ht1 in Hg. simpl in Hg. rewrite Hf in Hg.
  injection Hg as <-.
  apply bind_ok in H as ([] & w3 & H3 & H). apply ret_ok in H as [[= -> ->] ->].
  assert (tbl w3 = tbl w2 /\ blobs w3 = blobs w2 /\ invalidated w3 = invalidated w2
    ++ match f_ActiveVersionID f with Some old => if d_Runtime d then [old] else [] | None => [] end)
    as (Ht3 & Hb3 & Hi3).
  { destruct (f_ActiveVersionID f), (d_Runtime d); injection H3 as <-; simpl;
      by rewrite ?app_nil_r. }
  split_and!.
  - etrans; [exact Hs|]. rewrite Ht3, Ht2. apply activate_frame; [by rewrite Ht1|done].
  - by rewrite Ht3, Ht2, Ht1.
  - split; simpl.
    + rewrite Ht3, Ht2. simpl. rewrite lookup_insert_eq. eauto.
    + done.
    + done.
    + rewrite Ht3, Ht2, Ht1. simpl. by rewrite lookup_insert_eq.
    + congruence.
    + congruence.
  - done.
Qed.

(** ** The writes as a whole *)

Lemma Blob_Put_outcome k data w r w' :
  Blob_Put k data w = (r, w') ->
  tbl w' = tbl w /\ invalidated w' = invalidated w
  /\ blobs w' = match r with Ok _ => <[k := data]> (blobs w) | Err _ => blobs w end.
Proof. unfold Blob_Put. destruct (faults w) as [|[] fs]; by intros [= <- <-]. Qed.

(** A new version is live: the owner's function of that name serves it, the
    version records the upload, the blob holds the bundle, and the version
    served before is told to go. *)
Record served (d : Deployer) (ot : OwnerType) (oid : string) (actor : User) (m : Manifest)
    (packed : string) (w w' : World) (f : Function) (v : FunctionVersion) : Prop := {
  sv_row : exists g, t_functions (tbl w') !! f_ID f = Some g /\ f_ActiveVersionID g = Some (v_ID v)
    /\ f_Name g = Name m /\ f_Description g = Description m /\ same_owner ot oid g = true;
  sv_name : t_names (tbl w') !! Name m = Some (f_ID f, true);
  sv_active : f_ActiveVersionID f = Some (v_ID v) /\ f_Name f = Name m;
  sv_version : t_versions (tbl w') !! v_ID v = Some v /\ t_versions (tbl w) !! v_ID v = None;
  sv_upload : v_FunctionID v = f_ID f /\ v_MainPath v = Main m /\ v_CreatedBy v = u_ID actor
    /\ v_Manifest v = json_print (normalized_json (Manifest_Normalized m))
    /\ v_BundleHash v = sha256Hex packed;
  sv_blob : blobs w' !! BundleBlobKey (v_BundleHash v) = Some packed;
  sv_pools : invalidated w' = invalidated w
    ++ match t_functions (tbl w) !! f_ID f with
       | Some g => match f_ActiveVersionID g with
                   | Some old => if d_Runtime d then [old] else []
                   | None => []
                   end
       | None => []
       end
}.

Lemma commit_outcome d p actor ot oid org m files packed w r w' :
  names_ok (tbl w) -> deploy_commit d p actor ot oid org m files packed w = (r, w') ->
  deploy_frame ot oid (Name m) (u_ID actor) (tbl w) (tbl w')
  /\ (forall k, k <> BundleBlobKey (sha256Hex packed) -> blobs w' !! k = blobs w !! k)
  /\ match r with
     | Err _ => serving_kept (tbl w) (tbl w') /\ invalidated w' = invalidated w
     | Ok x => exists f v, x = mkDeployResult false (Some f) (Some v) (Manifest_Normalized m)
                 (buildWarnings m org) /\ served d ot oid actor m packed w w' f v
     end.
Proof.
  intros Hok H. unfold deploy_commit in H. unfold bind at 1, or_err at 1 in H.
  destruct (Blob_Put _ packed w) as [rb w1] eqn:Eb. apply Blob_Put_outcome in Eb as (Ht1 & Hi1 & Hb1).
  destruct rb as [[]|e]; simpl in H.
  2:{ injection H as <- <-. rewrite Ht1, Hb1, Hi1. split_and!; reflexivity. }
  assert (Hk : forall k, k <> BundleBlobKey (sha256Hex packed) -> blobs w1 !! k = blobs w !! k)
    by (intros k Hk; rewrite Hb1; by rewrite lookup_insert_ne).
  unfold bind at 1 in H.
  destruct (claim_function _ _ _ _ _ _ w1) as [rc w2] eqn:Ec.
  apply claim_function_outcome in Ec as ([Hf2 Hs2] & [Hb2 Hi2] & Hc); [|by rewrite Ht1].
  rewrite Ht1 in Hf2, Hs2.
  destruct rc as [f|e].
  2:{ injection H as <- <-. rewrite Hb2. split_and!; [done|done|done|congruence]. }
  destruct (Hc f eq_refl) as [(Hrow & Ho & Hname & Hclaim & Hold) Hd]. clear Hc. rewrite Ht1 in Hold.
  unfold bind at 1 in H.
  destruct (publish d f _ w2) as [rp w3] eqn:Ep.
  destruct rp as [[f' v]|e].
  2:{ injection H as <- <-. apply publish_failed with (ot := ot) (oid := oid) (name := Name m) (by_ := u_ID actor)
        in Ep as [[Hf3 Hs3] [Hb3 Hi3]]; [|done|by split].
      rewrite Hb3, Hb2. split_and!; [by transitivity (tbl w2)|done|by transitivity (tbl w2)|congruence]. }
  apply publish_done with (ot := ot) (oid := oid) (name := Name m) (by_ := u_ID actor)
    in Ep as (Hf3 & Hn3 & Hp & id & n & Hv); [|by apply (df_names _ _ _ _ _ _ Hf2)|done|done|by split].
  injection H as <- <-. destruct Hp as [[nn Hrow3] -> Hfresh Hver Hb3 Hi3]. rewrite Hb3, Hb2.
  split_and!; [by transitivity (tbl w2)|done|].
  exists (with_active f (v_ID v)), v. split; [done|]. split; simpl.
  - eexists. split; [exact Hrow3|]. by split_and!.
  - congruence.
  - done.
  - split; [done|]. destruct (t_versions (tbl w) !! v_ID v) as [v0|] eqn:E0; [|done].
    apply (df_versions _ _ _ _ _ _ Hf2) in E0. congruence.
  - by rewrite Hv.
  - rewrite Hb3, Hb2, Hb1, Hv. simpl. by rewrite lookup_insert_eq.
  - rewrite Hi3, Hi2, Hi1. f_equal.
    by destruct (t_functions (tbl w) !! f_ID f); rewrite Hold.
Qed.

(** Either nothing was written, or every check passed and the writes ran. *)
Lemma Deploy_run d p w r w' :
  Deploy d p w = (r, w') ->
  (unchanged w w' /\ forall x, r = Ok x ->
     dp_DryRun p = true /\ dr_Function x = None /\ dr_Version x = None)
  \/ exists actor ot oid org m files packed w1,
      unchanged w w1 /\ dp_DryRun p = false /\ dp_Actor p = Some actor
      /\ owner_of (tbl w) (dp_Owner p) = Some (ot, oid) /\ may_deploy (tbl w) actor ot oid
      /\ org_of (tbl w) = Ok org /\ deploy_checks p org = Ok (m, files)
      /\ Pack (map fst (map_to_list files)) files = Some packed
      /\ deploy_commit d p actor ot oid org m files packed w1 = (r, w').
Proof.
  unfold Deploy. intros H.
  destruct (dp_Owner p == ""). { injection H as <- <-. by left. }
  destruct (negb (dp_DryRun p) && bool_decide (dp_Actor p = None)). { injection H as <- <-. by left. }
  match type of H with bind ?m _ _ = _ => assert (m w = (Ok tt, w) \/ exists e, m w = (Err e, w)) as Hv end.
  { destruct (ValidateUserID (dp_Owner p)); [by left|].
    destruct (dp_Owner p == to_lower (dp_Owner p)); [|by left]. right. by eexists. }
  unfold bind at 1 in H. destruct Hv as [Hv|[e Hv]]; rewrite Hv in H; clear Hv.
  2:{ injection H as <- <-. by left. }
  unfold bind at 1 in H. pose proof (loadOrgSettings_reads w) as H1.
  destruct (loadOrgSettings w) as [[org|e] w1] eqn:Eo; simpl in H1.
  2:{ injection H as <- <-. by left. }
  apply loadOrgSettings_ok in Eo. unfold bind at 1, lift at 1 in H.
  destruct (deploy_checks p org) as [[m files]|e] eqn:Ec.
  2:{ injection H as <- <-. by left. }
  destruct (dp_DryRun p) eqn:Ed.
  { left. unfold deploy_dry in H. unfold bind at 1 in H.
    match type of H with (let '(_,_) := ?mm w1 in _) = _ => assert (preserves unchanged mm) as Hm end.
    { destruct (dp_Actor p); [apply dry_warning_reads|apply preserves_ret; exact _]. }
    specialize (Hm w1). match type of H with (match ?x with _ => _ end) = _ => destruct x as [[wn|e] w2] end;
      injection H as <- <-; simpl in Hm; (split; [by transitivity w1|]); [|done].
    by intros x [= <-]. }
  destruct (dp_Actor p) as [actor|] eqn:Ea; [|injection H as <- <-; by left].
  unfold deploy_write in H. destruct (Pack _ files) as [packed|] eqn:Ep; [|injection H as <- <-; by left].
  unfold bind at 1 in H. pose proof (resolveOwner_reads (dp_Owner p) w1) as H2.
  destruct (resolveOwner (dp_Owner p) w1) as [[[ot oid]|e] w2] eqn:Er; simpl in H2.
  2:{ injection H as <- <-. left. split; [by transitivity w1|done]. }
  apply resolveOwner_ok in Er. destruct (OpenMode org && bool_decide (ot = OwnerTypeWorkspace)) eqn:Em.
  { injection H as <- <-. left. split; [by transitivity w1|done]. }
  unfold bind at 1 in H. pose proof (authorizeDeploy_reads actor ot oid org w2) as H3.
  destruct (authorizeDeploy actor ot oid org w2) as [[u|e] w3] eqn:Eu; simpl in H3.
  2:{ injection H as <- <-. left. split; [by repeat (etrans; [eassumption|])|done]. }
  destruct H1 as (T1 & B1 & I1), H2 as (T2 & B2 & I2).
  apply authorizeDeploy_ok in Eu; [|by rewrite T2, T1|done]. rewrite T2, T1 in Eu. rewrite T1 in Er.
  right. exists actor, ot, oid, org, m, files, packed, w3. split_and!; try done.
  destruct H3 as (T3 & B3 & I3). split_and!; congruence.
Qed.

(** ** Properties *)

Definition for_real (p : DeployParams) : DeployParams :=
  mkDeployParams (dp_Bundle p) (dp_Owner p) (dp_Name p) (dp_Note p) false (dp_Actor p).

Lemma dry_warning_succeeds owner name a org w :
  exists o w', functionLimitDryRunWarning owner name a org w = (Ok o, w').
Proof.
  unfold functionLimitDryRunWarning, bind, attempt.
  destruct (resolveOwner owner w) as [[[ot oid]|e] w1]; simpl; [|unfold ret; eauto].
  destruct (Functions_ByName name w1) as [[g|[]] w2]; simpl; unfold ret; eauto.
  destruct (checkFunctionLimit ot oid a org w2) as [[[cur lim]|e] w3]; simpl; eauto.
  destruct ((lim <=? 0) || (cur <? lim)); eauto.
Qed.

(** Up to the dry-run return both kinds of deployment do the same. *)
Lemma dry_rejection d p w e actor :
  dp_DryRun p = true -> dp_Actor p = Some actor ->
  (Deploy d p w).1 = Err e -> (Deploy d (for_real p) w).1 = Err e.
Proof.
  intros Hd Ha. unfold Deploy. simpl. rewrite Hd, Ha. simpl.
  destruct (dp_Owner p == ""); [done|]. unfold bind at 1 4.
  match goal with |- context [(match ?m w with _ => _ end).1 = _] =>
    destruct (m w) as [[u|e1] w1]; [|done] end.
  unfold bind at 1 3. destruct (loadOrgSettings w1) as [[org|e2] w2]; [|done].
  unfold bind at 1 2, lift. change (deploy_checks (for_real p) org) with (deploy_checks p org).
  destruct (deploy_checks p org) as [[m files]|e3]; [|done].
  unfold deploy_dry, bind. rewrite Ha.
  destruct (dry_warning_succeeds (dp_Owner p) (Name m) (u_ID actor) org w2) as (o & w3 & ->). done.
Qed.

Lemma deploy_checks_ok p org m files :
  deploy_checks p org = Ok (m, files) ->
  Unpack (dp_Bundle p) = Ok files /\ Validate (Some (with_main m "")) = Ok tt
  /\ (dp_Name p <> "" -> Name m = dp_Name p) /\ is_Some (files !! Main m)
  /\ (Nodejs (m_Compat m) = false -> detectNodeCoreImports files = []).
Proof.
  unfold deploy_checks. intros H.
  apply rbind_ok in H as (fs & H1 & H). destruct (Unpack (dp_Bundle p)) as [fs'|]; [|done].
  injection H1 as <-. apply rbind_ok in H as (m0 & H2 & H).
  apply rbind_ok in H as (name & H3 & H). apply rbind_ok in H as ([] & H4 & H).
  apply rbind_ok in H as ([] & H5 & H). apply rbind_ok in H as (main & H6 & H).
  apply rbind_ok in H as ([] & H7 & H). injection H as <- <-.
  split_and!; [done| | | |]; simpl.
  - destruct (Validate (Some (with_name m0 name))) as [[]|] eqn:E; [|done]. exact E.
  - intros Hn. unfold reconcile_name in H3. apply String.eqb_neq in Hn. rewrite Hn in H3.
    destruct (Name m0 == "") eqn:E0; simpl in H3; rewrite ?Hn in H3; simpl in H3.
    + by injection H3.
    + destruct (Name m0 == dp_Name p) eqn:E1; simpl in H3; [|done]. rewrite E0 in H3.
      injection H3 as <-. by bool_facts.
  - destruct (ResolveMain (Main (with_name m0 name)) fs') as [x|] eqn:E; [|done]. injection H6 as <-.
    unfold ResolveMain in E. case_step E.
    + case_step E. injection E as <-. eauto.
    + pose proof (first_present_spec DefaultMainCandidates fs') as Hp.
      destruct (first_present DefaultMainCandidates fs') as [[c x']|]; [|done].
      injection E as <-. destruct Hp as (? & ? & _ & -> & _). eauto.
  - intros Hn. unfold check_node_imports in H7. simpl in *. rewrite Hn in H7. by case_step H7.
Qed.

(** A dry run writes nothing: tables, blobs and warm pools are as before and
    the result names no function or version, whatever the request and whatever
    fails; and a request that a dry run rejects is rejected by the real
    deployment with the same error. *)
Theorem dry_run_writes_nothing d p w (Hdry : dp_DryRun p = true) :
  unchanged w (Deploy d p w).2
  /\ (forall x, (Deploy d p w).1 = Ok x -> dr_Function x = None /\ dr_Version x = None)
  /\ (forall actor e, dp_Actor p = Some actor -> (Deploy d p w).1 = Err e ->
       (Deploy d (for_real p) w).1 = Err e).
Proof.
  split_and!; [| |intros actor e Ha He; by apply (dry_rejection d p w e actor)];
    destruct (Deploy d p w) as [r w'] eqn:E; apply Deploy_run in E as [[Hu Hx]|E];
    try (destruct E as (?&?&?&?&?&?&?&?&_&?&_); congruence); simpl; [done|].
  intros x ->. by destruct (Hx x eq_refl) as (_ & ? & ?).
Qed.

(** C8. Authority: whatever the outcome, a deployment changes tables, blobs or
    pools only if it is a real one by an actor who may deploy to the owner the
    request names. Then the only function it creates or changes is that owner's
    function of the deployed name (a new one is recorded as the actor's
    creation), every new version is that function's, the only name it may claim
    is that name, which is the requested one if the request names any, and no
    other table changes. *)
Theorem deploy_needs_authority d p w (Hok : names_ok (tbl w)) :
  let w' := (Deploy d p w).2 in
  unchanged w w'
  \/ exists actor ot oid, dp_DryRun p = false /\ dp_Actor p = Some actor
     /\ owner_of (tbl w) (dp_Owner p) = Some (ot, oid) /\ may_deploy (tbl w) actor ot oid
     /\ exists name, (dp_Name p <> "" -> name = dp_Name p)
     /\ deploy_frame ot oid name (u_ID actor) (tbl w) (tbl w').
Proof.
  cbv zeta. destruct (Deploy d p w) as [r w'] eqn:E.
  apply Deploy_run in E as [[Hu _]|(actor & ot & oid & org & m & files & packed & w1 & (Ht & _ & _)
    & Hd & Ha & Ho & Hm & _ & Hk & _ & Hc)]; [by left|right].
  apply commit_outcome in Hc as (Hf & _); [|by rewrite Ht]. rewrite Ht in Hf.
  apply deploy_checks_ok in Hk as (_ & _ & Hn & _). exists actor, ot, oid. eauto 10.
Qed.

(** C9. A deployment that fails, at whatever point, leaves every function with the
    owner, the name and the active version it had, drops no version, invalidates
    no pool, and rewrites at most one blob. *)
Theorem deploy_failure_keeps_serving d p w e
    (Hok : names_ok (tbl w)) (He : (Deploy d p w).1 = Err e) :
  let w' := (Deploy d p w).2 in
  serving_kept (tbl w) (tbl w')
  /\ (forall id v, t_versions (tbl w) !! id = Some v -> t_versions (tbl w') !! id = Some v)
  /\ invalidated w' = invalidated w
  /\ exists k, forall k', k' <> k -> blobs w' !! k' = blobs w !! k'.
Proof.
  cbv zeta. destruct (Deploy d p w) as [r w'] eqn:E. simpl in He. subst r.
  apply Deploy_run in E as [[(Ht & Hb & Hi) _]|(actor & ot & oid & org & m & files & packed & w1
    & (Ht & Hb & Hi) & _ & _ & _ & _ & _ & _ & _ & Hc)]; simpl.
  - rewrite Ht, Hb. split_and!; [reflexivity|done|done|by exists ""].
  - apply commit_outcome in Hc as (Hf & Hk & Hs & Hi'); [|by rewrite Ht]. rewrite Ht in *.
    rewrite Hb in Hk. split_and!; [done|apply (df_versions _ _ _ _ _ _ Hf)|congruence|by eexists].
Qed.

(** C10. A deployment that succeeds serves what was uploaded: the owner's function
    of the requested name has the new version active, the version records the
    entry point (one of the files), the manifest and the digest of the stored
    bundle, the bundle unpacks to the files that were uploaded, the name leads
    to the function, and exactly the version served before is invalidated. *)
Theorem deploy_serves_upload d p w x w'
    (Hok : names_ok (tbl w)) (Hreal : dp_DryRun p = false) (H : Deploy d p w = (Ok x, w')) :
  exists actor ot oid m files packed f v,
    dp_Actor p = Some actor /\ owner_of (tbl w) (dp_Owner p) = Some (ot, oid)
    /\ dr_Function x = Some f /\ dr_Version x = Some v
    /\ served d ot oid actor m packed w w' f v
    /\ Unpack (dp_Bundle p) = Ok files /\ Unpack packed = Ok files
    /\ is_Some (files !! v_MainPath v) /\ (dp_Name p <> "" -> f_Name f = dp_Name p).
Proof.
  apply Deploy_run in H as [[_ Hx]|(actor & ot & oid & org & m & files & packed & w1 & (Ht & Hb & Hi)
    & _ & Ha & Ho & _ & _ & Hch & Hp & Hc)].
  { destruct (Hx x eq_refl). congruence. }
  apply commit_outcome in Hc as (_ & _ & f & v & -> & Hs); [|by rewrite Ht].
  apply deploy_checks_ok in Hch as (Hu & _ & Hn & Hmain & _).
  exists actor, ot, oid, m, files, packed, f, v.
  destruct Hs as [Hrow Hname [Hact Hfn] Hver Hup Hbl Hpl].
  split_and!; try done; [split; rewrite <- ?Ht, <- ?Hi; done| | |].
  - eapply repacked_loads; [exact Hu|unfold ranges; reflexivity|exact Hp].
  - destruct Hup as (_ & -> & _). done.
  - intros H. by rewrite <- (Hn H).
Qed.
End Contract.

(** ** Witnesses: a small installation deploys its first function *)

Definition hello_params (dry : bool) (owner : string) : DeployParams :=
  mkDeployParams "gz" owner "hello" "first" dry (Some bob).
Definition sample_deploy (dry : bool) (owner : string) : result Error DeployResult * World :=
  Deploy (U := ascii_tables) (F := amd64_float_to_int) (Y := one_doc_decoder) (A := sample_codec)
    (J := numeral_json) (I := unary_ids) (mkDeployer true) (hello_params dry owner) sample_world.

Lemma dry_run_writes_nothing_witness :
  unchanged sample_world (sample_deploy true "bob").2 /\ is_ok (sample_deploy true "bob").1 = true.
Proof.
  split; [|vm_compute; reflexivity].
  apply (dry_run_writes_nothing (U := ascii_tables) (F := amd64_float_to_int) (Y := one_doc_decoder)
    (A := sample_codec) (J := numeral_json) (I := unary_ids) (mkDeployer true)
    (hello_params true "bob") sample_world eq_refl).
Defined.

Lemma deploy_needs_authority_witness :
  unchanged sample_world (sample_deploy false "alice").2
  \/ exists actor ot oid, Some bob = Some actor
     /\ owner_of (tbl sample_world) "alice" = Some (ot, oid)
     /\ may_deploy (U := ascii_tables) (J := numeral_json) (tbl sample_world) actor ot oid.
Proof.
  destruct (deploy_needs_authority (U := ascii_tables) (F := amd64_float_to_int)
    (Y := one_doc_decoder) (A := sample_codec) (J := numeral_json) (I := unary_ids) (mkDeployer true)
    (hello_params false "alice") sample_world sample_names)
    as [H|(actor & ot & oid & _ & Ha & Ho & Hm & _)]; [by left|right].
  by exists actor, ot, oid.
Defined.

Lemma deploy_failure_keeps_serving_witness :
  serving_kept (tbl sample_world) (tbl (sample_deploy false "alice").2).
Proof.
  apply (deploy_failure_keeps_serving (U := ascii_tables) (F := amd64_float_to_int)
    (Y := one_doc_decoder) (A := sample_codec) (J := numeral_json) (I := unary_ids) (mkDeployer true)
    (hello_params false "alice") sample_world
    (Forbidden (Text "not permitted to deploy as this user")) sample_names).
  vm_compute. reflexivity.
Defined.

Lemma deploy_serves_upload_witness :
  exists f, t_names (tbl (sample_deploy false "bob").2) !! "hello" = Some (f, true).
Proof.
  assert (H : exists x, sample_deploy false "bob" = (Ok x, (sample_deploy false "bob").2)).
  { destruct (sample_deploy false "bob") as [[x|e] w'] eqn:E; [by exists x|].
    assert (H : is_ok (sample_deploy false "bob").1 = true) by (vm_compute; reflexivity).
    rewrite E in H. discriminate H. }
  destruct H as [x H].
  destruct (deploy_serves_upload (U := ascii_tables) (F := amd64_float_to_int) (Y := one_doc_decoder)
    (A := sample_codec) (J := numeral_json) (I := unary_ids) (mkDeployer true)
    (hello_params false "bob") sample_world x (sample_deploy false "bob").2 sample_names eq_refl H)
    as (actor & ot & oid & m & files & packed & f & v & _ & _ & _ & _ & Hs & _ & _ & _ & Hn).
  exists (f_ID f). pose proof (sv_name _ _ _ _ _ _ _ _ _ _ Hs) as Hname.
  pose proof (sv_active _ _ _ _ _ _ _ _ _ _ Hs) as [_ Hf].
  rewrite <- Hf, Hn in Hname; done.
Defined.
