(* ===== verification/UserID.v ===== *)
(** * UserID: deriving a public user identifier

    Models src/server/internal/auth/user_id.go: the candidate made from the local
    part of an address and the search for one that is valid and unclaimed. The
    search is a loop without a bound; here it runs on fuel, and the theorem says
    exactly when it returns. *)

From stdpp Require Import pretty.
From S2P Require Import Prelude Manifest Types Store.

Definition maxUserIDLength : Z := 63.

(** [userIDSanitizeRE.ReplaceAllString(s, "-")]: every run of other characters
    becomes one hyphen; [in_run] says whether one is being read. *)
Fixpoint replace_runs (in_run : bool) (s : string) : string :=
  match s with
  | EmptyString => EmptyString
  | String c r =>
      if is_lower_alnum c || (c =? "-")%char then String c (replace_runs false r)
      else if in_run then replace_runs true r
      else String "-" (replace_runs true r)
  end.

Definition is_hyphen (c : ascii) : bool := (c =? "-")%char.

Section UserID.
Context {U : UnicodeTables}.

Definition sanitizeUserID (local : string) : string :=
  let s := replace_runs false (to_lower local) in
  let s := trim_right_func is_hyphen (trim_left_func is_hyphen s) in
  if maxUserIDLength <? str_len s then trim_right_func is_hyphen (str_take 63 s) else s.

(** [n] is positive; the code's slice would be out of range only for a suffix of
    more than 63 characters. *)
Definition suffixUserID (base : string) (n : N) : string :=
  let suffix := String "-" (pretty n) in
  let trimmed :=
    if maxUserIDLength <? str_len base + str_len suffix
    then trim_right_func is_hyphen (str_take (Z.to_nat (maxUserIDLength - str_len suffix)) base)
    else base in
  trimmed +:+ suffix.

(** The loop: [None] when the fuel runs out before it returns. *)
Fixpoint derive_loop (fuel : nat) (base candidate : string) (n : N) : M StoreErr (option string) :=
  match fuel with
  | O => ret None
  | S fuel =>
      let next := derive_loop fuel base (suffixUserID base n) (n + 1) in
      if is_ok (ValidateUserID candidate) then
        do! r <- attempt (PublicUserIDs_ByUserID candidate);
        match r with
        | Err ErrNotFound => ret (Some candidate)
        | Err e => throw e
        | Ok _ => next
        end
      else next
  end.

Definition user_id_base (email : string) : string :=
  let '(local, _, _) := cut_byte email "@" in
  let base := sanitizeUserID local in
  if base == "" then "user" else base.

Definition DeriveUserID (fuel : nat) (email : string) : M StoreErr (option string) :=
  let base := user_id_base email in
  derive_loop fuel base base 2.

(** ** Trimming *)

Lemma trim_left_spec f s :
  exists u, s = u +:+ trim_left_func f s /\ str_forallb f u = true
  /\ (trim_left_func f s = "" \/ exists c r, trim_left_func f s = String c r /\ f c = false).
Proof.
  induction s as [|c s IH]; simpl; [exists ""; auto|]. destruct (f c) eqn:E.
  - destruct IH as (u & Hu & Hf & H). exists (String c u). simpl. rewrite E, Hf.
    split; [by rewrite Hu at 1|done].
  - exists "". split_and!; try done. right. eauto.
Qed.

Lemma str_forallb_rev f s : str_forallb f (str_rev s) = str_forallb f s.
Proof.
  induction s as [|c s IH]; [done|]. rewrite str_rev_cons, str_forallb_app, IH. simpl.
  by rewrite andb_true_r, andb_comm.
Qed.

Lemma trim_right_spec f s :
  exists u, s = trim_right_func f s +:+ u /\ str_forallb f u = true
  /\ (trim_right_func f s = "" \/ exists r c, trim_right_func f s = r +:+ String c "" /\ f c = false).
Proof.
  unfold trim_right_func. destruct (trim_left_spec f (str_rev s)) as (u & Hu & Hf & H).
  exists (str_rev u). split_and!.
  - rewrite <- (str_rev_rev s) at 1. rewrite Hu at 1. apply str_rev_append.
  - by rewrite str_forallb_rev.
  - destruct H as [->|(c & r & -> & Hc)]; [by left|]. right. exists (str_rev r), c.
    by rewrite str_rev_cons.
Qed.

Lemma trim_right_forallb f g s :
  str_forallb g s = true -> str_forallb g (trim_right_func f s) = true.
Proof.
  destruct (trim_right_spec f s) as (u & Hu & _ & _). intros H. rewrite Hu, str_forallb_app in H.
  by bool_facts.
Qed.

Lemma trim_left_forallb f g s :
  str_forallb g s = true -> str_forallb g (trim_left_func f s) = true.
Proof.
  destruct (trim_left_spec f s) as (u & Hu & _ & _). intros H. rewrite Hu, str_forallb_app in H.
  by bool_facts.
Qed.

(** ** The base *)

(** A nonempty string of name characters that neither starts nor ends with a
    hyphen. *)
Definition label_text (s : string) : Prop :=
  s <> "" /\ str_forallb name_char s = true /\ has_prefix s "-" = false /\ has_suffix s "-" = false.

Lemma replace_runs_chars b s : str_forallb name_char (replace_runs b s) = true.
Proof.
  revert b. induction s as [|c s IH]; intros b; simpl; [done|].
  destruct (is_lower_alnum c || (c =? "-")%char) eqn:E; simpl.
  - unfold name_char at 1. by rewrite E, IH.
  - destruct b; simpl; by rewrite IH.
Qed.

(** A nonempty prefix of a string that starts without a hyphen does too. *)
Lemma prefix_no_hyphen s t : s <> "" -> has_prefix (s +:+ t) "-" = false -> has_prefix s "-" = false.
Proof.
  destruct s as [|c s]; [done|]. intros _. change (String c s +:+ t) with (String c (s +:+ t)).
  by rewrite !has_prefix_hyphen.
Qed.

(** A nonempty string that starts without a hyphen is not all hyphens. *)
Lemma trim_right_nonempty s :
  s <> "" -> has_prefix s "-" = false -> trim_right_func is_hyphen s <> "".
Proof.
  intros Hne Hp H. destruct (trim_right_spec is_hyphen s) as (u & Hu & Hf & _). rewrite H in Hu.
  simpl in Hu. subst u. destruct s as [|c s]; [done|]. apply has_prefix_hyphen in Hp. cbn [str_forallb] in Hf.
  apply andb_true_iff in Hf as [Hf _]. by apply Ascii.eqb_eq in Hf.
Qed.

Lemma trimmed_label s :
  s <> "" -> str_forallb name_char s = true -> has_prefix s "-" = false ->
  label_text (trim_right_func is_hyphen s).
Proof.
  intros Hs Hc Hp. pose proof (trim_right_nonempty s Hs Hp) as Hne.
  destruct (trim_right_spec is_hyphen s) as (u & Hu & _ & H).
  split_and!; [done|by apply trim_right_forallb| |].
  - rewrite Hu in Hp. by apply prefix_no_hyphen in Hp.
  - destruct H as [|(r & c & -> & Hc')]; [done|]. rewrite has_suffix_snoc. done.
Qed.

Lemma trim_right_len f s : str_len (trim_right_func f s) <= str_len s.
Proof.
  destruct (trim_right_spec f s) as (u & Hu & _). unfold str_len. rewrite Hu at 2.
  rewrite str_length_app. lia.
Qed.

Lemma sanitize_label local :
  sanitizeUserID local = "" \/ (label_text (sanitizeUserID local) /\ str_len (sanitizeUserID local) <= 63).
Proof.
  unfold sanitizeUserID. set (s0 := replace_runs false (to_lower local)). cbv zeta.
  set (s1 := trim_left_func is_hyphen s0). set (s2 := trim_right_func is_hyphen s1).
  destruct (decide (s1 = "")) as [He|Hne]; [left; unfold s2; by rewrite He|]. right.
  assert (Hc : str_forallb name_char s1 = true) by apply trim_left_forallb, replace_runs_chars.
  assert (Hp : has_prefix s1 "-" = false).
  { unfold s1 in *. destruct (trim_left_spec is_hyphen s0) as (u & _ & _ & [Hs|(c & r & -> & Hh)]); [done|].
    apply has_prefix_hyphen. by apply Ascii.eqb_neq in Hh. }
  pose proof (trimmed_label s1 Hne Hc Hp) as Hl. fold s2 in Hl. unfold maxUserIDLength.
  destruct (63 <? str_len s2) eqn:El; bool_facts; [|done]. destruct Hl as (Hne2 & Hc2 & Hp2 & Hs2).
  assert (Ht : str_take 63 s2 <> "") by (destruct s2; done).
  split.
  - apply trimmed_label; [done|by apply str_forallb_take|].
    rewrite <- (str_take_drop 63 s2) in Hp2. by apply prefix_no_hyphen in Hp2.
  - etrans; [apply trim_right_len|]. unfold str_len. rewrite str_length_take. lia.
Qed.

(** ** The candidates *)

Lemma go_digits x t : str_forallb is_digit t = true -> str_forallb is_digit (pretty_N_go x t) = true.
Proof.
  revert t. induction (N.lt_wf_0 x) as [x _ IH]; intros t Ht.
  destruct (decide (x = 0)%N) as [->|Hx]; [by rewrite pretty_N_go_0|].
  rewrite pretty_N_go_step by lia. apply IH; [apply N.div_lt; lia|]. simpl. rewrite Ht, andb_true_r.
  assert (Hm : (x `mod` 10 < 10)%N) by (apply N.mod_lt; lia). revert Hm.
  generalize (x `mod` 10)%N. intros d Hd.
  assert (d = 0 \/ d = 1 \/ d = 2 \/ d = 3 \/ d = 4 \/ d = 5 \/ d = 6 \/ d = 7 \/ d = 8 \/ d = 9)%N as H
    by lia. by repeat (destruct H as [->|H]; [reflexivity|]); subst.
Qed.

Lemma pretty_digits (n : N) : str_forallb is_digit (pretty n) = true.
Proof. unfold pretty, pretty_N. destruct (decide _); [done|]. by apply go_digits. Qed.

Lemma go_length k x t :
  (x < 10 ^ N.of_nat k)%N -> (String.length (pretty_N_go x t) <= k + String.length t)%nat.
Proof.
  revert x t. induction k as [|k IH]; intros x t Hx;
    (destruct (decide (x = 0)%N) as [->|H0]; [rewrite pretty_N_go_0; lia|]).
  - change (10 ^ N.of_nat 0)%N with 1%N in Hx. lia.
  - rewrite pretty_N_go_step by lia.
    etrans; [apply IH|simpl; lia]. apply N.Div0.div_lt_upper_bound.
    by rewrite Nat2N.inj_succ, N.pow_succ_r' in Hx.
Qed.

Lemma pretty_length k (n : N) :
  (n < 10 ^ N.of_nat k)%N -> (0 < k)%nat -> (1 <= String.length (pretty n) <= k)%nat.
Proof.
  intros Hn Hk. split.
  - destruct (pretty n) eqn:E; [|simpl; lia]. exfalso.
    unfold pretty, pretty_N in E. destruct (decide _); [done|].
    assert (Hl : forall x t, (String.length t <= String.length (pretty_N_go x t))%nat).
    { intros x. induction (N.lt_wf_0 x) as [x _ IH]; intros t.
      destruct (decide (x = 0)%N) as [->|Hx]; [by rewrite pretty_N_go_0|].
      rewrite pretty_N_go_step by lia. etrans; [|apply IH, N.div_lt; lia]. simpl; lia. }
    rewrite pretty_N_go_step in E by lia. specialize (Hl (n `div` 10)%N (String (pretty_N_char (n `mod` 10)) "")).
    rewrite E in Hl. simpl in Hl. lia.
  - unfold pretty, pretty_N. destruct (decide _); [simpl; lia|].
    pose proof (go_length k n "" Hn). simpl in *. lia.
Qed.

Definition last_digit (s : string) : bool :=
  match str_rev s with String d _ => is_digit d | EmptyString => false end.

Lemma suffix_last_digit t d : d <> "" -> str_forallb is_digit d = true ->
  last_digit (t +:+ String "-" d) = true /\ has_suffix (t +:+ String "-" d) "-" = false.
Proof.
  intros Hd Hf. destruct (str_snoc_inv d Hd) as (r & c & ->). rewrite str_forallb_app in Hf.
  change (String "-" (r +:+ String c "")) with (String "-" r +:+ String c "").
  rewrite <- str_app_assoc, has_suffix_snoc. unfold last_digit. rewrite str_rev_snoc.
  apply andb_true_iff in Hf as [_ Hc]. simpl in Hc. rewrite andb_true_r in Hc. split; [done|].
  destruct (c =? "-")%char eqn:E; [|done]. apply Ascii.eqb_eq in E as ->. done.
Qed.

Lemma last_digit_unreserved s : last_digit s = true -> existsb (String.eqb s) ReservedNames = false.
Proof.
  intros H. apply not_true_iff_false. intros Hr. apply existsb_exists in Hr as (x & Hx & Heq).
  bool_facts. subst x. assert (A : forallb (fun r => negb (last_digit r)) ReservedNames = true) by reflexivity.
  rewrite forallb_forall in A. specialize (A s Hx). by rewrite H in A.
Qed.

Lemma digit_name c : is_digit c = true -> name_char c = true.
Proof. unfold name_char, is_lower_alnum. by intros ->. Qed.

(** What a suffixed candidate is made of. *)
Lemma suffix_shape base n :
  label_text base -> (n < 10 ^ 18)%N ->
  exists t u, base = t +:+ u /\ label_text t /\ suffixUserID base n = t +:+ String "-" (pretty n)
  /\ (String.length t + String.length (pretty n) <= 62)%nat.
Proof.
  intros (Hne & Hc & Hp & Hs) Hn. pose proof (pretty_length 18 n Hn ltac:(lia)) as Hl.
  unfold suffixUserID, maxUserIDLength. cbv zeta. unfold str_len. cbn [String.length].
  destruct (63 <? _) eqn:El; bool_facts.
  - set (k := Z.to_nat _). assert (Hk : (k = 62 - String.length (pretty n))%nat) by lia.
    destruct (trim_right_spec is_hyphen (str_take k base)) as (u & Hu & _).
    exists (trim_right_func is_hyphen (str_take k base)), (u +:+ str_drop k base).
    split; [rewrite <- str_app_assoc, <- Hu; by rewrite str_take_drop|]. split_and!; [|done|].
    + assert (Hk0 : str_take k base <> "").
      { intros H. apply (f_equal String.length) in H. rewrite str_length_take in H. simpl in H.
        destruct base; [done|simpl in *; lia]. }
      apply trimmed_label; [done|by apply str_forallb_take|].
      rewrite <- (str_take_drop k base) in Hp. by apply prefix_no_hyphen in Hp.
    + pose proof (trim_right_len is_hyphen (str_take k base)) as Ht. unfold str_len in Ht.
      rewrite str_length_take in Ht. lia.
  - exists base, "". rewrite str_app_nil_r. split_and!; try done. lia.
Qed.

Lemma prefix_xn t d :
  str_forallb is_digit d = true -> d <> "" -> has_suffix t "-" = false ->
  has_prefix (t +:+ String "-" d) "xn--" = true -> has_prefix t "xn--" = true.
Proof.
  intros Hd Hne Hs H. apply has_prefix_spec in H as [r H].
  destruct t as [|c1 [|c2 [|c3 [|c4 t]]]]; simpl in H; simplify_eq; by destruct t.
Qed.

Lemma suffix_valid base n :
  label_text base -> has_prefix base "xn--" = false -> (n < 10 ^ 18)%N ->
  ValidateUserID (suffixUserID base n) = Ok tt.
Proof.
  intros Hb Hx Hn. destruct (suffix_shape base n Hb Hn) as (t & u & Hbase & (Hne & Hc & Hp & Hs) & -> & Hl).
  pose proof (pretty_digits n) as Hd. pose proof (pretty_length 18 n Hn ltac:(lia)) as Hdl.
  assert (Hdne : pretty n <> "") by (intros E; rewrite E in Hdl; simpl in Hdl; lia).
  destruct (suffix_last_digit t (pretty n) Hdne Hd) as [Hld Hns].
  assert (Hchars : str_forallb name_char (t +:+ String "-" (pretty n)) = true).
  { rewrite str_forallb_app, Hc. simpl. eapply str_forallb_impl; [apply digit_name|done]. }
  apply validateDNSLabel_spec. split.
  - split; [unfold str_len; rewrite str_length_app; simpl; lia|]. split_and!; [done| |done].
    destruct t as [|c t]; [done|]. rewrite has_prefix_hyphen in Hp.
    change (String c t +:+ String "-" (pretty n)) with (String c (t +:+ String "-" (pretty n))).
    by rewrite has_prefix_hyphen.
  - unfold IsReserved. rewrite last_digit_unreserved by done.
    destruct (has_prefix _ "_" || _) eqn:E; [|done]. apply orb_true_iff in E as [E|E].
    + apply has_prefix_spec in E as [r E]. rewrite E in Hchars. discriminate Hchars.
    + apply prefix_xn in E; [|done..]. exfalso. apply has_prefix_spec in E as [r E].
      apply not_true_iff_false in Hx. apply Hx, has_prefix_spec. exists (r +:+ u).
      by rewrite Hbase, E, str_app_assoc.
Qed.

Lemma hyphen_split t1 t2 d1 d2 :
  str_forallb is_digit d1 = true -> str_forallb is_digit d2 = true ->
  t1 +:+ String "-" d1 = t2 +:+ String "-" d2 -> d1 = d2.
Proof.
  intros H1 H2 H. apply (f_equal str_rev) in H. rewrite !str_rev_append, !str_rev_cons in H.
  rewrite !str_app_assoc in H. simpl in H.
  assert (Hn : forall d, str_forallb is_digit d = true ->
            str_forallb (fun c => negb (c =? "-")%char) (str_rev d) = true).
  { intros d Hd. rewrite str_forallb_rev. eapply str_forallb_impl; [|exact Hd].
    intros c Hc. destruct (c =? "-")%char eqn:E; [|done]. apply Ascii.eqb_eq in E as ->. done. }
  pose proof (cut_byte_app (str_rev d1) "-" (str_rev t1) (Hn _ H1)) as C1.
  pose proof (cut_byte_app (str_rev d2) "-" (str_rev t2) (Hn _ H2)) as C2.
  rewrite H, C2 in C1. injection C1 as C1 _. rewrite <- (str_rev_rev d1), <- (str_rev_rev d2). congruence.
Qed.

Lemma suffix_inj base n m :
  label_text base -> (n < 10 ^ 18)%N -> (m < 10 ^ 18)%N ->
  suffixUserID base n = suffixUserID base m -> n = m.
Proof.
  intros Hb Hn Hm H. destruct (suffix_shape base n Hb Hn) as (t1 & u1 & _ & _ & E1 & _).
  destruct (suffix_shape base m Hb Hm) as (t2 & u2 & _ & _ & E2 & _). rewrite E1, E2 in H.
  apply (inj pretty). eapply hyphen_split; eauto using pretty_digits.
Qed.

(** ** The search *)

(** The candidate tried [k] iterations after [c], when [n] is next. *)
Definition candidate_at (base c : string) (n : N) (k : nat) : string :=
  match k with O => c | S k => suffixUserID base (n + N.of_nat k) end.

Definition available (t : Tables) (c : string) : Prop :=
  ValidateUserID c = Ok tt /\ t_handles t !! c = None.

Lemma derive_loop_finds fuel base c n w :
  faults w = [] ->
  (exists k, (k < fuel)%nat /\ available (tbl w) (candidate_at base c n k)) ->
  exists id, derive_loop fuel base c n w = (Ok (Some id), w) /\ available (tbl w) id.
Proof.
  intros Hf. revert c n. induction fuel as [|fuel IH]; intros c n (k & Hk & Ha); [lia|].
  cbn [derive_loop]. destruct (ValidateUserID c) as [[]|e] eqn:Ev; cbn [is_ok].
  - unfold bind, attempt, PublicUserIDs_ByUserID. rewrite (query_plain _ w Hf). unfold row.
    destruct (t_handles (tbl w) !! c) eqn:El; [|by exists c].
    apply IH. destruct k as [|k]; [destruct Ha as [_ Ha]; simpl in Ha; congruence|].
    exists k. split; [lia|]. destruct k as [|k]; simpl in *; [by rewrite N.add_0_r in Ha|].
    by replace (n + 1 + N.of_nat k)%N with (n + N.pos (Pos.of_succ_nat k))%N by lia.
  - apply IH. destruct k as [|k]; [destruct Ha as [Ha _]; simpl in Ha; congruence|].
    exists k. split; [lia|]. destruct k as [|k]; simpl in *; [by rewrite N.add_0_r in Ha|].
    by replace (n + 1 + N.of_nat k)%N with (n + N.pos (Pos.of_succ_nat k))%N by lia.
Qed.

(** More distinct keys than rows: one is free. *)
Lemma free_key {A} (m : gmap string A) (l : list string) :
  NoDup l -> (size m < length l)%nat -> Exists (fun c => m !! c = None) l.
Proof.
  intros Hnd Hl. destruct (decide (Exists (fun c => m !! c = None) l)) as [|Hno]; [done|exfalso].
  assert (Hsub : list_to_set (C := gset string) l ⊆ dom m).
  { intros c Hc. apply elem_of_list_to_set in Hc. apply elem_of_dom.
    destruct (m !! c) eqn:E; [by eexists|]. exfalso. apply Hno, Exists_exists. eauto. }
  apply subseteq_size in Hsub. rewrite size_list_to_set, size_dom in Hsub by done. lia.
Qed.

Lemma base_label email : label_text (user_id_base email).
Proof.
  unfold user_id_base. destruct (cut_byte email "@") as [[local r] ok].
  destruct (sanitizeUserID local == "") eqn:E; bool_facts.
  - unfold label_text. split_and!; done.
  - by destruct (sanitize_label local) as [|[? _]].
Qed.

(** A candidate under the prefix of internationalized labels is never valid. *)
Lemma xn_invalid c : has_prefix c "xn--" = true -> ValidateUserID c <> Ok tt.
Proof.
  intros H Hv. apply validateDNSLabel_spec in Hv as [_ Hr]. unfold IsReserved in Hr.
  by rewrite H, orb_true_r in Hr.
Qed.

Lemma xn_suffix base n :
  has_prefix base "xn--" = true -> str_len base <= 44 -> (n < 10 ^ 18)%N ->
  has_prefix (suffixUserID base n) "xn--" = true.
Proof.
  intros Hx Hl Hn. pose proof (pretty_length 18 n Hn ltac:(lia)) as Hd.
  unfold suffixUserID, maxUserIDLength. cbv zeta. unfold str_len in *. cbn [String.length].
  rewrite (proj2 (Z.ltb_ge _ _)) by lia. apply has_prefix_spec in Hx as [r ->].
  apply has_prefix_spec. eexists. by rewrite str_app_assoc.
Qed.

Lemma derive_loop_stuck fuel base c n w :
  has_prefix base "xn--" = true -> str_len base <= 44 -> has_prefix c "xn--" = true ->
  (n + N.of_nat fuel < 10 ^ 18)%N -> derive_loop fuel base c n w = (Ok None, w).
Proof.
  intros Hb Hl. revert c n. induction fuel as [|fuel IH]; intros c n Hc Hn; [done|].
  cbn [derive_loop]. pose proof (xn_invalid c Hc). destruct (ValidateUserID c) as [[]|e]; [done|].
  cbn [is_ok]. apply IH; [apply xn_suffix; [done|done|]|]; lia.
Qed.

(** Deriving a user identifier: unless the base made from the address starts
    with [xn--], the search returns after at most two more iterations than there
    are identifiers in use, with a valid identifier nobody has, having changed
    nothing. From a base of at most 44 characters that does start with [xn--] it
    never returns: every candidate is reserved, for at least 10^17 iterations
    (the request hangs). *)
Theorem derive_user_id email w fuel (Hf : faults w = [])
    (Hsize : (size (t_handles (tbl w)) + 2 <= fuel)%nat) (Hint : (N.of_nat fuel < 10 ^ 17)%N) :
  (has_prefix (user_id_base email) "xn--" = false ->
     exists id, DeriveUserID fuel email w = (Ok (Some id), w)
       /\ ValidateUserID id = Ok tt /\ t_handles (tbl w) !! id = None)
  /\ (has_prefix (user_id_base email) "xn--" = true -> str_len (user_id_base email) <= 44 ->
      DeriveUserID fuel email w = (Ok None, w)).
Proof.
  pose proof (base_label email) as Hb. unfold DeriveUserID. cbv zeta.
  split; [intros Hx|intros Hx Hl; apply derive_loop_stuck; try done; lia].
  set (base := user_id_base email) in *. apply derive_loop_finds; [done|].
  set (ks := seq 1 (S (size (t_handles (tbl w))))).
  assert (Hk : forall k, In k ks -> (1 <= k)%nat /\ (k < fuel)%nat) by (intros k Hk; apply in_seq in Hk; lia).
  assert (Hfree : Exists (fun c => t_handles (tbl w) !! c = None)
                    (map (fun k => suffixUserID base (2 + N.of_nat (k - 1))) ks)).
  { apply free_key; [|rewrite length_map; unfold ks; rewrite length_seq; lia].
    apply NoDup_fmap_2_strong; [|apply NoDup_ListNoDup, seq_NoDup].
    intros k1 k2 H1%list_elem_of_In%Hk H2%list_elem_of_In%Hk E. apply suffix_inj in E; [|done|lia..]. lia. }
  apply Exists_exists in Hfree as (c & Hc & Hn). apply list_elem_of_In, in_map_iff in Hc as (k & <- & Hin).
  apply Hk in Hin as [H1 H2]. exists k. split; [done|]. destruct k as [|k]; [lia|].
  unfold candidate_at. replace (S k - 1)%nat with k in Hn by lia. split; [|done].
  apply suffix_valid; [done|done|lia].
Qed.
End UserID.

(** ** Witness *)

Lemma derive_user_id_witness :
  (exists id, DeriveUserID (U := ascii_tables) 4 "bob@example.com" sample_world
              = (Ok (Some id), sample_world) /\ ValidateUserID id = Ok tt)
  /\ DeriveUserID (U := ascii_tables) 4 "xn--bob@example.com" sample_world = (Ok None, sample_world).
Proof.
  split.
  - destruct (derive_user_id (U := ascii_tables) "bob@example.com" sample_world 4 eq_refl
      ltac:(vm_compute; lia) ltac:(reflexivity)) as [H _].
    destruct H as (id & H & Hv & _); [vm_compute; reflexivity|].
    exact (ex_intro _ id (conj H Hv)).
  - destruct (derive_user_id (U := ascii_tables) "xn--bob@example.com" sample_world 4 eq_refl
      ltac:(vm_compute; lia) ltac:(reflexivity)) as [_ H].
    apply H; vm_compute; [reflexivity|discriminate].
Defined.
