(* ===== verification/Tokens.v ===== *)
(** * Tokens: signed access tokens, login rules and the users they admit

    Models src/server/internal/auth/accesstoken.go, loginrules.go and the user
    checks of session.go: minting and verifying the HMAC-signed token, the
    first-match evaluation of e-mail rules, and the two validations every
    credential ends in. *)

From S2P Require Import Prelude GoNum Types Settings Store StoreCreds Digest Glob.

(** The configuration and derived keys of [*Auth]. *)
Record Auth := mkAuth {
  accessKey : string;
  invokeKey : string;
  csrfKey : string;
  BaseURL : string;
  ControlOrigin : string;
  FunctionDomain : string;
  ClientID : string;
  controlHost : string;
  controlPort : string;
  cfg_OpenMode : bool
}.

Definition secureCookies (a : Auth) : bool := negb (has_prefix (BaseURL a) "http://").

Inductive AuthErr :=
| ErrUnauthenticated
| ErrInvokeForbidden
| ErrEvaluateRules (e : StoreErr)
| ErrLoginDenied
| ErrCLIAuthInvalidRequest
| ErrCLIAuthCodeInvalid
| ErrPKCEMismatch
| ErrCLICredentialInvalid
| ErrAuthStore (e : StoreErr).

(** ** loginrules.go *)

Section Rules.
Context {U : UnicodeTables}.

Definition ruleMatches (r : LoginRule) (email : string) : bool :=
  match lr_RuleType r with
  | LoginRuleTypeDefault => true
  | LoginRuleTypeEmailExact => equal_fold (trim_space (lr_Value r)) email
  | LoginRuleTypeEmailDomain =>
      let '(_, domain, ok) := cut_byte email "@" in
      ok && equal_fold (trim_prefix (trim_space (lr_Value r)) "@") domain
  | LoginRuleTypeEmailGlob =>
      match Match (to_lower (trim_space (lr_Value r))) email with
      | Some ok => ok
      | None => false
      end
  end.

Fixpoint first_rule (rules : list LoginRule) (email : string) : bool :=
  match rules with
  | [] => false
  | r :: rules =>
      if ruleMatches r email then bool_decide (lr_Action r = LoginRuleActionAllow)
      else first_rule rules email
  end.

Definition EvaluateLoginRules (rules : list LoginRule) (email : string) : bool :=
  first_rule rules (to_lower (trim_space email)).
End Rules.

(** ** accesstoken.go *)

Definition AccessTokenPrefix : string := "fbxa_".
Definition DefaultAccessTokenTTL : Z := 15 * Minute.
Definition MaxAccessTokenTTL : Z := Hour.
Definition accessTokenKind : string := "access".
Definition AudienceMCP : string := "mcp".

Record accessTokenClaims := mkClaims {
  Sub : string;
  Email : string;
  IAT : Z;
  EXP : Z;
  Kind : string;
  Aud : string
}.

Definition ClampAccessTokenTTL (requested : Z) : Z :=
  if requested <=? 0 then DefaultAccessTokenTTL
  else if MaxAccessTokenTTL <? requested then MaxAccessTokenTTL
  else requested.

Definition claims_fields (c : accessTokenClaims) : list (string * json) :=
  ([("sub", JStr (Sub c)); ("email", JStr (Email c)); ("iat", JInt (IAT c));
         ("exp", JInt (EXP c)); ("kind", JStr (Kind c))] ++ opt_str "aud" (Aud c)).
Definition claims_json (c : accessTokenClaims) : json := JObj (claims_fields c).

Section Tokens.
Context {U : UnicodeTables} {J : JsonText} {I : IdGen}.

Definition dec_claims (c : accessTokenClaims) (kvs : list (string * json))
    : option accessTokenClaims :=
  match field "sub" dec_string (Sub c) kvs, field "email" dec_string (Email c) kvs,
        field "iat" dec_int (IAT c) kvs, field "exp" dec_int (EXP c) kvs,
        field "kind" dec_string (Kind c) kvs, field "aud" dec_string (Aud c) kvs with
  | Some s, Some e, Some i, Some x, Some k, Some a => Some (mkClaims s e i x k a)
  | _, _, _, _, _, _ => None
  end.

Definition zero_claims : accessTokenClaims := mkClaims "" "" 0 0 "" "".

Definition parse_claims (b : string) : option accessTokenClaims :=
  match json_parse b with
  | Some j => dec_object dec_claims zero_claims j
  | None => None
  end.

(** The signature over the encoded payload. *)
Definition token_mac (key p : string) : string := hmac_sha256 key p.

Definition signAccessToken (a : Auth) (c : accessTokenClaims) : string :=
  let p := b64_encode (json_print (claims_json c)) in
  AccessTokenPrefix +:+ p +:+ "." +:+ b64_encode (token_mac (accessKey a) p).

(** [n] is the current time. *)
Definition verifyAccessToken (a : Auth) (n : Time) (raw : string)
    : result AuthErr accessTokenClaims :=
  guard! has_prefix raw AccessTokenPrefix else ErrUnauthenticated in
  let '(p, sig, ok) := cut_byte (trim_prefix raw AccessTokenPrefix) "." in
  guard! ok else ErrUnauthenticated in
  match b64_decode sig with
  | None => Err ErrUnauthenticated
  | Some got =>
      guard! got == token_mac (accessKey a) p else ErrUnauthenticated in
      match b64_decode p with
      | None => Err ErrUnauthenticated
      | Some b =>
          match parse_claims b with
          | None => Err ErrUnauthenticated
          | Some c =>
              guard! (Kind c == accessTokenKind) && negb (Sub c == "") else ErrUnauthenticated in
              guard! negb (EXP c <=? toUnix n) else ErrUnauthenticated in
              Ok c
          end
      end
  end.

(** ** session.go: who may use a credential *)

Definition checkLoginRules (email : string) : M StoreErr bool :=
  do! rules <- Organizations_ListLoginRules;
  ret (EvaluateLoginRules rules email).

Definition validateAuthenticatable (u : User) : M AuthErr User :=
  if bool_decide (u_Status u = UserStatusDisabled) then throw ErrUnauthenticated
  else
    do! allowed <- or_err ErrEvaluateRules (checkLoginRules (u_Email u));
    if (allowed : bool) then ret u else throw ErrUnauthenticated.

Definition validateActiveUser (u : User) : M AuthErr User :=
  if negb (bool_decide (u_Status u = UserStatusActive)) then throw ErrInvokeForbidden
  else
    do! allowed <- or_err ErrEvaluateRules (checkLoginRules (u_Email u));
    if (allowed : bool) then ret u else throw ErrInvokeForbidden.

Definition loadActiveUser (userID : string) : M AuthErr User :=
  do! u <- or_err (fun _ => ErrUnauthenticated) (Users_ByID userID);
  validateAuthenticatable u.

Definition loadActiveUserByEmail (email : string) : M AuthErr User :=
  do! u <- or_err (fun _ => ErrUnauthenticated) (Users_ByEmail email);
  validateActiveUser u.

Definition LoadAuthenticatableUser (userID : string) : M AuthErr User := loadActiveUser userID.

(** ** accesstoken.go: issuing and authenticating *)

Definition issueAccessToken (a : Auth) (userID : string) (ttl : Z) (aud : string)
    : M AuthErr (string * Time) :=
  do! u <- or_err (fun _ => ErrUnauthenticated) (Users_ByID userID);
  do! n <- time_Now;
  let exp := n + ClampAccessTokenTTL ttl in
  ret (signAccessToken a (mkClaims (u_ID u) (u_Email u) (toUnix n) (toUnix exp) accessTokenKind aud),
       exp).

Definition IssueAccessToken (a : Auth) (userID : string) (ttl : Z) : M AuthErr (string * Time) :=
  issueAccessToken a userID ttl "".

Definition IssueAccessTokenForAudience (a : Auth) (userID : string) (ttl : Z) (aud : string)
    : M AuthErr (string * Time) := issueAccessToken a userID ttl aud.

Definition authenticateAccessToken (a : Auth) (raw : string) : M AuthErr User :=
  do! n <- time_Now;
  do! c <- lift (verifyAccessToken a n raw);
  loadActiveUser (Sub c).

Definition AccessTokenAudience (a : Auth) (n : Time) (raw : string) : option string :=
  match verifyAccessToken a n raw with Ok c => Some (Aud c) | Err _ => None end.

(** ** Lemmas *)

Ltac claim_fields := intros; unfold claims_fields; repeat (progress (fields; cbn [dec_string]; cbn beta iota)).

Lemma claims_strings c :
  field "sub" dec_string "" (claims_fields c) = Some (Sub c)
  /\ field "email" dec_string "" (claims_fields c) = Some (Email c)
  /\ field "kind" dec_string "" (claims_fields c) = Some (Kind c).
Proof. split_and!; claim_fields; done. Qed.

Lemma claims_ints c :
  int64 (IAT c) -> int64 (EXP c) ->
  field "iat" dec_int 0 (claims_fields c) = Some (IAT c)
  /\ field "exp" dec_int 0 (claims_fields c) = Some (EXP c).
Proof.
  intros. split; claim_fields; rewrite dec_int_ok by done; cbn beta iota; claim_fields; reflexivity.
Qed.

Lemma claims_aud c : field "aud" dec_string "" (claims_fields c) = Some (Aud c).
Proof. claim_fields. unfold or_str. destruct (Aud c == "") eqn:E; bool_facts; congruence. Qed.

(** Claims that print without loss. *)
Definition claims_text (c : accessTokenClaims) : bool :=
  ValidString (Sub c) && ValidString (Email c) && ValidString (Kind c) && ValidString (Aud c).

Lemma claims_json_ok c : claims_text c = true -> json_ok (claims_json c) = true.
Proof.
  unfold claims_text, claims_json, claims_fields, opt_str. intros H. bool_facts. cbn [json_ok].
  rewrite forallb_app. destruct (Aud c == ""); simpl; by rewrite ?H, ?H0, ?H1, ?H2, ?H3.
Qed.

Lemma claims_roundtrip c :
  claims_text c = true -> int64 (IAT c) -> int64 (EXP c) -> parse_claims (json_print (claims_json c)) = Some c.
Proof.
  intros Hc Hi He. unfold parse_claims. rewrite json_parse_print by by apply claims_json_ok.
  unfold claims_json. cbn [dec_object].
  unfold dec_claims, zero_claims. cbn [Sub Email IAT EXP Kind Aud].
  destruct (claims_strings c) as (-> & -> & ->). destruct (claims_ints c Hi He) as (-> & ->).
  rewrite claims_aud. by destruct c.
Qed.

Lemma no_dot s : str_forallb url_safe s = true -> str_forallb (fun d => negb (d =? ".")%char) s = true.
Proof.
  apply str_forallb_impl. intros c H. destruct (c =? ".")%char eqn:E; [|done].
  apply Ascii.eqb_eq in E as ->. discriminate H.
Qed.

(** ** Login rules *)

(** The rules a fresh organization is given (see Login). *)
Definition seed_rules (email : string) : list LoginRule :=
  [mkLoginRule "" 0 LoginRuleTypeEmailExact email LoginRuleActionAllow 0 0;
   mkLoginRule "" 1 LoginRuleTypeDefault "" LoginRuleActionDeny 0 0].

Lemma trim_ascii s : is_ascii s = true -> is_ascii (trim_space s) = true.
Proof.
  intros H. unfold trim_space. rewrite H. unfold trim_right_func.
  assert (Hl : forall f t, is_ascii t = true -> is_ascii (trim_left_func f t) = true).
  { intros f t. induction t as [|c t IH]; simpl; [done|]. intros Ht. destruct (f c); [|done].
    apply IH. unfold is_ascii in *. simpl in Ht. by bool_facts. }
  assert (Hr : forall t, is_ascii t = true -> is_ascii (str_rev t) = true).
  { intros t. induction t as [|c t IH]; [done|]. intros Ht. unfold is_ascii in Ht. simpl in Ht.
    bool_facts. rewrite str_rev_cons, is_ascii_app, IH by done. unfold is_ascii. simpl.
    by rewrite (proj2 (Z.ltb_lt _ _) H0). }
  auto.
Qed.

(** Rules of the shape a fresh organization is given, whatever their identifiers. *)
Lemma seeded r0 r1 admin email :
  lr_RuleType r0 = LoginRuleTypeEmailExact -> lr_Value r0 = admin -> lr_Action r0 = LoginRuleActionAllow ->
  lr_RuleType r1 = LoginRuleTypeDefault -> lr_Action r1 = LoginRuleActionDeny ->
  is_ascii admin = true -> is_ascii email = true ->
  EvaluateLoginRules [r0; r1] email = (to_lower (trim_space email) == to_lower (trim_space admin)).
Proof.
  intros Ht Hv Hact Ht1 Hact1 Ha He. unfold EvaluateLoginRules. cbn [first_rule]. unfold ruleMatches.
  rewrite Ht, Hv, Hact, Ht1, Hact1. unfold equal_fold.
  pose proof (trim_ascii _ Ha) as Ha'. pose proof (trim_ascii _ He) as He'.
  assert (Hl : to_lower (trim_space email) = str_map byte_lower (trim_space email))
    by (unfold to_lower; by rewrite He').
  assert (Hl' : to_lower (trim_space admin) = str_map byte_lower (trim_space admin))
    by (unfold to_lower; by rewrite Ha').
  rewrite Ha', Hl, Hl', is_ascii_lower, str_map_lower_idem by done. cbn [andb].
  rewrite String.eqb_sym. by destruct (_ == _).
Qed.

(** Login rules: an address is admitted exactly when some rule matches it, no
    earlier rule does, and that rule allows; in particular an empty rule set
    admits nobody, and the rules a fresh organization is given admit exactly its
    first user's own address (for ASCII addresses, up to case and surrounding
    space). *)
Theorem login_rules_first_match rules email :
  (EvaluateLoginRules rules email = true <->
   exists l1 r l2, rules = l1 ++ r :: l2
     /\ Forall (fun x => ruleMatches x (to_lower (trim_space email)) = false) l1
     /\ ruleMatches r (to_lower (trim_space email)) = true /\ lr_Action r = LoginRuleActionAllow)
  /\ EvaluateLoginRules [] email = false
  /\ forall admin, is_ascii admin = true -> is_ascii email = true ->
       EvaluateLoginRules (seed_rules admin) email
       = (to_lower (trim_space email) == to_lower (trim_space admin)).
Proof.
  split_and!; [|done|].
  - unfold EvaluateLoginRules. set (e := to_lower (trim_space email)). split.
    + induction rules as [|r rules IH]; simpl; [done|]. destruct (ruleMatches r e) eqn:E.
      * intros H. bool_facts. exists [], r, rules. by split_and!.
      * intros H. destruct (IH H) as (l1 & r' & l2 & -> & ? & ? & ?). exists (r :: l1), r', l2.
        split_and!; try done. by constructor.
    + intros (l1 & r & l2 & -> & Hl & Hr & Ha). induction Hl as [|x l1 Hx Hl IH]; simpl.
      * rewrite Hr. by apply bool_decide_eq_true.
      * by rewrite Hx.
  - intros admin Ha He. by apply seeded.
Qed.

Lemma cut_dot p s :
  str_forallb url_safe p = true -> cut_byte (p +:+ "." +:+ s) "." = (p, s, true).
Proof. intros H. by apply (cut_byte_app p "."), no_dot. Qed.

Lemma query_now {B} (f : Tables -> result StoreErr B) w : now (query f w).2 = now w.
Proof.
  unfold query, statement. destruct (faults w) as [|[] fs]; simpl; try done; by destruct (f (tbl w)).
Qed.

Lemma verify_signed a c n :
  claims_text c = true -> int64 (IAT c) -> int64 (EXP c) -> Kind c = accessTokenKind -> Sub c <> "" ->
  verifyAccessToken a n (signAccessToken a c)
  = if EXP c <=? toUnix n then Err ErrUnauthenticated else Ok c.
Proof.
  intros Hc Hi He Hk Hs. unfold verifyAccessToken, signAccessToken.
  set (p := b64_encode (json_print (claims_json c))).
  rewrite (proj2 (has_prefix_spec _ _)) by (by eexists).
  rewrite trim_prefix_app, cut_dot by apply b64_encode_safe.
  rewrite b64_decode_encode, String.eqb_refl. unfold p. rewrite b64_decode_encode.
  rewrite claims_roundtrip by done. rewrite Hk, String.eqb_refl.
  apply String.eqb_neq in Hs. rewrite Hs. simpl. by destruct (EXP c <=? toUnix n).
Qed.

(** C11. Access tokens: a token is accepted exactly when it is the prefix, a
    payload and a signature, the signature decodes to the HMAC of the payload
    under the server's key, and the payload decodes to unexpired claims of the
    access kind with a subject; and every token the server signs for such claims
    is accepted, with those claims, until it expires. *)
Theorem access_token_verified a n :
  (forall raw c, verifyAccessToken a n raw = Ok c <->
     exists p sig b, raw = AccessTokenPrefix +:+ p +:+ "." +:+ sig
       /\ str_forallb (fun d => negb (d =? ".")%char) p = true
       /\ b64_decode sig = Some (token_mac (accessKey a) p)
       /\ b64_decode p = Some b /\ parse_claims b = Some c
       /\ Kind c = accessTokenKind /\ Sub c <> "" /\ toUnix n < EXP c)
  /\ (forall c, claims_text c = true -> int64 (IAT c) -> int64 (EXP c) -> Kind c = accessTokenKind -> Sub c <> "" ->
       verifyAccessToken a n (signAccessToken a c)
       = if EXP c <=? toUnix n then Err ErrUnauthenticated else Ok c).
Proof.
  split; [|intros; by apply verify_signed]. intros raw c. unfold verifyAccessToken. split.
  - intros H. case_step H. apply has_prefix_spec in E as [body ->]. rewrite trim_prefix_app in H.
    destruct (cut_byte body ".") as [[p sig] []] eqn:Ec; [|discriminate].
    apply cut_byte_found in Ec as [-> Hp]. case_all H. injection H as <-. bool_facts.
    subst. eexists p, sig, _. by split_and!.
  - intros (p & sig & b & -> & Hp & Hs & Hb & Hc & Hk & Hsub & He).
    rewrite (proj2 (has_prefix_spec _ _)) by (by eexists).
    rewrite trim_prefix_app. change ("." +:+ sig) with (String "." sig).
    rewrite (cut_byte_app p ".") by done.
    rewrite Hs, String.eqb_refl, Hb, Hc, Hk, String.eqb_refl. apply String.eqb_neq in Hsub.
    rewrite Hsub. simpl. by rewrite (proj2 (Z.leb_gt _ _) He).
Qed.

Lemma clamp_range ttl : 0 < ClampAccessTokenTTL ttl <= MaxAccessTokenTTL.
Proof.
  unfold ClampAccessTokenTTL, DefaultAccessTokenTTL, MaxAccessTokenTTL, Hour, Minute, Second.
  bool_lia || (repeat case_match; bool_lia).
Qed.

(** A minted token names its user and audience and is accepted exactly until
    the expiry reported with it, which is later than now and never more than an
    hour away, whatever lifetime was asked for. *)
Theorem minted_token_lifetime a userID ttl aud w token exp w'
    (Hnow : 0 <= now w <= max_int64) (Haud : ValidString aud = true)
    (Hid : forall id u, t_users (tbl w) !! id = Some u ->
             u_ID u <> "" /\ ValidString (u_ID u) = true /\ ValidString (u_Email u) = true)
    (H : issueAccessToken a userID ttl aud w = (Ok (token, exp), w')) :
  exists u, t_users (tbl w) !! userID = Some u
  /\ now w < exp <= now w + Hour
  /\ (ttl <= 0 -> exp = now w + 15 * Minute)
  /\ forall n, verifyAccessToken a n token
       = if toUnix exp <=? toUnix n then Err ErrUnauthenticated
         else Ok (mkClaims (u_ID u) (u_Email u) (toUnix (now w)) (toUnix exp) accessTokenKind aud).
Proof.
  unfold issueAccessToken in H. apply bind_ok in H as (u & w1 & Hu & H).
  unfold or_err in Hu. destruct (Users_ByID userID w) as [[u'|e] w2] eqn:Eq; [|done].
  injection Hu as -> ->. pose proof (query_ok _ _ _ _ Eq) as [Hu Ht]. unfold row in Hu. case_step Hu.
  injection Hu as ->. unfold bind, time_Now, get, ret in H. injection H as <- <- <-.
  assert (Hw : now w1 = now w).
  { pose proof (query_now (fun t => row (t_users t !! userID)) w) as Hn. unfold Users_ByID in Eq. by rewrite Eq in Hn. }
  pose proof (clamp_range ttl). rewrite Hw. exists u. split; [done|]. split_and!.
  - lia.
  - unfold MaxAccessTokenTTL in *. lia.
  - intros Hl. unfold ClampAccessTokenTTL. by rewrite (proj2 (Z.leb_le _ _) Hl).
  - intros n. destruct (Hid _ _ E) as (Hs & Hi & He).
    rewrite verify_signed; cbn [Sub Email IAT EXP Kind Aud]; try done;
      [unfold claims_text; cbn [Sub Email Kind Aud]; by rewrite Hi, He, Haud| |];
      unfold int64, toUnix, second, min_int64, max_int64, MaxAccessTokenTTL, Hour, Minute, Second in *;
      split; Z.to_euclidean_division_equations; lia.
Qed.
End Tokens.

(** ** Witnesses *)

Definition sample_auth : Auth :=
  mkAuth "k-access" "k-invoke" "k-csrf" "https://box.example" "https://box.example" "fn.example"
    "client-1" "box.example" "" false.

(** The sample installation, open to the domain example.com. *)
Definition open_world : World :=
  with_tbl sample_world (set_login_rules sample_tables
    [mkLoginRule "R1" 0 LoginRuleTypeEmailDomain "example.com" LoginRuleActionAllow 1 1]).

Lemma login_rules_first_match_witness :
  EvaluateLoginRules (U := ascii_tables) (seed_rules "alice@example.com") "ALICE@example.com" = true
  /\ EvaluateLoginRules (U := ascii_tables) (seed_rules "alice@example.com") "bob@example.com" = false.
Proof.
  split;
    [destruct (login_rules_first_match (U := ascii_tables) [] "ALICE@example.com") as (_ & _ & ->)
    |destruct (login_rules_first_match (U := ascii_tables) [] "bob@example.com") as (_ & _ & ->)];
    reflexivity.
Defined.

Definition sample_claims : accessTokenClaims :=
  mkClaims "U2" "bob@example.com" 0 900 accessTokenKind AudienceMCP.

Lemma access_token_verified_witness :
  verifyAccessToken (J := numeral_json) sample_auth (899 * second)
    (signAccessToken (J := numeral_json) sample_auth sample_claims) = Ok sample_claims
  /\ verifyAccessToken (J := numeral_json) sample_auth (900 * second)
       (signAccessToken (J := numeral_json) sample_auth sample_claims) = Err ErrUnauthenticated.
Proof.
  split; [destruct (access_token_verified (J := numeral_json) sample_auth (899 * second)) as [_ ->]
         |destruct (access_token_verified (J := numeral_json) sample_auth (900 * second)) as [_ ->]];
    try reflexivity; try discriminate; split; discriminate.
Defined.

Lemma minted_token_lifetime_witness :
  exists token w', issueAccessToken (J := numeral_json) sample_auth "U2" (24 * Hour) AudienceMCP open_world
                   = (Ok (token, 100 + Hour), w')
  /\ verifyAccessToken (J := numeral_json) sample_auth (3599 * second) token
     = Ok (mkClaims "U2" "bob@example.com" 0 3600 accessTokenKind AudienceMCP).
Proof.
  eexists _, _. split; [reflexivity|].
  destruct (minted_token_lifetime (J := numeral_json) sample_auth "U2" (24 * Hour) AudienceMCP open_world
    _ (100 + Hour) _ ltac:(split; discriminate) eq_refl
    ltac:(intros id u Hu; cbn in Hu;
          apply lookup_insert_Some in Hu as [[_ <-]|[_ Hu]]; [split_and!; done|];
          apply lookup_singleton_Some in Hu as [_ <-]; split_and!; done)
    eq_refl) as (u & Hu & _ & _ & Hv).
  rewrite Hv. vm_compute in Hu. injection Hu as <-. reflexivity.
Defined.
