(* ===== verification/Sessions.v ===== *)
(** * Sessions: cookies, bearer tokens and the CSRF check

    Models src/server/internal/auth/session.go, and from invokesso.go the
    open-redirect guard and the session form of the invoke caller: how a request
    becomes an actor, how sessions are created, slid and ended, and what a
    mutating browser request must carry. *)

From stdpp Require Import sorting.
From S2P Require Import Prelude GoNum GoURL Types Settings Store StoreCreds Digest Tokens.

(** ** Requests *)

(** What the package reads of an [*http.Request]; an absent header is empty. *)
Record Request := mkRequest {
  r_Method : string;
  r_Authorization : string;
  r_Origin : string;
  r_CSRFToken : string;
  r_Cookies : list (string * string)
}.

(** [r.Cookie(name)]: the first cookie of that name. *)
Definition request_cookie (r : Request) (name : string) : option string :=
  option_map snd (List.find (fun c => c.1 == name) (r_Cookies r)).

Record SetCookie := mkSetCookie {
  sc_Name : string;
  sc_Value : string;
  sc_HttpOnly : bool;
  sc_Secure : bool;
  sc_MaxAge : Z
}.

Inductive Method := MethodSession | MethodAccessToken.
#[export] Instance Method_eq_dec : EqDecision Method.
Proof. solve_decision. Defined.

Record AuthActor := mkAuthActor {
  ac_User : User;
  ac_Method : Method;
  ac_csrfCookie : string
}.

Definition legacySessionCookieName : string := "fbx_session".
Definition legacyCSRFCookieName : string := "fbx_csrf".

Definition sessionCookieName (a : Auth) : string :=
  if secureCookies a then "__Host-fbx_session" else "fbx_session_insecure".
Definition csrfCookieName (a : Auth) : string :=
  if secureCookies a then "__Host-fbx_csrf" else "fbx_csrf_insecure".

Definition isSafeMethod (m : string) : bool := (m == "GET") || (m == "HEAD") || (m == "OPTIONS").

(** [auth.DefaultSessionDuration]. *)
Definition DefaultSessionDuration : Z := 7 * 24 * Hour.

Section Sessions.
Context {U : UnicodeTables} {J : JsonText} {I : IdGen}.

(** ** invokesso.go: [validLocalReturnTo] *)

Definition maxReturnToLength : Z := 2048.

Definition validLocalReturnTo (s : string) : bool :=
  if (s == "") || (maxReturnToLength <? str_len s) then false
  else if negb (has_prefix s "/") || has_prefix s "//" then false
  else if str_existsb (fun c => (c =? "\")%char || (c =? "013")%char || (c =? "010")%char) s then false
  else match url_ParseRequestURI s with
       | Some u => negb (url_IsAbs u) && (u_Host u == "")
       | None => false
       end.

(** login.go's entry into it. *)
Definition sanitizeReturnTo (s : string) : string := if validLocalReturnTo s then s else "".

(** ** session.go *)

(** [int64] seconds to a [time.Duration]: the product wraps. *)
Definition wrap64 (z : Z) : Z := (z + 2 ^ 63) mod 2 ^ 64 - 2 ^ 63.

Definition sessionDuration : M AuthErr Z :=
  do! r <- attempt Organizations_Get;
  match r with
  | Err _ => ret DefaultSessionDuration
  | Ok o =>
      match ParseOrg (o_Settings o) with
      | Ok s => if SessionDurationSeconds s <=? 0 then ret DefaultSessionDuration
                else ret (wrap64 (SessionDurationSeconds s * Second))
      | Err _ => ret DefaultSessionDuration
      end
  end.

Definition createSession (userID : string) : M AuthErr (Session * string) :=
  do! raw <- rand_Read;
  do! n <- time_Now;
  do! d <- sessionDuration;
  do! s <- or_err ErrAuthStore (Sessions_Create (mkSession (sha256Hex raw) userID (n + d) 0 0));
  ret (s, b64_encode raw).

(** [randomURLToken]. *)
Definition randomURLToken {E} : M E string :=
  do! raw <- rand_Read;
  ret (b64_encode raw).

Definition setSessionCookies (a : Auth) (rawSessionToken : string) (maxAge : Z)
    : M AuthErr (list SetCookie) :=
  do! csrf <- randomURLToken;
  let secs := Z.quot maxAge Second in
  ret ([mkSetCookie (sessionCookieName a) rawSessionToken true (secureCookies a) secs;
        mkSetCookie (csrfCookieName a) csrf false (secureCookies a) secs]
       ++ map (fun n => mkSetCookie n "" (n == legacySessionCookieName) (secureCookies a) (-1))
            [legacySessionCookieName; legacyCSRFCookieName]).

Definition clearSessionCookies (a : Auth) : list SetCookie :=
  map (fun n => mkSetCookie n "" ((n == sessionCookieName a) || (n == legacySessionCookieName))
                  (secureCookies a) (-1))
    [sessionCookieName a; csrfCookieName a; legacySessionCookieName; legacyCSRFCookieName].

Definition authenticateSession (rawCookie csrfCookie : string) : M AuthErr AuthActor :=
  match b64_decode rawCookie with
  | None => throw ErrUnauthenticated
  | Some raw =>
      do! n <- time_Now;
      do! s <- or_err (fun _ => ErrUnauthenticated) (Sessions_Get (sha256Hex raw) n);
      do! u <- loadActiveUser (s_UserID s);
      do! d <- sessionDuration;
      run! attempt (Sessions_Refresh (s_ID s) (n + d));
      ret (mkAuthActor u MethodSession csrfCookie)
  end.

Definition AuthenticateSessionCookie (a : Auth) (r : Request) : M AuthErr AuthActor :=
  match request_cookie r (sessionCookieName a) with
  | None => throw ErrUnauthenticated
  | Some c => authenticateSession c (default "" (request_cookie r (csrfCookieName a)))
  end.

Definition Authenticate (a : Auth) (r : Request) : M AuthErr AuthActor :=
  if negb (r_Authorization r == "") then
    if negb (has_prefix (r_Authorization r) "Bearer ") then throw ErrUnauthenticated
    else
      let raw := trim_prefix (r_Authorization r) "Bearer " in
      if negb (has_prefix raw AccessTokenPrefix) then throw ErrUnauthenticated
      else
        do! n <- time_Now;
        match AccessTokenAudience a n raw with
        | Some aud =>
            if negb (aud == "") then throw ErrUnauthenticated
            else
              do! u <- authenticateAccessToken a raw;
              ret (mkAuthActor u MethodAccessToken "")
        | None => throw ErrUnauthenticated
        end
  else AuthenticateSessionCookie a r.

(** [RequireCSRF]: [None] lets the request through. *)
Definition RequireCSRF (a : Auth) (actor : option AuthActor) (r : Request) : option (Z * string) :=
  if isSafeMethod (r_Method r) then None
  else
    match actor with
    | None => None
    | Some ac =>
        if negb (bool_decide (ac_Method ac = MethodSession)) then None
        else
          let origin := r_Origin r in
          if (origin == "") || (origin == "null") || negb (origin == ControlOrigin a)
          then Some (403, "origin_failed")
          else
            let header := r_CSRFToken r in
            if (header == "") || (ac_csrfCookie ac == "") || negb (header == ac_csrfCookie ac)
            then Some (403, "csrf_failed")
            else None
    end.

(** [Middleware] then [RequireCSRF] then the handler: what reaches the handler. *)
Definition authenticated_request (a : Auth) (r : Request) : M (Z * string) AuthActor :=
  do! ac <- or_err (fun _ => (401, "unauthorized")) (Authenticate a r);
  match RequireCSRF a (Some ac) r with
  | Some e => throw e
  | None => ret ac
  end.

(** [handleLogout]. *)
Definition logout (a : Auth) (r : Request) : M AuthErr (list SetCookie) :=
  run! match request_cookie r (sessionCookieName a) with
       | None => ret (Ok tt)
       | Some c =>
           match b64_decode c with
           | None => ret (Ok tt)
           | Some raw => attempt (Sessions_Delete (sha256Hex raw))
           end
       end;
  ret (clearSessionCookies a).

(** The session form of an invoke caller: read-only and strict. *)
Definition resolveInvokeSessionCookie (a : Auth) (r : Request) : M AuthErr User :=
  match request_cookie r (sessionCookieName a) with
  | None => throw ErrUnauthenticated
  | Some c =>
      match b64_decode c with
      | None => throw ErrUnauthenticated
      | Some raw =>
          do! n <- time_Now;
          do! s <- or_err (fun _ => ErrUnauthenticated) (Sessions_Get (sha256Hex raw) n);
          do! u <- or_err (fun _ => ErrUnauthenticated) (Users_ByID (s_UserID s));
          validateActiveUser u
      end
  end.

(** ** Runs that succeed *)

Lemma bind_run {E B D} (m : M E B) (k : B -> M E D) w d w' :
  bind m k w = (Ok d, w') -> exists b w1, m w = (Ok b, w1) /\ k b w1 = (Ok d, w').
Proof. apply bind_ok. Qed.

Lemma or_err_run {E G B} (f : E -> G) (m : M E B) w b w' :
  or_err f m w = (Ok b, w') -> m w = (Ok b, w').
Proof. unfold or_err. destruct (m w) as [[]]; simpl; congruence. Qed.

(** The login rules as they are evaluated. *)
Definition rules_of (t : Tables) : list LoginRule := merge_sort ord_le (t_login_rules t).

(** A user a credential may stand for. *)
Definition authenticatable (t : Tables) (u : User) : Prop :=
  u_Status u <> UserStatusDisabled /\ EvaluateLoginRules (rules_of t) (u_Email u) = true.

Lemma checkLoginRules_ok email w b w' :
  checkLoginRules email w = (Ok b, w') ->
  b = EvaluateLoginRules (rules_of (tbl w)) email /\ tbl w' = tbl w.
Proof.
  intros H. apply bind_run in H as (rules & w1 & Hr & H). apply query_ok in Hr as [[= <-] Ht].
  injection H as <- <-. done.
Qed.

Lemma loadActiveUser_ok id w u w' :
  loadActiveUser id w = (Ok u, w') ->
  t_users (tbl w) !! id = Some u /\ authenticatable (tbl w) u /\ tbl w' = tbl w.
Proof.
  intros H. apply bind_run in H as (v & w1 & Hv & H). apply or_err_run, query_ok in Hv as [Hv Ht].
  unfold row in Hv. case_step Hv. injection Hv as ->.
  unfold validateAuthenticatable in H. case_step H.
  apply bind_run in H as (b & w2 & Hb & H). apply or_err_run, checkLoginRules_ok in Hb as [-> Ht2].
  rewrite Ht in *. destruct (EvaluateLoginRules _ _) eqn:Er; [|done]. injection H as <- <-.
  bool_facts. split_and!; [done|by split|congruence].
Qed.

(** What a session cookie resolves to. *)
Lemma session_actor_ok a r w ac w' :
  AuthenticateSessionCookie a r w = (Ok ac, w') ->
  authenticatable (tbl w) (ac_User ac) /\ ac_Method ac = MethodSession
  /\ ac_csrfCookie ac = default "" (request_cookie r (csrfCookieName a))
  /\ exists cookie raw s, request_cookie r (sessionCookieName a) = Some cookie
     /\ b64_decode cookie = Some raw
     /\ t_sessions (t_creds (tbl w)) !! sha256Hex raw = Some s
     /\ unexpired (s_ExpiresAt s) (now w) = true
     /\ t_users (tbl w) !! s_UserID s = Some (ac_User ac).
Proof.
  unfold AuthenticateSessionCookie. intros H.
  destruct (request_cookie r (sessionCookieName a)) as [cookie|] eqn:Ec; [|done].
  unfold authenticateSession in H. destruct (b64_decode cookie) as [raw|] eqn:Ed; [|done].
  apply bind_run in H as (n & w1 & [= <- <-] & H).
  apply bind_run in H as (s & w2 & Hs & H). apply or_err_run, query_ok in Hs as [Hs Ht].
  apply bind_run in H as (u & w3 & Hu & H). apply loadActiveUser_ok in Hu as (Hu & Hau & _).
  apply bind_run in H as (d & w4 & _ & H). apply bind_run in H as (x & w5 & _ & H).
  injection H as <- <-. rewrite Ht in *. simpl.
  destruct (t_sessions (t_creds (tbl w)) !! sha256Hex raw) as [s'|] eqn:Es; [|done].
  destruct (unexpired (s_ExpiresAt s') (now w)) eqn:Ee; [|done]. injection Hs as ->.
  split_and!; try done. by exists cookie, raw, s.
Qed.

(** Only the session's own row changes: its expiry slides. *)
Definition sessions_only (t t' : Tables) : Prop :=
  t' = set_creds t (set_sessions (t_creds t) (t_sessions (t_creds t'))).
#[export] Instance sessions_only_refl : Reflexive sessions_only.
Proof. intros t. unfold sessions_only, set_creds, set_sessions. by destruct t as [????????????[]]. Qed.
#[export] Instance sessions_only_trans : Transitive sessions_only.
Proof. intros t1 t2 t3 H1 H2. unfold sessions_only in *. rewrite H2, H1. done. Qed.

Lemma session_frame a r : preserves (on_tables sessions_only) (AuthenticateSessionCookie a r).
Proof.
  unfold AuthenticateSessionCookie, authenticateSession, Sessions_Get, cquery, loadActiveUser,
    validateAuthenticatable, checkLoginRules, Organizations_ListLoginRules, Users_ByID, sessionDuration,
    Organizations_Get, Sessions_Refresh, cwrite.
  preserve. apply preserves_write; [exact _|]. intros t t' Hw. case_all Hw. by injection Hw as <-.
Qed.

(** Only a session actor carries a CSRF cookie, the request's. *)
Lemma authenticate_sound_csrf a r w ac w' :
  Authenticate a r w = (Ok ac, w') -> ac_Method ac = MethodSession ->
  ac_csrfCookie ac = default "" (request_cookie r (csrfCookieName a)).
Proof.
  unfold Authenticate. intros H Hm. case_step H.
  - case_step H. case_step H. apply bind_run in H as (n & w1 & _ & H).
    case_step H. case_step H. apply bind_run in H as (u & w2 & _ & H). by injection H as <- _.
  - unfold AuthenticateSessionCookie in H. case_step H. unfold authenticateSession in H. case_step H.
    repeat (apply bind_run in H as (? & ? & _ & H)). by injection H as <- _.
Qed.

(** C12. Authentication: a request resolves to an actor only as a user who exists,
    is not disabled and is admitted by the current login rules; by a bearer
    token only if the token verifies now and carries no audience (so one minted
    for /mcp is refused), without writing anything; and otherwise only by a
    session cookie whose digest names an unexpired session, and only when there
    is no Authorization header at all. *)
Theorem authenticate_sound a r w ac w' (H : Authenticate a r w = (Ok ac, w')) :
  authenticatable (tbl w) (ac_User ac)
  /\ ((exists tok c, r_Authorization r = "Bearer " +:+ tok /\ ac_Method ac = MethodAccessToken
         /\ verifyAccessToken a (now w) tok = Ok c /\ Aud c = ""
         /\ t_users (tbl w) !! Sub c = Some (ac_User ac) /\ tbl w' = tbl w)
      \/ (r_Authorization r = "" /\ ac_Method ac = MethodSession
          /\ ac_csrfCookie ac = default "" (request_cookie r (csrfCookieName a))
          /\ exists cookie raw s, request_cookie r (sessionCookieName a) = Some cookie
            /\ b64_decode cookie = Some raw
            /\ t_sessions (t_creds (tbl w)) !! sha256Hex raw = Some s
            /\ unexpired (s_ExpiresAt s) (now w) = true
            /\ t_users (tbl w) !! s_UserID s = Some (ac_User ac))).
Proof.
  unfold Authenticate in H. destruct (r_Authorization r == "") eqn:Ea; simpl in H.
  - bool_facts. apply session_actor_ok in H as (Hau & Hm & Hc & Hrest). auto 10.
  - case_step H. bool_facts. apply has_prefix_spec in E as [tok Htok]. rewrite Htok, trim_prefix_app in H.
    case_step H. apply bind_run in H as (n & w1 & [= <- <-] & H).
    unfold AccessTokenAudience in H.
    destruct (verifyAccessToken a (now w) tok) as [c|] eqn:Ev; [|done]. case_step H. bool_facts.
    apply bind_run in H as (u & w2 & Hu & H). injection H as <- <-.
    apply bind_run in Hu as (n & w3 & [= <- <-] & Hu).
    apply bind_run in Hu as (c' & w4 & Hc & Hu). unfold lift in Hc. rewrite Ev in Hc.
    injection Hc as <- <-. apply loadActiveUser_ok in Hu as (Hu & Hau & Ht). simpl.
    split; [done|]. left. exists tok, c. by split_and!.
Qed.

(** Cross-site requests: a request that is neither GET, HEAD nor OPTIONS and
    is authenticated by a session cookie reaches its handler only from the
    configured control origin and with the CSRF cookie's value, which must be
    present, repeated in the header; a bearer request needs neither. *)
Theorem csrf_required a r w ac w' (Hm : isSafeMethod (r_Method r) = false) :
  (authenticated_request a r w = (Ok ac, w') -> ac_Method ac = MethodSession ->
     r_Origin r = ControlOrigin a /\ r_Origin r <> "" /\ r_Origin r <> "null"
     /\ r_CSRFToken r <> "" /\ request_cookie r (csrfCookieName a) = Some (r_CSRFToken r))
  /\ (Authenticate a r w = (Ok ac, w') -> ac_Method ac = MethodAccessToken ->
      authenticated_request a r w = (Ok ac, w')).
Proof.
  split; intros H Hs.
  - apply bind_run in H as (x & w1 & Hx & H). apply or_err_run in Hx.
    destruct (RequireCSRF a (Some x) r) eqn:Ec; [done|]. injection H as -> ->.
    unfold RequireCSRF in Ec. rewrite Hm, Hs in Ec. simpl in Ec. case_step Ec. case_step Ec.
    bool_facts. split_and!; try done.
    apply authenticate_sound_csrf in Hx; [|done]. rewrite Hx in *.
    destruct (request_cookie r (csrfCookieName a)); simpl in *; congruence.
  - unfold authenticated_request, bind, or_err. rewrite H. simpl. unfold RequireCSRF.
    by rewrite Hm, Hs.
Qed.

(** Redirects after login: an accepted return target starts with exactly one
    slash, holds no backslash or control byte, is at most 2048 bytes long, and
    is, as the URL parser reads it, neither absolute nor on any host; anything
    else is dropped. *)
Theorem return_target_is_local s :
  (validLocalReturnTo s = true ->
     has_prefix s "/" = true /\ has_prefix s "//" = false /\ str_len s <= 2048
     /\ str_forallb (fun c => negb (c =? "\")%char && (32 <=? byte_val c) && negb (byte_val c =? 127)) s
        = true
     /\ exists u, url_ParseRequestURI s = Some u /\ u_Scheme u = "" /\ u_Host u = ""
         /\ u_User u = None)
  /\ (sanitizeReturnTo s = s \/ sanitizeReturnTo s = "").
Proof.
  split; [|unfold sanitizeReturnTo; destruct (validLocalReturnTo s); auto].
  unfold validLocalReturnTo. intros H. case_step H. case_step H. case_step H.
  destruct (url_ParseRequestURI s) as [u|] eqn:Eu; [|done]. bool_facts.
  destruct (request_path_local s u H1 Eu) as (Hs & Hh & Hu).
  split_and!; try done; [|exists u; split_and!; try done; unfold url_IsAbs in Hs; by bool_facts].
  unfold url_ParseRequestURI, parse_url in Eu. destruct (contains_ctl s) eqn:Ec; [done|]. clear Eu.
  unfold contains_ctl, str_existsb in *. bool_facts.
  clear -E1 Ec. induction s as [|c s IH]; simpl in *; [done|]. bool_facts.
  rewrite IH by done. rewrite H1, (proj2 (Z.leb_le _ _) H), (proj2 (Z.eqb_neq _ _) H3). done.
Qed.
End Sessions.

(** ** Witnesses *)

(** Bob's browser session, in the installation open to example.com. *)
Definition session_world : World :=
  with_tbl open_world (set_creds (tbl open_world)
    (set_sessions empty_creds {[sha256Hex "raw" := mkSession (sha256Hex "raw") "U2" (1000 * second) 1 1]})).

Definition browser_request (meth origin header : string) : Request :=
  mkRequest meth "" origin header
    [("__Host-fbx_session", b64_encode "raw"); ("__Host-fbx_csrf", "t0")].

Definition sample_login (r : Request) : result AuthErr AuthActor * World :=
  Authenticate (U := ascii_tables) (J := numeral_json) sample_auth r session_world.

Lemma authenticate_sound_witness :
  authenticatable (U := ascii_tables) (tbl session_world) bob
  /\ t_users (tbl session_world) !! "U2" = Some bob.
Proof.
  split; [|reflexivity].
  apply (authenticate_sound (U := ascii_tables) (J := numeral_json) sample_auth
    (browser_request "GET" "" "") session_world (mkAuthActor bob MethodSession "t0")
    (sample_login (browser_request "GET" "" "")).2). vm_compute. reflexivity.
Defined.

Lemma csrf_required_witness :
  request_cookie (browser_request "POST" "https://box.example" "t0") "__Host-fbx_csrf" = Some "t0"
  /\ (authenticated_request (U := ascii_tables) (J := numeral_json) sample_auth
       (browser_request "POST" "https://box.example" "t1") session_world).1
     = Err (403, "csrf_failed").
Proof.
  split; [|vm_compute; reflexivity].
  destruct (csrf_required (U := ascii_tables) (J := numeral_json) sample_auth
    (browser_request "POST" "https://box.example" "t0") session_world (mkAuthActor bob MethodSession "t0")
    (sample_login (browser_request "POST" "https://box.example" "t0")).2 eq_refl) as [H _].
  apply H; vm_compute; reflexivity.
Defined.

Lemma return_target_is_local_witness :
  has_prefix "/f?x=1" "/" = true
  /\ sanitizeReturnTo (U := ascii_tables) "//evil.example" = "".
Proof.
  split; [|vm_compute; reflexivity].
  apply (return_target_is_local (U := ascii_tables) "/f?x=1"). vm_compute. reflexivity.
Defined.
