(* ===== verification/CLIAuth.v ===== *)
(** * CLIAuth: the CLI login

    Models src/server/internal/auth/cliauth.go, clicredential.go and audit.go:
    the one-time code the approval page issues, its exchange under PKCE for a
    long-lived credential, and the access tokens minted from that credential. *)

From S2P Require Import Prelude GoNum GoURL Types Settings Store StoreCreds Digest Glob Tokens.
From S2P Require Import Sessions.

(** ** auth/audit.go *)

Section CLI.
Context {U : UnicodeTables} {J : JsonText} {I : IdGen}.

Definition Audit (actorID action target : string) (detail : option json) : M StoreErr unit :=
  Audit_Append (mkAuditLog "" actorID action target
                  (match detail with Some j => json_print j | None => "{}" end) 0 0).

(** ** clicredential.go *)

Definition CLICredentialPrefix : string := "fbxc_".
Definition CLICredentialSlidingWindow : Z := 90 * 24 * Hour.

Definition hashSecret (plaintext : string) : string := sha256Hex plaintext.

Definition GenerateCLICredential {E} : M E (string * string) :=
  do! buf <- rand_Read;
  let plaintext := CLICredentialPrefix +:+ b64_encode buf in
  ret (plaintext, hashSecret plaintext).

Definition credentialActive (c : CLICredential) (n : Time) : bool :=
  let r := match cc_LastUsedAt c with Some t => t | None => cc_CreatedAt c end in
  n <? r + CLICredentialSlidingWindow.

(** ** cliauth.go *)

Definition cliAuthCodeLifetime : Z := 5 * Minute.
Definition pkceChallengeLength : Z := 43.
Definition maxCLIDeviceNameLength : Z := 128.

(** The text of the runes that are not control characters; an invalid byte is
    rewritten as U+FFFD. *)
Fixpoint printable_fuel (fuel : nat) (s : string) : string :=
  match fuel, s with
  | S f, String c _ =>
      let w := rune_width s in
      let rest := printable_fuel f (str_drop w s) in
      if (w =? 1)%nat && (128 <=? byte_val c) then
        String "239" (String "191" (String "189" rest))
      else if (w =? 1)%nat && ((byte_val c <? 32) || (byte_val c =? 127)) then rest
      else str_take w s +:+ rest
  | _, _ => EmptyString
  end.
Definition printable (s : string) : string := printable_fuel (String.length s) s.

Definition sanitizeCLIDeviceName (name : string) : string :=
  let name := trim_space (printable name) in
  let name := if maxCLIDeviceNameLength <? str_len name then str_take 128 name else name in
  if name == "" then "unknown device" else name.

Definition validCLILoopbackRedirect (redirect : string) : bool :=
  match url_Parse redirect with
  | None => false
  | Some u =>
      if negb (u_Scheme u == "http") || bool_decide (is_Some (u_User u))
         || negb (u_Path u == "/callback") then false
      else
        let host := url_Hostname u in
        if negb (host == "127.0.0.1") && negb (host == "localhost") && negb (host == "::1") then false
        else negb (url_Port u == "")
  end.

Definition validPKCEChallenge (challenge : string) : bool :=
  if negb (str_len challenge =? pkceChallengeLength) then false
  else match b64_decode challenge with
       | Some d => str_len d =? 32
       | None => false
       end.

Definition pkceChallengeFromVerifier (verifier : string) : string := b64_encode (sha256 verifier).

Definition IssueCLIAuthCode (userID name redirect challenge : string) : M AuthErr string :=
  if negb (validCLILoopbackRedirect redirect) || negb (validPKCEChallenge challenge)
  then throw ErrCLIAuthInvalidRequest
  else
    do! raw <- randomURLToken;
    do! n <- time_Now;
    run! or_err ErrAuthStore (CLIAuthCodes_Create
           (mkCLIAuthCode (hashSecret raw) userID (sanitizeCLIDeviceName name) challenge
              (n + cliAuthCodeLifetime) 0));
    ret raw.

Definition ExchangeCLICode (rawCode verifier : string) : M AuthErr (string * CLICredential) :=
  if (rawCode == "") || (verifier == "") then throw ErrCLIAuthCodeInvalid
  else
    do! n <- time_Now;
    do! code <- or_err (fun _ => ErrCLIAuthCodeInvalid) (CLIAuthCodes_Consume (hashSecret rawCode) n);
    if negb (pkceChallengeFromVerifier verifier == ca_Challenge code) then throw ErrPKCEMismatch
    else
      do! ph <- GenerateCLICredential;
      do! cred <- or_err ErrAuthStore (CLICredentials_Create
                    (mkCLICredential "" (ca_UserID code) (ca_Name code) ph.2 0 0 None));
      run! attempt (Audit (ca_UserID code) "cli_credential.create" ("cli_credential:" +:+ cc_ID cred)
                      (Some (JObj [("name", JStr (cc_Name cred))])));
      ret (ph.1, cred).

Definition MintAccessTokenFromCredential (a : Auth) (rawCredential : string) (ttl : Z)
    : M AuthErr (string * Time) :=
  if negb (has_prefix rawCredential CLICredentialPrefix) then throw ErrCLICredentialInvalid
  else
    do! cred <- or_err (fun _ => ErrCLICredentialInvalid)
                  (CLICredentials_ByHash (hashSecret rawCredential));
    do! n <- time_Now;
    if negb (credentialActive cred n) then throw ErrCLICredentialInvalid
    else
      run! or_err (fun _ => ErrCLICredentialInvalid) (loadActiveUser (cc_UserID cred));
      run! or_err ErrAuthStore (CLICredentials_Touch (cc_ID cred) n);
      IssueAccessToken a (cc_UserID cred) ttl.

(** ** Lemmas *)

(** Consuming succeeds only on a live row, which it removes. *)
Lemma consume_ok {A} sel upd id (ok : A -> bool) w x w' :
  consume sel upd id ok w = (Ok x, w') ->
  sel (t_creds (tbl w)) !! id = Some x /\ ok x = true
  /\ tbl w' = set_creds (tbl w) (upd (t_creds (tbl w)) (delete id (sel (t_creds (tbl w))))).
Proof.
  unfold consume. intros H.
  match type of H with statement ?f w = _ => pose proof (statement_cases f w) as Hc end.
  rewrite H in Hc. simpl in Hc. destruct Hc as [[? _]|[(e & _ & ? & _)|(y & t & Hf & Hy & Ht)]]; try done.
  case_all Hf. injection Hf as <- <-. injection Hy as ->. by rewrite Ht.
Qed.

(** A live row is taken, unless the statement is lost. *)
Lemma consume_hits {A} sel upd id (ok : A -> bool) w x :
  sel (t_creds (tbl w)) !! id = Some x -> ok x = true -> head (faults w) <> Some true ->
  (consume sel upd id ok w).1 = Ok x.
Proof.
  unfold consume, statement. intros Hx Hok Hf. destruct (faults w) as [|[] fs]; [|done|]; simpl; by rewrite Hx, Hok.
Qed.

Lemma consume_keeps {A} sel upd id (ok : A -> bool) w e w' :
  consume sel upd id ok w = (Err e, w') -> tbl w' = tbl w.
Proof.
  unfold consume. intros H.
  match type of H with statement ?f w = _ => pose proof (statement_cases f w) as Hc end.
  rewrite H in Hc. simpl in Hc. destruct Hc as [[_ ?]|[(? & _ & _ & ?)|(y & t & Hf & Hy & Ht)]]; done.
Qed.

Lemma or_err_inv {E G B} (f : E -> G) (m : M E B) w r w' :
  or_err f m w = (r, w') -> exists r', m w = (r', w') /\ r = map_err f r'.
Proof. unfold or_err. destruct (m w) as [r' w1]. intros [= <- <-]. eauto. Qed.

(** The operation writes no credential table. *)
Definition creds_kept (t t' : Tables) : Prop := t_creds t' = t_creds t.
#[local] Instance creds_kept_refl : Reflexive creds_kept.
Proof. by intros t. Qed.
#[local] Instance creds_kept_trans : Transitive creds_kept.
Proof. intros t1 t2 t3. unfold creds_kept. congruence. Qed.

Lemma audit_keeps_creds x : preserves (on_tables creds_kept) (Audit_Append x).
Proof.
  unfold Audit_Append. preserve. apply preserves_write; [exact _|]. intros t t' H. case_step H.
  by injection H as <-.
Qed.

Lemma attempt_audit {E} actor action target detail w r w' :
  attempt (F := E) (Audit actor action target detail) w = (r, w') ->
  (exists x, r = Ok x) /\ t_creds (tbl w') = t_creds (tbl w).
Proof.
  unfold attempt. pose proof (audit_keeps_creds (mkAuditLog "" actor action target
    (match detail with Some j => json_print j | None => "{}" end) 0 0) w) as Hk.
  fold (Audit actor action target detail) in Hk.
  destruct (Audit actor action target detail w) as [x w1]. intros [= <- <-]. split; [by eexists|done].
Qed.

Lemma credential_created x w y w' :
  CLICredentials_Create x w = (Ok y, w') ->
  cc_UserID y = cc_UserID x /\ cc_Name y = cc_Name x /\ cc_SecretHash y = cc_SecretHash x
  /\ t_creds (tbl w') = set_cli_credentials (t_creds (tbl w))
                  (<[cc_ID y := y]> (t_cli_credentials (t_creds (tbl w)))).
Proof.
  unfold CLICredentials_Create. intros H.
  apply bind_run in H as (id & w1 & Hid & H). apply bind_run in H as (n & w2 & Hn & H).
  apply bind_run in H as (u & w3 & Hw & H). injection H as <- <-. apply write_ok in Hw.
  injection Hn as <- <-.
  assert (Ht : tbl w1 = tbl w).
  { unfold new_id in Hid. case_step Hid; by injection Hid as _ <-. }
  unfold insert_row in Hw. rewrite Ht in Hw. case_all Hw. injection Hw as Hw. simpl in *. by rewrite <- Hw.
Qed.

Lemma bind_fail {E B D} (m : M E B) (k : B -> M E D) w e w' :
  bind m k w = (Err e, w') ->
  m w = (Err e, w') \/ exists b w1, m w = (Ok b, w1) /\ k b w1 = (Err e, w').
Proof. unfold bind. destruct (m w) as [[b|e'] w1]; [eauto|intros [= -> ->]; by left]. Qed.

(** The CLI login: a credential is handed out only for an unexpired one-time
    code whose PKCE challenge is the digest of the verifier presented, to the
    code's user; the code is gone afterwards, and a wrong verifier burns it too.
    The new credential's secret is never stored, only its digest. *)
Theorem cli_exchange_needs_verifier rawCode verifier w r w'
    (H : ExchangeCLICode rawCode verifier w = (r, w')) :
  (forall plain cred, r = Ok (plain, cred) ->
     exists code, t_cli_codes (t_creds (tbl w)) !! hashSecret rawCode = Some code
       /\ unexpired (ca_ExpiresAt code) (now w) = true
       /\ ca_Challenge code = pkceChallengeFromVerifier verifier
       /\ cc_UserID cred = ca_UserID code /\ cc_SecretHash cred = hashSecret plain
       /\ t_cli_codes (t_creds (tbl w')) !! hashSecret rawCode = None
       /\ t_cli_credentials (t_creds (tbl w')) !! cc_ID cred = Some cred)
  /\ (r = Err ErrPKCEMismatch -> t_cli_codes (t_creds (tbl w')) !! hashSecret rawCode = None).
Proof.
  unfold ExchangeCLICode in H. case_step H; [injection H as <- <-; split; intros; done|].
  unfold bind at 1 2 in H. cbn [time_Now get] in H.
  destruct (or_err _ (CLIAuthCodes_Consume (hashSecret rawCode) (now w)) w) as [r1 w1] eqn:Ec.
  apply or_err_inv in Ec as ([code|e] & Ec & ->); cbn [map_err] in H;
    [|injection H as <- <-; split; intros; done].
  apply consume_ok in Ec as (Hrow & Hlive & Ht).
  case_step H; [injection H as <- <-; split; [done|]; intros _; rewrite Ht; apply lookup_delete_eq|].
  bool_facts. split.
  - intros plain cred ->. exists code.
    apply bind_run in H as (ph & w2 & Hph & H). injection Hph as <- <-.
    apply bind_run in H as (c & w3 & Hc & H). apply or_err_run, credential_created in Hc as (Hu & Hn & Hs & Hk).
    apply bind_run in H as (x & w4 & Ha & H). apply attempt_audit in Ha as [_ Ha].
    injection H as <- <- <-. rewrite Ha, Hk. cbn [tbl] in *. rewrite Ht.
    split_and!; try done; [apply lookup_delete_eq|apply lookup_insert_eq].
  - intros ->. exfalso. apply bind_fail in H as [[=]|(ph & w2 & _ & H)].
    apply bind_fail in H as [H|(c & w3 & _ & H)]; [by apply or_err_inv in H as ([] & _ & [=])|].
    apply bind_fail in H as [H|(x & w4 & _ & [=])]. by apply attempt_audit in H as [[? [=]] _].
Qed.
End CLI.

(** ** Witness *)

Definition sample_verifier : string := "a-long-enough-verifier".

(** Bob approved a login of his laptop. *)
Definition approved_world : World :=
  with_tbl open_world (set_creds (tbl open_world) (set_cli_codes empty_creds
    {[hashSecret "code" := mkCLIAuthCode (hashSecret "code") "U2" "laptop"
        (pkceChallengeFromVerifier sample_verifier) (300 * second) 1]})).

Definition sample_exchange (verifier : string) :=
  ExchangeCLICode (J := numeral_json) (I := unary_ids) "code" verifier approved_world.

Lemma cli_exchange_needs_verifier_witness :
  (exists code, t_cli_codes (t_creds (tbl approved_world)) !! hashSecret "code" = Some code
       /\ ca_Challenge code = pkceChallengeFromVerifier sample_verifier)
  /\ t_cli_codes (t_creds (tbl (sample_exchange "guess").2)) !! hashSecret "code" = None.
Proof.
  split.
  - destruct (cli_exchange_needs_verifier (J := numeral_json) (I := unary_ids) "code" sample_verifier
      approved_world _ _ (surjective_pairing (sample_exchange sample_verifier))) as [H _].
    destruct (H "fbxc_cjA" (mkCLICredential "10" "U2" "laptop" (hashSecret "fbxc_cjA") 0 0 None))
      as (code & Hc & _ & Hp & _); [vm_compute; reflexivity|]. exact (ex_intro _ code (conj Hc Hp)).
  - apply (cli_exchange_needs_verifier (J := numeral_json) (I := unary_ids) "code" "guess" approved_world
      _ _ (surjective_pairing (sample_exchange "guess"))). vm_compute. reflexivity.
Defined.
