(* ===== verification/CliLogin.v ===== *)
(** * CliLogin: the browser login of the CLI

    Models src/internal/cli/login.go and the saving of the configuration of config.go.
    What the browser does is a parameter: the requests that reach the loopback
    listener. The file system is the files' contents and modes. *)

From S2P Require Import Prelude GoNet GoURL GoPath GoNum Types Settings Store StoreCreds Digest Tokens Sessions CLIAuth.
From S2P Require Import CliFlags CliConfig CliClient CliLogs.

(** ** [url.QueryEscape] *)

Definition unreserved (c : ascii) : bool :=
  is_alnum c || (c =? "-")%char || (c =? "_")%char || (c =? ".")%char || (c =? "~")%char.
Definition upper_hex (n : Z) : ascii := byte_of (if n <? 10 then 48 + n else 55 + n).
Definition escape_byte (c : ascii) : string :=
  if unreserved c then String c ""
  else if (c =? " ")%char then "+"
  else String "%" (String (upper_hex (byte_val c / 16)) (String (upper_hex (byte_val c mod 16)) "")).
Fixpoint QueryEscape (s : string) : string :=
  match s with
  | EmptyString => ""
  | String c r => escape_byte c +:+ QueryEscape r
  end.

(** ** The parts of the flow *)

(** [generatePKCE] over the bytes of [rand.Read]. *)
Definition generatePKCE (buf : string) : string * string :=
  let verifier := b64_encode buf in (verifier, b64_encode (sha256 verifier)).

Definition loopback_redirect (port : Z) : string := "http://127.0.0.1:" +:+ itoa port +:+ "/callback".

Definition device_name (hostname : option string) : string :=
  match hostname with Some h => if h == "" then "unknown device" else h | None => "unknown device" end.

Definition auth_query (redirect challenge hostname : string) : string :=
  "redirect=" +:+ QueryEscape redirect +:+ "&challenge=" +:+ QueryEscape challenge +:+ "&name=" +:+ QueryEscape hostname.
Definition auth_url (server redirect challenge hostname : string) : string :=
  server +:+ "/dashboard/cli-auth?" +:+ auth_query redirect challenge hostname.

(** The listener's answer to a request for [/callback], and what it reports. *)
Inductive CallbackPage := LoopbackSuccess | LoopbackFailure | MissingCode.
Inductive LoginErr :=
| LoginFlags (e : FlagErr)
| ServerRequired
| BadServerURL (e : ServerURLErr)
| NotApproved (error : string)
| CallbackWithoutCode
| LoginTimeout
| ExchangeFailed (e : CliErr)
| SaveFailed.

Definition callback (query : string) : CallbackPage * result LoginErr string :=
  let errParam := query_get query "error" in
  if negb (errParam == "") then (LoopbackFailure, Err (NotApproved errParam))
  else
    let code := query_get query "code" in
    if code == "" then (MissingCode, Err CallbackWithoutCode) else (LoopbackSuccess, Ok code).

(** The channel holds one result: a later one is dropped. *)
Definition deliver (ch : option (result LoginErr string)) (r : result LoginErr string) : option (result LoginErr string) :=
  match ch with Some _ => ch | None => Some r end.
Definition callback_result (queries : list string) : option (result LoginErr string) :=
  foldl (fun ch q => deliver ch (callback q).2) None queries.

(** ** The configuration file *)

Definition configFileMode : Z := 384. (* 0o600 *)

(** A file is its contents and its mode. *)
Definition Files : Type := gmap string (string * Z).

(** [os.WriteFile]: the mode is that of a new file only. *)
Definition write_file (fs : Files) (path data : string) (mode : Z) : Files :=
  <[path := (data, match fs !! path with Some f => f.2 | None => mode end)]> fs.
Definition chmod (fs : Files) (path : string) (mode : Z) : Files :=
  match fs !! path with Some f => <[path := (f.1, mode)]> fs | None => fs end.

(** The calls of the operating system that may fail: the directory, the write (of
    a file that is then as it was) and the change of the mode. *)
Record Disk := mkDisk { dk_Mkdir : bool; dk_Write : bool; dk_Chmod : bool }.

Definition SaveConfig (encode : CliConfig -> option string) (disk : Disk) (path : result ConfigFailure string)
    (cfg : CliConfig) (fs : Files) : bool * Files :=
  match path with
  | Err _ => (false, fs)
  | Ok path =>
      if negb (dk_Mkdir disk) then (false, fs)
      else match encode cfg with
           | None => (false, fs)
           | Some data =>
               if negb (dk_Write disk) then (false, fs)
               else
                 let fs := write_file fs path data configFileMode in
                 if negb (dk_Chmod disk) then (false, fs) else (true, chmod fs path configFileMode)
           end
  end.

(** ** The command *)

Section Login.
Context {U : UnicodeTables} {J : JsonText}.
Context {N : Idna} {Net : Type} (exchange : HttpReq -> Net -> result string Answer * Net) (clock : Net -> Time).
Context (parse_time : string -> option Time).

(** [loginViaBrowser]: [queries] are the requests that reach the listener before the
    time is up. *)
Definition loginViaBrowser (server verifier : string) (queries : list string) (net : Net)
    : result LoginErr string * CliWorld :=
  let w := new_client net in
  match callback_result queries with
  | None => (Err LoginTimeout, w)
  | Some (Err e) => (Err e, w)
  | Some (Ok code) =>
      let '(r, w) := CliClient.ExchangeCLICode exchange clock (mkCliConfig server "") code verifier w in
      (map_err ExchangeFailed r, w)
  end.

Definition login_flags : FlagSet := fun name => if name == "server" then Some any_string else None.

(** The server named, or the one of the file. *)
Definition login_server (flag : string) (saved : result ConfigFailure CliConfig) : result LoginErr string :=
  let server := if flag == "" then match saved with Ok c => cf_Server c | Err _ => "" end else flag in
  if server == "" then Err ServerRequired
  else map_err BadServerURL (validateServerURL server).

Definition RunLogin (args : list string) (path : result ConfigFailure string) (saved : result ConfigFailure CliConfig)
    (encode : CliConfig -> option string) (disk : Disk) (verifier : string) (queries : list string)
    (net : Net) (fs : Files) : option (result LoginErr unit * CliWorld * Files) :=
  let w := new_client net in
  match parseFlagsInterspersed login_flags args with
  | None => None
  | Some (Err e) => Some (Err (LoginFlags e), w, fs)
  | Some (Ok (_, sets)) =>
      Some match login_server (string_flag "server" "" sets) saved with
           | Err e => (Err e, w, fs)
           | Ok server =>
               match loginViaBrowser server verifier queries net with
               | (Err e, w) => (Err e, w, fs)
               | (Ok credential, w) =>
                   let '(ok, fs) := SaveConfig encode disk path (mkCliConfig server credential) fs in
                   (if ok then Ok tt else Err SaveFailed, w, fs)
               end
           end
  end.
End Login.

(** A file that was readable by others stays so while the new credential is in it:
    when the mode cannot be changed it is left that way. *)
Example stale_mode_exposes :
  SaveConfig (fun c => Some (cf_Credential c)) (mkDisk true true false) (Ok "config.yaml")
    (mkCliConfig "https://fb.example.com" "fbxc_1") {["config.yaml" := ("old", 420)]}
  = (false, {["config.yaml" := ("fbxc_1", 420)]}).
Proof. vm_compute. reflexivity. Qed.

(** ** Lemmas: escaping *)

Lemma unescape_byte c s : QueryUnescape (escape_byte c +:+ s) = option_map (String c) (QueryUnescape s).
Proof. by destruct c as [[] [] [] [] [] [] [] []]. Qed.

Lemma unescape_escape s : QueryUnescape (QueryEscape s) = Some s.
Proof. induction s as [|c s IH]; [done|]. cbn [QueryEscape]. by rewrite unescape_byte, IH. Qed.

(** The bytes of an escaped text. *)
Definition escaped (c : ascii) : bool := unreserved c || (c =? "+")%char || (c =? "%")%char.

Lemma escape_byte_chars c : str_forallb escaped (escape_byte c) = true.
Proof. by destruct c as [[] [] [] [] [] [] [] []]. Qed.

Lemma escape_chars s : str_forallb escaped (QueryEscape s) = true.
Proof. induction s as [|c s IH]; [done|]. cbn [QueryEscape]. by rewrite str_forallb_app, escape_byte_chars, IH. Qed.

Lemma forallb_weaken (f g : ascii -> bool) s : (forall c, f c = true -> g c = true) ->
  str_forallb f s = true -> str_forallb g s = true.
Proof.
  intros Hfg. induction s as [|c s IH]; [done|]. simpl. intros H. apply andb_true_iff in H as [Hc H].
  by rewrite (Hfg c Hc), IH.
Qed.

Lemma escape_without s c : escaped c = false -> str_forallb (fun d => negb (d =? c)%char) (QueryEscape s) = true.
Proof.
  intros Hc. apply (forallb_weaken escaped); [|apply escape_chars]. intros d Hd. apply negb_true_iff, Ascii.eqb_neq.
  intros ->. congruence.
Qed.

Lemma escape_unreserved s : str_forallb unreserved s = true -> QueryEscape s = s.
Proof.
  induction s as [|c s IH]; intros H; [done|]. cbn [str_forallb] in H. apply andb_true_iff in H as [Hc H].
  cbn [QueryEscape]. unfold escape_byte. by rewrite Hc, IH.
Qed.

(** One parameter of a query, of a key that needs no escaping. *)
Lemma parse_param k v rest : str_forallb unreserved k = true -> k <> "" ->
  parse_parts ((k +:+ "=" +:+ QueryEscape v) :: rest)
  = (let '(ps, ok) := parse_parts rest in ((k, v) :: ps, ok)).
Proof.
  intros Hk Hne. cbn [parse_parts]. destruct (parse_parts rest) as [ps ok].
  assert (forall c, unreserved c = false -> str_forallb (fun d => negb (d =? c)%char) k = true) as Hw.
  { intros c Hc. apply (forallb_weaken unreserved); [|done]. intros d Hd. apply negb_true_iff, Ascii.eqb_neq.
    intros ->. congruence. }
  rewrite contains_byte_spec, !str_forallb_app, Hw by done. rewrite escape_without by done. cbn [str_forallb andb negb Ascii.eqb Bool.eqb].
  replace (k +:+ "=" +:+ QueryEscape v == "") with false by (by destruct k).
  change (k +:+ "=" +:+ QueryEscape v) with (k +:+ String "=" (QueryEscape v)). rewrite cut_byte_app by (by apply Hw).
  rewrite unescape_escape. replace (QueryUnescape k) with (Some k); [done|]. clear -Hk.
  rewrite <- (escape_unreserved k Hk) at 2. by rewrite unescape_escape.
Qed.

(** The approval page reads what was written. *)
Lemma auth_query_read redirect challenge hostname :
  ParseQuery (auth_query redirect challenge hostname)
  = ([("redirect", redirect); ("challenge", challenge); ("name", hostname)], true).
Proof.
  set (params := ["redirect" +:+ "=" +:+ QueryEscape redirect; "challenge" +:+ "=" +:+ QueryEscape challenge;
                  "name" +:+ "=" +:+ QueryEscape hostname]).
  assert (auth_query redirect challenge hostname = join_with "&" params) as ->.
  { unfold auth_query, params. cbn [join_with]. rewrite !str_app_assoc. reflexivity. }
  unfold ParseQuery. rewrite split_join; [|done|].
  - simpl length. replace (max_params <? Z.of_nat 3) with false by done. unfold params. by rewrite !parse_param.
  - unfold params. repeat apply Forall_cons_2; [..|apply Forall_nil_2]; by rewrite !str_forallb_app, escape_without.
Qed.

(** ** Lemmas: the loopback address *)

Lemma cut_byte_none s c : str_forallb (fun d => negb (d =? c)%char) s = true -> cut_byte s c = (s, "", false).
Proof. intros H. unfold cut_byte. destruct (index_byte s c) as [i|] eqn:E; [|done]. exfalso.
  revert i E. induction s as [|d s IH]; intros i E; [done|]. simpl in *. apply andb_true_iff in H as [Hd H].
  destruct (d =? c)%char; [done|]. destruct (index_byte s c) as [j|]; [|done]. by apply (IH H j). Qed.

Lemma count_byte_none s c : str_forallb (fun d => negb (d =? c)%char) s = true -> count_byte s c = 0%nat.
Proof.
  induction s as [|d s IH]; intros H; [done|]. simpl in *. apply andb_true_iff in H as [Hd H].
  destruct (d =? c)%char; [done|]. by rewrite IH.
Qed.

Lemma unescape_plain m s : str_forallb (fun c => negb (c =? "%")%char && plain_ok m c) s = true -> unescape m s = Some s.
Proof.
  induction s as [|c s IH]; intros H; [done|]. cbn [str_forallb unescape] in *.
  apply andb_true_iff in H as [[H1 H2]%andb_true_iff H]. apply negb_true_iff in H1. by rewrite H1, H2, IH.
Qed.

(** A digit is none of the bytes a parser looks for. *)
Definition inert (c : ascii) : bool :=
  negb (one_of "#?@[:/%" c) && negb ((byte_val c <? 32) || (byte_val c =? 127)) && plain_ok EscHost c.
Lemma digit_inert c : is_digit c = true -> inert c = true.
Proof. by destruct c as [[] [] [] [] [] [] [] []]. Qed.

Lemma digits_without d c : str_forallb is_digit d = true -> contains_byte "#?@[:/%" c = true ->
  str_forallb (fun x => negb (x =? c)%char) d = true.
Proof.
  intros Hd Hc. apply (forallb_weaken is_digit); [|done]. intros x Hx. apply negb_true_iff, Ascii.eqb_neq. intros ->.
  apply digit_inert in Hx. unfold inert, one_of in Hx. by rewrite Hc in Hx.
Qed.

Section Loopback.
Context {U : UnicodeTables} (d : string) (Hd : str_forallb is_digit d = true) (Hne : d <> "").

Lemma loopback_host : parseAuthority ("127.0.0.1:" +:+ d) = Some (None, "127.0.0.1:" +:+ d).
Proof using Hd.
  unfold parseAuthority, parseHost.
  rewrite !last_index_none by (rewrite str_forallb_app, (digits_without d) by done; reflexivity).
  change (index_byte ("127.0.0.1:" +:+ d) ":") with (Some 9%nat). cbv beta iota.
  change (str_drop 9 ("127.0.0.1:" +:+ d)) with (String ":" d). cbn [validOptionalPort]. rewrite Hd. simpl andb. cbv iota.
  rewrite unescape_plain; [done|]. rewrite str_forallb_app. apply andb_true_iff. split; [reflexivity|].
  apply (forallb_weaken is_digit); [|done]. intros c Hc. apply digit_inert in Hc. unfold inert in Hc. bool_facts.
  apply andb_true_iff. split; [|done]. apply negb_true_iff, Ascii.eqb_neq. by intros ->.
Qed.

Lemma loopback_parsed : url_Parse ("http://127.0.0.1:" +:+ d +:+ "/callback")
  = Some (mkURL "http" "" None ("127.0.0.1:" +:+ d) "/callback" "" "").
Proof using Hd.
  assert (forall p c, contains_byte "#?@[:/%" c = true -> str_forallb (fun x => negb (x =? c)%char) p = true ->
    (c =? "/")%char = false -> str_forallb (fun x => negb (x =? c)%char) (p +:+ d +:+ "/callback") = true) as Hw.
  { intros p c Hc Hp Hs. rewrite !str_forallb_app, Hp, (digits_without d) by done.
    destruct c as [[] [] [] [] [] [] [] []]; done. }
  unfold url_Parse. rewrite cut_byte_none by (by apply Hw). unfold parse_url.
  assert (contains_ctl ("http://127.0.0.1:" +:+ d +:+ "/callback") = false) as ->.
  { unfold contains_ctl, str_existsb. apply negb_false_iff. rewrite !str_forallb_app. apply andb_true_iff.
    split; [reflexivity|]. apply andb_true_iff. split; [|reflexivity]. apply (forallb_weaken is_digit); [|done].
    intros c Hc. apply digit_inert in Hc. unfold inert in Hc. by apply andb_true_iff in Hc as [[_ ?]%andb_true_iff _]. }
  change (getScheme ("http://127.0.0.1:" +:+ d +:+ "/callback")) with (Some ("http", "//127.0.0.1:" +:+ d +:+ "/callback")).
  change ("http://127.0.0.1:" +:+ d +:+ "/callback" == "*") with false.
  change ("http://127.0.0.1:" +:+ d +:+ "/callback" == "") with false. cbv beta iota zeta.
  rewrite count_byte_none by (apply (Hw "//127.0.0.1:"); reflexivity). change (0 =? 1)%nat with false.
  rewrite !andb_false_r, cut_byte_none by (apply (Hw "//127.0.0.1:"); reflexivity). cbv beta iota zeta.
  change (to_lower "http") with "http".
  change (has_prefix ("//127.0.0.1:" +:+ d +:+ "/callback") "/") with true.
  change (has_prefix ("//127.0.0.1:" +:+ d +:+ "/callback") "//") with true. cbn [negb andb String.eqb orb].
  change (str_drop 2 ("//127.0.0.1:" +:+ d +:+ "/callback")) with ("127.0.0.1:" +:+ d +:+ String "/" "callback").
  rewrite <- str_app_assoc.
  rewrite index_byte_app by (rewrite str_forallb_app, (digits_without d) by done; reflexivity).
  cbv beta iota. rewrite str_take_app, str_drop_app, loopback_host. reflexivity.
Qed.

Lemma loopback_valid : validCLILoopbackRedirect ("http://127.0.0.1:" +:+ d +:+ "/callback") = true.
Proof using Hd Hne.
  unfold validCLILoopbackRedirect. rewrite loopback_parsed. cbn [u_Scheme u_User u_Path u_Host].
  unfold url_Hostname, url_Port. cbn [u_Host]. unfold url_split_host_port.
  change ("127.0.0.1:" +:+ d) with ("127.0.0.1" +:+ String ":" d).
  rewrite last_index_app by (by apply digits_without). rewrite str_drop_app. cbn [validOptionalPort]. rewrite Hd.
  rewrite str_take_app. change (str_drop (S (String.length "127.0.0.1")) ("127.0.0.1" +:+ String ":" d)) with d.
  cbn. destruct d; done.
Qed.
End Loopback.

Lemma redirect_valid {U : UnicodeTables} port : 0 <= port < 65536 -> validCLILoopbackRedirect (loopback_redirect port) = true.
Proof.
  intros Hp. destruct (itoa_shape port ltac:(lia)) as (d & E & Hne & Hd & _). unfold loopback_redirect.
  replace (port <? 0) with false in E by lia. rewrite E. by apply loopback_valid.
Qed.

(** ** The two ends of the login *)

Section Interop.
Context {U : UnicodeTables} {J : JsonText} {I : IdGen}.

Lemma challenge_valid s : validPKCEChallenge (b64_encode (sha256 s)) = true.
Proof.
  unfold validPKCEChallenge. rewrite b64_encode_length. unfold str_len. rewrite sha256_length.
  rewrite b64_decode_encode. unfold str_len. by rewrite sha256_length.
Qed.

Lemma b64_encode_nonempty s : s <> "" -> b64_encode s <> "".
Proof.
  intros Hs E. pose proof (b64_encode_length s) as H. rewrite E in H. destruct s as [|c s]; [done|].
  unfold str_len in H. simpl String.length in H. Z.to_euclidean_division_equations; lia.
Qed.

Lemma issued_row u name redirect challenge w raw w1 : IssueCLIAuthCode u name redirect challenge w = (Ok raw, w1) ->
  exists t, t_cli_codes (t_creds (tbl w1)) !! hashSecret raw
    = Some (mkCLIAuthCode (hashSecret raw) u (sanitizeCLIDeviceName name) challenge
              (stored (now w + cliAuthCodeLifetime)) t).
Proof.
  unfold IssueCLIAuthCode. intros H. case_step H. apply bind_run in H as (r & w2 & Hr & H). injection Hr as <- <-.
  apply bind_run in H as (n & w3 & Hn & H). injection Hn as <- <-. apply bind_run in H as (x & w4 & Hc & H).
  injection H as <- <-. apply or_err_run in Hc. unfold CLIAuthCodes_Create in Hc.
  apply bind_run in Hc as (t & w5 & Ht & Hc). injection Ht as <- <-. apply bind_run in Hc as (x1 & w6 & _ & Hc).
  apply write_ok in Hc. apply rbind_ok in Hc as (m & Hm & Hc). injection Hc as Hc. unfold insert_row in Hm.
  case_all Hm. injection Hm as <-. exists (stored (now w)). rewrite <- Hc. simpl. apply lookup_insert_eq.
Qed.

Lemma stored_same t n : unexpired (stored t) n = unexpired t n.
Proof. unfold unexpired, stored, toUnix, fromUnix. by rewrite Z.div_mul. Qed.

Lemma exchange_accepts raw verifier w code : t_cli_codes (t_creds (tbl w)) !! hashSecret raw = Some code ->
  faults w = [] -> unexpired (ca_ExpiresAt code) (now w) = true -> raw <> "" -> verifier <> "" ->
  ca_Challenge code = pkceChallengeFromVerifier verifier ->
  match (CLIAuth.ExchangeCLICode raw verifier w).1 with
  | Ok (plain, cred) => cc_UserID cred = ca_UserID code /\ cc_Name cred = ca_Name code
                        /\ cc_SecretHash cred = hashSecret plain
  | Err e => exists s, e = ErrAuthStore s
  end.
Proof.
  intros Hrow Hf Hlive Hr Hv Hch. destruct (CLIAuth.ExchangeCLICode raw verifier w) as [r w'] eqn:H.
  unfold CLIAuth.ExchangeCLICode in H. apply String.eqb_neq in Hr, Hv. rewrite Hr, Hv in H. cbn [orb] in H.
  unfold bind at 1 2 in H. cbn [time_Now get] in H. unfold or_err at 1, CLIAuthCodes_Consume, consume, statement in H.
  cbv beta iota in H. rewrite Hf in H. cbn [tbl] in H. rewrite Hrow, Hlive in H. cbn [map_err] in H. rewrite Hch, String.eqb_refl in H. cbn [negb] in H.
  destruct r as [[plain cred]|e]; simpl.
  - apply bind_run in H as (ph & w2 & Hph & H). injection Hph as <- <-.
    apply bind_run in H as (c & w3 & Hc & H). apply or_err_run, credential_created in Hc as (Hu & Hn & Hs & _).
    apply bind_run in H as (x & w4 & _ & H). by injection H as <- <- _.
  - apply bind_fail in H as [[=]|(ph & w2 & _ & H)]. apply bind_fail in H as [H|(c & w3 & _ & H)].
    + apply or_err_inv in H as ([] & _ & Hm); [done|]. injection Hm as ->. by eexists.
    + apply bind_fail in H as [H|(x & w4 & _ & [=])]. by apply attempt_audit in H as [[? [=]] _].
Qed.

(** C27. The two ends of the CLI's login fit. Whatever the listener's port, the name of
    the machine and the random bytes of the verifier: the approval page reads back
    the address, the challenge and the name that the CLI wrote into the URL; the
    server never refuses to approve them, whatever else fails; and once it issued a
    code, the exchange of that code with the CLI's verifier, any time before it
    expires and as long as the code is still there, gives a credential of the user
    who approved, under that name, unless the store fails. *)
Theorem login_interoperates buf port hostname u w (Hbuf : buf <> "") (Hport : 0 <= port < 65536)
    (Hrandom : forall i, random i <> "") :
  let '(verifier, challenge) := generatePKCE buf in
  let redirect := loopback_redirect port in
  ParseQuery (auth_query redirect challenge hostname)
    = ([("redirect", redirect); ("challenge", challenge); ("name", hostname)], true)
  /\ match IssueCLIAuthCode u hostname redirect challenge w with
     | (Err e, _) => exists s, e = ErrAuthStore s
     | (Ok raw, w1) => forall w2,
         t_cli_codes (t_creds (tbl w2)) !! hashSecret raw = t_cli_codes (t_creds (tbl w1)) !! hashSecret raw ->
         faults w2 = [] -> unexpired (now w + cliAuthCodeLifetime) (now w2) = true ->
         match (CLIAuth.ExchangeCLICode raw verifier w2).1 with
         | Ok (plain, cred) => cc_UserID cred = u /\ cc_Name cred = sanitizeCLIDeviceName hostname
                               /\ cc_SecretHash cred = hashSecret plain
         | Err e => exists s, e = ErrAuthStore s
         end
     end.
Proof.
  simpl. split; [apply auth_query_read|].
  destruct (IssueCLIAuthCode _ _ _ _ w) as [[raw|e] w1] eqn:H.
  - intros w2 Hkeep Hf Hlive. destruct (issued_row _ _ _ _ _ _ _ H) as [t Hrow]. rewrite Hrow in Hkeep.
    apply (exchange_accepts raw _ w2 _ Hkeep Hf); [cbn [ca_ExpiresAt]; by rewrite stored_same| |by apply b64_encode_nonempty|done].
    unfold IssueCLIAuthCode in H. case_step H. apply bind_run in H as (r & w3 & Hr & H). injection Hr as <- <-.
    apply bind_run in H as (n & w4 & _ & H). apply bind_run in H as (x & w5 & _ & H). injection H as <- _.
    by apply b64_encode_nonempty.
  - unfold IssueCLIAuthCode in H. rewrite redirect_valid, challenge_valid in H by done. simpl in H.
    apply bind_fail in H as [[=]|(r & w3 & _ & H)]. apply bind_fail in H as [[=]|(n & w4 & _ & H)].
    apply bind_fail in H as [H|(x & w5 & _ & [=])]. apply or_err_inv in H as ([] & _ & Hm); [done|].
    injection Hm as ->. by eexists.
Qed.
End Interop.

(** ** Witness *)

Definition sample_pkce : string * string := generatePKCE "entropy".
Definition sample_issue : result AuthErr string * World :=
  IssueCLIAuthCode (I := unary_ids) "U2" "my laptop" (loopback_redirect 49152) sample_pkce.2 open_world.
Definition sample_code : string := match sample_issue.1 with Ok raw => raw | Err _ => "" end.

Lemma login_interoperates_witness :
  match (CLIAuth.ExchangeCLICode (J := numeral_json) (I := unary_ids) sample_code sample_pkce.1 sample_issue.2).1 with
  | Ok (plain, cred) => cc_UserID cred = "U2" /\ cc_Name cred = "my laptop" /\ cc_SecretHash cred = hashSecret plain
  | Err e => exists s, e = ErrAuthStore s
  end.
Proof.
  assert (forall i, random (IdGen := unary_ids) i <> "") as Hr by (by intros [|i]).
  destruct (login_interoperates (U := ascii_tables) (J := numeral_json) (I := unary_ids) "entropy" 49152 "my laptop" "U2"
    open_world ltac:(done) ltac:(lia) Hr) as [_ H].
  assert (IssueCLIAuthCode (I := unary_ids) "U2" "my laptop" (loopback_redirect 49152) (b64_encode (sha256 (b64_encode "entropy")))
    open_world = (Ok sample_code, sample_issue.2)) as E by (vm_compute; reflexivity).
  rewrite E in H. apply (H sample_issue.2 eq_refl); vm_compute; reflexivity.
Defined.
