(* ===== verification/OAuth.v ===== *)
(** * OAuth: the authorization server

    Models src/server/internal/oauth: dynamic client registration (register.go),
    the consent decision and its signed state (authorize.go, consent.go), and the
    token endpoint with its two grants (token.go). The texts of pages and the
    encoding of redirect URLs are not modelled: an authorization response is a
    constructor carrying what it sends. *)

From S2P Require Import Prelude GoNum GoURL Types Settings Store StoreCreds Digest Glob Tokens.
From S2P Require Import Signed Sessions CLIAuth.

(** ** oauth.go *)

Record Handler := mkHandler {
  h_ControlOrigin : string;
  h_auth : Auth;
  consentKey : string
}.

Definition protectedResource (h : Handler) : string := h_ControlOrigin h +:+ "/mcp".

(** An OAuth error response: status, code and description. *)
Record oauthError := mkOAuthError {
  e_Status : Z;
  e_Error : string;
  e_Description : string
}.

Definition errInvalidRequest : string := "invalid_request".
Definition errInvalidClientMetadata : string := "invalid_client_metadata".
Definition errInvalidGrant : string := "invalid_grant".
Definition errUnsupportedGrantType : string := "unsupported_grant_type".
Definition errUnsupportedResponseType : string := "unsupported_response_type".
Definition errServerError : string := "server_error".
Definition errInvalidTarget : string := "invalid_target".
Definition errTemporarilyUnavailable : string := "temporarily_unavailable".

Definition bad_request (code text : string) : oauthError := mkOAuthError 400 code text.
Definition server_error (text : string) : oauthError := mkOAuthError 500 errServerError text.

(** [r.FormValue]: the first value of the name, empty when there is none. *)
Definition Form := list (string * string).
Definition form_value (f : Form) (k : string) : string :=
  default "" (option_map snd (List.find (fun kv => kv.1 == k) f)).
Definition form_count (f : Form) (k : string) : nat :=
  length (List.filter (fun kv => kv.1 == k) f).

Section OAuth.
Context {U : UnicodeTables} {J : JsonText} {I : IdGen}.

(** ** register.go *)

Definition maxClientNameLength : Z := 128.
Definition maxRedirectURIs : nat := 10.
Definition maxRedirectURILength : Z := 2048.

Definition validRedirectURI (raw : string) : bool :=
  match url_Parse raw with
  | None => false
  | Some u =>
      if bool_decide (is_Some (u_User u)) || negb (u_Fragment u == "") || (u_Host u == "") then false
      else if u_Scheme u == "https" then true
      else if u_Scheme u == "http" then
        let host := to_lower (url_Hostname u) in
        (host == "127.0.0.1") || (host == "localhost") || (host == "::1")
      else false
  end.

Definition sanitizeClientName (name : string) : string :=
  let name := trim_space (printable name) in
  if maxClientNameLength <? str_len name then str_take 128 name else name.

Fixpoint check_redirects (us : list string) : result oauthError unit :=
  match us with
  | [] => Ok tt
  | u :: us =>
      guard! str_len u <=? maxRedirectURILength
        else bad_request errInvalidClientMetadata "a redirect_uri is too long" in
      guard! validRedirectURI u
        else bad_request errInvalidClientMetadata
               "redirect_uris must each be an https:// URL, or an http:// loopback URL (127.0.0.1/localhost/::1) for native clients" in
      check_redirects us
  end.

(** [allowed] is the rate limiter's answer, [body] the decoded request (none when
    it is not JSON of that shape). *)
Definition handleRegister (allowed : bool) (body : option (string * list string))
    : M oauthError OAuthClient :=
  if negb allowed then
    throw (mkOAuthError 429 errTemporarilyUnavailable
             "too many client registrations from this source -- please slow down and try again shortly")
  else
    match body with
    | None => throw (bad_request errInvalidClientMetadata "request body must be JSON")
    | Some (name, uris) =>
        if maxClientNameLength <? str_len name then
          throw (bad_request errInvalidClientMetadata "client_name is too long")
        else if (length uris =? 0)%nat then
          throw (bad_request errInvalidClientMetadata "redirect_uris must be a non-empty array")
        else if (maxRedirectURIs <? length uris)%nat then
          throw (bad_request errInvalidClientMetadata "too many redirect_uris")
        else
          run! lift (check_redirects uris);
          or_err (fun _ => server_error "failed to register client")
            (OAuthClients_Create (mkOAuthClient "" (sanitizeClientName name) uris 0 0))
    end.

(** ** consent.go *)

Definition consentStateMaxAge : Z := 10 * Minute.

Record consentState := mkConsentState {
  cs_ClientID : string;
  cs_RedirectURI : string;
  cs_Challenge : string;
  cs_OAuthState : string;
  cs_Resource : string;
  cs_UserID : string;
  cs_IssuedAt : Z
}.

Definition consent_fields (c : consentState) : list (string * json) :=
  [("client_id", JStr (cs_ClientID c)); ("redirect_uri", JStr (cs_RedirectURI c));
   ("code_challenge", JStr (cs_Challenge c))]
  ++ opt_str "state" (cs_OAuthState c) ++ opt_str "resource" (cs_Resource c)
  ++ [("user_id", JStr (cs_UserID c)); ("iat", JInt (cs_IssuedAt c))].

Definition dec_consent (c : consentState) (kvs : list (string * json)) : option consentState :=
  match field "client_id" dec_string (cs_ClientID c) kvs,
        field "redirect_uri" dec_string (cs_RedirectURI c) kvs,
        field "code_challenge" dec_string (cs_Challenge c) kvs,
        field "state" dec_string (cs_OAuthState c) kvs,
        field "resource" dec_string (cs_Resource c) kvs,
        field "user_id" dec_string (cs_UserID c) kvs,
        field "iat" dec_int (cs_IssuedAt c) kvs with
  | Some a, Some b, Some d, Some e, Some f, Some g, Some i => Some (mkConsentState a b d e f g i)
  | _, _, _, _, _, _, _ => None
  end.

Definition signConsentState (h : Handler) (c : consentState) : string :=
  seal (consentKey h) (json_print (JObj (consent_fields c))).

(** [n] is the current time. *)
Definition parseConsentState (h : Handler) (n : Time) (raw : string) : result StateErr consentState :=
  open_sealed (consentKey h) (dec_object dec_consent (mkConsentState "" "" "" "" "" "" 0))
    cs_IssuedAt consentStateMaxAge n raw.

(** ** authorize.go *)

Definition oauthAuthCodeLifetime : Z := 10 * Minute.

Definition redirectRegistered (c : OAuthClient) (redirectURI : string) : bool :=
  existsb (fun u => u == redirectURI) (oc_RedirectURIs c).

(** What the authorization endpoint answers: a page that names no redirect, an
    error sent to the client's redirect (here without its description), the login
    page, the consent page with its signed state, or the code sent to the
    client. *)
Inductive AuthorizeAnswer :=
| PlainError (status : Z) (text : string)
| RedirectError (redirectURI state code : string)
| RedirectLogin
| ConsentPage (client : OAuthClient) (user : User) (state_token : string)
| RedirectCode (redirectURI code state : string).

Definition handleAuthorize (h : Handler) (r : Request) (q : Form) : M AuthorizeAnswer AuthorizeAnswer :=
  let clientID := form_value q "client_id" in
  let redirectURI := form_value q "redirect_uri" in
  let state := form_value q "state" in
  let parses := bool_decide (is_Some (url_Parse redirectURI)) in
  let refuse code :=
    throw (if parses then RedirectError redirectURI state code else PlainError 400 code) in
  if clientID == "" then throw (PlainError 400 "oauth: missing client_id")
  else
    do! client <- or_err (fun _ => PlainError 400 "oauth: unknown client_id") (OAuthClients_ByID clientID);
    if (redirectURI == "") || negb (redirectRegistered client redirectURI) then
      throw (PlainError 400 "oauth: redirect_uri does not exactly match a redirect URI registered for this client")
    else if negb (form_value q "response_type" == "code") then refuse errUnsupportedResponseType
    else if negb (form_value q "code_challenge_method" == "S256") then refuse errInvalidRequest
    else if negb (validPKCEChallenge (form_value q "code_challenge")) then refuse errInvalidRequest
    else if (1 <? form_count q "resource")%nat then refuse errInvalidTarget
    else
      let resource := form_value q "resource" in
      if negb (resource == "") && negb (resource == protectedResource h) then refuse errInvalidTarget
      else
        do! actor <- or_err (fun _ => RedirectLogin) (AuthenticateSessionCookie (h_auth h) r);
        do! n <- time_Now;
        if negb parses then throw (PlainError 500 "oauth: authorization is not available")
        else ret (ConsentPage client (ac_User actor)
               (signConsentState h
                  (mkConsentState clientID redirectURI (form_value q "code_challenge") state resource
                     (u_ID (ac_User actor)) (toUnix n)))).

Definition handleAuthorizeDecision (h : Handler) (r : Request) (form : option Form)
    : M AuthorizeAnswer AuthorizeAnswer :=
  match form with
  | None => throw (PlainError 400 "oauth: invalid request")
  | Some f =>
      do! n <- time_Now;
      do! st <- or_err (fun _ => PlainError 400
                  "oauth: this authorization request is invalid or has expired -- please try connecting again")
                (lift (parseConsentState h n (form_value f "state_token")));
      let mismatch := PlainError 403 "oauth: session mismatch -- please try connecting again" in
      let invalid := PlainError 400 "oauth: this authorization request is no longer valid" in
      let unavailable := PlainError 500 "oauth: authorization is not available" in
      do! actor <- or_err (fun _ => mismatch) (AuthenticateSessionCookie (h_auth h) r);
      if negb (u_ID (ac_User actor) == cs_UserID st) then throw mismatch
      else
        do! client <- or_err (fun _ => invalid) (OAuthClients_ByID (cs_ClientID st));
        if negb (redirectRegistered client (cs_RedirectURI st)) then throw invalid
        else
          do! raw <- randomURLToken;
          do! n <- time_Now;
          run! or_err (fun _ => unavailable) (OAuthAuthCodes_Create
                 (mkOAuthAuthCode (sha256Hex raw) (u_ID (ac_User actor)) (cs_ClientID st)
                    (cs_RedirectURI st) (cs_Challenge st) (cs_Resource st)
                    (n + oauthAuthCodeLifetime) 0));
          run! attempt (Audit (u_ID (ac_User actor)) "oauth.authorize.approve"
                          ("oauth_client:" +:+ cs_ClientID st)
                          (Some (JObj [("resource", JStr (cs_Resource st))])));
          if bool_decide (is_Some (url_Parse (cs_RedirectURI st)))
          then ret (RedirectCode (cs_RedirectURI st) raw (cs_OAuthState st))
          else throw unavailable
  end.

(** ** token.go *)

Definition refreshTokenPrefix : string := "fbxr_".
Definition oauthGrantSlidingWindow : Z := 90 * 24 * Hour.
Definition oauthGrantMaxLifetime : Z := 180 * 24 * Hour.

Record tokenResponse := mkTokenResponse {
  AccessToken : string;
  TokenType : string;
  ExpiresIn : Z;
  RefreshToken : string
}.

Definition generateRefreshToken {E} : M E (string * string) :=
  do! buf <- rand_Read;
  let plaintext := refreshTokenPrefix +:+ b64_encode buf in
  ret (plaintext, sha256Hex plaintext).

Definition oauthGrantActive (g : OAuthGrant) (n : Time) : bool :=
  if negb (n <? og_CreatedAt g + oauthGrantMaxLifetime) then false
  else
    let r := match og_LastUsedAt g with Some t => t | None => og_CreatedAt g end in
    n <? r + oauthGrantSlidingWindow.

Definition invalid_grant (text : string) : oauthError := bad_request errInvalidGrant text.

(** [int64(time.Until(expiresAt).Seconds())]. *)
Definition seconds_until (expiresAt n : Time) : Z := Z.quot (expiresAt - n) second.

Definition mcp_token (h : Handler) (userID : string) : M oauthError (string * Time) :=
  or_err (fun _ => server_error "failed to mint access token")
    (IssueAccessTokenForAudience (h_auth h) userID 0 AudienceMCP).

Definition issueTokenPair (h : Handler) (userID clientID : string) : M oauthError tokenResponse :=
  do! user <- or_err (fun _ => invalid_grant "the authorizing user is no longer permitted to sign in")
                (LoadAuthenticatableUser userID);
  do! tok <- mcp_token h (u_ID user);
  do! rh <- generateRefreshToken;
  run! or_err (fun _ => server_error "failed to persist refresh grant")
         (OAuthGrants_Create (mkOAuthGrant "" (u_ID user) clientID rh.2 "" 0 0 None));
  run! attempt (Audit (u_ID user) "oauth.token.issue" ("oauth_client:" +:+ clientID) None);
  do! n <- time_Now;
  ret (mkTokenResponse tok.1 "Bearer" (seconds_until tok.2 n) rh.1).

Definition handleAuthorizationCodeGrant (h : Handler) (f : Form) : M oauthError tokenResponse :=
  let rawCode := form_value f "code" in
  let verifier := form_value f "code_verifier" in
  let redirectURI := form_value f "redirect_uri" in
  let clientID := form_value f "client_id" in
  if (rawCode == "") || (verifier == "") || (redirectURI == "") || (clientID == "") then
    throw (bad_request errInvalidRequest
             "code, code_verifier, redirect_uri, and client_id are all required")
  else
    do! n <- time_Now;
    do! code <- or_err (fun _ =>
                  invalid_grant "the authorization code is invalid, expired, or already used")
                  (OAuthAuthCodes_Consume (sha256Hex rawCode) n);
    if negb (oa_ClientID code == clientID) || negb (oa_RedirectURI code == redirectURI) then
      throw (invalid_grant "client_id or redirect_uri does not match the authorization request")
    else if negb (pkceChallengeFromVerifier verifier == oa_Challenge code) then
      throw (invalid_grant "code_verifier does not match the authorization's code_challenge")
    else if negb (oa_Resource code == "") && negb (oa_Resource code == protectedResource h) then
      throw (bad_request errInvalidTarget
               "the authorization's resource is no longer valid for this server")
    else issueTokenPair h (oa_UserID code) (oa_ClientID code).

Definition handleRefreshTokenGrant (h : Handler) (f : Form) : M oauthError tokenResponse :=
  let raw := form_value f "refresh_token" in
  let clientID := form_value f "client_id" in
  if negb (has_prefix raw refreshTokenPrefix) then
    throw (invalid_grant "refresh_token is missing or malformed")
  else if clientID == "" then throw (invalid_grant "client_id is required")
  else
    let oldHash := sha256Hex raw in
    do! found <- attempt (OAuthGrants_ByHash oldHash);
    match found with
    | Err _ =>
        run! or_err (fun _ => server_error "failed to process refresh token")
               (OAuthGrants_RevokeIfPreviousSecret oldHash);
        throw (invalid_grant "the refresh token is invalid, revoked, or unknown")
    | Ok grant =>
        if negb (clientID == og_ClientID grant) then
          throw (invalid_grant "client_id does not match the refresh token's grant")
        else
          do! n <- time_Now;
          if negb (oauthGrantActive grant n) then
            throw (invalid_grant "the refresh token has expired -- authorization is required again")
          else
            do! user <- or_err (fun _ =>
                          invalid_grant "the authorizing user is no longer permitted to sign in")
                          (LoadAuthenticatableUser (og_UserID grant));
            do! rh <- generateRefreshToken;
            run! or_err (fun e => match e with
                                  | ErrConflict => invalid_grant "the refresh token was already used"
                                  | _ => server_error "failed to refresh grant"
                                  end)
                   (OAuthGrants_Rotate (og_ID grant) oldHash rh.2 n);
            do! tok <- mcp_token h (u_ID user);
            do! n <- time_Now;
            ret (mkTokenResponse tok.1 "Bearer" (seconds_until tok.2 n) rh.1)
    end.

Definition handleToken (h : Handler) (form : option Form) : M oauthError tokenResponse :=
  match form with
  | None => throw (bad_request errInvalidRequest
                     "request body must be application/x-www-form-urlencoded")
  | Some f =>
      let g := form_value f "grant_type" in
      if g == "authorization_code" then handleAuthorizationCodeGrant h f
      else if g == "refresh_token" then handleRefreshTokenGrant h f
      else if g == "" then throw (bad_request errInvalidRequest "missing grant_type")
      else throw (bad_request errUnsupportedGrantType
             ("grant_type must be " +:+ quoted "authorization_code" +:+ " or " +:+ quoted "refresh_token"))
  end.

(** ** Lemmas *)

(** Digests are never computed in the proofs below. *)
#[local] Opaque sha256 hmac_sha256 b64_encode hex.

Lemma loadActiveUser_now id : preserves same_now (loadActiveUser id).
Proof.
  unfold loadActiveUser, validateAuthenticatable, checkLoginRules, Organizations_ListLoginRules, Users_ByID.
  repeat first [ apply statement_now | preserve_step ].
Qed.

Lemma issue_token_ok a userID ttl aud w tok w' :
  issueAccessToken a userID ttl aud w = (Ok tok, w') ->
  exists u, t_users (tbl w) !! userID = Some u /\ tbl w' = tbl w /\ now w' = now w
    /\ tok = (signAccessToken a (mkClaims (u_ID u) (u_Email u) (toUnix (now w))
                (toUnix (now w + ClampAccessTokenTTL ttl)) accessTokenKind aud),
              now w + ClampAccessTokenTTL ttl).
Proof.
  unfold issueAccessToken. intros H. apply bind_run in H as (u & w1 & Hu & H).
  apply or_err_run in Hu. pose proof (preserves_at _ _ _ _ _ (statement_now _) Hu) as Hn.
  apply query_ok in Hu as [Hu Ht]. unfold row in Hu. case_step Hu. injection Hu as ->.
  apply bind_run in H as (n & w2 & [= <- <-] & H). injection H as <- <-.
  unfold same_now in Hn. rewrite Hn. eauto 10.
Qed.

(** The claims of every token this server mints. *)
Definition mcp_claims (u : User) (n : Time) : accessTokenClaims :=
  mkClaims (u_ID u) (u_Email u) (toUnix n) (toUnix (n + DefaultAccessTokenTTL)) accessTokenKind AudienceMCP.

Lemma mcp_token_ok h userID w tok w' :
  mcp_token h userID w = (Ok tok, w') ->
  exists u, t_users (tbl w) !! userID = Some u /\ tbl w' = tbl w /\ now w' = now w
    /\ tok = (signAccessToken (h_auth h) (mcp_claims u (now w)), now w + DefaultAccessTokenTTL).
Proof. unfold mcp_token. intros H. apply or_err_run in H. by apply issue_token_ok in H. Qed.

(** Rows lie under their own identifiers and no two grants share a secret, as the
    tables' keys require. *)
Record keyed (t : Tables) : Prop := {
  keyed_users id u : t_users t !! id = Some u -> u_ID u = id;
  keyed_grants id g : t_oauth_grants (t_creds t) !! id = Some g -> og_ID g = id;
  unique_secrets i j g g' : t_oauth_grants (t_creds t) !! i = Some g ->
    t_oauth_grants (t_creds t) !! j = Some g' -> og_SecretHash g = og_SecretHash g' -> i = j
}.

Lemma statement_ok {A} (f : Tables -> result StoreErr (A * Tables)) w a w' :
  statement f w = (Ok a, w') -> f (tbl w) = Ok (a, tbl w').
Proof.
  intros H. pose proof (statement_cases f w) as Hc. rewrite H in Hc.
  destruct Hc as [[? _]|[(e & _ & ? & _)|(y & t & Hf & Hy & Ht)]]; simpl in *; try done. congruence.
Qed.

Definition unused_secret (h : string) (t : Tables) : Prop :=
  forall id g, t_oauth_grants (t_creds t) !! id = Some g -> og_SecretHash g <> h.

Lemma hash_free h t : hash_taken h (t_creds t) = false -> unused_secret h t.
Proof.
  unfold hash_taken. intros H id g Hg Hh. apply not_true_iff_false in H. apply H.
  apply existsb_exists. exists g. split; [|by rewrite Hh, String.eqb_refl].
  apply in_map_iff. exists (id, g). split; [done|]. by apply list_elem_of_In, elem_of_map_to_list.
Qed.

Lemma rotate_ok id old new n w g' w' :
  OAuthGrants_Rotate id old new n w = (Ok g', w') ->
  exists g, t_oauth_grants (t_creds (tbl w)) !! id = Some g /\ og_SecretHash g = old
    /\ (new <> old -> unused_secret new (tbl w))
    /\ tbl w' = set_creds (tbl w) (set_oauth_grants (t_creds (tbl w))
                   (<[id := rotated g old new n]> (t_oauth_grants (t_creds (tbl w))))).
Proof.
  intros H. apply statement_ok in H. case_all H. injection H as _ <-. bool_facts.
  exists o. split_and!; try done. intros Hne. apply hash_free. apply String.eqb_neq in Hne.
  destruct E1 as [E1|]; [by rewrite Hne in E1|done].
Qed.

(** What a successful refresh went through. *)
Lemma refresh_run h f w resp w' :
  handleRefreshTokenGrant h f w = (Ok resp, w') -> keyed (tbl w) ->
  exists id g u,
    t_oauth_grants (t_creds (tbl w)) !! id = Some g
    /\ og_SecretHash g = sha256Hex (form_value f "refresh_token")
    /\ og_ClientID g = form_value f "client_id" /\ oauthGrantActive g (now w) = true
    /\ t_users (tbl w) !! og_UserID g = Some u /\ authenticatable (tbl w) u
    /\ has_prefix (form_value f "refresh_token") refreshTokenPrefix = true
    /\ has_prefix (RefreshToken resp) refreshTokenPrefix = true
    /\ AccessToken resp = signAccessToken (h_auth h) (mcp_claims u (now w))
    /\ (sha256Hex (RefreshToken resp) <> og_SecretHash g ->
        unused_secret (sha256Hex (RefreshToken resp)) (tbl w))
    /\ tbl w' = set_creds (tbl w) (set_oauth_grants (t_creds (tbl w))
         (<[id := rotated g (og_SecretHash g) (sha256Hex (RefreshToken resp)) (now w)]>
            (t_oauth_grants (t_creds (tbl w))))).
Proof.
  unfold handleRefreshTokenGrant. intros H [Hku Hkg _]. case_step H. case_step H. bool_facts.
  set (raw := form_value f "refresh_token") in *.
  apply bind_run in H as (found & w1 & Hf & H). apply attempt_run in Hf as (x & [= <-] & Hf).
  destruct found as [g|e]; [|apply bind_run in H as (? & ? & _ & [=])].
  pose proof (preserves_at _ _ _ _ _ (statement_now _) Hf) as Hn1.
  apply query_ok in Hf as [Hg Ht1]. apply head_rows in Hg as (id & Hg & Hh).
  case_step H. apply bind_run in H as (n & w2 & [= <- <-] & H). case_step H. bool_facts.
  apply bind_run in H as (u & w3 & Hu & H). apply or_err_run in Hu.
  pose proof (preserves_at _ _ _ _ _ (loadActiveUser_now _) Hu) as Hn3.
  apply loadActiveUser_ok in Hu as (Hu & Hau & Ht3). rewrite Ht1 in *.
  apply bind_run in H as (rh & w4 & Hr & H). injection Hr as <- <-.
  apply bind_run in H as (g' & w5 & Hr & H). apply or_err_run in Hr.
  pose proof (preserves_at _ _ _ _ _ (statement_now _) Hr) as Hn5.
  apply rotate_ok in Hr as (g0 & Hg0 & Hold & Hfree & Ht5). cbn [tbl] in *. rewrite Ht3 in *.
  rewrite (Hkg _ _ Hg) in *. simplify_eq.
  apply bind_run in H as (tok & w6 & Hm & H). apply mcp_token_ok in Hm as (u' & Hu' & Ht6 & _ & ->).
  injection H as <- <-. rewrite Ht5 in Hu'. cbn [t_users set_creds] in Hu'.
  rewrite (Hku _ _ Hu), Hu in Hu'. injection Hu' as <-.
  unfold same_now in *. simpl in *. exists id, g, u. rewrite Ht6, Ht5.
  assert (Hn : now w5 = now w) by congruence. rewrite Hn, Hn1 in *. rewrite Hold.
  split_and!; try done. apply has_prefix_spec. by eexists.
Qed.

Lemma grant_live g n :
  oauthGrantActive g n = true ->
  n < og_CreatedAt g + 180 * 24 * Hour
  /\ n < default (og_CreatedAt g) (og_LastUsedAt g) + 90 * 24 * Hour.
Proof.
  unfold oauthGrantActive, oauthGrantMaxLifetime, oauthGrantSlidingWindow.
  destruct (n <? og_CreatedAt g + 180 * 24 * Hour) eqn:E; cbn [negb]; [|done]. intros H. bool_facts. by destruct (og_LastUsedAt g).
Qed.

(** Refreshing: a token is renewed only for the current, unexpired secret of a
    grant presented with that grant's own client, for a user who may still sign
    in; the grant is then under a fresh secret, remembers the retired one and
    keeps its creation time, so that no chain of refreshes outlives the absolute
    limit of 180 days, and the access token names that user and is for /mcp. *)
Theorem refresh_rotates h f w resp w' (Hk : keyed (tbl w))
    (H : handleRefreshTokenGrant h f w = (Ok resp, w')) :
  exists id g u, t_oauth_grants (t_creds (tbl w)) !! id = Some g
  /\ og_SecretHash g = sha256Hex (form_value f "refresh_token")
  /\ og_ClientID g = form_value f "client_id"
  /\ now w < og_CreatedAt g + 180 * 24 * Hour
  /\ now w < default (og_CreatedAt g) (og_LastUsedAt g) + 90 * 24 * Hour
  /\ t_users (tbl w) !! og_UserID g = Some u /\ authenticatable (tbl w) u
  /\ AccessToken resp = signAccessToken (h_auth h) (mcp_claims u (now w))
  /\ exists g', t_oauth_grants (t_creds (tbl w')) !! id = Some g'
     /\ og_SecretHash g' = sha256Hex (RefreshToken resp)
     /\ og_PrevSecretHash g' = og_SecretHash g /\ og_CreatedAt g' = og_CreatedAt g
     /\ og_UserID g' = og_UserID g /\ og_ClientID g' = og_ClientID g
     /\ forall j, j <> id ->
          t_oauth_grants (t_creds (tbl w')) !! j = t_oauth_grants (t_creds (tbl w)) !! j.
Proof.
  apply refresh_run in H as (id & g & u & Hg & Hh & Hc & Ha & Hu & Hau & _ & _ & Htok & _ & Ht); [|done].
  apply grant_live in Ha as [Hmax Hslide]. exists id, g, u. split_and!; try done.
  eexists. rewrite Ht. split; [apply lookup_insert_eq|]. split_and!; try done.
  intros j Hj. cbn. by rewrite lookup_insert_ne.
Qed.

(** A lookup by a hash no row has finds nothing. *)
Lemma ByHash_none h w :
  (forall id g, t_oauth_grants (t_creds (tbl w)) !! id = Some g -> og_SecretHash g <> h) ->
  exists e, (OAuthGrants_ByHash h w).1 = Err e.
Proof.
  intros Hno. destruct (OAuthGrants_ByHash h w) as [[g|e] w'] eqn:E; [|by eexists].
  apply query_ok in E as [Hg _]. apply head_rows in Hg as (id & Hg & Hh). bool_facts.
  by apply Hno in Hg.
Qed.

(** A refresh with a secret no grant is under fails; when the store answers, it
    revokes every grant that had retired that secret. *)
Lemma unknown_secret h f w :
  (forall id g, t_oauth_grants (t_creds (tbl w)) !! id = Some g ->
     og_SecretHash g <> sha256Hex (form_value f "refresh_token")) ->
  exists e, (handleRefreshTokenGrant h f w).1 = Err e
  /\ (faults w = [] -> has_prefix (form_value f "refresh_token") refreshTokenPrefix = true ->
      form_value f "client_id" <> "" ->
      e_Error e = errInvalidGrant /\ tbl (handleRefreshTokenGrant h f w).2
        = set_creds (tbl w) (set_oauth_grants (t_creds (tbl w))
            (delete_rows (reuses (sha256Hex (form_value f "refresh_token")))
               (t_oauth_grants (t_creds (tbl w)))))).
Proof.
  intros Hno. unfold handleRefreshTokenGrant.
  destruct (has_prefix _ _) eqn:Ep; cbn [negb]; [|by eexists].
  destruct (form_value f "client_id" == "") eqn:Ec; [bool_facts; by eexists|].
  set (old := sha256Hex (form_value f "refresh_token")) in *.
  destruct (ByHash_none old w Hno) as [e0 He].
  pose proof (query_tbl (fun t => row (head (rows (fun g => og_SecretHash g == old)
    (t_oauth_grants (t_creds t))))) w) as Ht.
  pose proof (query_faultless (fun t => row (head (rows (fun g => og_SecretHash g == old)
    (t_oauth_grants (t_creds t))))) w) as Hq.
  change (query _ w) with (OAuthGrants_ByHash old w) in Ht, Hq.
  destruct (OAuthGrants_ByHash old w) as [r w1] eqn:Hb. simpl in He, Ht, Hq. subst r.
  unfold bind, attempt. rewrite Hb.
  unfold OAuthGrants_RevokeIfPreviousSecret, delete_counted, bind, or_err, statement.
  destruct (faults w1) as [|[] fs] eqn:Ef; simpl; (eexists; split; [reflexivity|]);
    intros Hw; [|by specialize (Hq Hw)..]. by rewrite Ht.
Qed.

Lemma refresh_keyed h f w resp w' :
  handleRefreshTokenGrant h f w = (Ok resp, w') -> keyed (tbl w) ->
  sha256Hex (RefreshToken resp) <> sha256Hex (form_value f "refresh_token") -> keyed (tbl w').
Proof.
  intros H Hk Hne. pose proof Hk as [Hu Hg Hs].
  apply refresh_run in H as (id & g & u & Hid & Hh & _ & _ & _ & _ & _ & _ & _ & Hfree & Ht); [|done].
  rewrite Hh in Hfree. specialize (Hfree Hne). rewrite Ht. split; simpl; [done|..].
  - intros j x [[<- <-]|[_ Hx]]%lookup_insert_Some; simpl; eauto.
  - intros i j x y [[<- <-]|[Hi Hx]]%lookup_insert_Some [[<- <-]|[Hj Hy]]%lookup_insert_Some; simpl;
      eauto; intros Heq; exfalso; [by apply (Hfree j y)|by apply (Hfree i x)].
Qed.

(** Presenting a secret no grant stores: the request fails, and of the grants only
    those that retired it last go. *)
Lemma unknown_grant h f w id g :
  (forall j x, t_oauth_grants (t_creds (tbl w)) !! j = Some x ->
     og_SecretHash x <> sha256Hex (form_value f "refresh_token")) ->
  faults w = [] -> has_prefix (form_value f "refresh_token") refreshTokenPrefix = true ->
  form_value f "client_id" <> "" -> t_oauth_grants (t_creds (tbl w)) !! id = Some g ->
  let '(r, w') := handleRefreshTokenGrant h f w in
  (exists e, r = Err e /\ e_Error e = errInvalidGrant)
  /\ t_oauth_grants (t_creds (tbl w')) !! id
     = (if og_PrevSecretHash g == sha256Hex (form_value f "refresh_token") then None else Some g)
  /\ forall j x, t_oauth_grants (t_creds (tbl w')) !! j = Some x ->
       t_oauth_grants (t_creds (tbl w)) !! j = Some x.
Proof.
  intros Hno Hf Hp Hc Hg. destruct (unknown_secret h f w Hno) as (e & He & Hrev).
  destruct Hrev as [Herr Hw]; [done..|]. destruct (handleRefreshTokenGrant h f w) as [r w'].
  simpl in *. subst r. split_and!; [by exists e|..]; rewrite Hw; cbn.
  - unfold delete_rows. rewrite map_lookup_filter, Hg. simpl. unfold reuses.
    destruct (og_PrevSecretHash g == sha256Hex (form_value f "refresh_token")) eqn:E; simpl; [|done].
    apply String.eqb_eq in E. by rewrite E, sha256Hex_nonempty.
  - intros j x Hj. by apply map_lookup_filter_Some in Hj as [? _].
Qed.

(** C13. Replay of a refresh secret: once a refresh has succeeded, presenting the
    secret it retired fails and revokes the whole grant, so that the secret just
    handed out stops working as well, whoever holds it. Only the last retired
    secret does so: if the new secret has been refreshed once more, the first one
    is refused just the same, but the grant stands. (While the store answers, and
    as long as no two of the secrets have the same digest.) *)
Theorem refresh_replay_revokes h f w resp w' f2 f3 (Hk : keyed (tbl w))
    (H : handleRefreshTokenGrant h f w = (Ok resp, w')) (Hf : faults w' = [])
    (Hne : sha256Hex (RefreshToken resp) <> sha256Hex (form_value f "refresh_token"))
    (Hreplay : form_value f2 "refresh_token" = form_value f "refresh_token")
    (Hclient : form_value f2 "client_id" <> "")
    (Hnew : form_value f3 "refresh_token" = RefreshToken resp) :
  exists id g, t_oauth_grants (t_creds (tbl w)) !! id = Some g
  /\ og_SecretHash g = sha256Hex (form_value f "refresh_token")
  /\ (let '(r2, w2) := handleRefreshTokenGrant h f2 w' in
      (exists e, r2 = Err e /\ e_Error e = errInvalidGrant)
      /\ t_oauth_grants (t_creds (tbl w2)) !! id = None
      /\ is_ok (handleRefreshTokenGrant h f3 w2).1 = false)
  /\ forall resp3 w3, handleRefreshTokenGrant h f3 w' = (Ok resp3, w3) -> faults w3 = [] ->
      sha256Hex (RefreshToken resp3) <> sha256Hex (RefreshToken resp) ->
      sha256Hex (RefreshToken resp3) <> sha256Hex (form_value f "refresh_token") ->
      let '(r4, w4) := handleRefreshTokenGrant h f2 w3 in
      (exists e, r4 = Err e /\ e_Error e = errInvalidGrant)
      /\ exists g3, t_oauth_grants (t_creds (tbl w3)) !! id = Some g3
         /\ og_SecretHash g3 = sha256Hex (RefreshToken resp3)
         /\ t_oauth_grants (t_creds (tbl w4)) !! id = Some g3.
Proof.
  pose proof (refresh_keyed h f w resp w' H Hk Hne) as Hk'. pose proof Hk as [_ _ Huniq].
  apply refresh_run in H as (id & g & u & Hg & Hh & _ & _ & _ & _ & Hp & _ & _ & Hfree & Ht); [|done].
  rewrite Hh in *. specialize (Hfree Hne). exists id, g.
  assert (Hrow : t_oauth_grants (t_creds (tbl w')) !! id
    = Some (rotated g (sha256Hex (form_value f "refresh_token")) (sha256Hex (RefreshToken resp)) (now w)))
    by (rewrite Ht; apply lookup_insert_eq).
  assert (Hold : forall j x, t_oauth_grants (t_creds (tbl w')) !! j = Some x ->
                   og_SecretHash x <> sha256Hex (form_value f2 "refresh_token")).
  { rewrite Hreplay, Ht. intros j x Hj Hs. cbn in Hj.
    apply lookup_insert_Some in Hj as [[_ <-]|[Hji Hj]]; [by cbn in Hs|].
    apply Hji. apply (Huniq id j g x); congruence. }
  split_and!; [done|done| |].
  - pose proof (unknown_grant h f2 w' id _ Hold Hf ltac:(by rewrite Hreplay) Hclient Hrow) as Hr.
    destruct (handleRefreshTokenGrant h f2 w') as [r2 w2]. destruct Hr as (He & Hgone & Hnone).
    cbn in Hgone. rewrite Hreplay, String.eqb_refl in Hgone. split_and!; [done|done|].
    destruct (unknown_secret h f3 w2) as (e3 & -> & _); [|done].
    rewrite Hnew. intros j x Hj Hs. destruct (decide (j = id)) as [->|Hji]; [congruence|].
    apply Hnone in Hj. rewrite Ht in Hj. cbn in Hj. rewrite lookup_insert_ne in Hj by done.
    by apply (Hfree j x).
  - intros resp3 w3 H3 Hf3 Hn1 Hn2.
    apply refresh_run in H3 as (id3 & g3 & u3 & Hg3 & Hh3 & _ & _ & _ & _ & _ & _ & _ & _ & Ht3); [|done].
    rewrite Hnew in Hh3. pose proof Hk' as [_ _ Huniq'].
    assert (id3 = id) as -> by (by apply (Huniq' id3 id _ _ Hg3 Hrow)).
    pose proof (unknown_grant h f2 w3 id (rotated g3 (og_SecretHash g3) (sha256Hex (RefreshToken resp3)) (now w'))) as Hr.
    destruct (handleRefreshTokenGrant h f2 w3) as [r4 w4]. destruct Hr as (He & Hstay & _); try done.
    + rewrite Hreplay, Ht3. intros j x Hj Hs. cbn in Hj.
      apply lookup_insert_Some in Hj as [[_ <-]|[Hji Hj]]; [by cbn in Hs|].
      apply (Hold j x Hj). by rewrite Hreplay.
    + by rewrite Hreplay.
    + rewrite Ht3. apply lookup_insert_eq.
    + split; [done|]. eexists. rewrite Ht3. split; [apply lookup_insert_eq|]. split; [done|].
      rewrite Hstay. cbn. rewrite Hh3, Hreplay. by rewrite (proj2 (String.eqb_neq _ _) Hne).
Qed.

Lemma grant_created g w g' w' :
  OAuthGrants_Create g w = (Ok g', w') ->
  og_UserID g' = og_UserID g /\ og_ClientID g' = og_ClientID g /\ og_SecretHash g' = og_SecretHash g
  /\ t_creds (tbl w') = set_oauth_grants (t_creds (tbl w))
                  (<[og_ID g' := g']> (t_oauth_grants (t_creds (tbl w)))).
Proof.
  unfold OAuthGrants_Create. intros H.
  apply bind_run in H as (id & w1 & Hid & H). apply bind_run in H as (n & w2 & [= <- <-] & H).
  apply bind_run in H as (u & w3 & Hw & H). injection H as <- <-. apply write_ok in Hw.
  assert (Ht : tbl w1 = tbl w) by (unfold new_id in Hid; case_step Hid; by injection Hid as _ <-).
  unfold insert_row in Hw. rewrite Ht in Hw. case_all Hw. injection Hw as Hw. simpl in *.
  by rewrite <- Hw.
Qed.

(** An operation leaves the authorization codes alone. *)
Definition codes_kept (t t' : Tables) : Prop :=
  t_oauth_codes (t_creds t') = t_oauth_codes (t_creds t).
#[local] Instance codes_kept_refl : Reflexive codes_kept.
Proof. by intros t. Qed.
#[local] Instance codes_kept_trans : Transitive codes_kept.
Proof. intros t1 t2 t3. unfold codes_kept. congruence. Qed.

Lemma issueTokenPair_keeps_codes h userID clientID :
  preserves (on_tables codes_kept) (issueTokenPair h userID clientID).
Proof.
  unfold issueTokenPair, LoadAuthenticatableUser, loadActiveUser, validateAuthenticatable, mcp_token,
    checkLoginRules, Organizations_ListLoginRules, Users_ByID, IssueAccessTokenForAudience,
    issueAccessToken, Users_ByID, generateRefreshToken, OAuthGrants_Create, Audit, Audit_Append.
  preserve; apply preserves_write; try exact _; intros t t' Hw; unfold insert_row in Hw; case_all Hw; by injection Hw as <-.
Qed.

Lemma issueTokenPair_ok h userID clientID w resp w' :
  (forall id u, t_users (tbl w) !! id = Some u -> u_ID u = id) ->
  issueTokenPair h userID clientID w = (Ok resp, w') ->
  exists u id g, t_users (tbl w) !! userID = Some u /\ authenticatable (tbl w) u
  /\ AccessToken resp = signAccessToken (h_auth h) (mcp_claims u (now w))
  /\ t_oauth_grants (t_creds (tbl w')) !! id = Some g
  /\ og_SecretHash g = sha256Hex (RefreshToken resp)
  /\ og_UserID g = userID /\ og_ClientID g = clientID.
Proof.
  intros Hku H. apply bind_run in H as (u & w1 & Hu & H). apply or_err_run in Hu.
  pose proof (preserves_at _ _ _ _ _ (loadActiveUser_now _) Hu) as Hn.
  apply loadActiveUser_ok in Hu as (Hu & Hau & Ht1).
  apply bind_run in H as (tok & w2 & Hm & H). apply mcp_token_ok in Hm as (u' & Hu' & Ht2 & _ & ->).
  rewrite Ht1, (Hku _ _ Hu), Hu in Hu'. injection Hu' as <-.
  apply bind_run in H as (rh & w3 & Hr & H). injection Hr as <- <-.
  apply bind_run in H as (g & w4 & Hg & H). apply or_err_run, grant_created in Hg as (Hgu & Hgc & Hgh & Hg).
  apply bind_run in H as (x & w5 & Ha & H). apply attempt_audit in Ha as [_ Ha].
  apply bind_run in H as (n & w6 & [= <- <-] & H). injection H as <- <-. cbn in *.
  unfold same_now in Hn. rewrite Hn, Ha, Hg. rewrite (Hku _ _ Hu) in Hgu.
  exists u, (og_ID g), g. split_and!; try done. apply lookup_insert_eq.
Qed.

(** C14. Redeeming an authorization code: tokens are issued only for an unexpired
    code, to the client and redirect address it was issued to, whose holder knows
    the PKCE verifier, for this server's resource, in the name of the approving
    user if they may still sign in; the grant is stored under the digest of the
    refresh secret. A complete request that presents an unexpired code spends it,
    whatever then fails or does not match (the client, the redirect address, the
    verifier, the resource, the user, any later statement), unless the statement
    that takes the code is itself lost in the backend; and a request that leaves
    the code in its table fails and changes nothing. *)
Theorem code_redemption h f w r w' (Hk : keyed (tbl w))
    (H : handleAuthorizationCodeGrant h f w = (r, w')) :
  let key := sha256Hex (form_value f "code") in
  (forall resp, r = Ok resp -> exists code u id g,
     t_oauth_codes (t_creds (tbl w)) !! key = Some code
     /\ unexpired (oa_ExpiresAt code) (now w) = true
     /\ oa_ClientID code = form_value f "client_id" /\ oa_RedirectURI code = form_value f "redirect_uri"
     /\ oa_Challenge code = pkceChallengeFromVerifier (form_value f "code_verifier")
     /\ (oa_Resource code = "" \/ oa_Resource code = protectedResource h)
     /\ t_users (tbl w) !! oa_UserID code = Some u /\ authenticatable (tbl w) u
     /\ AccessToken resp = signAccessToken (h_auth h) (mcp_claims u (now w))
     /\ t_oauth_grants (t_creds (tbl w')) !! id = Some g
     /\ og_SecretHash g = sha256Hex (RefreshToken resp)
     /\ og_UserID g = oa_UserID code /\ og_ClientID g = oa_ClientID code)
  /\ (forall code, t_oauth_codes (t_creds (tbl w)) !! key = Some code ->
        unexpired (oa_ExpiresAt code) (now w) = true -> head (faults w) <> Some true ->
        form_value f "code" <> "" -> form_value f "code_verifier" <> "" ->
        form_value f "redirect_uri" <> "" -> form_value f "client_id" <> "" ->
        t_oauth_codes (t_creds (tbl w')) !! key = None)
  /\ (is_Some (t_oauth_codes (t_creds (tbl w')) !! key) ->
        tbl w' = tbl w
        /\ exists e, r = Err e /\ (e_Error e = errInvalidRequest \/ e_Error e = errInvalidGrant)).
Proof.
  destruct Hk as [Hku _ _]. unfold handleAuthorizationCodeGrant in H. cbv zeta.
  case_step H.
  { injection H as <- <-. split_and!; [done| |intros _; split; [done|eexists; by auto]].
    intros code _ _ _ H1 H2 H3 H4. by rewrite !(proj2 (String.eqb_neq _ _)) in E. }
  unfold bind at 1 2 in H. cbn [time_Now get] in H.
  destruct (or_err _ (OAuthAuthCodes_Consume _ (now w)) w) as [r1 w1] eqn:Ec.
  pose proof Ec as Hc. apply or_err_inv in Ec as ([code|e] & Ec & ->); cbn [map_err] in H.
  2:{ injection H as <- <-. pose proof (consume_keeps _ _ _ _ _ _ _ Ec) as Ht. split_and!; [done| |eauto 10].
      intros code Hrow Hlive Hf _ _ _ _. unfold OAuthAuthCodes_Consume in Ec.
      pose proof (consume_hits t_oauth_codes set_oauth_codes _
        (fun k => unexpired (oa_ExpiresAt k) (now w)) w code Hrow Hlive Hf) as Hh. by rewrite Ec in Hh. }
  pose proof (preserves_at _ _ _ _ _ (statement_now _) Ec) as Hn.
  apply consume_ok in Ec as (Hrow & Hlive & Ht).
  assert (Hgone : t_oauth_codes (t_creds (tbl w1)) !! sha256Hex (form_value f "code") = None)
    by (rewrite Ht; apply lookup_delete_eq).
  assert (Hspent : forall v, t_oauth_codes (t_creds v) !! sha256Hex (form_value f "code") = None ->
    ~ is_Some (t_oauth_codes (t_creds v) !! sha256Hex (form_value f "code")))
    by (intros v ->; by intros [? ?]).
  case_step H; [injection H as <- <-; split_and!; [done..|by intros ?%Hspent]|].
  case_step H; [injection H as <- <-; split_and!; [done..|by intros ?%Hspent]|].
  case_step H; [injection H as <- <-; split_and!; [done..|by intros ?%Hspent]|].
  pose proof (preserves_at _ _ _ _ _ (issueTokenPair_keeps_codes _ _ _) H) as Hkeep.
  unfold on_tables, codes_kept in Hkeep. rewrite <- Hkeep in Hgone.
  split_and!; [|done|by intros ?%Hspent].
  intros resp ->. apply issueTokenPair_ok in H as (u & id & g & Hu & Hau & Hrest);
    [|by rewrite Ht]. rewrite Ht in Hu, Hau. unfold same_now in Hn. rewrite Hn in Hrest.
  bool_facts. exists code, u, id, g. split_and!; try done; try apply Hrest.
  destruct E2; bool_facts; auto.
Qed.

(** ** The signed consent state *)

Ltac consent_field := intros; unfold consent_fields; repeat (progress (fields; cbn [dec_string]; cbn beta iota)).

Lemma consent_strings c :
  field "client_id" dec_string "" (consent_fields c) = Some (cs_ClientID c)
  /\ field "redirect_uri" dec_string "" (consent_fields c) = Some (cs_RedirectURI c)
  /\ field "code_challenge" dec_string "" (consent_fields c) = Some (cs_Challenge c)
  /\ field "user_id" dec_string "" (consent_fields c) = Some (cs_UserID c).
Proof. split_and!; consent_field; done. Qed.

Lemma consent_options c :
  field "state" dec_string "" (consent_fields c) = Some (cs_OAuthState c)
  /\ field "resource" dec_string "" (consent_fields c) = Some (cs_Resource c).
Proof.
  split; consent_field; unfold or_str;
    [destruct (cs_OAuthState c == "") eqn:E|destruct (cs_Resource c == "") eqn:E]; bool_facts; congruence.
Qed.

Lemma consent_iat c :
  int64 (cs_IssuedAt c) -> field "iat" dec_int 0 (consent_fields c) = Some (cs_IssuedAt c).
Proof. consent_field. rewrite dec_int_ok by done. cbn beta iota. consent_field. done. Qed.

Lemma consent_dec c : int64 (cs_IssuedAt c) ->
  dec_consent (mkConsentState "" "" "" "" "" "" 0) (consent_fields c) = Some c.
Proof.
  intros Hi. unfold dec_consent.
  cbn [cs_ClientID cs_RedirectURI cs_Challenge cs_OAuthState cs_Resource cs_UserID cs_IssuedAt].
  destruct (consent_strings c) as (-> & -> & -> & ->). destruct (consent_options c) as (-> & ->).
  rewrite consent_iat by done. by destruct c.
Qed.

Definition consent_text (c : consentState) : bool :=
  ValidString (cs_ClientID c) && ValidString (cs_RedirectURI c) && ValidString (cs_Challenge c)
  && ValidString (cs_OAuthState c) && ValidString (cs_Resource c) && ValidString (cs_UserID c).

Lemma consent_json_ok c : consent_text c = true -> json_ok (JObj (consent_fields c)) = true.
Proof.
  unfold consent_text, consent_fields, opt_str. intros H. bool_facts. cbn [json_ok].
  rewrite !forallb_app.
  destruct (cs_OAuthState c == ""), (cs_Resource c == ""); cbn [forallb json_ok fst snd];
    repeat match goal with E : ValidString _ = true |- _ => rewrite E; clear E end;
    vm_compute; reflexivity.
Qed.

Lemma consent_roundtrip h n c :
  consent_text c = true -> int64 (cs_IssuedAt c) ->
  parseConsentState h n (signConsentState h c)
  = if n - fromUnix (cs_IssuedAt c) <=? 10 * Minute then Ok c else Err StateExpired.
Proof.
  intros Hc Hi. unfold parseConsentState, signConsentState.
  by rewrite (open_seal _ _ _ _ _ _ c) by (by apply consent_json_ok || by apply consent_dec).
Qed.

Lemma auth_code_created k w u w' :
  OAuthAuthCodes_Create k w = (Ok u, w') ->
  t_oauth_codes (t_creds (tbl w')) !! oa_ID k
    = Some (mkOAuthAuthCode (oa_ID k) (oa_UserID k) (oa_ClientID k) (oa_RedirectURI k)
              (oa_Challenge k) (oa_Resource k) (stored (oa_ExpiresAt k)) (stored (now w))).
Proof.
  unfold OAuthAuthCodes_Create. intros H. apply bind_run in H as (n & w1 & [= <- <-] & H).
  apply bind_run in H as (x & w2 & _ & H). apply write_ok in H. unfold insert_row in H.
  case_all H. injection H as H. rewrite <- H. apply lookup_insert_eq.
Qed.

Lemma session_now a r : preserves same_now (AuthenticateSessionCookie a r).
Proof.
  unfold AuthenticateSessionCookie, authenticateSession, Sessions_Get, cquery, loadActiveUser,
    validateAuthenticatable, checkLoginRules, Organizations_ListLoginRules, Users_ByID, sessionDuration,
    Organizations_Get, Sessions_Refresh, cwrite.
  repeat first [ apply statement_now | preserve_step ].
Qed.

(** Approving a client: the state an authorization page signs reads back as it
    was for ten minutes and not after, and an approval sends a code only for a
    state carrying the server's signature, in the browser session of the very
    user it was rendered for, to a redirect address still registered for the
    client; the code is stored only as a digest, for that user, client, address,
    challenge and resource, and lives ten minutes. *)
Theorem approval_binds_session h :
  (forall n c, consent_text c = true -> int64 (cs_IssuedAt c) ->
     parseConsentState h n (signConsentState h c)
     = if n - fromUnix (cs_IssuedAt c) <=? 10 * Minute then Ok c else Err StateExpired)
  /\ forall r f w ans w', handleAuthorizeDecision h r (Some f) w = (Ok ans, w') ->
     exists payload st u client raw,
       form_value f "state_token" = payload +:+ "." +:+ hmacHex (consentKey h) (default "" (b64_decode payload))
       /\ parseConsentState h (now w) (form_value f "state_token") = Ok st
       /\ u_ID u = cs_UserID st /\ authenticatable (tbl w) u
       /\ (exists cookie id s, request_cookie r (sessionCookieName (h_auth h)) = Some cookie
            /\ b64_decode cookie = Some id /\ t_sessions (t_creds (tbl w)) !! sha256Hex id = Some s
            /\ unexpired (s_ExpiresAt s) (now w) = true /\ t_users (tbl w) !! s_UserID s = Some u)
       /\ t_oauth_clients (t_creds (tbl w)) !! cs_ClientID st = Some client
       /\ In (cs_RedirectURI st) (oc_RedirectURIs client)
       /\ ans = RedirectCode (cs_RedirectURI st) raw (cs_OAuthState st)
       /\ t_oauth_codes (t_creds (tbl w')) !! sha256Hex raw
          = Some (mkOAuthAuthCode (sha256Hex raw) (u_ID u) (cs_ClientID st) (cs_RedirectURI st)
                    (cs_Challenge st) (cs_Resource st) (stored (now w + 10 * Minute)) (stored (now w))).
Proof.
  split; [intros; by apply consent_roundtrip|]. intros r f w ans w' H.
  apply bind_run in H as (n & w1 & [= <- <-] & H).
  apply bind_run in H as (st & w2 & Hst & H). apply or_err_run in Hst. injection Hst as Hst <-.
  apply bind_run in H as (ac & w3 & Hac & H). apply or_err_run in Hac.
  pose proof (preserves_at _ _ _ _ _ (session_now _ _) Hac) as Hn3.
  pose proof (preserves_at _ _ _ _ _ (session_frame _ _) Hac) as Ht3.
  apply session_actor_ok in Hac as (Hau & _ & _ & Hsess). case_step H. bool_facts.
  apply bind_run in H as (client & w4 & Hc & H). apply or_err_run in Hc.
  pose proof (preserves_at _ _ _ _ _ (statement_now _) Hc) as Hn4.
  apply query_ok in Hc as [Hc Ht4]. unfold row in Hc. case_step Hc. injection Hc as ->.
  case_step H. bool_facts.
  apply bind_run in H as (raw & w5 & Hr & H). injection Hr as <- <-.
  apply bind_run in H as (n & w6 & [= <- <-] & H). apply bind_run in H as (x & w7 & Hk & H).
  apply or_err_run, auth_code_created in Hk. apply bind_run in H as (y & w8 & Ha & H).
  apply attempt_audit in Ha as [_ Ha]. case_step H. injection H as <- <-.
  unfold same_now, on_tables, sessions_only in *. cbn in *.
  rewrite Ht3 in E0. cbn in E0.
  pose proof (open_sealed_signed _ _ _ _ _ _ _ Hst) as (payload & b & j & Hraw & Eb & _).
  exists payload, st, (ac_User ac), client, (b64_encode (random (ids w4))).
  rewrite Ha, Hk, Eb. rewrite Hn4, Hn3. split_and!; try done.
  apply existsb_exists in E1 as (y' & Hy & Heq). bool_facts. by subst.
Qed.
End OAuth.

(** ** Witnesses *)

#[local] Transparent sha256 hmac_sha256 b64_encode hex.

Definition sample_handler : Handler := mkHandler "https://box.example" sample_auth "k-consent".
Definition callback_uri : string := "https://app.example/cb".

(** Bob's browser session, his client with a grant under the secret [fbxr_s0], and
    a code waiting to be redeemed with [sample_verifier]. *)
Definition mcp_world : World :=
  with_tbl session_world (set_creds (tbl session_world)
    (mkCreds (t_sessions (t_creds (tbl session_world))) ∅ ∅ ∅
       {["C1" := mkOAuthClient "C1" "App" [callback_uri] 1 1]}
       {[sha256Hex "code" := mkOAuthAuthCode (sha256Hex "code") "U2" "C1" callback_uri
           (pkceChallengeFromVerifier sample_verifier) "" (600 * second) 1]}
       {["G1" := mkOAuthGrant "G1" "U2" "C1" (sha256Hex "fbxr_s0") "" 1 1 None]})).

Lemma mcp_world_keyed : keyed (tbl mcp_world).
Proof.
  assert (Hg : t_oauth_grants (t_creds (tbl mcp_world))
               = {["G1" := mkOAuthGrant "G1" "U2" "C1" (sha256Hex "fbxr_s0") "" 1 1 None]}) by reflexivity.
  assert (Hu : t_users (tbl mcp_world) = {["U1" := alice; "U2" := bob]}) by reflexivity.
  split; rewrite ?Hg, ?Hu.
  - intros id u [[<- <-]|[_ H]]%lookup_insert_Some; [done|].
    by apply lookup_singleton_Some in H as [<- <-].
  - by intros id g [<- <-]%lookup_singleton_Some.
  - by intros i j g g' [<- _]%lookup_singleton_Some [<- _]%lookup_singleton_Some.
Qed.

Definition refresh_form (secret : string) : Form := [("refresh_token", secret); ("client_id", "C1")].
Abbreviation sample_refresh :=
  (handleRefreshTokenGrant (U := ascii_tables) (J := numeral_json) (I := unary_ids) sample_handler
    (refresh_form "fbxr_s0") mcp_world).
Definition sample_response : tokenResponse := ok_or (mkTokenResponse "" "" 0 "") sample_refresh.1.

Lemma sample_refresh_ok :
  sample_refresh = (Ok sample_response, sample_refresh.2).
Proof. unfold sample_response. apply ok_or_run. vm_compute. reflexivity. Qed.

Lemma refresh_rotates_witness :
  exists u, authenticatable (U := ascii_tables) (tbl mcp_world) u
  /\ AccessToken sample_response
     = signAccessToken (J := numeral_json) sample_auth (mcp_claims u (now mcp_world)).
Proof.
  destruct (refresh_rotates (U := ascii_tables) (J := numeral_json) (I := unary_ids) sample_handler
    (refresh_form "fbxr_s0") mcp_world sample_response sample_refresh.2 mcp_world_keyed sample_refresh_ok)
    as (id & g & u & _ & _ & _ & _ & _ & _ & Hu & Ht & _).
  exact (ex_intro _ u (conj Hu Ht)).
Defined.

Lemma refresh_replay_revokes_witness :
  is_ok (handleRefreshTokenGrant (U := ascii_tables) (J := numeral_json) (I := unary_ids) sample_handler
    (refresh_form (RefreshToken sample_response))
    (handleRefreshTokenGrant (U := ascii_tables) (J := numeral_json) (I := unary_ids) sample_handler
       (refresh_form "fbxr_s0") sample_refresh.2).2).1 = false.
Proof.
  assert (Hne : (sha256Hex (RefreshToken sample_response) == sha256Hex "fbxr_s0") = false)
    by (vm_compute; reflexivity).
  destruct (refresh_replay_revokes (U := ascii_tables) (J := numeral_json) (I := unary_ids) sample_handler
    (refresh_form "fbxr_s0") mcp_world sample_response sample_refresh.2 (refresh_form "fbxr_s0")
    (refresh_form (RefreshToken sample_response)) mcp_world_keyed sample_refresh_ok
    ltac:(vm_compute; reflexivity) (proj1 (String.eqb_neq _ _) Hne) eq_refl ltac:(discriminate) eq_refl)
    as (id & g & _ & _ & H).
  destruct (handleRefreshTokenGrant _ (refresh_form "fbxr_s0") sample_refresh.2) as [r2 w2].
  exact (proj2 (proj2 (proj1 H))).
Defined.

Definition code_form (verifier : string) : Form :=
  [("code", "code"); ("code_verifier", verifier); ("redirect_uri", callback_uri); ("client_id", "C1")].
Abbreviation sample_redeem verifier :=
  (handleAuthorizationCodeGrant (U := ascii_tables) (J := numeral_json) (I := unary_ids) sample_handler
    (code_form verifier) mcp_world).

Lemma sample_redeem_ok :
  sample_redeem sample_verifier
  = (Ok (ok_or sample_response (sample_redeem sample_verifier).1), (sample_redeem sample_verifier).2).
Proof. apply ok_or_run. vm_compute. reflexivity. Qed.

Lemma code_redemption_witness :
  (is_ok (sample_redeem "guess").1 = false
   /\ t_oauth_codes (t_creds (tbl (sample_redeem "guess").2)) !! sha256Hex "code" = None)
  /\ exists u, authenticatable (U := ascii_tables) (tbl mcp_world) u.
Proof.
  split; [split; [vm_compute; reflexivity|]|].
  { destruct (code_redemption (U := ascii_tables) (J := numeral_json) (I := unary_ids) sample_handler
      (code_form "guess") mcp_world _ _ mcp_world_keyed (surjective_pairing _)) as (_ & H & _).
    by apply (H (mkOAuthAuthCode (sha256Hex "code") "U2" "C1" callback_uri
      (pkceChallengeFromVerifier sample_verifier) "" (600 * second) 1)). }
  destruct (code_redemption (U := ascii_tables) (J := numeral_json) (I := unary_ids) sample_handler
    (code_form sample_verifier) mcp_world _ _ mcp_world_keyed sample_redeem_ok) as [H [_ _]].
  destruct (H _ eq_refl) as (code & u & id & g & _ & _ & _ & _ & _ & _ & _ & Hu & _).
  exact (ex_intro _ u Hu).
Defined.

Definition sample_consent : consentState :=
  mkConsentState "C1" callback_uri (pkceChallengeFromVerifier sample_verifier) "xyz" "" "U2" 0.
Definition approval_form : Form :=
  [("state_token", signConsentState (J := numeral_json) sample_handler sample_consent)].
Abbreviation sample_approval :=
  (handleAuthorizeDecision (U := ascii_tables) (J := numeral_json) (I := unary_ids) sample_handler
    (browser_request "POST" "" "") (Some approval_form) mcp_world).

Lemma sample_approval_ok :
  sample_approval
  = (Ok (ok_or RedirectLogin sample_approval.1), sample_approval.2).
Proof. apply ok_or_run. vm_compute. reflexivity. Qed.

Lemma approval_binds_session_witness :
  exists u, authenticatable (U := ascii_tables) (tbl mcp_world) u.
Proof.
  destruct (approval_binds_session (U := ascii_tables) (J := numeral_json) (I := unary_ids) sample_handler)
    as [_ Ha].
  destruct (Ha _ _ _ _ _ sample_approval_ok)
    as (payload & st & u & client & raw & _ & _ & _ & Hu & _).
  exact (ex_intro _ u Hu).
Defined.
