(* ===== verification/Login.v ===== *)
(** * Login: signing in, and the first user of an installation

    Models src/server/internal/auth/login.go (the OpenID Connect path): the
    signed state cookie of a login, the callback with its checks, and upsertUser,
    which turns a verified identity into a user, bootstraps an empty installation
    and seeds its login rules. The identity provider is a parameter: what it
    answers for a code and a PKCE verifier. *)

From stdpp Require Import sorting.
From S2P Require Import Prelude GoNum GoURL Manifest Types Settings Store StoreCreds Digest Signed Glob.
From S2P Require Import UserID Tokens Sessions CLIAuth.

(** Why a login fails; [LoginNoReturn] marks a user-identifier search that has not
    returned within its fuel. *)
Inductive LoginErr :=
| LoginDenied
| LoginStore (e : StoreErr)
| LoginSettings
| LoginNoReturn.

Record oauthState := mkOAuthState {
  os_State : string;
  os_Nonce : string;
  os_Verifier : string;
  os_ReturnTo : string;
  os_IssuedAt : Z
}.

(** What the code relies on of a verified ID token. *)
Record IDToken := mkIDToken {
  id_Subject : string;
  id_Nonce : string;
  id_Email : string;
  id_EmailVerified : bool;
  id_Name : string
}.

Definition oauthStateMaxAge : Z := 10 * Minute.
Definition defaultReturnTo : string := "/dashboard".

Section Login.
Context {U : UnicodeTables} {J : JsonText} {I : IdGen}.

(** ** The state cookie *)

Definition state_fields (s : oauthState) : list (string * json) :=
  [("state", JStr (os_State s)); ("nonce", JStr (os_Nonce s)); ("verifier", JStr (os_Verifier s))]
  ++ opt_str "return_to" (os_ReturnTo s) ++ [("iat", JInt (os_IssuedAt s))].

Definition dec_state (s : oauthState) (kvs : list (string * json)) : option oauthState :=
  match field "state" dec_string (os_State s) kvs, field "nonce" dec_string (os_Nonce s) kvs,
        field "verifier" dec_string (os_Verifier s) kvs,
        field "return_to" dec_string (os_ReturnTo s) kvs, field "iat" dec_int (os_IssuedAt s) kvs with
  | Some a, Some b, Some c, Some d, Some e => Some (mkOAuthState a b c d e)
  | _, _, _, _, _ => None
  end.

Definition signState (a : Auth) (s : oauthState) : string :=
  seal (csrfKey a) (json_print (JObj (state_fields s))).

(** [n] is the current time. *)
Definition parseState (a : Auth) (n : Time) (cookieVal : string) : result StateErr oauthState :=
  open_sealed (csrfKey a) (dec_object dec_state (mkOAuthState "" "" "" "" 0)) os_IssuedAt
    oauthStateMaxAge n cookieVal.

Definition oauthStateCookieNamePrefix (a : Auth) : string :=
  if secureCookies a then "__Host-fbx_oauth_state" else "fbx_oauth_state_insecure".
Definition oauthStateCookieName (a : Auth) (state : string) : string :=
  oauthStateCookieNamePrefix a +:+ "-" +:+ state.

Definition consumeOAuthStateCookie (a : Auth) (n : Time) (r : Request) (queryState : string)
    : result string oauthState :=
  match request_cookie r (oauthStateCookieName a queryState) with
  | None => Err "missing OAuth state cookie (it may have expired -- try logging in again)"
  | Some c =>
      match parseState a n c with
      | Err _ => Err "invalid or expired OAuth state"
      | Ok st =>
          guard! os_State st == queryState else "OAuth state mismatch" in
          Ok st
      end
  end.

(** [handleLogin]: the state, and the name and value of its cookie. [verifier] is
    the PKCE verifier the OAuth library generates. *)
Definition handleLogin {E} (a : Auth) (verifier return_to : string) : M E (oauthState * string * string) :=
  do! state <- randomURLToken;
  do! nonce <- randomURLToken;
  do! n <- time_Now;
  let st := mkOAuthState state nonce verifier (sanitizeReturnTo return_to) (toUnix n) in
  ret (st, oauthStateCookieName a state, signState a st).

(** ** Users *)

Definition requireApprovalEnabled {E} : M E bool :=
  do! r <- attempt Organizations_Get;
  ret (match r with
       | Err _ => false
       | Ok org => match ParseOrg (o_Settings org) with Ok s => RequireApproval s | Err _ => false end
       end).

Definition initialUserStatus {E} : M E UserStatus :=
  do! b <- requireApprovalEnabled;
  ret (if (b : bool) then UserStatusPending else UserStatusActive).

(** [fuel] bounds the search for an identifier. *)
Definition claimUserID (fuel : nat) (u : User) : M LoginErr unit :=
  do! id <- or_err LoginStore (DeriveUserID fuel (u_Email u));
  match id with
  | None => throw LoginNoReturn
  | Some userID => or_err LoginStore (PublicUserIDs_Create (mkPublicUserID userID (u_ID u) 0 0))
  end.

Definition with_open_mode (s : Org) : Org :=
  mkOrg (Language s) (org_AllowUserFunctions s) (AllowNodejsCompat s) (DefaultVisibility s)
    (MaxVisibility s) (org_FetchPolicy s) (org_Limits s) (ExtraIDTokenAudiences s)
    (SessionDurationSeconds s) (LogRetentionDays s) (RequireApproval s) (MaxFunctionsPerUser s)
    true (ExposeCallerIdentity s) (McpEnabled s).

Definition applyBootstrapOpenMode : M LoginErr unit :=
  do! org <- or_err LoginStore Organizations_Get;
  match ParseOrg (o_Settings org) with
  | Err _ => throw LoginSettings
  | Ok s =>
      or_err LoginStore (Organizations_Update
        (mkOrganization (o_ID org) (o_Name org) (Org_JSON (with_open_mode s)) (o_SettingsGen org + 1)
           (o_CreatedAt org) (o_UpdatedAt org)))
  end.

Definition open_rules : list LoginRule :=
  [mkLoginRule "" 0 LoginRuleTypeDefault "" LoginRuleActionAllow 0 0].

Definition seedBootstrapLoginRule (a : Auth) (email : string) : M LoginErr unit :=
  if cfg_OpenMode a then
    run! applyBootstrapOpenMode;
    run! or_err LoginStore (Organizations_ReplaceLoginRules open_rules);
    ret tt
  else
    run! or_err LoginStore (Organizations_ReplaceLoginRules (seed_rules email));
    ret tt.

(** The role and status of a bootstrap are forced by the store. *)
Definition google_user (sub email name : string) (role : Role) (st : UserStatus) : User :=
  mkUser "" ProviderGoogle sub email name role st "" 0 0.

(** The gate every login but the bootstrap passes. *)
Definition rule_gate (email : string) : M LoginErr unit :=
  do! allowed <- or_err LoginStore (checkLoginRules email);
  if (allowed : bool) then ret tt else throw LoginDenied.

Definition login_known (u : User) (email name : string) : M LoginErr User :=
  if bool_decide (u_Status u = UserStatusDisabled) then throw LoginDenied
  else
    run! rule_gate email;
    if negb (u_Email u == email) || (negb (name == "") && negb (u_Name u == name)) then
      let u' := mkUser (u_ID u) (u_Provider u) (u_ProviderSubject u) email
                  (if name == "" then u_Name u else name) (u_Role u) (u_Status u) (u_Language u)
                  (u_CreatedAt u) (u_UpdatedAt u) in
      run! or_err LoginStore (Users_Update u');
      ret u'
    else ret u.

(** A new identity once it is known that the bootstrap is not for it. *)
Definition login_new (fuel : nat) (sub email name : string) : M LoginErr User :=
  run! rule_gate email;
  do! st <- initialUserStatus;
  do! r <- attempt (Users_Create (google_user sub email name RoleMember st));
  match r with
  | Err ErrConflict =>
      do! found <- attempt (Users_ByProviderSubject ProviderGoogle sub);
      match found with
      | Ok existing => ret existing
      | Err _ => throw (LoginStore ErrConflict)
      end
  | Err e => throw (LoginStore e)
  | Ok u =>
      run! claimUserID fuel u;
      ret u
  end.

Definition upsertUser (a : Auth) (fuel : nat) (sub email name : string) : M LoginErr User :=
  do! found <- attempt (Users_ByProviderSubject ProviderGoogle sub);
  match found with
  | Ok u => login_known u email name
  | Err ErrNotFound =>
      do! existing <- or_err LoginStore Users_List;
      if (length existing =? 0)%nat then
        do! r <- attempt (Store_BootstrapFirstUser
                   (google_user sub email name RoleMember UserStatusActive) "funcbox");
        match r with
        | Ok u =>
            run! claimUserID fuel u;
            run! seedBootstrapLoginRule a email;
            ret u
        | Err ErrConflict => login_new fuel sub email name
        | Err e => throw (LoginStore e)
        end
      else login_new fuel sub email name
  | Err e => throw (LoginStore e)
  end.

(** [completeLogin]: the cookies set and the address redirected to. *)
Definition completeLogin (a : Auth) (user : User) (returnTo : string)
    : M string (list SetCookie * string) :=
  do! s <- or_err (fun _ => "failed to create session") (createSession (u_ID user));
  do! d <- or_err (fun _ => "") sessionDuration;
  do! cookies <- or_err (fun _ => "") (setSessionCookies a s.2 d);
  run! attempt (Audit (u_ID user) "user.login" ("user:" +:+ u_ID user)
                  (Some (JObj [("email", JStr (u_Email user))])));
  ret (cookies, if returnTo == "" then defaultReturnTo else returnTo).

(** [handleCallback], the Google path. [provider] exchanges the code and verifies
    the token: its failures carry their message. *)
Definition handleCallback (a : Auth) (fuel : nat) (provider : string -> string -> result string IDToken)
    (r : Request) (state error code : string) : M string (list SetCookie * string) :=
  do! n <- time_Now;
  do! st <- lift (consumeOAuthStateCookie a n r state);
  if negb (error == "") then throw ("identity provider returned an error: " +:+ error)
  else if code == "" then throw "missing authorization code"
  else
    do! tok <- lift (provider code (os_Verifier st));
    if negb (id_Nonce tok == os_Nonce st) then throw "id token nonce mismatch"
    else if (id_Email tok == "") || negb (id_EmailVerified tok) then
      throw "email address is not verified by the identity provider"
    else
      do! user <- or_err (fun e => match e with
                                   | LoginDenied => "this email address is not permitted to sign in"
                                   | _ => "failed to complete sign-in"
                                   end)
                    (upsertUser a fuel (id_Subject tok) (id_Email tok) (id_Name tok));
      let returnTo :=
        if negb (os_ReturnTo st == "") && negb (validLocalReturnTo (os_ReturnTo st)) then ""
        else os_ReturnTo st in
      completeLogin a user returnTo.

(** ** What the steps of a login do *)

(** Digests are never computed in the proofs below. *)
#[local] Opaque sha256 hmac_sha256 b64_encode hex.

(** The same rule under an identifier and times of its own. *)
Definition same_rule (r s : LoginRule) : Prop :=
  lr_Ord r = lr_Ord s /\ lr_RuleType r = lr_RuleType s /\ lr_Value r = lr_Value s
  /\ lr_Action r = lr_Action s.

Lemma new_id_tbl {E} id w x w' : new_id (E := E) id w = (Ok x, w') -> tbl w' = tbl w.
Proof. unfold new_id. destruct (id == ""); by intros [= _ <-]. Qed.

Lemma insert_rules_ok rules n w rs w' :
  insert_login_rules rules n w = (Ok rs, w') ->
  tbl w' = set_login_rules (tbl w) (t_login_rules (tbl w) ++ rs) /\ Forall2 same_rule rs rules.
Proof.
  revert w rs w'. induction rules as [|lr rules IH]; intros w rs w' H; simpl in H.
  - injection H as <- <-. rewrite app_nil_r. split; [by destruct (tbl w)|constructor].
  - apply bind_run in H as (id & w1 & Hid & H). apply new_id_tbl in Hid.
    apply bind_run in H as (u & w2 & Hw & H). apply write_ok in Hw. case_step Hw. injection Hw as Hw.
    apply bind_run in H as (rest & w3 & Hr & H). injection H as <- <-.
    apply IH in Hr as (Ht & Hf). rewrite Ht, <- Hw, Hid. split.
    + unfold set_login_rules. simpl. by rewrite <- app_assoc.
    + constructor; [by split_and!|done].
Qed.

Lemma replace_rules_ok rules w rs w' :
  Organizations_ReplaceLoginRules rules w = (Ok rs, w') ->
  tbl w' = set_login_rules (tbl w) rs /\ Forall2 same_rule rs rules.
Proof.
  unfold Organizations_ReplaceLoginRules. intros H. apply bind_run in H as (n & w1 & [= <- <-] & H).
  apply transaction_ok in H. apply bind_run in H as (u & w2 & Hw & H). apply write_ok in Hw.
  injection Hw as Hw. apply insert_rules_ok in H as [-> Hf]. by rewrite <- Hw.
Qed.

Lemma bootstrap_ok u name w u' w' :
  Store_BootstrapFirstUser u name w = (Ok u', w') ->
  t_users (tbl w) = ∅ /\ t_users (tbl w') = {[u_ID u' := u']} /\ u_Role u' = RoleAdmin
  /\ u_Status u' = UserStatusActive /\ u_Email u' = u_Email u
  /\ t_login_rules (tbl w') = t_login_rules (tbl w).
Proof.
  unfold Store_BootstrapFirstUser. intros H. apply bind_run in H as (n & w1 & [= <- <-] & H).
  apply transaction_ok in H. apply bind_run in H as (c & w2 & Hc & H). apply query_ok in Hc as [[= <-] Hc].
  case_step H. bool_facts. apply bind_run in H as (o & w3 & Ho & H). apply query_ok in Ho as [_ Ho].
  apply bind_run in H as (x & w4 & Hw & H).
  assert (Ht : t_users (tbl w4) = t_users (tbl w3) /\ t_login_rules (tbl w4) = t_login_rules (tbl w3)).
  { destruct o; [by injection Hw as _ <-|]. apply write_ok in Hw. injection Hw as Hw. by rewrite <- Hw. }
  apply bind_run in H as (id & w5 & Hid & H). apply new_id_tbl in Hid.
  apply bind_run in H as (y & w6 & Hi & H). injection H as <- <-. apply write_ok in Hi.
  unfold insert_user in Hi. case_step Hi. injection Hi as Hi. destruct Ht as [Hu Hr].
  assert (Hs : size (t_users (tbl w)) = 0%nat) by lia. apply map_size_empty_inv in Hs.
  rewrite <- Hi, Hid. cbn [t_users set_users t_login_rules]. rewrite Hu, Hr, Ho, Hc, Hs.
  by split_and!.
Qed.

(** An operation leaves users and login rules alone. *)
Definition gate_kept (t t' : Tables) : Prop :=
  t_users t' = t_users t /\ t_login_rules t' = t_login_rules t.
#[local] Instance gate_kept_refl : Reflexive gate_kept.
Proof. by intros t. Qed.
#[local] Instance gate_kept_trans : Transitive gate_kept.
Proof. intros t1 t2 t3 [] []. split; congruence. Qed.

Lemma derive_keeps fuel base c n : preserves (on_tables gate_kept) (derive_loop fuel base c n).
Proof.
  revert c n. induction fuel as [|fuel IH]; intros c n; cbn [derive_loop]; cbv zeta; [preserve|].
  unfold PublicUserIDs_ByUserID. preserve; apply IH.
Qed.

Lemma claim_keeps fuel u : preserves (on_tables gate_kept) (claimUserID fuel u).
Proof.
  unfold claimUserID, DeriveUserID, PublicUserIDs_Create. preserve; [apply derive_keeps|].
  apply preserves_write; [exact _|]. intros t t' H. case_all H; by injection H as <-.
Qed.

Lemma open_mode_keeps : preserves (on_tables gate_kept) applyBootstrapOpenMode.
Proof.
  unfold applyBootstrapOpenMode, Organizations_Get, Organizations_Update. preserve.
  apply preserves_write; [exact _|]. intros t t' H. case_all H; by injection H as <-.
Qed.

Lemma users_listed w l w' :
  Users_List w = (Ok l, w') -> tbl w' = tbl w /\ length l = size (t_users (tbl w)).
Proof.
  intros H. apply query_ok in H as [[= <-] Ht]. split; [done|]. unfold order_by.
  rewrite (Permutation_length (merge_sort_Permutation _ _)). unfold rows.
  assert (Hf : forall m : list User, List.filter (fun _ => true) m = m).
  { intros m. induction m as [|x m IH]; simpl; [done|by rewrite IH]. }
  by rewrite Hf, length_map, length_map_to_list.
Qed.

Lemma bootstrap_no_conflict u name w w' :
  t_users (tbl w) = ∅ -> Store_BootstrapFirstUser u name w <> (Err ErrConflict, w').
Proof.
  intros He H. unfold Store_BootstrapFirstUser in H.
  apply bind_fail in H as [[=]|(n & w1 & [= <- <-] & H)].
  unfold transaction in H.
  destruct (bind _ _ w) as [[x|e] w2] eqn:Hb in H; [done|]. injection H as -> _.
  apply bind_fail in Hb as [Hc|(c & w3 & Hc & Hb)]; [by apply query_err in Hc as [_ [|]]|].
  apply query_ok in Hc as [[= <-] Ht]. rewrite He in Hb. cbn in Hb.
  apply bind_fail in Hb as [Hc|(o & w4 & Ho & Hb)]; [by apply query_err in Hc as [_ [|]]|].
  apply query_ok in Ho as [_ Ho].
  apply bind_fail in Hb as [Hc|(x & w5 & Hx & Hb)].
  { destruct o; [done|]. by apply write_err in Hc as [_ [|]]. }
  apply bind_fail in Hb as [Hc|(id & w6 & Hid & Hb)].
  { unfold new_id in Hc. by destruct (_ == _). }
  apply bind_fail in Hb as [Hc|(? & ? & _ & [=])]. apply write_err in Hc as [_ [|Hc]]; [done|].
  apply new_id_tbl in Hid.
  assert (Hu : t_users (tbl w6) = ∅).
  { rewrite Hid. destruct o; [injection Hx as _ <-; by rewrite Ho, Ht|].
    apply write_ok in Hx. injection Hx as Hx. rewrite <- Hx. cbn. by rewrite Ho, Ht. }
  unfold insert_user, user_unique in Hc. rewrite Hu, lookup_empty, map_to_list_empty in Hc.
  rewrite bool_decide_eq_false_2 in Hc by (by intros []). discriminate Hc.
Qed.

Lemma seed_ok a email w x w' :
  seedBootstrapLoginRule a email w = (Ok x, w') ->
  t_users (tbl w') = t_users (tbl w)
  /\ Forall2 same_rule (t_login_rules (tbl w')) (if cfg_OpenMode a then open_rules else seed_rules email).
Proof.
  unfold seedBootstrapLoginRule. destruct (cfg_OpenMode a); intros H.
  - apply bind_run in H as (y & w1 & Ho & H). pose proof (preserves_at _ _ _ _ _ open_mode_keeps Ho) as [Hu _].
    apply bind_run in H as (rs & w2 & Hr & H). apply or_err_run, replace_rules_ok in Hr as [Ht Hf].
    injection H as <- <-. by rewrite Ht, <- Hu.
  - apply bind_run in H as (rs & w2 & Hr & H). apply or_err_run, replace_rules_ok in Hr as [Ht Hf].
    injection H as <- <-. by rewrite Ht.
Qed.

(** The first login: in an installation without users, a login that succeeds
    makes its user the only one, an active administrator, and leaves login rules
    under which that user can come back: in open mode they admit everyone, and
    otherwise exactly the user's own address (for ASCII addresses, up to case and
    surrounding space). *)
Theorem bootstrap_admits_admin a fuel sub email name w u w' (Hempty : t_users (tbl w) = ∅)
    (H : upsertUser a fuel sub email name w = (Ok u, w')) :
  t_users (tbl w') = {[u_ID u := u]} /\ u_Role u = RoleAdmin /\ u_Status u = UserStatusActive
  /\ u_Email u = email
  /\ (cfg_OpenMode a = true -> forall e, EvaluateLoginRules (rules_of (tbl w')) e = true)
  /\ (cfg_OpenMode a = false -> is_ascii email = true -> forall e, is_ascii e = true ->
      EvaluateLoginRules (rules_of (tbl w')) e
      = (to_lower (trim_space e) == to_lower (trim_space email))).
Proof.
  unfold upsertUser in H. apply bind_run in H as (found & w1 & Hf & H).
  apply attempt_run in Hf as (x & [= <-] & Hf).
  assert (Ht1 : tbl w1 = tbl w).
  { pose proof (query_tbl (fun t => row (head (rows (fun u => bool_decide (u_Provider u = ProviderGoogle)
      && (u_ProviderSubject u == sub)) (t_users t)))) w) as Hq.
    unfold Users_ByProviderSubject in Hf. by rewrite Hf in Hq. }
  destruct found as [u0|[]]; try done.
  { apply query_ok in Hf as [Hf _]. apply head_rows in Hf as (k & Hk & _). by rewrite Hempty in Hk. }
  apply bind_run in H as (l & w2 & Hl & H). apply or_err_run, users_listed in Hl as [Ht2 Hl].
  rewrite Ht1, Hempty in Hl. rewrite Hl in H. cbn in H.
  apply bind_run in H as (r & w3 & Hb & H). apply attempt_run in Hb as (y & [= <-] & Hb).
  destruct r as [v|[]]; try done.
  2:{ apply bootstrap_no_conflict in Hb; [done|]. by rewrite Ht2, Ht1. }
  apply bootstrap_ok in Hb as (_ & Hu & Hr & Hs & He & _).
  apply bind_run in H as (z & w4 & Hc & H). pose proof (preserves_at _ _ _ _ _ (claim_keeps _ _) Hc) as [Hu4 _].
  apply bind_run in H as (z' & w5 & Hseed & H). injection H as <- <-.
  apply seed_ok in Hseed as [Hu5 Hrules].
  split_and!; try done; [by rewrite Hu5, Hu4| |]; intros Hm; rewrite Hm in Hrules; unfold rules_of.
  - inversion Hrules as [|r0 ? l0 ? (Ho & Hty & _ & Hact) Hn]; subst. inversion Hn; subst.
    intros e. unfold EvaluateLoginRules. simpl. unfold ruleMatches. by rewrite Hty, Hact.
  - intros Ha e Hea.
    inversion Hrules as [|r0 ? l0 ? (Ho & Hty & Hv & Hact) Hn]; subst.
    inversion Hn as [|r1 ? l1 ? (Ho1 & Hty1 & _ & Hact1) Hn1]; subst. inversion Hn1; subst.
    assert (Hsort : merge_sort ord_le [r0; r1] = [r0; r1]).
    { unfold merge_sort. simpl. unfold merge_list_to_stack. simpl. rewrite decide_True; [done|].
      unfold ord_le. rewrite Ho, Ho1. done. }
    rewrite Hsort. by apply seeded.
Qed.

Definition approval_required (t : Tables) : bool :=
  match t_organization t with
  | Some org => match ParseOrg (o_Settings org) with Ok s => RequireApproval s | Err _ => false end
  | None => false
  end.

(** Whether the statement after the next [k] ones is lost in the backend. *)
Definition lost (k : nat) (w : World) : bool := bool_decide (faults w !! k = Some true).

Lemma query_spends {B} (f : Tables -> result StoreErr B) w r w' k :
  query f w = (r, w') -> lost k w' = lost (S k) w.
Proof.
  unfold query, statement, lost. destruct (faults w) as [|[] fs]; simpl; intros H.
  - destruct (f (tbl w)); by injection H as <- <-.
  - injection H as <- <-. done.
  - destruct (f (tbl w)); by injection H as <- <-.
Qed.

(** The status of a new member: the code asks the organization's settings, and
    when they cannot be read (or do not parse) it admits without approval. *)
Definition status_on_arrival (t : Tables) (unread : bool) : UserStatus :=
  if approval_required t && negb unread then UserStatusPending else UserStatusActive.

Lemma rule_gate_ok email w x w' :
  rule_gate email w = (Ok x, w') ->
  EvaluateLoginRules (rules_of (tbl w)) email = true /\ tbl w' = tbl w
  /\ forall k, lost k w' = lost (S k) w.
Proof.
  unfold rule_gate. intros H. apply bind_run in H as (b & w1 & Hb & H). apply or_err_run in Hb.
  pose proof Hb as Hq. apply checkLoginRules_ok in Hb as [-> Ht]. case_step H. injection H as <- <-.
  split_and!; try done. intros k. unfold checkLoginRules in Hq.
  apply bind_run in Hq as (r & w2 & Hr & [= _ <-]). by apply query_spends with (k := k) in Hr.
Qed.

Lemma initial_status_ok {E} w st w' :
  initialUserStatus (E := E) w = (Ok st, w') ->
  tbl w' = tbl w /\ st = status_on_arrival (tbl w) (lost 0 w).
Proof.
  unfold initialUserStatus, requireApprovalEnabled. intros H.
  apply bind_run in H as (b & w1 & Hb & H). apply bind_run in Hb as (r & w2 & Hr & [= <- <-]).
  apply attempt_run in Hr as (x & [= <-] & Hr).
  pose proof (query_tbl (fun t => row (t_organization t)) w) as Ht.
  unfold Organizations_Get in Hr. rewrite Hr in Ht. injection H as <- <-. split; [done|].
  unfold query, statement, status_on_arrival, approval_required, lost in *.
  destruct (faults w) as [|[] fs]; simpl in *; destruct (t_organization (tbl w)); injection Hr as <- _;
    simpl; rewrite ?andb_true_r, ?andb_false_r; done.
Qed.

Lemma user_created u w v w' :
  Users_Create u w = (Ok v, w') ->
  v = stamp_user u (u_ID v) (u_CreatedAt v) /\ t_users (tbl w) !! u_ID v = None
  /\ t_users (tbl w') = <[u_ID v := v]> (t_users (tbl w)).
Proof.
  unfold Users_Create. intros H. apply bind_run in H as (id & w1 & Hid & H). apply new_id_tbl in Hid.
  apply bind_run in H as (n & w2 & [= <- <-] & H). apply bind_run in H as (x & w3 & Hw & H).
  injection H as <- <-. apply write_ok in Hw. unfold insert_user in Hw. rewrite Hid in Hw.
  destruct (bool_decide _) eqn:Eb in Hw; [done|]. case_step Hw. injection Hw as Hw.
  apply bool_decide_eq_false in Eb. apply eq_None_not_Some in Eb. rewrite <- Hw. by split_and!.
Qed.

(** The row an update leaves. *)
Lemma user_updated u w x w' : Users_Update u w = (Ok x, w') ->
  t_handles (tbl w') = t_handles (tbl w)
  /\ exists v, t_users (tbl w') = <[u_ID u := v]> (t_users (tbl w)) /\ u_ID v = u_ID u
       /\ u_Provider v = u_Provider u /\ u_ProviderSubject v = u_ProviderSubject u /\ u_Email v = u_Email u
       /\ u_Name v = u_Name u /\ u_Role v = u_Role u /\ u_Status v = u_Status u.
Proof.
  unfold Users_Update. intros H. apply bind_run in H as (n & w1 & [= <- <-] & H). apply write_ok in H.
  case_all H. injection H as H. rewrite <- H. split; [done|]. by eexists.
Qed.

(** What signing in leaves of a known user [old]: the row keeps its role, status
    and identity, and takes the vouched address; nobody else's row changes. *)
Definition known_kept (old : User) (email : string) (t t' : Tables) : Prop :=
  (forall id, id <> u_ID old -> t_users t' !! id = t_users t !! id)
  /\ exists v, t_users t' !! u_ID old = Some v /\ u_ID v = u_ID old /\ u_Role v = u_Role old
     /\ u_Status v = u_Status old /\ u_Provider v = u_Provider old
     /\ u_ProviderSubject v = u_ProviderSubject old /\ u_Email v = email.

Lemma known_updated old u email w x w' :
  Users_Update u w = (Ok x, w') -> u_ID u = u_ID old -> u_Role u = u_Role old -> u_Status u = u_Status old ->
  u_Provider u = u_Provider old -> u_ProviderSubject u = u_ProviderSubject old -> u_Email u = email ->
  known_kept old email (tbl w) (tbl w').
Proof.
  intros H Hi Hr Hs Hp Hps He. apply user_updated in H as (_ & v & Hu & V1 & V2 & V3 & V4 & _ & V6 & V7).
  rewrite Hi in *. split; [intros id Hid; by rewrite Hu, lookup_insert_ne|].
  exists v. rewrite Hu, lookup_insert_eq. split_and!; congruence.
Qed.

Lemma known_untouched old email t : t_users t !! u_ID old = Some old -> u_Email old = email ->
  known_kept old email t t.
Proof. intros Ho He. split; [done|]. exists old. by split_and!. Qed.

(** A user whose subject is not found is really not there. *)
Lemma subject_absent sub w w' :
  Users_ByProviderSubject ProviderGoogle sub w = (Err ErrNotFound, w') ->
  tbl w' = tbl w /\ forall v e v', tbl v = tbl w -> Users_ByProviderSubject ProviderGoogle sub v <> (Ok e, v').
Proof.
  intros H. apply query_err in H as [Ht [|Hn]]; [done|]. split; [done|]. intros v e v' Hv He.
  apply query_ok in He as [He _]. rewrite Hv in He. congruence.
Qed.

Lemma login_new_ok fuel sub email name w u w' :
  (forall v e v', tbl v = tbl w -> Users_ByProviderSubject ProviderGoogle sub v <> (Ok e, v')) ->
  login_new fuel sub email name w = (Ok u, w') ->
  EvaluateLoginRules (rules_of (tbl w)) email = true /\ u_Email u = email /\ u_ProviderSubject u = sub
  /\ u_Role u = RoleMember /\ u_Status u = status_on_arrival (tbl w) (lost 1 w)
  /\ t_users (tbl w) !! u_ID u = None /\ t_users (tbl w') = <[u_ID u := u]> (t_users (tbl w)).
Proof.
  intros Hno H. apply bind_run in H as (x & w1 & Hg & H). apply rule_gate_ok in Hg as (Hr & Ht1 & Hf1).
  apply bind_run in H as (st & w2 & Hst & H). apply initial_status_ok in Hst as (Ht2 & Hst).
  apply bind_run in H as (r & w3 & Hc & H). apply attempt_run in Hc as (y & [= <-] & Hc).
  destruct r as [v|[]]; try done.
  - apply user_created in Hc as (Hv & Hnone & Hu).
    apply bind_run in H as (z & w4 & Hcl & H). injection H as <- <-.
    pose proof (preserves_at _ _ _ _ _ (claim_keeps _ _) Hcl) as [Hu4 _].
    rewrite Hu4, Hu, Ht2, Ht1 in *. rewrite Hv. cbn. rewrite <- Hv. split_and!; try done.
    by rewrite Hst, Hf1.
  - apply bind_run in H as (found & w4 & Hf & H). apply attempt_run in Hf as (y & [= <-] & Hf).
    destruct found as [e|]; [|done]. exfalso. revert Hf. apply Hno.
    unfold Users_Create in Hc. apply bind_fail in Hc as [Hc|(id & v & Hid & Hc)];
      [unfold new_id in Hc; by destruct (_ == _)|]. apply new_id_tbl in Hid.
    apply bind_fail in Hc as [[=]|(n & v1 & [= <- <-] & Hc)].
    apply bind_fail in Hc as [Hc|(n & v1 & _ & [=])]. apply write_err in Hc as [Hc _]. congruence.
Qed.

(** C15. Signing in once there are users: a login succeeds only if the login rules
    admit the address the provider vouches for, and only as the enabled user the
    provider's subject names, whose row keeps its role and status (the address
    and name follow the provider) while nobody else's row changes, or as a new
    plain member, whose row is the only one added. A new member is pending if the
    organization requires approval and the read of its settings, the fourth
    statement of the login, answers; the code admits as active when that read is
    lost. No login makes an administrator. *)
Theorem login_admits a fuel sub email name w u w' (Hne : t_users (tbl w) <> ∅)
    (Hkey : forall k v, t_users (tbl w) !! k = Some v -> u_ID v = k)
    (H : upsertUser a fuel sub email name w = (Ok u, w')) :
  EvaluateLoginRules (rules_of (tbl w)) email = true /\ u_Email u = email /\ u_ProviderSubject u = sub
  /\ ((exists k old, t_users (tbl w) !! k = Some old /\ u_Provider old = ProviderGoogle
         /\ u_ProviderSubject old = sub /\ u_Status old <> UserStatusDisabled
         /\ u_ID u = u_ID old /\ u_Role u = u_Role old /\ u_Status u = u_Status old
         /\ known_kept old email (tbl w) (tbl w'))
      \/ (u_Role u = RoleMember /\ t_users (tbl w) !! u_ID u = None
          /\ t_users (tbl w') = <[u_ID u := u]> (t_users (tbl w))
          /\ u_Status u = status_on_arrival (tbl w) (lost 3 w))).
Proof.
  unfold upsertUser in H. apply bind_run in H as (found & w1 & Hf & H).
  apply attempt_run in Hf as (x & [= <-] & Hf).
  pose proof (fun k => query_spends _ _ _ _ k Hf) as Hq.
  destruct found as [old|[]]; try done.
  - apply query_ok in Hf as [Hf Ht]. apply head_rows in Hf as (k & Hk & Hs). bool_facts.
    unfold login_known in H. case_step H. apply bind_run in H as (y & w2 & Hg & H).
    apply rule_gate_ok in Hg as (Hr & Ht2 & _). rewrite Ht in Hr, Ht2. bool_facts. split; [done|].
    case_step H.
    + apply bind_run in H as (z & w3 & Hup & H). injection H as <- <-. cbn. split_and!; try done.
      left. exists k, old. split_and!; try done. rewrite <- Ht2. apply or_err_run in Hup.
      by apply (known_updated _ _ _ _ _ _ Hup).
    + injection H as <- <-. bool_facts. split_and!; try done. left. exists k, old.
      split_and!; try done. rewrite Ht2. apply known_untouched; [by rewrite (Hkey _ _ Hk)|done].
  - apply subject_absent in Hf as [Ht1 Hno].
    apply bind_run in H as (l & w2 & Hl & H).
    apply or_err_run in Hl. unfold Users_List in Hl.
    pose proof (fun k => query_spends _ _ _ _ k Hl) as Hq2.
    apply users_listed in Hl as [Ht2 Hl].
    destruct (length l =? 0)%nat eqn:El.
    { exfalso. apply Nat.eqb_eq in El. rewrite El, Ht1 in Hl. apply Hne, map_size_empty_inv. congruence. }
    apply login_new_ok in H; [|intros v e v' Hv; apply Hno; congruence]. rewrite Ht2, Ht1 in H.
    destruct H as (H1 & H2 & H3 & H4 & H5 & H6 & H7). split_and!; try done. right.
    rewrite Hq2, Hq in H5. by split_and!.
Qed.

(** Nobody gets past an empty rule set. *)
Lemma rule_gate_empty email w :
  t_login_rules (tbl w) = [] -> exists e, (rule_gate email w).1 = Err e /\ tbl (rule_gate email w).2 = tbl w.
Proof.
  intros Hr. destruct (rule_gate email w) as [[x|e] w'] eqn:E.
  - apply rule_gate_ok in E as (Hl & _). unfold rules_of in Hl. by rewrite Hr in Hl.
  - exists e. split; [done|]. unfold rule_gate in E.
    apply bind_fail in E as [E|(b & w1 & Hb & E)].
    + apply or_err_inv in E as (r & E & _). unfold checkLoginRules in E.
      destruct r as [r|e']; [by apply checkLoginRules_ok in E as [_ ?]|].
      apply bind_fail in E as [E|(? & ? & _ & [=])]. by apply query_err in E as [? _].
    + apply or_err_run, checkLoginRules_ok in Hb as [_ Ht]. case_step E; by injection E as _ <-.
Qed.

(** A run that fails and changes no table. *)
Definition refused {E B} (p : result E B * World) (w : World) : Prop :=
  is_ok p.1 = false /\ tbl p.2 = tbl w.

Lemma locked_gate {B} email (k : unit -> M LoginErr B) w :
  t_login_rules (tbl w) = [] -> refused (bind (rule_gate email) k w) w.
Proof.
  intros Hr. destruct (rule_gate_empty email w Hr) as (e & He & Ht). unfold refused, bind.
  destruct (rule_gate email w) as [r w']. simpl in *. by subst r.
Qed.

Lemma refused_tbl {E B} (p : result E B * World) v w : refused p v -> tbl v = tbl w -> refused p w.
Proof. intros [? ?] ?. split; congruence. Qed.

Lemma locked_upsert a fuel sub email name w :
  t_users (tbl w) <> ∅ -> t_login_rules (tbl w) = [] -> refused (upsertUser a fuel sub email name w) w.
Proof.
  intros Hne Hr. unfold upsertUser. unfold bind at 1. unfold attempt at 1.
  pose proof (query_tbl (fun t => row (head (rows (fun u => bool_decide (u_Provider u = ProviderGoogle)
      && (u_ProviderSubject u == sub)) (t_users t)))) w) as Ht1.
  change (query _ w) with (Users_ByProviderSubject ProviderGoogle sub w) in Ht1.
  destruct (Users_ByProviderSubject ProviderGoogle sub w) as [[old|[]] w1]; cbn in Ht1; try done.
  - unfold login_known. destruct (bool_decide _); [done|].
    eapply refused_tbl; [apply locked_gate|]; congruence.
  - unfold bind at 1. destruct (or_err LoginStore Users_List w1) as [[l|e] w2] eqn:El.
    2:{ split; [done|]. apply or_err_inv in El as ([|e'] & El & _);
          [apply users_listed in El as [? _]|apply query_err in El as [? _]]; cbn; congruence. }
    apply or_err_run, users_listed in El as [Ht2 Hl].
    destruct (length l =? 0)%nat eqn:E0.
    { exfalso. apply Nat.eqb_eq in E0. rewrite E0, Ht1 in Hl. apply Hne, map_size_empty_inv. congruence. }
    unfold login_new. eapply refused_tbl; [apply locked_gate|]; congruence.
Qed.
(** ** Sessions *)

Lemma session_created id w s raw w' :
  createSession id w = (Ok (s, raw), w') ->
  exists r, raw = b64_encode r
  /\ t_sessions (t_creds (tbl w')) !! sha256Hex r = Some s /\ s_UserID s = id.
Proof.
  unfold createSession. intros H. apply bind_run in H as (r & w1 & _ & H).
  apply bind_run in H as (n & w2 & _ & H). apply bind_run in H as (d & w3 & _ & H).
  apply bind_run in H as (s' & w4 & Hs & H). injection H as -> <- <-. apply or_err_run in Hs.
  exists r. split; [done|]. unfold Sessions_Create in Hs.
  apply bind_run in Hs as (i & w5 & Hi & Hs). apply bind_run in Hs as (m & w6 & _ & Hs).
  apply bind_run in Hs as (x & w7 & Hw & Hs). injection Hs as <- <-. apply write_ok in Hw.
  unfold insert_row in Hw. case_all Hw. injection Hw as Hw. rewrite <- Hw. split; [|done].
  unfold new_id in Hi. cbn [s_ID] in Hi. rewrite sha256Hex_nonempty in Hi. injection Hi as <- _.
  apply lookup_insert_eq.
Qed.

(** An operation leaves the credentials alone. *)
Definition creds_same (t t' : Tables) : Prop := t_creds t' = t_creds t.
#[local] Instance creds_same_refl : Reflexive creds_same.
Proof. by intros t. Qed.
#[local] Instance creds_same_trans : Transitive creds_same.
Proof. intros t1 t2 t3. unfold creds_same. congruence. Qed.

Lemma duration_keeps : preserves (on_tables creds_same) sessionDuration.
Proof. unfold sessionDuration, Organizations_Get. preserve. Qed.

Lemma cookies_ok a raw d w cookies w' :
  setSessionCookies a raw d w = (Ok cookies, w') ->
  tbl w' = tbl w /\ exists maxAge,
    In (mkSetCookie (sessionCookieName a) raw true (secureCookies a) maxAge) cookies.
Proof.
  unfold setSessionCookies, randomURLToken. intros H. apply bind_run in H as (c & w1 & Hc & H).
  apply bind_run in Hc as (r & w2 & [= _ <-] & [= _ <-]). injection H as <- <-.
  split; [done|]. eexists. left. reflexivity.
Qed.

Lemma complete_ok a u target0 w cookies target w' :
  completeLogin a u target0 w = (Ok (cookies, target), w') ->
  (exists raw maxAge s,
     In (mkSetCookie (sessionCookieName a) (b64_encode raw) true (secureCookies a) maxAge) cookies
     /\ t_sessions (t_creds (tbl w')) !! sha256Hex raw = Some s /\ s_UserID s = u_ID u)
  /\ (target = "/dashboard" \/ (target = target0 /\ target0 <> "")).
Proof.
  unfold completeLogin. intros H. apply bind_run in H as (s & w1 & Hs & H). apply or_err_run in Hs.
  destruct s as [s raw]. apply session_created in Hs as (r & -> & Hrow & Hid).
  apply bind_run in H as (d & w2 & Hd & H). apply or_err_run in Hd.
  pose proof (preserves_at _ _ _ _ _ duration_keeps Hd) as Hk2.
  apply bind_run in H as (c & w3 & Hc & H). apply or_err_run, cookies_ok in Hc as [Hk3 (maxAge & Hin)].
  apply bind_run in H as (x & w4 & Ha & H). apply attempt_audit in Ha as [_ Hk4]. injection H as <- <- <-.
  split.
  - exists r, maxAge, s. unfold on_tables, creds_same in Hk2. rewrite Hk4, Hk3, Hk2. by split_and!.
  - unfold defaultReturnTo. destruct (target0 == "") eqn:E; bool_facts; auto.
Qed.

(** What the state cookie of a login carries comes back from it. *)
Ltac state_field := intros; unfold state_fields; repeat (progress (fields; cbn [dec_string]; cbn beta iota)).

Lemma state_dec s : int64 (os_IssuedAt s) ->
  dec_state (mkOAuthState "" "" "" "" 0) (state_fields s) = Some s.
Proof.
  intros Hi. unfold dec_state. cbn [os_State os_Nonce os_Verifier os_ReturnTo os_IssuedAt].
  assert (field "state" dec_string "" (state_fields s) = Some (os_State s)
    /\ field "nonce" dec_string "" (state_fields s) = Some (os_Nonce s)
    /\ field "verifier" dec_string "" (state_fields s) = Some (os_Verifier s)
    /\ field "return_to" dec_string "" (state_fields s) = Some (os_ReturnTo s)) as (-> & -> & -> & ->).
  { split_and!; state_field; [done..|]. unfold or_str.
    destruct (os_ReturnTo s == "") eqn:E; bool_facts; congruence. }
  assert (field "iat" dec_int 0 (state_fields s) = Some (os_IssuedAt s)) as ->.
  { state_field. rewrite dec_int_ok by done. cbn beta iota. state_field. done. }
  by destruct s.
Qed.

Definition state_text (s : oauthState) : bool :=
  ValidString (os_State s) && ValidString (os_Nonce s) && ValidString (os_Verifier s)
  && ValidString (os_ReturnTo s).

Lemma state_json_ok s : state_text s = true -> json_ok (JObj (state_fields s)) = true.
Proof.
  unfold state_text, state_fields, opt_str. intros H. bool_facts. cbn [json_ok]. rewrite !forallb_app.
  destruct (os_ReturnTo s == ""); cbn [forallb json_ok fst snd];
    repeat match goal with E : ValidString _ = true |- _ => rewrite E; clear E end; vm_compute; reflexivity.
Qed.

Lemma state_roundtrip a n s : state_text s = true -> int64 (os_IssuedAt s) ->
  parseState a n (signState a s)
  = if n - fromUnix (os_IssuedAt s) <=? 10 * Minute then Ok s else Err StateExpired.
Proof.
  intros Hs Hi. unfold parseState, signState.
  by rewrite (open_seal _ _ _ _ _ _ s) by (by apply state_json_ok || by apply state_dec).
Qed.

(** C16. A login starts and ends in one browser: a callback succeeds only if the
    browser presents the cookie of the login whose state the callback names. The
    cookie's payload carries the server's signature, and the login it encodes (the
    one [handleLogin] put there, if it did) has that state, began no more than ten
    minutes before, and is the one whose verifier redeems the code and whose nonce
    the identity carries; the address is one the provider has verified. The
    callback leaves a session of the resolved user under the digest of the cookie
    it sets, and redirects to a local path. *)
Theorem callback_binds_browser a fuel provider r state err code w
    cookies target w' (H : handleCallback a fuel provider r state err code w = (Ok (cookies, target), w')) :
  exists st tok u w1 w2 cookie p payload,
    request_cookie r (oauthStateCookieName a state) = Some cookie
    /\ cookie = p +:+ "." +:+ hmacHex (csrfKey a) payload /\ b64_decode p = Some payload
    /\ (exists j, json_parse payload = Some j
          /\ dec_object dec_state (mkOAuthState "" "" "" "" 0) j = Some st)
    /\ (forall st0, cookie = signState a st0 -> state_text st0 = true -> int64 (os_IssuedAt st0) -> st = st0)
    /\ os_State st = state /\ now w - fromUnix (os_IssuedAt st) <= 10 * Minute
    /\ provider code (os_Verifier st) = Ok tok
    /\ id_Nonce tok = os_Nonce st /\ id_EmailVerified tok = true
    /\ upsertUser a fuel (id_Subject tok) (id_Email tok) (id_Name tok) w1 = (Ok u, w2) /\ tbl w1 = tbl w
    /\ (exists raw maxAge s,
          In (mkSetCookie (sessionCookieName a) (b64_encode raw) true (secureCookies a) maxAge) cookies
        /\ t_sessions (t_creds (tbl w')) !! sha256Hex raw = Some s /\ s_UserID s = u_ID u)
    /\ (target = "/dashboard" \/ validLocalReturnTo target = true).
Proof.
  unfold handleCallback in H. apply bind_run in H as (n & w1 & [= <- <-] & H).
  apply bind_run in H as (st & w2 & [= Hst <-] & H). case_step H. case_step H.
  apply bind_run in H as (tok & w3 & [= Htok <-] & H). case_step H. case_step H.
  apply bind_run in H as (u & w4 & Hu & H). apply or_err_run in Hu.
  unfold consumeOAuthStateCookie in Hst.
  destruct (request_cookie r (oauthStateCookieName a state)) as [c|] eqn:Ec; [|done].
  destruct (parseState a (now w) c) as [st'|] eqn:Ep; [|done]. case_step Hst. injection Hst as ->.
  pose proof Ep as Ep'. apply open_sealed_signed in Ep as (p & payload & j & Hc & Hb & Hj & Hd & Hage).
  apply complete_ok in H as [Hsess Htarget]. bool_facts.
  exists st, tok, u, w, w4, c, p, payload. split_and!; try done.
  { by exists j. }
  { intros st0 -> Hs Hi. rewrite state_roundtrip in Ep' by done. case_match; congruence. }
  destruct Htarget as [->|[-> Hne]]; [by left|]. right. revert Hne.
  destruct (negb (os_ReturnTo st == "") && negb (validLocalReturnTo (os_ReturnTo st))) eqn:Er; [done|].
  intros Hne. bool_facts. destruct Er; bool_facts; done.
Qed.
End Login.

#[local] Transparent sha256 hmac_sha256 b64_encode hex.

(** An installation nobody has signed in to, and what the store answers next. *)
Definition fresh_world (outages : list bool) : World := mkWorld empty_tables ∅ [] 100 0 outages.

(** The first login can lock everybody out: the bootstrap, the claim of a
    public identifier and the seeding of login rules are separate transactions, so
    one outage after the first leaves an installation with a user and without
    rules, in which every later login of anybody, that first user included, fails
    and changes nothing. *)
Theorem bootstrap_can_lock_out `{U : UnicodeTables} `{J : JsonText} `{I : IdGen} :
  (forall a fuel sub email name w, t_users (tbl w) <> ∅ -> t_login_rules (tbl w) = [] ->
     is_ok (upsertUser a fuel sub email name w).1 = false
     /\ tbl (upsertUser a fuel sub email name w).2 = tbl w)
  /\ exists outages,
       let w' := (upsertUser (U := ascii_tables) (J := numeral_json) (I := unary_ids) sample_auth 4
                    "sub-1" "alice@example.com" "Alice" (fresh_world outages)).2 in
       t_users (tbl w') <> ∅ /\ t_login_rules (tbl w') = [].
Proof.
  split; [intros a fuel sub email name w; apply locked_upsert|].
  exists (repeat false 7 ++ [true]). cbv zeta.
  assert (E : let w' := (upsertUser (U := ascii_tables) (J := numeral_json) (I := unary_ids) sample_auth 4
                 "sub-1" "alice@example.com" "Alice" (fresh_world (repeat false 7 ++ [true]))).2 in
          (size (t_users (tbl w')), length (t_login_rules (tbl w'))) = (1%nat, 0%nat)) by (vm_compute; reflexivity).
  cbv zeta in E. revert E. generalize (upsertUser (U := ascii_tables) (J := numeral_json) (I := unary_ids)
    sample_auth 4 "sub-1" "alice@example.com" "Alice" (fresh_world (repeat false 7 ++ [true]))).2.
  intros w' [= Es El]. apply length_zero_iff_nil in El. split; [|exact El].
  intros Hu. by rewrite Hu in Es.
Qed.

(** ** Witnesses *)

(** The first login of an installation, and Bob's return to the open sample one. *)
Abbreviation first_login :=
  (upsertUser (U := ascii_tables) (J := numeral_json) (I := unary_ids) sample_auth 4
     "sub-1" "alice@example.com" "Alice" (fresh_world [])).
Abbreviation bob_returns :=
  (upsertUser (U := ascii_tables) (J := numeral_json) (I := unary_ids) sample_auth 4
     "sub-2" "bob@example.com" "Robert" open_world).

Lemma first_login_ok : first_login = (Ok (ok_or bob first_login.1), first_login.2).
Proof. apply ok_or_run. vm_compute. reflexivity. Qed.

Lemma bob_returns_ok : bob_returns = (Ok (ok_or alice bob_returns.1), bob_returns.2).
Proof. apply ok_or_run. vm_compute. reflexivity. Qed.

Lemma bootstrap_admits_admin_witness :
  u_Role (ok_or bob first_login.1) = RoleAdmin
  /\ EvaluateLoginRules (U := ascii_tables) (rules_of (tbl first_login.2)) "eve@example.com" = false.
Proof.
  destruct (bootstrap_admits_admin (U := ascii_tables) (J := numeral_json) (I := unary_ids) sample_auth 4
    "sub-1" "alice@example.com" "Alice" (fresh_world []) _ _ eq_refl first_login_ok)
    as (_ & Hrole & _ & _ & _ & Hrules).
  split; [exact Hrole|]. rewrite (Hrules eq_refl eq_refl "eve@example.com" eq_refl). reflexivity.
Defined.

Lemma open_users_keyed k v : t_users (tbl open_world) !! k = Some v -> u_ID v = k.
Proof.
  assert (Hu : t_users (tbl open_world) = {["U1" := alice; "U2" := bob]}) by reflexivity. rewrite Hu.
  intros [[<- <-]|[_ H]]%lookup_insert_Some; [done|]. by apply lookup_singleton_Some in H as [<- <-].
Qed.

Lemma login_admits_witness :
  EvaluateLoginRules (U := ascii_tables) (rules_of (tbl open_world)) "bob@example.com" = true
  /\ u_Email (ok_or alice bob_returns.1) = "bob@example.com".
Proof.
  destruct (login_admits (U := ascii_tables) (J := numeral_json) (I := unary_ids) sample_auth 4
    "sub-2" "bob@example.com" "Robert" open_world _ _ ltac:(discriminate) open_users_keyed bob_returns_ok)
    as (Hr & He & _).
  exact (conj Hr He).
Defined.

Lemma bootstrap_can_lock_out_witness :
  is_ok (upsertUser (U := ascii_tables) (J := numeral_json) (I := unary_ids) sample_auth 4
     "sub-2" "bob@example.com" "Bob" sample_world).1 = false.
Proof.
  destruct (bootstrap_can_lock_out (U := ascii_tables) (J := numeral_json) (I := unary_ids)) as [H _].
  exact (proj1 (H sample_auth 4%nat "sub-2" "bob@example.com" "Bob" sample_world
                  ltac:(discriminate) eq_refl)).
Defined.

Definition sample_state : oauthState := mkOAuthState "s0" "n0" "v0" "/f" 0.
Definition sample_provider (code verifier : string) : result string IDToken :=
  Ok (mkIDToken "sub-1" "n0" "alice@example.com" true "Alice").
Definition callback_request : Request :=
  mkRequest "GET" "" "" ""
    [("__Host-fbx_oauth_state-s0", signState (J := numeral_json) sample_auth sample_state)].
Abbreviation sample_callback :=
  (handleCallback (U := ascii_tables) (J := numeral_json) (I := unary_ids) sample_auth 4 sample_provider
     callback_request "s0" "" "c0" (fresh_world [])).

Lemma sample_callback_ok :
  sample_callback = (Ok (fst (ok_or ([], "") sample_callback.1), snd (ok_or ([], "") sample_callback.1)),
                     sample_callback.2).
Proof. rewrite <- surjective_pairing. apply ok_or_run. vm_compute. reflexivity. Qed.

Lemma callback_binds_browser_witness :
  snd (ok_or ([], "") sample_callback.1) = "/dashboard"
  \/ validLocalReturnTo (U := ascii_tables) (snd (ok_or ([], "") sample_callback.1)) = true.
Proof.
  destruct (callback_binds_browser (U := ascii_tables) (J := numeral_json) (I := unary_ids) sample_auth 4
    sample_provider callback_request "s0" "" "c0" (fresh_world []) _ _ _ sample_callback_ok)
    as (st & tok & u & w1 & w2 & c & p & payload & _ & _ & _ & _ & _ & _ & _ & _ & _ & _ & _ & _ & _ & Ht).
  exact Ht.
Defined.
