(* ===== verification/GitHub.v ===== *)
(** * GitHub: signing in with a GitHub account

    Models src/server/internal/auth/github.go: choosing the verified primary
    address, the fixed handle, resolving an identity to a user, and linking an
    existing account after a confirmation that travels in a signed token. GitHub is
    a parameter: what its profile and addresses are for a code. The pages are left
    out but for the values they carry. *)

From stdpp Require Import sorting.
From S2P Require Import Prelude GoNum GoURL GoHTTP Manifest Types Settings Store StoreCreds Digest Signed Glob.
From S2P Require Import UserID Tokens Sessions CLIAuth Login.

(** [githubEmailResponse] and [githubUserResponse]. *)
Record githubEmail := mkGitHubEmail { ge_Email : string; ge_Primary : bool; ge_Verified : bool }.
Record githubIdentity := mkGitHubIdentity { gh_ID : Z; gh_Login : string; gh_Emails : list githubEmail }.

Definition linkStateMaxAge : Z := 10 * Minute.

(** Only the first address marked primary counts. *)
Fixpoint selectVerifiedPrimaryEmail (emails : list githubEmail) : option string :=
  match emails with
  | [] => None
  | e :: emails =>
      if ge_Primary e then if ge_Verified e && negb (ge_Email e == "") then Some (ge_Email e) else None
      else selectVerifiedPrimaryEmail emails
  end.

Inductive GitHubErr := GLogin (e : LoginErr) | GHandleTaken.
Definition GStore (e : StoreErr) : GitHubErr := GLogin (LoginStore e).

(** [githubLoginResult]. *)
Inductive githubLoginResult := SignedIn (u : User) | NeedsConfirmation (existingUserID : string).

Record linkState := mkLinkState {
  ls_Subject : string;
  ls_Email : string;
  ls_Login : string;
  ls_NewHandle : string;
  ls_ExistingUserID : string;
  ls_ReturnTo : string;
  ls_IssuedAt : Z
}.

Section GitHub.
Context {U : UnicodeTables} {J : JsonText} {I : IdGen}.

Definition githubHandleFromLogin (login : string) : string := to_lower login.
Definition validateGitHubHandle (handle : string) : result ManifestErr unit := ValidateUserID handle.

(** ** Resolving an identity *)

(** A disabled account, then the login rules. *)
Definition github_gate (u : User) (email : string) : M GitHubErr unit :=
  if bool_decide (u_Status u = UserStatusDisabled) then throw (GLogin LoginDenied)
  else or_err GLogin (rule_gate email).

Definition with_email (u : User) (email : string) : User :=
  mkUser (u_ID u) (u_Provider u) (u_ProviderSubject u) email (u_Name u) (u_Role u) (u_Status u) (u_Language u)
    (u_CreatedAt u) (u_UpdatedAt u).

(** The subject is known: the address follows GitHub, the handle does not. *)
Definition github_known (u : User) (email : string) : M GitHubErr githubLoginResult :=
  run! github_gate u email;
  if negb (u_Email u == email) then
    run! or_err GStore (Users_Update (with_email u email));
    ret (SignedIn (with_email u email))
  else ret (SignedIn u).

(** The internal identifier of the handle's owner, [""] when nobody has it. *)
Definition handle_owner (handle : string) : M GitHubErr string :=
  do! r <- attempt (PublicUserIDs_ByUserID handle);
  match r with
  | Ok p => ret (p_InternalUserID p)
  | Err ErrNotFound => ret ""
  | Err e => throw (GStore e)
  end.

(** The address is an existing user's. *)
Definition github_link (existing : User) (email owner : string) : M GitHubErr githubLoginResult :=
  run! github_gate existing email;
  if negb (owner == "") && negb (owner == u_ID existing) then throw GHandleTaken
  else ret (NeedsConfirmation (u_ID existing)).

Definition github_user (subject email login : string) (role : Role) (st : UserStatus) : User :=
  mkUser "" ProviderGitHub subject email login role st "" 0 0.

Definition claim_handle (u : User) (handle : string) : M GitHubErr unit :=
  or_err GStore (PublicUserIDs_Create (mkPublicUserID handle (u_ID u) 0 0)).

(** A new identity, once the bootstrap is not for it. *)
Definition github_new (subject email login handle : string) : M GitHubErr githubLoginResult :=
  run! or_err GLogin (rule_gate email);
  do! st <- initialUserStatus;
  do! r <- attempt (Users_Create (github_user subject email login RoleMember st));
  match r with
  | Err ErrConflict =>
      do! found <- attempt (Users_ByProviderSubject ProviderGitHub subject);
      match found with
      | Ok existing => ret (SignedIn existing)
      | Err _ => throw (GStore ErrConflict)
      end
  | Err e => throw (GStore e)
  | Ok u =>
      run! claim_handle u handle;
      ret (SignedIn u)
  end.

(** A new identity. *)
Definition github_first (a : Auth) (subject email login handle : string) : M GitHubErr githubLoginResult :=
  do! existing <- or_err GStore Users_List;
  if (length existing =? 0)%nat then
    do! r <- attempt (Store_BootstrapFirstUser
               (github_user subject email login RoleMember UserStatusActive) "funcbox");
    match r with
    | Ok u =>
        run! claim_handle u handle;
        run! or_err GLogin (seedBootstrapLoginRule a email);
        ret (SignedIn u)
    | Err ErrConflict => github_new subject email login handle
    | Err e => throw (GStore e)
    end
  else github_new subject email login handle.

Definition resolveGitHubLogin (a : Auth) (subject email login handle : string)
    : M GitHubErr githubLoginResult :=
  do! known <- attempt (Users_ByProviderSubject ProviderGitHub subject);
  match known with
  | Ok u => github_known u email
  | Err ErrNotFound =>
      do! owner <- handle_owner handle;
      do! existing <- attempt (Users_ByEmail email);
      match existing with
      | Ok existing => github_link existing email owner
      | Err ErrNotFound =>
          if negb (owner == "") then throw GHandleTaken else github_first a subject email login handle
      | Err e => throw (GStore e)
      end
  | Err e => throw (GStore e)
  end.

(** ** The link token *)

Definition link_fields (s : linkState) : list (string * json) :=
  [("subject", JStr (ls_Subject s)); ("email", JStr (ls_Email s)); ("login", JStr (ls_Login s));
   ("new_handle", JStr (ls_NewHandle s)); ("existing_user_id", JStr (ls_ExistingUserID s))]
  ++ opt_str "return_to" (ls_ReturnTo s) ++ [("iat", JInt (ls_IssuedAt s))].

Definition dec_link (s : linkState) (kvs : list (string * json)) : option linkState :=
  match field "subject" dec_string (ls_Subject s) kvs, field "email" dec_string (ls_Email s) kvs,
        field "login" dec_string (ls_Login s) kvs, field "new_handle" dec_string (ls_NewHandle s) kvs,
        field "existing_user_id" dec_string (ls_ExistingUserID s) kvs,
        field "return_to" dec_string (ls_ReturnTo s) kvs, field "iat" dec_int (ls_IssuedAt s) kvs with
  | Some x1, Some x2, Some x3, Some x4, Some x5, Some x6, Some x7 => Some (mkLinkState x1 x2 x3 x4 x5 x6 x7)
  | _, _, _, _, _, _, _ => None
  end.

Definition signLinkState (a : Auth) (s : linkState) : string :=
  Signed.seal (csrfKey a) (json_print (JObj (link_fields s))).

Definition parseLinkState (a : Auth) (n : Time) (token : string) : result StateErr linkState :=
  open_sealed (csrfKey a) (dec_object dec_link (mkLinkState "" "" "" "" "" "" 0)) ls_IssuedAt
    linkStateMaxAge n token.

(** ** The endpoints *)

(** [handleGitHubLogin]: no nonce and no PKCE verifier. *)
Definition handleGitHubLogin {E} (a : Auth) (return_to : string) : M E (oauthState * string * string) :=
  do! state <- randomURLToken;
  do! n <- time_Now;
  let st := mkOAuthState state "" "" (sanitizeReturnTo return_to) (toUnix n) in
  ret (st, oauthStateCookieName a state, signState a st).

(** A callback signs in (the cookies and the address) or leads to the
    confirmation page. *)
Inductive GitHubAnswer := LoggedIn (cookies : list SetCookie) (target : string) | ConfirmLink (token : string).

Definition confirm_address (token : string) : string := "/auth/link/confirm?token=" +:+ QueryEscape token.

Definition github_failure (e : GitHubErr) : string :=
  match e with
  | GLogin LoginDenied => "this email address is not permitted to sign in"
  | GHandleTaken => "the funcbox handle matching this GitHub username is already in use by another account"
  | _ => "failed to complete sign-in"
  end.

Definition logged_in (x : list SetCookie * string) : GitHubAnswer := LoggedIn x.1 x.2.

Definition handleGitHubCallback (a : Auth) (github : string -> result string githubIdentity) (r : Request)
    (state error code : string) : M string GitHubAnswer :=
  do! n <- time_Now;
  do! st <- lift (consumeOAuthStateCookie a n r state);
  if negb (error == "") then throw ("identity provider returned an error: " +:+ error)
  else if code == "" then throw "missing authorization code"
  else
    do! id <- lift (github code);
    match selectVerifiedPrimaryEmail (gh_Emails id) with
    | None => throw "this GitHub account has no verified primary email address"
    | Some email =>
        let handle := githubHandleFromLogin (gh_Login id) in
        run! lift (map_err (fun _ => "this GitHub username cannot be used as a funcbox handle: ")
                     (validateGitHubHandle handle));
        let subject := itoa (gh_ID id) in
        do! x <- or_err github_failure (resolveGitHubLogin a subject email (gh_Login id) handle);
        match x with
        | NeedsConfirmation existing =>
            do! n <- time_Now;
            ret (ConfirmLink (signLinkState a
                   (mkLinkState subject email (gh_Login id) handle existing (os_ReturnTo st) (toUnix n))))
        | SignedIn u =>
            do! c <- completeLogin a u (os_ReturnTo st);
            ret (logged_in c)
        end
    end.

Definition linked_user (u : User) (s : linkState) : User :=
  mkUser (u_ID u) ProviderGitHub (ls_Subject s) (ls_Email s) (u_Name u) (u_Role u) (u_Status u) (u_Language u)
    (u_CreatedAt u) (u_UpdatedAt u).

(** Moving the handle: nothing to do, a first claim, or a rename. *)
Definition move_handle (u : User) (oldHandle newHandle : string) : M GitHubErr unit :=
  if oldHandle == newHandle then ret tt
  else if oldHandle == "" then claim_handle u newHandle
  else or_err GStore (PublicUserIDs_Rename oldHandle newHandle).

Definition provider_string (p : Provider) : string :=
  match p with ProviderGoogle => "google" | ProviderGitHub => "github" end.

Definition completeGitHubLink (s : linkState) : M GitHubErr User :=
  do! u <- or_err GStore (Users_ByID (ls_ExistingUserID s));
  run! github_gate u (ls_Email s);
  do! r <- attempt (PublicUserIDs_ByOwner (u_ID u));
  do! oldHandle <- match r with
                   | Ok p => ret (p_UserID p)
                   | Err ErrNotFound => ret ""
                   | Err e => throw (GStore e)
                   end;
  let u' := linked_user u s in
  run! or_err GStore (Users_Update u');
  run! move_handle u' oldHandle (ls_NewHandle s);
  run! attempt (Audit (u_ID u') "user.provider.link" ("user:" +:+ u_ID u')
    (Some (JObj [("new_handle", JStr (ls_NewHandle s)); ("new_provider", JStr "github");
                 ("new_subject", JStr (ls_Subject s)); ("old_handle", JStr oldHandle);
                 ("old_provider", JStr (provider_string (u_Provider u)));
                 ("old_subject", JStr (u_ProviderSubject u))])));
  ret u'.

(** The page names the address and the handle of a token that parses. *)
Definition handleLinkConfirmForm (a : Auth) (n : Time) (token : string) : result string (string * string) :=
  match parseLinkState a n token with
  | Ok s => Ok (ls_Email s, ls_NewHandle s)
  | Err _ => Err "this account link confirmation is invalid or has expired -- please sign in again"
  end.

Definition handleLinkConfirmSubmit (a : Auth) (token : string) : M string (list SetCookie * string) :=
  do! n <- time_Now;
  do! s <- lift (map_err (fun _ => "this account link confirmation is invalid or has expired -- please sign in again")
                   (parseLinkState a n token));
  do! u <- or_err (fun e => match e with
                            | GLogin LoginDenied => "this email address is not permitted to sign in"
                            | _ => "failed to complete account link"
                            end) (completeGitHubLink s);
  completeLogin a u (ls_ReturnTo s).

(** ** What the steps do *)

#[local] Opaque sha256 hmac_sha256 b64_encode hex.

Lemma github_gate_ok u email w x w' : github_gate u email w = (Ok x, w') ->
  u_Status u <> UserStatusDisabled /\ EvaluateLoginRules (rules_of (tbl w)) email = true /\ tbl w' = tbl w.
Proof.
  unfold github_gate. intros H. case_step H. apply or_err_run, rule_gate_ok in H as (Hr & Ht & _). by bool_facts.
Qed.

Lemma handle_owner_ok handle w owner w' : handle_owner handle w = (Ok owner, w') ->
  tbl w' = tbl w /\ (forall k, lost k w' = lost (S k) w)
  /\ match t_handles (tbl w) !! handle with
     | Some p => owner = p_InternalUserID p
     | None => owner = ""
     end.
Proof.
  unfold handle_owner. intros H. apply bind_run in H as (r & w1 & Hr & H).
  apply attempt_run in Hr as (x & [= <-] & Hr). unfold PublicUserIDs_ByUserID in Hr.
  pose proof (fun k => query_spends _ _ _ _ k Hr) as Hf.
  destruct r as [p|[]]; try done; injection H as <- <-; (split; [|split; [exact Hf|]]).
  - by apply query_ok in Hr as [_ ?].
  - apply query_ok in Hr as [Hr _]. apply row_ok in Hr. by rewrite Hr.
  - by apply query_err in Hr as [? _].
  - apply query_err in Hr as [_ [|Hr]]; [done|]. unfold row in Hr. by destruct (t_handles (tbl w) !! handle).
Qed.

Lemma handle_claimed u handle w x w' : claim_handle u handle w = (Ok x, w') ->
  t_handles (tbl w) !! handle = None /\ t_users (tbl w') = t_users (tbl w)
  /\ exists p, t_handles (tbl w') = <[handle := p]> (t_handles (tbl w)) /\ p_InternalUserID p = u_ID u.
Proof.
  unfold claim_handle, PublicUserIDs_Create. intros H. apply or_err_run, bind_run in H as (n & w1 & [= <- <-] & H).
  apply write_ok in H. case_step H. injection H as H. apply orb_false_iff in E as [E _].
  apply bool_decide_eq_false in E. apply eq_None_not_Some in E. rewrite <- H. cbn.
  split_and!; [done|done|]. by eexists.
Qed.

Lemma users_found (p : User -> bool) w u w' :
  query (fun t => row (head (rows p (t_users t)))) w = (Ok u, w') ->
  tbl w' = tbl w /\ exists k, t_users (tbl w) !! k = Some u /\ p u = true.
Proof.
  intros H. apply query_ok in H as [H Ht]. apply head_rows in H as (k & Hk & Hp). eauto.
Qed.

(** A search that finds nobody finds nobody in the same tables later. *)
Lemma users_absent (p : User -> bool) w w' :
  query (fun t => row (head (rows p (t_users t)))) w = (Err ErrNotFound, w') ->
  tbl w' = tbl w /\ (forall k, lost k w' = lost (S k) w)
  /\ forall k u, t_users (tbl w) !! k = Some u -> p u = false.
Proof.
  intros H. pose proof (fun k => query_spends _ _ _ _ k H) as Hf. apply query_err in H as [Ht [|Hn]]; [done|].
  split_and!; [done|done|]. intros k u Hk.
  destruct (p u) eqn:Ep; [|done]. exfalso. assert (u ∈ rows p (t_users (tbl w))) as Hin.
  { apply elem_of_rows. eauto. }
  destruct (rows p (t_users (tbl w))); [by apply not_elem_of_nil in Hin|done].
Qed.

Lemma create_conflict_keeps u w e w' : Users_Create u w = (Err e, w') -> tbl w' = tbl w.
Proof.
  unfold Users_Create. intros H. apply bind_fail in H as [H|(id & v & Hid & H)];
    [unfold new_id in H; by destruct (_ == _)|]. apply new_id_tbl in Hid.
  apply bind_fail in H as [[=]|(n & v1 & [= <- <-] & H)].
  apply bind_fail in H as [H|(n & v1 & _ & [=])]. apply write_err in H as [H _]. congruence.
Qed.

Lemma create_keeps_handles u w v w' : Users_Create u w = (Ok v, w') -> t_handles (tbl w') = t_handles (tbl w).
Proof.
  unfold Users_Create. intros H. apply bind_run in H as (id & w1 & Hid & H). apply new_id_tbl in Hid.
  apply bind_run in H as (n & w2 & [= <- <-] & H). apply bind_run in H as (x & w3 & Hw & H).
  injection H as _ <-. apply write_ok in Hw. unfold insert_user in Hw. case_step Hw. injection Hw as Hw.
  by rewrite <- Hw, <- Hid.
Qed.

(** A new member under the fixed handle. *)
Record new_member (t t' : Tables) (u : User) (email handle : string) (unread : bool) : Prop := {
  nm_role : u_Role u = RoleMember;
  nm_status : u_Status u = status_on_arrival t unread;
  nm_fresh : t_users t !! u_ID u = None /\ forall k v, t_users t !! k = Some v -> u_Email v <> email;
  nm_row : t_users t' = <[u_ID u := u]> (t_users t);
  nm_handle : t_handles t !! handle = None
    /\ exists p, t_handles t' !! handle = Some p /\ p_InternalUserID p = u_ID u
}.

Lemma github_new_ok subject email login handle w x w' :
  (forall k v, t_users (tbl w) !! k = Some v -> u_Email v <> email) ->
  (forall k v, t_users (tbl w) !! k = Some v ->
     bool_decide (u_Provider v = ProviderGitHub) && (u_ProviderSubject v == subject) = false) ->
  github_new subject email login handle w = (Ok x, w') ->
  EvaluateLoginRules (rules_of (tbl w)) email = true
  /\ exists u, x = SignedIn u /\ u_Email u = email /\ u_Provider u = ProviderGitHub /\ u_ProviderSubject u = subject
       /\ new_member (tbl w) (tbl w') u email handle (lost 1 w).
Proof.
  intros Hemail Hsub H. apply bind_run in H as (y & w1 & Hg & H). apply or_err_run, rule_gate_ok in Hg as (Hr & Ht1 & Hf1).
  apply bind_run in H as (st & w2 & Hst & H). apply initial_status_ok in Hst as (Ht2 & Hst).
  apply bind_run in H as (r & w3 & Hc & H). apply attempt_run in Hc as (z & [= <-] & Hc).
  destruct r as [v|[]]; try done.
  - pose proof (create_keeps_handles _ _ _ _ Hc) as Hh. apply user_created in Hc as (Hv & Hnone & Hu).
    apply bind_run in H as (z & w4 & Hcl & H). injection H as <- <-.
    apply handle_claimed in Hcl as (Hfree & Hu4 & p & Hp & Hpu). split; [done|]. exists v.
    rewrite Hu, Ht2, Ht1 in *. rewrite Hh in Hfree.
    assert (u_Email v = email /\ u_Provider v = ProviderGitHub /\ u_ProviderSubject v = subject
            /\ u_Role v = RoleMember /\ u_Status v = st) as (E1 & E2 & E3 & E4 & E5) by by rewrite Hv.
    split_and!; try done. split; try done; [by rewrite E5, Hst, Hf1|]. split; [done|].
    exists p. by rewrite Hp, lookup_insert_eq.
  - apply create_conflict_keeps in Hc. apply bind_run in H as (found & w4 & Hf & H).
    apply attempt_run in Hf as (z & [= <-] & Hf). destruct found as [e|]; [|done]. exfalso.
    apply users_found in Hf as [_ (k & Hk & Hp)]. rewrite Hc, Ht2, Ht1 in Hk. apply Hsub in Hk. congruence.
Qed.

Definition handles_same (t t' : Tables) : Prop := t_handles t' = t_handles t.
#[local] Instance handles_same_refl : Reflexive handles_same.
Proof. by intros t. Qed.
#[local] Instance handles_same_trans : Transitive handles_same.
Proof. intros t1 t2 t3. unfold handles_same. congruence. Qed.

Lemma update_keeps_handles u : preserves (on_tables handles_same) (Users_Update u).
Proof.
  unfold Users_Update. preserve. apply preserves_write; [exact _|]. intros t t' H. case_all H. by injection H as <-.
Qed.

Lemma github_known_ok old email w x w' : t_users (tbl w) !! u_ID old = Some old ->
  github_known old email w = (Ok x, w') ->
  u_Status old <> UserStatusDisabled /\ EvaluateLoginRules (rules_of (tbl w)) email = true
  /\ t_handles (tbl w') = t_handles (tbl w) /\ known_kept old email (tbl w) (tbl w')
  /\ exists u, x = SignedIn u /\ u_Email u = email /\ u_Provider u = u_Provider old
       /\ u_ProviderSubject u = u_ProviderSubject old /\ u_ID u = u_ID old /\ u_Role u = u_Role old
       /\ u_Status u = u_Status old.
Proof.
  unfold github_known. intros Hold H. apply bind_run in H as (y & w1 & Hg & H).
  apply github_gate_ok in Hg as (Hs & Hr & Ht). case_step H.
  - apply bind_run in H as (z & w2 & Hu & H). injection H as <- <-. apply or_err_run in Hu.
    pose proof (preserves_at _ _ _ _ _ (update_keeps_handles _) Hu) as Hh. unfold on_tables, handles_same in Hh.
    split_and!; try done; [congruence| |by eexists]. rewrite <- Ht. by apply (known_updated _ _ _ _ _ _ Hu).
  - injection H as <- <-. bool_facts. split_and!; try done; [by rewrite Ht| |by exists old].
    rewrite Ht. by apply known_untouched.
Qed.

Lemma github_link_ok existing email owner w x w' : github_link existing email owner w = (Ok x, w') ->
  x = NeedsConfirmation (u_ID existing) /\ u_Status existing <> UserStatusDisabled
  /\ EvaluateLoginRules (rules_of (tbl w)) email = true /\ tbl w' = tbl w
  /\ (owner = "" \/ owner = u_ID existing).
Proof.
  unfold github_link. intros H. apply bind_run in H as (y & w1 & Hg & H).
  apply github_gate_ok in Hg as (Hs & Hr & Ht). case_step H. injection H as <- <-.
  apply andb_false_iff in E as [E|E]; bool_facts; auto 10.
Qed.

(** C34. Signing in with GitHub once there are users (the first identity of all is
    bootstrapped as the administrator, without rules to pass): it succeeds only if
    the login rules admit the verified address. A known subject signs in as the
    enabled user it is linked to, whose row keeps its role, status and identity,
    while no other user's row and no handle changes; an unknown subject never
    signs in as a user there already is, but is told to confirm a link when the
    address is an enabled user's and the handle is free or that user's, with
    nothing changed; and a new identity becomes a plain member under the handle of
    its GitHub name, which nobody had, and is pending if approval is required and
    the read of the organization's settings, the sixth statement, answers. *)
Theorem github_admits a subject email login handle w x w' (Hne : t_users (tbl w) <> ∅)
    (Hkey : forall k v, t_users (tbl w) !! k = Some v -> u_ID v = k)
    (H : resolveGitHubLogin a subject email login handle w = (Ok x, w')) :
  EvaluateLoginRules (rules_of (tbl w)) email = true
  /\ match x with
     | SignedIn u =>
         u_Email u = email /\ u_Provider u = ProviderGitHub /\ u_ProviderSubject u = subject
         /\ ((exists k old, t_users (tbl w) !! k = Some old /\ u_Provider old = ProviderGitHub
                /\ u_ProviderSubject old = subject /\ u_Status old <> UserStatusDisabled
                /\ u_ID u = u_ID old /\ u_Role u = u_Role old /\ u_Status u = u_Status old
                /\ t_handles (tbl w') = t_handles (tbl w) /\ known_kept old email (tbl w) (tbl w'))
             \/ new_member (tbl w) (tbl w') u email handle (lost 5 w))
     | NeedsConfirmation id =>
         tbl w' = tbl w
         /\ (forall k v, t_users (tbl w) !! k = Some v ->
              ~ (u_Provider v = ProviderGitHub /\ u_ProviderSubject v = subject))
         /\ (exists k old, t_users (tbl w) !! k = Some old /\ u_ID old = id /\ u_Email old = email
              /\ u_Status old <> UserStatusDisabled)
         /\ (forall p, t_handles (tbl w) !! handle = Some p -> p_InternalUserID p <> "" -> p_InternalUserID p = id)
     end.
Proof.
  unfold resolveGitHubLogin in H. apply bind_run in H as (known & w1 & Hk & H).
  apply attempt_run in Hk as (y & [= <-] & Hk). destruct known as [old|[]]; try done.
  - apply users_found in Hk as [Ht (k & Hk & Hp)]. bool_facts.
    apply github_known_ok in H as (Hs & Hr & Hh & Hkk & u & -> & K1 & K2 & K3 & K4 & K5 & K6);
      [|by rewrite Ht, (Hkey _ _ Hk)].
    rewrite Ht in *. split; [done|]. split_and!; try congruence. left. by exists k, old.
  - apply users_absent in Hk as (Ht1 & Hf1 & Hno). apply bind_run in H as (owner & w2 & Ho & H).
    apply handle_owner_ok in Ho as (Ht2 & Hf2 & Ho). apply bind_run in H as (existing & w3 & He & H).
    apply attempt_run in He as (y & [= <-] & He). rewrite Ht1 in *. destruct existing as [v|[]]; try done.
    + apply users_found in He as [Ht3 (k & Hk & Hp)]. bool_facts.
      apply github_link_ok in H as (-> & Hs & Hr & Ht4 & Hown). rewrite Ht4, Ht3, Ht2 in *. split; [done|].
      split_and!; [done| |by exists k, v|].
      * intros k' v' Hk' [Hp1 Hp2]. apply Hno in Hk'. rewrite bool_decide_eq_true_2, Hp2, String.eqb_refl in Hk' by done.
        discriminate.
      * intros q Hq Hne'. rewrite Hq in Ho. subst owner. destruct Hown; congruence.
    + apply users_absent in He as (Ht3 & Hf3 & Hnone). case_step H.
      unfold github_first in H. apply bind_run in H as (l & w4 & Hl & H).
      apply or_err_run in Hl. unfold Users_List in Hl. pose proof (fun k => query_spends _ _ _ _ k Hl) as Hf4. apply users_listed in Hl as [Ht4 Hl]. rewrite Ht3, Ht2 in *.
      destruct (length l =? 0)%nat eqn:El.
      { exfalso. apply Nat.eqb_eq in El. rewrite El in Hl. by apply Hne, map_size_empty_inv. }
      apply github_new_ok in H; rewrite ?Ht4.
      * rewrite Ht4 in H. destruct H as (Hr & u & -> & H1 & H2 & H3 & [K1 K2 K3 K4 K5]). split; [done|].
        split_and!; try done. right. split; try done. by rewrite K2, Hf4, Hf3, Hf2, Hf1.
      * intros k v Hk. apply Hnone in Hk. by bool_facts.
      * intros k v Hk. by apply Hno in Hk.
Qed.

(** ** Linking *)

(** Signing in touches neither the users nor the handles. *)
Definition accounts_same (t t' : Tables) : Prop := t_users t' = t_users t /\ t_handles t' = t_handles t.
#[local] Instance accounts_same_refl : Reflexive accounts_same.
Proof. by intros t. Qed.
#[local] Instance accounts_same_trans : Transitive accounts_same.
Proof. intros t1 t2 t3 [? ?] [? ?]. split; congruence. Qed.

Lemma audit_keeps_accounts x : preserves (on_tables accounts_same) (Audit_Append x).
Proof.
  unfold Audit_Append. preserve. apply preserves_write; [exact _|]. intros t t' H. case_step H. by injection H as <-.
Qed.

Lemma complete_keeps a u target : preserves (on_tables accounts_same) (completeLogin a u target).
Proof.
  unfold completeLogin, createSession, sessionDuration, setSessionCookies, Sessions_Create, Organizations_Get, Audit, randomURLToken.
  preserve; try apply audit_keeps_accounts. apply preserves_write; [exact _|]. intros t t' H.
  unfold insert_row in H. case_all H. by injection H as <-.
Qed.

Lemma handle_renamed old new w x w' : PublicUserIDs_Rename old new w = (Ok x, w') ->
  t_users (tbl w') = t_users (tbl w)
  /\ exists p q, t_handles (tbl w) !! old = Some p /\ p_InternalUserID q = p_InternalUserID p
       /\ (new <> old -> t_handles (tbl w) !! new = None)
       /\ t_handles (tbl w') = <[new := q]> (delete old (t_handles (tbl w))).
Proof.
  unfold PublicUserIDs_Rename. intros H. apply bind_run in H as (n & w1 & [= <- <-] & H). apply write_ok in H.
  destruct (t_handles (tbl w) !! old) as [p|] eqn:Ep; [|done]. case_step H. injection H as H. rewrite <- H.
  split; [done|]. exists p. eexists. split_and!; [done| | |reflexivity]; [done|]. intros Hne.
  apply andb_false_iff in E as [E|E]; bool_facts; [done|]. by apply eq_None_not_Some.
Qed.

(** The account's handles become the new one alone. *)
Definition only_handle (t : Tables) (id handle : string) : Prop :=
  (exists p, t_handles t !! handle = Some p /\ p_InternalUserID p = id)
  /\ forall k p, t_handles t !! k = Some p -> p_InternalUserID p = id -> k = handle.

Lemma handle_moved u old new w x w' :
  (if old == "" then forall k p, t_handles (tbl w) !! k = Some p -> p_InternalUserID p <> u_ID u
   else only_handle (tbl w) (u_ID u) old) ->
  move_handle u old new w = (Ok x, w') ->
  t_users (tbl w') = t_users (tbl w) /\ (new <> "" -> only_handle (tbl w') (u_ID u) new).
Proof.
  unfold move_handle. intros Hold H. destruct (old == new) eqn:E; bool_facts.
  { injection H as _ <-. split; [done|]. intros Hne. subst old. by destruct (new == "") eqn:En; bool_facts. }
  destruct (old == "") eqn:Eo; bool_facts.
  - apply handle_claimed in H as (_ & Hu & p & Hp & Hpu). split; [done|]. intros _. unfold only_handle. rewrite Hp. split.
    + exists p. by rewrite lookup_insert_eq.
    + intros k q Hq Hown. apply lookup_insert_Some in Hq as [[? _]|[_ Hq]]; [done|]. by destruct (Hold k q Hq).
  - apply or_err_run, handle_renamed in H as (Hu & p & q & Hp & Hq & _ & Hh). split; [done|]. intros _.
    destruct Hold as [(p1 & Hp1 & Hown) Honly]. unfold only_handle. rewrite Hh. split.
    + exists q. rewrite lookup_insert_eq. split; [done|congruence].
    + intros k r Hr Hk. apply lookup_insert_Some in Hr as [[? _]|[_ Hr]]; [done|].
      apply lookup_delete_Some in Hr as [Hne Hr]. by destruct Hne; rewrite (Honly k r Hr Hk).
Qed.

(** The table of handles: rows under their own names, which are not empty, and one
    per owner. *)
Record one_handle (t : Tables) : Prop := {
  oh_key k p : t_handles t !! k = Some p -> p_UserID p = k /\ k <> "";
  oh_owner k1 k2 p1 p2 : t_handles t !! k1 = Some p1 -> t_handles t !! k2 = Some p2 ->
    p_InternalUserID p1 = p_InternalUserID p2 -> k1 = k2
}.

(** The account's handle, if it has one. *)
Lemma handle_of_owner u w r w' :
  one_handle (tbl w) ->
  PublicUserIDs_ByOwner (u_ID u) w = (r, w') ->
  tbl w' = tbl w
  /\ match r with
     | Ok p => p_UserID p <> "" /\ only_handle (tbl w) (u_ID u) (p_UserID p)
     | Err ErrNotFound => forall k p, t_handles (tbl w) !! k = Some p -> p_InternalUserID p <> u_ID u
     | Err _ => True
     end.
Proof.
  intros Hone H. unfold PublicUserIDs_ByOwner in H. destruct r as [p|e].
  - apply query_ok in H as [H Ht]. split; [done|]. apply head_rows in H as (k & Hk & Hp). bool_facts.
    destruct (oh_key _ Hone _ _ Hk) as [-> Hne]. split; [done|]. split; [by exists p|].
    intros k2 p2 H2 Ho. apply (oh_owner _ Hone _ _ _ _ H2 Hk). congruence.
  - apply query_err in H as [Ht H]. split; [done|]. destruct e; try done. destruct H as [|H]; [done|]. intros k p Hk Ho.
    assert (p ∈ rows (fun p => p_InternalUserID p == u_ID u) (t_handles (tbl w))) as Hin.
    { apply elem_of_rows. split; [by apply String.eqb_eq|by exists k]. }
    destruct (rows _ (t_handles (tbl w))); [by apply not_elem_of_nil in Hin|done].
Qed.

Lemma link_completed s w u w' :
  one_handle (tbl w) ->
  completeGitHubLink s w = (Ok u, w') ->
  exists old v, t_users (tbl w) !! ls_ExistingUserID s = Some old /\ u = linked_user old s
    /\ u_Status old <> UserStatusDisabled /\ EvaluateLoginRules (rules_of (tbl w)) (ls_Email s) = true
    /\ t_users (tbl w') = <[u_ID u := v]> (t_users (tbl w)) /\ u_ID v = u_ID u
    /\ u_Provider v = u_Provider u /\ u_ProviderSubject v = u_ProviderSubject u /\ u_Email v = u_Email u
    /\ u_Name v = u_Name u /\ u_Role v = u_Role u /\ u_Status v = u_Status u
    /\ (ls_NewHandle s <> "" -> only_handle (tbl w') (u_ID u) (ls_NewHandle s)).
Proof.
  intros Hone H. unfold completeGitHubLink in H.
  apply bind_run in H as (old & w1 & Hu & H). apply or_err_run in Hu. unfold Users_ByID in Hu.
  apply query_ok in Hu as [Hu Ht1]. apply row_ok in Hu.
  apply bind_run in H as (x & w2 & Hg & H). apply github_gate_ok in Hg as (Hs & Hr & Ht2). rewrite Ht1 in *.
  apply bind_run in H as (r & w3 & Ho & H). apply attempt_run in Ho as (y & [= <-] & Ho).
  apply handle_of_owner in Ho as [Ht3 Ho]; [|by rewrite Ht2]. rewrite Ht2 in *.
  apply bind_run in H as (oldHandle & w4 & Hold & H).
  apply bind_run in H as (z & w5 & Hw & H). apply or_err_run, user_updated in Hw as (Hh & v & Hv).
  apply bind_run in H as (z' & w6 & Hm & H).
  apply bind_run in H as (z'' & w7 & Ha & H). injection H as <- <-.
  assert (accounts_same (tbl w6) (tbl w7)) as [Hau Hah].
  { refine (preserves_at (on_tables accounts_same) _ _ _ _ _ Ha). apply preserves_attempt, audit_keeps_accounts. }
  assert (tbl w4 = tbl w /\ if oldHandle == "" then forall k p, t_handles (tbl w) !! k = Some p -> p_InternalUserID p <> u_ID old
          else only_handle (tbl w) (u_ID old) oldHandle) as [Ht4 Hhold].
  { destruct r as [p|[]]; inversion Hold; subst; (split; [congruence|]); [|exact Ho].
    destruct Ho as [Hne Ho]. by destruct (p_UserID p == "") eqn:En; bool_facts. }
  apply handle_moved in Hm as [Hmu Hmh]; [|unfold only_handle in *; rewrite Hh, Ht4; exact Hhold].
  destruct Hv as (Hv & Hrest). exists old, v. rewrite Hau, Hmu, Hv, Ht4. split_and!; try apply Hrest; try done.
  unfold only_handle in *. by rewrite Hah.
Qed.

(** A link is confirmed only with a token the server sealed at most ten minutes
    before, for an account that is there, enabled and admitted under the new
    address. The account is then the GitHub identity of the token and keeps its
    name, role and status; its one handle is the one the page showed, the former
    handle is gone, nobody else's row changes, and the session started is that
    account's. *)
Theorem link_confirmed a token w cookies target w' (Hkeys : map_Forall (fun k u => u_ID u = k) (t_users (tbl w)))
    (Hone : one_handle (tbl w)) (H : handleLinkConfirmSubmit a token w = (Ok (cookies, target), w')) :
  exists s old v,
    (exists p payload, token = p +:+ "." +:+ hmacHex (csrfKey a) payload /\ b64_decode p = Some payload)
    /\ parseLinkState a (now w) token = Ok s
    /\ handleLinkConfirmForm a (now w) token = Ok (ls_Email s, ls_NewHandle s)
    /\ now w - fromUnix (ls_IssuedAt s) <= 10 * Minute
    /\ t_users (tbl w) !! ls_ExistingUserID s = Some old /\ u_Status old <> UserStatusDisabled
    /\ EvaluateLoginRules (rules_of (tbl w)) (ls_Email s) = true
    /\ t_users (tbl w') = <[ls_ExistingUserID s := v]> (t_users (tbl w))
    /\ (u_Provider v, u_ProviderSubject v, u_Email v) = (ProviderGitHub, ls_Subject s, ls_Email s)
    /\ (u_Name v, u_Role v, u_Status v) = (u_Name old, u_Role old, u_Status old)
    /\ (ls_NewHandle s <> "" -> only_handle (tbl w') (ls_ExistingUserID s) (ls_NewHandle s))
    /\ (exists raw maxAge se,
          In (mkSetCookie (sessionCookieName a) (b64_encode raw) true (secureCookies a) maxAge) cookies
          /\ t_sessions (t_creds (tbl w')) !! sha256Hex raw = Some se /\ s_UserID se = ls_ExistingUserID s).
Proof.
  unfold handleLinkConfirmSubmit in H. apply bind_run in H as (n & w1 & [= <- <-] & H).
  apply bind_run in H as (s & w2 & Hp & H). unfold lift in Hp. injection Hp as Hp <-.
  destruct (parseLinkState a (now w) token) as [s'|] eqn:Ep; [|done]. injection Hp as ->.
  apply bind_run in H as (u & w3 & Hu & H). apply or_err_run in Hu.
  apply link_completed in Hu as (old & v & Hold & Hlu & Hs & Hr & Hw & Hv & Hrest); [|done].
  pose proof (preserves_at _ _ _ _ _ (complete_keeps _ _ _) H) as [Hau Hah].
  apply complete_ok in H as [Hsess _]. pose proof (Hkeys _ _ Hold) as Hid. cbn in Hid.
  assert (u_ID u = ls_ExistingUserID s) as Hidu by by rewrite Hlu. rewrite Hidu in *. clear Hidu. subst u.
  destruct Hrest as (E1 & E2 & E3 & E4 & E5 & E6 & Hh). unfold handleLinkConfirmForm. rewrite Ep.
  unfold parseLinkState in Ep. apply open_sealed_signed in Ep as (p & payload & j & Hc & Hb & _ & _ & Hage).
  exists s, old, v. rewrite Hau, Hw, E1, E2, E3, E4, E5, E6. unfold only_handle. rewrite Hah. split_and!; try done. eauto.
Qed.
End GitHub.

#[local] Transparent sha256 hmac_sha256 b64_encode hex.

(** ** Witnesses *)

Definition octo_emails : list githubEmail :=
  [mkGitHubEmail "octo@example.org" false true; mkGitHubEmail "alice@example.com" true true].
Definition octo (code : string) : result string githubIdentity := Ok (mkGitHubIdentity 583231 "Octo" octo_emails).

(** Alice, known through Google, signs in with the GitHub account Octo. *)
Abbreviation octo_asks :=
  (resolveGitHubLogin (U := ascii_tables) (J := numeral_json) (I := unary_ids) sample_auth
     "583231" "alice@example.com" "Octo" "octo" open_world).
Definition octo_link : linkState := mkLinkState "583231" "alice@example.com" "Octo" "octo" "U1" "" 0.
Definition octo_token : string := signLinkState (J := numeral_json) sample_auth octo_link.
Abbreviation octo_confirms :=
  (handleLinkConfirmSubmit (U := ascii_tables) (J := numeral_json) (I := unary_ids) sample_auth octo_token).

Lemma octo_asks_ok : octo_asks = (Ok (NeedsConfirmation "U1"), octo_asks.2).
Proof. vm_compute. reflexivity. Qed.

Lemma github_admits_witness :
  tbl octo_asks.2 = tbl open_world
  /\ EvaluateLoginRules (U := ascii_tables) (rules_of (tbl open_world)) "alice@example.com" = true.
Proof.
  destruct (github_admits (U := ascii_tables) (J := numeral_json) (I := unary_ids) sample_auth
    "583231" "alice@example.com" "Octo" "octo" open_world _ _ ltac:(discriminate) open_users_keyed octo_asks_ok) as (Hr & Ht & _).
  exact (conj Ht Hr).
Defined.

Lemma open_world_keyed : map_Forall (fun k u => u_ID u = k) (t_users (tbl open_world)).
Proof. apply (bool_decide_unpack _). vm_compute. exact I. Qed.

Lemma open_world_handles : one_handle (tbl open_world).
Proof.
  split; cbn.
  - intros k p H. repeat (apply lookup_insert_Some in H as [[<- <-]|[_ H]]; [done|]).
    by apply lookup_singleton_Some in H as [<- <-].
  - intros k1 k2 p1 p2 H1 H2 Ho.
    apply lookup_insert_Some in H1 as [[<- <-]|[_ H1]]; [|apply lookup_singleton_Some in H1 as [<- <-]];
      (apply lookup_insert_Some in H2 as [[<- <-]|[_ H2]]; [|apply lookup_singleton_Some in H2 as [<- <-]]); done.
Qed.

Lemma octo_confirms_ok :
  octo_confirms open_world
  = (Ok (fst (ok_or ([], "") (octo_confirms open_world).1), snd (ok_or ([], "") (octo_confirms open_world).1)),
     (octo_confirms open_world).2).
Proof. rewrite <- surjective_pairing. apply ok_or_run. vm_compute. reflexivity. Qed.

Lemma octo_parses : parseLinkState (J := numeral_json) sample_auth (now open_world) octo_token = Ok octo_link.
Proof. vm_compute. reflexivity. Qed.

Lemma link_confirmed_witness :
  only_handle (tbl (octo_confirms open_world).2) "U1" "octo"
  /\ exists v, t_users (tbl (octo_confirms open_world).2) = <["U1" := v]> (t_users (tbl open_world))
       /\ u_Role v = RoleAdmin.
Proof.
  destruct (link_confirmed (U := ascii_tables) (J := numeral_json) (I := unary_ids) sample_auth octo_token open_world
    _ _ _ open_world_keyed open_world_handles octo_confirms_ok)
    as (s & old & v & _ & Hs & _ & _ & Hold & _ & _ & Hw & _ & Hv & Hh & _).
  rewrite octo_parses in Hs. injection Hs as <-. change (Some alice = Some old) in Hold. injection Hold as <-.
  injection Hv as _ Hv _. split; [exact (Hh ltac:(discriminate))|exact (ex_intro _ v (conj Hw Hv))].
Defined.

(** Between the page and the confirmation Bob takes the handle. The confirmation
    fails, and yet Alice's account is GitHub's from then on, under her old handle:
    the next sign-in with GitHub goes through and asks nothing. *)
Example link_half_applied :
  let w := (PublicUserIDs_Rename "bob" "octo" open_world).2 in
  let w1 := (octo_confirms w).2 in
  is_ok (octo_confirms w).1 = false
  /\ option_map u_Provider (t_users (tbl w1) !! "U1") = Some ProviderGitHub
  /\ option_map p_InternalUserID (t_handles (tbl w1) !! "alice") = Some "U1"
  /\ match (resolveGitHubLogin (U := ascii_tables) (J := numeral_json) (I := unary_ids) sample_auth
             "583231" "alice@example.com" "Octo" "octo" w1).1 with
     | Ok (SignedIn u) => u_ID u = "U1"
     | _ => False
     end.
Proof. vm_compute. auto. Qed.
