(* ===== verification/Crypto.v ===== *)
(** * Crypto: keys from one secret, and sealed variables

    Models src/server/internal/crypto/crypto.go: the HKDF-SHA256 derivation of the
    keys of the server from its session secret, and the sealing of function variables.
    AES-GCM itself is a parameter, with what its documentation promises. [Cipher_gcm]
    discharges the interface against which the function service is proved. *)

From S2P Require Import Prelude Digest Service.

(** ** HKDF with SHA-256 *)

(** [hkdf.New] without a salt: the pseudorandom key. *)
Definition hkdf_extract (secret : string) : string := hmac_sha256 (of_bytes (repeat 0 32)) secret.

(** Reading [blocks] blocks of the output, after the block [prev] with number [i]. *)
Fixpoint hkdf_blocks (blocks : nat) (prk info prev : string) (i : Z) : string :=
  match blocks with
  | O => ""
  | S blocks =>
      let t := hmac_sha256 prk (prev +:+ info +:+ of_bytes [i]) in
      t +:+ hkdf_blocks blocks prk info t (i + 1)
  end.

(** [io.ReadFull] of [n] bytes: at most 255 blocks can be read. *)
Definition hkdf_read (secret info : string) (n : Z) : option string :=
  if 255 * 32 <? n then None
  else Some (str_take (Z.to_nat n) (hkdf_blocks (Z.to_nat ((n + 31) / 32)) (hkdf_extract secret) info "" 1)).

(** The third vector of RFC 5869. *)
Example hkdf_vector : option_map hex (hkdf_read (of_bytes (repeat 0x0b 22)) "" 42)
  = Some "8da4e775a563c18f715f802a063c5a31b8a11f5c5ee1879ec3454e5f3c738d2d9d201395faa4b61a96c8".
Proof. by vm_compute. Qed.

(** ** crypto.go *)

Definition KeySize : Z := 32.

Inductive CryptoErr := EmptySecret | DeriveFailed | BadKeySize (n : Z) | NoRandom | ErrCiphertextTooShort | OpenFailed.

Definition DeriveKey (secret info : string) : result CryptoErr string :=
  if secret == "" then Err EmptySecret
  else match hkdf_read secret info KeySize with
       | Some key => Ok key
       | None => Err DeriveFailed
       end.

(** AES-GCM, for a key of a size AES has: [Open] undoes [Seal] under the same key and
    nonce, and what [Seal] appends does not depend on what is there before. *)
Class Gcm := {
  gcm_seal : string -> string -> string -> string;
  gcm_open : string -> string -> string -> option string;
  gcm_open_seal key nonce plain : str_len nonce = 12 -> gcm_open key nonce (gcm_seal key nonce plain) = Some plain
}.
Definition NonceSize : Z := 12.

Section Crypto.
Context {G : Gcm}.

(** [newGCM]: [aes.NewCipher] takes keys of three sizes. *)
Definition newGCM (key : string) : result CryptoErr string :=
  let n := str_len key in
  if (n =? 16) || (n =? 24) || (n =? 32) then Ok key else Err (BadKeySize n).

(** [random] is what the source of random bytes has. *)
Definition Encrypt (random key plaintext : string) : result CryptoErr string :=
  let! gcm := newGCM key in
  if str_len random <? NonceSize then Err NoRandom
  else
    let nonce := str_take (Z.to_nat NonceSize) random in
    Ok (nonce +:+ gcm_seal gcm nonce plaintext).

Definition Decrypt (key data : string) : result CryptoErr string :=
  let! gcm := newGCM key in
  if str_len data <? NonceSize then Err ErrCiphertextTooShort
  else
    let nonce := str_take (Z.to_nat NonceSize) data in
    let ciphertext := str_drop (Z.to_nat NonceSize) data in
    match gcm_open gcm nonce ciphertext with
    | Some plaintext => Ok plaintext
    | None => Err OpenFailed
    end.

Lemma hmac_length key msg : String.length (hmac_sha256 key msg) = 32%nat.
Proof. apply sha256_length. Qed.

#[local] Opaque hmac_sha256.

Lemma derive_key_size secret info key : DeriveKey secret info = Ok key -> str_len key = KeySize.
Proof.
  unfold DeriveKey. destruct (secret == ""); [done|]. unfold hkdf_read, KeySize. change (255 * 32 <? 32) with false.
  change (Z.to_nat ((32 + 31) / 32)) with 1%nat. cbn [hkdf_blocks]. set (t := hmac_sha256 _ _). intros H.
  assert (key = str_take (Z.to_nat 32) (t +:+ "")) as -> by congruence. unfold str_len.
  rewrite str_length_take, str_app_nil_r. unfold t. by rewrite hmac_length.
Qed.

Lemma derive_key_total secret info : secret <> "" -> is_ok (DeriveKey secret info) = true.
Proof. intros H. unfold DeriveKey. by apply String.eqb_neq in H as ->. Qed.

Lemma decrypt_encrypt random key plain c : Encrypt random key plain = Ok c -> Decrypt key c = Ok plain.
Proof.
  unfold Encrypt, Decrypt. intros H. apply rbind_ok in H as (gcm & Hg & H). rewrite Hg. cbn [rbind].
  destruct (str_len random <? NonceSize) eqn:El; [done|]. apply Z.ltb_ge in El. set (nonce := str_take (Z.to_nat NonceSize) random) in H.
  assert (c = nonce +:+ gcm_seal gcm nonce plain) as -> by congruence. clear H.
  assert (String.length nonce = 12%nat) as Hn.
  { unfold nonce. rewrite str_length_take. unfold str_len, NonceSize in *. lia. }
  assert (str_len (nonce +:+ gcm_seal gcm nonce plain) <? NonceSize = false) as ->.
  { apply Z.ltb_ge. unfold str_len, NonceSize. rewrite str_length_app, Hn. lia. }
  change (Z.to_nat NonceSize) with 12%nat. rewrite <- Hn. rewrite str_take_app, str_drop_app, gcm_open_seal; [done|].
  unfold str_len. by rewrite Hn.
Qed.

(** Any key of the server seals any variable, and data that is too short is refused
    before it is opened. *)
Lemma derived_key_seals secret info random plain : secret <> "" -> NonceSize <= str_len random ->
  exists key c, DeriveKey secret info = Ok key /\ Encrypt random key plain = Ok c /\ Decrypt key c = Ok plain
    /\ forall data, str_len data < NonceSize -> Decrypt key data = Err ErrCiphertextTooShort.
Proof.
  intros Hs Hr. pose proof (derive_key_total secret info Hs) as Hk. destruct (DeriveKey secret info) as [key|] eqn:Ek; [|done].
  apply derive_key_size in Ek. assert (newGCM key = Ok key) as Hg by (unfold newGCM; rewrite Ek; done).
  assert (exists c, Encrypt random key plain = Ok c) as [c Hc].
  { unfold Encrypt. rewrite Hg. cbn [rbind]. apply Z.ltb_ge in Hr as ->. eauto. }
  exists key, c. split_and!; [done|done|by eapply decrypt_encrypt|]. intros data Hd. unfold Decrypt. rewrite Hg. cbn [rbind].
  by apply Z.ltb_lt in Hd as ->.
Qed.

(** The interface of the function service. *)
#[export] Instance Cipher_gcm : Cipher.
Proof.
  refine {| seal := fun key nonce plain => match Encrypt nonce key plain with Ok c => Some c | Err _ => None end;
            unseal := fun key c => match Decrypt key c with Ok p => Some p | Err _ => None end |}.
  intros key nonce plain c. destruct (Encrypt nonce key plain) as [x|] eqn:E; [|done]. intros [= <-].
  by rewrite (decrypt_encrypt _ _ _ _ E).
Defined.
End Crypto.

#[local] Transparent hmac_sha256.

(** The keys of the server differ in what they are for. *)
Example keys_differ :
  let key info := DeriveKey "secret" info in
  NoDup [key "funcbox:csrf"; key "funcbox:invoke-cookie"; key "funcbox:env-vars"] /\ DeriveKey "" "funcbox:csrf" = Err EmptySecret.
Proof.
  vm_compute. split; [|done]. repeat (apply NoDup_cons; split; [rewrite ?elem_of_cons, elem_of_nil; naive_solver|]). constructor.
Qed.
