(* ===== verification/DevIdP.v ===== *)
(** * DevIdP: how authentication is set up, and the development identity provider

    Models src/server/internal/auth/config.go ([New] and the guard of the development
    mode) and src/server/internal/auth/devidp.go: the authorization codes of the stub
    provider and the claims of the tokens it signs. The signature is a parameter. *)

From S2P Require Import Prelude GoNet GoURL GoNum Digest Settings Tokens Service Crypto.

(** ** config.go *)

Inductive Mode := ModeGoogle | ModeGitHub | ModeDev | ModeUnset | ModeOther (s : string).

Definition googleIssuerURL : string := "https://accounts.google.com".
Definition defaultGitHubAuthorizeURL : string := "https://github.com/login/oauth/authorize".
Definition defaultGitHubTokenURL : string := "https://github.com/login/oauth/access_token".
Definition defaultGitHubAPIBaseURL : string := "https://api.github.com".
Definition devDefaultClientID : string := "funcbox-dev-client".
Definition devDefaultClientSecret : string := "funcbox-dev-secret".
Definition devOIDCPrefix : string := "/dev/oidc".

Record AuthConfig := mkAuthConfig {
  ac_Mode : Mode;
  ac_BaseURL : string;
  ac_ControlOrigin : string;
  ac_FunctionDomain : string;
  ac_ListenAddr : string;
  ac_ClientID : string;
  ac_ClientSecret : string;
  ac_GitHubClientID : string;
  ac_GitHubClientSecret : string;
  ac_githubAuthorizeURL : string;
  ac_githubTokenURL : string;
  ac_githubAPIBaseURL : string;
  ac_SessionSecret : string;
  ac_OpenMode : bool
}.

Definition isLoopbackAddr (addr : string) : bool :=
  let host := match SplitHostPort addr with Ok (host, _) => host | Err _ => addr end in
  if host == "" then false
  else if host == "localhost" then true
  else match ParseIP host with Some ip => IsLoopback ip | None => false end.

Inductive NewErr :=
| NoBaseURL | NoSessionSecret | NoClient (m : Mode) | NotLoopback (addr : string) | UnknownMode (m : Mode) | KeyErr (e : CryptoErr).

(** The choice of [New]: the configuration with its defaults. *)
Definition or_else (s default : string) : string := if s == "" then default else s.
Definition with_mode (m : Mode) (origin : string) (c : AuthConfig) : AuthConfig :=
  mkAuthConfig m (ac_BaseURL c) origin (ac_FunctionDomain c) (ac_ListenAddr c) (ac_ClientID c) (ac_ClientSecret c)
    (ac_GitHubClientID c) (ac_GitHubClientSecret c) (ac_githubAuthorizeURL c) (ac_githubTokenURL c) (ac_githubAPIBaseURL c)
    (ac_SessionSecret c) (ac_OpenMode c).
Definition with_github (c : AuthConfig) : AuthConfig :=
  mkAuthConfig (ac_Mode c) (ac_BaseURL c) (ac_ControlOrigin c) (ac_FunctionDomain c) (ac_ListenAddr c) (ac_ClientID c) (ac_ClientSecret c)
    (ac_GitHubClientID c) (ac_GitHubClientSecret c) (or_else (ac_githubAuthorizeURL c) defaultGitHubAuthorizeURL)
    (or_else (ac_githubTokenURL c) defaultGitHubTokenURL) (or_else (ac_githubAPIBaseURL c) defaultGitHubAPIBaseURL)
    (ac_SessionSecret c) (ac_OpenMode c).
Definition with_dev_client (c : AuthConfig) : AuthConfig :=
  mkAuthConfig (ac_Mode c) (ac_BaseURL c) (ac_ControlOrigin c) (ac_FunctionDomain c) (ac_ListenAddr c)
    (or_else (ac_ClientID c) devDefaultClientID) (or_else (ac_ClientSecret c) devDefaultClientSecret)
    (ac_GitHubClientID c) (ac_GitHubClientSecret c) (ac_githubAuthorizeURL c) (ac_githubTokenURL c) (ac_githubAPIBaseURL c)
    (ac_SessionSecret c) (ac_OpenMode c).

Definition configure (c : AuthConfig) : result NewErr AuthConfig :=
  let mode := match ac_Mode c with ModeUnset => ModeGoogle | m => m end in
  if ac_BaseURL c == "" then Err NoBaseURL
  else if ac_SessionSecret c == "" then Err NoSessionSecret
  else
    let c := with_mode mode (or_else (ac_ControlOrigin c) (trim_suffix (ac_BaseURL c) "/")) c in
    match mode with
    | ModeGoogle => if (ac_ClientID c == "") || (ac_ClientSecret c == "") then Err (NoClient mode) else Ok c
    | ModeGitHub => if (ac_GitHubClientID c == "") || (ac_GitHubClientSecret c == "") then Err (NoClient mode) else Ok (with_github c)
    | ModeDev => if negb (isLoopbackAddr (ac_ListenAddr c)) then Err (NotLoopback (ac_ListenAddr c)) else Ok (with_dev_client c)
    | ModeUnset | ModeOther _ => Err (UnknownMode mode)
    end.

(** ** devidp.go: the codes *)

Definition devIDTokenTTL : Z := 10 * Minute.
Definition devAuthCodeTTL : Z := 5 * Minute.

Record devAuthCode := mkDevCode {
  dc_email : string;
  dc_clientID : string;
  dc_redirectURI : string;
  dc_nonce : string;
  dc_expiresAt : Z
}.
Record devIdP := mkDevIdP { di_issuer : string; di_kid : string; di_codes : gmap string devAuthCode }.
Definition newDevIdP (issuer kid : string) : devIdP := mkDevIdP issuer kid ∅.

(** [New]: what it builds, with the provider of the development mode. *)
Definition New {U : UnicodeTables} (kid : string) (c : AuthConfig) : result NewErr (AuthConfig * Auth * string * option devIdP) :=
  let! c := configure c in
  let key info := map_err KeyErr (DeriveKey (ac_SessionSecret c) info) in
  let! csrf := key "funcbox:csrf" in
  let! invoke := key "funcbox:invoke-cookie" in
  let! access := key "funcbox:access-token" in
  let '(host, port) := match url_Parse (ac_ControlOrigin c) with
                       | Some u => (to_lower (url_Hostname u), if url_Port u == "" then "" else ":" +:+ url_Port u)
                       | None => ("", "")
                       end in
  let a := mkAuth access invoke csrf (ac_BaseURL c) (ac_ControlOrigin c) (ac_FunctionDomain c) (ac_ClientID c) host port (ac_OpenMode c) in
  let issuer := trim_suffix (ac_BaseURL c) "/" +:+ devOIDCPrefix in
  Ok (c, a, match ac_Mode c with ModeDev => issuer | ModeGoogle => googleIssuerURL | _ => "" end,
      match ac_Mode c with ModeDev => Some (newDevIdP issuer kid) | _ => None end).

(** A form: [None] when it does not parse. *)
Definition Form : Type := option (string -> string).

Inductive DevAnswer :=
| DevError (status : Z) (why : string)
| DevRedirect (to : URL) (code state : string)
| DevToken (claims : list (string * json)).

Definition bad (why : string) : DevAnswer := DevError 400 why.

(** [handleAuthorizeSubmit]: the code is put down before the address is parsed. *)
Definition handleAuthorizeSubmit {U : UnicodeTables} (d : devIdP) (now : Z) (random : string) (form : Form) : devIdP * DevAnswer :=
  match form with
  | None => (d, bad "dev oidc: invalid form")
  | Some f =>
      let email := trim_space (f "email") in
      if (email == "") || (f "redirect_uri" == "") then (d, bad "dev oidc: email and redirect_uri are required")
      else
        let code := b64_encode random in
        let entry := mkDevCode email (f "client_id") (f "redirect_uri") (f "nonce") (now + devAuthCodeTTL) in
        let d := mkDevIdP (di_issuer d) (di_kid d) (<[code := entry]> (di_codes d)) in
        match url_Parse (f "redirect_uri") with
        | None => (d, bad "dev oidc: invalid redirect_uri")
        | Some u => (d, DevRedirect u code (f "state"))
        end
  end.

(** [signIDToken]: the claims, in the order [encoding/json] writes the keys of a map. *)
Definition dev_subject (email : string) : string := str_take 32 (sha256Hex ("dev-subject:" +:+ email)).
Definition dev_claims (d : devIdP) (now : Z) (email aud nonce : string) : list (string * json) :=
  [("aud", JStr aud); ("email", JStr email); ("email_verified", JBool true); ("exp", JInt ((now + devIDTokenTTL) / Second));
   ("iat", JInt (now / Second)); ("iss", JStr (di_issuer d)); ("name", JStr email)]
  ++ (if nonce == "" then [] else [("nonce", JStr nonce)]) ++ [("sub", JStr (dev_subject email))].

Definition handleToken (d : devIdP) (now : Z) (form : Form) : devIdP * DevAnswer :=
  match form with
  | None => (d, bad "dev oidc: invalid form")
  | Some f =>
      if negb (f "grant_type" == "authorization_code") then (d, bad "dev oidc: unsupported grant_type")
      else
        match di_codes d !! f "code" with
        | None => (d, bad "dev oidc: unknown or expired code")
        | Some entry =>
            let d := mkDevIdP (di_issuer d) (di_kid d) (delete (f "code") (di_codes d)) in
            if dc_expiresAt entry <? now then (d, bad "dev oidc: unknown or expired code")
            else if negb (dc_redirectURI entry == f "redirect_uri") then (d, bad "dev oidc: redirect_uri mismatch")
            else
              let clientID := or_else (f "client_id") (dc_clientID entry) in
              (d, DevToken (dev_claims d now (dc_email entry) clientID (dc_nonce entry)))
        end
  end.

(** ** The guard of the development mode *)

Lemma loopback_addr addr : isLoopbackAddr addr = true ->
  exists host, host = match SplitHostPort addr with Ok (host, _) => host | Err _ => addr end /\ host <> ""
    /\ (host = "localhost" \/ exists ip, ParseIP host = Some ip /\ IsLoopback ip = true).
Proof.
  unfold isLoopbackAddr. set (host := match SplitHostPort addr with Ok _ => _ | Err _ => _ end).
  destruct (host == "") eqn:E0; [done|]. apply String.eqb_neq in E0. intros H. exists host. split_and!; [done|done|].
  destruct (host == "localhost") eqn:E1; [left; by apply String.eqb_eq|]. right. destruct (ParseIP host) as [ip|]; [by exists ip|done].
Qed.

(** A server that listens on all interfaces never gets the provider that signs anyone
    in; every other mode has its client, and the keys are whole. *)
Lemma new_guard {U : UnicodeTables} kid c c' a issuer dev : New kid c = Ok (c', a, issuer, dev) ->
  (is_Some dev <-> ac_Mode c = ModeDev)
  /\ (ac_Mode c = ModeDev -> isLoopbackAddr (ac_ListenAddr c) = true /\ dev = Some (newDevIdP issuer kid))
  /\ (ac_Mode c' = ModeGoogle -> ac_ClientID c <> "" /\ ac_ClientSecret c <> "")
  /\ str_len (csrfKey a) = 32 /\ str_len (invokeKey a) = 32 /\ str_len (accessKey a) = 32 /\ ac_SessionSecret c <> "".
Proof.
  unfold New. intros H. apply rbind_ok in H as (c1 & Hc & H). apply rbind_ok in H as (k1 & H1 & H).
  apply rbind_ok in H as (k2 & H2 & H). apply rbind_ok in H as (k3 & H3 & H).
  assert (forall info k, map_err KeyErr (DeriveKey (ac_SessionSecret c1) info) = Ok k -> str_len k = 32) as Hlen.
  { intros info k Hk. destruct (DeriveKey _ info) eqn:E; [|done]. injection Hk as <-. by apply derive_key_size in E. }
  apply Hlen in H1, H2, H3. destruct (match url_Parse _ with Some _ => _ | None => _ end) as [h p]. injection H as <- <- <- <-.
  unfold configure in Hc. destruct (ac_BaseURL c == ""); [done|]. destruct (ac_SessionSecret c == "") eqn:Es; [done|].
  apply String.eqb_neq in Es. cbn [csrfKey invokeKey accessKey]. destruct (ac_Mode c) eqn:Em; simpl in Hc.
  all: try (destruct (_ || _) eqn:Eo in Hc; [done|]; apply orb_false_iff in Eo as [E1%String.eqb_neq E2%String.eqb_neq]).
  all: try (destruct (isLoopbackAddr (ac_ListenAddr c)) eqn:El; [|done]). all: try done.
  all: injection Hc as <-; simpl; split_and!; try done; try (by split; [intros [? ?]|]).
Qed.

(** ** The codes are spent once *)

Record dev_log := mkDevLog {
  dl_idp : devIdP;
  dl_issued : list (string * devAuthCode);
  dl_redeemed : list (string * (Z * (string -> string) * list (string * json)))
}.

Definition submit_log {U : UnicodeTables} (l : dev_log) (now : Z) (random : string) (form : Form) : dev_log :=
  let d := (handleAuthorizeSubmit (dl_idp l) now random form).1 in
  mkDevLog d (match di_codes d !! b64_encode random with Some e => (b64_encode random, e) :: dl_issued l | None => dl_issued l end)
    (dl_redeemed l).
Definition token_log (l : dev_log) (now : Z) (form : Form) : dev_log :=
  let '(d, a) := handleToken (dl_idp l) now form in
  mkDevLog d (dl_issued l) (match form, a with
                            | Some f, DevToken claims => (f "code", (now, f, claims)) :: dl_redeemed l
                            | _, _ => dl_redeemed l
                            end).

(** Codes are random: a new one is none that was given out. *)
Inductive dev_run {U : UnicodeTables} : dev_log -> Prop :=
| DevStart issuer kid : dev_run (mkDevLog (newDevIdP issuer kid) [] [])
| DevSubmit l now random form : dev_run l -> b64_encode random ∉ map fst (dl_issued l) -> dev_run (submit_log l now random form)
| DevRedeem l now form : dev_run l -> dev_run (token_log l now form).

Record dev_inv (l : dev_log) : Prop := {
  dv_open : forall c e, di_codes (dl_idp l) !! c = Some e -> (c, e) ∈ dl_issued l /\ c ∉ map fst (dl_redeemed l);
  dv_known : forall c x, (c, x) ∈ dl_redeemed l -> c ∈ map fst (dl_issued l);
  dv_once : NoDup (map fst (dl_redeemed l));
  dv_good : forall c now f claims, (c, (now, f, claims)) ∈ dl_redeemed l ->
              exists e, (c, e) ∈ dl_issued l /\ now <= dc_expiresAt e /\ f "redirect_uri" = dc_redirectURI e
                /\ In ("email", JStr (dc_email e)) claims /\ (dc_nonce e <> "" -> In ("nonce", JStr (dc_nonce e)) claims)
}.

Lemma submit_inv {U : UnicodeTables} l now random form : dev_inv l -> b64_encode random ∉ map fst (dl_issued l) ->
  dev_inv (submit_log l now random form).
Proof.
  intros [Ho Hk H1 Hg] Hnew. set (code := b64_encode random) in *.
  assert (di_codes (dl_idp l) !! code = None) as Hnone.
  { destruct (di_codes (dl_idp l) !! code) as [e|] eqn:E; [|done]. exfalso. apply Hnew, list_elem_of_fmap. exists (code, e).
    split; [done|]. by apply (Ho code e). }
  assert (exists entry, submit_log l now random form
      = mkDevLog (mkDevIdP (di_issuer (dl_idp l)) (di_kid (dl_idp l)) (<[code := entry]> (di_codes (dl_idp l))))
          ((code, entry) :: dl_issued l) (dl_redeemed l)
    \/ submit_log l now random form = l) as [entry [-> | ->]]; [| |by split].
  { exists (match form with
            | Some f => mkDevCode (trim_space (f "email")) (f "client_id") (f "redirect_uri") (f "nonce") (now + devAuthCodeTTL)
            | None => mkDevCode "" "" "" "" 0
            end).
    unfold submit_log, handleAuthorizeSubmit. fold code. destruct form as [f|]; simpl; [|rewrite Hnone; right; by destruct l].
    destruct (_ || _); simpl; [rewrite Hnone; right; by destruct l|]. left.
    destruct (url_Parse _); simpl; by rewrite lookup_insert_eq. }
  split; simpl.
  - intros c e. rewrite lookup_insert. case_decide as E.
    + subst c. intros [= <-]. split; [by left|]. intros ((c & x) & E & Hin)%list_elem_of_fmap. simpl in E. subst c. by apply Hk in Hin.
    + intros Hc. destruct (Ho c e Hc). split; [by right|done].
  - intros c x Hin. right. by eapply Hk.
  - done.
  - intros c t f claims Hin. destruct (Hg c t f claims Hin) as (e & He & H). exists e. split; [by right|done].
Qed.

Lemma claims_email d now email aud nonce : In ("email", JStr email) (dev_claims d now email aud nonce)
  /\ (nonce <> "" -> In ("nonce", JStr nonce) (dev_claims d now email aud nonce)).
Proof.
  split; [right; by left|]. intros H. unfold dev_claims. apply in_or_app. right. apply in_or_app. left.
  apply String.eqb_neq in H as ->. by left.
Qed.

Lemma token_inv l now form : dev_inv l -> dev_inv (token_log l now form).
Proof.
  intros Hl. assert (token_log l now None = l) as Hn by (by destruct l). destruct form as [f|]; [|by rewrite Hn].
  unfold token_log, handleToken. destruct (negb (f "grant_type" == _)); [by destruct l|].
  destruct (di_codes (dl_idp l) !! f "code") as [e|] eqn:Ee; [|by destruct l]. destruct Hl as [Ho Hk H1 Hg].
  destruct (Ho _ _ Ee) as [Hin Hnew].
  assert (forall c x, delete (f "code") (di_codes (dl_idp l)) !! c = Some x -> f "code" <> c /\ (c, x) ∈ dl_issued l /\ c ∉ map fst (dl_redeemed l)) as Hdel.
  { intros c x [Hne Hx]%lookup_delete_Some. destruct (Ho c x Hx). done. }
  destruct (dc_expiresAt e <? now) eqn:Et; [split; simpl; try done; intros; by apply Hdel|].
  destruct (negb (dc_redirectURI e == f "redirect_uri")) eqn:Er; [split; simpl; try done; intros; by apply Hdel|].
  apply Z.ltb_ge in Et. apply negb_false_iff, String.eqb_eq in Er. split; simpl.
  - intros c x Hx. destruct (Hdel c x Hx) as (Hne & H2 & H3). split; [done|]. intros [E|H4]%elem_of_cons; [congruence|done].
  - intros c x [[= -> _]|Hx]%elem_of_cons; [|by eapply Hk]. apply list_elem_of_fmap. by exists (f "code", e).
  - by apply NoDup_cons.
  - intros c t g claims [E|Hx]%elem_of_cons; [|by apply Hg]. assert (c = f "code" /\ t = now /\ g = f
      /\ claims = dev_claims (mkDevIdP (di_issuer (dl_idp l)) (di_kid (dl_idp l)) (delete (f "code") (di_codes (dl_idp l)))) now (dc_email e)
           (or_else (f "client_id") (dc_clientID e)) (dc_nonce e)) as (-> & -> & -> & ->) by (by split_and!; congruence).
    exists e. split_and!; [done|done|done|apply claims_email|apply claims_email].
Qed.

(** The codes of the development provider. Under any sequence of sign-ins and token
    requests, with codes that are not guessed: a code is exchanged at most once; only
    before it expires, with the address it was given out for; and the token carries the
    address that was typed and the nonce of the sign-in it belongs to. *)
Theorem dev_code_spent_once {U : UnicodeTables} l (H : dev_run l) :
  NoDup (map fst (dl_redeemed l))
  /\ forall c now f claims, (c, (now, f, claims)) ∈ dl_redeemed l ->
       exists e, (c, e) ∈ dl_issued l /\ now <= dc_expiresAt e /\ f "redirect_uri" = dc_redirectURI e
         /\ In ("email", JStr (dc_email e)) claims /\ (dc_nonce e <> "" -> In ("nonce", JStr (dc_nonce e)) claims).
Proof.
  assert (dev_inv l) as Hl.
  { induction H as [issuer kid|l now random form _ IH Hnew|l now form _ IH]; [|by apply submit_inv|by apply token_inv].
    split; simpl; try (by intros; set_unfold); constructor. }
  split; [apply (dv_once l Hl)|apply (dv_good l Hl)].
Qed.

(** ** Witness *)

Definition sample_form (k : string) : string :=
  if k == "email" then " dev@example.com " else if k == "redirect_uri" then "http://localhost:8080/auth/callback"
  else if k == "nonce" then "n0" else if k == "client_id" then "funcbox-dev-client"
  else if k == "grant_type" then "authorization_code" else if k == "code" then b64_encode "random" else "".

Lemma dev_code_spent_once_witness :
  let l := token_log (submit_log (U := ascii_tables) (mkDevLog (newDevIdP "http://localhost:8080/dev/oidc" "dev-1") [] []) 0 "random"
             (Some sample_form)) Minute (Some sample_form) in
  map fst (dl_redeemed l) = [b64_encode "random"] /\ NoDup (map fst (dl_redeemed l)).
Proof.
  split; [by vm_compute|]. refine (proj1 (dev_code_spent_once (U := ascii_tables) _ _)). apply DevRedeem, DevSubmit; [apply DevStart|].
  apply not_elem_of_nil.
Defined.

Example code_is_spent :
  let l := token_log (submit_log (U := ascii_tables) (mkDevLog (newDevIdP "http://localhost:8080/dev/oidc" "dev-1") [] []) 0 "random"
             (Some sample_form)) Minute (Some sample_form) in
  match (handleToken (dl_idp l) Minute (Some sample_form)).2 with DevError 400 _ => True | _ => False end.
Proof. by vm_compute. Qed.

Example loopback_addresses :
  isLoopbackAddr "127.0.0.1:8080" = true /\ isLoopbackAddr "[::1]:8080" = true /\ isLoopbackAddr "localhost:8080" = true
  /\ isLoopbackAddr ":8080" = false /\ isLoopbackAddr "0.0.0.0:8080" = false /\ isLoopbackAddr "" = false.
Proof. by vm_compute. Qed.
