(* ===== verification/InvokeSSO.v ===== *)
(** * InvokeSSO: who invokes a function, and the browser sign-on of function hosts

    Models src/server/internal/auth/invokesso.go and idtoken.go: the signed
    cookie a function host accepts, the one-time code that hands a session over
    to that host, and the resolution of an invocation's caller from a bearer
    credential or a cookie. The verifier of provider ID tokens is a parameter. *)

From S2P Require Import Prelude GoNum GoURL GoHTTP Types Settings Store StoreCreds Digest.
From S2P Require Import Signed Tokens Sessions.

Definition invokeCallbackPath : string := "/.funcbox/auth/callback".
Definition invokeCodeLifetime : Z := 60 * Second.
Definition invokeCookieLifetime : Z := 8 * Hour.

Record invokeCookieClaims := mkInvokeClaims {
  ik_UserID : string;
  ik_FunctionID : string;
  ik_Host : string;
  ik_ExpiresAt : Z
}.

Definition invokeCookieName (a : Auth) : string :=
  if secureCookies a then "__Host-fbx_invoke" else "fbx_invoke_insecure".

(** A provider's ID token once its signature, issuer and expiry are verified. *)
Record VerifiedToken := mkVerified {
  vt_Audience : list string;
  vt_Subject : string;
  vt_Email : string;
  vt_EmailVerified : bool
}.

(** What a handler of this file answers: a redirect, an error page with its
    message, or the plain 404 page. *)
Inductive Answer :=
| Redirect (status : Z) (url : string)
| Problem (status : Z) (message : string)
| NotFoundPage.

Section InvokeSSO.
Context {U : UnicodeTables} {J : JsonText} {I : IdGen}.

(** ** Hosts *)

Definition bad_host_byte (c : ascii) : bool :=
  contains_byte "\/@ " c || (c =? "009")%char || (c =? "013")%char || (c =? "010")%char.

Definition normalizedHost (hostport : string) : option string :=
  if (hostport == "") || str_existsb bad_host_byte hostport then None
  else
    let finish h := let h := to_lower (trim_suffix h ".") in if h == "" then None else Some h in
    let portless := if contains_byte hostport ":" then None else finish hostport in
    match url_Parse ("//" +:+ hostport) with
    | Some u => if negb (url_Port u == "") then finish (url_Hostname u) else portless
    | None => portless
    end.

Definition managedFunctionHost (a : Auth) (name : string) : string :=
  to_lower (name +:+ "." +:+ trim_suffix (FunctionDomain a) ".").

Definition SameOriginInvokeHost (a : Auth) (host : string) : bool :=
  if FunctionDomain a == "" then true
  else match normalizedHost host with Some h => h == controlHost a | None => false end.

(** session.go's [LoginURL]. *)
Definition LoginURL (returnTo : string) : string :=
  if returnTo == "" then "/auth/login" else "/auth/login?return_to=" +:+ QueryEscape returnTo.

Definition InvokeLoginURL (a : Auth) (f : Function) (host returnTo : string) : string :=
  trim_suffix (ControlOrigin a) "/" +:+ "/auth/invoke?"
  +:+ encode_values [("function", f_Name f); ("host", host); ("return_to", returnTo)].

(** ** The invoke cookie *)

Definition invoke_fields (c : invokeCookieClaims) : list (string * json) :=
  [("UserID", JStr (ik_UserID c)); ("FunctionID", JStr (ik_FunctionID c));
   ("Host", JStr (ik_Host c)); ("ExpiresAt", JInt (ik_ExpiresAt c))].

Definition dec_invoke (c : invokeCookieClaims) (kvs : list (string * json))
    : option invokeCookieClaims :=
  match field "UserID" dec_string (ik_UserID c) kvs, field "FunctionID" dec_string (ik_FunctionID c) kvs,
        field "Host" dec_string (ik_Host c) kvs, field "ExpiresAt" dec_int (ik_ExpiresAt c) kvs with
  | Some u, Some f, Some h, Some e => Some (mkInvokeClaims u f h e)
  | _, _, _, _ => None
  end.

Definition signInvokeCookie (a : Auth) (c : invokeCookieClaims) : string :=
  let p := b64_encode (json_print (JObj (invoke_fields c))) in
  p +:+ "." +:+ b64_encode (token_mac (invokeKey a) p).

(** [n] is the current time. *)
Definition parseInvokeCookie (a : Auth) (n : Time) (raw functionID host : string)
    : result AuthErr invokeCookieClaims :=
  let '(p, sig, ok) := cut_byte raw "." in
  guard! ok else ErrUnauthenticated in
  match b64_decode sig with
  | None => Err ErrUnauthenticated
  | Some got =>
      guard! got == token_mac (invokeKey a) p else ErrUnauthenticated in
      match b64_decode p with
      | None => Err ErrUnauthenticated
      | Some b =>
          match json_parse b with
          | None => Err ErrUnauthenticated
          | Some j =>
              match dec_object dec_invoke (mkInvokeClaims "" "" "" 0) j with
              | None => Err ErrUnauthenticated
              | Some c =>
                  guard! (ik_FunctionID c == functionID) && (ik_Host c == host)
                         && (toUnix n <? ik_ExpiresAt c) else ErrUnauthenticated in
                  Ok c
              end
          end
      end
  end.

Definition ResolveInvokeCookie (a : Auth) (r : Request) (functionID host : string) : M AuthErr User :=
  match request_cookie r (invokeCookieName a) with
  | None => throw ErrUnauthenticated
  | Some c =>
      match normalizedHost host with
      | None => throw ErrUnauthenticated
      | Some host =>
          do! n <- time_Now;
          do! claims <- lift (parseInvokeCookie a n c functionID host);
          do! u <- or_err (fun _ => ErrUnauthenticated) (Users_ByID (ik_UserID claims));
          validateActiveUser u
      end
  end.

(** ** The hand-over of a session to a function host *)

(** [hashInvokeValue]. *)
Definition hashInvokeValue (raw : string) : string := sha256Hex raw.

(** [handleInvokeStart]: the query parameters are arguments; [requestURI] is the
    address asked for, query included. *)
Definition handleInvokeStart {E} (a : Auth) (r : Request) (function host0 return_to requestURI : string)
    : M E Answer :=
  do! s <- attempt (AuthenticateSessionCookie a r);
  match s with
  | Err _ => ret (Redirect 302 (LoginURL requestURI))
  | Ok actor =>
      do! f <- attempt (Functions_ByName function);
      match f with
      | Err _ => ret NotFoundPage
      | Ok fn =>
          let local := validLocalReturnTo return_to && negb (has_prefix return_to "/.funcbox/") in
          let h := normalizedHost host0 in
          if (FunctionDomain a == "") || bool_decide (h = Some (controlHost a)) then
            ret (Redirect 303 (if local then return_to else "/dashboard"))
          else
            match h with
            | Some host =>
                if negb (host == managedFunctionHost a (f_Name fn))
                then ret (Problem 400 "invalid function host")
                else if negb local then ret (Problem 400 "invalid return path")
                else
                  do! raw <- randomURLToken;
                  do! n <- time_Now;
                  do! c <- attempt (InvokeAuthCodes_Create
                             (mkInvokeAuthCode (hashInvokeValue raw) (u_ID (ac_User actor)) (f_ID fn) host
                                return_to (n + invokeCodeLifetime) 0));
                  match c with
                  | Err _ => ret (Problem 500 "authentication is not available")
                  | Ok _ =>
                      let scheme := if has_prefix (BaseURL a) "http://" then "http" else "https" in
                      ret (Redirect 303 (scheme +:+ "://" +:+ host +:+ controlPort a
                             +:+ invokeCallbackPath +:+ "?code=" +:+ QueryEscape raw))
                  end
            | None => ret (Problem 400 "invalid function host")
            end
      end
  end.

(** [HandleInvokeCallback]: the answer and the cookie set with it. *)
Definition HandleInvokeCallback {E} (a : Auth) (method : string) (fn : Function) (host0 code : string)
    : M E (Answer * list SetCookie) :=
  if negb (method == "GET") then ret (Problem 405 "", [])
  else
    match normalizedHost host0 with
    | None => ret (NotFoundPage, [])
    | Some host =>
        if code == "" then ret (Problem 400 "invalid authentication code", [])
        else
          do! n <- time_Now;
          do! k <- attempt (InvokeAuthCodes_Consume (hashInvokeValue code) (f_ID fn) host n);
          match k with
          | Err ErrNotFound => ret (Problem 400 "invalid or expired authentication code", [])
          | Err _ => ret (Problem 500 "authentication is not available", [])
          | Ok k =>
              do! n <- time_Now;
              let claims := mkInvokeClaims (ic_UserID k) (f_ID fn) host
                              (toUnix (n + invokeCookieLifetime)) in
              ret (Redirect 303 (if validLocalReturnTo (ic_ReturnTo k) then ic_ReturnTo k else "/"),
                   [mkSetCookie (invokeCookieName a) (signInvokeCookie a claims) true (secureCookies a)
                      (Z.quot invokeCookieLifetime Second)])
          end
    end.

(** ** idtoken.go *)

Section IDTokens.
(** The provider's verifier: [None] for a token it refuses. *)
Variable verify : string -> option VerifiedToken.

Definition VerifyIDToken (a : Auth) (rawIDToken : string) (extraAudiences : list string)
    : result unit VerifiedToken :=
  match verify rawIDToken with
  | None => Err tt
  | Some t =>
      let allowed := ClientID a :: extraAudiences in
      guard! existsb (fun aud => existsb (String.eqb aud) allowed) (vt_Audience t) else tt in
      guard! vt_EmailVerified t else tt in
      Ok t
  end.

Definition ExtraInvokeAudiences {E} : M E (list string) :=
  do! o <- attempt Organizations_Get;
  ret (match o with
       | Err _ => []
       | Ok o => match ParseOrg (o_Settings o) with Ok s => ExtraIDTokenAudiences s | Err _ => [] end
       end).

Definition ResolveInvokeCaller (a : Auth) (r : Request) (extraAudiences : list string)
    (functionID host : string) : M AuthErr User :=
  if negb (r_Authorization r == "") then
    let raw := trim_prefix (r_Authorization r) "Bearer " in
    if negb (has_prefix (r_Authorization r) "Bearer ") || (raw == "") then throw ErrUnauthenticated
    else if has_prefix raw AccessTokenPrefix then
      do! n <- time_Now;
      do! c <- or_err (fun _ => ErrUnauthenticated) (lift (verifyAccessToken a n raw));
      if negb (Aud c == "") then throw ErrUnauthenticated
      else loadActiveUserByEmail (Email c)
    else
      match VerifyIDToken a raw extraAudiences with
      | Err _ => throw ErrUnauthenticated
      | Ok c => loadActiveUserByEmail (vt_Email c)
      end
  else if negb (r_Method r == "GET") && negb (r_Method r == "HEAD") then throw ErrUnauthenticated
  else if SameOriginInvokeHost a host then resolveInvokeSessionCookie a r
  else ResolveInvokeCookie a r functionID host.
End IDTokens.

(** ** The cookie opens where it was issued for, until it expires *)

#[local] Opaque sha256 hmac_sha256 b64_encode hex.

Definition invoke_text (c : invokeCookieClaims) : bool :=
  ValidString (ik_UserID c) && ValidString (ik_FunctionID c) && ValidString (ik_Host c).

Lemma invoke_values c : int64 (ik_ExpiresAt c) ->
  field "UserID" dec_string "" (invoke_fields c) = Some (ik_UserID c)
  /\ field "FunctionID" dec_string "" (invoke_fields c) = Some (ik_FunctionID c)
  /\ field "Host" dec_string "" (invoke_fields c) = Some (ik_Host c)
  /\ field "ExpiresAt" dec_int 0 (invoke_fields c) = Some (ik_ExpiresAt c).
Proof.
  intros H. unfold invoke_fields. split_and!; fields; cbn [dec_string]; fields; try done.
  rewrite dec_int_ok by done. cbn beta iota. by fields.
Qed.

Lemma invoke_decodes c : int64 (ik_ExpiresAt c) ->
  dec_object dec_invoke (mkInvokeClaims "" "" "" 0) (JObj (invoke_fields c)) = Some c.
Proof.
  intros H. cbn [dec_object]. unfold dec_invoke. cbn [ik_UserID ik_FunctionID ik_Host ik_ExpiresAt].
  destruct (invoke_values c H) as (-> & -> & -> & ->). by destruct c.
Qed.

Lemma invoke_json_ok c : invoke_text c = true -> json_ok (JObj (invoke_fields c)) = true.
Proof.
  unfold invoke_text, invoke_fields. intros H. apply andb_true_iff in H as [H H3].
  apply andb_true_iff in H as [H1 H2].
  cbn [json_ok forallb fst snd]. rewrite H1, H2, H3. reflexivity.
Qed.

(** The cookie of a function host. Whatever opens for a function and a host is
    signed with the server's key over claims that name that very function and
    host and have not expired; and the cookie the server issues opens for exactly
    its function and host, until exactly the second it expires in. *)
Theorem invoke_cookie_bound a n raw fid host c :
  (parseInvokeCookie a n raw fid host = Ok c ->
     ik_FunctionID c = fid /\ ik_Host c = host /\ toUnix n < ik_ExpiresAt c
     /\ exists p sig, raw = p +:+ "." +:+ sig /\ b64_decode sig = Some (token_mac (invokeKey a) p))
  /\ (invoke_text c = true -> int64 (ik_ExpiresAt c) ->
      (parseInvokeCookie a n (signInvokeCookie a c) fid host = Ok c
       <-> fid = ik_FunctionID c /\ host = ik_Host c /\ toUnix n < ik_ExpiresAt c)).
Proof.
  split.
  - unfold parseInvokeCookie. destruct (cut_byte raw ".") as [[p sig] ok] eqn:Ec. intros H.
    case_step H. subst ok. destruct (b64_decode sig) as [got|] eqn:Ed; [|done]. case_step H. bool_facts.
    case_step H. case_step H. case_step H. case_step H. injection H as ->. bool_facts.
    split_and!; try done; try lia. exists p, sig. apply cut_byte_found in Ec as [Ec _]. split; [exact Ec|congruence].
  - intros Ht He. unfold parseInvokeCookie, signInvokeCookie.
    set (p := b64_encode (json_print (JObj (invoke_fields c)))).
    change ("." +:+ b64_encode (token_mac (invokeKey a) p))
      with (String "." (b64_encode (token_mac (invokeKey a) p))).
    rewrite (cut_byte_app p "." _ (b64_no_dot _)). cbn iota. rewrite b64_decode_encode, String.eqb_refl.
    unfold p. rewrite b64_decode_encode, json_parse_print by by apply invoke_json_ok.
    rewrite invoke_decodes by done. split.
    + intros H. case_step H. bool_facts. split_and!; try done; lia.
    + intros (-> & -> & Hn). rewrite !String.eqb_refl. simpl. by rewrite (proj2 (Z.ltb_lt _ _) Hn).
Qed.

(** ** The hand-over, end to end *)

Lemma escape_plain s : str_forallb url_safe s = true -> QueryEscape s = s.
Proof.
  induction s as [|c s IH]; [done|]. cbn [str_forallb QueryEscape]. intros H.
  apply andb_true_iff in H as [Hc Hs].
  assert (Hp : is_alnum c || contains_byte "-_.~" c = true).
  { unfold url_safe in Hc. apply orb_true_iff in Hc as [Hc|Hc]; [|by apply Ascii.eqb_eq in Hc as ->].
    apply orb_true_iff in Hc as [Hc|Hc]; [by rewrite Hc|by apply Ascii.eqb_eq in Hc as ->]. }
  rewrite Hp. by rewrite IH.
Qed.

Lemma escape_b64 s : QueryEscape (b64_encode s) = b64_encode s.
Proof. apply escape_plain, b64_encode_safe. Qed.

Lemma session_now_invoke a r : preserves same_now (AuthenticateSessionCookie a r).
Proof.
  unfold AuthenticateSessionCookie, authenticateSession, Sessions_Get, cquery, loadActiveUser,
    validateAuthenticatable, checkLoginRules, Organizations_ListLoginRules, Users_ByID, sessionDuration,
    Organizations_Get, Sessions_Refresh, cwrite, query, write.
  repeat first [apply statement_now | preserve_step].
Qed.

(** The world at another time, with a store that answers. *)
Definition at_time (w : World) (n : Time) : World :=
  mkWorld (tbl w) (blobs w) (invalidated w) n (ids w) [].

Lemma code_created k w u w' : InvokeAuthCodes_Create k w = (Ok u, w') ->
  t_invoke_codes (t_creds (tbl w')) !! ic_ID k
  = Some (mkInvokeAuthCode (ic_ID k) (ic_UserID k) (ic_FunctionID k) (ic_Host k) (ic_ReturnTo k)
            (stored (ic_ExpiresAt k)) (stored (now w))).
Proof.
  unfold InvokeAuthCodes_Create. intros H. apply bind_run in H as (n & w1 & [= <- <-] & H).
  apply bind_run in H as ([] & w2 & _ & H). apply write_ok in H.
  apply rbind_ok in H as (m & Hm & H). injection H as <-. cbn. unfold insert_row in Hm.
  case_step Hm. case_step Hm. injection Hm as <-. apply lookup_insert_eq.
Qed.

(** A lookup and removal against a store that answers. *)
Lemma consume_plain {B} sel upd id (ok : B -> bool) w : faults w = [] ->
  (consume sel upd id ok w).1
  = match sel (t_creds (tbl w)) !! id with
    | Some x => if ok x then Ok x else Err ErrNotFound
    | None => Err ErrNotFound
    end.
Proof.
  intros Hf. unfold consume, statement. rewrite Hf. cbn.
  destruct (sel (t_creds (tbl w)) !! id) as [x|]; [by destruct (ok x)|done].
Qed.

(** C17. Signing on to a function host, end to end. When the control host sends a
    browser on to a function host, the browser's own session cookie names an
    unexpired session, of a user whom the login rules admit now, and the address
    carries a fresh one-time code; the function host then exchanges that code for a
    cookie of that very user, for that function and host, and leads on to the local
    path asked for, for a minute; at any other host, for any other function or later, the code is refused and
    no cookie is set. *)
Theorem sign_on_hand_over a r name host0 ret_to uri w url w1
    (Hfd : FunctionDomain a <> "") (Hnc : normalizedHost host0 <> Some (controlHost a))
    (Hr : forall i, random i <> "")
    (H : handleInvokeStart (E := AuthErr) a r name host0 ret_to uri w = (Ok (Redirect 303 url), w1)) :
  exists u fn raw,
    authenticatable (tbl w) u
    /\ (exists cookie sid s, request_cookie r (sessionCookieName a) = Some cookie
          /\ b64_decode cookie = Some sid /\ t_sessions (t_creds (tbl w)) !! sha256Hex sid = Some s
          /\ unexpired (s_ExpiresAt s) (now w) = true /\ t_users (tbl w) !! s_UserID s = Some u)
    /\ (exists fid, t_names (tbl w) !! name = Some (fid, true) /\ t_functions (tbl w) !! fid = Some fn)
    /\ validLocalReturnTo ret_to = true
    /\ url = (if has_prefix (BaseURL a) "http://" then "http" else "https") +:+ "://"
             +:+ managedFunctionHost a (f_Name fn) +:+ controlPort a +:+ invokeCallbackPath +:+ "?code=" +:+ raw
    /\ forall fn' host' n,
         (HandleInvokeCallback (E := AuthErr) a "GET" fn' host' raw (at_time w1 n)).1
         = Ok (match normalizedHost host' with
               | None => (NotFoundPage, [])
               | Some h =>
                   if (f_ID fn == f_ID fn') && (managedFunctionHost a (f_Name fn) == h)
                      && unexpired (stored (now w + invokeCodeLifetime)) n
                   then (Redirect 303 ret_to,
                         [mkSetCookie (invokeCookieName a)
                            (signInvokeCookie a (mkInvokeClaims (u_ID u) (f_ID fn') h
                                                   (toUnix (n + invokeCookieLifetime))))
                            true (secureCookies a) (8 * 60 * 60)])
                   else (Problem 400 "invalid or expired authentication code", [])
               end).
Proof.
  unfold handleInvokeStart in H. apply bind_run in H as (s & w2 & Hs & H).
  apply attempt_run in Hs as (s' & [= <-] & Hs). destruct s as [actor|]; [|done].
  pose proof (preserves_at _ _ _ _ _ (session_frame a r) Hs) as Hframe.
  pose proof (preserves_at _ _ _ _ _ (session_now_invoke a r) Hs) as Hn2.
  apply session_actor_ok in Hs as (Hau & _ & _ & Hown).
  apply bind_run in H as (f & w3 & Hf & H). apply attempt_run in Hf as (f' & [= <-] & Hf).
  destruct f as [fn|]; [|done].
  assert (Hn3 : now w3 = now w).
  { transitivity (now w2); [|exact Hn2]. eapply (preserves_at same_now); [|exact Hf]. apply statement_now. }
  apply query_ok in Hf as [Hf _].
  rewrite (proj2 (String.eqb_neq _ _) Hfd) in H. rewrite bool_decide_eq_false_2 in H by done.
  cbn [orb] in H. destruct (normalizedHost host0) as [host|]; [|done].
  destruct (negb (host == _)) eqn:Eh; [done|]. apply negb_false_iff, String.eqb_eq in Eh. subst host.
  destruct (negb (validLocalReturnTo ret_to && _)) eqn:El; [done|].
  apply negb_false_iff, andb_true_iff in El as [El _].
  unfold randomURLToken in H. apply bind_run in H as (raw & w4 & Hraw & H).
  apply bind_run in Hraw as (x & w5 & [= Hx Hw5] & [= <- <-]).
  apply bind_run in H as (n0 & w6 & [= <- <-] & H). apply bind_run in H as (c & w7 & Hc & H).
  apply attempt_run in Hc as (c' & [= <-] & Hc). destruct c as [u'|]; [|done].
  apply code_created in Hc. cbn in Hc. injection H as <- <-.
  assert (Hn5 : now w5 = now w) by (subst w5; exact Hn3). rewrite Hn5 in Hc.
  exists (ac_User actor), fn, (b64_encode x). split_and!; [done|done| |done| |].
  - red in Hframe. unfold sessions_only in Hframe. rewrite Hframe in Hf. cbn in Hf.
    destruct (t_names (tbl w) !! name) as [[fid []]|]; try done. exists fid. split; [done|].
    by destruct (t_functions (tbl w) !! fid); [injection Hf as ->|].
  - by rewrite escape_b64.
  - intros fn' host' n. unfold HandleInvokeCallback. cbn [negb String.eqb Ascii.eqb Bool.eqb].
    destruct (normalizedHost host') as [h|]; [|done].
    assert (Hne : b64_encode x <> "").
    { intros E. apply (Hr (ids w3)). rewrite Hx. pose proof (b64_decode_encode x) as Hd. rewrite E in Hd.
      by injection Hd. }
    rewrite (proj2 (String.eqb_neq _ _) Hne). unfold bind, time_Now, get, attempt, InvokeAuthCodes_Consume.
    match goal with |- context [consume ?s ?u ?i ?o ?w] =>
      pose proof (consume_plain s u i o w eq_refl) as Hcp;
      assert (Hn : now (consume s u i o w).2 = now w) by apply statement_now; destruct (consume s u i o w) as [res w8] end.
    cbn [fst tbl at_time now] in Hcp |- *. subst res. unfold hashInvokeValue in *. rewrite Hc.
    cbn [ic_FunctionID ic_Host ic_ExpiresAt].
    destruct ((f_ID fn == f_ID fn') && (managedFunctionHost a (f_Name fn) == h)
              && unexpired (stored (now w + invokeCodeLifetime)) n); [|done].
    cbn [ic_ReturnTo ic_UserID]. rewrite El. cbn in Hn. subst. reflexivity.
Qed.
End InvokeSSO.

(** ** Witnesses *)

Definition sample_invoke_claims : invokeCookieClaims := mkInvokeClaims "U1" "F1" "hello.fn.example" 900.

Lemma invoke_cookie_bound_witness :
  parseInvokeCookie (U := ascii_tables) (J := numeral_json) sample_auth (899 * second)
    (signInvokeCookie (J := numeral_json) sample_auth sample_invoke_claims) "F1" "hello.fn.example"
  = Ok sample_invoke_claims.
Proof.
  destruct (invoke_cookie_bound (U := ascii_tables) (J := numeral_json) sample_auth (899 * second)
    (signInvokeCookie (J := numeral_json) sample_auth sample_invoke_claims) "F1" "hello.fn.example"
    sample_invoke_claims) as [_ H].
  apply H; [reflexivity|unfold int64, min_int64, max_int64; simpl; lia|].
  split; [reflexivity|]. split; [reflexivity|]. reflexivity.
Defined.

#[local] Transparent sha256 hmac_sha256 b64_encode hex.

(** Bob's browser, signed in at the control host, is sent on to a function. *)
Definition sign_on_world : World :=
  with_tbl session_world
    (set_names (set_functions (tbl session_world)
       {["F1" := mkFunction "F1" OwnerTypeUser "U1" "hello" "" None (Some "U1") 1 1]})
       {["hello" := ("F1", true)]}).
Abbreviation sample_start :=
  (handleInvokeStart (U := ascii_tables) (J := numeral_json) (I := unary_ids) (E := AuthErr) sample_auth
     (browser_request "GET" "" "") "hello" "hello.fn.example" "/page" "/auth/invoke" sign_on_world).

Lemma sample_start_ok : exists url w1, sample_start = (Ok (Redirect 303 url), w1).
Proof.
  destruct sample_start as [[[st url| |]|] w1] eqn:E; cycle 1; try (exfalso;
    apply (f_equal (fun r => match r.1 with Ok (Redirect _ _) => true | _ => false end)) in E;
    vm_compute in E; discriminate).
  assert (Hs : st = 303).
  { apply (f_equal (fun r => match r.1 with Ok (Redirect s _) => s | _ => 0 end)) in E.
    vm_compute in E. by rewrite <- E. }
  subst st. by exists url, w1.
Qed.

#[local] Opaque sha256 hmac_sha256 b64_encode hex.

Lemma sign_on_hand_over_witness :
  exists u raw w1,
    (HandleInvokeCallback (U := ascii_tables) (J := numeral_json) (E := AuthErr) sample_auth "GET"
       (mkFunction "F2" OwnerTypeUser "U1" "other" "" None (Some "U1") 1 1) "hello.fn.example" raw
       (at_time w1 100)).1 = Ok (Problem 400 "invalid or expired authentication code", [])
    /\ authenticatable (U := ascii_tables) (tbl sign_on_world) u.
Proof.
  destruct sample_start_ok as (url & w1 & Hrun).
  destruct (sign_on_hand_over (U := ascii_tables) (J := numeral_json) (I := unary_ids) sample_auth
    (browser_request "GET" "" "") "hello" "hello.fn.example" "/page" "/auth/invoke" sign_on_world url w1
    ltac:(discriminate) ltac:(vm_compute; discriminate) ltac:(intros i; discriminate) Hrun)
    as (u & fn & raw & Hu & _ & (fid & Hn & Hf) & _ & _ & Hcb).
  exists u, raw, w1. split; [|exact Hu]. rewrite Hcb.
  assert (Hid : fn = mkFunction "F1" OwnerTypeUser "U1" "hello" "" None (Some "U1") 1 1).
  { cbn in Hn. injection Hn as <-. cbn in Hf. by injection Hf as <-. }
  subst fn. reflexivity.
Defined.
