(* ===== verification/Effective.v ===== *)
(** * Effective: the live fetch policy and visibility of a function

    Models src/server/internal/invoke/effective.go: loading the organization's and
    the workspace's levels, the cache of effective fetch policies keyed by their
    generations, and the visibility an invocation is held to. *)

From stdpp Require Import sorting.
From S2P Require Import Prelude GoNum Policy Types Settings Store.

(** The error of a level: the store's, or a document that does not parse. *)
Inductive LevelErr :=
| LevelStore (e : StoreErr)
| LevelSettings (e : SettingsErr)
| LevelVisibility (s : string).

Record ownerSettings := mkOwnerSettings {
  os_gen : Z;
  os_fetch : FetchPolicy;
  os_exists : bool
}.

(** [effectiveCache.entries]. *)
Abbreviation effectiveCache := (gmap string EffectivePolicy).
Definition newEffectiveCache : effectiveCache := ∅.

Section Effective.
Context {U : UnicodeTables} {J : JsonText}.

Definition org_level (org : Organization) : result LevelErr ownerSettings :=
  let! s := map_err LevelSettings (ParseOrg (o_Settings org)) in
  let! fp := map_err LevelSettings (FetchPolicy_Policy (org_FetchPolicy s)) in
  Ok (mkOwnerSettings (o_SettingsGen org) fp true).

Definition loadOrgSettings : M LevelErr ownerSettings :=
  do! org <- or_err LevelStore Organizations_Get;
  lift (org_level org).

Definition workspace_level (ws : Workspace) : result LevelErr ownerSettings :=
  let! s := map_err LevelSettings (ParseWorkspace (w_Settings ws)) in
  let! fp := map_err LevelSettings (FetchPolicy_Policy (ws_FetchPolicy s)) in
  Ok (mkOwnerSettings (w_SettingsGen ws) fp true).

Definition loadWorkspaceSettings (wsID : string) : M LevelErr ownerSettings :=
  do! ws <- or_err LevelStore (Workspaces_ByID wsID);
  lift (workspace_level ws).

Definition deny_all : EffectivePolicy := Effective [mkFetchPolicy FetchModeDeny []].

(** [fmt.Sprintf("%d:%d:%s", org.gen, ws.gen, versionID)]. *)
Definition cache_key (orgGen wsGen : Z) (versionID : string) : string :=
  itoa orgGen +:+ ":" +:+ itoa wsGen +:+ ":" +:+ versionID.

Definition no_level : ownerSettings := mkOwnerSettings 0 (mkFetchPolicy FetchModeDeny []) false.

(** The levels in force: organization, workspace (if any), manifest. *)
Definition policy_levels (org ws : ownerSettings) (manifestLevel : FetchPolicy) : list FetchPolicy :=
  [os_fetch org] ++ (if os_exists ws then [os_fetch ws] else []) ++ [manifestLevel].

(** Reading the two levels; the cache is only consulted when both are there. *)
Definition load_levels (ot : OwnerType) (ownerID : string) : M LevelErr (ownerSettings * ownerSettings) :=
  do! org <- loadOrgSettings;
  match ot with
  | OwnerTypeWorkspace => do! ws <- loadWorkspaceSettings ownerID; ret (org, ws)
  | OwnerTypeUser => ret (org, no_level)
  end.

Definition resolveFetch {E} (c : effectiveCache) (ot : OwnerType) (ownerID versionID : string)
    (manifestLevel : FetchPolicy) : M E (EffectivePolicy * effectiveCache) :=
  do! l <- attempt (load_levels ot ownerID);
  ret (match l with
       | Err _ => (deny_all, c)
       | Ok (org, ws) =>
           let key := cache_key (os_gen org) (os_gen ws) versionID in
           match c !! key with
           | Some cached => (cached, c)
           | None =>
               let eff := Effective (policy_levels org ws manifestLevel) in
               (eff, <[key := eff]> c)
           end
       end).

Definition parse_visibility (s : string) : result LevelErr Visibility :=
  match ParseVisibility s with Some v => Ok v | None => Err (LevelVisibility s) end.

Definition resolveVisibility (ot : OwnerType) (ownerID manifestVisibility : string)
    : M LevelErr Visibility :=
  do! org <- or_err LevelStore Organizations_Get;
  do! o <- lift (map_err LevelSettings (ParseOrg (o_Settings org)));
  do! orgMax <- lift (parse_visibility (MaxVisibility o));
  do! manifestVis <- lift (parse_visibility
        (if manifestVisibility == "" then DefaultVisibility o else manifestVisibility));
  match ot with
  | OwnerTypeUser => ret (MinVisibility [manifestVis; orgMax])
  | OwnerTypeWorkspace =>
      do! ws <- or_err LevelStore (Workspaces_ByID ownerID);
      do! s <- lift (map_err LevelSettings (ParseWorkspace (w_Settings ws)));
      if ws_MaxVisibility s == "" then ret (MinVisibility [manifestVis; orgMax])
      else
        do! wsMax <- lift (parse_visibility (ws_MaxVisibility s));
        ret (MinVisibility [manifestVis; wsMax; orgMax])
  end.

Definition checkWorkspaceMembership (wsID userID : string) : M StoreErr bool :=
  do! members <- Workspaces_ListMembers wsID;
  ret (existsb (fun m => wm_UserID m == userID) members).

(** ** The cache is transparent *)

(** What a lookup answers without a cache, in a state of the tables. *)
Definition levels_of (t : Tables) (ot : OwnerType) (ownerID : string)
    : result LevelErr (ownerSettings * ownerSettings) :=
  let! org := map_err LevelStore (row (t_organization t)) in
  let! o := org_level org in
  match ot with
  | OwnerTypeUser => Ok (o, no_level)
  | OwnerTypeWorkspace =>
      let! ws := map_err LevelStore (row (t_workspaces t !! ownerID)) in
      let! w := workspace_level ws in
      Ok (o, w)
  end.

Definition uncached (t : Tables) (ot : OwnerType) (ownerID : string) (manifestLevel : FetchPolicy)
    : EffectivePolicy :=
  match levels_of t ot ownerID with
  | Err _ => deny_all
  | Ok (org, ws) => Effective (policy_levels org ws manifestLevel)
  end.

Lemma load_levels_plain ot oid w :
  faults w = [] -> load_levels ot oid w = (levels_of (tbl w) ot oid, w).
Proof.
  intros Hf. unfold load_levels, loadOrgSettings, levels_of, bind, or_err.
  unfold Organizations_Get. rewrite query_plain by done.
  destruct (row (t_organization (tbl w))) as [org|e]; cbn; [|done].
  destruct (org_level org) as [o|e]; cbn; [|done]. destruct ot; [done|].
  unfold loadWorkspaceSettings, bind, or_err, Workspaces_ByID. rewrite query_plain by done.
  destruct (row (t_workspaces (tbl w) !! oid)) as [ws|e]; cbn; [|done].
  by destruct (workspace_level ws).
Qed.

(** A lookup: the state it happens in, and what it is asked for. *)
Record lookup_at := mkLookup {
  lk_tables : Tables;
  lk_ot : OwnerType;
  lk_owner : string;
  lk_version : string;
  lk_manifest : FetchPolicy
}.

Definition look (c : effectiveCache) (l : lookup_at) (w : World) : EffectivePolicy * effectiveCache :=
  match (resolveFetch (E := unit) c (lk_ot l) (lk_owner l) (lk_version l) (lk_manifest l)
           (with_tbl w (lk_tables l))).1 with
  | Ok x => x
  | Err _ => (deny_all, c)
  end.

(** Successive lookups through one cache. *)
Fixpoint looks (c : effectiveCache) (ls : list lookup_at) (w : World) : list EffectivePolicy :=
  match ls with
  | [] => []
  | l :: ls => let '(e, c) := look c l w in e :: looks c ls w
  end.

(** Two lookups agree on what a cache key stands for: a version has one owner and
    one manifest, and equal generations mean equal policies. *)
Definition keys_faithful (l m : lookup_at) : Prop :=
  lk_version l = lk_version m ->
  lk_ot l = lk_ot m /\ lk_owner l = lk_owner m /\ lk_manifest l = lk_manifest m
  /\ forall o1 w1 o2 w2,
       levels_of (lk_tables l) (lk_ot l) (lk_owner l) = Ok (o1, w1) ->
       levels_of (lk_tables m) (lk_ot m) (lk_owner m) = Ok (o2, w2) ->
       os_gen o1 = os_gen o2 -> os_gen w1 = os_gen w2 ->
       os_fetch o1 = os_fetch o2 /\ os_fetch w1 = os_fetch w2.

(** Generations of machine width. *)
Definition gens_fit (l : lookup_at) : Prop :=
  forall o w, levels_of (lk_tables l) (lk_ot l) (lk_owner l) = Ok (o, w) ->
  int64 (os_gen o) /\ int64 (os_gen w).

Lemma int64_width n : int64 n -> Z.abs n < 10 ^ 20.
Proof. unfold int64, min_int64, max_int64. lia. Qed.

Lemma no_colon n : int64 n -> str_forallb (fun d => negb (d =? ":")%char) (itoa n) = true.
Proof.
  intros H. eapply str_forallb_impl; [|by apply itoa_chars, int64_width].
  intros c Hc. destruct (c =? ":")%char eqn:E; [|done]. apply Ascii.eqb_eq in E as ->. discriminate Hc.
Qed.

Lemma cut_inj p c r q s :
  str_forallb (fun d => negb (d =? c)%char) p = true ->
  str_forallb (fun d => negb (d =? c)%char) q = true ->
  p +:+ String c r = q +:+ String c s -> p = q /\ r = s.
Proof.
  intros Hp Hq H. pose proof (cut_byte_app p c r Hp) as H1. pose proof (cut_byte_app q c s Hq) as H2.
  rewrite H in H1. rewrite H1 in H2. by injection H2.
Qed.

Lemma cache_key_inj g1 h1 v1 g2 h2 v2 :
  int64 g1 -> int64 h1 -> int64 g2 -> int64 h2 ->
  cache_key g1 h1 v1 = cache_key g2 h2 v2 -> g1 = g2 /\ h1 = h2 /\ v1 = v2.
Proof.
  intros A B C D H. unfold cache_key in H.
  apply cut_inj in H as [H1 H]; [|by apply no_colon..].
  apply cut_inj in H as [H2 H]; [|by apply no_colon..].
  split_and!; [|  |done]; eapply itoa_inj; eauto using int64_width.
Qed.

Lemma levels_exists t ot oid o w :
  levels_of t ot oid = Ok (o, w) -> os_exists w = bool_decide (ot = OwnerTypeWorkspace).
Proof.
  unfold levels_of. intros H. apply rbind_ok in H as (org & _ & H). apply rbind_ok in H as (o' & _ & H).
  destruct ot; [by injection H as _ <-|]. apply rbind_ok in H as (ws & _ & H).
  apply rbind_ok in H as (w' & Hw & H). injection H as _ <-. unfold workspace_level in Hw.
  apply rbind_ok in Hw as (s & _ & Hw). apply rbind_ok in Hw as (fp & _ & Hw). by injection Hw as <-.
Qed.

Definition entry_of (l : lookup_at) (key : string) (e : EffectivePolicy) : Prop :=
  exists o w, levels_of (lk_tables l) (lk_ot l) (lk_owner l) = Ok (o, w)
  /\ key = cache_key (os_gen o) (os_gen w) (lk_version l)
  /\ e = Effective (policy_levels o w (lk_manifest l)).

(** Every entry of the cache is what some lookup of [seen] computed. *)
Definition cache_from (seen : list lookup_at) (c : effectiveCache) : Prop :=
  forall key e, c !! key = Some e -> exists l, In l seen /\ entry_of l key e.

Lemma look_plain c l w : faults w = [] ->
  look c l w = match levels_of (lk_tables l) (lk_ot l) (lk_owner l) with
               | Err _ => (deny_all, c)
               | Ok (o, ws) =>
                   let key := cache_key (os_gen o) (os_gen ws) (lk_version l) in
                   match c !! key with
                   | Some cached => (cached, c)
                   | None => let eff := Effective (policy_levels o ws (lk_manifest l)) in
                             (eff, <[key := eff]> c)
                   end
               end.
Proof.
  intros Hf. unfold look, resolveFetch, bind, attempt. rewrite load_levels_plain by done.
  cbn [tbl with_tbl]. by destruct (levels_of _ _ _) as [[o ws]|].
Qed.

Lemma look_uncached seen c l w :
  faults w = [] -> cache_from seen c -> (forall m, In m seen -> gens_fit m /\ keys_faithful m l) ->
  gens_fit l ->
  (look c l w).1 = uncached (lk_tables l) (lk_ot l) (lk_owner l) (lk_manifest l)
  /\ cache_from (l :: seen) (look c l w).2.
Proof.
  intros Hf Hc Hseen Hl. rewrite look_plain by done. unfold uncached.
  assert (Hmono : cache_from (l :: seen) c).
  { intros k e H. destruct (Hc k e H) as (m & Hin & Hm). exists m. split; [by right|done]. }
  destruct (levels_of _ _ _) as [[o ws]|] eqn:E; [|done]. cbv zeta.
  destruct (c !! cache_key _ _ _) as [e|] eqn:Ec.
  - split; [|done]. destruct (Hc _ _ Ec) as (m & Hin & o' & w' & Hm & Hk & ->).
    destruct (Hseen m Hin) as [Hmf Hmk]. destruct (Hmf _ _ Hm), (Hl _ _ E).
    apply cache_key_inj in Hk as (Ho & Hw & Hv); try done.
    destruct (Hmk (eq_sym Hv)) as (Hot & Hown & -> & Hgen).
    destruct (Hgen _ _ _ _ Hm E (eq_sym Ho) (eq_sym Hw)) as [Hf1 Hf2].
    apply levels_exists in Hm, E. unfold policy_levels. simpl. by rewrite Hf1, Hf2, Hm, E, Hot.
  - split; [done|]. intros k e H. destruct (decide (k = cache_key (os_gen o) (os_gen ws) (lk_version l)))
      as [->|Hne].
    + simpl in H. rewrite lookup_insert_eq in H. injection H as <-. exists l. split; [by left|]. by exists o, ws.
    + simpl in H. rewrite lookup_insert_ne in H by done. by apply Hmono.
Qed.

Lemma looks_uncached ls : forall seen c w,
  faults w = [] -> cache_from seen c -> (forall m, In m seen -> gens_fit m) -> Forall gens_fit ls ->
  (forall m l, In m (seen ++ ls) -> In l ls -> keys_faithful m l) ->
  looks c ls w = map (fun l => uncached (lk_tables l) (lk_ot l) (lk_owner l) (lk_manifest l)) ls.
Proof.
  induction ls as [|l ls IH]; intros seen c w Hf Hc Hs Hl Hk; [done|]. simpl. inversion Hl; subst.
  destruct (look_uncached seen c l w) as [H1' H2']; try done.
  { intros m Hm. split; [by apply Hs|]. apply Hk; [apply in_or_app; by left|by left]. }
  destruct (look c l w) as [e c']. simpl in *. f_equal; [done|].
  apply (IH (l :: seen)); try done.
  - intros m [<-|Hm]; auto.
  - intros m k Hm Hk'. apply Hk; [|by right]. simpl in Hm. rewrite in_app_iff in *. simpl. tauto.
Qed.

(** The policy cache is invisible: through any number of lookups, at whatever
    states of the organization and the workspaces, by whichever pools, every answer is
    the policy those states define at that moment; so a settings change is in
    force for the very next connection of a pool warmed long before. This is owed to the
    generations: two states that agree on them must agree on the policies. *)
Theorem fetch_cache_transparent ls w (Hf : faults w = []) (Hg : Forall gens_fit ls)
    (Hk : forall m l, In m ls -> In l ls -> keys_faithful m l) :
  looks newEffectiveCache ls w
  = map (fun l => uncached (lk_tables l) (lk_ot l) (lk_owner l) (lk_manifest l)) ls.
Proof.
  apply (looks_uncached ls []); done.
Qed.
End Effective.

(** ** Witnesses *)

(** The organization before and after its fetch policy is opened. *)
Definition org_at (settings : string) (gen : Z) : Tables :=
  set_organization empty_tables (Some (mkOrganization "O1" "funcbox" settings gen 1 1)).
Definition allow_all_doc : string :=
  json_print (JsonText := numeral_json) (JObj [("fetch_policy", JObj [("mode", JStr "allow-all")])]).
Definition allow_all_level : FetchPolicy := mkFetchPolicy FetchModeAllowAll [].
Definition lookup_of (t : Tables) : lookup_at := mkLookup t OwnerTypeUser "U1" "V1" allow_all_level.
Definition closed_then_open : list lookup_at :=
  [lookup_of (org_at "" 1); lookup_of (org_at allow_all_doc 2)].

Lemma closed_levels : levels_of (U := ascii_tables) (J := numeral_json) (org_at "" 1) OwnerTypeUser "U1"
  = Ok (mkOwnerSettings 1 (mkFetchPolicy FetchModeDeny []) true, no_level).
Proof. reflexivity. Qed.

Lemma open_levels :
  levels_of (U := ascii_tables) (J := numeral_json) (org_at allow_all_doc 2) OwnerTypeUser "U1"
  = Ok (mkOwnerSettings 2 allow_all_level true, no_level).
Proof. vm_compute. reflexivity. Qed.

#[local] Opaque allow_all_doc.

Lemma fetch_cache_transparent_witness :
  looks (U := ascii_tables) (J := numeral_json) newEffectiveCache closed_then_open
    (mkWorld empty_tables ∅ [] 0 0 [])
  = [deny_all; Effective [allow_all_level; allow_all_level]].
Proof.
  rewrite (fetch_cache_transparent (U := ascii_tables) (J := numeral_json)).
  - unfold closed_then_open, lookup_of. cbn [map lk_tables lk_ot lk_owner lk_manifest]. unfold uncached.
    rewrite closed_levels, open_levels. reflexivity.
  - reflexivity.
  - constructor; [|constructor; [|constructor]]; unfold gens_fit; cbn [lookup_of lk_tables lk_ot lk_owner];
      intros o w; rewrite ?closed_levels, ?open_levels; intros [= <- <-]; unfold int64, min_int64, max_int64;
      simpl; lia.
  - intros m l Hm Hl _. destruct Hm as [<-|[<-|[]]]; destruct Hl as [<-|[<-|[]]];
      (do 3 (split; [reflexivity|])); cbn [lookup_of lk_tables lk_ot lk_owner]; intros o1 w1 o2 w2;
      rewrite ?closed_levels, ?open_levels; intros [= <- <-] [= <- <-];
      first [discriminate|intros _ _; split; reflexivity].
Defined.
