(* ===== verification/Invoke.v ===== *)
(** * Invoke: serving an invocation

    Models src/server/internal/invoke/invoke.go, pool.go and limits.go: resolving
    a function and its active version, deciding who may call it, building the
    pool that runs it, and what the guest sees of the request. The JavaScript
    engine is a parameter: [NewPool] warms a pool from its configuration and
    [guest] is what a pool does with a request. *)

From stdpp Require Import sorting.
From S2P Require Import Prelude GoNum GoURL GoHTTP Response Policy Capture FetchGuard Manifest Bundle.
From S2P Require Import Types Settings Store StoreCreds Digest Service Tokens Sessions InvokeSSO.
From S2P Require Import Effective.

(** ** limits.go *)

(** [enginepool.DefaultMaxRequestBody]. *)
Definition DefaultMaxRequestBody : Z := Z.shiftl 16 20.

(** [v] is the text of FUNCBOX_MAX_REQUEST_BYTES, empty when unset. *)
Definition maxRequestBytes (v : string) : Z :=
  if v == "" then DefaultMaxRequestBody
  else match atoi v with
       | Some n => if n <=? 0 then DefaultMaxRequestBody else n
       | None => DefaultMaxRequestBody
       end.

(** ** Requests and answers *)

Record InvokeRequest := mkInvokeRequest {
  q_Method : string;
  q_Host : string;
  q_RequestURI : string;
  q_Path : string;
  q_ContentLength : Z;
  q_Header : Header
}.

(** The part of a request the auth package reads. *)
Definition auth_request (q : InvokeRequest) : Request :=
  mkRequest (q_Method q) (h_Get (q_Header q) "Authorization") (h_Get (q_Header q) "Origin")
    (h_Get (q_Header q) "X-CSRF-Token") (readCookies (default [] (q_Header q !! "Cookie"))).

Inductive ServeAnswer :=
| ErrorJSON (status : Z) (code message : string)
| BearerChallenge (message : string)              (** 401 with WWW-Authenticate *)
| AccessDenied (lang dashboardURL : string)       (** the 403 page *)
| ToLogin (url : string).

Definition internal_error : ServeAnswer := ErrorJSON 500 "internal" "internal error".

(** The fields of [Invoker] a request depends on. *)
Record Invoker := mkInvoker {
  inv_Auth : option Auth;
  inv_EnvKey : string;
  inv_Timeout : Z;
  inv_MaxRequestBytes : string
}.

Definition DefaultTimeout : Z := 30 * Second.
Definition DefaultPoolSize : Z := 2.

(** What a pool is built from. *)
Record PoolConfig := mkPoolConfig {
  pc_Entry : string;
  pc_Env : list (string * string);
  pc_NodeCompat : bool;
  pc_MaxRequestBody : Z;
  pc_MaxMemory : option Z;
  pc_Files : gmap string string;
  pc_Fetch : FetchPolicy;          (** the manifest level of the fetch hooks *)
  pc_Owner : OwnerType * string;
  pc_Version : string
}.

(** What a guest did with one request. *)
Record GuestRun := mkGuestRun {
  g_actions : list action;
  g_aborted : bool;
  g_capture : capture;
  g_nanoseconds : Z
}.

Inductive BuildErr :=
| BuildManifest
| BuildBlob (e : StoreErr)
| BuildUnpack (e : BundleErr)
| BuildFetch
| BuildNoKey
| BuildEnv (e : StoreErr)
| BuildDecrypt (key : string)
| BuildEngine.

Definition wantsHTMLRedirect (q : InvokeRequest) : bool :=
  ((q_Method q == "GET") || (q_Method q == "HEAD"))
  && str_contains (h_Get (q_Header q) "Accept") "text/html".

Definition stripFuncboxHeaders (h : Header) : Header := h_DelPrefix h "X-Funcbox-".

Section Invoke.
Context {U : UnicodeTables} {J : JsonText} {I : IdGen} {A : ArchiveCodec} {C : Cipher}.
Context (verify : string -> option VerifiedToken).
Context {P : Type} (NewPool : PoolConfig -> option P) (guest : P -> InvokeRequest -> Z -> GuestRun).

(** ** Decoding the stored manifest *)

Definition dec_nfetch (cur : NormalizedFetch) (kvs : list (string * json)) : option NormalizedFetch :=
  match field "mode" dec_string (n_Mode cur) kvs, field "allow" dec_strings (n_Allow cur) kvs with
  | Some m, Some a => Some (mkNormalizedFetch m a)
  | _, _ => None
  end.

Definition dec_permissions (cur : NormalizedFetch) (kvs : list (string * json)) : option NormalizedFetch :=
  field "fetch" (dec_object dec_nfetch) cur kvs.

Definition dec_compat (cur : bool) (kvs : list (string * json)) : option bool :=
  field "nodejs" dec_bool cur kvs.

Definition dec_normalized (n : Normalized) (kvs : list (string * json)) : option Normalized :=
  match field "source" dec_string (n_Source n) kvs, field "name" dec_string (n_Name n) kvs,
        field "owner" dec_string (n_Owner n) kvs, field "main" dec_string (n_Main n) kvs,
        field "description" dec_string (n_Description n) kvs,
        field "timeout" dec_string (n_Timeout n) kvs, field "memory" dec_int (n_Memory n) kvs,
        field "compat" (dec_object dec_compat) (n_Nodejs n) kvs with
  | Some source, Some name, Some owner, Some main, Some description, Some timeout, Some memory,
    Some nodejs =>
      match field "permissions" (dec_object dec_permissions) (n_Fetch n) kvs,
            field "env" dec_strings (n_Env n) kvs,
            field "visibility" dec_string (n_Visibility n) kvs with
      | Some fetch, Some env, Some visibility =>
          Some (mkNormalized source name owner main description timeout memory nodejs fetch env visibility)
      | _, _, _ => None
      end
  | _, _, _, _, _, _, _, _ => None
  end.

Definition zero_normalized : Normalized :=
  mkNormalized "" "" "" "" "" "" 0 false (mkNormalizedFetch "" []) [] "".

Definition stored_manifest (v : FunctionVersion) : option Normalized :=
  match json_parse (v_Manifest v) with
  | Some j => dec_object dec_normalized zero_normalized j
  | None => None
  end.

(** ** pool.go *)

Definition Blob_Get (key : string) : M StoreErr string :=
  fun w =>
    match faults w with
    | true :: rest =>
        (Err ErrBackend, mkWorld (tbl w) (blobs w) (invalidated w) (now w) (ids w) rest)
    | fs => (row (blobs w !! key),
             mkWorld (tbl w) (blobs w) (invalidated w) (now w) (ids w) (List.tl fs))
    end.

Definition orgAllowsNodejsCompat {E} : M E bool :=
  do! o <- attempt Organizations_Get;
  ret (match o with
       | Err _ => false
       | Ok o => match ParseOrg (o_Settings o) with Ok s => AllowNodejsCompat s | Err _ => false end
       end).

Definition buildFetchPolicy (f : NormalizedFetch) : result BuildErr FetchPolicy :=
  match ParseFetchMode (n_Mode f) with
  | None => Err BuildFetch
  | Some mode =>
      let! allow := map_err (fun _ => BuildFetch) (settings_patterns (n_Allow f)) in
      Ok (mkFetchPolicy mode allow)
  end.

Fixpoint decrypt_declared (envKey : string) (values : list (string * string)) (declared : list string)
    : result BuildErr (list (string * string)) :=
  match declared with
  | [] => Ok []
  | key :: rest =>
      match List.find (fun kv => kv.1 == key) values with
      | None => decrypt_declared envKey values rest
      | Some (_, ciphertext) =>
          match unseal envKey ciphertext with
          | None => Err (BuildDecrypt key)
          | Some plain => let! env := decrypt_declared envKey values rest in Ok ((key, plain) :: env)
          end
      end
  end.

Definition buildEnv (functionID : string) (declared : list string) (envKey : string)
    : M BuildErr (list (string * string)) :=
  match declared with
  | [] => ret []
  | _ =>
      if envKey == "" then throw BuildNoKey
      else
        do! values <- or_err BuildEnv (Functions_ListEnv functionID);
        lift (decrypt_declared envKey values declared)
  end.

(** [buildPool]: the configuration the pool is warmed with. *)
Definition pool_config (inv : Invoker) (v : FunctionVersion) (ot : OwnerType) (oid : string)
    : M BuildErr PoolConfig :=
  match stored_manifest v with
  | None => throw BuildManifest
  | Some nm =>
      do! data <- or_err BuildBlob (Blob_Get (BundleBlobKey (v_BundleHash v)));
      do! files <- lift (map_err BuildUnpack (Unpack data));
      do! useNodejs <- (if n_Nodejs nm then orgAllowsNodejsCompat else ret false);
      do! fp <- lift (buildFetchPolicy (n_Fetch nm));
      do! env <- buildEnv (v_FunctionID v) (n_Env nm) (inv_EnvKey inv);
      ret (mkPoolConfig (v_MainPath v) env useNodejs (maxRequestBytes (inv_MaxRequestBytes inv))
             (if 0 <? n_Memory nm then Some (n_Memory nm) else None) files fp (ot, oid) (v_ID v))
  end.

Definition buildPool (inv : Invoker) (v : FunctionVersion) (ot : OwnerType) (oid : string)
    : M BuildErr P :=
  do! cfg <- pool_config inv v ot oid;
  match NewPool cfg with
  | Some p => ret p
  | None => throw BuildEngine
  end.

(** [Manager.HandlerFor] against the pools that are warm: the component of its
    own that keeps them is [Manager]. *)
Definition HandlerFor (warm : gmap string P) (key : string) (build : M BuildErr P) : M BuildErr P :=
  match warm !! key with
  | Some p => ret p
  | None => build
  end.

(** ** invoke.go: authorization *)

Definition callerIdentityExposed {E} : M E bool :=
  do! o <- attempt Organizations_Get;
  ret (match o with
       | Err _ => false
       | Ok o => match ParseOrg (o_Settings o) with
                 | Ok s => negb (OpenMode s) || ExposeCallerIdentity s
                 | Err _ => false
                 end
       end).

Definition isWorkspaceMember (fn : Function) (userID : string) : M StoreErr bool :=
  match f_OwnerType fn with
  | OwnerTypeUser => ret (userID == f_OwnerID fn)
  | OwnerTypeWorkspace => checkWorkspaceMembership (f_OwnerID fn) userID
  end.

(** webpage.go's [OrgLanguage]. *)
Definition OrgLanguage {E} : M E string :=
  do! o <- attempt Organizations_Get;
  ret (match o with
       | Err _ => "en"
       | Ok o => match ParseOrg (o_Settings o) with
                 | Ok s => if Language s == "ja" then "ja" else "en"
                 | Err _ => "en"
                 end
       end).

(** A denial: the page for a browser, JSON for anybody else. *)
Definition denied (a : Auth) (q : InvokeRequest) (message : string) {R} : M ServeAnswer R :=
  if wantsHTMLRedirect q then
    do! lang <- OrgLanguage;
    throw (AccessDenied lang (trim_suffix (ControlOrigin a) "/" +:+ "/dashboard"))
  else throw (ErrorJSON 403 "forbidden" message).

Definition not_authorized_message : string :=
  "authenticated, but this account is not currently authorized to invoke functions (pending approval, disabled, or excluded by the organization's login rules) -- see the funcbox dashboard for details".
Definition authentication_message : string :=
  "authentication required -- from a terminal, run `funcbox print-access-token` and pass the result as `Authorization: Bearer <token>`".

(** The caller's e-mail address, and whether the guest may see it. *)
Definition authorize (inv : Invoker) (q : InvokeRequest) (fn : Function) (manifestVisibility : string)
    : M ServeAnswer (string * bool) :=
  do! effVis <- or_err (fun _ => internal_error)
                  (resolveVisibility (f_OwnerType fn) (f_OwnerID fn) manifestVisibility);
  match effVis with
  | VisibilityPublic => ret ("", false)
  | _ =>
      match inv_Auth inv with
      | None => throw (ErrorJSON 403 "forbidden"
                  "this function requires authentication, which is not configured on this server")
      | Some a =>
          do! audiences <- ExtraInvokeAudiences;
          do! caller <- attempt (ResolveInvokeCaller verify a (auth_request q) audiences (f_ID fn) (q_Host q));
          match caller with
          | Err ErrInvokeForbidden => denied a q not_authorized_message
          | Err ErrUnauthenticated =>
              if wantsHTMLRedirect q then
                throw (ToLogin (if SameOriginInvokeHost a (q_Host q) then LoginURL (q_RequestURI q)
                                else InvokeLoginURL a fn (q_Host q) (q_RequestURI q)))
              else throw (BearerChallenge authentication_message)
          | Err _ => throw internal_error
          | Ok u =>
              run! match effVis with
                   | VisibilityWorkspace =>
                       do! member <- or_err (fun _ => internal_error) (isWorkspaceMember fn (u_ID u));
                       if (member : bool) then ret tt
                       else denied a q "not a member of this function's workspace"
                   | _ => ret tt
                   end;
              do! expose <- callerIdentityExposed;
              ret (u_Email u, expose)
          end
      end
  end.

(** ** invoke.go: serving *)

(** The headers the guest gets. *)
Definition guest_header (h : Header) (callerEmail : string) (exposeCaller : bool) : Header :=
  let h := stripFuncboxHeaders (h_Del (h_Del h "Cookie") "Authorization") in
  if negb (callerEmail == "") && exposeCaller then h_Set h "X-Funcbox-Caller-Email" callerEmail else h.

Definition with_header (q : InvokeRequest) (h : Header) : InvokeRequest :=
  mkInvokeRequest (q_Method q) (q_Host q) (q_RequestURI q) (q_Path q) (q_ContentLength q) h.

Definition invoke_timeout (inv : Invoker) (nm : Normalized) : Z :=
  let timeout := if inv_Timeout inv <=? 0 then DefaultTimeout else inv_Timeout inv in
  if n_Timeout nm == "" then timeout
  else match ParseDuration (n_Timeout nm) with
       | Some d => if (0 <? d) && (d <? timeout) then d else timeout
       | None => timeout
       end.

Definition fetch_json (d : FetchDecision) : json :=
  JObj ([("host", JStr (fd_host d))] ++ opt_int "port" (fd_port d)
        ++ [("allowed", JBool (fd_allowed d)); ("stage", JStr (fd_stage d))]).

(** The snapshot of no decision is a nil slice, which prints as [null]. *)
Definition fetches_json (l : list FetchDecision) : json :=
  match l with [] => JNull | _ => JArr (map fetch_json l) end.

Definition invocation_log (fn : Function) (v : FunctionVersion) (q : InvokeRequest) (status : Z)
    (g : GuestRun) : InvocationLog :=
  mkInvocationLog "" (f_ID fn) (v_ID v) (q_Method q) (q_Path q) status
    (Z.quot (g_nanoseconds g) (10 ^ 6)) (stdout (g_capture g)) (stderr (g_capture g))
    (json_print (fetches_json (fetchDecisionsSnapshot (g_capture g)))) 0.

(** What came of an invocation that reached the guest. *)
Record Served := mkServed {
  sv_Version : FunctionVersion;
  sv_Request : InvokeRequest;
  sv_Timeout : Z;
  sv_Writer : invokeResponseWriter;
  sv_Run : GuestRun;
  sv_Aborted : bool
}.

(** [response] is the header map of the response as the server hands it over. *)
Definition serveFunction (inv : Invoker) (warm : gmap string P) (response : Header) (q : InvokeRequest)
    (fn : Function) : M ServeAnswer Served :=
  if maxRequestBytes (inv_MaxRequestBytes inv) <? q_ContentLength q then
    throw (ErrorJSON 413 "payload_too_large" "request body exceeds the maximum allowed size")
  else
    match f_ActiveVersionID fn with
    | None => throw (ErrorJSON 404 "not_found" "function has no active version")
    | Some id =>
        do! v <- or_err (fun _ => internal_error) (Functions_Version id);
        match stored_manifest v with
        | None => throw internal_error
        | Some nm =>
            do! caller <- authorize inv q fn (n_Visibility nm);
            let timeout := invoke_timeout inv nm in
            do! handler <- or_err (fun _ => ErrorJSON 500 "internal" "failed to start function")
                             (HandlerFor warm (v_ID v) (buildPool inv v (f_OwnerType fn) (f_OwnerID fn)));
            let q' := with_header q (guest_header (q_Header q) caller.1 caller.2) in
            let g := guest handler q' timeout in
            let iw := iw_run (new_iw (rw_set_header new_writer response)) (g_actions g) in
            if g_aborted g then ret (mkServed v q' timeout iw g true)
            else
              run! (if isLikelyOOM iw then Runtime_Invalidate (v_ID v) else ret tt);
              run! attempt (InvocationLogs_Append (invocation_log fn v q (finalStatus iw) g));
              ret (mkServed v q' timeout iw g false)
        end
    end.

(** ** invoke.go: entry points *)

Definition resolveOwner (selector : string) : M StoreErr (OwnerType * string) :=
  do! id <- attempt (PublicUserIDs_ByUserID selector);
  match id with
  | Ok p => ret (OwnerTypeUser, p_InternalUserID p)
  | Err ErrNotFound => do! ws <- Workspaces_ByID selector; ret (OwnerTypeWorkspace, w_ID ws)
  | Err e => throw e
  end.

(** A failed lookup: 404 when there is nothing, 500 otherwise. *)
Definition lookup_failure (message : string) (e : StoreErr) : ServeAnswer :=
  match e with ErrNotFound => ErrorJSON 404 "not_found" message | _ => internal_error end.

Definition Serve (inv : Invoker) (warm : gmap string P) (response : Header) (q : InvokeRequest)
    (owner name : string) : M ServeAnswer Served :=
  do! o <- or_err (lookup_failure "owner not found") (resolveOwner owner);
  do! fn <- or_err (lookup_failure "function not found") (Functions_ByOwnerAndName o.1 o.2 name);
  serveFunction inv warm response q fn.

Definition ServeByName (inv : Invoker) (warm : gmap string P) (response : Header) (q : InvokeRequest)
    (name : string) : M ServeAnswer Served :=
  do! fn <- or_err (lookup_failure "function not found") (Functions_ByName name);
  serveFunction inv warm response q fn.

(** [ServeBrowserAuthCallback]: the reserved path never reaches the guest. *)
Definition ServeBrowserAuthCallback {E} (inv : Invoker) (method name host code : string)
    : M E (Answer * list SetCookie) :=
  match inv_Auth inv with
  | None => ret (NotFoundPage, [])
  | Some a =>
      do! fn <- attempt (Functions_ByName name);
      match fn with
      | Err _ => ret (NotFoundPage, [])
      | Ok fn => HandleInvokeCallback a method fn host code
      end
  end.

(** ** Specification *)

(** The visibility in force: the narrowest of what the manifest (or the
    organization's default) declares and what workspace and organization allow. *)
Definition effective_visibility (t : Tables) (ot : OwnerType) (oid manifestVisibility : string)
    (vis : Visibility) : Prop :=
  exists org o declared orgMax,
    t_organization t = Some org /\ ParseOrg (o_Settings org) = Ok o
    /\ ParseVisibility (MaxVisibility o) = Some orgMax
    /\ ParseVisibility (if manifestVisibility == "" then DefaultVisibility o else manifestVisibility)
       = Some declared
    /\ match ot with
       | OwnerTypeUser => vis = MinVisibility [declared; orgMax]
       | OwnerTypeWorkspace =>
           exists ws s, t_workspaces t !! oid = Some ws /\ ParseWorkspace (w_Settings ws) = Ok s
           /\ if ws_MaxVisibility s == "" then vis = MinVisibility [declared; orgMax]
              else exists wsMax, ParseVisibility (ws_MaxVisibility s) = Some wsMax
                                 /\ vis = MinVisibility [declared; wsMax; orgMax]
       end.

Definition bearer (q : InvokeRequest) : string := h_Get (q_Header q) "Authorization".
Definition reads_only (q : InvokeRequest) : Prop := q_Method q = "GET" \/ q_Method q = "HEAD".

(** The further audiences an identity token may carry: those of the settings. *)
Definition settings_audiences (t : Tables) : list string :=
  match t_organization t with
  | Some o => match ParseOrg (o_Settings o) with Ok s => ExtraIDTokenAudiences s | Err _ => [] end
  | None => []
  end.

(** What makes user [u] the caller of function [fid]; a bearer credential names an
    address, and [u] is a row of the users that has it. *)
Inductive credential (a : Auth) (t : Tables) (n : Time) (audiences : list string) (q : InvokeRequest)
    (fid : string) (u : User) : Prop :=
| by_access_token raw c :
    bearer q = "Bearer " +:+ raw -> verifyAccessToken a n raw = Ok c -> Aud c = "" ->
    (exists k, t_users t !! k = Some u) -> u_Email u = Email c -> credential a t n audiences q fid u
| by_id_token raw tok :
    bearer q = "Bearer " +:+ raw -> verify raw = Some tok ->
    (exists aud, In aud (vt_Audience tok) /\ In aud (ClientID a :: audiences)) ->
    vt_EmailVerified tok = true -> (exists k, t_users t !! k = Some u) -> u_Email u = vt_Email tok ->
    credential a t n audiences q fid u
| by_session cookie raw s :
    bearer q = "" -> reads_only q -> SameOriginInvokeHost a (q_Host q) = true ->
    request_cookie (auth_request q) (sessionCookieName a) = Some cookie -> b64_decode cookie = Some raw ->
    t_sessions (t_creds t) !! sha256Hex raw = Some s -> unexpired (s_ExpiresAt s) n = true ->
    t_users t !! s_UserID s = Some u -> credential a t n audiences q fid u
| by_invoke_cookie cookie host claims :
    bearer q = "" -> reads_only q -> SameOriginInvokeHost a (q_Host q) = false ->
    request_cookie (auth_request q) (invokeCookieName a) = Some cookie ->
    normalizedHost (q_Host q) = Some host ->
    parseInvokeCookie a n cookie fid host = Ok claims ->
    t_users t !! ik_UserID claims = Some u -> credential a t n audiences q fid u.

(** The audience of workspace visibility: the members, or the owner alone. *)
Definition in_workspace (t : Tables) (fn : Function) (userID : string) : Prop :=
  match f_OwnerType fn with
  | OwnerTypeUser => userID = f_OwnerID fn
  | OwnerTypeWorkspace =>
      exists k m, t_members t !! k = Some m /\ wm_WorkspaceID m = f_OwnerID fn /\ wm_UserID m = userID
  end.

(** ** Runs *)

Lemma parse_visibility_ok s v : parse_visibility s = Ok v -> ParseVisibility s = Some v.
Proof. unfold parse_visibility. destruct (ParseVisibility s); simpl; congruence. Qed.

Lemma map_err_ok {E F B} (f : E -> F) (r : result E B) b : map_err f r = Ok b -> r = Ok b.
Proof. destruct r; simpl; congruence. Qed.

Lemma visibility_ok ot oid mv w vis w' :
  resolveVisibility ot oid mv w = (Ok vis, w') ->
  effective_visibility (tbl w) ot oid mv vis /\ still w w'.
Proof.
  intros H. split.
  2:{ eapply preserves_at in H; [exact H|]. unfold resolveVisibility, Organizations_Get, Workspaces_ByID. still. }
  unfold resolveVisibility in H.
  apply bind_run in H as (org & w1 & Ho & H). apply or_err_run, query_ok in Ho as [Ho%row_ok Ht].
  apply bind_run in H as (o & w2 & [= Hp%map_err_ok <-] & H).
  apply bind_run in H as (orgMax & w3 & [= Hm%parse_visibility_ok <-] & H).
  apply bind_run in H as (declared & w4 & [= Hd%parse_visibility_ok <-] & H).
  exists org, o, declared, orgMax. split_and!; try done.
  destruct ot; [by injection H as <- _|].
  apply bind_run in H as (ws & w5 & Hw & H). apply or_err_run, query_ok in Hw as [Hw%row_ok Ht5].
  apply bind_run in H as (s & w6 & [= Hs%map_err_ok <-] & H). rewrite Ht in Hw.
  exists ws, s. split_and!; try done.
  destruct (ws_MaxVisibility s == "") eqn:Em; [by injection H as <- _|].
  apply bind_run in H as (wsMax & w7 & [= Hx%parse_visibility_ok <-] & H).
  exists wsMax. by injection H as <- _.
Qed.

Lemma active_ok u w u' w' :
  validateActiveUser u w = (Ok u', w') ->
  u' = u /\ u_Status u = UserStatusActive /\ EvaluateLoginRules (rules_of (tbl w)) (u_Email u) = true.
Proof.
  unfold validateActiveUser. intros H. case_step H. bool_facts.
  apply bind_run in H as (b & w1 & Hb & H). apply or_err_run, checkLoginRules_ok in Hb as [-> Ht].
  case_step H. injection H as <- <-. by split_and!.
Qed.

Lemma active_by_email_ok email w u w' :
  loadActiveUserByEmail email w = (Ok u, w') ->
  (exists k, t_users (tbl w) !! k = Some u) /\ u_Email u = email /\ u_Status u = UserStatusActive
  /\ EvaluateLoginRules (rules_of (tbl w)) (u_Email u) = true.
Proof.
  intros H. apply bind_run in H as (v & w1 & Hv & H). apply or_err_run, query_ok in Hv as [Hv Ht].
  apply head_rows in Hv as (k & Hk & He). apply active_ok in H as (-> & Hs & Hr). bool_facts.
  rewrite Ht in Hr. split; [by exists k|done].
Qed.

(** The audiences read are those of the settings, or none when the read fails. *)
Lemma extra_audiences_ok {E} w l w' : ExtraInvokeAudiences (E := E) w = (Ok l, w') ->
  l = settings_audiences (tbl w) \/ l = [].
Proof.
  unfold ExtraInvokeAudiences, settings_audiences. intros H. apply bind_run in H as (o & w1 & Ho & H).
  apply attempt_run in Ho as (x & [= <-] & Ho). injection H as <- _.
  destruct o as [o|]; [|by right]. apply query_ok in Ho as [Ho%row_ok _]. rewrite Ho. by left.
Qed.

Lemma credential_audiences a t n auds auds' q fid u :
  (forall x, In x auds -> In x auds') -> credential a t n auds q fid u -> credential a t n auds' q fid u.
Proof.
  intros Hs Hc. destruct Hc as [raw c|raw tok Hb Hv (aud & Hin & Haud)| |].
  - by eapply by_access_token.
  - eapply by_id_token; try done. exists aud. split; [done|]. destruct Haud; [by left|right; auto].
  - by eapply by_session.
  - by eapply by_invoke_cookie.
Qed.

Lemma resolve_still a r audiences fid host :
  preserves still (ResolveInvokeCaller verify a r audiences fid host).
Proof.
  unfold ResolveInvokeCaller, loadActiveUserByEmail, validateActiveUser, checkLoginRules,
    Organizations_ListLoginRules, Users_ByEmail, resolveInvokeSessionCookie, Sessions_Get, cquery,
    ResolveInvokeCookie, Users_ByID, validateActiveUser, checkLoginRules. still.
Qed.

(** A resolved caller is admitted, by one of the four credentials. *)
Lemma caller_ok a q audiences fid w u w' :
  ResolveInvokeCaller verify a (auth_request q) audiences fid (q_Host q) w = (Ok u, w') ->
  u_Status u = UserStatusActive /\ EvaluateLoginRules (rules_of (tbl w)) (u_Email u) = true
  /\ credential a (tbl w) (now w) audiences q fid u.
Proof.
  unfold ResolveInvokeCaller. cbn [r_Authorization auth_request]. fold (bearer q). intros H.
  destruct (bearer q == "") eqn:Eb; cbn [negb] in H; bool_facts.
  - cbn [r_Method auth_request] in H. case_step H.
    assert (Hm : reads_only q) by (apply andb_false_iff in E as [E|E];
      apply negb_false_iff, String.eqb_eq in E; [by left|by right]).
    destruct (SameOriginInvokeHost a (q_Host q)) eqn:Es.
    + unfold resolveInvokeSessionCookie in H. case_step H. case_step H.
      apply bind_run in H as (n & w1 & [= <- <-] & H).
      apply bind_run in H as (se & w2 & Hs & H). apply or_err_run, query_ok in Hs as [Hs Ht].
      apply bind_run in H as (v & w3 & Hv & H). apply or_err_run, query_ok in Hv as [Hv%row_ok Ht3].
      apply active_ok in H as (-> & Hst & Hr). rewrite Ht3, Ht in Hr. rewrite Ht in Hv.
      destruct (t_sessions (t_creds (tbl w)) !! _) as [s'|] eqn:Er; [|done].
      destruct (unexpired (s_ExpiresAt s') (now w)) eqn:Eu; [|done]. injection Hs as ->.
      split_and!; try done. by eapply by_session.
    + unfold ResolveInvokeCookie in H. case_step H. case_step H.
      apply bind_run in H as (n & w1 & [= <- <-] & H).
      apply bind_run in H as (claims & w2 & [= Hc <-] & H).
      apply bind_run in H as (v & w3 & Hv & H). apply or_err_run, query_ok in Hv as [Hv%row_ok Ht3].
      apply active_ok in H as (-> & Hst & Hr). rewrite Ht3 in Hr.
      split_and!; try done. by eapply by_invoke_cookie.
  - case_step H. apply orb_false_iff in E as [E _]. apply negb_false_iff in E.
    apply has_prefix_spec in E as [raw Hraw]. rewrite Hraw, trim_prefix_app in H.
    case_step H.
    + apply bind_run in H as (n & w1 & [= <- <-] & H).
      apply bind_run in H as (c & w2 & Hc & H). apply or_err_run in Hc. injection Hc as Hc <-.
      case_step H. bool_facts. apply active_by_email_ok in H as (Hrow & He & Hst & Hr).
      split_and!; try done. by eapply by_access_token.
    + destruct (VerifyIDToken verify a raw audiences) as [tok|] eqn:Ev; [|done].
      apply active_by_email_ok in H as (Hrow & He & Hst & Hr). split_and!; try done.
      unfold VerifyIDToken in Ev. case_step Ev. case_step Ev. case_step Ev. injection Ev as ->.
      apply existsb_exists in E1 as (aud & Hin & Haud). apply existsb_exists in Haud as (x & Hx & Heq).
      apply String.eqb_eq in Heq as ->. eapply by_id_token; try done. by exists x.
Qed.

Lemma member_ok fn userID w b w' :
  isWorkspaceMember fn userID w = (Ok b, w') ->
  (b = true -> in_workspace (tbl w) fn userID) /\ still w w'.
Proof.
  unfold isWorkspaceMember, in_workspace, checkWorkspaceMembership. intros H. split.
  2:{ eapply preserves_at in H; [exact H|]. unfold Workspaces_ListMembers. still. }
  intros ->. destruct (f_OwnerType fn); [injection H as H _; by bool_facts|].
  apply bind_run in H as (members & w1 & Hm & H). apply query_ok in Hm as [[= <-] _].
  injection H as H _. apply existsb_exists in H as (m & Hin & Hu). bool_facts.
  apply list_elem_of_In in Hin. unfold order_by in Hin. rewrite merge_sort_Permutation in Hin.
  apply list_elem_of_In, filter_In in Hin as [Hin Hw]. bool_facts.
  apply in_map_iff in Hin as ([k m'] & <- & Hin). apply list_elem_of_In, elem_of_map_to_list in Hin.
  exists k, m'. by split_and!.
Qed.

Lemma denied_throws {R} a q msg w (r : R) w' : denied a q msg w <> (Ok r, w').
Proof.
  unfold denied. intros H. destruct (wantsHTMLRedirect q); [|done].
  by apply bind_run in H as (lang & w1 & _ & H).
Qed.

(** The callers a function is served to. *)
Definition admitted (inv : Invoker) (t : Tables) (n : Time) (q : InvokeRequest) (fn : Function)
    (vis : Visibility) (email : string) : Prop :=
  match vis with
  | VisibilityPublic => email = ""
  | _ =>
      exists a u, inv_Auth inv = Some a /\ email = u_Email u
      /\ u_Status u = UserStatusActive /\ EvaluateLoginRules (rules_of t) (u_Email u) = true
      /\ credential a t n (settings_audiences t) q (f_ID fn) u
      /\ (vis = VisibilityWorkspace -> in_workspace t fn (u_ID u))
  end.

(** The organization lets functions see who calls them. *)
Definition identity_exposed (t : Tables) : Prop :=
  exists org o, t_organization t = Some org /\ ParseOrg (o_Settings org) = Ok o
  /\ (OpenMode o = false \/ ExposeCallerIdentity o = true).

Lemma exposed_ok {E} w b w' :
  callerIdentityExposed (E := E) w = (Ok b, w') -> (b = true -> identity_exposed (tbl w)) /\ still w w'.
Proof.
  intros H. split.
  2:{ eapply preserves_at in H; [exact H|]. unfold callerIdentityExposed, Organizations_Get. still. }
  intros ->. apply bind_run in H as (r & w1 & Hr & H). apply attempt_run in Hr as (r' & [= <-] & Hr).
  injection H as H _. destruct r as [org|]; [|done]. apply query_ok in Hr as [Hr%row_ok _].
  destruct (ParseOrg (o_Settings org)) as [o|] eqn:Eo; [|done]. exists org, o. split_and!; try done.
  apply orb_true_iff in H as [H|H]; [left; by apply negb_true_iff|by right].
Qed.

Lemma membership_ok a q fn u vis w w' :
  match vis with
  | VisibilityWorkspace =>
      do! member <- or_err (fun _ => internal_error) (isWorkspaceMember fn (u_ID u));
      if (member : bool) then ret tt
      else denied a q "not a member of this function's workspace"
  | _ => ret tt
  end w = (Ok tt, w') ->
  still w w' /\ (vis = VisibilityWorkspace -> in_workspace (tbl w) fn (u_ID u)).
Proof.
  intros H. destruct vis; [|by injection H as <-|by injection H as <-].
  apply bind_run in H as (b & w1 & Hb & H). apply or_err_run, member_ok in Hb as [Hb S].
  destruct b; [|by apply denied_throws in H]. injection H as <-. split; [done|]. intros _. by apply Hb.
Qed.

Lemma authorize_ok inv q fn mv w email expose w' :
  authorize inv q fn mv w = (Ok (email, expose), w') ->
  still w w' /\ (expose = true -> identity_exposed (tbl w)) /\ exists vis, effective_visibility (tbl w) (f_OwnerType fn) (f_OwnerID fn) mv vis
  /\ admitted inv (tbl w) (now w) q fn vis email.
Proof.
  unfold authorize. intros H. apply bind_run in H as (vis & w1 & Hv & H).
  apply or_err_run, visibility_ok in Hv as [Hv S1]. pose proof S1 as [Ht Hn].
  assert (Hpub : vis = VisibilityPublic \/ vis <> VisibilityPublic) by (destruct vis; auto).
  destruct Hpub as [->|Hnp].
  { injection H as <- <- <-. split; [exact S1|]. split; [done|]. by exists VisibilityPublic. }
  assert (H' : match inv_Auth inv with
      | None => throw (ErrorJSON 403 "forbidden"
                  "this function requires authentication, which is not configured on this server")
      | Some a =>
          do! audiences <- ExtraInvokeAudiences;
          do! caller <- attempt (ResolveInvokeCaller verify a (auth_request q) audiences (f_ID fn) (q_Host q));
          match caller with
          | Err ErrInvokeForbidden => denied a q not_authorized_message
          | Err ErrUnauthenticated =>
              if wantsHTMLRedirect q then
                throw (ToLogin (if SameOriginInvokeHost a (q_Host q) then LoginURL (q_RequestURI q)
                                else InvokeLoginURL a fn (q_Host q) (q_RequestURI q)))
              else throw (BearerChallenge authentication_message)
          | Err _ => throw internal_error
          | Ok u =>
              run! match vis with
                   | VisibilityWorkspace =>
                       do! member <- or_err (fun _ => internal_error) (isWorkspaceMember fn (u_ID u));
                       if (member : bool) then ret tt
                       else denied a q "not a member of this function's workspace"
                   | _ => ret tt
                   end;
              do! expose <- callerIdentityExposed;
              ret (u_Email u, expose)
          end
      end w1 = (Ok (email, expose), w')) by (destruct vis; done).
  clear H. rename H' into H. destruct (inv_Auth inv) as [a|] eqn:Ea; [|done].
  apply bind_run in H as (audiences & w2 & Hau & H).
  assert (S2 : still w1 w2).
  { eapply preserves_at in Hau; [exact Hau|]. unfold ExtraInvokeAudiences, Organizations_Get. still. }
  apply bind_run in H as (caller & w3 & Hc & H). apply attempt_run in Hc as (r & [= <-] & Hc).
  pose proof (preserves_at _ _ _ _ _ (resolve_still a _ _ _ _) Hc) as S3.
  destruct caller as [u|e].
  2:{ exfalso. destruct e; try done; [by destruct (wantsHTMLRedirect q)|by apply denied_throws in H]. }
  apply caller_ok in Hc as (Hst & Hr & Hcred). pose proof S2 as [Ht2 Hn2].
  apply (credential_audiences _ _ _ _ (settings_audiences (tbl w1))) in Hcred.
  2:{ apply extra_audiences_ok in Hau as [->| ->]; [done|by intros ? []]. }
  rewrite Ht2, Ht in Hr. rewrite Ht2, Ht, Hn2, Hn in Hcred. apply bind_run in H as ([] & w4 & Hm & H).
  apply bind_run in H as (ex & w5 & He & H). injection H as <- <- <-.
  apply exposed_ok in He as [Hexp S5].
  apply membership_ok in Hm as [S4 Hmem].
  pose proof S3 as [Ht3 _]. pose proof S4 as [Ht4 _]. rewrite Ht3, Ht2, Ht in Hmem.
  split; [exact (still_trans _ _ _ S1 (still_trans _ _ _ S2 (still_trans _ _ _ S3 (still_trans _ _ _ S4 S5))))|split].
  { intros Hx. specialize (Hexp Hx). by rewrite Ht4, Ht3, Ht2, Ht in Hexp. }
  exists vis. split; [done|]. unfold admitted. destruct vis; [..|done];
    exists a, u; split_and!; done.
Qed.

Definition caller_header : string := "X-Funcbox-Caller-Email".

(** What the guest sees of a request's headers. *)
Lemma guest_header_spec h email expose k : header_wf h ->
  guest_header h email expose !! k
  = if (k == "Cookie") || (k == "Authorization") then None
    else if k == caller_header then
      (if negb (email == "") && expose then Some [email] else None)
    else if has_prefix k "X-Funcbox-" then None else h !! k.
Proof.
  intros Hw. unfold guest_header, stripFuncboxHeaders. set (h1 := h_Del (h_Del h "Cookie") "Authorization").
  assert (Hs : h_DelPrefix h1 "X-Funcbox-" !! k = if (k == "Cookie") || (k == "Authorization") then None
      else if has_prefix k "X-Funcbox-" then None else h !! k).
  { rewrite h_DelPrefix_lookup by (unfold h1; auto). unfold h1, h_Del.
    change (CanonicalHeaderKey "Authorization") with "Authorization".
    change (CanonicalHeaderKey "Cookie") with "Cookie".
    destruct (k == "Cookie") eqn:E1; [bool_facts; subst; simpl; by rewrite lookup_delete_ne, lookup_delete_eq|].
    destruct (k == "Authorization") eqn:E2; [bool_facts; subst; simpl; by rewrite lookup_delete_eq|].
    simpl. bool_facts. destruct (has_prefix k "X-Funcbox-"); [done|]. by rewrite !lookup_delete_ne. }
  destruct (k == caller_header) eqn:Ek.
  - apply String.eqb_eq in Ek as ->. destruct (negb (email == "") && expose).
    + apply lookup_insert_eq.
    + by rewrite Hs.
  - apply String.eqb_neq in Ek. destruct (negb (email == "") && expose); [|exact Hs].
    unfold h_Set. change (CanonicalHeaderKey "X-Funcbox-Caller-Email") with caller_header.
    rewrite lookup_insert_ne by done. exact Hs.
Qed.

(** C18. Nothing runs for a caller it is not meant for. A guest is reached only
    through the function's active version; below public visibility only with a
    credential (a general access token; an identity token that verifies, for the
    installation's client or an audience of the organization's settings; a session
    on the control host; a cookie for this very function and host) of an active
    user, a row of the users (the one with the address a bearer credential names),
    whom the login rules admit now, and at workspace visibility only for a member; and
    whatever it is sent, the guest sees neither cookies nor bearer credentials,
    and no [X-Funcbox-] header but the true address of that caller, if the
    organization exposes it. *)
Theorem invocation_authorized inv warm response q fn w s w' (Hq : header_wf (q_Header q))
    (H : serveFunction inv warm response q fn w = (Ok s, w')) :
  exists id nm vis email,
    f_ActiveVersionID fn = Some id /\ t_versions (tbl w) !! id = Some (sv_Version s)
    /\ stored_manifest (sv_Version s) = Some nm
    /\ effective_visibility (tbl w) (f_OwnerType fn) (f_OwnerID fn) (n_Visibility nm) vis
    /\ admitted inv (tbl w) (now w) q fn vis email
    /\ (forall k, q_Header (sv_Request s) !! k
         = if (k == "Cookie") || (k == "Authorization") then None
           else if k == caller_header then q_Header (sv_Request s) !! caller_header
           else if has_prefix k "X-Funcbox-" then None else q_Header q !! k)
    /\ (forall vs, q_Header (sv_Request s) !! caller_header = Some vs ->
           vs = [email] /\ email <> "" /\ identity_exposed (tbl w)).
Proof.
  unfold serveFunction in H. case_step H. destruct (f_ActiveVersionID fn) as [id|] eqn:Ev; [|done].
  apply bind_run in H as (v & w1 & Hv & H). apply or_err_run in Hv.
  pose proof (preserves_at still _ _ _ _ (still_query _) Hv) as [Ht Hn].
  apply query_ok in Hv as [Hv%row_ok _]. destruct (stored_manifest v) as [nm|] eqn:Em; [|done].
  apply bind_run in H as ([email expose] & w2 & Ha & H).
  apply authorize_ok in Ha as (_ & Hexp & vis & Hvis & Hadm). rewrite Ht in *. rewrite Hn in Hadm.
  apply bind_run in H as (p & w3 & _ & H).
  assert (Hs : sv_Version s = v /\ q_Header (sv_Request s) = guest_header (q_Header q) email expose).
  { destruct (g_aborted _).
    - by injection H as <- <-.
    - apply bind_run in H as (? & ? & _ & H). apply bind_run in H as (? & ? & _ & H). by injection H as <- <-. }
  destruct Hs as [-> ->]. exists id, nm, vis, email. split_and!; try done.
  - intros k. rewrite !guest_header_spec by done. destruct (_ || _); [done|]. by destruct (k == caller_header).
  - rewrite guest_header_spec by done. simpl. intros vs Hvs. destruct (negb (email == "") && expose) eqn:Ee; [|done]. injection Hvs as <-.
    apply andb_true_iff in Ee as [Ee Hx]. bool_facts. auto.
Qed.
End Invoke.

(** ** Witnesses *)

(** A cipher that keeps the text and remembers the key. *)
#[export] Instance clear_cipher : Cipher.
Proof.
  refine {| seal := fun key _ plain => Some (key +:+ plain);
            unseal := fun key c => if has_prefix c key then Some (trim_prefix c key) else None |}.
  intros key nonce plain c [= <-].
  assert (Hp : has_prefix (key +:+ plain) key = true) by (apply has_prefix_spec; by exists plain).
  by rewrite Hp, trim_prefix_app.
Defined.

Definition hello_normalized : Normalized :=
  mkNormalized "" "hello" "" "index.js" "" "" 0 false (mkNormalizedFetch "deny" []) [] "".
Definition hello_function : Function :=
  mkFunction "F1" OwnerTypeUser "U1" "hello" "" (Some "V1") (Some "U1") 1 1.
Definition hello_version : FunctionVersion :=
  mkFunctionVersion "V1" "F1" (json_print (JsonText := numeral_json) (normalized_json hello_normalized))
    "index.js" "h" 1 1 [] "U1" "" 1 1.

(** The sample installation with one deployed function of Alice's, whose
    visibility is the organization's default. *)
Definition serving_world : World :=
  with_tbl open_world
    (set_versions (set_functions (tbl open_world) {["F1" := hello_function]}) {["V1" := hello_version]}).

Definition sample_invoker : Invoker := mkInvoker (Some sample_auth) "k-env" 0 "".
Definition bob_token : string :=
  signAccessToken (J := numeral_json) sample_auth (mkClaims "U2" "bob@example.com" 0 900 accessTokenKind "").
Definition bob_invokes : InvokeRequest :=
  mkInvokeRequest "GET" "hello.fn.example" "/" "/" 0
    (h_Set (h_Set (h_Set ∅ "Authorization" ("Bearer " +:+ bob_token)) "Cookie" "a=b")
       caller_header "root@example.com").
Definition greet (p : unit) (q : InvokeRequest) (timeout : Z) : GuestRun :=
  mkGuestRun [WriteHeader 200; Write "hi"] false empty_capture 0.

Abbreviation sample_invocation :=
  (serveFunction (U := ascii_tables) (J := numeral_json) (I := unary_ids) (A := sample_codec)
     (C := clear_cipher) (fun _ => None) (fun _ => None) greet sample_invoker {["V1" := tt]} ∅
     bob_invokes hello_function serving_world).

Definition no_served : Served :=
  mkServed hello_version bob_invokes 0 (new_iw new_writer) (greet tt bob_invokes 0) true.

Lemma sample_invocation_ok : exists s w', sample_invocation = (Ok s, w').
Proof.
  exists (ok_or no_served sample_invocation.1), sample_invocation.2. apply ok_or_run. vm_compute. reflexivity.
Qed.

#[local] Opaque sha256 hmac_sha256 b64_encode hex.

Lemma invocation_authorized_witness :
  exists vis email,
    effective_visibility (U := ascii_tables) (J := numeral_json) (tbl serving_world) OwnerTypeUser "U1" "" vis
    /\ admitted (U := ascii_tables) (J := numeral_json) (fun _ => None) sample_invoker (tbl serving_world)
         (now serving_world) bob_invokes hello_function vis email.
Proof.
  destruct sample_invocation_ok as (s & w' & Hrun).
  destruct (invocation_authorized (U := ascii_tables) (J := numeral_json) (I := unary_ids)
    (A := sample_codec) (C := clear_cipher) (fun _ => None) (fun _ => None) greet sample_invoker
    {["V1" := tt]} ∅ bob_invokes hello_function serving_world _ _
    (header_wf_set _ _ _ (header_wf_set _ _ _ (header_wf_set _ _ _ header_wf_empty)))
    Hrun) as (id & nm & vis & email & Hid & Hv & Hm & Hvis & Hadm & _).
  injection Hid as <-.
  assert (Hv2 : t_versions (tbl serving_world) !! "V1" = Some hello_version) by reflexivity.
  rewrite Hv2 in Hv. injection Hv as Hv.
  assert (Hm2 : stored_manifest (U := ascii_tables) (J := numeral_json) hello_version = Some hello_normalized)
    by (vm_compute; reflexivity).
  rewrite <- Hv, Hm2 in Hm. injection Hm as Hm. rewrite <- Hm in Hvis.
  exact (ex_intro _ vis (ex_intro _ email (conj Hvis Hadm))).
Defined.
