(* ===== verification/Serving.v ===== *)
(** * Serving: what was deployed is what runs

    The composition of service/deploy.go, the store and invoke/pool.go: the
    manifest a deployment stores decodes to itself, and the pool built for the
    version a deployment activated holds the uploaded files, their entry point
    and the fetch policy of their manifest. *)

From S2P Require Import Prelude GoNum GoHTTP Policy Capture Manifest Bundle Types Authz Settings Store.
From S2P Require Import StoreNames Digest Service Deploy Tokens Sessions InvokeSSO Effective Invoke.

Section Serving.
Context {U : UnicodeTables} {F : FloatToInt} {Y : YamlDecoder} {A : ArchiveCodec} {J : JsonText}
  {I : IdGen} {C : Cipher}.

#[local] Opaque opt_str opt_int opt_strs.

(** ** The stored manifest *)

Definition fetch_doc (f : NormalizedFetch) : json :=
  JObj ([("mode", JStr (n_Mode f))] ++ opt_strs "allow" (n_Allow f)).

Lemma dec_nfetch_doc f :
  dec_object dec_nfetch (mkNormalizedFetch "" []) (fetch_doc f) = Some f.
Proof.
  unfold fetch_doc. cbn [dec_object]. unfold dec_nfetch. fields. cbn [dec_string]. fields.
  unfold or_strs. destruct f as [m l]. cbn. by destruct l.
Qed.

Definition normalized_fields (n : Normalized) : list (string * json) :=
  match normalized_json n with JObj kvs => kvs | _ => [] end.

Lemma normalized_strings n :
  field "source" dec_string "" (normalized_fields n) = Some (n_Source n)
  /\ field "name" dec_string "" (normalized_fields n) = Some (n_Name n)
  /\ field "owner" dec_string "" (normalized_fields n) = Some (n_Owner n)
  /\ field "main" dec_string "" (normalized_fields n) = Some (n_Main n)
  /\ field "description" dec_string "" (normalized_fields n) = Some (n_Description n)
  /\ field "timeout" dec_string "" (normalized_fields n) = Some (n_Timeout n)
  /\ field "visibility" dec_string "" (normalized_fields n) = Some (n_Visibility n).
Proof.
  assert (Ho : forall s, or_str "" s = s)
    by (intros s; unfold or_str; destruct (s == "") eqn:E; bool_facts; congruence).
  unfold normalized_fields, normalized_json. split_and!; fields; cbn [dec_string]; fields; by rewrite ?Ho.
Qed.

Lemma normalized_others n : int64 (n_Memory n) ->
  field "memory" dec_int 0 (normalized_fields n) = Some (n_Memory n)
  /\ field "env" dec_strings [] (normalized_fields n) = Some (n_Env n)
  /\ field "compat" (dec_object dec_compat) false (normalized_fields n) = Some (n_Nodejs n)
  /\ field "permissions" (dec_object dec_permissions) (mkNormalizedFetch "" []) (normalized_fields n)
     = Some (n_Fetch n).
Proof.
  intros Hm. unfold normalized_fields, normalized_json. split_and!; fields.
  - unfold or_int. destruct (n_Memory n =? 0) eqn:E; bool_facts; congruence.
  - unfold or_strs. by destruct (n_Env n).
  - cbn [dec_object]. unfold dec_compat. fields. cbn [dec_bool]. by fields.
  - cbn [dec_object]. unfold dec_permissions. fields.
    pose proof (dec_nfetch_doc (n_Fetch n)) as H. unfold fetch_doc in H. rewrite H. cbn beta iota. fields. by fields.
Qed.

Lemma normalized_roundtrip n :
  int64 (n_Memory n) -> json_ok (normalized_json n) = true ->
  match json_parse (json_print (normalized_json n)) with
  | Some j => dec_object dec_normalized zero_normalized j
  | None => None
  end = Some n.
Proof.
  intros Hm Hok. rewrite json_parse_print by done.
  change (normalized_json n) with (JObj (normalized_fields n)). cbn [dec_object].
  unfold dec_normalized, zero_normalized.
  cbn [n_Source n_Name n_Owner n_Main n_Description n_Timeout n_Memory n_Nodejs n_Fetch n_Env n_Visibility].
  destruct (normalized_strings n) as (-> & -> & -> & -> & -> & -> & ->).
  destruct (normalized_others n Hm) as (-> & -> & -> & ->). by destruct n.
Qed.

(** ** The fetch policy of a parsed manifest survives storage *)

Lemma parsed_text s p : ParsePattern s = Ok p -> Pattern_String p = s.
Proof.
  unfold ParsePattern. intros H. case_step H. apply rbind_ok in H as ([h n] & _ & H).
  repeat case_step H; by injection H as <-.
Qed.

Lemma reparse_patterns ss ps :
  Forall2 (fun s p => ParsePattern s = Ok p) ss ps -> settings_patterns (patternStrings ps) = Ok ps.
Proof.
  unfold patternStrings. induction 1 as [|s p ss ps Hp _ IH]; [done|]. cbn [map settings_patterns].
  rewrite (parsed_text s p Hp), Hp. by rewrite IH.
Qed.

Lemma ParseFetchMode_String m : ParseFetchMode (FetchMode_String m) = Some m.
Proof. by destruct m. Qed.

(** The patterns of a manifest are parsed ones. *)
Definition parsed_permissions (m : Manifest) : Prop :=
  exists ss, Forall2 (fun s p => ParsePattern s = Ok p) ss (fetch_allow (Fetch (m_Permissions m))).

Lemma Parse_permissions files m : Parse files = Ok m -> parsed_permissions m.
Proof.
  unfold Parse. intros H. destruct (findManifestFile files) as [[name data]|].
  - destruct (yaml_unmarshal data) as [rw|]; [|done]. apply rbind_ok in H as (m0 & H0 & H).
    injection H as <-. apply buildManifest_typed in H0 as [_ _ _ Ha _ _]. by exists (r_fetch_Allow rw).
  - injection H as <-. exists []. constructor.
Qed.

Lemma checks_permissions p org m files :
  deploy_checks p org = Ok (m, files) ->
  parsed_permissions m /\ exists m0, Parse files = Ok m0 /\ m_Permissions m = m_Permissions m0
  /\ m_Compat m = m_Compat m0 /\ Env m = Env m0 /\ Memory m = Memory m0.
Proof.
  unfold deploy_checks. intros H. apply rbind_ok in H as (fs & _ & H).
  apply rbind_ok in H as (m0 & Hp & H). apply map_err_ok in Hp.
  apply rbind_ok in H as (name & _ & H). apply rbind_ok in H as ([] & _ & H).
  apply rbind_ok in H as ([] & _ & H). apply rbind_ok in H as (main & _ & H).
  apply rbind_ok in H as ([] & _ & H). injection H as <- <-.
  split; [by apply (Parse_permissions fs m0)|]. exists m0. by split_and!.
Qed.

Lemma stored_policy m : parsed_permissions m ->
  buildFetchPolicy (n_Fetch (Manifest_Normalized m)) = Ok (FetchPermission_FetchPolicy (Fetch (m_Permissions m))).
Proof.
  intros (ss & H). unfold buildFetchPolicy. cbn [Manifest_Normalized n_Fetch n_Mode n_Allow].
  rewrite ParseFetchMode_String. by rewrite (reparse_patterns _ _ H).
Qed.

(** ** The pool of a version *)

Definition node_allowed (t : Tables) : bool :=
  match t_organization t with
  | Some o => match ParseOrg (o_Settings o) with Ok s => AllowNodejsCompat s | Err _ => false end
  | None => false
  end.

Definition env_rows (t : Tables) (fid : string) : list (string * string) :=
  map (fun e => (e_Key e, e_ValueEnc e)) (rows (fun e => e_FunctionID e == fid) (t_env t)).

Lemma run_bind {E B D} (m : M E B) (k : B -> M E D) w b :
  m w = (Ok b, w) -> bind m k w = k b w.
Proof. intros H. unfold bind. by rewrite H. Qed.

Lemma Blob_Get_plain key data w :
  faults w = [] -> blobs w !! key = Some data -> Blob_Get key w = (Ok data, w).
Proof. intros Hf Hb. unfold Blob_Get. rewrite Hf, Hb. cbn. by destruct w as [????? []]. Qed.

Lemma node_plain b w : faults w = [] ->
  (if (b : bool) then orgAllowsNodejsCompat else ret (E := BuildErr) false) w = (Ok (b && node_allowed (tbl w)), w).
Proof.
  intros Hf. destruct b; [|done]. unfold orgAllowsNodejsCompat, node_allowed, bind, attempt, Organizations_Get.
  rewrite query_plain by done. destruct (t_organization (tbl w)) as [o|]; cbn; [|done].
  by destruct (ParseOrg (o_Settings o)).
Qed.

Lemma env_plain fid declared key env w :
  faults w = [] -> declared = [] \/ key <> "" ->
  decrypt_declared key (env_rows (tbl w) fid) declared = Ok env ->
  buildEnv fid declared key w = (Ok env, w).
Proof.
  intros Hf Hk Hd. unfold buildEnv. destruct declared as [|d ds]; [by injection Hd as <-|].
  destruct Hk as [|Hk]; [done|]. rewrite (proj2 (String.eqb_neq _ _) Hk).
  unfold bind, or_err, Functions_ListEnv. rewrite query_plain by done. cbn [map_err].
  unfold lift. fold (env_rows (tbl w) fid). by rewrite Hd.
Qed.

(** C19. What was deployed is what runs. After a successful deployment, whenever
    the pool of the function's active version is built (the store answering and
    the declared variables decrypting), it is built from exactly the uploaded
    files, started at their entry point, confined by the fetch policy that the
    uploaded manifest parses to, with the Node.js layer only if manifest and
    organization both allow it, and with the variables the manifest declares. *)
Theorem deployed_code_runs d p w x w' inv
    (Hok : names_ok (tbl w)) (Hreal : dp_DryRun p = false) (H : Deploy d p w = (Ok x, w'))
    (Hquiet : faults w' = []) :
  exists files m0 m f v ot oid,
    Unpack (dp_Bundle p) = Ok files /\ Parse files = Ok m0
    /\ owner_of (tbl w) (dp_Owner p) = Some (ot, oid)
    /\ (exists g, t_functions (tbl w') !! f_ID f = Some g /\ f_ActiveVersionID g = Some (v_ID v))
    /\ t_versions (tbl w') !! v_ID v = Some v
    /\ dr_Function x = Some f /\ dr_Manifest x = Manifest_Normalized m
    /\ forall env,
         json_ok (normalized_json (Manifest_Normalized m)) = true ->
         match Memory m0 with Some n => int64 n | None => True end ->
         (Env m0 = [] \/ inv_EnvKey inv <> "") ->
         decrypt_declared (inv_EnvKey inv) (env_rows (tbl w') (f_ID f)) (Env m0) = Ok env ->
         exists cfg, pool_config inv v ot oid w' = (Ok cfg, w')
         /\ pc_Files cfg = files /\ is_Some (files !! pc_Entry cfg)
         /\ pc_Fetch cfg = FetchPermission_FetchPolicy (Fetch (m_Permissions m0))
         /\ pc_NodeCompat cfg = Nodejs (m_Compat m0) && node_allowed (tbl w')
         /\ pc_Env cfg = env /\ pc_Version cfg = v_ID v.
Proof.
  apply Deploy_run in H as [[_ Hx]|(actor & ot & oid & org & m & files & packed & w1 & (Ht & _ & _)
    & _ & _ & Ho & _ & _ & Hch & Hp & Hc)].
  { destruct (Hx x eq_refl). congruence. }
  apply commit_outcome in Hc as (_ & _ & f & v & -> & Hs); [|by rewrite Ht].
  pose proof (checks_permissions _ _ _ _ Hch) as (Hperm & m0 & Hparse & Hpm & Hcm & Henv & Hmem).
  apply deploy_checks_ok in Hch as (Hu & _ & _ & Hmain & _).
  assert (Hpack : Unpack packed = Ok files)
    by (eapply repacked_loads; [exact Hu|unfold ranges; reflexivity|exact Hp]).
  destruct Hs as [(g & Hg & Hact & _) _ _ [Hver _] (Hfid & Hv & _ & Hman & Hhash) Hblob _].
  exists files, m0, m, f, v, ot, oid. split_and!; try done; [by exists g|].
  intros env Hjson Hmem64 Hkey Hdec.
  assert (Hst : stored_manifest v = Some (Manifest_Normalized m)).
  { unfold stored_manifest. rewrite Hman. apply normalized_roundtrip; [|done]. simpl. rewrite Hmem.
    destruct (Memory m0); [done|]. unfold int64, min_int64, max_int64. lia. }
  eexists. split.
  - unfold pool_config. rewrite Hst. erewrite run_bind
      by (unfold or_err; erewrite Blob_Get_plain by done; reflexivity).
    rewrite (run_bind _ _ _ files) by (unfold lift; by rewrite Hpack).
    erewrite run_bind by by apply node_plain.
    rewrite (run_bind _ _ _ (FetchPermission_FetchPolicy (Fetch (m_Permissions m))))
      by (unfold lift; by rewrite stored_policy).
    erewrite run_bind; [reflexivity|]. apply env_plain; [done|cbn; by rewrite Henv|].
    cbn. rewrite Hfid, Henv. exact Hdec.
  - cbn. rewrite Hpm, Hcm, Hv. split_and!; done.
Qed.
End Serving.

(** ** Witnesses *)

Abbreviation hello_deployed :=
  (Deploy (U := ascii_tables) (F := amd64_float_to_int) (Y := one_doc_decoder) (A := sample_codec)
     (J := numeral_json) (I := unary_ids) (mkDeployer true) (hello_params false "bob") sample_world).

Lemma hello_deployed_ok :
  exists x w', hello_deployed = (Ok x, w') /\ faults w' = []
  /\ json_ok (normalized_json (dr_Manifest x)) = true.
Proof.
  destruct hello_deployed as [[x|e] w'] eqn:E.
  - exists x, w'. split; [done|]. split.
    + transitivity (faults hello_deployed.2); [by rewrite E|vm_compute; reflexivity].
    + transitivity (match hello_deployed.1 with
                    | Ok x => json_ok (normalized_json (dr_Manifest x))
                    | Err _ => false
                    end); [by rewrite E|vm_compute; reflexivity].
  - exfalso. apply (f_equal (fun r => is_ok r.1)) in E. vm_compute in E. discriminate.
Qed.

(** The files the sample archive holds, and their manifest. *)
Lemma hello_upload : exists files m0,
  Unpack (A := sample_codec) "gz" = Ok files /\ Parse (U := ascii_tables) (F := amd64_float_to_int) (Y := one_doc_decoder) files = Ok m0
  /\ match Memory m0 with Some n => int64 n | None => True end /\ Env m0 = [].
Proof.
  eexists _, _. split; [vm_compute; reflexivity|]. split; [vm_compute; reflexivity|].
  split; [|reflexivity]. cbn. unfold int64, min_int64, max_int64; lia || exact I.
Qed.

Lemma deployed_code_runs_witness :
  exists cfg w', (exists v ot oid, (pool_config (U := ascii_tables) (J := numeral_json) (A := sample_codec)
       (C := clear_cipher) sample_invoker v ot oid w').1 = Ok cfg)
  /\ is_Some (pc_Files cfg !! pc_Entry cfg) /\ pc_Env cfg = [].
Proof.
  destruct hello_deployed_ok as (x & w' & Hrun & Hq & Hj).
  destruct (deployed_code_runs (U := ascii_tables) (F := amd64_float_to_int) (Y := one_doc_decoder)
    (A := sample_codec) (J := numeral_json) (I := unary_ids) (C := clear_cipher) (mkDeployer true)
    (hello_params false "bob") sample_world x w' sample_invoker sample_names eq_refl Hrun Hq)
    as (files & m0 & m & f & v & ot & oid & Hu & Hp & _ & _ & _ & _ & Hm & Hrest).
  destruct hello_upload as (files' & m0' & Hu' & Hp' & Hmem & Henv).
  cbn [dp_Bundle hello_params] in Hu. rewrite Hu' in Hu. injection Hu as Hu. subst files'.
  rewrite Hp' in Hp. injection Hp as Hp. subst m0'. rewrite Hm in Hj.
  destruct (Hrest [] Hj) as (cfg & Hcfg & Hfiles & Hentry & _ & _ & Henv' & _).
  - exact Hmem.
  - by left.
  - by rewrite Henv.
  - exists cfg, w'. split; [exists v, ot, oid; by rewrite Hcfg|]. split; [by rewrite Hfiles|done].
Defined.
