(* ===== verification/Maintenance.v ===== *)
(** * Maintenance: garbage collection of bundles and the retention sweeps

    [cmd/funcbox-server/gc.go]: the store is scanned for the bundles any version
    references, the blob store is listed, and what is not referenced is deleted;
    [cleanup.go]: the sweeps that delete old invocation logs, unused OAuth
    clients and expired codes; and [internal/blob/blob.go]'s keys. The phases of
    a collection are operations of their own, since a server may be at work
    between them. *)

From stdpp Require Import sorting.
From S2P Require Import Prelude Manifest Bundle Types Settings Store StoreNames StoreCreds.
From S2P Require Import GoNum Digest Service Deploy Tokens Sessions Invoke Serving.

(** ** blob.go *)

Definition isValidKeyRune (c : ascii) : bool :=
  is_lower c || is_upper c || is_digit c || (c =? "_")%char || (c =? ".")%char || (c =? "-")%char.

(** Which rule a key breaks. *)
Inductive KeyErr := KeyEmpty | KeyAbsolute | KeyEmptySegment | KeyDots | KeyCharacter.

Fixpoint validate_segments (segs : list string) : result KeyErr unit :=
  match segs with
  | [] => Ok tt
  | seg :: rest =>
      if seg == "" then Err KeyEmptySegment
      else if (seg == ".") || (seg == "..") then Err KeyDots
      else if negb (str_forallb isValidKeyRune seg) then Err KeyCharacter
      else validate_segments rest
  end.

Definition ValidateKey (key : string) : result KeyErr unit :=
  if key == "" then Err KeyEmpty
  else if has_prefix key "/" then Err KeyAbsolute
  else validate_segments (split_byte key "/").

(** ** The blob operations of a collection *)

Definition tick (w : World) : World :=
  mkWorld (tbl w) (blobs w) (invalidated w) (now w) (ids w) (List.tl (faults w)).
Definition with_blobs (w : World) (b : gmap string string) : World :=
  mkWorld (tbl w) b (invalidated w) (now w) (ids w) (faults w).

(** [Lister.List]: the stored keys with a prefix. *)
Definition Blob_List (prefix : string) : M StoreErr (list string) :=
  fun w => match faults w with
           | true :: _ => (Err ErrBackend, tick w)
           | _ => (Ok (List.filter (fun k => has_prefix k prefix) (map fst (map_to_list (blobs w)))), tick w)
           end.

(** [Store.Delete]: deleting an absent key is no error. *)
Definition Blob_Delete (key : string) : M StoreErr unit :=
  fun w => match faults w with
           | true :: _ => (Err ErrBackend, tick w)
           | _ => (Ok tt, tick (with_blobs w (delete key (blobs w))))
           end.

(** ** gc.go *)

Section Collect.
Context {U : UnicodeTables} {J : JsonText} {I : IdGen}.

Fixpoint reference_versions (versions : list FunctionVersion) (referenced : gset string) : gset string :=
  match versions with
  | [] => referenced
  | v :: rest => reference_versions rest ({[BundleBlobKey (v_BundleHash v)]} ∪ referenced)
  end.

Fixpoint reference_functions (fns : list Function) (referenced : gset string) : M StoreErr (gset string) :=
  match fns with
  | [] => ret referenced
  | fn :: rest =>
      do! versions <- Functions_ListVersions (f_ID fn) 0;
      reference_functions rest (reference_versions versions referenced)
  end.

Definition referencedBundleKeys : M StoreErr (gset string) :=
  do! fns <- Functions_ListAll;
  reference_functions fns ∅.

(** Listing: what is stored and not referenced, sorted. *)
Definition gc_unreferenced (referenced : gset string) : M StoreErr (list string) :=
  do! keys <- Blob_List "bundles/sha256/";
  ret (merge_sort str_le (List.filter (fun k => negb (bool_decide (k ∈ referenced))) keys)).

(** Deleting: a failure is logged and counted, and the rest goes on. *)
Fixpoint gc_delete (keys : list string) : M StoreErr Z :=
  match keys with
  | [] => ret 0
  | key :: rest =>
      do! r <- attempt (Blob_Delete key);
      do! failed <- gc_delete rest;
      ret (if is_ok r then failed else failed + 1)
  end.

Inductive GCReport := NothingToCollect | DryRun (keys : list string) | Collected (keys : list string) (failed : Z).

(** [runGC]: with failed deletions the command reports an error; the count is in
    the report. *)
Definition runGC (apply : bool) : M StoreErr GCReport :=
  do! referenced <- referencedBundleKeys;
  do! unreferenced <- gc_unreferenced referenced;
  match unreferenced with
  | [] => ret NothingToCollect
  | _ =>
      if negb apply then ret (DryRun unreferenced)
      else
        do! failed <- gc_delete unreferenced;
        ret (Collected unreferenced failed)
  end.

(** ** cleanup.go *)

Definition oauthClientUnusedTTL : Z := 30 * 24 * Hour.

Definition logRetentionDays : M StoreErr Z :=
  do! r <- attempt Organizations_Get;
  ret (match r with
       | Err _ => DefaultLogRetentionDays
       | Ok org =>
           match ParseOrg (o_Settings org) with
           | Err _ => DefaultLogRetentionDays
           | Ok s => if LogRetentionDays s <=? 0 then DefaultLogRetentionDays else LogRetentionDays s
           end
       end).

(** [time.Now().Add(-time.Duration(retention) * 24 * time.Hour)], in 64 bits. *)
Definition retention_cutoff (n : Time) (retention : Z) : Time :=
  n + wrap64 (wrap64 (wrap64 (- retention) * 24) * Hour).

(** One sweep of [runLogRetention], and one of [runOAuthCleanup]; their errors
    are logged. *)
Definition sweep_logs : M StoreErr unit :=
  do! retention <- logRetentionDays;
  do! n <- time_Now;
  run! attempt (InvocationLogs_DeleteOlderThan (retention_cutoff n retention));
  ret tt.

Definition sweep_oauth : M StoreErr unit :=
  do! n <- time_Now;
  run! attempt (OAuthClients_DeleteUnusedOlderThan (n - oauthClientUnusedTTL));
  run! attempt (OAuthAuthCodes_DeleteExpired n);
  ret tt.
End Collect.

(** ** Bundle keys *)

Lemma str_split_cons_sep s t c : str_forallb (fun d => negb (d =? c)%char) s = true ->
  split_byte (s +:+ String c t) c = s :: split_byte t c.
Proof.
  induction s as [|d s IH]; simpl; [by rewrite Ascii.eqb_refl|]. intros H. bool_facts.
  by rewrite (IH H0), H.
Qed.

(** What a valid key guarantees every backend: no segment leads out of the root. *)
Definition confined_key (key : string) : Prop :=
  Forall (fun seg => seg <> "" /\ seg <> "." /\ seg <> ".." /\ str_forallb isValidKeyRune seg = true)
    (split_byte key "/").

Lemma validate_segments_spec segs :
  validate_segments segs = Ok tt <->
  Forall (fun seg => seg <> "" /\ seg <> "." /\ seg <> ".." /\ str_forallb isValidKeyRune seg = true) segs.
Proof.
  induction segs as [|seg segs IH]; simpl; [by split|]. rewrite Forall_cons, <- IH.
  destruct (seg == "") eqn:E1; bool_facts; [naive_solver|].
  destruct ((seg == ".") || (seg == "..")) eqn:E2; bool_facts.
  - split; [done|]. destruct E2 as [E2|E2]; bool_facts; naive_solver.
  - destruct (str_forallb isValidKeyRune seg) eqn:E3; simpl; naive_solver.
Qed.

Lemma ValidateKey_spec key : ValidateKey key = Ok tt <-> confined_key key.
Proof.
  unfold ValidateKey, confined_key. rewrite <- validate_segments_spec.
  destruct (key == "") eqn:E; bool_facts; [by subst|].
  destruct (has_prefix key "/") eqn:E2; [|done].
  apply has_prefix_spec in E2 as [r ->]. simpl. done.
Qed.

(** ** What the scan finds *)

Section CollectFacts.
Context {U : UnicodeTables} {J : JsonText} {I : IdGen}.

Definition bundle_key (v : FunctionVersion) : string := BundleBlobKey (v_BundleHash v).

Lemma reference_versions_spec vs acc k :
  k ∈ reference_versions vs acc <-> k ∈ acc \/ exists v, v ∈ vs /\ k = bundle_key v.
Proof.
  revert acc. induction vs as [|v vs IH]; intros acc; simpl.
  - split; [by left|]. intros [H|(v & Hv & _)]; [done|by apply elem_of_nil in Hv].
  - rewrite IH, elem_of_union, elem_of_singleton. setoid_rewrite elem_of_cons. naive_solver.
Qed.

(** A version is referenced when its function's row exists. *)
Definition referenced_in (t : Tables) (k : string) : Prop :=
  exists v, (exists id, t_versions t !! id = Some v)
    /\ (exists id f, t_functions t !! id = Some f /\ f_ID f = v_FunctionID v) /\ k = bundle_key v.

Lemma reference_functions_ok fns : forall acc w refs w',
  reference_functions fns acc w = (Ok refs, w') ->
  unchanged w w' /\ forall k, k ∈ refs <->
    k ∈ acc \/ exists f v, f ∈ fns /\ (exists id, t_versions (tbl w) !! id = Some v)
                 /\ v_FunctionID v = f_ID f /\ k = bundle_key v.
Proof.
  induction fns as [|fn fns IH]; intros acc w refs w' H; simpl in H.
  { injection H as <- <-. split; [done|]. intros k. split; [by left|].
    intros [Hk|(f & v & Hf & _)]; [done|by apply elem_of_nil in Hf]. }
  apply bind_run in H as (vs & w1 & Hv & H). apply IH in H as [Hu Hk].
  apply query_run in Hv as [Hu1 [Hv|?]]; [|done]. injection Hv as ->.
  split; [by etrans|]. intros k. rewrite Hk, reference_versions_spec.
  destruct Hu1 as (-> & _ & _). setoid_rewrite elem_of_cons. unfold at_most. simpl.
  assert (forall v, v ∈ merge_sort newer (rows (fun v => v_FunctionID v == f_ID fn) (t_versions (tbl w)))
    <-> v_FunctionID v = f_ID fn /\ exists id, t_versions (tbl w) !! id = Some v) as Hrows.
  { intros v. rewrite merge_sort_Permutation, elem_of_rows, String.eqb_eq. done. }
  setoid_rewrite Hrows. naive_solver.
Qed.

Lemma scan_ok w refs w' : referencedBundleKeys w = (Ok refs, w') ->
  unchanged w w' /\ forall k, k ∈ refs <-> referenced_in (tbl w) k.
Proof.
  unfold referencedBundleKeys. intros H. apply bind_run in H as (fns & w1 & Hf & H).
  apply query_run in Hf as [Hu1 [Hf|?]]; [|done]. injection Hf as ->.
  apply reference_functions_ok in H as [Hu Hk]. split; [by etrans|].
  intros k. rewrite Hk. destruct Hu1 as (-> & _ & _). unfold referenced_in, order_by.
  setoid_rewrite merge_sort_Permutation. setoid_rewrite elem_of_rows. set_solver.
Qed.

Lemma list_ok refs w dead w' : gc_unreferenced refs w = (Ok dead, w') ->
  unchanged w w'
  /\ forall k, k ∈ dead <-> has_prefix k "bundles/sha256/" = true /\ is_Some (blobs w !! k) /\ k ∉ refs.
Proof.
  unfold gc_unreferenced. intros H. apply bind_run in H as (keys & w1 & Hk & H). injection H as <- <-.
  assert (keys = List.filter (fun k => has_prefix k "bundles/sha256/") (map fst (map_to_list (blobs w)))
    /\ w1 = tick w) as [-> ->].
  { unfold Blob_List in Hk. destruct (faults w) as [|[] fs]; by simplify_eq. }
  split; [done|]. intros k.
  rewrite merge_sort_Permutation, !list_elem_of_In, !filter_In, negb_true_iff, bool_decide_eq_false.
  rewrite <- list_elem_of_In, list_elem_of_fmap. unfold is_Some.
  assert ((exists y : string * string, k = y.1 /\ y ∈ map_to_list (blobs w))
    <-> exists x, blobs w !! k = Some x) as ->; [|naive_solver].
  split; [intros ([? x] & -> & Hx); apply elem_of_map_to_list in Hx; by exists x|].
  intros [x Hx]. exists (k, x). by rewrite elem_of_map_to_list.
Qed.

(** Deleting never fails as a whole, touches nothing but the listed keys, and
    without a failure removes them all. *)
Lemma delete_spec keys : forall w, exists failed w',
  gc_delete keys w = (Ok failed, w') /\ 0 <= failed /\ tbl w' = tbl w
  /\ (forall k, k ∉ keys -> blobs w' !! k = blobs w !! k)
  /\ (forall k, blobs w' !! k = blobs w !! k \/ blobs w' !! k = None)
  /\ (failed = 0 -> forall k, k ∈ keys -> blobs w' !! k = None).
Proof.
  induction keys as [|key keys IH]; intros w; simpl.
  { exists 0, w. split_and!; try done; [by left|]. intros _ k Hk. by apply elem_of_nil in Hk. }
  assert (exists r w1, attempt (F := StoreErr) (Blob_Delete key) w = (Ok r, w1) /\ tbl w1 = tbl w
    /\ ((r = Ok tt /\ blobs w1 = delete key (blobs w)) \/ (is_ok r = false /\ blobs w1 = blobs w)))
    as (r & w1 & Hr & Ht & Hb).
  { unfold attempt, Blob_Delete. destruct (faults w) as [|[] fs];
      eexists _, _; (split; [reflexivity|]); split; try done; eauto. }
  destruct (IH w1) as (failed & w' & Hd & Hge & Ht' & Hout & Hany & Hall).
  exists (if is_ok r then failed else failed + 1), w'. split.
  { unfold bind at 1. rewrite Hr. unfold bind. by rewrite Hd. }
  split; [by destruct (is_ok r); lia|]. split; [congruence|]. split_and!.
  - intros k [Hne Hk]%not_elem_of_cons. rewrite Hout by done.
    destruct Hb as [[_ ->]|[_ ->]]; [by rewrite lookup_delete_ne|done].
  - intros k. destruct (Hany k) as [->| ->]; [|by right].
    destruct Hb as [[_ ->]|[_ ->]]; [|by left].
    destruct (decide (key = k)) as [->|]; [right; apply lookup_delete_eq|left; by rewrite lookup_delete_ne].
  - intros Hz k Hk. destruct Hb as [[-> Hb]|[Hb _]]; [|rewrite Hb in Hz; lia]. simpl in Hz.
    apply elem_of_cons in Hk as [->|Hk]; [|by apply Hall].
    destruct (Hany key) as [E|E]; [|done]. by rewrite E, Hb, lookup_delete_eq.
Qed.

(** C20. A collection with nobody else at work is exact: it never changes the
    tables; a bundle some version of an existing function references is kept,
    with its contents, whether or not the version is active and whatever fails;
    only stored bundles that no version references are deleted, and all of them
    are when no deletion fails; and a dry run deletes nothing. *)
Theorem gc_exact apply w rep w' (H : runGC apply w = (Ok rep, w')) :
  tbl w' = tbl w
  /\ (forall k, referenced_in (tbl w) k -> blobs w' !! k = blobs w !! k)
  /\ (forall k, blobs w' !! k <> blobs w !! k ->
        apply = true /\ blobs w' !! k = None /\ has_prefix k "bundles/sha256/" = true)
  /\ (rep = NothingToCollect \/ (exists dead, rep = Collected dead 0) ->
        forall k, has_prefix k "bundles/sha256/" = true -> is_Some (blobs w' !! k) ->
        referenced_in (tbl w) k)
  /\ (apply = false -> blobs w' = blobs w).
Proof.
  unfold runGC in H. apply bind_run in H as (refs & w1 & Hs & H). apply scan_ok in Hs as [(Ht1 & Hb1 & _) Hr].
  apply bind_run in H as (dead & w2 & Hl & H). apply list_ok in Hl as [(Ht2 & Hb2 & _) Hd].
  rewrite Hb1 in Hd. setoid_rewrite Hr in Hd.
  assert (dead = [] \/ apply = false -> tbl w' = tbl w /\ blobs w' = blobs w) as Hsame.
  { intros Hc. assert (w' = w2) as ->; [|split; congruence].
    destruct dead as [|k dead]; [by injection H as _ <-|]. destruct Hc as [?| ->]; [done|]. by injection H as _ <-. }
  assert (dead = [] -> forall k, has_prefix k "bundles/sha256/" = true -> is_Some (blobs w !! k) ->
    ~ ~ referenced_in (tbl w) k) as Hnone.
  { intros -> k Hp Hk Hn. by apply (not_elem_of_nil k), Hd. }
  assert (forall k, referenced_in (tbl w) k \/ ~ referenced_in (tbl w) k) as Hdec.
  { intros k. rewrite <- Hr. destruct (decide (k ∈ refs)); auto. }
  destruct (decide (dead = [])) as [->|Hne].
  - destruct (Hsame (or_introl eq_refl)) as [-> ->]. split_and!; try done.
    intros _ k Hp Hk. destruct (Hdec k) as [?|Hn]; [done|]. by destruct (Hnone eq_refl k Hp Hk).
  - assert (forall X : M StoreErr GCReport, match dead with [] => ret NothingToCollect | _ => X end = X) as HX
      by (intros X; by destruct dead).
    rewrite HX in H. destruct apply; simpl in H.
    2: { destruct (Hsame (or_intror eq_refl)) as [-> ->]. injection H as <- _. split_and!; try done.
         intros [?|[? ?]]; done. }
    apply bind_run in H as (failed & w3 & Hdel & H).
    injection H as <- <-. destruct (delete_spec dead w2) as (n & w4 & Hdel' & _ & Ht & Hout & Hany & Hall).
    rewrite Hdel' in Hdel. injection Hdel as <- <-. rewrite Hb2, Hb1 in Hout, Hany.
    split; [congruence|]. split_and!.
    + intros k Hk. apply Hout. rewrite Hd. naive_solver.
    + intros k Hk. split; [done|]. destruct (Hany k) as [?|Hn]; [done|]. split; [done|].
      destruct (decide (k ∈ dead)) as [Hin|Hin]; [by apply Hd in Hin as [? _]|]. by rewrite Hout in Hk.
    + intros [?|[? [= _ ->]]] k Hp Hk; [done|]. destruct (Hdec k) as [?|Hn]; [done|]. exfalso.
      assert (is_Some (blobs w !! k)) as Hk'.
      { destruct (Hany k) as [<-|E]; [done|]. rewrite E in Hk. by destruct Hk. }
      rewrite (Hall eq_refl k) in Hk; [by destruct Hk|]. by apply Hd.
    + done.
Qed.
End CollectFacts.

(** ** A collection beside a deployment *)

Section Race.
Context {U : UnicodeTables} {F : FloatToInt} {Y : YamlDecoder} {A : ArchiveCodec} {J : JsonText}
  {I : IdGen} {C : Cipher}.

Lemma bundle_key_prefix h : has_prefix (BundleBlobKey h) "bundles/sha256/" = true.
Proof. apply has_prefix_spec. eexists. reflexivity. Qed.

(** What a real deployment that succeeds leaves behind. *)
Lemma deploy_published d p w x w' :
  names_ok (tbl w) -> dp_DryRun p = false -> Deploy d p w = (Ok x, w') ->
  exists f v, dr_Function x = Some f /\ dr_Version x = Some v
    /\ (exists g, t_functions (tbl w') !! f_ID f = Some g /\ f_ActiveVersionID g = Some (v_ID v))
    /\ t_versions (tbl w') !! v_ID v = Some v /\ is_Some (blobs w' !! bundle_key v).
Proof.
  intros Hok Hreal H.
  apply Deploy_run in H as [[_ Hx]|(actor & ot & oid & org & m & files & packed & w1 & (Ht & _ & _)
    & _ & _ & _ & _ & _ & _ & _ & Hc)].
  { destruct (Hx x eq_refl). congruence. }
  apply commit_outcome in Hc as (_ & _ & f & v & -> & Hs); [|by rewrite Ht].
  destruct Hs as [(g & Hg & Hact & _) _ _ [Hver _] _ Hblob _].
  exists f, v. split_and!; try done; by exists g.
Qed.

(** A collection that overlaps a deployment: when the scan of the store ends
    before the deployment starts and the blob store is listed after it ends, the
    freshly activated version keeps its bundle exactly if some version already
    referenced that very bundle at the scan. Otherwise the collection deletes it,
    the version stays active, and no pool can be built for it any more. *)
Theorem gc_races_deploy d p inv w0 refs w1 x w2 dead w3 w4
    (Hok : names_ok (tbl w1)) (Hreal : dp_DryRun p = false)
    (Hscan : referencedBundleKeys w0 = (Ok refs, w1))
    (Hdeploy : Deploy d p w1 = (Ok x, w2))
    (Hlist : gc_unreferenced refs w2 = (Ok dead, w3))
    (Hdel : gc_delete dead w3 = (Ok 0, w4)) :
  exists f v, dr_Function x = Some f /\ dr_Version x = Some v
    /\ (exists g, t_functions (tbl w4) !! f_ID f = Some g /\ f_ActiveVersionID g = Some (v_ID v))
    /\ (is_Some (blobs w4 !! bundle_key v) <-> referenced_in (tbl w0) (bundle_key v))
    /\ (~ referenced_in (tbl w0) (bundle_key v) ->
        forall ot oid, is_Some (stored_manifest v) -> (pool_config inv v ot oid w4).1
          = Err (BuildBlob (if default false (head (faults w4)) then ErrBackend else ErrNotFound))).
Proof.
  apply scan_ok in Hscan as [_ Hr].
  destruct (deploy_published _ _ _ _ _ Hok Hreal Hdeploy) as (f & v & Hf & Hv & (g & Hg & Ha) & _ & Hblob).
  apply list_ok in Hlist as [(Ht3 & Hb3 & _) Hd].
  destruct (delete_spec dead w3) as (n & w4' & Hdel' & _ & Ht4 & Hout & _ & Hall).
  rewrite Hdel in Hdel'. injection Hdel' as <- <-.
  assert (bundle_key v ∈ dead <-> ~ referenced_in (tbl w0) (bundle_key v)) as Hdead.
  { rewrite Hd, Hr. pose proof (bundle_key_prefix (v_BundleHash v)). tauto. }
  assert (~ referenced_in (tbl w0) (bundle_key v) -> blobs w4 !! bundle_key v = None) as Hgone.
  { intros Hn. apply Hall; [done|]. by apply Hdead. }
  exists f, v. split; [done|]. split; [done|]. split; [exists g; by rewrite Ht4, Ht3|]. split; [split|].
  - intros [b Hb]. rewrite <- Hr. destruct (decide (bundle_key v ∈ refs)) as [?|Hn]; [done|].
    rewrite Hr in Hn. by rewrite (Hgone Hn) in Hb.
  - intros Href. rewrite Hout, Hb3; [done|]. intros Hk. by apply Hdead in Hk.
  - intros Hn ot oid [nm Hnm]. unfold pool_config. rewrite Hnm. unfold bind at 1, or_err, Blob_Get.
    fold (bundle_key v). rewrite (Hgone Hn). destruct (faults w4) as [|[] fs]; done.
Qed.
End Race.

(** ** Retention *)

Section Retention.
Context {U : UnicodeTables} {J : JsonText} {I : IdGen}.

Definition days (d : Z) : Z := d * 24 * Hour.

Lemma wrap64_id z : int64 z -> wrap64 z = z.
Proof.
  unfold int64, min_int64, max_int64, wrap64. intros H. rewrite Z.mod_small; lia.
Qed.

(** The 64-bit computation is exact up to 106751 days, and for as many more it
    wraps to the future. *)
Lemma cutoff_exact n d : 0 < d <= 106751 -> retention_cutoff n d = n - days d.
Proof.
  intros Hd. unfold retention_cutoff, days, Hour, Minute, Second in *.
  rewrite (wrap64_id (- d)) by (unfold int64, min_int64, max_int64; lia).
  rewrite (wrap64_id (- d * 24)) by (unfold int64, min_int64, max_int64; lia).
  rewrite wrap64_id by (unfold int64, min_int64, max_int64; lia). lia.
Qed.

Lemma cutoff_wraps n d : 106752 <= d <= 213503 -> n + second <= retention_cutoff n d.
Proof.
  intros Hd. unfold retention_cutoff, second, Hour, Minute, Second in *.
  rewrite (wrap64_id (- d)) by (unfold int64, min_int64, max_int64; lia).
  rewrite (wrap64_id (- d * 24)) by (unfold int64, min_int64, max_int64; lia).
  unfold wrap64.
  rewrite <- (Z.mod_unique (- d * 24 * (60 * (60 * (1000 * 1000 * 1000))) + 2 ^ 63) (2 ^ 64) (-1)
    (- d * 24 * (60 * (60 * (1000 * 1000 * 1000))) + 2 ^ 63 + 2 ^ 64)) by lia. lia.
Qed.

(** The retention in force: the organization's, or seven days. *)
Definition retention_of (t : Tables) : Z :=
  match t_organization t with
  | Some o => match ParseOrg (o_Settings o) with
              | Ok s => if LogRetentionDays s <=? 0 then DefaultLogRetentionDays else LogRetentionDays s
              | Err _ => DefaultLogRetentionDays
              end
  | None => DefaultLogRetentionDays
  end.

Lemma retention_positive t : 0 < retention_of t.
Proof.
  unfold retention_of, DefaultLogRetentionDays. destruct (t_organization t) as [o|]; [|lia].
  destruct (ParseOrg (o_Settings o)) as [s|]; [|lia]. destruct (LogRetentionDays s <=? 0) eqn:E; bool_facts; lia.
Qed.

Lemma logRetentionDays_run w : exists d w1, logRetentionDays w = (Ok d, w1)
  /\ unchanged w w1 /\ now w1 = now w /\ (d = retention_of (tbl w) \/ d = DefaultLogRetentionDays)
  /\ (faults w = [] -> d = retention_of (tbl w) /\ faults w1 = []).
Proof.
  unfold logRetentionDays, bind, attempt, Organizations_Get, retention_of.
  destruct (query (fun t => row (t_organization t)) w) as [r w1] eqn:E.
  pose proof (query_run _ _ _ _ E) as [Hu Hr]. eexists _, w1. split; [reflexivity|]. split; [done|].
  assert (now w1 = now w) as Hn.
  { unfold query, statement in E. destruct (faults w) as [|[] fs]; simpl in E;
      try destruct (row (t_organization (tbl w))); by injection E as _ <-. }
  split; [done|]. split.
  - destruct Hr as [-> | ->]; [|by right]. left. by destruct (t_organization (tbl w)).
  - intros Hf. rewrite query_plain in E by done. injection E as <- <-.
    split; [by destruct (t_organization (tbl w))|done].
Qed.

(** One retention sweep. It touches nothing but invocation logs and adds
    none; while the retention in force is at most 106751 days and the backend
    answers, a log of the last [retention] days survives and every log older by a
    second is gone; when reading the organization fails, only the logs of the
    last seven days, or of the retention if that is shorter, are sure to survive.
    Beyond 106751 days the 64-bit duration wraps: the cut-off lies in the future,
    and the sweep deletes every log there is. *)
Theorem retention_sweep w (u : unit) w' (H : sweep_logs w = (Ok u, w')) :
  (exists logs, tbl w' = set_logs (tbl w) logs /\ logs ⊆ t_logs (tbl w))
  /\ (retention_of (tbl w) <= 106751 -> forall id l, t_logs (tbl w) !! id = Some l ->
        now w - days (if bool_decide (faults w = []) then retention_of (tbl w)
                      else Z.min 7 (retention_of (tbl w))) <= il_CreatedAt l ->
        t_logs (tbl w') !! id = Some l)
  /\ (faults w = [] -> retention_of (tbl w) <= 106751 -> forall id l, t_logs (tbl w') !! id = Some l ->
        now w - days (retention_of (tbl w)) - second < il_CreatedAt l)
  /\ (faults w = [] -> 106752 <= retention_of (tbl w) <= 213503 ->
        forall id l, t_logs (tbl w) !! id = Some l -> il_CreatedAt l <= now w ->
        t_logs (tbl w') !! id = None).
Proof.
  destruct (logRetentionDays_run w) as (d & w1 & Hd & (Ht1 & _ & _) & Hn1 & Hcases & Hplain).
  unfold sweep_logs in H. unfold bind at 1 in H. rewrite Hd in H.
  unfold bind at 1, time_Now, get in H. rewrite Hn1 in H.
  set (old := fun l => toUnix (il_CreatedAt l) <? toUnix (retention_cutoff (now w) d)).
  assert (tbl w' = tbl w \/ tbl w' = set_logs (tbl w) (delete_rows old (t_logs (tbl w)))) as Hw.
  { unfold bind, attempt, InvocationLogs_DeleteOlderThan in H.
    match type of H with context [statement ?f w1] => destruct (statement_cases f w1)
      as [[_ Hs]|[(e & Hf & _ & Hs)|(a & t & Hf & _ & Hs)]]; destruct (statement f w1) as [r w2] end;
      injection H as _ <-; simpl in *.
    - left. congruence.
    - done.
    - right. injection Hf as _ <-. by rewrite Hs, Ht1. }
  assert (faults w = [] -> tbl w' = set_logs (tbl w) (delete_rows old (t_logs (tbl w)))) as Hfull.
  { intros Hf. destruct (Hplain Hf) as [_ Hf1].
    unfold bind, attempt, InvocationLogs_DeleteOlderThan, statement in H. rewrite Hf1 in H. simpl in H.
    injection H as _ <-. simpl. by rewrite Ht1. }
  assert (Hpos := retention_positive (tbl w)).
  assert (forall id l, delete_rows old (t_logs (tbl w)) !! id = Some l
    <-> t_logs (tbl w) !! id = Some l /\ toUnix (retention_cutoff (now w) d) <= toUnix (il_CreatedAt l)) as Hrows.
  { intros id l. unfold delete_rows. rewrite map_lookup_filter_Some. simpl. unfold old. rewrite Z.ltb_ge. done. }
  assert (0 < second) as Hsec by done.
  split_and!.
  - destruct Hw as [->| ->]; [by exists (t_logs (tbl w)); destruct (tbl w)|].
    eexists. split; [done|]. apply map_filter_subseteq.
  - intros Hle id l Hl Hnew. destruct Hw as [->| ->]; [done|]. simpl. apply Hrows. split; [done|].
    apply Z.div_le_mono; [done|]. etrans; [|exact Hnew].
    assert (d <= 106751 /\ (if bool_decide (faults w = []) then retention_of (tbl w)
      else Z.min 7 (retention_of (tbl w))) <= d /\ 0 < d) as (Hd1 & Hd2 & Hd3).
    { unfold DefaultLogRetentionDays in Hcases. case_bool_decide as Hf; [destruct (Hplain Hf) as [-> _]|]; lia. }
    rewrite cutoff_exact by lia. unfold days, Hour, Minute, Second. lia.
  - intros Hf Hle id l Hl. rewrite (Hfull Hf) in Hl. simpl in Hl. apply Hrows in Hl as [_ Hl].
    destruct (Hplain Hf) as [-> _]. rewrite cutoff_exact in Hl by lia. unfold toUnix in Hl.
    pose proof (Z.div_mod (il_CreatedAt l) second ltac:(done)).
    pose proof (Z.div_mod (now w - days (retention_of (tbl w))) second ltac:(done)).
    pose proof (Z.mod_pos_bound (il_CreatedAt l) second ltac:(done)).
    pose proof (Z.mod_pos_bound (now w - days (retention_of (tbl w))) second ltac:(done)). nia.
  - intros Hf Hle id l Hl Hnow. rewrite (Hfull Hf). simpl.
    destruct (delete_rows old (t_logs (tbl w)) !! id) as [l'|] eqn:E; [|done]. exfalso.
    apply Hrows in E as [Hl' E]. assert (l' = l) as -> by congruence.
    destruct (Hplain Hf) as [-> _]. pose proof (cutoff_wraps (now w) _ Hle) as Hc.
    assert (toUnix (now w + second) <= toUnix (retention_cutoff (now w) (retention_of (tbl w)))) as H1
      by (by apply Z.div_le_mono).
    assert (toUnix (il_CreatedAt l) <= toUnix (now w)) as H2 by (by apply Z.div_le_mono).
    unfold toUnix in *. replace (now w + second) with (now w + 1 * second) in H1 by lia.
    rewrite Z.div_add in H1 by done. lia.
Qed.
End Retention.

(** ** Witnesses *)

Lemma list_plain refs w : faults w = [] -> exists dead, gc_unreferenced refs w = (Ok dead, w).
Proof.
  intros Hf. unfold gc_unreferenced, bind, Blob_List, tick. rewrite Hf. simpl.
  destruct w as [t b i n k fs]; simpl in *. subst. by eexists.
Qed.

Lemma delete_plain keys : forall w, faults w = [] ->
  exists w', gc_delete keys w = (Ok 0, w') /\ faults w' = [].
Proof.
  induction keys as [|k keys IH]; intros w Hf; simpl; [by exists w|].
  unfold bind at 1, attempt, Blob_Delete, tick. rewrite Hf. simpl.
  match goal with |- context [bind (gc_delete keys) _ ?w1] => destruct (IH w1) as (w' & Hd & Hf') end;
    [simpl; by rewrite ?Hf|]. exists w'. unfold bind. by rewrite Hd.
Qed.

(** A stale bundle beside a file of another kind. *)
Definition orphan_world : World :=
  with_blobs sample_world {["bundles/sha256/00.tar.gz" := "old"; "avatars/1.png" := "kept"]}.

Lemma orphan_collected : exists rep w', runGC true orphan_world = (Ok rep, w')
  /\ rep = Collected ["bundles/sha256/00.tar.gz"] 0.
Proof.
  eexists _, _. split; [apply (ok_or_run NothingToCollect); vm_compute; reflexivity|vm_compute; reflexivity].
Qed.

Lemma gc_exact_witness : exists rep w', runGC true orphan_world = (Ok rep, w')
  /\ forall k, has_prefix k "bundles/sha256/" = true -> is_Some (blobs w' !! k) ->
       referenced_in (tbl orphan_world) k.
Proof.
  destruct orphan_collected as (rep & w' & H & Hrep). exists rep, w'. split; [exact H|].
  destruct (gc_exact true orphan_world rep w' H) as (_ & _ & _ & Hall & _).
  apply Hall. right. by exists ["bundles/sha256/00.tar.gz"].
Defined.

(** Bob's first deployment against a collection that scanned just before. *)
Lemma gc_races_deploy_witness : exists x w2 v w4, hello_deployed = (Ok x, w2) /\ dr_Version x = Some v
  /\ blobs w4 !! bundle_key v = None.
Proof.
  destruct hello_deployed_ok as (x & w2 & Hrun & Hq & _).
  assert (referencedBundleKeys sample_world = (Ok ∅, sample_world)) as Hscan
    by (vm_compute; reflexivity).
  destruct (list_plain ∅ w2 Hq) as (dead & Hlist).
  destruct (delete_plain dead w2 Hq) as (w4 & Hdel & _).
  destruct (gc_races_deploy (U := ascii_tables) (F := amd64_float_to_int) (Y := one_doc_decoder)
    (A := sample_codec) (J := numeral_json) (I := unary_ids) (C := clear_cipher) (mkDeployer true)
    (hello_params false "bob") sample_invoker sample_world ∅ sample_world x w2 dead w2 w4
    sample_names eq_refl Hscan Hrun Hlist Hdel) as (f & v & _ & Hv & _ & Hiff & _).
  exists x, w2, v, w4. split; [done|]. split; [done|].
  destruct (blobs w4 !! bundle_key v) as [b|] eqn:E; [|done].
  destruct (proj1 Hiff (ex_intro _ b eq_refl)) as (v0 & (id & Hid) & _).
  vm_compute in Hid. destruct id; discriminate Hid.
Defined.

(** One log, and an organization that means to keep its logs for 200000 days. *)
Definition one_log : InvocationLog := mkInvocationLog "L1" "F1" "V1" "GET" "/" 200 1 "" "" "[]" 50.
Definition patient_org : Org :=
  mkOrg (Language DefaultOrg) true false "private" "public" (org_FetchPolicy DefaultOrg) (org_Limits DefaultOrg)
    [] 0 200000 false 0 false false true.
Definition patient_world : World :=
  mkWorld (set_logs (set_organization sample_tables
      (Some (mkOrganization "org" "Example" (Org_JSON (J := numeral_json) patient_org) 1 1 1))) {["L1" := one_log]})
    ∅ [] (100 * second) 0 [].

Lemma patient_retention : retention_of (U := ascii_tables) (J := numeral_json) (tbl patient_world) = 200000.
Proof. vm_compute. reflexivity. Qed.

Lemma retention_sweep_witness : exists w',
  sweep_logs (U := ascii_tables) (J := numeral_json) patient_world = (Ok tt, w') /\ t_logs (tbl w') !! "L1" = None.
Proof.
  assert (exists w', sweep_logs (U := ascii_tables) (J := numeral_json) patient_world = (Ok tt, w')) as [w' H].
  { eexists. rewrite (ok_or_run tt (sweep_logs (U := ascii_tables) (J := numeral_json) patient_world));
      [by destruct (ok_or _ _)|vm_compute; reflexivity]. }
  exists w'. split; [exact H|].
  destruct (retention_sweep (U := ascii_tables) (J := numeral_json) patient_world tt w' H) as (_ & _ & _ & Hall).
  apply (Hall eq_refl) with (l := one_log).
  - rewrite patient_retention. lia.
  - vm_compute. reflexivity.
  - vm_compute. discriminate.
Defined.
