(* ===== verification/Migrations.v ===== *)
(** * Migrations: dialects and schema migrations

    Models src/server/internal/store/sqlcommon/sqlcommon.go (placeholders, migrations)
    and the errors of store/sqlite and store/neon. The database is a parameter: a state
    and what running a text of SQL does to it; each statement may fail, and a commit may
    be reported as failed though it was carried out. *)

From stdpp Require Import sorting.
From S2P Require Import Prelude Bundle.

(** ** Placeholders *)

(** [PositionalRebind], of text in UTF-8. *)
Fixpoint rebind_from (n : Z) (query : string) : string :=
  match query with
  | EmptyString => ""
  | String c r =>
      if (c =? "?")%char then "$" +:+ itoa (n + 1) +:+ rebind_from (n + 1) r else String c (rebind_from n r)
  end.
Definition PositionalRebind (query : string) : string := rebind_from 0 query.

(** [Dialect.rebind]. *)
Definition rebind (r : option (string -> string)) (query : string) : string := match r with Some f => f query | None => query end.

(** ** Errors *)

(** An error of a driver: [sql.ErrNoRows], an error of PostgreSQL with its code, or
    another with its text. *)
Inductive DriverErr := NoRows | PgError (code : string) | OtherErr (text : string).
Inductive MappedErr := MappedNotFound | MappedConflict | Raw (e : DriverErr).

Definition isConstraintErr (e : DriverErr) : bool :=
  match e with
  | OtherErr msg =>
      str_contains msg "UNIQUE constraint failed" || str_contains msg "PRIMARY KEY constraint failed"
      || str_contains msg "FOREIGN KEY constraint failed" || str_contains msg "constraint failed"
  | _ => false
  end.
Definition sqlite_MapErr (e : DriverErr) : MappedErr :=
  match e with
  | NoRows => MappedNotFound
  | _ => if isConstraintErr e then MappedConflict else Raw e
  end.
Definition neon_MapErr (e : DriverErr) : MappedErr :=
  match e with
  | NoRows => MappedNotFound
  | PgError code => if existsb (String.eqb code) ["23505"; "23503"; "23514"; "23502"; "23P01"] then MappedConflict else Raw e
  | OtherErr _ => Raw e
  end.

(** ** Migrations *)

Inductive MigrateErr := MalformedName (name : string) | ReadMigration (name : string) | StatementFailed | MigrationFailed (name : string).

Definition migrationVersion (name : string) : result MigrateErr Z :=
  match index_byte name "_" with
  | None => Err (MalformedName name)
  | Some i => match atoi (str_take i name) with
              | Some v => Ok v
              | None => Err (MalformedName name)
              end
  end.

(** The outcome of a statement. *)
Inductive luck := Fine | Fails | FailsDone.

Section Migrate.
Context {Db : Type} (run_sql : string -> Db -> option Db).

(** The data, the rows of schema_migrations once it exists, and the pragma. *)
Record Database := mkDatabase { db_data : Db; db_versions : option (gmap Z Z); db_foreign_keys : bool }.
Definition recorded (d : Database) : gmap Z Z := default ∅ (db_versions d).

Definition next (fs : list luck) : luck * list luck := match fs with f :: fs => (f, fs) | [] => (Fine, []) end.
Definition fine (l : luck) : bool := match l with Fine => true | _ => false end.

(** [applyMigration]: one transaction. *)
Definition applyMigration (now : Z) (d : Database) (fs : list luck) (version : Z) (sqlText : string) : bool * Database * list luck :=
  let '(begin, fs) := next fs in
  if negb (fine begin) then (false, d, fs)
  else
    let '(body, fs) := next fs in
    match run_sql sqlText (db_data d) with
    | Some data =>
        if negb (fine body) then (false, d, fs)
        else
          let '(insert, fs) := next fs in
          if negb (fine insert) || bool_decide (is_Some (recorded d !! version)) then (false, d, fs)
          else
            let '(commit, fs) := next fs in
            let done := mkDatabase data (Some (<[version := now]> (recorded d))) (db_foreign_keys d) in
            match commit with
            | Fine => (true, done, fs)
            | FailsDone => (false, done, fs)
            | Fails => (false, d, fs)
            end
    | None => (false, d, fs)
    end.

(** The loop over the files; [None] for one that cannot be read. *)
Fixpoint apply_files (now : Z) (files : list (string * option string)) (d : Database) (fs : list luck) :
    result MigrateErr unit * Database * list luck :=
  match files with
  | [] => (Ok tt, d, fs)
  | (name, body) :: files =>
      match migrationVersion name with
      | Err e => (Err e, d, fs)
      | Ok version =>
          let '(check, fs) := next fs in
          if negb (fine check) then (Err StatementFailed, d, fs)
          else if bool_decide (is_Some (recorded d !! version)) then apply_files now files d fs
          else match body with
               | None => (Err (ReadMigration name), d, fs)
               | Some sqlText =>
                   match applyMigration now d fs version sqlText with
                   | (true, d, fs) => apply_files now files d fs
                   | (false, d, fs) => (Err (MigrationFailed name), d, fs)
                   end
               end
      end
  end.

(** The files of the directory, by name: those that end in [.sql]. *)
Definition file_le (a b : string * option string) : Prop := str_le a.1 b.1.
#[export] Instance file_le_dec : RelDecision file_le.
Proof. intros a b. unfold file_le. apply _. Defined.
Definition migration_files (entries : list (string * option string)) : list (string * option string) :=
  merge_sort file_le (List.filter (fun e => has_suffix e.1 ".sql") entries).

Definition set_foreign_keys (d : Database) (b : bool) : Database := mkDatabase (db_data d) (db_versions d) b.

(** [ApplyMigrations]. *)
Definition ApplyMigrations (sqlite : bool) (now : Z) (entries : list (string * option string)) (d : Database) (fs : list luck) :
    result MigrateErr unit * Database :=
  let '(off, fs) := if sqlite then next fs else (Fine, fs) in
  if negb (fine off) then (Err StatementFailed, d)
  else
    let d := if sqlite then set_foreign_keys d false else d in
    let '(create, fs) := next fs in
    let '(r, d, fs) :=
      if negb (fine create) then (Err StatementFailed, d, fs)
      else apply_files now (migration_files entries) (mkDatabase (db_data d) (Some (recorded d)) (db_foreign_keys d)) fs in
    let '(on, _) := if sqlite then next fs else (Fails, fs) in
    (r, match on with Fails => d | _ => set_foreign_keys d true end).

(** ** Specification: the migrations in order, each once *)

Fixpoint planned (files : list (string * option string)) : option (list (Z * string)) :=
  match files with
  | [] => Some []
  | (name, body) :: files =>
      match migrationVersion name, body, planned files with
      | Ok v, Some sqlText, Some ps => Some ((v, sqlText) :: ps)
      | _, _, _ => None
      end
  end.
Fixpoint run_all (ps : list (Z * string)) (db : Db) : option Db :=
  match ps with
  | [] => Some db
  | p :: ps => match run_sql p.2 db with Some db => run_all ps db | None => None end
  end.

(** The first [k] migrations were run, each once, and these are recorded. *)
Definition progress (ps : list (Z * string)) (db0 : Db) (d : Database) (k : nat) : Prop :=
  (k <= length ps)%nat /\ run_all (take k ps) db0 = Some (db_data d)
  /\ forall v, is_Some (recorded d !! v) <-> v ∈ map fst (take k ps).

Lemma run_all_app ps qs db : run_all (ps ++ qs) db = match run_all ps db with Some db => run_all qs db | None => None end.
Proof. revert db. induction ps as [|p ps IH]; intros db; simpl; [done|]. by destruct (run_sql p.2 db). Qed.

Lemma progress_next ps db0 d k v sqlText data now : progress ps db0 d k -> ps !! k = Some (v, sqlText) ->
  run_sql sqlText (db_data d) = Some data ->
  progress ps db0 (mkDatabase data (Some (<[v := now]> (recorded d))) (db_foreign_keys d)) (S k).
Proof.
  intros (Hk & Hr & Hv) Hp Hs. pose proof (lookup_lt_Some _ _ _ Hp) as Hlt. unfold progress. rewrite (take_S_r _ _ _ Hp).
  split_and!; [lia|rewrite run_all_app, Hr; simpl; by rewrite Hs|]. intros x. unfold recorded at 1. simpl.
  rewrite map_app, elem_of_app. simpl. rewrite list_elem_of_singleton, lookup_insert_is_Some, Hv. split.
  - intros [->|[_ H]]; auto.
  - intros [H|E]; [|by left]. destruct (decide (v = x)); [by left|by right].
Qed.

Lemma apply_one_progress ps db0 d k v sqlText now fs ok d' fs' : progress ps db0 d k -> ps !! k = Some (v, sqlText) ->
  applyMigration now d fs v sqlText = (ok, d', fs') ->
  (ok = false /\ progress ps db0 d' k) \/ progress ps db0 d' (S k).
Proof.
  intros Hp Hl. unfold applyMigration. destruct (next fs) as [f1 fs1]. destruct (negb (fine f1)); [intros [= <- <- <-]; by left|].
  destruct (next fs1) as [f2 fs2]. destruct (run_sql sqlText (db_data d)) as [data|] eqn:Er; [|intros [= <- <- <-]; by left].
  destruct (negb (fine f2)); [intros [= <- <- <-]; by left|]. destruct (next fs2) as [f3 fs3].
  destruct (_ || _); [intros [= <- <- <-]; by left|]. destruct (next fs3) as [[] fs4]; intros [= <- <- <-].
  - right. by eapply progress_next.
  - by left.
  - right. by eapply progress_next.
Qed.

Lemma apply_one_fine ps db0 d k v sqlText now data : progress ps db0 d k -> ps !! k = Some (v, sqlText) ->
  recorded d !! v = None -> run_sql sqlText (db_data d) = Some data ->
  exists d', applyMigration now d [] v sqlText = (true, d', []).
Proof.
  intros Hp Hl Hn Hs. unfold applyMigration. simpl. rewrite Hs, bool_decide_eq_false_2 by (rewrite Hn; by intros [? ?]). simpl. eauto.
Qed.

Lemma lookup_after {A} (pre post : list A) x : (pre ++ x :: post) !! length pre = Some x.
Proof. rewrite lookup_app_r by lia. by rewrite Nat.sub_diag. Qed.

Lemma is_recorded ps db0 d k i p : progress ps db0 d k -> NoDup (map fst ps) -> ps !! i = Some p ->
  is_Some (recorded d !! p.1) <-> (i < k)%nat.
Proof.
  intros (Hk & _ & Hv) Hn Hi. rewrite Hv, list_elem_of_fmap. split.
  - intros (q & E & (j & Hj)%list_elem_of_lookup_1). apply lookup_take_Some in Hj as [Hj Hlt].
    enough (i = j) as -> by done. eapply (NoDup_lookup (map fst ps)); [done|rewrite list_lookup_fmap, Hi; done|].
    rewrite list_lookup_fmap, Hj. simpl. by rewrite E.
  - intros Hlt. exists p. split; [done|]. apply list_elem_of_lookup. exists i. by apply lookup_take_Some.
Qed.

Lemma apply_files_progress now db0 ps : NoDup (map fst ps) -> forall files pre post d k fs r d' fs',
  planned files = Some post -> ps = pre ++ post -> (length pre <= k)%nat -> progress ps db0 d k ->
  apply_files now files d fs = (r, d', fs') ->
  exists k', (k <= k')%nat /\ progress ps db0 d' k' /\ (r = Ok tt -> k' = length ps) /\ (k = length ps -> d' = d)
    /\ (fs = [] -> is_Some (run_all ps db0) -> r = Ok tt).
Proof.
  intros Hn. induction files as [|[name body] files IH]; intros pre post d k fs r d' fs' Hpl -> Hle Hp H; simpl in Hpl, H.
  - injection Hpl as <-. injection H as <- <- <-. exists k. destruct Hp as (Hk & Hp). rewrite app_nil_r in *.
    split_and!; try done. intros _. lia.
  - destruct (migrationVersion name) as [v|e]; [|done]. destruct body as [sqlText|]; [|done].
    destruct (planned files) as [post'|] eqn:Epl; [|done]. injection Hpl as <-. pose proof (lookup_after pre post' (v, sqlText)) as Hl.
    pose proof (is_recorded _ _ _ _ _ _ Hp Hn Hl) as Hrec. cbn [fst] in Hrec.
    destruct (next fs) as [f1 fs1] eqn:En. destruct (negb (fine f1)) eqn:Ef.
    { injection H as <- <- <-. exists k. split_and!; try done. intros ->. simpl in En. by injection En as <- <-. }
    assert (pre ++ (v, sqlText) :: post' = (pre ++ [(v, sqlText)]) ++ post') as E by (by rewrite <- app_assoc).
    assert (fs = [] -> fs1 = []) as Hnil by (intros ->; simpl in En; congruence).
    case_bool_decide as Hr.
    + apply Hrec in Hr. apply (IH (pre ++ [(v, sqlText)]) post' d k) in H; try done; [|rewrite length_app; simpl; lia].
      destruct H as (k' & H1 & H2 & H3 & H4 & H5). exists k'. split_and!; try done. intros Hfs. by apply H5, Hnil.
    + assert (k = length pre) as -> by (rewrite Hrec in Hr; lia).
      destruct (applyMigration now d fs1 v sqlText) as [[ok d1] fs2] eqn:Ea.
      pose proof (apply_one_progress _ _ _ _ _ _ _ _ _ _ _ Hp Hl Ea) as Hone.
      assert (length pre <> length (pre ++ (v, sqlText) :: post')) as Hlen by (rewrite length_app; simpl; lia).
      assert (fs = [] -> is_Some (run_all (pre ++ (v, sqlText) :: post') db0) -> ok = true /\ fs2 = []) as Hok.
      { intros Hfs [x Hx]. destruct Hp as (Hk & Hrun & Hv). rewrite take_app_length in Hrun. rewrite run_all_app, Hrun in Hx. simpl in Hx.
        destruct (run_sql sqlText (db_data d)) as [data|] eqn:Es; [|done]. rewrite (Hnil Hfs) in Ea.
        destruct (apply_one_fine (pre ++ (v, sqlText) :: post') db0 d (length pre) v sqlText now data) as [d2 Hd2]; try done.
        - split_and!; [done|by rewrite take_app_length|done].
        - destruct (recorded d !! v) eqn:E0; [|done]. exfalso. apply Hr. by eexists.
        - rewrite Hd2 in Ea. by injection Ea as <- <- <-. }
      destruct ok.
      * destruct Hone as [[? _]|Hone]; [done|]. apply (IH (pre ++ [(v, sqlText)]) post' d1 (S (length pre))) in H; try done;
          [|rewrite length_app; simpl; lia]. destruct H as (k' & H1 & H2 & H3 & H4 & H5).
        exists k'. split_and!; try done; [lia|]. intros Hfs Hs. apply H5; [|done]. by apply Hok.
      * injection H as <- <- <-. assert (fs = [] -> is_Some (run_all (pre ++ (v, sqlText) :: post') db0) -> @Err MigrateErr unit (MigrationFailed name) = Ok tt) as Hno.
        { intros Hfs Hs. by destruct (Hok Hfs Hs). }
        destruct Hone as [[_ Hone]|Hone]; [exists (length pre)|exists (S (length pre))]; split_and!; try done; lia.
Qed.

Lemma progress_same ps db0 d d' k : db_data d' = db_data d -> recorded d' = recorded d -> progress ps db0 d k -> progress ps db0 d' k.
Proof. intros E1 E2 (H1 & H2 & H3). unfold progress. by rewrite E1, E2. Qed.

(** [ApplyMigrations] around its loop. *)
Lemma apply_progress sqlite now entries db0 ps d k fs r d' : NoDup (map fst ps) -> planned (migration_files entries) = Some ps ->
  progress ps db0 d k -> ApplyMigrations sqlite now entries d fs = (r, d') ->
  exists k', (k <= k')%nat /\ progress ps db0 d' k' /\ (r = Ok tt -> k' = length ps)
    /\ (k = length ps -> db_data d' = db_data d /\ recorded d' = recorded d)
    /\ (fs = [] -> is_Some (run_all ps db0) -> r = Ok tt).
Proof.
  intros Hn Hpl Hp. unfold ApplyMigrations.
  destruct (if sqlite then next fs else (Fine, fs)) as [off fs1] eqn:E1. assert (fs = [] -> off = Fine /\ fs1 = []) as Hoff.
  { intros ->. destruct sqlite; simpl in E1; by injection E1 as <- <-. }
  destruct (negb (fine off)) eqn:Ef.
  { intros [= <- <-]. exists k. split_and!; try done. intros Hfs. by destruct (Hoff Hfs) as [-> _]. }
  set (d1 := if sqlite then _ else _). assert (progress ps db0 d1 k /\ db_data d1 = db_data d /\ recorded d1 = recorded d) as (Hp1 & Hd1 & Hr1).
  { unfold d1. destruct sqlite; [|done]. split_and!; [by apply (progress_same ps db0 d)|done|done]. }
  destruct (next fs1) as [create fs2] eqn:E2. assert (fs = [] -> create = Fine /\ fs2 = []) as Hcreate.
  { intros Hfs. destruct (Hoff Hfs) as [_ ->]. simpl in E2. by injection E2 as <- <-. }
  set (d2 := mkDatabase (db_data d1) (Some (recorded d1)) (db_foreign_keys d1)).
  assert (progress ps db0 d2 k) as Hp2 by (by apply (progress_same ps db0 d1)).
  destruct (if negb (fine create) then _ else _) as [[r3 d3] fs3] eqn:E3.
  destruct (if sqlite then next fs3 else _) as [on fs4]. intros [= <- <-].
  assert (forall b x, db_data (match on with Fails => x | _ => set_foreign_keys x b end) = db_data x
    /\ recorded (match on with Fails => x | _ => set_foreign_keys x b end) = recorded x) as Hsame by (intros b x; by destruct on).
  destruct (Hsame true d3) as [Hs1 Hs2]. destruct (negb (fine create)) eqn:Ec.
  - injection E3 as <- <- <-. exists k. split_and!; try done; [by apply (progress_same ps db0 d1)|by rewrite Hs1, Hs2|].
    intros Hfs. by destruct (Hcreate Hfs) as [-> _].
  - apply (apply_files_progress now db0 ps Hn _ [] ps d2 k) in E3; try done; [|simpl; lia].
    destruct E3 as (k' & H1 & H2 & H3 & H4 & H5). exists k'. split_and!; [done|by apply (progress_same ps db0 d3)|done| |].
    + intros Hk. rewrite Hs1, Hs2, (H4 Hk). unfold d2. done.
    + intros Hfs. apply H5. by apply Hcreate.
Qed.

(** Any number of starts of the server. *)
Inductive attempts (sqlite : bool) (entries : list (string * option string)) : Database -> Database -> Prop :=
| NoAttempt d : attempts sqlite entries d d
| Attempt now d fs r d1 d2 : ApplyMigrations sqlite now entries d fs = (r, d1) -> attempts sqlite entries d1 d2 ->
    attempts sqlite entries d d2.

(** C40. Migrations resume. However often the server starts, whichever statement of each
    attempt fails, and though a commit may be carried out and reported as failed: an
    attempt that reports success leaves the database as after running every migration
    once, in order; an attempt none of whose statements fail does report it; and from
    then on no attempt changes the data or what is recorded. *)
Theorem migrations_resume sqlite entries ps db0 final d0 d fs now r d' (Hn : NoDup (map fst ps))
    (Hplan : planned (migration_files entries) = Some ps) (Hfinal : run_all ps db0 = Some final)
    (Hnew : db_data d0 = db0 /\ recorded d0 = ∅) (Hbefore : attempts sqlite entries d0 d)
    (Hlast : ApplyMigrations sqlite now entries d fs = (r, d')) :
  (r = Ok tt -> db_data d' = final /\ forall v, is_Some (recorded d' !! v) <-> v ∈ map fst ps)
  /\ (fs = [] -> r = Ok tt)
  /\ (r = Ok tt -> forall d'', attempts sqlite entries d' d'' -> db_data d'' = final /\ recorded d'' = recorded d').
Proof.
  assert (exists k, progress ps db0 d k) as [k Hk].
  { assert (progress ps db0 d0 0) as H0.
    { destruct Hnew as [<- Hr]. split_and!; [lia|done|]. intros v. rewrite Hr, lookup_empty. simpl. split; [by intros [? ?]|by intros ?%elem_of_nil]. }
    clear Hlast Hnew. revert H0. generalize 0%nat. induction Hbefore as [x|t x l y x1 x2 Ha _ IH]; intros k H0; [by exists k|].
    destruct (apply_progress _ _ _ _ _ _ _ _ _ _ Hn Hplan H0 Ha) as (k' & _ & H1 & _). by apply (IH k'). }
  destruct (apply_progress _ _ _ _ _ _ _ _ _ _ Hn Hplan Hk Hlast) as (k' & _ & Hp & Hok & _ & Hfine).
  assert (forall x, progress ps db0 x (length ps) -> db_data x = final) as Hdone.
  { intros x (_ & Hr & _). rewrite take_ge, Hfinal in Hr by lia. congruence. }
  split_and!; [|by intros ->; apply Hfine; [|eexists]|]; intros Hr; rewrite (Hok Hr) in Hp.
  - split; [by apply Hdone|]. intros v. destruct Hp as (_ & _ & Hv). by rewrite Hv, take_ge by lia.
  - intros d'' Ha. clear -Hn Hplan Hdone Hp Ha. induction Ha as [x|t x l y x1 x2 Ha _ IH]; [split; [by apply Hdone|done]|].
    destruct (apply_progress _ _ _ _ _ _ _ _ _ _ Hn Hplan Hp Ha) as (k & Hle & Hp1 & _ & Hsame & _). destruct (Hsame eq_refl) as [_ Hrec].
    assert (k = length ps) as -> by (destruct Hp1; lia). destruct (IH Hp1) as [H1 H2]. split; [done|congruence].
Qed.
End Migrate.

(** ** Examples and witness *)

Definition sample_sql (sql db : string) : option string := if sql == "bad" then None else Some (db +:+ sql +:+ ";").
Definition sample_files : list (string * option string) := [("0002_b.sql", Some "b"); ("README", None); ("0001_a.sql", Some "a")].
Definition fresh_db : Database := mkDatabase "" None true.

Lemma migrations_resume_witness :
  exists d, ApplyMigrations sample_sql true 7 sample_files fresh_db [Fine; Fine; Fine; Fine; Fine; Fine; FailsDone] = (Err (MigrationFailed "0001_a.sql"), d)
    /\ db_data (ApplyMigrations sample_sql true 8 sample_files d []).2 = "a;b;".
Proof.
  destruct (ApplyMigrations sample_sql true 7 sample_files fresh_db [Fine; Fine; Fine; Fine; Fine; Fine; FailsDone]) as [r d] eqn:E1.
  exists d. destruct (ApplyMigrations sample_sql true 8 sample_files d []) as [r' d'] eqn:E2.
  destruct (migrations_resume sample_sql true sample_files [(1, "a"); (2, "b")] "" "a;b;" fresh_db d [] 8 r' d'
    ltac:(repeat (apply NoDup_cons; split; [set_solver|]); constructor)
    ltac:(vm_compute; reflexivity) ltac:(vm_compute; reflexivity) ltac:(split; reflexivity)
    ltac:(eapply Attempt; [exact E1|apply NoAttempt]) E2) as (H1 & H2 & _).
  split; [|apply (H1 (H2 eq_refl))]. vm_compute in E1. by injection E1 as <- <-.
Defined.

(** The order is that of the names, not of the numbers, and of two files with one
    number the second is never run. *)
Example order_of_names :
  planned (migration_files [("2_b.sql", Some "b"); ("10_c.sql", Some "c")]) = Some [(10, "c"); (2, "b")]
  /\ db_data (ApplyMigrations sample_sql false 0 [("0001_a.sql", Some "a"); ("0001_b.sql", Some "b")] fresh_db []).2 = "a;".
Proof. by vm_compute. Qed.

(** The pragma is on afterwards though it was off before, and stays off when setting
    it again fails, which is not reported. *)
Example pragma_not_restored :
  db_foreign_keys (ApplyMigrations sample_sql true 0 [] (mkDatabase "" None false) []).2 = true
  /\ ApplyMigrations sample_sql true 0 [] fresh_db [Fine; Fine; Fails] = (Ok tt, mkDatabase "" (Some ∅) false).
Proof. by vm_compute. Qed.

Example errors_mapped :
  sqlite_MapErr (OtherErr "constraint failed: UNIQUE constraint failed: users.email (2067)") = MappedConflict
  /\ neon_MapErr (PgError "23505") = MappedConflict /\ neon_MapErr (PgError "40001") = Raw (PgError "40001")
  /\ sqlite_MapErr NoRows = MappedNotFound.
Proof. by vm_compute. Qed.

(** The placeholders are numbered from the left. *)
Fixpoint weave (n : Z) (parts : list string) : string :=
  match parts with
  | [] => ""
  | [p] => p
  | p :: parts => p +:+ "$" +:+ itoa (n + 1) +:+ weave (n + 1) parts
  end.
Lemma rebind_numbers n query : rebind_from n query = weave n (split_byte query "?").
Proof.
  revert n. induction query as [|c r IH]; intros n; [done|]. cbn [rebind_from split_byte].
  pose proof (split_byte_nonempty r "?") as Hne. destruct (c =? "?")%char eqn:E; rewrite IH.
  - destruct (split_byte r "?") as [|p [|q ps]]; [done|done|done].
  - destruct (split_byte r "?") as [|p [|q ps]]; [done|done|done].
Qed.
