(* ===== verification/BlobFs.v ===== *)
(** * BlobFs: blobs as files

    Models src/server/internal/blob/fs/fs.go, on the keys of blob.go that are in
    [Maintenance]: a directory tree, the calls each operation makes on it one by one,
    and any number of [Put]s in flight between which the calls interleave. Each call may
    fail, and the machine may stop at any point: of a file that was not synced anything
    may be left then, and each entry of a directory is what it is, or what it was at
    some time since the directory was last synced. *)

From stdpp Require Import sorting.
From S2P Require Import Prelude GoPath Digest Service Maintenance.

(** ** The directory tree

    Paths below the root, as their elements; whether a file's bytes were synced. *)
Inductive node := NFile (content : string) (synced : bool) | NDir.
#[export] Instance node_eq_dec : EqDecision node.
Proof. solve_decision. Defined.
Notation Path := (list string).
Notation Disk := (gmap Path node).

Inductive FsErr := NotExist | NotDirectory | IsDirectory | NotEmpty | IOError | BadKey (e : KeyErr) | Cancelled.

(** [os.Stat]: a missing element is not the same as an element below a file. *)
Fixpoint stat_from (d : Disk) (base rest : Path) (here : node) : result FsErr node :=
  match rest with
  | [] => Ok here
  | s :: rest =>
      match here with
      | NFile _ _ => Err NotDirectory
      | NDir => match d !! (base ++ [s]) with
                | None => Err NotExist
                | Some n => stat_from d (base ++ [s]) rest n
                end
      end
  end.
Definition stat (d : Disk) (p : Path) : result FsErr node := stat_from d [] p NDir.

(** [os.MkdirAll]. *)
Fixpoint mkdir_from (d : Disk) (base rest : Path) : Disk * result FsErr unit :=
  match rest with
  | [] => (d, Ok tt)
  | s :: rest =>
      match d !! (base ++ [s]) with
      | None => mkdir_from (<[base ++ [s] := NDir]> d) (base ++ [s]) rest
      | Some NDir => mkdir_from d (base ++ [s]) rest
      | Some (NFile _ _) => (d, Err NotDirectory)
      end
  end.
Definition mkdir_all (d : Disk) (p : Path) : Disk * result FsErr unit := mkdir_from d [] p.

Definition has_children (d : Disk) (p : Path) : bool :=
  bool_decide (Exists (fun q => p `prefix_of` q /\ p <> q) (map fst (map_to_list d))).

(** [os.Remove] and [os.Rename] of a file. *)
Definition remove (d : Disk) (p : Path) : Disk * result FsErr unit :=
  match stat d p with
  | Err e => (d, Err e)
  | Ok NDir => if has_children d p then (d, Err NotEmpty) else (delete p d, Ok tt)
  | Ok (NFile _ _) => (delete p d, Ok tt)
  end.
Definition rename (d : Disk) (src dst : Path) : Disk * result FsErr unit :=
  match stat d src, stat d (removelast dst) with
  | Ok (NFile c s), Ok NDir =>
      match d !! dst with
      | Some NDir => (d, Err IsDirectory)
      | _ => (<[dst := NFile c s]> (delete src d), Ok tt)
      end
  | Ok (NFile c s), Ok (NFile _ _) => (d, Err NotDirectory)
  | Ok NDir, _ => (d, Err IOError)
  | Err e, _ | _, Err e => (d, Err e)
  end.

(** ** fs.go *)

Definition path_of (key : string) : Path := split_byte key "/".
Definition dir_of (p : Path) : Path := removelast p.
Definition base_of (p : Path) : string := List.last p "".
Definition is_temp (p : Path) : bool := has_prefix (base_of p) ".tmp-".

(** [Store.path]. *)
Definition store_path (key : string) : result FsErr Path :=
  match ValidateKey key with Ok _ => Ok (path_of key) | Err e => Err (BadKey e) end.

(** A [Put] in flight: what it stores, what its reader yields, and how far it is. *)
Inductive stage :=
| PutBegin
| PutDir
| PutTemp (tmp : Path)
| PutCopied (tmp : Path)
| PutSynced (tmp : Path)
| PutRenamed
| PutDone
| PutFailed (e : FsErr).
Record put := mkPut { pu_key : string; pu_data : string; pu_size : Z; pu_stage : stage }.
Definition at_stage (p : put) (s : stage) : put := mkPut (pu_key p) (pu_data p) (pu_size p) s.

(** [io.CopyN], whose end of input before [size] bytes is not an error here. *)
Definition copied (p : put) : string := str_take (Z.to_nat (pu_size p)) (pu_data p).

(** What the surroundings decide about a call: that it fails, how many bytes were
    copied before, and the random part of a new name. *)
Record choice := mkChoice { ch_fails : bool; ch_written : nat; ch_random : string }.

(** The deferred removal. *)
Definition abandon (d : Disk) (p : put) (tmp : Path) (e : FsErr) : Disk * put := ((remove d tmp).1, at_stage p (PutFailed e)).

(** The next call of a [Put]. *)
Definition put_step (d : Disk) (c : choice) (p : put) : Disk * put :=
  match pu_stage p with
  | PutBegin =>
      match store_path (pu_key p) with
      | Err e => (d, at_stage p (PutFailed e))
      | Ok dst =>
          if ch_fails c then (d, at_stage p (PutFailed IOError))
          else match mkdir_all d (dir_of dst) with
               | (d, Ok _) => (d, at_stage p PutDir)
               | (d, Err e) => (d, at_stage p (PutFailed e))
               end
      end
  | PutDir =>
      let dir := dir_of (path_of (pu_key p)) in
      let tmp := dir ++ [".tmp-" +:+ ch_random c] in
      match stat d dir, d !! tmp with
      | Ok NDir, None => if ch_fails c then (d, at_stage p (PutFailed IOError))
                         else (<[tmp := NFile "" false]> d, at_stage p (PutTemp tmp))
      | Ok NDir, Some _ => (d, p)
      | Ok (NFile _ _), _ => (d, at_stage p (PutFailed NotDirectory))
      | Err e, _ => (d, at_stage p (PutFailed e))
      end
  | PutTemp tmp =>
      if ch_fails c
      then abandon (<[tmp := NFile (str_take (ch_written c) (copied p)) false]> d) p tmp IOError
      else (<[tmp := NFile (copied p) false]> d, at_stage p (PutCopied tmp))
  | PutCopied tmp =>
      if ch_fails c then abandon d p tmp IOError
      else (<[tmp := NFile (copied p) true]> d, at_stage p (PutSynced tmp))
  | PutSynced tmp =>
      if ch_fails c then abandon d p tmp IOError
      else match rename d tmp (path_of (pu_key p)) with
           | (d, Ok _) => (d, at_stage p PutRenamed)
           | (d, Err e) => abandon d p tmp e
           end
  | PutRenamed => (d, at_stage p PutDone)
  | PutDone | PutFailed _ => (d, p)
  end.

(** What the entry of a path was since its directory was last synced, latest first. *)
Definition Journal : Type := Path -> list (option node).
Definition journal (d d' : Disk) (past : Journal) : Journal :=
  fun p => if decide (d !! p = d' !! p) then past p else d !! p :: past p.
Definition sync_dir (dir : Path) (past : Journal) : Journal :=
  fun p => if bool_decide (p <> [] /\ removelast p = dir) then [] else past p.

(** The sync of the directory after the rename, whose failure is ignored. *)
Definition put_syncs (c : choice) (p : put) (past : Journal) : Journal :=
  match pu_stage p with
  | PutRenamed => if ch_fails c then past else sync_dir (dir_of (path_of (pu_key p))) past
  | _ => past
  end.

Definition Get (d : Disk) (cancelled : bool) (key : string) : result FsErr node :=
  if cancelled then Err Cancelled else let! p := store_path key in stat d p.

Definition Exists_ (d : Disk) (cancelled : bool) (key : string) : result FsErr bool :=
  if cancelled then Err Cancelled
  else
    let! p := store_path key in
    match stat d p with
    | Ok _ => Ok true
    | Err NotExist => Ok false
    | Err e => Err e
    end.

Definition Delete (d : Disk) (cancelled : bool) (key : string) : Disk * result FsErr unit :=
  if cancelled then (d, Err Cancelled)
  else match store_path key with
       | Err e => (d, Err e)
       | Ok p => match remove d p with
                 | (d, Err NotExist) => (d, Ok tt)
                 | r => r
                 end
       end.

(** [filepath.WalkDir]: a directory before what it holds, entries by name. *)
Fixpoint path_leb (p q : Path) : bool :=
  match p, q with
  | [], _ => true
  | _ :: _, [] => false
  | a :: p, b :: q => if a == b then path_leb p q else String.leb a b
  end.
Definition path_le (p q : Path) : Prop := path_leb p q = true.
#[export] Instance path_le_dec : RelDecision path_le.
Proof. intros p q. unfold path_le. apply _. Defined.
Definition entry_le (a b : Path * node) : Prop := path_le a.1 b.1.
#[export] Instance entry_le_dec : RelDecision entry_le.
Proof. intros a b. unfold entry_le. apply _. Defined.
Definition walk (d : Disk) : list (Path * node) := merge_sort entry_le (map_to_list d).

(** [List]: the keys it passes to [fn], until that fails. *)
Definition listed (prefix : string) (e : Path * node) : option string :=
  match e.2 with
  | NDir => None
  | NFile _ _ =>
      if is_temp e.1 then None
      else
        let key := join_with "/" e.1 in
        if negb (prefix == "") && negb (has_prefix key prefix) then None else Some key
  end.
Fixpoint each {E : Type} (fn : string -> option E) (keys : list string) : list string * option E :=
  match keys with
  | [] => ([], None)
  | k :: keys =>
      match fn k with
      | Some e => ([k], Some e)
      | None => let '(seen, e) := each fn keys in (k :: seen, e)
      end
  end.
Definition List_ {E : Type} (d : Disk) (prefix : string) (fn : string -> option E) : list string * option E :=
  each fn (omap (listed prefix) (walk d)).

(** ** Operations in flight *)

Record blobs := mkBlobs { bl_disk : Disk; bl_puts : gmap nat put; bl_past : Journal }.
Definition no_blobs : blobs := mkBlobs ∅ ∅ (fun _ => []).

(** A machine that stops. Each entry is one of those it was since its directory was last
    synced, with any content if the file was not synced; and what is below a directory
    that is gone is gone. *)
Definition left_over (o o' : option node) : Prop :=
  match o with
  | Some (NFile _ false) => o' = None \/ exists c, o' = Some (NFile c false)
  | _ => o' = o
  end.
Definition was (s : blobs) (p : Path) (o : option node) : Prop := o = bl_disk s !! p \/ o ∈ bl_past s p.
Record tree (d : Disk) : Prop := {
  tr_root : d !! [] = None;
  tr_parent : forall p s, p <> [] -> is_Some (d !! (p ++ [s])) -> d !! p = Some NDir
}.
Record crashed (s : blobs) (d : Disk) : Prop := {
  cr_tree : tree d;
  cr_entry : forall p, (exists o, was s p o /\ left_over o (d !! p))
               \/ d !! p = None /\ exists q r, q <> [] /\ r <> [] /\ p = q ++ r /\ d !! q <> Some NDir
}.

(** What a step means for the blobs. *)
Inductive effect := Nothing | Stored (key content : string) | Deleted (key : string) | Crashed.
Definition put_effect (before after : put) : effect :=
  match pu_stage before, pu_stage after with
  | PutSynced _, PutRenamed => Stored (pu_key after) (copied after)
  | _, _ => Nothing
  end.

Inductive blob_step : blobs -> effect -> blobs -> Prop :=
| StepStart s i key data size :
    bl_puts s !! i = None -> is_temp (path_of key) = false ->
    blob_step s Nothing (mkBlobs (bl_disk s) (<[i := mkPut key data size PutBegin]> (bl_puts s)) (bl_past s))
| StepPut s i p c d p' :
    bl_puts s !! i = Some p -> put_step (bl_disk s) c p = (d, p') ->
    blob_step s (put_effect p p')
      (mkBlobs d (<[i := p']> (bl_puts s)) (put_syncs c p (journal (bl_disk s) d (bl_past s))))
| StepDelete s key d r :
    is_temp (path_of key) = false -> Delete (bl_disk s) false key = (d, r) ->
    blob_step s (if is_ok r then Deleted key else Nothing)
      (mkBlobs d (bl_puts s) (journal (bl_disk s) d (bl_past s)))
| StepCrash s d : crashed s d -> blob_step s Crashed (mkBlobs d ∅ (fun _ => [])).

Inductive blob_run : blobs -> Prop :=
| RunNone : blob_run no_blobs
| RunStep s e s' : blob_run s -> blob_step s e s' -> blob_run s'.

(** ** The specification: contents by key *)

Definition content_of (o : option node) : option string := match o with Some (NFile c _) => Some c | _ => None end.
Definition stored (d : Disk) (key : string) : option string := content_of (d !! path_of key).

(** The keys that no name of a write in progress can be. *)
Definition kept_apart (key : string) : Prop := is_temp (path_of key) = false.

(** The entries of a key and of the directories above it are all on the disk. *)
Definition durable (s : blobs) (key : string) : Prop :=
  forall q, q <> [] -> q `prefix_of` path_of key -> bl_past s q = [].

(** What a crash leaves of a key: its content, one it had since its directory was last
    synced, or nothing when that is such an entry or a directory above was not there
    at some time since its own was synced. *)
Definition after_crash (s : blobs) (key : string) (o : option string) : Prop :=
  (exists n, was s (path_of key) n /\ o = content_of n)
  \/ o = None /\ exists q n, q <> [] /\ q `prefix_of` path_of key /\ q <> path_of key /\ was s q n /\ n <> Some NDir.

Definition apply_effect (e : effect) (m : string -> option string) (key : string) : option string :=
  match e with
  | Nothing | Crashed => m key
  | Stored k c => if k == key then Some c else m key
  | Deleted k => if k == key then None else m key
  end.

(** ** Lemmas on trees *)

Lemma tr_ancestor d p q : tree d -> p <> [] -> q <> [] -> is_Some (d !! (p ++ q)) -> d !! p = Some NDir.
Proof.
  intros Ht Hp. induction q as [|s q IH] using rev_ind; [done|]. intros _ Hs. rewrite app_assoc in Hs.
  destruct q as [|x q].
  - rewrite app_nil_r in Hs. by eapply (tr_parent d Ht).
  - apply IH; [done|]. exists NDir. apply (tr_parent d Ht _ s); [by destruct p|done].
Qed.

Lemma stat_from_ok d : forall rest base here n, rest <> [] -> stat_from d base rest here = Ok n -> d !! (base ++ rest) = Some n.
Proof.
  induction rest as [|s rest IH]; intros base here n Hne H; [done|]. simpl in H. destruct here; [done|].
  destruct (d !! (base ++ [s])) as [m|] eqn:Em; [|done]. destruct rest as [|t rest].
  - simpl in H. injection H as <-. done.
  - apply IH in H; [|done]. by rewrite <- app_assoc in H.
Qed.

Lemma stat_from_found d : tree d -> forall rest base n, rest <> [] -> d !! (base ++ rest) = Some n -> stat_from d base rest NDir = Ok n.
Proof.
  intros Ht. induction rest as [|s rest IH]; intros base n Hne H; [done|]. simpl. destruct rest as [|t rest].
  - rewrite H. done.
  - change (s :: t :: rest) with ([s] ++ t :: rest) in H. rewrite app_assoc in H.
    assert (d !! (base ++ [s]) = Some NDir) as ->.
    { apply (tr_ancestor d _ (t :: rest)); [done|by destruct base|done|by eexists]. }
    by apply IH.
Qed.

Lemma stat_ok d p n : tree d -> p <> [] -> stat d p = Ok n <-> d !! p = Some n.
Proof. intros Ht Hp. split; [by apply (stat_from_ok d p [])|by apply (stat_from_found d Ht p [])]. Qed.

Lemma tree_insert d p n : tree d -> p <> [] -> removelast p = [] \/ d !! removelast p = Some NDir ->
  n = NDir \/ d !! p <> Some NDir -> tree (<[p := n]> d).
Proof.
  intros Ht Hp Hpar Hn. split.
  - rewrite lookup_insert_ne by done. apply (tr_root d Ht).
  - intros q s Hq. rewrite lookup_insert. case_decide as E.
    + subst. rewrite removelast_last in Hpar. intros _. rewrite lookup_insert_ne.
      * by destruct Hpar.
      * intros E. apply (f_equal length) in E. rewrite length_app in E. simpl in E. lia.
    + intros Hs. pose proof (tr_parent d Ht q s Hq Hs) as Hd. rewrite lookup_insert. case_decide; [|done]. subst.
      destruct Hn as [->|Hn]; done.
Qed.

Lemma tree_delete d p : tree d -> (forall s, d !! (p ++ [s]) = None) -> tree (delete p d).
Proof.
  intros Ht Hc. split; [rewrite lookup_delete; case_decide; [done|apply (tr_root d Ht)]|].
  intros q s Hq. rewrite lookup_delete. case_decide; [by intros [? ?]|]. intros Hs. rewrite lookup_delete. case_decide.
  - subst. rewrite Hc in Hs. by destruct Hs.
  - by eapply (tr_parent d Ht).
Qed.

Lemma file_no_children d p c b s : tree d -> p <> [] -> d !! p = Some (NFile c b) -> d !! (p ++ [s]) = None.
Proof.
  intros Ht Hp Hd. destruct (d !! (p ++ [s])) eqn:E; [|done]. rewrite (tr_parent d Ht p s Hp) in Hd; [done|by eexists].
Qed.

Lemma no_children d p s : has_children d p = false -> d !! (p ++ [s]) = None.
Proof.
  intros H. destruct (d !! (p ++ [s])) as [n|] eqn:E; [|done]. unfold has_children in H. apply bool_decide_eq_false in H.
  exfalso. apply H, Exists_exists. exists (p ++ [s]). split; [|split; [by eexists|]].
  - apply list_elem_of_fmap. exists (p ++ [s], n). split; [done|]. by apply elem_of_map_to_list.
  - intros Ep. apply (f_equal length) in Ep. rewrite length_app in Ep. simpl in Ep. lia.
Qed.

Lemma path_of_inj k k' : path_of k = path_of k' -> k = k'.
Proof. unfold path_of. intros H. rewrite <- (join_split k "/"), <- (join_split k' "/"). by rewrite H. Qed.
Lemma path_of_nonempty k : path_of k <> [].
Proof. apply split_byte_nonempty. Qed.

Lemma is_temp_tmp dir r : is_temp (dir ++ [".tmp-" +:+ r]) = true.
Proof. unfold is_temp, base_of. rewrite last_last. apply has_prefix_spec. by exists r. Qed.

(** ** Lemmas on contents *)

Definition same_blobs (d d' : Disk) : Prop := forall k, kept_apart k -> stored d' k = stored d k.

Lemma same_insert_temp d p n : is_temp p = true -> same_blobs d (<[p := n]> d).
Proof. intros Hp k E. unfold stored, kept_apart in *. rewrite lookup_insert_ne; [done|]. congruence. Qed.
Lemma same_delete_temp d p : is_temp p = true -> same_blobs d (delete p d).
Proof. intros Hp k E. unfold stored, kept_apart in *. rewrite lookup_delete_ne; [done|]. congruence. Qed.
Lemma same_insert_dir d p : d !! p = None -> same_blobs d (<[p := NDir]> d).
Proof.
  intros Hp k _. unfold stored. rewrite lookup_insert. case_decide as E; [|done]. by rewrite <- E, Hp.
Qed.

(** What [MkdirAll] may change: a missing element becomes a directory. *)
Record grows (d d' : Disk) : Prop := {
  gr_keeps : forall p n, d !! p = Some n -> d' !! p = Some n;
  gr_files : forall p c b, d' !! p = Some (NFile c b) -> d !! p = Some (NFile c b);
  gr_same : same_blobs d d'
}.
Lemma grows_refl d : grows d d.
Proof. by split. Qed.
Lemma grows_trans a b c : grows a b -> grows b c -> grows a c.
Proof. intros [H1 H2 H3] [K1 K2 K3]. split; [by auto|by eauto|]. intros k Hk. trans (stored b k); [by apply K3|by apply H3]. Qed.

Lemma mkdir_grows : forall rest d base d' r, tree d -> base = [] \/ d !! base = Some NDir ->
  mkdir_from d base rest = (d', r) -> tree d' /\ grows d d'.
Proof.
  induction rest as [|s rest IH]; intros d base d' r Ht Hb H; simpl in H; [injection H as <- <-; split; [done|apply grows_refl]|].
  destruct (d !! (base ++ [s])) as [[c b|]|] eqn:E.
  - injection H as <- <-. split; [done|apply grows_refl].
  - apply IH in H; [done|done|by right].
  - apply IH in H as [Ht' Hg]; [| |right; by rewrite lookup_insert_eq].
    + split; [done|]. eapply grows_trans; [|exact Hg]. split.
      * intros p n Hp. rewrite lookup_insert_ne; [done|]. congruence.
      * intros p c b. rewrite lookup_insert. by case_decide.
      * by apply same_insert_dir.
    + apply tree_insert; [done|by destruct base| |by left]. by rewrite removelast_last.
Qed.

(** ** The invariant *)

Definition temp_of (s : stage) : option Path :=
  match s with PutTemp t | PutCopied t | PutSynced t => Some t | _ => None end.

(** A new name is of its own [Put], beside the place the blob goes to; once synced it
    holds what is stored. *)
Definition put_temp (d : Disk) (p : put) (t : Path) : Prop :=
  is_temp t = true /\ t <> [] /\ removelast t = dir_of (path_of (pu_key p))
  /\ exists c b, d !! t = Some (NFile c b) /\ (pu_stage p = PutSynced t -> c = copied p /\ b = true).

Definition synced_blobs (d : Disk) : Prop :=
  forall p c b, d !! p = Some (NFile c b) -> is_temp p = false -> b = true /\ exists key, p = path_of key.

Record blob_inv (s : blobs) : Prop := {
  bi_tree : tree (bl_disk s);
  bi_synced : synced_blobs (bl_disk s);
  bi_temp : forall i p t, bl_puts s !! i = Some p -> temp_of (pu_stage p) = Some t -> put_temp (bl_disk s) p t;
  bi_apart : forall i j p q t, bl_puts s !! i = Some p -> bl_puts s !! j = Some q ->
               temp_of (pu_stage p) = Some t -> temp_of (pu_stage q) = Some t -> i = j;
  bi_keys : forall i p, bl_puts s !! i = Some p -> is_temp (path_of (pu_key p)) = false;
  bi_past : forall p c b, Some (NFile c b) ∈ bl_past s p -> is_temp p = false -> b = true /\ exists key, p = path_of key
}.

(** What one [Put] does to the disk, as the others see it. *)
Record moves (d : Disk) (p : put) (d' : Disk) (p' : put) : Prop := {
  mv_tree : tree d';
  mv_synced : synced_blobs d';
  mv_others : forall t n, is_temp t = true -> temp_of (pu_stage p) <> Some t -> d !! t = Some n -> d' !! t = Some n;
  mv_temp : forall t, temp_of (pu_stage p') = Some t -> put_temp d' p' t;
  mv_fresh : forall t, temp_of (pu_stage p') = Some t -> temp_of (pu_stage p) = Some t \/ d !! t = None;
  mv_key : pu_key p' = pu_key p;
  mv_stored : forall k, kept_apart k -> stored d' k = apply_effect (put_effect p p') (stored d) k
}.

Definition past_synced (past : Journal) : Prop :=
  forall p c b, Some (NFile c b) ∈ past p -> is_temp p = false -> b = true /\ exists key, p = path_of key.
Lemma past_journal d d' past : synced_blobs d -> past_synced past -> past_synced (journal d d' past).
Proof.
  intros Hd Hp p c b. unfold journal. case_decide; [apply Hp|]. rewrite elem_of_cons. intros [E|E]; [exact (Hd p c b (eq_sym E))|exact (Hp p c b E)].
Qed.
Lemma past_syncs c p past : past_synced past -> past_synced (put_syncs c p past).
Proof.
  intros Hp q x b. unfold put_syncs. destruct (pu_stage p); try apply Hp. destruct (ch_fails c); [apply Hp|].
  unfold sync_dir. case_bool_decide; [by intros ?%elem_of_nil|apply Hp].
Qed.

Lemma moves_inv s i p d' p' : blob_inv s -> bl_puts s !! i = Some p -> moves (bl_disk s) p d' p' ->
  forall c, blob_inv (mkBlobs d' (<[i := p']> (bl_puts s)) (put_syncs c p (journal (bl_disk s) d' (bl_past s)))).
Proof.
  intros [Ht Hs Htmp Hap Hk Hpast] Hi [Mt Ms Mo Mtmp Mf Mk _] ch. split; simpl; try done.
  - intros j q t. rewrite lookup_insert. case_decide as E; [subst; intros [= <-]; apply Mtmp|]. intros Hj Hq.
    destruct (Htmp j q t Hj Hq) as (H1 & H2 & H3 & c & b & Hd & Hc). split_and!; try done. exists c, b. split; [|done].
    apply Mo; [done| |done]. intros Hp. by apply E, (Hap i j p q t).
  - intros a b q r t. rewrite !lookup_insert. case_decide as E1; case_decide as E2; try (intros; congruence).
    + intros [= <-] Hr Hq Hr'. destruct (Mf t Hq) as [Hp|Hn]; [subst; by apply (Hap a b p r t)|].
      destruct (Htmp b r t Hr Hr') as (_ & _ & _ & c & x & Hd & _). congruence.
    + intros Hq [= <-] Hq' Hr. destruct (Mf t Hr) as [Hp|Hn]; [subst; by apply (Hap a b q p t)|].
      destruct (Htmp a q t Hq Hq') as (_ & _ & _ & c & x & Hd & _). congruence.
    + by apply Hap.
  - intros j q. rewrite lookup_insert. case_decide; [intros [= <-]; rewrite Mk; by apply (Hk i)|apply Hk].
  - apply past_syncs. by apply past_journal.
Qed.

Lemma moves_fail d p e : tree d -> synced_blobs d -> moves d p d (at_stage p (PutFailed e)).
Proof. intros Ht Hs. split; try done. intros k Hkk. unfold put_effect. by destruct (pu_stage p). Qed.

Lemma synced_insert_temp d t c b : synced_blobs d -> is_temp t = true -> synced_blobs (<[t := NFile c b]> d).
Proof. intros Hs Ht p c' b'. rewrite lookup_insert. case_decide; [intros; congruence|apply Hs]. Qed.
Lemma synced_delete d p : synced_blobs d -> synced_blobs (delete p d).
Proof. intros Hs q c b [_ Hq]%lookup_delete_Some. by apply (Hs q c b). Qed.
Lemma synced_grows d d' : grows d d' -> synced_blobs d -> synced_blobs d'.
Proof. intros Hg Hs p c b Hp. apply (Hs p c b). by apply (gr_files _ _ Hg). Qed.

Lemma tree_write d t c b c' b' : tree d -> t <> [] -> d !! t = Some (NFile c b) -> tree (<[t := NFile c' b']> d).
Proof.
  intros Ht Hne Hd. apply tree_insert; [done|done| |right; congruence].
  destruct (exists_last Hne) as (q & x & ->). rewrite removelast_last. destruct q as [|y q]; [by left|right].
  apply (tr_parent d Ht _ x); [done|by eexists].
Qed.

(** Writing the new file, and what it ends as. *)
Lemma moves_write d p t c b st : tree d -> synced_blobs d -> put_temp d p t -> temp_of (pu_stage p) = Some t ->
  temp_of st = Some t -> (st = PutSynced t -> c = copied p /\ b = true) ->
  moves d p (<[t := NFile c b]> d) (at_stage p st).
Proof.
  intros Ht Hs (H1 & H2 & H3 & c0 & b0 & Hd & _) Hp Hst Hc. split; simpl.
  - by eapply tree_write.
  - by apply synced_insert_temp.
  - intros u n Hu Hne Hn. rewrite lookup_insert_ne; [done|]. congruence.
  - intros u Hu. replace u with t by congruence. split_and!; try done. exists c, b. split; [apply lookup_insert_eq|done].
  - intros u Hu. left. congruence.
  - done.
  - intros k Hkk. rewrite (same_insert_temp d t _ H1 k Hkk). unfold put_effect, at_stage. simpl. by destruct (pu_stage p), st.
Qed.

Lemma remove_file d t c b : tree d -> t <> [] -> d !! t = Some (NFile c b) -> remove d t = (delete t d, Ok tt).
Proof. intros Ht Hne Hd. unfold remove. by rewrite (proj2 (stat_ok d t _ Ht Hne) Hd). Qed.

Lemma moves_abandon d p t e d' p' : tree d -> synced_blobs d -> put_temp d p t -> temp_of (pu_stage p) = Some t ->
  abandon d p t e = (d', p') -> moves d p d' p'.
Proof.
  intros Ht Hs (H1 & H2 & H3 & c0 & b0 & Hd & _) Hp. unfold abandon. rewrite (remove_file d t c0 b0) by done. simpl. intros [= <- <-].
  split; simpl; try done.
  - apply tree_delete; [done|]. intros s. by eapply file_no_children.
  - by apply synced_delete.
  - intros u n Hu Hne Hn. rewrite lookup_delete_ne; [done|]. congruence.
  - intros k Hkk. rewrite (same_delete_temp d t H1 k Hkk). unfold put_effect. by destruct (pu_stage p).
Qed.

(** The abandoned file may have been written before. *)
Lemma moves_write_abandon d p t c e d' p' : tree d -> synced_blobs d -> put_temp d p t -> temp_of (pu_stage p) = Some t ->
  abandon (<[t := NFile c false]> d) p t e = (d', p') -> moves d p d' p'.
Proof.
  intros Ht Hs Hpt Hp Ha. pose proof Hpt as (H1 & H2 & H3 & c0 & b0 & Hd & _). unfold abandon in Ha.
  assert (tree (<[t := NFile c false]> d)) as Ht' by (by eapply tree_write).
  rewrite (remove_file _ t c false Ht' H2 (lookup_insert_eq _ _ _)) in Ha.
  rewrite delete_insert_eq in Ha. apply (moves_abandon d p t e); try done. unfold abandon. by rewrite (remove_file d t c0 b0).
Qed.

Lemma stat_dir_exists d p n : stat d p = Ok n -> p = [] \/ d !! p = Some n.
Proof. intros H. destruct p as [|x p]; [by left|right]. by apply (stat_from_ok d (x :: p) [] NDir) in H. Qed.

Lemma base_app dir x : dir_of (dir ++ [x]) = dir.
Proof. apply removelast_last. Qed.

Lemma moves_create d p r : tree d -> synced_blobs d -> pu_stage p = PutDir ->
  let tmp := dir_of (path_of (pu_key p)) ++ [".tmp-" +:+ r] in
  stat d (dir_of (path_of (pu_key p))) = Ok NDir -> d !! tmp = None ->
  moves d p (<[tmp := NFile "" false]> d) (at_stage p (PutTemp tmp)).
Proof.
  intros Ht Hs Hp tmp Hdir Hn. assert (tmp <> []) as Hne by (unfold tmp; by destruct (dir_of _)).
  assert (is_temp tmp = true) as Htmp by apply is_temp_tmp. split; simpl.
  - apply tree_insert; [done|done| |right; by rewrite Hn]. unfold tmp. rewrite removelast_last. by apply stat_dir_exists.
  - by apply synced_insert_temp.
  - intros u n _ _ Hu. rewrite lookup_insert_ne; [done|]. congruence.
  - intros t [= <-]. split_and!; [done|done|apply base_app|]. exists "", false. split; [apply lookup_insert_eq|done].
  - intros t [= <-]. by right.
  - done.
  - intros k Hkk. rewrite (same_insert_temp d tmp _ Htmp k Hkk). unfold put_effect. by rewrite Hp.
Qed.

Lemma moves_mkdir d p d' r : tree d -> synced_blobs d -> pu_stage p = PutBegin ->
  mkdir_all d (dir_of (path_of (pu_key p))) = (d', r) ->
  forall st, temp_of st = None -> moves d p d' (at_stage p st).
Proof.
  intros Ht Hs Hp Hm st Hst. apply mkdir_grows in Hm as [Ht' Hg]; [|done|by left]. split; simpl; try done.
  - by eapply synced_grows.
  - intros t n _ _ Hn. by apply (gr_keeps _ _ Hg).
  - intros t. by rewrite Hst.
  - intros t. by rewrite Hst.
  - intros k Hkk. rewrite (gr_same _ _ Hg k Hkk). unfold put_effect. by rewrite Hp.
Qed.

(** The rename puts the whole content in place at once. *)
Lemma moves_rename d p t d' : tree d -> synced_blobs d -> put_temp d p t -> pu_stage p = PutSynced t ->
  is_temp (path_of (pu_key p)) = false ->
  rename d t (path_of (pu_key p)) = (d', Ok tt) -> moves d p d' (at_stage p PutRenamed).
Proof.
  intros Ht Hs (H1 & H2 & H3 & c & b & Hd & Hc) Hp Hkey. destruct (Hc Hp) as [-> ->]. set (dst := path_of (pu_key p)) in *.
  assert (dst <> []) as Hne by apply path_of_nonempty. assert (t <> dst) as Htd by congruence.
  unfold rename. rewrite (proj2 (stat_ok d t _ Ht H2) Hd). destruct (stat d (removelast dst)) as [[|]|] eqn:Ed; [done| |done].
  assert (forall n, n <> NDir -> tree (<[dst := n]> (delete t d)) \/ d !! dst = Some NDir) as Htree.
  { intros n Hn. destruct (decide (d !! dst = Some NDir)) as [|Hnd]; [by right|left]. apply tree_insert.
    - apply tree_delete; [done|]. intros s. by eapply file_no_children.
    - done.
    - apply stat_dir_exists in Ed as [E|E]; [by left|right]. rewrite lookup_delete_ne; [done|]. intros E'. rewrite <- E' in E. congruence.
    - right. by rewrite lookup_delete_ne. }
  intros H. assert (d !! dst <> Some NDir /\ d' = <[dst := NFile (copied p) true]> (delete t d)) as [Hnd ->].
  { destruct (d !! dst) as [[|]|] eqn:E; simplify_eq; split; congruence. }
  split; simpl; try done.
  - by destruct (Htree (NFile (copied p) true)).
  - intros q x y. rewrite lookup_insert. case_decide; [|by apply synced_delete]. intros [= <- <-] _. subst q. split; [done|by eexists].
  - intros u n Hu Hx Hn. rewrite lookup_insert_ne by congruence. rewrite lookup_delete_ne; [done|]. intros <-. by rewrite Hp in Hx.
  - intros k Hkk. unfold put_effect. rewrite Hp. simpl. unfold copied. simpl. destruct (pu_key p == k) eqn:Ek.
    + apply String.eqb_eq in Ek. subst k. unfold stored. change (path_of (pu_key p)) with dst. by rewrite lookup_insert_eq.
    + apply String.eqb_neq in Ek. rewrite <- (same_delete_temp d t H1 k Hkk). unfold stored.
      rewrite lookup_insert_ne; [done|]. intros E. by apply path_of_inj in E.
Qed.

Lemma rename_fails d p t d' e : rename d t p = (d', Err e) -> d' = d.
Proof. unfold rename. repeat case_match; congruence. Qed.

Lemma store_path_ok key dst : store_path key = Ok dst -> dst = path_of key.
Proof. unfold store_path. destruct (ValidateKey key); congruence. Qed.

Lemma put_step_moves s i p c d' p' : blob_inv s -> bl_puts s !! i = Some p -> put_step (bl_disk s) c p = (d', p') ->
  moves (bl_disk s) p d' p'.
Proof.
  intros Hs Hi. pose proof (bi_tree s Hs) as Ht. pose proof (bi_synced s Hs) as Hsy. pose proof (bi_keys s Hs i p Hi) as Hk.
  pose proof (fun t => bi_temp s Hs i p t Hi) as Htmp. unfold put_step. destruct (pu_stage p) as [| |t|t|t| | |e] eqn:Ep.
  - destruct (store_path (pu_key p)) as [dst|e] eqn:Ek; [|intros [= <- <-]; by apply moves_fail]. apply store_path_ok in Ek as ->.
    destruct (ch_fails c); [intros [= <- <-]; by apply moves_fail|].
    destruct (mkdir_all _ _) as [d [[]|e]] eqn:Em; intros [= <- <-]; by eapply moves_mkdir.
  - destruct (stat _ _) as [[|]|] eqn:Es; try (intros [= <- <-]; by apply moves_fail).
    destruct (bl_disk s !! _) eqn:Ed.
    + intros [= <- <-]. split; try done; [by rewrite Ep|by rewrite Ep|]. intros k Hkk. unfold put_effect. by rewrite Ep.
    + destruct (ch_fails c); intros [= <- <-]; [by apply moves_fail|]. by apply moves_create.
  - specialize (Htmp t eq_refl). destruct (ch_fails c); [intros H; eapply moves_write_abandon; try done; by rewrite Ep|].
    intros [= <- <-]. apply moves_write; try done. by rewrite Ep.
  - specialize (Htmp t eq_refl). destruct (ch_fails c); [intros H; eapply moves_abandon; try done; by rewrite Ep|].
    intros [= <- <-]. apply moves_write; try done. by rewrite Ep.
  - specialize (Htmp t eq_refl). destruct (ch_fails c); [intros H; eapply moves_abandon; try done; by rewrite Ep|].
    destruct (rename _ _ _) as [d [[]|e]] eqn:Er; [intros [= <- <-]; by eapply moves_rename|].
    apply rename_fails in Er as ->. intros H. eapply moves_abandon; try done; by rewrite Ep.
  - intros [= <- <-]. split; try done. intros k Hkk. unfold put_effect. by rewrite Ep.
  - intros [= <- <-]. split; try done; [by rewrite Ep|by rewrite Ep|]. intros k Hkk. unfold put_effect. by rewrite Ep.
  - intros [= <- <-]. split; try done; [by rewrite Ep|by rewrite Ep|]. intros k Hkk. unfold put_effect. by rewrite Ep.
Qed.

Lemma start_inv s i key data size : blob_inv s -> is_temp (path_of key) = false ->
  blob_inv (mkBlobs (bl_disk s) (<[i := mkPut key data size PutBegin]> (bl_puts s)) (bl_past s)).
Proof.
  intros [Ht Hs Htmp Hap Hk Hpast] Hkey. split; simpl; try done.
  - intros j q t. rewrite lookup_insert. case_decide; [by intros [= <-]|apply Htmp].
  - intros a b q r t. rewrite !lookup_insert. case_decide; [by intros [= <-]|]. case_decide; [by intros _ [= <-]|]. apply Hap.
  - intros j q. rewrite lookup_insert. case_decide; [by intros [= <-]|apply Hk].
Qed.

Lemma delete_moves s key d r : blob_inv s -> is_temp (path_of key) = false -> Delete (bl_disk s) false key = (d, r) ->
  blob_inv (mkBlobs d (bl_puts s) (journal (bl_disk s) d (bl_past s)))
  /\ forall k, stored d k = apply_effect (if is_ok r then Deleted key else Nothing) (stored (bl_disk s)) k.
Proof.
  intros Hs Hkey. pose proof (bi_tree s Hs) as Ht. pose proof (path_of_nonempty key) as Hne. unfold Delete.
  assert (blob_inv (mkBlobs (bl_disk s) (bl_puts s) (journal (bl_disk s) (bl_disk s) (bl_past s)))) as Hsame.
  { destruct Hs as [H1 H2 H3 H4 H5 H6]. split; simpl; try done. by apply past_journal. }
  destruct (store_path key) as [p|e] eqn:Ep; [|by intros [= <- <-]]. apply store_path_ok in Ep as ->.
  assert (bl_disk s !! path_of key = None -> forall k, stored (bl_disk s) k = apply_effect (Deleted key) (stored (bl_disk s)) k) as Hnone.
  { intros Hn k. simpl. destruct (key == k) eqn:Ek; [|done]. apply String.eqb_eq in Ek. subst. unfold stored. by rewrite Hn. }
  assert ((forall x, bl_disk s !! (path_of key ++ [x]) = None) ->
    let d := delete (path_of key) (bl_disk s) in
    blob_inv (mkBlobs d (bl_puts s) (journal (bl_disk s) d (bl_past s)))
    /\ forall k, stored d k = apply_effect (Deleted key) (stored (bl_disk s)) k) as Hdel.
  { intros Hc. split.
    - destruct Hs as [_ Hsy Htmp Hap Hk Hpast].
      split; simpl; try done; [by apply tree_delete|by apply synced_delete| |by apply past_journal].
      intros i p t Hi Hst. destruct (Htmp i p t Hi Hst) as (H1 & H2 & H3 & c & b & Hd & Hcb). split_and!; try done. exists c, b.
      rewrite lookup_delete_ne by congruence. done.
    - intros k. simpl. unfold stored. destruct (key == k) eqn:Ek.
      + apply String.eqb_eq in Ek. subst k. by rewrite lookup_delete_eq.
      + apply String.eqb_neq in Ek. rewrite lookup_delete_ne; [done|]. intros E. by apply path_of_inj in E. }
  unfold remove. destruct (stat (bl_disk s) (path_of key)) as [[c b|]|e] eqn:Es.
  - intros [= <- <-]. apply Hdel. intros x. apply (stat_ok _ _ _ Ht Hne) in Es. by eapply file_no_children.
  - destruct (has_children _ _) eqn:Eh; intros [= <- <-]; [by split|]. apply Hdel. intros x. by apply no_children.
  - assert (bl_disk s !! path_of key = None) as Hn.
    { destruct (bl_disk s !! path_of key) eqn:E; [|done]. apply (stat_ok _ _ _ Ht Hne) in E. congruence. }
    destruct e; intros [= <- <-]; (split; [done|]); try done. by apply Hnone.
Qed.

(** ** Crashes *)

(** An entry under a name of the store's keys is left as it was. *)
Lemma left_whole s p o n : blob_inv s -> is_temp p = false -> was s p o -> left_over o n -> n = o.
Proof.
  intros Hs Hp Ho Hl. destruct o as [[c b|]|]; try exact Hl. simpl in Hl. destruct b; [done|].
  destruct Ho as [Ho|Ho]; [by destruct (bi_synced s Hs p c false (eq_sym Ho) Hp)|by destruct (bi_past s Hs p c false Ho Hp)].
Qed.

Lemma crash_inv s d : blob_inv s -> crashed s d -> blob_inv (mkBlobs d ∅ (fun _ => [])).
Proof.
  intros Hs [Ht He]. split; simpl; try done; [|by intros p c b ?%elem_of_nil]. intros p c b Hp Hn.
  destruct (He p) as [(o & Ho & Hl)|[Hnone _]]; [|congruence]. apply (left_whole s p o) in Hl; [|done..].
  rewrite Hp in Hl. subst o. destruct Ho as [Ho|Ho]; [by apply (bi_synced s Hs p c b)|by apply (bi_past s Hs p c b)].
Qed.

(** The least entry above a lost one was itself not a directory. *)
Lemma lost_above s d q : crashed s d -> q <> [] -> d !! q <> Some NDir -> exists q' n, q' <> [] /\ q' `prefix_of` q /\ was s q' n /\ n <> Some NDir.
Proof.
  intros Hc. induction q as [q IH] using (induction_ltof1 _ (@length string)). unfold ltof in IH. intros Hq Hd.
  destruct (cr_entry s d Hc q) as [(o & Ho & Hl)|(_ & q' & r & H1 & H2 & -> & H3)].
  - exists q, o. split_and!; try done. intros ->. by simpl in Hl.
  - destruct (IH q') as (q2 & n & K1 & [k ->] & K3); [|done|done|].
    + rewrite length_app. destruct r; [done|]. simpl. lia.
    + exists q2, n. split_and!; try apply K3; [done|]. rewrite <- app_assoc. by eexists.
Qed.

Lemma crash_leaves s d k : blob_inv s -> crashed s d -> kept_apart k -> after_crash s k (stored d k).
Proof.
  intros Hs Hc Hk. unfold stored. destruct (cr_entry s d Hc (path_of k)) as [(o & Ho & Hl)|(Hn & q & r & H1 & H2 & H3 & H4)].
  - left. exists o. split; [done|]. by rewrite (left_whole s (path_of k) o (d !! path_of k)).
  - right. rewrite Hn. split; [done|]. destruct (lost_above s d q Hc H1 H4) as (q' & n & K1 & [u ->] & K3 & K4).
    exists q', n. rewrite H3, <- app_assoc. split_and!; try done; [by eexists|].
    intros E. rewrite <- (app_nil_r q') in E at 1. apply app_inv_head in E. destruct u, r; done.
Qed.

Lemma crash_durable s d k : blob_inv s -> crashed s d -> kept_apart k -> durable s k -> stored d k = stored (bl_disk s) k.
Proof.
  intros Hs Hc Hk Hd. destruct (crash_leaves s d k Hs Hc Hk) as [(n & [->|Hn] & ->)|(-> & q & n & H1 & H2 & H3 & H4 & H5)]; [done| |].
  - rewrite (Hd (path_of k) (path_of_nonempty k)) in Hn by done. by apply elem_of_nil in Hn.
  - destruct H4 as [->|Hn]; [|rewrite (Hd q H1 H2) in Hn; by apply elem_of_nil in Hn].
    unfold stored. destruct (bl_disk s !! path_of k) as [x|] eqn:E; [|done]. destruct H2 as [r Hr]. destruct H5.
    apply (tr_ancestor _ q r (bi_tree s Hs)); [done|intros ->; by rewrite app_nil_r in Hr|]. rewrite <- Hr, E. by eexists.
Qed.

(** What a step leaves. *)
Definition step_leaves (s : blobs) (e : effect) (s' : blobs) (k : string) : Prop :=
  match e with
  | Crashed => after_crash s k (stored (bl_disk s') k) /\ (durable s k -> stored (bl_disk s') k = stored (bl_disk s) k)
  | _ => stored (bl_disk s') k = apply_effect e (stored (bl_disk s)) k
  end.

Lemma blob_step_ok s e s' : blob_inv s -> blob_step s e s' ->
  blob_inv s' /\ forall k, kept_apart k -> step_leaves s e s' k.
Proof.
  intros Hs Hstep. destruct Hstep as [s i key data size Hi Hk|s i p c d p' Hi Hp|s key d r Hk Hd|s d Hc].
  - split; [by apply start_inv|done].
  - pose proof (put_step_moves s i p c d p' Hs Hi Hp) as Hm. split; [by eapply moves_inv|]. intros k Hk.
    pose proof (mv_stored _ _ _ _ Hm k Hk) as H. revert H. unfold put_effect, step_leaves. by destruct (pu_stage p), (pu_stage p').
  - destruct (delete_moves s key d r Hs Hk Hd) as [H1 H2]. split; [done|]. intros k _. specialize (H2 k). by destruct (is_ok r).
  - split; [by eapply crash_inv|]. intros k Hk. split; [by apply crash_leaves|by apply crash_durable].
Qed.

Lemma blob_run_inv s : blob_run s -> blob_inv s.
Proof.
  induction 1 as [|s e s' _ IH Hstep]; [|by eapply blob_step_ok].
  split; simpl; try done; [|by intros p c b ?%elem_of_nil]. split; [done|]. by intros p x _ [? ?].
Qed.

(** ** Reading *)

Lemma get_stored d key c : tree d -> ValidateKey key = Ok tt ->
  (exists b, Get d false key = Ok (NFile c b)) <-> stored d key = Some c.
Proof.
  intros Ht Hv. unfold Get, store_path. rewrite Hv. simpl. unfold stored. split.
  - intros [b Hb]. apply (stat_ok _ _ _ Ht (path_of_nonempty key)) in Hb. by rewrite Hb.
  - unfold content_of. destruct (d !! path_of key) as [[x b|]|] eqn:E; [|done|done]. intros [= ->]. exists b.
    by apply (stat_ok _ _ _ Ht (path_of_nonempty key)).
Qed.

Lemma each_all {E : Type} keys : each (fun _ => @None E) keys = (keys, None).
Proof. induction keys as [|k keys IH]; [done|]. simpl. by rewrite IH. Qed.

Lemma each_first {E : Type} (fn : string -> option E) before k after e :
  Forall (fun x => fn x = None) before -> fn k = Some e -> each fn (before ++ k :: after) = (before ++ [k], Some e).
Proof. intros Hb Hk. induction Hb as [|x l Hx _ IH]; simpl; [by rewrite Hk|]. by rewrite Hx, IH. Qed.

Lemma NoDup_omap_inj {A B} (f : A -> option B) l : NoDup l ->
  (forall x y k, x ∈ l -> y ∈ l -> f x = Some k -> f y = Some k -> x = y) -> NoDup (omap f l).
Proof.
  induction 1 as [|x l Hx Hn IH]; intros Hinj; [constructor|]. simpl.
  assert (NoDup (omap f l)) as Hl by (apply IH; intros; eapply Hinj; try done; by right).
  destruct (f x) as [k|] eqn:Ex; [|done]. apply NoDup_cons. split; [|done]. intros (y & Hy & Ey)%list_elem_of_omap.
  rewrite (Hinj x y k) in Hx; try done; [by left|by right].
Qed.

Definition has_key_prefix (prefix key : string) : bool := (prefix == "") || has_prefix key prefix.

Lemma listed_stored d prefix key : synced_blobs d ->
  key ∈ omap (listed prefix) (walk d) <-> kept_apart key /\ is_Some (stored d key) /\ has_key_prefix prefix key = true.
Proof.
  intros Hs. unfold walk. rewrite list_elem_of_omap. setoid_rewrite merge_sort_Permutation. setoid_rewrite elem_of_map_to_list'.
  unfold listed, stored, content_of, has_key_prefix, kept_apart. split.
  - intros ((p & [c b|]) & Hp & He); simpl in *; [|done]. destruct (is_temp p) eqn:Et; [done|].
    destruct (Hs p c b Hp Et) as (_ & k & ->). unfold path_of in He. rewrite join_split in He. destruct (negb _ && _) eqn:Ek; [done|].
    injection He as <-. split_and!; [done|by rewrite Hp|]. by destruct (prefix == ""), (has_prefix k prefix).
  - intros (Et & Hk & Hpre). destruct (d !! path_of key) as [[c b|]|] eqn:Ed; [|by destruct Hk|by destruct Hk].
    exists (path_of key, NFile c b). split; [done|]. simpl. rewrite Et. unfold path_of at 1 2. rewrite join_split.
    by destruct (prefix == ""), (has_prefix key prefix).
Qed.

Lemma listed_once d prefix : synced_blobs d -> NoDup (omap (listed prefix) (walk d)).
Proof.
  intros Hs. apply NoDup_omap_inj; [unfold walk; rewrite merge_sort_Permutation; apply NoDup_map_to_list|].
  assert (forall p n k, (p, n) ∈ walk d -> listed prefix (p, n) = Some k -> p = path_of k /\ d !! p = Some n) as H.
  { intros p n k Hp He. unfold walk in Hp. rewrite merge_sort_Permutation in Hp. apply elem_of_map_to_list in Hp.
    unfold listed in He. destruct n as [c b|]; simpl in He; [|done]. destruct (is_temp p) eqn:Et; [done|].
    destruct (Hs p c b Hp Et) as (_ & x & ->). unfold path_of in He at 1 2. rewrite join_split in He.
    destruct (_ && _); [done|]. by injection He as <-. }
  intros [p n] [q m] k Hp Hq Ep Eq. apply H in Ep as [-> Hn]; [|done]. apply H in Eq as [-> Hm]; [|done]. congruence.
Qed.

(** ** A [Put] whose calls do not fail *)

Lemma mkdir_makes : forall rest d base d', base = [] \/ d !! base = Some NDir -> tree d ->
  mkdir_from d base rest = (d', Ok tt) -> base ++ rest = [] \/ d' !! (base ++ rest) = Some NDir.
Proof.
  induction rest as [|s rest IH]; intros d base d' Hb Ht H; simpl in H; [injection H as <-; by rewrite app_nil_r|].
  replace (base ++ s :: rest) with ((base ++ [s]) ++ rest) by (by rewrite <- app_assoc).
  destruct (d !! (base ++ [s])) as [[c b|]|] eqn:E; [done| |].
  - apply (IH d); [by right|done|done].
  - apply IH in H; [done|right; apply lookup_insert_eq|]. apply tree_insert; [done|by destruct base| |by left].
    by rewrite removelast_last.
Qed.

Fixpoint run_put (fuel : nat) (c : choice) (d : Disk) (p : put) : Disk * put :=
  match fuel with
  | O => (d, p)
  | S fuel => let '(d, p) := put_step d c p in run_put fuel c d p
  end.

(** Six calls put a blob in place: when the directories can be made, the new name is
    free and the key is not itself a directory. *)
Lemma put_completes d key data size random d1 : tree d -> ValidateKey key = Ok tt ->
  mkdir_all d (dir_of (path_of key)) = (d1, Ok tt) -> d1 !! (dir_of (path_of key) ++ [".tmp-" +:+ random]) = None ->
  d1 !! path_of key <> Some NDir -> is_temp (path_of key) = false ->
  exists d', run_put 6 (mkChoice false 0 random) d (mkPut key data size PutBegin) = (d', mkPut key data size PutDone)
    /\ stored d' key = Some (str_take (Z.to_nat size) data).
Proof.
  intros Ht Hv Hm Hfree Hdst Hkey. pose proof (mkdir_makes _ _ _ _ (or_introl eq_refl) Ht Hm) as Hdir. simpl in Hdir.
  pose proof (mkdir_grows _ _ _ _ _ Ht (or_introl eq_refl) Hm) as [Ht1 _]. set (dir := dir_of (path_of key)) in *.
  set (tmp := dir ++ [".tmp-" +:+ random]) in *.
  assert (stat d1 dir = Ok NDir) as Hsd.
  { destruct Hdir as [->|Hd]; [done|]. destruct (decide (dir = [])) as [->|Hne]; [done|]. by apply stat_ok. }
  assert (tree (<[tmp := NFile "" false]> d1)) as Ht2.
  { apply tree_insert; [done|unfold tmp; by destruct dir| |right; by rewrite Hfree]. unfold tmp. by rewrite removelast_last. }
  assert (tmp <> []) as Hne by (unfold tmp; by destruct dir).
  assert (forall c b, tree (<[tmp := NFile c b]> d1)) as Ht3.
  { intros c b. rewrite <- (insert_insert_eq d1 tmp (NFile c b) (NFile "" false)). eapply tree_write; [done|done|apply lookup_insert_eq]. }
  set (content := str_take (Z.to_nat size) data).
  exists (<[path_of key := NFile content true]> (delete tmp (<[tmp := NFile content true]> d1))).
  assert (tmp <> path_of key) as Htd by (intros E; rewrite <- E in Hkey; unfold tmp in Hkey; by rewrite is_temp_tmp in Hkey).
  split; [|unfold stored; by rewrite lookup_insert_eq].
  set (c := mkChoice false 0 random). set (p := fun st => mkPut key data size st). change (mkPut key data size) with p.
  assert (put_step d c (p PutBegin) = (d1, p PutDir)) as E1.
  { unfold put_step, store_path. cbn [p pu_stage pu_key]. rewrite Hv. cbn [ch_fails c]. fold dir. by rewrite Hm. }
  assert (put_step d1 c (p PutDir) = (<[tmp := NFile "" false]> d1, p (PutTemp tmp))) as E2.
  { unfold put_step. cbn [p pu_stage pu_key ch_random c ch_fails]. fold dir tmp. by rewrite Hsd, Hfree. }
  assert (put_step (<[tmp := NFile "" false]> d1) c (p (PutTemp tmp)) = (<[tmp := NFile content false]> d1, p (PutCopied tmp))) as E3.
  { unfold put_step. cbn [p pu_stage ch_fails c]. by rewrite insert_insert_eq. }
  assert (put_step (<[tmp := NFile content false]> d1) c (p (PutCopied tmp)) = (<[tmp := NFile content true]> d1, p (PutSynced tmp))) as E4.
  { unfold put_step. cbn [p pu_stage ch_fails c]. by rewrite insert_insert_eq. }
  cbn [run_put]. rewrite E1, E2, E3, E4. unfold put_step. cbn [p pu_stage pu_key ch_fails c]. unfold rename.
  rewrite (proj2 (stat_ok _ tmp (NFile content true) (Ht3 _ _) Hne) (lookup_insert_eq _ _ _)).
  change (removelast (path_of key)) with dir.
  assert (stat (<[tmp := NFile content true]> d1) dir = Ok NDir) as ->.
  { destruct (decide (dir = [])) as [->|Hd]; [done|]. apply stat_ok; [done|done|]. rewrite lookup_insert_ne; [by destruct Hdir|].
    intros E. apply (f_equal length) in E. unfold tmp in E. rewrite length_app in E. simpl in E. lia. }
  rewrite lookup_insert_ne by done. destruct (d1 !! path_of key) as [[|]|]; done.
Qed.

Lemma hex_alnum s : str_forallb is_alnum (hex s) = true.
Proof.
  assert (forall d, 0 <= d < 16 -> is_alnum (hex_digit d) = true) as Hd.
  { intros d H. assert (d = 0 \/ d = 1 \/ d = 2 \/ d = 3 \/ d = 4 \/ d = 5 \/ d = 6 \/ d = 7 \/ d = 8 \/ d = 9 \/ d = 10 \/ d = 11
      \/ d = 12 \/ d = 13 \/ d = 14 \/ d = 15) as Hc by lia. by repeat destruct Hc as [-> | Hc]; try rewrite Hc. }
  induction s as [|c s IH]; [done|]. pose proof (byte_val_range c) as Hc.
  cbn [hex str_forallb]. rewrite IH, !Hd; [done| |]; [apply Z.mod_pos_bound; lia|].
  split; [apply Z.div_pos; lia|apply Z.div_lt_upper_bound; lia].
Qed.

(** Every key the service makes from a digest is one this store keeps apart from its
    own names. *)
Lemma bundle_key_fits content : ValidateKey (BundleBlobKey (sha256Hex content)) = Ok tt
  /\ is_temp (path_of (BundleBlobKey (sha256Hex content))) = false.
Proof.
  pose proof (sha256Hex_length content) as Hl. pose proof (hex_alnum (sha256 content)) as Hd.
  change (hex (sha256 content)) with (sha256Hex content) in Hd. revert Hl Hd. generalize (sha256Hex content) as h. intros h Hl Hd.
  assert (path_of (BundleBlobKey h) = ["bundles"; "sha256"; h +:+ ".tar.gz"]) as Hp.
  { unfold path_of, BundleBlobKey. cbn [String.app]. simpl. rewrite split_no_sep; [done|].
    rewrite str_forallb_app. apply andb_true_iff. split; [|done]. eapply str_forallb_impl; [|exact Hd].
    intros c Hc. destruct (c =? "/")%char eqn:E; [|done]. apply Ascii.eqb_eq in E. by subst. }
  assert (str_forallb isValidKeyRune h = true) as Hv.
  { eapply str_forallb_impl; [|exact Hd]. intros c Hc. unfold isValidKeyRune, is_alnum in *. by destruct (is_lower c), (is_upper c), (is_digit c). }
  destruct h as [|c h]; [done|]. simpl in Hd. apply andb_true_iff in Hd as [Hc _]. split.
  - apply ValidateKey_spec. unfold confined_key. change (split_byte ?k "/") with (path_of k). rewrite Hp.
    apply Forall_cons; split; [by split_and!|]. apply Forall_cons; split; [by split_and!|]. apply Forall_cons; split; [|by apply Forall_nil].
    split_and!; [done|by destruct h|by destruct h; simpl; try (intros [= -> ?])|]. rewrite str_forallb_app, Hv. done.
  - rewrite Hp. unfold is_temp, base_of. destruct (has_prefix _ _) eqn:E; [|done].
    apply has_prefix_spec in E as [r Hr]. injection Hr as -> _. by vm_compute in Hc.
Qed.

(** C39. The file store is a map from keys to contents that changes at once, and what a
    crash leaves of it is known. For keys whose last segment does not begin as the name
    of a write in progress does, and under any interleaving of the calls of any number
    of their [Put]s and [Delete]s, with calls that fail and crashes at any point: the
    contents change only where a rename of a [Put] succeeds, to all that [Put] copied,
    which is the first [size] bytes of its reader or all of a shorter one, or a [Delete]
    succeeds. A crash leaves a key its content, or one it had since its directory was
    last synced, never a part of one, or nothing when its entry or a directory above
    it was not there at some time since its own directory was synced; and exactly its
    content when no such entry is pending. The sync after a rename leaves the entry of
    the key itself with nothing pending; the directories above it, and removals, are
    never synced. [Get] reads the contents of its key; and [List] passes each such key
    with the prefix once, and never the name of a write in progress or left behind. *)
Theorem blobs_refine s e s' (Hrun : blob_run s) (Hstep : blob_step s e s') :
  (forall k, kept_apart k -> step_leaves s e s' k)
  /\ (forall i p c, bl_puts s !! i = Some p -> pu_stage p = PutRenamed -> ch_fails c = false ->
        let d' := (put_step (bl_disk s) c p).1 in
        d' = bl_disk s /\ put_syncs c p (journal (bl_disk s) d' (bl_past s)) (path_of (pu_key p)) = [])
  /\ (forall k c, ValidateKey k = Ok tt ->
        (exists b, Get (bl_disk s') false k = Ok (NFile c b)) <-> stored (bl_disk s') k = Some c)
  /\ (forall prefix, let keys := (List_ (bl_disk s') prefix (fun _ => @None unit)).1 in
        NoDup keys /\ forall k, k ∈ keys <-> kept_apart k /\ is_Some (stored (bl_disk s') k) /\ has_key_prefix prefix k = true).
Proof.
  destruct (blob_step_ok s e s' (blob_run_inv s Hrun) Hstep) as [[Ht Hs _ _ _ _] Heff]. split_and!; [done| | |].
  - intros i p c _ Hp Hc. unfold put_step, put_syncs. rewrite Hp, Hc. split; [done|]. unfold sync_dir.
    rewrite bool_decide_eq_true_2; [done|]. split; [apply path_of_nonempty|done].
  - intros k c. by apply get_stored.
  - intros prefix. unfold List_. rewrite each_all. split; [by apply listed_once|]. intros k. by apply listed_stored.
Qed.

(** ** Witness and examples *)

Definition sample_key : string := "bundles/sha256/ab.tar.gz".
Definition sample_put : put := mkPut sample_key "bundle" 6 PutBegin.
Definition calls_ok : choice := mkChoice false 0 "1".

(** One call of the [Put] with number [i]. *)
Definition play (i : nat) (c : choice) (s : blobs) : blobs :=
  match bl_puts s !! i with
  | Some q => let '(d, p) := put_step (bl_disk s) c q in mkBlobs d (<[i := p]> (bl_puts s)) (put_syncs c q (journal (bl_disk s) d (bl_past s)))
  | None => s
  end.
Lemma play_run i c s : blob_run s -> blob_run (play i c s).
Proof.
  intros Hs. unfold play. destruct (bl_puts s !! i) as [p|] eqn:Ep; [|done]. destruct (put_step _ _ _) as [d p'] eqn:E.
  eapply RunStep; [exact Hs|]. by eapply StepPut.
Qed.

Definition sample_state (n : nat) : blobs := Nat.iter n (play 0 calls_ok) (mkBlobs ∅ (<[0%nat := sample_put]> ∅) (fun _ => [])).
Lemma sample_run n : blob_run (sample_state n).
Proof.
  induction n as [|n IH]; [|by apply play_run]. eapply RunStep; [apply RunNone|].
  by apply (StepStart no_blobs 0 sample_key "bundle" 6).
Qed.

Lemma blobs_refine_witness : stored (bl_disk (sample_state 5)) sample_key = Some "bundle".
Proof.
  set (p := at_stage sample_put (PutSynced ["bundles"; "sha256"; ".tmp-1"])).
  assert (bl_puts (sample_state 4) !! 0%nat = Some p) as Hp by (vm_compute; reflexivity).
  destruct (put_step (bl_disk (sample_state 4)) calls_ok p) as [d q] eqn:Eq.
  pose proof (blobs_refine (sample_state 4) _ _ (sample_run 4) (StepPut _ 0 p calls_ok d q Hp Eq)) as [H _].
  assert (q = at_stage sample_put PutRenamed) as -> by (apply (f_equal snd) in Eq; vm_compute in Eq; by rewrite <- Eq).
  assert (bl_disk (sample_state 5) = d) as -> by (change (sample_state 5) with (play 0 calls_ok (sample_state 4)); unfold play; by rewrite Hp, Eq).
  exact (H sample_key eq_refl).
Defined.

(** A reader that ends early: less than the given size is stored, without an error. *)
Example short_reader_stored :
  let '(d, p) := run_put 6 calls_ok ∅ (mkPut sample_key "bun" 6 PutBegin) in
  pu_stage p = PutDone /\ stored d sample_key = Some "bun".
Proof. by vm_compute. Qed.

(** A key that is a directory of other keys is said to exist. *)
Example directory_exists :
  let '(d, _) := run_put 6 calls_ok ∅ sample_put in
  ValidateKey "bundles" = Ok tt /\ Exists_ d false "bundles" = Ok true /\ stored d "bundles" = None.
Proof. by vm_compute. Qed.

(** A valid key with the name of a write in progress is stored and not listed. *)
Example temp_key_not_listed :
  let '(d, p) := run_put 6 calls_ok ∅ (mkPut "a/.tmp-x" "blob" 4 PutBegin) in
  pu_stage p = PutDone /\ Get d false "a/.tmp-x" = Ok (NFile "blob" true) /\ List_ d "" (fun _ => @None unit) = ([], None).
Proof. by vm_compute. Qed.

(** A [Put] that has returned, its directory synced, and yet is lost in a crash: the
    directories it made were not. *)
Lemma new_directory_lost :
  option_map pu_stage (bl_puts (sample_state 6) !! 0%nat) = Some PutDone
  /\ crashed (sample_state 6) ∅ /\ stored ∅ sample_key = None.
Proof.
  split_and!; [by vm_compute| |done]. split; [split; [done|by intros ? ? _ [? ?]]|]. intros p. rewrite lookup_empty.
  destruct (bl_disk (sample_state 6) !! p) as [n|] eqn:E; [|left; exists None; by split; [left|]].
  assert (p ∈ map fst (map_to_list (bl_disk (sample_state 6)))) as Hp.
  { apply list_elem_of_fmap. exists (p, n). split; [done|]. by apply elem_of_map_to_list. }
  clear E. assert (Forall (fun p => None ∈ bl_past (sample_state 6) p \/ p = ["bundles"] ++ ["sha256"; "ab.tar.gz"])
    (map fst (map_to_list (bl_disk (sample_state 6))))) as Hall.
  { apply (bool_decide_eq_true_1 _). vm_compute. reflexivity. }
  rewrite Forall_forall in Hall. destruct (Hall p Hp) as [Hpast| ->].
  - left. exists None. split; [by right|done].
  - right. split; [done|]. exists ["bundles"], ["sha256"; "ab.tar.gz"]. by split_and!.
Qed.
