(* ===== verification/Api.v ===== *)
(** * Api: the management API, its answers and the organization's routes

    Models src/server/internal/api: respond.go, the handler record of handler.go
    and org.go: reading and changing the organization's settings, its login
    rules, its users and its audit log. A handler is a program whose error is the
    [service.Error] the response reports; the shared use cases (exported in the
    code, and called by the MCP tools as well) are operations of their own.
    Where a use case reads before it writes, the two phases are named, so that
    other requests can be put between them. *)

From stdpp Require Import sorting.
From S2P Require Import Prelude GoNum GoTime GoURL Types Authz Settings Store StoreCreds Service.
From S2P Require Import Tokens Sessions CLIAuth Functions.

(** ** JSON bodies *)

(** [json.NewDecoder(r.Body).Decode]: the first value of a body, whatever follows
    it. *)
Inductive StreamErr := StreamEOF | StreamSyntax.

Class JsonStream {J : JsonText} := {
  json_first : string -> result StreamErr json;
  json_first_whole s j : json_parse s = Some j -> json_first s = Ok j
}.

(** Decoding into an [any] and encoding it again, of a document whose keys are
    sorted and whose numbers are exact in 64 bits of floating point. *)
Fixpoint json_plain (j : json) : bool :=
  match j with
  | JInt n => Z.abs n <=? 2 ^ 53
  | JFloat _ => false
  | JArr l => forallb json_plain l
  | JObj l => forallb (fun kv => json_plain kv.2) l
              && bool_decide (Sorted (fun a b => String.ltb a b = true) (map fst l))
  | _ => true
  end.

Class JsonAny := {
  json_any : json -> json;
  json_any_plain j : json_plain j = true -> json_any j = j
}.

(** [map[string]any]: an object with sorted keys. *)
Definition key_le (a b : string * json) : Prop := String.leb a.1 b.1 = true.
#[export] Instance key_le_dec : RelDecision key_le.
Proof. intros a b. unfold key_le. apply _. Defined.
Definition obj (kvs : list (string * json)) : json := JObj (merge_sort key_le kvs).

(** A pointer field of a request body: [null] clears it. *)
Definition dec_pointer {A} (dec : json -> option A) (cur : option A) (j : json) : option (option A) :=
  match j with JNull => Some None | _ => option_map Some (dec j) end.

(** ** Requests, answers, the handler *)

(** [q_Body] is [None] when the body cannot be read. *)
Record ApiRequest := mkApiRequest {
  q_Auth : Sessions.Request;
  q_Path : string;
  q_RawQuery : string;
  q_ContentType : string;
  q_Body : option string
}.

Inductive Body := BodyJSON (j : json) | BodyError (code : string) (message : Msg) | NoBody.
Record ApiResponse := mkApiResponse { a_Status : Z; a_Body : Body }.

Definition writeJSON (status : Z) (j : json) : ApiResponse := mkApiResponse status (BodyJSON j).
Definition writeError (status : Z) (code message : string) : ApiResponse :=
  mkApiResponse status (BodyError code (Text message)).
Definition no_content : ApiResponse := mkApiResponse 204 NoBody.

(** [h_LocalOffset] is the zone the process runs in. *)
Record Handler := mkApiHandler {
  h_Deployer : Deployer;
  h_Auth : Auth;
  h_EnvKey : string;
  h_managedFunctionURL : option (string -> string -> option string);
  h_baseURL : string;
  h_LocalOffset : Time -> Z
}.

(** [splitPath] trims and splits at slashes. *)
Definition splitPath (path : string) : list string :=
  let is_slash := fun c => (c =? "/")%char in
  let trimmed := trim_right_func is_slash (trim_left_func is_slash path) in
  if trimmed == "" then [] else split_byte trimmed "/".

Definition refuse {A} (status : Z) (code message : string) : M Error A :=
  throw (newError status code (Text message) None).
Definition method_not_allowed {A} : M Error A := refuse 405 "method_not_allowed" "method not allowed".
Definition unknown_route {A} : M Error A := refuse 404 "not_found" "unknown API route".

(** [writeServiceError]. *)
Definition writeServiceError (e : Error) : ApiResponse :=
  mkApiResponse (Status e) (BodyError (Code e) (Message e)).

Definition answer (m : M Error ApiResponse) (w : World) : ApiResponse * World :=
  match m w with
  | (Ok resp, w') => (resp, w')
  | (Err e, w') => (writeServiceError e, w')
  end.

(** ** The texts of the enumerations *)

Definition role_string (r : Role) : string :=
  match r with RoleAdmin => "admin" | RoleWorkspaceManager => "workspace_manager" | RoleMember => "member" end.
Definition parse_role (s : string) : option Role :=
  if s == "admin" then Some RoleAdmin
  else if s == "workspace_manager" then Some RoleWorkspaceManager
  else if s == "member" then Some RoleMember
  else None.

Definition status_string (s : UserStatus) : string :=
  match s with UserStatusActive => "active" | UserStatusPending => "pending" | UserStatusDisabled => "disabled" end.
Definition parse_status (s : string) : option UserStatus :=
  if s == "active" then Some UserStatusActive
  else if s == "pending" then Some UserStatusPending
  else if s == "disabled" then Some UserStatusDisabled
  else None.

Definition rule_type_string (t : LoginRuleType) : string :=
  match t with
  | LoginRuleTypeEmailDomain => "email_domain"
  | LoginRuleTypeEmailExact => "email_exact"
  | LoginRuleTypeEmailGlob => "email_glob"
  | LoginRuleTypeDefault => "default"
  end.
Definition parse_rule_type (s : string) : option LoginRuleType :=
  if s == "email_domain" then Some LoginRuleTypeEmailDomain
  else if s == "email_exact" then Some LoginRuleTypeEmailExact
  else if s == "email_glob" then Some LoginRuleTypeEmailGlob
  else if s == "default" then Some LoginRuleTypeDefault
  else None.

Definition rule_action_string (a : LoginRuleAction) : string :=
  match a with LoginRuleActionAllow => "allow" | LoginRuleActionDeny => "deny" end.
Definition parse_rule_action (s : string) : option LoginRuleAction :=
  if s == "allow" then Some LoginRuleActionAllow
  else if s == "deny" then Some LoginRuleActionDeny
  else None.

Section Org.
Context {U : UnicodeTables} {J : JsonText} {S : JsonStream} {N : JsonAny} {I : IdGen}.

(** Decode the first value of a body into a struct. *)
Definition decode_body {A} (dec : A -> list (string * json) -> option A) (zero : A) (message : string)
    (r : ApiRequest) : M Error A :=
  match option_map json_first (q_Body r) with
  | Some (Ok j) =>
      match dec_object dec zero j with
      | Some a => ret a
      | None => refuse 400 "invalid_body" message
      end
  | _ => refuse 400 "invalid_body" message
  end.

(** ** org.go: settings *)

Definition requireOrgAdminActor (act : User) : M Error unit :=
  if CanUpdateOrgSettings (actor_of act) then ret tt
  else throw (Forbidden (Text "organization admin required")).

Definition loadOrgCtx : M Error Organization :=
  or_err (fun e => match e with
                   | ErrNotFound => internal "organization is not initialized" e
                   | e => internal "failed to load organization" e
                   end) Organizations_Get.

Definition parse_org (o : Organization) : M Error Org :=
  lift (map_err (fun e => Internal "failed to parse organization settings" (Some (CSettings e)))
          (ParseOrg (o_Settings o))).

Definition GetOrgSettings : M Error (string * Org * Z) :=
  do! org <- loadOrgCtx;
  do! s <- parse_org org;
  ret (o_Name org, s, o_SettingsGen org).

Definition org_body (x : string * Org * Z) : list (string * json) :=
  [("name", JStr x.1.1); ("settings", org_json x.1.2); ("settings_gen", JInt x.2)].

Definition handleOrgGet : M Error ApiResponse :=
  do! x <- GetOrgSettings;
  ret (writeJSON 200 (obj (org_body x))).

(** The reads and checks of [UpdateOrgSettings]: the row as it was loaded, the
    settings to store, and whether open mode is turned on. *)
Definition org_update_check (act : User) (patch : string) : M Error (Organization * Org * bool) :=
  run! requireOrgAdminActor act;
  do! org <- or_err (internal "failed to load organization") Organizations_Get;
  do! cur <- parse_org org;
  match option_map (dec_object dec_org cur) (json_parse patch) with
  | Some (Some new) =>
      if negb (IsLanguage (Language new)) then
        throw (BadRequest "invalid_language" (Text ("language must be " +:+ quoted "en" +:+ " or " +:+ quoted "ja")) None)
      else
        let openModeJustEnabled := OpenMode new && negb (OpenMode cur) in
        if openModeJustEnabled then
          do! wss <- or_err (internal "failed to check existing workspaces") Workspaces_ListAll;
          if (0 <? length wss)%nat then
            refuse 409 "workspaces_exist"
              "cannot enable open mode while workspaces still exist; delete every workspace first"
          else ret (org, new, true)
        else ret (org, new, false)
  | _ => throw (BadRequest "invalid_body"
           (Text "request body must be a JSON object matching the organization settings schema")
           (Some CEncode))
  end.

Definition with_settings (o : Organization) (s : Org) : Organization :=
  mkOrganization (o_ID o) (o_Name o) (Org_JSON s) (o_SettingsGen o + 1) (o_CreatedAt o) (o_UpdatedAt o).

(** The write. *)
Definition org_update_apply (act : User) (x : Organization * Org * bool) : M Error (string * Org * Z * bool) :=
  let '(org, cur, justEnabled) := x in
  let org := with_settings org cur in
  run! or_err (internal "failed to update organization settings") (Organizations_Update org);
  run! attempt (Audit (u_ID act) "org.settings.update" "org" (Some (org_json cur)));
  ret (o_Name org, cur, o_SettingsGen org, justEnabled).

Definition UpdateOrgSettings (act : User) (patch : string) : M Error (string * Org * Z * bool) :=
  do! x <- org_update_check act patch;
  org_update_apply act x.

Definition handleOrgPatch (act : User) (r : ApiRequest) : M Error ApiResponse :=
  match q_Body r with
  | None => refuse 400 "invalid_body" "failed to read request body"
  | Some body =>
      do! x <- UpdateOrgSettings act body;
      ret (writeJSON 200 (obj (org_body x.1
             ++ (if x.2 : bool then [("open_mode_just_enabled", JBool true)] else []))))
  end.

(** Its callers report any error alike. *)
Definition openModeEnabled : M Error bool :=
  do! org <- or_err (internal "failed to load organization settings") Organizations_Get;
  do! s <- lift (map_err (fun e => Internal "failed to load organization settings" (Some (CSettings e)))
                   (ParseOrg (o_Settings org)));
  ret (OpenMode s).

(** ** org.go: login rules *)

Record LoginRuleInput := mkLoginRuleInput { ri_Type : string; ri_Value : string; ri_Action : string }.

Definition dec_rule (cur : LoginRuleInput) (kvs : list (string * json)) : option LoginRuleInput :=
  match field "type" dec_string (ri_Type cur) kvs, field "value" dec_string (ri_Value cur) kvs,
        field "action" dec_string (ri_Action cur) kvs with
  | Some t, Some v, Some a => Some (mkLoginRuleInput t v a)
  | _, _, _ => None
  end.

(** A slice, [None] when it is nil. *)
Definition dec_rules (cur : option (list LoginRuleInput)) (j : json) : option (option (list LoginRuleInput)) :=
  match j with
  | JArr l => option_map Some (mapM (dec_object dec_rule (mkLoginRuleInput "" "" "")) l)
  | JNull => Some None
  | _ => None
  end.

Definition loginRuleDTO (r : LoginRule) : json :=
  obj [("id", JStr (lr_ID r)); ("ord", JInt (lr_Ord r)); ("type", JStr (rule_type_string (lr_RuleType r)));
       ("value", JStr (lr_Value r)); ("action", JStr (rule_action_string (lr_Action r)))].

Definition ListLoginRules : M Error (list LoginRule) :=
  or_err (internal "failed to list login rules") Organizations_ListLoginRules.

Definition rules_body (rules : list LoginRule) : json := obj [("login_rules", JArr (map loginRuleDTO rules))].

Definition handleLoginRulesGet : M Error ApiResponse :=
  do! rules <- ListLoginRules;
  ret (writeJSON 200 (rules_body rules)).

(** The rules of a request, numbered in order. *)
Fixpoint convert_rules (ord : Z) (items : list LoginRuleInput) : result Error (list LoginRule) :=
  match items with
  | [] => Ok []
  | item :: items =>
      match parse_rule_type (ri_Type item) with
      | None => Err (BadRequest "invalid_rule_type"
                  (Text "login rule type must be one of email_domain, email_exact, email_glob, default") None)
      | Some t =>
          match parse_rule_action (ri_Action item) with
          | None => Err (BadRequest "invalid_rule_action"
                      (Text ("login rule action must be " +:+ quoted "allow" +:+ " or " +:+ quoted "deny")) None)
          | Some a =>
              let! rest := convert_rules (ord + 1) items in
              Ok (mkLoginRule "" ord t (ri_Value item) a 0 0 :: rest)
          end
      end
  end.

Definition rule_input_json (item : LoginRuleInput) : json :=
  JObj [("type", JStr (ri_Type item)); ("value", JStr (ri_Value item)); ("action", JStr (ri_Action item))].

Definition ReplaceLoginRules (act : User) (input : option (list LoginRuleInput)) : M Error (list LoginRule) :=
  run! requireOrgAdminActor act;
  do! rules <- lift (convert_rules 0 (default [] input));
  if negb (EvaluateLoginRules rules (u_Email act)) then
    throw (BadRequest "self_lockout"
      (Text "this rule set would deny your own account's email; adjust it so you remain permitted to sign in") None)
  else
    run! or_err (internal "failed to replace login rules") (Organizations_ReplaceLoginRules rules);
    run! attempt (Audit (u_ID act) "org.login_rules.update" "org"
                    (Some (match input with Some l => JArr (map rule_input_json l) | None => JNull end)));
    ListLoginRules.

Definition handleLoginRulesPut (act : User) (r : ApiRequest) : M Error ApiResponse :=
  do! input <- decode_body (fun cur kvs => field "login_rules" dec_rules cur kvs) None
                 ("request body must be {" +:+ quoted "login_rules" +:+ ": [...]}") r;
  do! rules <- ReplaceLoginRules act input;
  ret (writeJSON 200 (rules_body rules)).

(** ** org.go: users *)

Definition userDTO (u : User) : json :=
  obj [("id", JStr (u_ID u)); ("email", JStr (u_Email u)); ("name", JStr (u_Name u));
       ("role", JStr (role_string (u_Role u))); ("status", JStr (status_string (u_Status u)));
       ("created_at", JStr (json_time (u_CreatedAt u)))].

Definition ListUsers (act : User) : M Error (list User) :=
  run! requireOrgAdminActor act;
  or_err (internal "failed to list users") Users_List.

Definition handleOrgUsersList (act : User) : M Error ApiResponse :=
  do! users <- ListUsers act;
  ret (writeJSON 200 (obj [("users", JArr (map userDTO users))])).

Definition is_active_admin (u : User) : bool :=
  bool_decide (u_Role u = RoleAdmin) && bool_decide (u_Status u = UserStatusActive).

Definition countOtherActiveAdmins (excludeID : string) : M StoreErr Z :=
  do! users <- Users_List;
  ret (Z.of_nat (length (List.filter (fun u => negb (u_ID u == excludeID) && is_active_admin u) users))).

(** The new value of an optional field. *)
Definition chosen {A} (parse : string -> option A) (cur : A) (requested : option string) (e : Error)
    : M Error A :=
  match requested with
  | None => ret cur
  | Some s => match parse s with Some a => ret a | None => throw e end
  end.

Definition invalid_role : Error :=
  BadRequest "invalid_role" (Text ("role must be " +:+ quoted "admin" +:+ ", " +:+ quoted "workspace_manager"
    +:+ ", or " +:+ quoted "member")) None.
Definition invalid_status : Error :=
  BadRequest "invalid_status" (Text ("status must be " +:+ quoted "active" +:+ ", " +:+ quoted "pending"
    +:+ ", or " +:+ quoted "disabled")) None.

Definition demoting (target : User) (newRole : Role) (newStatus : UserStatus) : bool :=
  bool_decide (u_Role target = RoleAdmin)
  && (negb (bool_decide (newRole = RoleAdmin))
      || (negb (bool_decide (newStatus = UserStatusActive))
          && bool_decide (u_Status target = UserStatusActive))).

Definition with_role_status (u : User) (r : Role) (s : UserStatus) : User :=
  mkUser (u_ID u) (u_Provider u) (u_ProviderSubject u) (u_Email u) (u_Name u) r s (u_Language u)
    (u_CreatedAt u) (u_UpdatedAt u).

(** The reads and checks of [PatchUser]: the row as it was loaded and the row to
    store. *)
Definition patch_check (act : User) (id : string) (role status : option string) : M Error (User * User) :=
  run! requireOrgAdminActor act;
  do! target <- or_err (fun e => NotFoundErr (Text "user not found") (Some (CStore e))) (Users_ByID id);
  do! newRole <- chosen parse_role (u_Role target) role invalid_role;
  do! newStatus <- chosen parse_status (u_Status target) status invalid_status;
  run! (if demoting target newRole newStatus then
          do! remaining <- or_err (internal "failed to check remaining admins")
                             (countOtherActiveAdmins (u_ID target));
          if remaining =? 0 then
            throw (ConflictErr (Text "cannot remove the organization's last active admin") None)
          else ret tt
        else ret tt);
  ret (target, with_role_status target newRole newStatus).

Definition approval_action (prev new : UserStatus) : string :=
  match prev, new with
  | UserStatusPending, UserStatusActive => "approved"
  | UserStatusPending, UserStatusDisabled => "rejected"
  | _, _ => ""
  end.

(** The write. *)
Definition patch_apply (act : User) (x : User * User) : M Error (User * string) :=
  let '(old, new) := x in
  run! or_err (internal "failed to update user") (Users_Update new);
  let label := approval_action (u_Status old) (u_Status new) in
  run! attempt (Audit (u_ID act) "org.user.update" ("user:" +:+ u_ID new)
         (Some (obj [("role", JStr (role_string (u_Role new))); ("status", JStr (status_string (u_Status new)));
                     ("previous_role", JStr (role_string (u_Role old)));
                     ("previous_status", JStr (status_string (u_Status old)));
                     ("approval_action", JStr label)])));
  ret (new, label).

Definition PatchUser (act : User) (id : string) (role status : option string) : M Error (User * string) :=
  do! x <- patch_check act id role status;
  patch_apply act x.

Record UserPatch := mkUserPatch { up_Role : option string; up_Status : option string; up_Disabled : option bool }.

Definition json_string (j : json) : option string := match j with JStr s => Some s | _ => None end.
Definition json_bool (j : json) : option bool := match j with JBool b => Some b | _ => None end.

Definition dec_user_patch (cur : UserPatch) (kvs : list (string * json)) : option UserPatch :=
  match field "role" (dec_pointer json_string) (up_Role cur) kvs,
        field "status" (dec_pointer json_string) (up_Status cur) kvs,
        field "disabled" (dec_pointer json_bool) (up_Disabled cur) kvs with
  | Some r, Some s, Some d => Some (mkUserPatch r s d)
  | _, _, _ => None
  end.

(** The deprecated [disabled] counts when there is no [status]. *)
Definition requested_status (p : UserPatch) : option string :=
  match up_Status p, up_Disabled p with
  | None, Some d => Some (status_string (if d : bool then UserStatusDisabled else UserStatusActive))
  | s, _ => s
  end.

Definition handleOrgUserPatch (act : User) (r : ApiRequest) (id : string) : M Error ApiResponse :=
  run! requireOrgAdminActor act;
  do! body <- decode_body dec_user_patch (mkUserPatch None None None) "request body must be JSON" r;
  do! x <- PatchUser act id (up_Role body) (requested_status body);
  ret (writeJSON 200 (userDTO x.1)).

(** ** org.go: the audit log *)

Definition parsePositiveInt (s : string) : option Z :=
  match atoi s with Some n => if n <=? 0 then None else Some n | None => None end.

(** The identifier a next page starts below. *)
Definition next_cursor {A} (id : A -> string) (l : list A) : string :=
  match last l with Some x => id x | None => "" end.

Definition ListAuditLogs (act : User) (cursor : string) (limit : Z) : M Error (list AuditLog * string) :=
  run! requireOrgAdminActor act;
  do! logs <- or_err (internal "failed to list audit logs") (Audit_List cursor limit);
  ret (logs, next_cursor al_ID logs).

Definition AuditLogDTO (l : AuditLog) : json :=
  obj [("id", JStr (al_ID l)); ("actor_id", JStr (al_ActorID l)); ("action", JStr (al_Action l));
       ("target", JStr (al_Target l));
       ("detail", match json_parse (al_Detail l) with Some j => json_any j | None => JNull end);
       ("created_at", JStr (json_time (al_CreatedAt l)))].

Definition query_limit (r : ApiRequest) : Z := default 0 (parsePositiveInt (query_get (q_RawQuery r) "limit")).

Definition handleAuditLogs (act : User) (r : ApiRequest) : M Error ApiResponse :=
  do! x <- ListAuditLogs act (query_get (q_RawQuery r) "cursor") (query_limit r);
  ret (writeJSON 200 (obj [("audit_logs", JArr (map AuditLogDTO x.1)); ("next_cursor", JStr x.2)])).

(** ** [routeOrg] *)

Definition routeOrg (act : User) (r : ApiRequest) (rest : list string) : M Error ApiResponse :=
  let m := r_Method (q_Auth r) in
  match rest with
  | [] =>
      if m == "GET" then handleOrgGet
      else if m == "PATCH" then handleOrgPatch act r
      else method_not_allowed
  | [s] =>
      if s == "login-rules" then
        if m == "GET" then handleLoginRulesGet
        else if m == "PUT" then handleLoginRulesPut act r
        else method_not_allowed
      else if s == "users" then if m == "GET" then handleOrgUsersList act else method_not_allowed
      else if s == "audit-logs" then if m == "GET" then handleAuditLogs act r else method_not_allowed
      else unknown_route
  | [s; id] =>
      if s == "users" then if m == "PATCH" then handleOrgUserPatch act r id else method_not_allowed
      else unknown_route
  | _ => unknown_route
  end.
End Org.

(** ** A concrete text codec, for the witnesses *)

Program Definition sample_stream : JsonStream (J := numeral_json) := {|
  json_first s := match json_parse s with
                  | Some j => Ok j
                  | None => Err (if s == "" then StreamEOF else StreamSyntax)
                  end
|}.
Next Obligation. intros s j H. cbv beta. by rewrite H. Qed.

Program Definition sample_any : JsonAny := {| json_any j := j |}.
Next Obligation. done. Qed.
