(* ===== verification/ApiWorkspaces.v ===== *)
(** * ApiWorkspaces: the workspace routes of the management API

    Models src/server/internal/api/workspaces.go: creating, reading, changing and
    deleting workspaces and their memberships. As in [Api], a use case that reads
    before it writes is split at that point. *)

From stdpp Require Import sorting.
From S2P Require Import Prelude GoNum GoTime Types Authz Settings Store StoreCreds Service.
From S2P Require Import Tokens Sessions CLIAuth Functions Api.

Section Workspaces.
Context {U : UnicodeTables} {J : JsonText} {S : JsonStream} {I : IdGen}.

Definition workspaceDTO (x : Workspace) (s : WorkspaceSettings) : list (string * json) :=
  [("id", JStr (w_ID x)); ("name", JStr (w_Name x)); ("settings", workspace_json s);
   ("settings_gen", JInt (w_SettingsGen x)); ("created_at", JStr (json_time (w_CreatedAt x)))].

Definition resolveWorkspace (workspaceID : string) : M Error (Workspace * WorkspaceSettings) :=
  do! x <- lookup_or (NotFoundErr (Text "workspace not found") (Some (CStore ErrNotFound)))
             "failed to load workspace" (Workspaces_ByID workspaceID);
  do! s <- lift (map_err (fun e => Internal "failed to parse workspace settings" (Some (CSettings e)))
                   (ParseWorkspace (w_Settings x)));
  ret (x, s).

(** [workspaceRoleFor] reads as [service]'s own lookup does. *)
Definition workspaceRoleFor (wsID userID : string) : M StoreErr (option Role) :=
  do! members <- Workspaces_ListMembers wsID;
  ret (option_map wm_Role (List.find (fun m => wm_UserID m == userID) members)).

Definition ListWorkspaces (act : User) : M Error (list Workspace) :=
  or_err (internal "failed to list workspaces")
    (if bool_decide (u_Role act = RoleAdmin) then Workspaces_ListAll
     else Workspaces_ListForUser (u_ID act)).

(** A workspace whose settings do not parse is left out. *)
Fixpoint workspace_dtos (wss : list Workspace) : list json :=
  match wss with
  | [] => []
  | x :: wss =>
      match ParseWorkspace (w_Settings x) with
      | Ok s => obj (workspaceDTO x s) :: workspace_dtos wss
      | Err _ => workspace_dtos wss
      end
  end.

Definition handleWorkspacesList (act : User) : M Error ApiResponse :=
  do! wss <- ListWorkspaces act;
  ret (writeJSON 200 (obj [("workspaces", JArr (workspace_dtos wss))])).

(** ** Creating *)

Definition create_check (act : User) (name : string) : M Error unit :=
  do! openMode <- openModeEnabled;
  if (openMode : bool) then
    throw (NotFoundErr (Text "workspace creation is not available while the organization is in open mode") None)
  else if name == "" then throw (BadRequest "invalid_name" (Text "workspace name is required") None)
  else if negb (CanCreateWorkspace (actor_of act)) then
    throw (Forbidden (Text "workspace creation is not permitted"))
  else ret tt.

Definition create_apply (act : User) (name : string) : M Error Workspace :=
  do! x <- or_err (internal "failed to create workspace")
             (Store_CreateWorkspace (mkWorkspace "" name (Workspace_JSON DefaultWorkspace) 1 0 0) (u_ID act));
  run! attempt (Audit (u_ID act) "workspace.create" ("workspace:" +:+ w_ID x)
                  (Some (obj [("name", JStr name)])));
  ret x.

Definition CreateWorkspace (act : User) (name : string) : M Error Workspace :=
  run! create_check act name;
  create_apply act name.

Definition handleWorkspaceCreate (act : User) (r : ApiRequest) : M Error ApiResponse :=
  do! name <- decode_body (fun cur kvs => field "name" dec_string cur kvs) ""
                ("request body must be JSON: {" +:+ quoted "name" +:+ "}") r;
  do! x <- CreateWorkspace act name;
  ret (writeJSON 201 (obj (workspaceDTO x DefaultWorkspace))).

(** ** Reading *)

Definition GetWorkspace (act : User) (workspaceID : string)
    : M Error (Workspace * WorkspaceSettings * list WorkspaceMember) :=
  do! x <- resolveWorkspace workspaceID;
  do! role <- or_err (internal "failed to load membership") (workspaceRoleFor (w_ID x.1) (u_ID act));
  if negb (bool_decide (u_Role act = RoleAdmin)) && negb (bool_decide (is_Some role)) then
    throw (NotFoundErr (Text "workspace not found") None)
  else
    do! members <- or_err (internal "failed to list members") (Workspaces_ListMembers (w_ID x.1));
    ret (x, members).

Definition memberDTO (m : WorkspaceMember) : json :=
  obj [("user_id", JStr (wm_UserID m)); ("role", JStr (role_string (wm_Role m)))].

Definition handleWorkspaceGet (act : User) (workspaceID : string) : M Error ApiResponse :=
  do! x <- GetWorkspace act workspaceID;
  ret (writeJSON 200 (obj (workspaceDTO x.1.1 x.1.2 ++ [("members", JArr (map memberDTO x.2))]))).

Definition handleWorkspaceMemberGet (act : User) (workspaceID userID : string) : M Error ApiResponse :=
  do! x <- GetWorkspace act workspaceID;
  match List.find (fun m => wm_UserID m == userID) x.2 with
  | Some m => ret (writeJSON 200 (memberDTO m))
  | None => throw (NotFoundErr (Text "member not found") None)
  end.

(** ** Changing and deleting *)

Definition requireManageWorkspaceActor (act : User) (wsID : string) : M Error unit :=
  do! role <- or_err (internal "failed to load membership") (workspaceRoleFor wsID (u_ID act));
  if CanManageWorkspace (actor_of act) role then ret tt
  else throw (Forbidden (Text "not permitted to manage this workspace")).

(** A workspace the actor may manage. *)
Definition managed_workspace (act : User) (workspaceID : string) : M Error (Workspace * WorkspaceSettings) :=
  do! x <- resolveWorkspace workspaceID;
  run! requireManageWorkspaceActor act (w_ID x.1);
  ret x.

Definition with_workspace_settings (x : Workspace) (s : WorkspaceSettings) : Workspace :=
  mkWorkspace (w_ID x) (w_Name x) (Workspace_JSON s) (w_SettingsGen x + 1) (w_CreatedAt x) (w_UpdatedAt x).

Definition handleWorkspacePatch (act : User) (r : ApiRequest) (workspaceID : string) : M Error ApiResponse :=
  do! x <- managed_workspace act workspaceID;
  do! s <- decode_body dec_workspace x.2
             "request body must be a JSON object matching the workspace settings schema" r;
  let ws := with_workspace_settings x.1 s in
  run! or_err (internal "failed to update workspace") (Workspaces_Update ws);
  run! attempt (Audit (u_ID act) "workspace.settings.update" ("workspace:" +:+ w_ID ws)
                  (Some (workspace_json s)));
  ret (writeJSON 200 (obj (workspaceDTO ws s))).

Definition delete_check (act : User) (workspaceID : string) : M Error Workspace :=
  do! x <- managed_workspace act workspaceID;
  do! fns <- or_err (internal "failed to check workspace functions")
               (Functions_ListByOwner OwnerTypeWorkspace (w_ID x.1));
  if (0 <? length fns)%nat then
    refuse 409 "workspace_not_empty" "delete or move every function owned by this workspace first"
  else ret x.1.

Definition delete_apply (act : User) (x : Workspace) : M Error ApiResponse :=
  run! or_err (internal "failed to delete workspace") (Workspaces_Delete (w_ID x));
  run! attempt (Audit (u_ID act) "workspace.delete" ("workspace:" +:+ w_ID x)
                  (Some (obj [("name", JStr (w_Name x))])));
  ret no_content.

Definition handleWorkspaceDelete (act : User) (workspaceID : string) : M Error ApiResponse :=
  do! x <- delete_check act workspaceID;
  delete_apply act x.

(** ** Members *)

Definition countOtherWSAdmins (members : list WorkspaceMember) (excludeUserID : string) : Z :=
  Z.of_nat (length (List.filter (fun m => negb (wm_UserID m == excludeUserID)
                                          && bool_decide (wm_Role m = RoleAdmin)) members)).

Definition last_admin (message : string) : Error := newError 409 "last_admin" (Text message) None.

(** The role a membership may have, from its text. *)
Definition member_role (s : string) : option Role :=
  match parse_role s with Some RoleWorkspaceManager => None | r => r end.

(** The reads and checks of [SetWorkspaceMember]: the workspace, the role, and
    whether the user is a member already. *)
Definition set_member_check (act : User) (workspaceID userID role : string) : M Error (Workspace * Role * bool) :=
  do! x <- managed_workspace act workspaceID;
  match member_role role with
  | None => throw (BadRequest "invalid_role"
              (Text ("role must be " +:+ quoted "admin" +:+ " or " +:+ quoted "member")) None)
  | Some role =>
      run! or_err (fun e => NotFoundErr (Text "user not found") (Some (CStore e))) (Users_ByID userID);
      do! members <- or_err (internal "failed to list members") (Workspaces_ListMembers (w_ID x.1));
      match List.find (fun m => wm_UserID m == userID) members with
      | Some m =>
          if bool_decide (wm_Role m = RoleAdmin) && negb (bool_decide (role = RoleAdmin))
             && (countOtherWSAdmins members userID =? 0)
          then throw (last_admin "cannot demote the workspace's last admin")
          else ret (x.1, role, true)
      | None => ret (x.1, role, false)
      end
  end.

Definition set_member_apply (act : User) (userID : string) (y : Workspace * Role * bool) : M Error unit :=
  let '(x, role, existing) := y in
  run! (if existing : bool then
          or_err (internal "failed to update member role") (Workspaces_UpdateMemberRole (w_ID x) userID role)
        else or_err (internal "failed to add member")
               (Workspaces_AddMember (mkWorkspaceMember (w_ID x) userID role 0 0)));
  run! attempt (Audit (u_ID act) "workspace.member.update" ("workspace:" +:+ w_ID x)
                  (Some (obj [("user_id", JStr userID); ("role", JStr (role_string role))])));
  ret tt.

Definition SetWorkspaceMember (act : User) (workspaceID userID role : string) : M Error unit :=
  do! y <- set_member_check act workspaceID userID role;
  set_member_apply act userID y.

Definition handleWorkspaceMemberPut (act : User) (r : ApiRequest) (workspaceID userID : string)
    : M Error ApiResponse :=
  do! role <- decode_body (fun cur kvs => field "role" dec_string cur kvs) ""
                ("request body must be JSON: {" +:+ quoted "role" +:+ ": " +:+ quoted "admin" +:+ "|"
                 +:+ quoted "member" +:+ "}") r;
  run! SetWorkspaceMember act workspaceID userID role;
  ret (writeJSON 200 (obj [("user_id", JStr userID); ("role", JStr role)])).

Definition remove_member_check (act : User) (workspaceID userID : string) : M Error Workspace :=
  do! x <- managed_workspace act workspaceID;
  do! members <- or_err (internal "failed to list members") (Workspaces_ListMembers (w_ID x.1));
  if existsb (fun m => (wm_UserID m == userID) && bool_decide (wm_Role m = RoleAdmin)
                       && (countOtherWSAdmins members userID =? 0)) members
  then throw (last_admin "cannot remove the workspace's last admin")
  else ret x.1.

Definition remove_member_apply (act : User) (userID : string) (x : Workspace) : M Error unit :=
  run! lookup_or (NotFoundErr (Text "member not found") (Some (CStore ErrNotFound)))
         "failed to remove member" (Workspaces_RemoveMember (w_ID x) userID);
  run! attempt (Audit (u_ID act) "workspace.member.remove" ("workspace:" +:+ w_ID x)
                  (Some (obj [("user_id", JStr userID)])));
  ret tt.

Definition RemoveWorkspaceMember (act : User) (workspaceID userID : string) : M Error unit :=
  do! x <- remove_member_check act workspaceID userID;
  remove_member_apply act userID x.

Definition handleWorkspaceMemberDelete (act : User) (workspaceID userID : string) : M Error ApiResponse :=
  run! RemoveWorkspaceMember act workspaceID userID;
  ret no_content.

(** ** [routeWorkspaces] *)

Definition routeWorkspaces (act : User) (r : ApiRequest) (rest : list string) : M Error ApiResponse :=
  do! openMode <- openModeEnabled;
  if (openMode : bool) then unknown_route
  else
    let m := r_Method (q_Auth r) in
    match rest with
    | [] =>
        if m == "GET" then handleWorkspacesList act
        else if m == "POST" then handleWorkspaceCreate act r
        else method_not_allowed
    | [id] =>
        if m == "GET" then handleWorkspaceGet act id
        else if m == "PATCH" then handleWorkspacePatch act r id
        else if m == "DELETE" then handleWorkspaceDelete act id
        else method_not_allowed
    | [id; s; userID] =>
        if s == "members" then
          if m == "GET" then handleWorkspaceMemberGet act id userID
          else if m == "PUT" then handleWorkspaceMemberPut act r id userID
          else if m == "DELETE" then handleWorkspaceMemberDelete act id userID
          else method_not_allowed
        else unknown_route
    | _ => unknown_route
    end.
End Workspaces.
