(* ===== verification/ApiMe.v ===== *)
(** * ApiMe: the caller's own account and the CLI login endpoints

    Models src/server/internal/api/me.go and cli.go: profile, language and public
    User ID, the connected devices and apps with their revocation, the approval
    of a CLI login and the two endpoints the CLI calls without a session. *)

From stdpp Require Import sorting.
From S2P Require Import Prelude GoNum GoTime Manifest Types Authz Settings Store StoreCreds Service.
From S2P Require Import Tokens Sessions CLIAuth Functions Api.

Section Me.
Context {U : UnicodeTables} {J : JsonText} {S : JsonStream} {I : IdGen}.

(** ** me.go: the profile *)

Definition nullableLanguage (language : string) : json :=
  if language == "" then JNull else JStr language.

(** What a failed optional lookup leaves out. *)
Definition quota_fields (count_key limit_key : string) (limit : Z) (count : M StoreErr Z)
    : M Error (list (string * json)) :=
  if 0 <? limit then
    do! n <- attempt count;
    ret (match n with Ok n => [(count_key, JInt n); (limit_key, JInt limit)] | Err _ => [] end)
  else ret [].

Fixpoint workspace_entries (userID : string) (wss : list Workspace) : M Error (list json) :=
  match wss with
  | [] => ret []
  | x :: wss =>
      do! quota <- match ParseWorkspace (w_Settings x) with
                   | Ok s => quota_fields "function_count" "function_limit" (MaxFunctionsPerMember s)
                               (Functions_CountByWorkspaceAndCreator (w_ID x) userID)
                   | Err _ => ret []
                   end;
      do! rest <- workspace_entries userID wss;
      ret (obj ([("id", JStr (w_ID x)); ("name", JStr (w_Name x))] ++ quota) :: rest)
  end.

Definition handleMeGet (a : User) : M Error ApiResponse :=
  do! u <- or_err (internal "failed to load current user") (Users_ByID (u_ID a));
  do! org <- loadOrgCtx;
  do! s <- parse_org org;
  do! handle <- attempt (PublicUserIDs_ByOwner (u_ID a));
  do! wss <- or_err (internal "failed to list workspaces") (Workspaces_ListForUser (u_ID a));
  do! wsDTOs <- workspace_entries (u_ID a) wss;
  do! personal <- quota_fields "personal_function_count" "personal_function_limit" (MaxFunctionsPerUser s)
                    (Functions_CountByOwner OwnerTypeUser (u_ID a));
  do! pending <- (if bool_decide (u_Role a = RoleAdmin) then
                    do! users <- attempt Users_List;
                    ret (match users with
                         | Ok users => [("pending_approval_count", JInt (Z.of_nat (length
                             (List.filter (fun v => bool_decide (u_Status v = UserStatusPending)) users))))]
                         | Err _ => []
                         end)
                  else ret []);
  ret (writeJSON 200 (obj
    ([("id", JStr (u_ID a)); ("email", JStr (u_Email u)); ("name", JStr (u_Name u));
      ("user_id", JStr (match handle with Ok p => p_UserID p | Err _ => "" end));
      ("role", JStr (role_string (u_Role u))); ("language", nullableLanguage (u_Language u));
      ("effective_language", JStr (EffectiveLanguage (u_Language u) (Language s)));
      ("workspaces", JArr wsDTOs)] ++ personal ++ pending))).

(** ** me.go: changing language and User ID *)

Record MePatch := mkMePatch { mp_UserID : string; mp_Language : option json }.

(** [json.RawMessage] keeps what the body holds, [null] too. *)
Definition dec_me (cur : MePatch) (kvs : list (string * json)) : option MePatch :=
  match field "user_id" dec_string (mp_UserID cur) kvs,
        field "language" (fun _ j => Some (Some j)) (mp_Language cur) kvs with
  | Some id, Some l => Some (mkMePatch id l)
  | _, _ => None
  end.

(** The language a request asks for: none, or a valid one, [""] to inherit. *)
Definition new_language (cur : string) (requested : option json) : result Error (option string) :=
  match requested with
  | None => Ok None
  | Some JNull => Ok (Some "")
  | Some j =>
      match dec_string cur j with
      | Some l =>
          if IsLanguage l then Ok (Some l)
          else Err (newError 400 "invalid_language" (Text ("language must be " +:+ quoted "en" +:+ ", "
                 +:+ quoted "ja" +:+ ", or null to inherit the organization setting")) None)
      | None => Err (newError 400 "invalid_language" (Text ("language must be " +:+ quoted "en" +:+ ", "
                 +:+ quoted "ja" +:+ ", or null to inherit the organization setting")) None)
      end
  end.

Definition check_user_id (u : User) (requested : string) : result Error unit :=
  if requested == "" then Ok tt
  else if bool_decide (u_Provider u = ProviderGitHub) then
    Err (newError 403 "handle_locked"
      (Text "the handle is fixed to the GitHub username for GitHub-linked accounts and cannot be changed") None)
  else map_err (fun e => newError 400 "invalid_user_id" OfCause (Some (CManifest e))) (ValidateUserID requested).

Definition with_language (u : User) (l : string) : User :=
  mkUser (u_ID u) (u_Provider u) (u_ProviderSubject u) (u_Email u) (u_Name u) (u_Role u) (u_Status u) l
    (u_CreatedAt u) (u_UpdatedAt u).

(** The reads and checks of [handleMePatch]: the row as it was loaded, the new
    language and the requested User ID. *)
Definition me_patch_check (a : User) (r : ApiRequest) : M Error (User * option string * string) :=
  do! u <- or_err (internal "failed to load current user") (Users_ByID (u_ID a));
  do! body <- decode_body dec_me (mkMePatch "" None) "request body must be JSON" r;
  do! l <- lift (new_language (u_Language u) (mp_Language body));
  run! lift (check_user_id u (mp_UserID body));
  ret (u, l, mp_UserID body).

(** Storing the language writes the whole row that was loaded. *)
Definition store_language (a u : User) (l : option string) : M Error User :=
  match l with
  | None => ret u
  | Some l =>
      let u := with_language u l in
      run! or_err (internal "failed to update user language") (Users_Update u);
      run! attempt (Audit (u_ID a) "user.language.update" ("user:" +:+ u_ID a)
                      (Some (obj [("language", nullableLanguage l)])));
      ret u
  end.

Definition store_user_id (a u : User) (requested : string) : M Error string :=
  if negb (requested == "") then
    do! old <- or_err (internal "failed to look up current User ID") (PublicUserIDs_ByOwner (u_ID u));
    if negb (p_UserID old == requested) then
      run! or_err (fun e => match e with
                            | ErrConflict => ConflictErr (Text "User ID is already taken") (Some (CStore e))
                            | e => internal "failed to rename User ID" e
                            end) (PublicUserIDs_Rename (p_UserID old) requested);
      run! attempt (Audit (u_ID a) "user.id.update" ("user:" +:+ u_ID a)
             (Some (obj [("old_user_id", JStr (p_UserID old)); ("new_user_id", JStr requested)])));
      ret requested
    else ret requested
  else
    do! current <- attempt (PublicUserIDs_ByOwner (u_ID u));
    ret (match current with Ok p => p_UserID p | Err _ => "" end).

Definition me_patch_apply (a : User) (x : User * option string * string) : M Error ApiResponse :=
  let '(u, l, requested) := x in
  do! u <- store_language a u l;
  do! userID <- store_user_id a u requested;
  do! org <- loadOrgCtx;
  do! s <- parse_org org;
  ret (writeJSON 200 (obj [("id", JStr (u_ID a)); ("user_id", JStr userID);
    ("language", nullableLanguage (u_Language u));
    ("effective_language", JStr (EffectiveLanguage (u_Language u) (Language s)))])).

Definition handleMePatch (a : User) (r : ApiRequest) : M Error ApiResponse :=
  do! x <- me_patch_check a r;
  me_patch_apply a x.

(** ** me.go: devices *)

Inductive DeviceKind := KindCLI | KindOAuth.

Record DeviceInfo := mkDeviceInfo {
  d_Kind : DeviceKind;
  d_ID : string;
  d_Name : string;
  d_CreatedAt : Time;
  d_LastUsedAt : option Time
}.

Definition deviceInfoDTO (d : DeviceInfo) : json :=
  obj [("id", JStr (d_ID d));
       ("kind", JStr (match d_Kind d with KindCLI => "cli" | KindOAuth => "oauth" end));
       ("name", JStr (d_Name d)); ("created_at", JStr (Format_RFC3339 0 (d_CreatedAt d)));
       ("last_used_at", match d_LastUsedAt d with Some t => JStr (Format_RFC3339 0 t) | None => JNull end)].

(** A grant shows the registered name of its client, when there is one. *)
Fixpoint grant_devices (grants : list OAuthGrant) : M Error (list DeviceInfo) :=
  match grants with
  | [] => ret []
  | g :: grants =>
      do! client <- attempt (OAuthClients_ByID (og_ClientID g));
      do! rest <- grant_devices grants;
      let name := match client with
                  | Ok c => if oc_Name c == "" then og_ClientID g else oc_Name c
                  | Err _ => og_ClientID g
                  end in
      ret (mkDeviceInfo KindOAuth (og_ID g) name (og_CreatedAt g) (og_LastUsedAt g) :: rest)
  end.

Definition ListDevices (act : User) : M Error (list DeviceInfo) :=
  do! creds <- or_err (internal "failed to list devices") (CLICredentials_ListByUser (u_ID act));
  do! grants <- or_err (internal "failed to list connected apps") (OAuthGrants_ListByUser (u_ID act));
  do! apps <- grant_devices grants;
  ret (map (fun c => mkDeviceInfo KindCLI (cc_ID c) (cc_Name c) (cc_CreatedAt c) (cc_LastUsedAt c)) creds
       ++ apps).

Definition handleDevicesList (act : User) : M Error ApiResponse :=
  do! devices <- ListDevices act;
  ret (writeJSON 200 (obj [("devices", JArr (map deviceInfoDTO devices))])).

Definition RevokeDevice (act : User) (kind id : string) (allowAdminOverride : bool) : M Error unit :=
  if kind == "cli" then
    do! creds <- or_err (internal "failed to list devices") (CLICredentials_ListByUser (u_ID act));
    if negb (existsb (fun c => cc_ID c == id) creds)
       && negb (allowAdminOverride && bool_decide (u_Role act = RoleAdmin))
    then throw (NotFoundErr (Text "device not found") None)
    else
      run! or_err (internal "failed to delete device") (CLICredentials_Delete id);
      run! attempt (Audit (u_ID act) "cli_credential.delete" ("cli_credential:" +:+ id) None);
      ret tt
  else if kind == "oauth" then
    do! grants <- or_err (internal "failed to list connected apps") (OAuthGrants_ListByUser (u_ID act));
    if negb (existsb (fun g => og_ID g == id) grants)
    then throw (NotFoundErr (Text "connected app not found") None)
    else
      run! or_err (internal "failed to delete connected app") (OAuthGrants_Delete id);
      run! attempt (Audit (u_ID act) "oauth_grant.delete" ("oauth_grant:" +:+ id) None);
      ret tt
  else throw (BadRequest "invalid_kind"
         (Text ("device kind must be " +:+ quoted "cli" +:+ " or " +:+ quoted "oauth")) None).

Definition handleDeviceDelete (act : User) (id : string) : M Error ApiResponse :=
  do! r <- attempt (RevokeDevice act "cli" id true);
  run! match r with
       | Ok _ => ret tt
       | Err e => if Status e =? 404 then RevokeDevice act "oauth" id false else throw e
       end;
  ret no_content.

Definition routeMe (act : User) (r : ApiRequest) (rest : list string) : M Error ApiResponse :=
  let m := r_Method (q_Auth r) in
  match rest with
  | [] =>
      if m == "GET" then handleMeGet act
      else if m == "PATCH" then handleMePatch act r
      else method_not_allowed
  | [s] =>
      if s == "devices" then if m == "GET" then handleDevicesList act else method_not_allowed
      else unknown_route
  | [s; id] =>
      if s == "devices" then if m == "DELETE" then handleDeviceDelete act id else method_not_allowed
      else unknown_route
  | _ => unknown_route
  end.

(** ** cli.go *)

Record CLIAuthorize := mkCLIAuthorize { cz_Redirect : string; cz_Challenge : string; cz_Name : string }.
Definition dec_cli_authorize (cur : CLIAuthorize) (kvs : list (string * json)) : option CLIAuthorize :=
  match field "redirect" dec_string (cz_Redirect cur) kvs,
        field "challenge" dec_string (cz_Challenge cur) kvs,
        field "name" dec_string (cz_Name cur) kvs with
  | Some r, Some c, Some n => Some (mkCLIAuthorize r c n)
  | _, _, _ => None
  end.

(** An authentication error without an answer of its own. *)
Definition internal_auth (m : string) (e : AuthErr) : Error :=
  Internal m (match e with ErrAuthStore e => Some (CStore e) | _ => None end).

Definition handleCLIAuthorize (a : User) (r : ApiRequest) : M Error ApiResponse :=
  do! body <- decode_body dec_cli_authorize (mkCLIAuthorize "" "" "")
                ("request body must be JSON: {" +:+ quoted "redirect" +:+ "," +:+ quoted "challenge"
                 +:+ "," +:+ quoted "name" +:+ "}") r;
  do! code <- or_err (fun e => match e with
                | ErrCLIAuthInvalidRequest => newError 400 "invalid_cli_auth_request"
                    (Text "the CLI login request is malformed or its redirect/challenge is not acceptable") None
                | e => internal_auth "failed to issue CLI authorization code" e
                end)
                (IssueCLIAuthCode (u_ID a) (cz_Name body) (cz_Redirect body) (cz_Challenge body));
  run! attempt (Audit (u_ID a) "cli_login.approve" ("user:" +:+ u_ID a)
                  (Some (obj [("name", JStr (cz_Name body))])));
  ret (writeJSON 200 (obj [("code", JStr code)])).

Definition routeCLI (a : User) (r : ApiRequest) (rest : list string) : M Error ApiResponse :=
  match rest with
  | [s] =>
      if s == "authorize" then
        if r_Method (q_Auth r) == "POST" then handleCLIAuthorize a r else method_not_allowed
      else unknown_route
  | _ => unknown_route
  end.

Record CLIToken := mkCLIToken { ct_Code : string; ct_Verifier : string }.
Definition dec_cli_token (cur : CLIToken) (kvs : list (string * json)) : option CLIToken :=
  match field "code" dec_string (ct_Code cur) kvs, field "verifier" dec_string (ct_Verifier cur) kvs with
  | Some c, Some v => Some (mkCLIToken c v)
  | _, _ => None
  end.

Definition handleCLIToken (r : ApiRequest) : M Error ApiResponse :=
  do! body <- decode_body dec_cli_token (mkCLIToken "" "")
                ("request body must be JSON: {" +:+ quoted "code" +:+ "," +:+ quoted "verifier" +:+ "}") r;
  do! x <- or_err (fun e => match e with
             | ErrPKCEMismatch => newError 400 "pkce_mismatch"
                 (Text "the PKCE verifier does not match the authorization's challenge") None
             | ErrCLIAuthCodeInvalid => newError 400 "invalid_grant"
                 (Text "the authorization code is invalid, expired, or already used") None
             | e => internal_auth "failed to exchange CLI authorization code" e
             end) (ExchangeCLICode (ct_Code body) (ct_Verifier body));
  ret (writeJSON 201 (obj [("credential", JStr x.1); ("name", JStr (cc_Name x.2));
                           ("created_at", JStr (Format_RFC3339 0 (cc_CreatedAt x.2)))])).

(** The requested lifetime: an empty body asks for the default. *)
Definition requested_ttl (r : ApiRequest) : result Error Z :=
  let invalid_body := newError 400 "invalid_body" (Text ("request body must be JSON: {" +:+ quoted "ttl"
                        +:+ ": " +:+ quoted "15m" +:+ "} or empty")) None in
  let! text := match option_map json_first (q_Body r) with
               | Some (Ok j) =>
                   match dec_object (fun cur kvs => field "ttl" dec_string cur kvs) "" j with
                   | Some t => Ok t
                   | None => Err invalid_body
                   end
               | Some (Err StreamEOF) => Ok ""
               | _ => Err invalid_body
               end in
  if text == "" then Ok 0
  else match ParseDuration text with
       | Some d => Ok d
       | None => Err (newError 400 "invalid_ttl"
                   (Text ("ttl must be a Go duration string, e.g. " +:+ quoted "15m")) None)
       end.

Definition handleCLIAccessToken (h : Handler) (r : ApiRequest) : M Error ApiResponse :=
  let authorization := r_Authorization (q_Auth r) in
  let raw := trim_prefix authorization "Bearer " in
  if negb (has_prefix authorization "Bearer ") || (raw == "") then
    refuse 401 "unauthorized" "missing CLI credential"
  else
    do! ttl <- lift (requested_ttl r);
    do! x <- or_err (fun e => match e with
               | ErrCLICredentialInvalid => newError 401 "unauthorized"
                   (Text "CLI credential is invalid, revoked, or expired -- run `funcbox login` again") None
               | e => internal_auth "failed to mint access token" e
               end) (MintAccessTokenFromCredential (h_Auth h) raw ttl);
    ret (writeJSON 200 (obj [("access_token", JStr x.1);
      ("expires_at", JStr (Format_RFC3339 (h_LocalOffset h x.2) x.2))])).
End Me.
