(* ===== verification/ApiFunctions.v ===== *)
(** * ApiFunctions: the function routes of the management API

    Models src/server/internal/api/functions.go and deploy.go: listing, reading,
    deploying, rolling back and deleting functions, their variables and their
    logs, and the JSON views of functions, versions and log entries. *)

From stdpp Require Import sorting.
From S2P Require Import Prelude GoNum GoTime GoURL Policy Manifest Bundle Types Authz Settings Store.
From S2P Require Import StoreCreds NodeDetect Service Tokens Sessions CLIAuth Functions Capture Invoke Api.

(** ** Decoding what is stored

    The views ignore the error of [json.Unmarshal], which leaves a field whose
    value has another type as it is and goes on. *)

Section Lenient.
Context {U : UnicodeTables}.

Fixpoint lfield {A : Type} (name : string) (dec : A -> json -> A) (cur : A) (kvs : list (string * json)) : A :=
  match kvs with
  | [] => cur
  | (k, v) :: rest => lfield name dec (if equal_fold k name then dec cur v else cur) rest
  end.

Definition lobject {A : Type} (dec : A -> list (string * json) -> A) (cur : A) (j : json) : A :=
  match j with JObj kvs => dec cur kvs | _ => cur end.
Definition lenient {A : Type} (dec : A -> json -> option A) (cur : A) (j : json) : A := default cur (dec cur j).
Definition lstrings (cur : list string) (j : json) : list string :=
  match j with JArr l => map (lenient dec_string "") l | JNull => [] | _ => cur end.

Definition lnfetch (cur : NormalizedFetch) (kvs : list (string * json)) : NormalizedFetch :=
  mkNormalizedFetch (lfield "mode" (lenient dec_string) (n_Mode cur) kvs)
    (lfield "allow" lstrings (n_Allow cur) kvs).

Definition lnormalized (n : Normalized) (kvs : list (string * json)) : Normalized :=
  let str name cur := lfield name (lenient dec_string) cur kvs in
  mkNormalized (str "source" (n_Source n)) (str "name" (n_Name n)) (str "owner" (n_Owner n))
    (str "main" (n_Main n)) (str "description" (n_Description n)) (str "timeout" (n_Timeout n))
    (lfield "memory" (lenient dec_int) (n_Memory n) kvs)
    (lfield "compat" (lobject (lfield "nodejs" (lenient dec_bool))) (n_Nodejs n) kvs)
    (lfield "permissions" (lobject (lfield "fetch" (lobject lnfetch))) (n_Fetch n) kvs)
    (lfield "env" lstrings (n_Env n) kvs) (str "visibility" (n_Visibility n)).

Definition ldecision (d : FetchDecision) (kvs : list (string * json)) : FetchDecision :=
  mkFetchDecision (lfield "host" (lenient dec_string) (fd_host d) kvs)
    (lfield "port" (lenient dec_int) (fd_port d) kvs)
    (lfield "allowed" (lenient dec_bool) (fd_allowed d) kvs)
    (lfield "stage" (lenient dec_string) (fd_stage d) kvs).
End Lenient.

(** ** Multipart uploads *)

Record MultipartForm := mkMultipartForm {
  mf_Files : list (string * string);
  mf_Values : list (string * string)
}.

(** [mime/multipart] reading a body of the given content type through a reader
    that fails beyond a limit. *)
Class MultipartReader := {
  ReadForm : Z -> string -> string -> option MultipartForm;
  ReadForm_bounded limit ct body f name file : ReadForm limit ct body = Some f ->
    In (name, file) (mf_Files f) -> str_len file <= limit
}.

Section Functions.
Context {U : UnicodeTables} {F : FloatToInt} {Y : YamlDecoder} {A : ArchiveCodec} {J : JsonText}
  {S : JsonStream} {P : MultipartReader} {I : IdGen} {C : Cipher}.

(** ** The views *)

Definition owner_type_string (t : OwnerType) : string :=
  match t with OwnerTypeUser => "user" | OwnerTypeWorkspace => "workspace" end.

Definition function_url (h : Handler) (f : Function) (owner : string) : M Error (list (string * json)) :=
  match h_managedFunctionURL h with
  | Some build => ret (match build (f_Name f) "/" with Some u => [("url", JStr u)] | None => [] end)
  | None =>
      if negb (h_baseURL h == "") then
        do! selector <- (if owner == "" then
                           do! s <- attempt (OwnerSelector f);
                           ret (match s with Ok s => s | Err _ => "" end)
                         else ret owner);
        ret (if negb (selector == "") then
               [("url", JStr (h_baseURL h +:+ "/" +:+ selector +:+ "/" +:+ f_Name f))]
             else [])
      else ret []
  end.

Definition functionDTO (h : Handler) (f : Function) (owner : string) : M Error (list (string * json)) :=
  do! url <- function_url h f owner;
  ret ([("id", JStr (f_ID f)); ("owner_type", JStr (owner_type_string (f_OwnerType f)));
        ("name", JStr (f_Name f)); ("description", JStr (f_Description f));
        ("created_at", JStr (json_time (f_CreatedAt f))); ("updated_at", JStr (json_time (f_UpdatedAt f)))]
       ++ opt_str "owner" owner
       ++ match f_ActiveVersionID f with Some v => [("active_version_id", JStr v)] | None => [] end
       ++ url).

Fixpoint functionDTOs (h : Handler) (fns : list Function) (owner : string) : M Error (list json) :=
  match fns with
  | [] => ret []
  | f :: fns =>
      do! dto <- functionDTO h f owner;
      do! rest <- functionDTOs h fns owner;
      ret (obj dto :: rest)
  end.

(** One lookup per distinct owner: [cache] holds the selectors found so far. *)
Fixpoint dtos_with_owners (h : Handler) (cache : gmap string string) (fns : list Function) : M Error (list json) :=
  match fns with
  | [] => ret []
  | f :: fns =>
      let key := owner_type_string (f_OwnerType f) +:+ ":" +:+ f_OwnerID f in
      do! owner <- match cache !! key with
                   | Some o => ret o
                   | None =>
                       do! s <- attempt (OwnerSelector f);
                       ret (match s with Ok s => s | Err _ => "" end)
                   end;
      do! dto <- functionDTO h f owner;
      do! rest <- dtos_with_owners h (<[key := owner]> cache) fns;
      ret (obj dto :: rest)
  end.
Definition functionDTOsWithOwners (h : Handler) (fns : list Function) : M Error (list json) :=
  dtos_with_owners h ∅ fns.

Definition versionDTO (v : FunctionVersion) : json :=
  let nm := match json_parse (v_Manifest v) with
            | Some j => lobject lnormalized zero_normalized j
            | None => zero_normalized
            end in
  obj [("id", JStr (v_ID v)); ("main_path", JStr (v_MainPath v)); ("bundle_hash", JStr (v_BundleHash v));
       ("bundle_size", JInt (v_BundleSize v)); ("unpacked_size", JInt (v_UnpackedSize v));
       ("files", JArr (map (fun x => JObj [("path", JStr x.1); ("size", JInt x.2)]) (v_Files v)));
       ("manifest", normalized_json nm); ("note", JStr (v_Note v));
       ("created_at", JStr (Format_RFC3339 0 (v_CreatedAt v)))].

Definition invocationLogDTO (l : InvocationLog) : json :=
  let decisions :=
    match json_parse (il_FetchDecisions l) with
    | Some (JArr ds) => JArr (map (fun d => Invoke.fetch_json
                          (lobject ldecision (mkFetchDecision "" 0 false "") d)) ds)
    | _ => JNull
    end in
  obj [("id", JStr (il_ID l)); ("version_id", JStr (il_VersionID l)); ("method", JStr (il_Method l));
       ("path", JStr (il_Path l)); ("status", JInt (il_Status l)); ("duration_ms", JInt (il_DurationMS l));
       ("stdout", JStr (il_Stdout l)); ("stderr", JStr (il_Stderr l)); ("fetch_decisions", decisions);
       ("created_at", JStr (Format_RFC3339 0 (il_CreatedAt l)))].

(** ** Listing *)

Definition owner_not_found (e : option Cause) : Error := NotFoundErr (Text "owner not found") e.

Definition ListFunctions (h : Handler) (act : User) (owner : string) : M Error (list json) :=
  if negb (owner == "") then
    do! o <- or_err (fun e => owner_not_found (Unwrap e)) (ResolveOwner owner);
    do! ok <- or_err (internal "failed to check visibility") (CanView act o.1 o.2);
    if negb ok then throw (owner_not_found None)
    else
      do! fns <- ListByOwner owner;
      functionDTOs h fns owner
  else
    do! fns <- (if bool_decide (u_Role act = RoleAdmin) then ListAll else List_ (u_ID act));
    functionDTOsWithOwners h fns.

Definition handleList (h : Handler) (act : User) (r : ApiRequest) : M Error ApiResponse :=
  do! dtos <- ListFunctions h act (query_get (q_RawQuery r) "owner");
  ret (writeJSON 200 (obj [("functions", JArr dtos)])).

(** ** Reading one function *)

Definition function_not_found (e : option Cause) : Error := NotFoundErr (Text "function not found") e.

Definition ResolveVisible (act : User) (owner name : string) : M Error Function :=
  do! f <- Resolve owner name;
  do! ok <- or_err (internal "failed to check visibility") (CanView act (f_OwnerType f) (f_OwnerID f));
  if negb ok then throw (function_not_found None) else ret f.

Definition FetchPolicyLevels (f : Function) : M Error json :=
  do! org <- loadOrgCtx;
  do! orgSet <- parse_org org;
  do! ws <- match f_OwnerType f with
            | OwnerTypeWorkspace =>
                do! x <- or_err (internal "failed to load workspace") (Workspaces_ByID (f_OwnerID f));
                do! s <- lift (map_err (fun e => Internal "failed to parse workspace settings" (Some (CSettings e)))
                                 (ParseWorkspace (w_Settings x)));
                ret (Settings.fetch_json (ws_FetchPolicy s))
            | OwnerTypeUser => ret JNull
            end;
  ret (obj [("organization", Settings.fetch_json (org_FetchPolicy orgSet)); ("workspace", ws)]).

Definition handleGet (h : Handler) (act : User) (owner name : string) : M Error ApiResponse :=
  do! f <- ResolveVisible act owner name;
  do! body <- functionDTO h f owner;
  do! active <- match f_ActiveVersionID f with
                | Some _ => do! v <- ActiveVersion f; ret [("active_version", versionDTO v)]
                | None => ret []
                end;
  do! levels <- FetchPolicyLevels f;
  ret (writeJSON 200 (obj (body ++ active ++ [("fetch_policy_levels", levels)]))).

Definition handleListVersions (act : User) (r : ApiRequest) (owner name : string) : M Error ApiResponse :=
  do! f <- ResolveVisible act owner name;
  do! versions <- ListVersions f (query_limit r);
  ret (writeJSON 200 (obj [("versions", JArr (map versionDTO versions))])).

Definition ListInvocationLogs (f : Function) (since : string) (limit : Z)
    : M Error (list InvocationLog * string) :=
  do! logs <- or_err (internal "failed to list invocation logs") (InvocationLogs_List (f_ID f) since limit);
  ret (logs, next_cursor il_ID logs).

Definition handleLogs (act : User) (r : ApiRequest) (owner name : string) : M Error ApiResponse :=
  do! f <- ResolveVisible act owner name;
  do! x <- ListInvocationLogs f (query_get (q_RawQuery r) "since") (query_limit r);
  ret (writeJSON 200 (obj [("logs", JArr (map invocationLogDTO x.1)); ("next_cursor", JStr x.2)])).

(** ** Rolling back, deleting, variables *)

Definition handleActivate (h : Handler) (act : User) (owner name versionID : string) : M Error ApiResponse :=
  do! f <- ResolveVisible act owner name;
  run! CanManage act f;
  do! f <- Activate (h_Deployer h) f versionID;
  run! attempt (Audit (u_ID act) "function.rollback" ("function:" +:+ f_ID f)
                  (Some (obj [("version_id", JStr versionID)])));
  do! dto <- functionDTO h f owner;
  ret (writeJSON 200 (obj dto)).

Definition handleDelete (h : Handler) (act : User) (owner name : string) : M Error ApiResponse :=
  do! f <- ResolveVisible act owner name;
  run! CanManage act f;
  run! Delete (h_Deployer h) f;
  run! attempt (Audit (u_ID act) "function.delete" ("function:" +:+ f_ID f)
                  (Some (obj [("owner", JStr owner); ("name", JStr name)])));
  ret no_content.

Definition handleSetEnv (h : Handler) (act : User) (r : ApiRequest) (owner name key : string)
    : M Error ApiResponse :=
  if negb (IsValidEnvKey key) then
    refuse 400 "invalid_env_key" "env var key must match ^[A-Za-z_][A-Za-z0-9_]*$"
  else
    do! f <- Resolve owner name;
    do! value <- decode_body (fun cur kvs => field "value" dec_string cur kvs) ""
                   ("request body must be JSON: {" +:+ quoted "value" +:+ ": " +:+ quoted "..." +:+ "}") r;
    run! SetEnv (h_EnvKey h) act f key value;
    run! attempt (Audit (u_ID act) "function.env.set" ("function:" +:+ f_ID f) (Some (obj [("key", JStr key)])));
    ret no_content.

Definition handleDeleteEnv (act : User) (owner name key : string) : M Error ApiResponse :=
  do! f <- Resolve owner name;
  run! DeleteEnv act f key;
  run! attempt (Audit (u_ID act) "function.env.delete" ("function:" +:+ f_ID f) (Some (obj [("key", JStr key)])));
  ret no_content.

(** ** deploy.go *)

Definition deployMultipartMemory : Z := Z.shiftl 1 20.

(** [r.ParseMultipartForm] behind [http.MaxBytesReader]: also a query that does not
    parse fails. The form's values are the query's, then the upload's. *)
Definition parse_deploy_form (r : ApiRequest) : option (MultipartForm * list (string * string)) :=
  match q_Body r with
  | Some body =>
      match ReadForm MaxCompressedBundleBytes (q_ContentType r) body, ParseQuery (q_RawQuery r) with
      | Some f, (vs, true) => Some (f, vs ++ mf_Values f)
      | _, _ => None
      end
  | None => None
  end.

Definition deployResponseBody (h : Handler) (x : DeployResult) : M Error json :=
  do! fn <- match dr_Function x with
            | Some f => do! dto <- functionDTO h f ""; ret [("function", obj dto)]
            | None => ret []
            end;
  ret (obj ([("dry_run", JBool (dr_DryRun x)); ("manifest", normalized_json (dr_Manifest x));
             ("warnings", JArr (map JStr (dr_Warnings x)))]
            ++ fn
            ++ match dr_Version x with Some v => [("version", versionDTO v)] | None => [] end)).

Definition audit_deploy (act : User) (owner : string) (x : DeployResult) : M Error unit :=
  match dr_DryRun x, dr_Function x, dr_Version x with
  | false, Some f, Some v =>
      run! attempt (Audit (u_ID act) "function.deploy" ("function:" +:+ f_ID f)
             (Some (obj [("owner", JStr owner); ("name", JStr (f_Name f)); ("version_id", JStr (v_ID v))])));
      ret tt
  | _, _, _ => ret tt
  end.

Definition handleDeploy (h : Handler) (act : User) (r : ApiRequest) : M Error ApiResponse :=
  match parse_deploy_form r with
  | None => refuse 413 "too_large"
              "request body exceeds the compressed bundle size limit or is not a valid multipart form"
  | Some (form, values) =>
      match List.find (fun f => f.1 == "bundle") (mf_Files form) with
      | None => refuse 400 "missing_bundle"
                  ("multipart field " +:+ quoted "bundle" +:+ " (the tar.gz upload) is required")
      | Some (_, file) =>
          let owner := values_get values "owner" in
          do! x <- Deploy (h_Deployer h) (mkDeployParams file owner (values_get values "name")
                     (values_get values "note") (query_get (q_RawQuery r) "dry_run" == "true") (Some act));
          run! audit_deploy act owner x;
          do! body <- deployResponseBody h x;
          ret (writeJSON (if dr_DryRun x then 200 else 201) body)
      end
  end.

(** ** [routeFunctions] *)

Definition routeFunctions (h : Handler) (act : User) (r : ApiRequest) (rest : list string)
    : M Error ApiResponse :=
  let m := r_Method (q_Auth r) in
  match rest with
  | [] =>
      if m == "GET" then handleList h act r
      else if m == "POST" then handleDeploy h act r
      else method_not_allowed
  | [owner; name] =>
      if m == "GET" then handleGet h act owner name
      else if m == "DELETE" then handleDelete h act owner name
      else method_not_allowed
  | [owner; name; s] =>
      if s == "versions" then
        if m == "GET" then handleListVersions act r owner name else method_not_allowed
      else if s == "logs" then if m == "GET" then handleLogs act r owner name else method_not_allowed
      else unknown_route
  | [owner; name; s; id] =>
      if s == "env" then
        if m == "PUT" then handleSetEnv h act r owner name id
        else if m == "DELETE" then handleDeleteEnv act owner name id
        else method_not_allowed
      else unknown_route
  | [owner; name; s; id; a] =>
      if (s == "versions") && (a == "activate") then
        if m == "POST" then handleActivate h act owner name id else method_not_allowed
      else unknown_route
  | _ => unknown_route
  end.
End Functions.

(** For the witnesses: a body that is the bundle itself, its owner in the content
    type. *)
Program Definition sample_reader : MultipartReader := {|
  ReadForm limit ct body :=
    if str_len body <=? limit then Some (mkMultipartForm [("bundle", body)] [("owner", ct)]) else None
|}.
Next Obligation.
  intros limit ct body f name file H Hin. cbv beta in H. case_step H. injection H as <-. bool_facts.
  simpl in Hin. destruct Hin as [[= _ <-]|[]]. lia.
Qed.
