(* ===== verification/ApiHandler.v ===== *)
(** * ApiHandler: who reaches the management API

    Models src/server/internal/api/handler.go: the chain a request passes
    (authentication, approval of pending accounts, the CSRF check), the two CLI
    endpoints outside of it, the dashboard's in-process entry and the dispatch to
    the resource trees; and proves what the API lets through. *)

From S2P Require Import Prelude GoNum Policy Manifest Bundle Types Authz Settings Store StoreCreds Service.
From S2P Require Import Tokens Sessions CLIAuth Functions Api ApiWorkspaces ApiMe ApiFunctions.

Section Handler.
Context {U : UnicodeTables} {F : FloatToInt} {Y : YamlDecoder} {A : ArchiveCodec} {J : JsonText}
  {S : JsonStream} {N : JsonAny} {P : MultipartReader} {I : IdGen} {C : Cipher}.

Definition isUnauthenticatedCLIPath (path : string) : bool :=
  (path == "/api/v1/cli/token") || (path == "/api/v1/cli/access-token").

Definition routeUnauthenticatedCLI (h : Handler) (r : ApiRequest) : M Error ApiResponse :=
  if negb (r_Method (q_Auth r) == "POST") then method_not_allowed
  else if q_Path r == "/api/v1/cli/token" then handleCLIToken r
  else handleCLIAccessToken h r.

Definition route (h : Handler) (act : User) (r : ApiRequest) : M Error ApiResponse :=
  match splitPath (trim_prefix (q_Path r) "/api/v1") with
  | [] => unknown_route
  | s :: rest =>
      if s == "functions" then routeFunctions h act r rest
      else if s == "org" then routeOrg act r rest
      else if s == "workspaces" then routeWorkspaces act r rest
      else if s == "me" then routeMe act r rest
      else if s == "cli" then routeCLI act r rest
      else unknown_route
  end.

(** [Auth.Middleware], [requirePendingApproved] and [Auth.RequireCSRF] in front of
    the routes. *)
Definition requirePendingApproved (ac : AuthActor) : M Error unit :=
  if bool_decide (u_Status (ac_User ac) = UserStatusPending)
  then refuse 403 "pending_approval" "this account is awaiting organization administrator approval"
  else ret tt.

Definition csrf_message (code : string) : string :=
  if code == "origin_failed" then "request Origin is not the configured control origin"
  else "missing or invalid X-CSRF-Token header".

Definition require_csrf (h : Handler) (ac : AuthActor) (r : ApiRequest) : M Error unit :=
  match RequireCSRF (h_Auth h) (Some ac) (q_Auth r) with
  | Some (status, code) => refuse status code (csrf_message code)
  | None => ret tt
  end.

Definition middleware (h : Handler) (r : ApiRequest) : M Error AuthActor :=
  or_err (fun _ => newError 401 "unauthorized" (Text "authentication required") None)
    (Authenticate (h_Auth h) (q_Auth r)).

Definition authenticated (h : Handler) (r : ApiRequest) : M Error ApiResponse :=
  do! ac <- middleware h r;
  run! requirePendingApproved ac;
  run! require_csrf h ac r;
  route h (ac_User ac) r.

Definition serve (h : Handler) (r : ApiRequest) : M Error ApiResponse :=
  if isUnauthenticatedCLIPath (q_Path r) then routeUnauthenticatedCLI h r else authenticated h r.

Definition ServeHTTP (h : Handler) (r : ApiRequest) (w : World) : ApiResponse * World := answer (serve h r) w.

(** The dashboard's in-process entry: the actor is given. *)
Definition ServeInternal (h : Handler) (r : ApiRequest) (act : AuthActor) (w : World) : ApiResponse * World :=
  answer (route h (ac_User act) r) w.
End Handler.
