(* ===== verification/ApiAuthority.v ===== *)
(** * ApiAuthority: what a request to the management API may change

    The contract of the routes (src/server/internal/api): whatever the request,
    and whatever fails on the way, the tables change only within the authority
    the acting user had when the request arrived. The authority is stated over
    the tables; the relation of tables it bounds is transitive, so each write is
    looked at once. *)

From stdpp Require Import sorting.
From S2P Require Import Prelude GoNum Policy Manifest Bundle Types Authz Settings Store StoreNames StoreCreds.
From S2P Require Import Service Deploy Tokens Sessions CLIAuth Functions Invoke Maintenance.
From S2P Require Import Api ApiWorkspaces ApiMe ApiFunctions.
From S2P Require Import ApiHandler.

(** ** Relations on one table *)

(** Only the rows of some keys differ. *)
Definition only_at {K A} `{Countable K} (G : K -> Prop) (m m' : gmap K A) : Prop :=
  forall k, G k \/ m' !! k = m !! k.
(** Only rows with a property are added, removed or changed, and only to rows
    with it. *)
Definition rows_by {K A} `{Countable K} (G : A -> Prop) (m m' : gmap K A) : Prop :=
  forall k, m' !! k = m !! k \/ (forall x, m !! k = Some x \/ m' !! k = Some x -> G x).
(** Only rows with a property are added or rewritten. *)
Definition adds_only {K A} `{Countable K} (G : A -> Prop) (m m' : gmap K A) : Prop :=
  forall k x, m' !! k = Some x -> G x \/ m !! k = Some x.
(** Every row sits at its own key. *)
Definition keyed {K A} `{Countable K} (key : A -> K) (m : gmap K A) : Prop :=
  forall k x, m !! k = Some x -> key x = k.
Definition unless {A} (P : Prop) (x x' : A) : Prop := P \/ x' = x.
Definition appended {A} (G : A -> Prop) (l l' : list A) : Prop := exists new, l' = l ++ new /\ Forall G new.

Section TableRelations.
Context {K A : Type} `{Countable K}.

#[export] Instance only_at_refl (G : K -> Prop) : Reflexive (only_at (A := A) G).
Proof. intros m k. by right. Qed.
#[export] Instance only_at_trans (G : K -> Prop) : Transitive (only_at (A := A) G).
Proof. intros m1 m2 m3 H1 H2 k. destruct (H1 k), (H2 k); auto. right. congruence. Qed.
#[export] Instance rows_by_refl (G : A -> Prop) : Reflexive (rows_by (K := K) G).
Proof. intros m k. by left. Qed.
#[export] Instance rows_by_trans (G : A -> Prop) : Transitive (rows_by (K := K) G).
Proof.
  intros m1 m2 m3 H1 H2 k. destruct (H1 k) as [E1|E1], (H2 k) as [E2|E2].
  - left. congruence.
  - right. intros x Hx. rewrite <- E1 in Hx. auto.
  - right. intros x Hx. rewrite E2 in Hx. auto.
  - right. intros x [Hx|Hx]; auto.
Qed.
#[export] Instance adds_only_refl (G : A -> Prop) : Reflexive (adds_only (K := K) G).
Proof. intros m k x Hx. by right. Qed.
#[export] Instance adds_only_trans (G : A -> Prop) : Transitive (adds_only (K := K) G).
Proof. intros m1 m2 m3 H1 H2 k x Hx. destruct (H2 k x Hx) as [|Hx2]; [by left|by apply H1]. Qed.
#[export] Instance unless_refl (P : Prop) : Reflexive (unless (A := A) P).
Proof. intros x. by right. Qed.
#[export] Instance unless_trans (P : Prop) : Transitive (unless (A := A) P).
Proof. intros x y z [?| ->] [?| ->]; [by left|by left|by left|by right]. Qed.
#[export] Instance appended_refl (G : A -> Prop) : Reflexive (appended G).
Proof. intros l. exists []. by rewrite app_nil_r. Qed.
#[export] Instance appended_trans (G : A -> Prop) : Transitive (appended G).
Proof.
  intros l1 l2 l3 (a & -> & Ha) (b & -> & Hb). exists (a ++ b). rewrite app_assoc. split; [done|].
  by apply Forall_app.
Qed.

Lemma only_at_insert (G : K -> Prop) k (x : A) m : G k -> only_at G m (<[k := x]> m).
Proof. intros Hk j. destruct (decide (j = k)) as [->|]; [by left|right]. by rewrite lookup_insert_ne. Qed.
Lemma only_at_delete (G : K -> Prop) k (m : gmap K A) : G k -> only_at G m (delete k m).
Proof. intros Hk j. destruct (decide (j = k)) as [->|]; [by left|right]. by rewrite lookup_delete_ne. Qed.

Lemma lookup_delete_rows (p : A -> bool) (m : gmap K A) k x :
  delete_rows p m !! k = Some x <-> m !! k = Some x /\ p x = false.
Proof. unfold delete_rows. by rewrite map_lookup_filter_Some. Qed.

Lemma keyed_insert (key : A -> K) x (m : gmap K A) k : keyed key m -> key x = k -> keyed key (<[k := x]> m).
Proof. intros Hm Hk j y. rewrite lookup_insert. case_decide; [intros [= <-]; congruence|apply Hm]. Qed.
Lemma keyed_delete (key : A -> K) k (m : gmap K A) : keyed key m -> keyed key (delete k m).
Proof. intros Hm j y Hy. apply lookup_delete_Some in Hy as [_ Hy]. by apply Hm. Qed.
Lemma keyed_delete_rows (key : A -> K) p (m : gmap K A) : keyed key m -> keyed key (delete_rows p m).
Proof. intros Hm j y Hy. apply lookup_delete_rows in Hy as [Hy _]. by apply Hm. Qed.

Lemma only_at_delete_rows (G : K -> Prop) (p : A -> bool) (m : gmap K A) :
  (forall k x, m !! k = Some x -> p x = true -> G k) -> only_at G m (delete_rows p m).
Proof.
  intros Hp k. destruct (m !! k) as [x|] eqn:E.
  - destruct (p x) eqn:Ep; [left; eauto|right]. by apply lookup_delete_rows.
  - right. destruct (delete_rows p m !! k) as [x|] eqn:E2; [|done].
    apply lookup_delete_rows in E2 as [? _]. congruence.
Qed.

Lemma rows_by_insert (G : A -> Prop) k x (m : gmap K A) :
  G x -> (forall y, m !! k = Some y -> G y) -> rows_by G m (<[k := x]> m).
Proof.
  intros Hx Hy j. destruct (decide (j = k)) as [->|]; [right|left; by rewrite lookup_insert_ne].
  intros z [Hz|Hz]; [by apply Hy|]. rewrite lookup_insert_eq in Hz. by injection Hz as <-.
Qed.
Lemma rows_by_delete (G : A -> Prop) k (m : gmap K A) :
  (forall y, m !! k = Some y -> G y) -> rows_by G m (delete k m).
Proof.
  intros Hy j. destruct (decide (j = k)) as [->|]; [right|left; by rewrite lookup_delete_ne].
  intros z [Hz|Hz]; [by apply Hy|]. by rewrite lookup_delete_eq in Hz.
Qed.
Lemma rows_by_delete_rows (G : A -> Prop) (p : A -> bool) (m : gmap K A) :
  (forall x, p x = true -> G x) -> rows_by G m (delete_rows p m).
Proof.
  intros Hp k. destruct (m !! k) as [x|] eqn:E.
  - destruct (p x) eqn:Ep; [right|left; by apply lookup_delete_rows].
    intros y [[= <-]|Hy]; [auto|]. apply lookup_delete_rows in Hy as [? ?]. rewrite E in *. simplify_eq.
    auto.
  - left. destruct (delete_rows p m !! k) as [x|] eqn:E2; [|done].
    apply lookup_delete_rows in E2 as [? _]. congruence.
Qed.
Lemma adds_only_insert (G : A -> Prop) k x (m : gmap K A) : G x -> adds_only G m (<[k := x]> m).
Proof. intros Hx j y. rewrite lookup_insert. case_decide; [intros [= <-]; by left|by right]. Qed.
Lemma adds_only_delete (G : A -> Prop) k (m : gmap K A) : adds_only G m (delete k m).
Proof. intros j y Hy. apply lookup_delete_Some in Hy as [_ Hy]. by right. Qed.
Lemma adds_only_delete_rows (G : A -> Prop) p (m : gmap K A) : adds_only G m (delete_rows p m).
Proof. intros j y Hy. apply lookup_delete_rows in Hy as [Hy _]. by right. Qed.
End TableRelations.

(** ** The authority of an actor *)

Section Authority.
Context {U : UnicodeTables} {J : JsonText}.

(** Read off the tables: managing a workspace, managing or deploying the functions
    of an owner. *)
Definition may_manage_workspace (t : Tables) (act : User) (wsID : string) : Prop :=
  CanManageWorkspace (actor_of act) (role_in t wsID (u_ID act)) = true
  \/ (t_workspaces t !! wsID = None /\ CanCreateWorkspace (actor_of act) = true).

Definition may_manage_functions (t : Tables) (act : User) (ot : OwnerType) (oid : string) : Prop :=
  match ot with
  | OwnerTypeUser => CanManageFunction (actor_of act) ot oid None false = true
  | OwnerTypeWorkspace =>
      exists x s, t_workspaces t !! oid = Some x /\ ParseWorkspace (w_Settings x) = Ok s
        /\ CanManageFunction (actor_of act) ot "" (role_in t oid (u_ID act)) (ws_MemberCanDeploy s) = true
  end.

Definition owner_authority (t : Tables) (act : User) (ot : OwnerType) (oid : string) : Prop :=
  may_deploy t act ot oid \/ may_manage_functions t act ot oid.

(** Over a function: by its owner; over one that does not exist yet, as yet none
    is needed. *)
Definition function_authority (t : Tables) (act : User) (id : string) : Prop :=
  match t_functions t !! id with
  | Some f => owner_authority t act (f_OwnerType f) (f_OwnerID f)
  | None => True
  end.

Definition is_admin (act : User) : Prop := u_Role act = RoleAdmin.

(** What may become of a user's row. *)
Definition user_change (act : User) (u u' : User) : Prop :=
  u_ID u' = u_ID u /\ u_Provider u' = u_Provider u /\ u_ProviderSubject u' = u_ProviderSubject u
  /\ u_Email u' = u_Email u /\ u_Name u' = u_Name u /\ u_CreatedAt u' = u_CreatedAt u
  /\ unless (is_admin act) (u_Role u, u_Status u) (u_Role u', u_Status u')
  /\ unless (u_ID act = u_ID u) (u_Language u) (u_Language u').

Definition users_change (act : User) (m m' : gmap string User) : Prop :=
  forall k, match m !! k, m' !! k with
            | Some u, Some u' => u' = u \/ user_change act u u'
            | None, None => True
            | _, _ => False
            end.

(** The rows of these tables sit at their keys. *)
Definition member_key (m : WorkspaceMember) : string * string := (wm_WorkspaceID m, wm_UserID m).
Definition env_key (e : EnvVar) : string * string := (e_FunctionID e, e_Key e).

Record row_keys (t : Tables) : Prop := {
  rk_users : keyed u_ID (t_users t);
  rk_handles : keyed p_UserID (t_handles t);
  rk_members : keyed member_key (t_members t);
  rk_env : keyed env_key (t_env t);
  rk_credentials : keyed cc_ID (t_cli_credentials (t_creds t));
  rk_grants : keyed og_ID (t_oauth_grants (t_creds t))
}.

(** [act], with the authority it has in [t0], may turn [t] into [t']. *)
Record within (t0 : Tables) (act : User) (t t' : Tables) : Prop := {
  in_organization : unless (is_admin act) (t_organization t) (t_organization t');
  in_login_rules : unless (is_admin act) (t_login_rules t) (t_login_rules t');
  in_users : users_change act (t_users t) (t_users t');
  in_handles : rows_by (fun p => p_InternalUserID p = u_ID act) (t_handles t) (t_handles t');
  in_workspaces : only_at (may_manage_workspace t0 act) (t_workspaces t) (t_workspaces t');
  in_members : only_at (fun k => may_manage_workspace t0 act k.1) (t_members t) (t_members t');
  in_functions : rows_by (fun f => owner_authority t0 act (f_OwnerType f) (f_OwnerID f))
                   (t_functions t) (t_functions t');
  in_names : names_kept t t';
  in_versions : rows_by (fun v => function_authority t0 act (v_FunctionID v)) (t_versions t) (t_versions t');
  in_env : only_at (fun k => function_authority t0 act k.1) (t_env t) (t_env t');
  in_logs : rows_by (fun l => function_authority t0 act (il_FunctionID l)) (t_logs t) (t_logs t');
  in_audit : appended (fun a => al_ActorID a = u_ID act) (t_audit t) (t_audit t');
  in_sessions : t_sessions (t_creds t') = t_sessions (t_creds t);
  in_invoke_codes : adds_only (fun _ => False) (t_invoke_codes (t_creds t)) (t_invoke_codes (t_creds t'));
  in_cli_credentials : rows_by (fun c => cc_UserID c = u_ID act \/ is_admin act)
                         (t_cli_credentials (t_creds t)) (t_cli_credentials (t_creds t'));
  in_cli_codes : adds_only (fun k => ca_UserID k = u_ID act) (t_cli_codes (t_creds t)) (t_cli_codes (t_creds t'));
  in_oauth_clients : t_oauth_clients (t_creds t') = t_oauth_clients (t_creds t);
  in_oauth_codes : t_oauth_codes (t_creds t') = t_oauth_codes (t_creds t);
  in_oauth_grants : rows_by (fun g => og_UserID g = u_ID act)
                      (t_oauth_grants (t_creds t)) (t_oauth_grants (t_creds t'));
  in_keys : row_keys t -> row_keys t'
}.

#[export] Instance users_change_refl act : Reflexive (users_change act).
Proof. intros m k. destruct (m !! k); auto. Qed.
#[export] Instance users_change_trans act : Transitive (users_change act).
Proof.
  intros m1 m2 m3 H1 H2 k. specialize (H1 k). specialize (H2 k).
  destruct (m1 !! k) as [u1|], (m2 !! k) as [u2|], (m3 !! k) as [u3|]; try done.
  destruct H1 as [->|(?&?&?&?&?&?&R1&L1)]; [done|]. destruct H2 as [->|(?&?&?&?&?&?&R2&L2)].
  { right. by repeat split. }
  right. repeat split; try congruence; [by etrans|].
  etrans; [exact L1|]. by replace (u_ID u1) with (u_ID u2).
Qed.

#[export] Instance names_kept_refl : Reflexive names_kept.
Proof. intros t n id b H. eauto. Qed.
#[export] Instance names_kept_trans : Transitive names_kept.
Proof.
  intros t1 t2 t3 H1 H2 n id b H. destruct (H1 n id b H) as (b1 & E1 & I1).
  destruct (H2 n id b1 E1) as (b2 & E2 & I2). exists b2. auto.
Qed.

#[export] Instance within_refl t0 act : Reflexive (within t0 act).
Proof. intros t. split; try reflexivity. done. Qed.
#[export] Instance within_trans t0 act : Transitive (within t0 act).
Proof.
  intros t1 t2 t3 H1 H2. destruct H1, H2. split; try (etrans; eassumption). auto.
Qed.

(** ** Updating one table *)

Ltac one_table :=
  split; simpl; try reflexivity; try (intros ? ? ? ?; eauto; fail); try (by left);
  try (by intros []; split).

Lemma set_organization_within t0 act t x : is_admin act -> within t0 act t (set_organization t x).
Proof. intros Ha. one_table. Qed.
Lemma set_login_rules_within t0 act t x : is_admin act -> within t0 act t (set_login_rules t x).
Proof. intros Ha. one_table. Qed.
Lemma set_users_within t0 act t x : users_change act (t_users t) x -> (keyed u_ID (t_users t) -> keyed u_ID x) -> within t0 act t (set_users t x).
Proof. intros Hx Hkey. one_table; [exact Hx|]. intros []; split; simpl; auto. Qed.
Lemma set_handles_within t0 act t x :
  rows_by (fun p => p_InternalUserID p = u_ID act) (t_handles t) x -> (keyed p_UserID (t_handles t) -> keyed p_UserID x) -> within t0 act t (set_handles t x).
Proof. intros Hx Hkey. one_table; [exact Hx|]. intros []; split; simpl; auto. Qed.
Lemma set_workspaces_within t0 act t x :
  only_at (may_manage_workspace t0 act) (t_workspaces t) x -> within t0 act t (set_workspaces t x).
Proof. intros Hx. one_table. exact Hx. Qed.
Lemma set_members_within t0 act t x :
  only_at (fun k => may_manage_workspace t0 act k.1) (t_members t) x -> (keyed member_key (t_members t) -> keyed member_key x) -> within t0 act t (set_members t x).
Proof. intros Hx Hkey. one_table; [exact Hx|]. intros []; split; simpl; auto. Qed.
Lemma set_functions_within t0 act t x :
  rows_by (fun f => owner_authority t0 act (f_OwnerType f) (f_OwnerID f)) (t_functions t) x ->
  within t0 act t (set_functions t x).
Proof. intros Hx. one_table. exact Hx. Qed.
Lemma set_names_within t0 act t x : names_kept t (set_names t x) -> within t0 act t (set_names t x).
Proof. intros Hx. one_table. Qed.
Lemma set_versions_within t0 act t x :
  rows_by (fun v => function_authority t0 act (v_FunctionID v)) (t_versions t) x ->
  within t0 act t (set_versions t x).
Proof. intros Hx. one_table. exact Hx. Qed.
Lemma set_env_within t0 act t x :
  only_at (fun k => function_authority t0 act k.1) (t_env t) x -> (keyed env_key (t_env t) -> keyed env_key x) -> within t0 act t (set_env t x).
Proof. intros Hx Hkey. one_table; [exact Hx|]. intros []; split; simpl; auto. Qed.
Lemma set_logs_within t0 act t x :
  rows_by (fun l => function_authority t0 act (il_FunctionID l)) (t_logs t) x -> within t0 act t (set_logs t x).
Proof. intros Hx. one_table. exact Hx. Qed.
Lemma set_audit_within t0 act t a : al_ActorID a = u_ID act -> within t0 act t (set_audit t (t_audit t ++ [a])).
Proof. intros Ha. one_table. exists [a]. by rewrite Forall_singleton. Qed.
Lemma set_invoke_codes_within t0 act t x :
  adds_only (fun _ => False) (t_invoke_codes (t_creds t)) x ->
  within t0 act t (set_creds t (set_invoke_codes (t_creds t) x)).
Proof. intros Hx. one_table. exact Hx. Qed.
Lemma set_cli_credentials_within t0 act t x :
  rows_by (fun c => cc_UserID c = u_ID act \/ is_admin act) (t_cli_credentials (t_creds t)) x -> (keyed cc_ID (t_cli_credentials (t_creds t)) -> keyed cc_ID x) ->
  within t0 act t (set_creds t (set_cli_credentials (t_creds t) x)).
Proof. intros Hx Hkey. one_table; [exact Hx|]. intros []; split; simpl; auto. Qed.
Lemma set_cli_codes_within t0 act t x :
  adds_only (fun k => ca_UserID k = u_ID act) (t_cli_codes (t_creds t)) x ->
  within t0 act t (set_creds t (set_cli_codes (t_creds t) x)).
Proof. intros Hx. one_table. exact Hx. Qed.
Lemma set_oauth_grants_within t0 act t x :
  rows_by (fun g => og_UserID g = u_ID act) (t_oauth_grants (t_creds t)) x -> (keyed og_ID (t_oauth_grants (t_creds t)) -> keyed og_ID x) ->
  within t0 act t (set_creds t (set_oauth_grants (t_creds t) x)).
Proof. intros Hx Hkey. one_table; [exact Hx|]. intros []; split; simpl; auto. Qed.
End Authority.

(** ** Programs that stay within the authority *)

Section Stays.
Context {U : UnicodeTables} {J : JsonText} {I : IdGen}.
Context (t0 : Tables) (act : User).

(** Once within, still within. *)
Definition still_within (t t' : Tables) : Prop := within t0 act t0 t -> within t0 act t0 t'.
#[export] Instance still_within_refl : Reflexive still_within.
Proof. intros t H. exact H. Qed.
#[export] Instance still_within_trans : Transitive still_within.
Proof. intros t1 t2 t3 H1 H2 H. apply H2, H1, H. Qed.

Definition stays {E A} (m : M E A) : Prop := preserves (on_tables still_within) m.

(** From given tables. *)
Definition acts {E A} (t : Tables) (m : M E A) : Prop :=
  forall w, tbl w = t -> within t0 act t0 t -> within t0 act t0 (tbl (m w).2).

Lemma stays_acts {E A} (m : M E A) t : stays m -> acts t m.
Proof. intros Hm w <- Ht. by apply (Hm w). Qed.

Lemma acts_throw {E A} t (e : E) : acts t (throw (A := A) e).
Proof. intros w Hw Hin. simpl. by rewrite Hw. Qed.

Lemma acts_stays {E A} (m : M E A) : (forall t, within t0 act t0 t -> acts t m) -> stays m.
Proof. intros Hm w Ht. by apply (Hm (tbl w)). Qed.

Lemma stays_write f : (forall t t', within t0 act t0 t -> f t = Ok t' -> within t0 act t t') -> stays (write f).
Proof. intros Hf. apply preserves_write; [exact _|]. intros t t' H Ht. etrans; [exact Ht|auto]. Qed.

Lemma acts_write t f : (forall t', f t = Ok t' -> within t0 act t t') -> acts t (write f).
Proof.
  intros Hf w <- Ht. apply (statement_at still_within (fun t => match f t with Ok t => Ok (tt, t) | Err e => Err e end)); [|done].
  intros a t' H _. destruct (f (tbl w)) eqn:E; simplify_eq. etrans; [exact Ht|auto].
Qed.

Lemma stays_cwrite f :
  (forall t c, within t0 act t0 t -> f (t_creds t) = Ok c -> within t0 act t (set_creds t c)) ->
  stays (cwrite f).
Proof.
  intros Hf. apply stays_write. intros t t' Ht H. destruct (f (t_creds t)) as [c|] eqn:E; [|done].
  injection H as <-. auto.
Qed.

Lemma acts_bind {E A B} t (m : M E A) (k : A -> M E B) :
  preserves (on_tables eq) m ->
  (forall a w w', tbl w = t -> m w = (Ok a, w') -> acts t (k a)) -> acts t (bind m k).
Proof.
  intros Hm Hk w Hw Hin. pose proof (Hm w) as Ht. unfold on_tables in Ht. unfold bind.
  destruct (m w) as [[a|e] w1] eqn:Hr; simpl in *; rewrite Hw in Ht; [|by rewrite <- Ht].
  by eapply Hk.
Qed.

(** The read came back with what the tables hold. *)
Lemma acts_read {E A B} t (m : M E A) (k : A -> M E B) (Q : A -> Prop) :
  preserves (on_tables eq) m ->
  (forall a w w', tbl w = t -> m w = (Ok a, w') -> Q a) ->
  (forall a, Q a -> acts t (k a)) -> acts t (bind m k).
Proof. intros Hm HQ Hk. apply acts_bind; [done|]. intros a w w' Hw H. apply Hk. by eapply HQ. Qed.

Lemma acts_then {E A B} t (m : M E A) (k : A -> M E B) :
  acts t m -> (forall a, stays (k a)) -> acts t (bind m k).
Proof.
  intros Hm Hk w Hw Hin. specialize (Hm w Hw Hin). unfold bind.
  destruct (m w) as [[a|e] w1]; simpl in *; [|done]. by apply (Hk a w1).
Qed.

(** The same, with what the first program promised. *)
Lemma acts_then_facts {E A B} t (m : M E A) (k : A -> M E B) :
  acts t m ->
  (forall a w w', tbl w = t -> m w = (Ok a, w') -> within t0 act t0 (tbl w') -> stays (k a)) ->
  acts t (bind m k).
Proof.
  intros Hm Hk w Hw Hin. specialize (Hm w Hw Hin). unfold bind.
  destruct (m w) as [[a|e] w1] eqn:Hr; simpl in *; [|done]. by apply (Hk a w w1).
Qed.

Lemma acts_or_err {E G A} t (f : E -> G) (m : M E A) : acts t m -> acts t (or_err f m).
Proof. intros Hm w Hw Hin. specialize (Hm w Hw Hin). unfold or_err. by destruct (m w). Qed.

Lemma stays_audit actorID action target detail :
  actorID = u_ID act -> stays (Audit actorID action target detail).
Proof.
  intros ->. unfold stays, Audit, Audit_Append. preserve. apply stays_write. intros t t' Ht H. case_step H.
  injection H as <-. by apply set_audit_within.
Qed.

(** ** The writes of the routes *)

Lemma stays_organization o : is_admin act -> stays (Organizations_Update o).
Proof.
  intros Ha. unfold stays, Organizations_Update. preserve. apply stays_write. intros t t' Ht H.
  case_step H. injection H as <-. by apply set_organization_within.
Qed.

Lemma stays_insert_rules rules n : is_admin act -> stays (insert_login_rules rules n).
Proof.
  intros Ha. induction rules as [|r rules IH]; unfold stays in *; simpl; preserve; [|done].
  apply stays_write. intros t t' Ht H. case_step H. injection H as <-. by apply set_login_rules_within.
Qed.

Lemma stays_login_rules rules : is_admin act -> stays (Organizations_ReplaceLoginRules rules).
Proof.
  intros Ha. unfold stays, Organizations_ReplaceLoginRules. preserve.
  apply preserves_transaction'; [exact _|]. preserve; [|by apply stays_insert_rules].
  apply stays_write. intros t t' Ht [= <-]. by apply set_login_rules_within.
Qed.

(** Two changes of the same row differ by a change. *)
Lemma user_change_between old u1 u :
  u1 = old \/ user_change act old u1 -> user_change act old u -> user_change act u1 u.
Proof.
  intros [->|(I1&P1&S1&E1&N1&C1&R1&L1)] (I2&P2&S2&E2&N2&C2&R2&L2); [by repeat split|].
  repeat split; try congruence; unfold unless in *; destruct R1, R2, L1, L2;
    first [left; congruence | right; congruence].
Qed.

(** Rewriting a user's row: what it was when the request arrived bounds the
    change. *)
Lemma stays_user u old :
  t_users t0 !! u_ID u = Some old -> user_change act old u -> stays (Users_Update u).
Proof.
  intros Hold Hu. unfold stays, Users_Update. preserve. apply stays_write. intros t t' Ht H.
  case_step H. case_step H. injection H as <-.
  pose proof (in_users _ _ _ _ Ht (u_ID u)) as Hk. rewrite Hold, E in Hk.
  apply set_users_within; [|intros Hkd; by apply keyed_insert]. intros k. rewrite lookup_insert. case_decide as Hd; [subst k|by destruct (t_users t !! k); auto].
  rewrite E. right. destruct (user_change_between old u0 u Hk Hu) as (?&?&?&?&?&?&?&?). by repeat split.
Qed.

Lemma acts_rename t p new :
  t_handles t !! p_UserID p = Some p -> p_InternalUserID p = u_ID act ->
  acts t (PublicUserIDs_Rename (p_UserID p) new).
Proof.
  intros Hp Hown. unfold PublicUserIDs_Rename. apply acts_bind; [preserve|]. intros n w1 w2 _ _.
  apply acts_write. intros t' H. rewrite Hp in H. case_step H. injection H as <-.
  apply set_handles_within; [|intros Hkd; apply keyed_insert; [by apply keyed_delete|done]].
  etrans; [apply (rows_by_delete _ (p_UserID p))|].
  { intros y Hy. rewrite Hp in Hy. by injection Hy as <-. }
  apply rows_by_insert; [done|]. intros y Hy. apply lookup_delete_Some in Hy as [Hne Hy].
  exfalso. apply andb_false_iff in E as [E|E]; bool_facts; [done|]. apply E. by rewrite Hy.
Qed.

(** ** Workspaces *)

Lemma stays_workspace x : may_manage_workspace t0 act (w_ID x) -> stays (Workspaces_Update x).
Proof.
  intros Hm. unfold stays, Workspaces_Update. preserve. apply stays_write. intros t t' Ht H.
  case_step H. injection H as <-. apply set_workspaces_within. by apply only_at_insert.
Qed.

Lemma stays_delete_workspace id :
  keyed member_key (t_members t0) ->
  may_manage_workspace t0 act id -> stays (Workspaces_Delete id).
Proof.
  intros Hk Hm. unfold stays, Workspaces_Delete. preserve; apply stays_write; intros t t' Ht [= <-].
  - apply set_members_within; [|apply keyed_delete_rows]. apply only_at_delete_rows. intros k m Hl Hid. bool_facts.
    destruct (in_members _ _ _ _ Ht k) as [|E]; [done|]. rewrite Hl in E. symmetry in E.
    apply Hk in E as <-. by simpl in *; subst.
  - by apply set_workspaces_within, only_at_delete.
Qed.

Lemma insert_member_within m t t' :
  may_manage_workspace t0 act (wm_WorkspaceID m) -> insert_member m t = Ok t' -> within t0 act t t'.
Proof.
  intros Hm H. unfold insert_member in H. case_step H. case_step H. injection H as <-.
  apply set_members_within; [by apply only_at_insert|]. intros Hkd. by apply keyed_insert.
Qed.

Lemma stays_add_member m : may_manage_workspace t0 act (wm_WorkspaceID m) -> stays (Workspaces_AddMember m).
Proof.
  intros Hm. unfold stays, Workspaces_AddMember. preserve. apply stays_write. intros t t' Ht H.
  eapply insert_member_within; [|exact H]. done.
Qed.

Lemma stays_member_role ws u r : may_manage_workspace t0 act ws -> stays (Workspaces_UpdateMemberRole ws u r).
Proof.
  intros Hm. unfold stays, Workspaces_UpdateMemberRole. preserve. apply stays_write. intros t t' Ht H.
  case_step H. injection H as <-. apply set_members_within; [by apply only_at_insert|].
  intros Hkd. by apply keyed_insert.
Qed.

Lemma stays_remove_member ws u : may_manage_workspace t0 act ws -> stays (Workspaces_RemoveMember ws u).
Proof.
  intros Hm. unfold stays, Workspaces_RemoveMember. apply stays_write. intros t t' Ht H.
  case_step H. injection H as <-. apply set_members_within; [by apply only_at_delete|apply keyed_delete].
Qed.

(** A new workspace: its identifier is free, or was the actor's to manage. *)
Lemma stays_create_workspace x creator :
  CanCreateWorkspace (actor_of act) = true -> stays (Store_CreateWorkspace x creator).
Proof.
  intros Hc. unfold stays, Store_CreateWorkspace. preserve. rename a into id.
  apply preserves_transaction; [exact _|]. intros w r w' H Ht.
  apply bind_ok in H as ([] & w1 & H1 & H2). apply write_ok in H1, H2.
  unfold insert_workspace in H1. case_step H1. injection H1 as H1. simpl in *. bool_facts.
  assert (may_manage_workspace t0 act id) as Hm.
  { destruct (in_workspaces _ _ _ _ Ht id) as [|E1]; [done|]. right. split; [|done].
    rewrite <- E1. by apply eq_None_not_Some. }
  etrans; [exact Ht|]. etrans; [|eapply insert_member_within; [|exact H2]; done].
  rewrite <- H1. by apply set_workspaces_within, only_at_insert.
Qed.

(** ** Credentials *)

Lemma acts_delete_credential t id :
  (forall c, t_cli_credentials (t_creds t) !! id = Some c -> cc_UserID c = u_ID act \/ is_admin act) ->
  acts t (CLICredentials_Delete id).
Proof.
  intros Ho. apply acts_write. intros t' [= <-].
  apply set_cli_credentials_within; [by apply rows_by_delete|apply keyed_delete].
Qed.

Lemma acts_delete_grant t id :
  (forall g, t_oauth_grants (t_creds t) !! id = Some g -> og_UserID g = u_ID act) ->
  acts t (OAuthGrants_Delete id).
Proof.
  intros Ho. apply acts_write. intros t' [= <-].
  apply set_oauth_grants_within; [by apply rows_by_delete|apply keyed_delete].
Qed.

Lemma stays_cli_code k : ca_UserID k = u_ID act -> stays (CLIAuthCodes_Create k).
Proof.
  intros Ho. unfold stays, CLIAuthCodes_Create. preserve.
  - apply stays_cwrite. intros t c Ht [= <-]. apply set_cli_codes_within, adds_only_delete_rows.
  - apply stays_write. intros t t' Ht H. apply rbind_ok in H as (m & Hm & H). injection H as <-.
    unfold insert_row in Hm. case_step Hm. case_step Hm. injection Hm as <-.
    by apply set_cli_codes_within, adds_only_insert.
Qed.

(** ** Functions *)

Lemma function_owner t id f : within t0 act t0 t -> function_authority t0 act id ->
  t_functions t !! id = Some f -> owner_authority t0 act (f_OwnerType f) (f_OwnerID f).
Proof.
  intros Ht Ha Hf. destruct (in_functions _ _ _ _ Ht id) as [E|E]; [|apply E; by right].
  unfold function_authority in Ha. by rewrite <- E, Hf in Ha.
Qed.

(** The other way round: authority over what is there now is authority over what
    was there. *)
Lemma owner_function t id f : within t0 act t0 t -> t_functions t !! id = Some f ->
  owner_authority t0 act (f_OwnerType f) (f_OwnerID f) -> function_authority t0 act id.
Proof.
  intros Ht Hf Ho. unfold function_authority. destruct (t_functions t0 !! id) as [g|] eqn:E; [|done].
  destruct (in_functions _ _ _ _ Ht id) as [E1|E1]; [|apply E1; by left].
  rewrite Hf, E in E1. by injection E1 as ->.
Qed.

Lemma set_function_within t id f : within t0 act t0 t -> function_authority t0 act id ->
  owner_authority t0 act (f_OwnerType f) (f_OwnerID f) ->
  within t0 act t (set_functions t (<[id := f]> (t_functions t))).
Proof.
  intros Ht Ha Ho. apply set_functions_within, rows_by_insert; [done|].
  intros y Hy. by apply (function_owner t id).
Qed.

Lemma stays_set_env id k v : function_authority t0 act id -> stays (Functions_SetEnv id k v).
Proof.
  intros Ha. unfold stays, Functions_SetEnv. preserve. apply stays_write. intros t t' Ht H.
  case_step H. injection H as <-. apply set_env_within; [by apply only_at_insert|].
  intros Hkd. by apply keyed_insert.
Qed.

Lemma stays_delete_env id k : function_authority t0 act id -> stays (Functions_DeleteEnv id k).
Proof.
  intros Ha. unfold stays, Functions_DeleteEnv. apply stays_write. intros t t' Ht [= <-].
  apply set_env_within; [by apply only_at_delete|apply keyed_delete].
Qed.

Lemma stays_activate id v : function_authority t0 act id -> stays (Store_ActivateVersion id v).
Proof.
  intros Ha. unfold stays, Store_ActivateVersion. preserve. apply preserves_transaction'; [exact _|].
  preserve. apply stays_write. intros t t' Ht H. case_step H. injection H as <-.
  apply set_function_within; [done|done|]. simpl. by apply (function_owner t id).
Qed.

Lemma release_keeps t id :
  names_kept t (set_names t ((fun nf => if (nf.1 == id) && (nf.2 : bool) then (nf.1, false) else nf) <$> t_names t)).
Proof.
  intros n i b Hn. simpl. rewrite lookup_fmap, Hn. simpl.
  destruct ((i == id) && b) eqn:E; simpl; eauto.
Qed.

Lemma stays_delete_function id :
  keyed env_key (t_env t0) ->
  function_authority t0 act id -> stays (Functions_Delete id).
Proof.
  intros Hk Ha. unfold stays, Functions_Delete. preserve; apply stays_write; intros t t' Ht [= <-].
  - apply set_names_within, release_keeps.
  - apply set_env_within; [|apply keyed_delete_rows]. apply only_at_delete_rows. intros k e He Hid. bool_facts.
    destruct (in_env _ _ _ _ Ht k) as [|E]; [done|]. rewrite He in E. symmetry in E.
    apply Hk in E as <-. simpl. congruence.
  - apply set_logs_within, rows_by_delete_rows. intros l Hl. bool_facts. congruence.
  - apply set_versions_within, rows_by_delete_rows. intros v Hv. bool_facts. congruence.
  - transitivity (set_functions t (delete id (t_functions t))).
    + apply set_functions_within, rows_by_delete. intros y Hy. by apply (function_owner t id).
    + apply (set_invoke_codes_within t0 act (set_functions t (delete id (t_functions t)))).
      apply adds_only_delete_rows.
Qed.

Lemma stays_create_version v : function_authority t0 act (v_FunctionID v) -> stays (Functions_CreateVersion v).
Proof.
  intros Ha. unfold stays, Functions_CreateVersion. preserve. apply stays_write. intros t t' Ht H.
  case_step H. case_step H. injection H as <-. bool_facts. apply set_versions_within, rows_by_insert; [done|].
  intros y Hy. rewrite Hy in E. by destruct E.
Qed.

Lemma stays_update_function f : function_authority t0 act (f_ID f) -> stays (Functions_Update f).
Proof.
  intros Ha. unfold stays, Functions_Update, Functions_ByID. preserve.
  apply preserves_statement; [exact _|]. intros t x t' H Ht. case_step H. injection H as _ <-.
  etrans; [exact Ht|]. apply set_function_within; [done|done|]. simpl. by apply (function_owner t (f_ID f)).
Qed.

Lemma stays_create_function f limit :
  owner_authority t0 act (f_OwnerType f) (f_OwnerID f) -> stays (Functions_create f limit).
Proof.
  intros Ha. unfold stays, Functions_create. preserve.
  apply preserves_transaction; [exact _|]. intros w u w' H Ht.
  apply create_committed in H as (_ & t1 & Hw & H).
  etrans; [exact Ht|]. pose proof (names_inv_create _ _ _ _ Hw H) as [_ Hn].
  apply insert_function_ok in Hw as [Hw Hid]. apply insert_name_ok in H as (H & _ & _).
  rewrite H, Hw in *. simpl in *. etrans; [apply set_functions_within, (rows_by_insert _ (f_ID (stamp_function f a a0)) (stamp_function f a a0))|].
  - done.
  - intros y Hy. simpl in *. congruence.
  - apply set_names_within. exact Hn.
Qed.
End Stays.

(** ** Descending through a handler *)

Ltac head_of m := lazymatch m with ?f _ => head_of f | _ => m end.
Ltac descend_step :=
  lazymatch goal with
  | |- stays _ _ ?m => unfold stays
  | |- preserves _ (Audit _ _ _ _) => apply stays_audit; reflexivity
  | |- preserves _ (bind _ _) => preserve_step
  | |- preserves _ ?m => first [ preserve_step | let h := head_of m in progress unfold h ]
  end.
Ltac descend := repeat descend_step.

(** ** The checks of the handlers *)

Section Checks.
Context {U : UnicodeTables} {F : FloatToInt} {Y : YamlDecoder} {A : ArchiveCodec} {J : JsonText}
  {S : JsonStream} {N : JsonAny} {P : MultipartReader} {I : IdGen} {C : Cipher}.

Lemma read_ok {B} (f : Tables -> result StoreErr B) w b w' :
  query f w = (Ok b, w') -> f (tbl w) = Ok b /\ tbl w' = tbl w.
Proof. apply query_ok. Qed.

Lemma read_row {B} (f : Tables -> option B) w b w' :
  query (fun t => row (f t)) w = (Ok b, w') -> f (tbl w) = Some b /\ tbl w' = tbl w.
Proof. intros H. apply query_ok in H as [H ?]. by apply row_ok in H. Qed.

Lemma admin_required act w u w' : requireOrgAdminActor act w = (Ok u, w') -> is_admin act /\ tbl w' = tbl w.
Proof.
  unfold requireOrgAdminActor, CanUpdateOrgSettings, IsOrgAdmin. intros H. case_step H.
  injection H as _ <-. by bool_facts.
Qed.

Lemma role_read ws user w r w' : workspaceRoleFor ws user w = (Ok r, w') ->
  r = role_in (tbl w) ws user /\ tbl w' = tbl w.
Proof.
  unfold workspaceRoleFor, Workspaces_ListMembers. intros H. apply bind_ok in H as (ms & w1 & Hm & H).
  apply query_ok in Hm as [[= <-] Ht]. by injection H as <- <-.
Qed.

Lemma managed_read act id w x w' : managed_workspace act id w = (Ok x, w') ->
  may_manage_workspace (tbl w) act (w_ID x.1) /\ tbl w' = tbl w.
Proof.
  unfold managed_workspace, resolveWorkspace. intros H. apply bind_ok in H as (y & w1 & Hy & H).
  apply bind_ok in Hy as (z & w2 & Hz & Hy). apply or_err_ok, read_row in Hz as [_ Ht].
  apply bind_ok in Hy as (s & w3 & Hs & Hy). unfold lift in Hs. injection Hs as _ <-.
  injection Hy as <- <-. apply bind_ok in H as (u & w4 & Hu & H). injection H as <- <-.
  unfold requireManageWorkspaceActor in Hu. apply bind_ok in Hu as (r & w5 & Hr & Hu).
  apply or_err_ok, role_read in Hr as [-> Ht']. case_step Hu. injection Hu as _ <-.
  rewrite Ht in *. split; [by left|congruence].
Qed.

Lemma load_workspace_read oid missing act w x w' : load_workspace oid missing act w = (Ok x, w') ->
  exists ws, t_workspaces (tbl w) !! oid = Some ws /\ ParseWorkspace (w_Settings ws) = Ok x.1
    /\ x.2 = role_in (tbl w) oid (u_ID act).
Proof.
  unfold load_workspace. intros H. apply bind_ok in H as (ws & w1 & Hw & H).
  apply or_err_ok, read_row in Hw as [Hw Ht]. apply bind_ok in H as (s & w2 & Hs & H).
  unfold lift in Hs. destruct (ParseWorkspace (w_Settings ws)) as [s'|] eqn:E; [|done]. injection Hs as <- <-.
  apply bind_ok in H as (r & w3 & Hr & H). injection H as <- _.
  apply or_err_ok in Hr. apply (role_read oid (u_ID act)) in Hr as [-> _]. exists ws. by rewrite Ht.
Qed.

Lemma manage_read act f w u w' : CanManage act f w = (Ok u, w') ->
  may_manage_functions (tbl w) act (f_OwnerType f) (f_OwnerID f).
Proof.
  unfold CanManage, may_manage_functions. destruct (f_OwnerType f); intros H.
  - by case_step H.
  - apply bind_ok in H as (x & w1 & Hx & H). apply load_workspace_read in Hx as (ws & Hw & Hs & Hr).
    exists ws, x.1. rewrite Hr in H. case_step H. by split_and!.
Qed.

Lemma resolve_read owner name w f w' : Resolve owner name w = (Ok f, w') ->
  tbl w' = tbl w /\ exists id, t_functions (tbl w) !! id = Some f.
Proof.
  unfold Resolve. intros H. apply bind_ok in H as (o & w1 & Ho & H).
  assert (preserves (on_tables eq) (ResolveOwner owner)) as Hp by descend.
  pose proof (preserves_at _ _ _ _ _ Hp Ho) as Ht. unfold on_tables in Ht.
  apply or_err_ok, query_ok in H as [H Ht']. apply head_rows in H as (id & H & _).
  rewrite <- Ht in H. split; [congruence|eauto].
Qed.

Lemma visible_read act owner name w f w' : ResolveVisible act owner name w = (Ok f, w') ->
  tbl w' = tbl w /\ exists id, t_functions (tbl w) !! id = Some f.
Proof.
  unfold ResolveVisible. intros H. apply bind_ok in H as (g & w1 & Hg & H).
  apply resolve_read in Hg as [Ht Hg]. apply bind_ok in H as (ok & w2 & Ho & H).
  assert (preserves (on_tables eq) (CanView act (f_OwnerType g) (f_OwnerID g))) as Hp by descend.
  apply or_err_ok in Ho. pose proof (preserves_at _ _ _ _ _ Hp Ho) as Ht'. unfold on_tables in Ht'.
  case_step H. injection H as <- <-. split; [congruence|done].
Qed.
End Checks.

(** ** The handlers *)

Section Handlers.
Context {U : UnicodeTables} {F : FloatToInt} {Y : YamlDecoder} {A : ArchiveCodec} {J : JsonText}
  {S : JsonStream} {N : JsonAny} {P : MultipartReader} {I : IdGen} {C : Cipher}.
Context (t0 : Tables) (act : User) (Hk : row_keys t0) (Hn : names_ok t0).

(** A handler that only reads. *)
Ltac only_reads := apply stays_acts; descend.
(** What follows the writes. *)
Ltac then_answers := apply acts_then; [|intros ?; unfold stays; descend].

(** Past a check that only administrators pass. *)
Lemma admin_check {B D} (m : M Error B) (k : B -> M Error D) :
  preserves (on_tables eq) m ->
  (forall w b w', m w = (Ok b, w') -> is_admin act) ->
  (forall b, is_admin act -> stays t0 act (k b)) -> acts t0 act t0 (bind m k).
Proof.
  intros Hm Ha Hs. apply (acts_read t0 act t0 _ _ (fun _ => is_admin act)); [done|by intros; eapply Ha|].
  intros b Hb. apply stays_acts. auto.
Qed.

Lemma after_admin {B} (k : unit -> M Error B) w b w' :
  bind (requireOrgAdminActor act) k w = (Ok b, w') -> is_admin act.
Proof. intros H. apply bind_ok in H as (u & w1 & H & _). by apply admin_required in H as [? _]. Qed.

Lemma acts_UpdateOrgSettings patch : acts t0 act t0 (UpdateOrgSettings act patch).
Proof.
  unfold UpdateOrgSettings. apply admin_check; [descend|intros w b w'; apply after_admin|].
  intros [[org cur] b] Ha. unfold stays, org_update_apply. preserve; [by apply stays_organization|descend].
Qed.

Lemma acts_org_patch r : acts t0 act t0 (handleOrgPatch act r).
Proof.
  unfold handleOrgPatch. destruct (q_Body r); [|apply acts_throw]. then_answers. apply acts_UpdateOrgSettings.
Qed.

Lemma acts_ReplaceLoginRules input : acts t0 act t0 (ReplaceLoginRules act input).
Proof.
  unfold ReplaceLoginRules. apply admin_check; [descend|by intros w b w' H; apply admin_required in H as [? _]|].
  intros _ Ha. unfold stays. preserve; [by apply stays_login_rules|descend|descend].
Qed.

Lemma acts_rules_put r : acts t0 act t0 (handleLoginRulesPut act r).
Proof.
  unfold handleLoginRulesPut. apply acts_bind; [descend|]. intros input w1 w2 _ _. then_answers.
  apply acts_ReplaceLoginRules.
Qed.

Lemma acts_PatchUser id role status : acts t0 act t0 (PatchUser act id role status).
Proof.
  unfold PatchUser.
  apply (acts_read t0 act t0 _ _ (fun x => is_admin act /\ t_users t0 !! u_ID x.2 = Some x.1
                                           /\ exists r s, x.2 = with_role_status x.1 r s)).
  - descend.
  - intros x w w' Hw H. unfold patch_check in H. apply bind_ok in H as (? & w5 & H5 & H).
    apply admin_required in H5 as [Ha H5]. apply bind_ok in H as (target & w6 & H6 & H).
    apply or_err_ok, read_row in H6 as [H6 _]. rewrite H5, Hw in H6.
    apply bind_ok in H as (nr & w7 & _ & H). apply bind_ok in H as (ns & w8 & _ & H).
    apply bind_ok in H as (? & w9 & _ & H). injection H as <- _. simpl.
    split; [done|]. by rewrite (rk_users _ Hk _ _ H6); eauto.
  - intros [old new] (Ha & Ho & r0 & s0 & Hnew). simpl in *. apply stays_acts. unfold stays, patch_apply.
    preserve; [|descend]. apply (stays_user t0 act new old); [done|]. subst new.
    repeat split; first [by right | by left].
Qed.

Lemma acts_user_patch r id : acts t0 act t0 (handleOrgUserPatch act r id).
Proof.
  unfold handleOrgUserPatch. apply acts_bind; [descend|]. intros u w1 w2 _ _.
  apply acts_bind; [descend|]. intros body w3 w4 _ _. then_answers. apply acts_PatchUser.
Qed.

Lemma acts_CreateWorkspace name : acts t0 act t0 (CreateWorkspace act name).
Proof.
  unfold CreateWorkspace.
  apply (acts_read t0 act t0 _ _ (fun _ => CanCreateWorkspace (actor_of act) = true)); [descend| |].
  - intros x w w' _ H. unfold create_check in H. apply bind_ok in H as (om & w5 & _ & H).
    destruct om; [done|]. case_step H. case_step H. by bool_facts.
  - intros _ Hc. apply stays_acts. unfold stays, create_apply. preserve; [by apply stays_create_workspace|descend].
Qed.

Lemma acts_create_workspace r : acts t0 act t0 (handleWorkspaceCreate act r).
Proof.
  unfold handleWorkspaceCreate. apply acts_bind; [descend|]. intros name w1 w2 _ _. then_answers.
  apply acts_CreateWorkspace.
Qed.

(** Past the check of a workspace's manager. *)
Lemma managed_check {B D} (m : M Error B) (ws : B -> string) (k : B -> M Error D) :
  preserves (on_tables eq) m ->
  (forall w b w', m w = (Ok b, w') -> may_manage_workspace (tbl w) act (ws b)) ->
  (forall b, may_manage_workspace t0 act (ws b) -> stays t0 act (k b)) -> acts t0 act t0 (bind m k).
Proof.
  intros Hm Ha Hs. apply (acts_read t0 act t0 _ _ (fun b => may_manage_workspace t0 act (ws b))); [done| |].
  - intros b w w' <- H. by eapply Ha.
  - intros b Hb. apply stays_acts. auto.
Qed.

Lemma acts_workspace_patch r id : acts t0 act t0 (handleWorkspacePatch act r id).
Proof.
  unfold handleWorkspacePatch. apply (managed_check _ (fun x => w_ID x.1)); [descend| |].
  - intros w x w' H. by apply managed_read in H as [H _].
  - intros x Hm. unfold stays. preserve; [descend| |descend]. by apply stays_workspace.
Qed.

Lemma acts_workspace_delete id : acts t0 act t0 (handleWorkspaceDelete act id).
Proof.
  unfold handleWorkspaceDelete. apply (managed_check _ w_ID); [descend| |].
  - intros w x w' H. unfold delete_check in H. apply bind_ok in H as (y & w1 & Hy & H).
    apply managed_read in Hy as [Hy _]. apply bind_ok in H as (fns & w2 & _ & H). case_step H.
    by injection H as <- _.
  - intros x Hm. unfold stays, delete_apply. preserve; [|descend].
    apply stays_delete_workspace; [apply (rk_members _ Hk)|done].
Qed.

Lemma acts_SetWorkspaceMember id user role : acts t0 act t0 (SetWorkspaceMember act id user role).
Proof.
  unfold SetWorkspaceMember. apply (managed_check _ (fun y => w_ID y.1.1)); [descend| |].
  - intros w y w' H. unfold set_member_check in H. apply bind_ok in H as (x & w3 & Hx & H).
    apply managed_read in Hx as [Hx _]. case_step H. repeat (apply bind_ok in H as (? & ? & _ & H)).
    case_step H; [case_step H|]; by injection H as <- _.
  - intros [[x rl] existing] Hm. unfold stays, set_member_apply.
    preserve; [by apply stays_member_role|by apply stays_add_member|descend].
Qed.

Lemma acts_member_put r id user : acts t0 act t0 (handleWorkspaceMemberPut act r id user).
Proof.
  unfold handleWorkspaceMemberPut. apply acts_bind; [descend|]. intros role w1 w2 _ _. then_answers.
  apply acts_SetWorkspaceMember.
Qed.

Lemma acts_RemoveWorkspaceMember id user : acts t0 act t0 (RemoveWorkspaceMember act id user).
Proof.
  unfold RemoveWorkspaceMember. apply (managed_check _ w_ID); [descend| |].
  - intros w y w' H. unfold remove_member_check in H. apply bind_ok in H as (x & w3 & Hx & H).
    apply managed_read in Hx as [Hx _]. apply bind_ok in H as (ms & w4 & _ & H). case_step H.
    by injection H as <- _.
  - intros x Hm. unfold stays, remove_member_apply, lookup_or. preserve; [by apply stays_remove_member|descend].
Qed.

Lemma acts_member_delete id user : acts t0 act t0 (handleWorkspaceMemberDelete act id user).
Proof. unfold handleWorkspaceMemberDelete. then_answers. apply acts_RemoveWorkspaceMember. Qed.

(** ** The caller's own account *)

Lemma stays_user_id u requested : u_ID u = u_ID act -> stays t0 act (store_user_id act u requested).
Proof.
  intros Hid. apply acts_stays. intros t Ht. unfold store_user_id. case_goal; [|apply stays_acts; descend].
  apply (acts_read t0 act t _ _ (fun p => t_handles t !! p_UserID p = Some p /\ p_InternalUserID p = u_ID act)).
  - descend.
  - intros p w w' <- H. apply or_err_ok, query_ok in H as [H _]. apply head_rows in H as (k & H & Hp).
    bool_facts. pose proof (rk_handles _ (in_keys _ _ _ _ Ht Hk) _ _ H) as Hkey. split; congruence.
  - intros p [Hp Ho]. case_goal; [|apply stays_acts; descend]. apply acts_then; [|intros; descend].
    by apply acts_or_err, acts_rename.
Qed.

Lemma acts_me_patch r : acts t0 act t0 (handleMePatch act r).
Proof.
  unfold handleMePatch.
  apply (acts_read t0 act t0 _ _ (fun x => t_users t0 !! u_ID act = Some x.1.1)); [descend| |].
  - intros x w w' <- H. unfold me_patch_check in H. apply bind_ok in H as (u & w1 & Hu & H).
    apply or_err_ok, read_row in Hu as [Hu _]. repeat (apply bind_ok in H as (? & ? & _ & H)).
    by injection H as <- _.
  - intros [[u l] requested] Hu. simpl in Hu. pose proof (rk_users _ Hk _ _ Hu) as Hid.
    unfold me_patch_apply. apply acts_then_facts.
    { apply stays_acts. unfold store_language, stays. destruct l as [l|]; [|descend]. preserve; [|descend].
      apply (stays_user t0 act (with_language u l) u); [by simpl; rewrite Hid|].
      repeat split; [by right|by left]. }
    intros u' w w' _ H _. assert (u_ID u' = u_ID act) as Hu'.
    { unfold store_language in H. destruct l as [l|]; [|by injection H as <- _].
      repeat (apply bind_ok in H as (? & ? & _ & H)). by injection H as <- _. }
    unfold stays. apply preserves_bind; [exact _|by apply stays_user_id|intros; descend].
Qed.
Lemma stays_revoke kind id override : stays t0 act (RevokeDevice act kind id override).
Proof.
  apply acts_stays. intros t Ht. pose proof (in_keys _ _ _ _ Ht Hk) as Hkt. unfold RevokeDevice.
  case_goal; [|case_goal; [|apply stays_acts; descend]].
  - apply (acts_read t0 act t _ _ (fun creds => forall c, c ∈ creds ->
             t_cli_credentials (t_creds t) !! cc_ID c = Some c /\ cc_UserID c = u_ID act)).
    + descend.
    + intros creds w w' <- H. apply or_err_ok, query_ok in H as [[= <-] _]. intros c Hc.
      unfold order_by in Hc. rewrite merge_sort_Permutation in Hc. apply elem_of_rows in Hc as [Hc (k & Hl)].
      bool_facts. by rewrite (rk_credentials _ Hkt _ _ Hl).
    + intros creds Hc. case_goal; [apply stays_acts; descend|]. apply acts_then; [|intros; descend].
      apply acts_or_err, acts_delete_credential. intros c Hl. apply andb_false_iff in E0 as [E0|E0]; bool_facts.
      * apply existsb_exists in E0 as (c' & Hin & Hid). bool_facts. apply list_elem_of_In, Hc in Hin as [Hl' ?].
        left. congruence.
      * by right.
  - apply (acts_read t0 act t _ _ (fun grants => forall g, g ∈ grants ->
             t_oauth_grants (t_creds t) !! og_ID g = Some g /\ og_UserID g = u_ID act)).
    + descend.
    + intros grants w w' <- H. apply or_err_ok, query_ok in H as [[= <-] _]. intros g Hg.
      unfold order_by in Hg. rewrite merge_sort_Permutation in Hg. apply elem_of_rows in Hg as [Hg (k & Hl)].
      bool_facts. by rewrite (rk_grants _ Hkt _ _ Hl).
    + intros grants Hg. case_goal; [apply stays_acts; descend|]. apply acts_then; [|intros; descend].
      apply acts_or_err, acts_delete_grant. intros g Hl. bool_facts.
      apply existsb_exists in E1 as (g' & Hin & Hid). bool_facts. apply list_elem_of_In, Hg in Hin as [Hl' ?].
      congruence.
Qed.

Lemma acts_device_delete id : acts t0 act t0 (handleDeviceDelete act id).
Proof.
  apply stays_acts. unfold handleDeviceDelete, stays. preserve; try apply stays_revoke.
Qed.

Lemma acts_cli_authorize r : acts t0 act t0 (handleCLIAuthorize act r).
Proof.
  apply stays_acts. unfold handleCLIAuthorize, IssueCLIAuthCode, randomURLToken, stays.
  preserve; [descend|by apply stays_cli_code|descend].
Qed.

(** ** Functions *)

Lemma stays_function_url h f owner : stays t0 act (function_url h f owner).
Proof. descend. Qed.

Lemma stays_functionDTO h f owner : stays t0 act (functionDTO h f owner).
Proof. descend. Qed.

Lemma stays_functionDTOs h fns owner : stays t0 act (functionDTOs h fns owner).
Proof. induction fns as [|f fns IH]; unfold stays in *; simpl; preserve; [apply stays_functionDTO|done]. Qed.

Lemma stays_with_owners h fns : forall cache, stays t0 act (dtos_with_owners h cache fns).
Proof.
  induction fns as [|f fns IH]; intros cache; unfold stays in *; simpl; [descend|].
  apply preserves_bind; [exact _|descend|intros o]. apply preserves_bind; [exact _|apply stays_functionDTO|intros d].
  apply preserves_bind; [exact _|apply IH|intros; descend].
Qed.

Lemma stays_ListFunctions h owner : stays t0 act (ListFunctions h act owner).
Proof.
  unfold ListFunctions, functionDTOsWithOwners, stays. case_goal.
  - preserve; [descend|descend|descend|apply stays_functionDTOs].
  - apply preserves_bind; [exact _|descend|intros fns; apply stays_with_owners].
Qed.

Lemma acts_list h r : acts t0 act t0 (handleList h act r).
Proof. unfold handleList. then_answers. apply stays_acts, stays_ListFunctions. Qed.

(** The authority over the function a request names, once managing it is granted. *)
Lemma function_managed id f : t_functions t0 !! id = Some f ->
  may_manage_functions t0 act (f_OwnerType f) (f_OwnerID f) -> function_authority t0 act (f_ID f).
Proof.
  intros Hf Hm. rewrite (no_id _ Hn _ _ Hf). unfold function_authority. rewrite Hf. by right.
Qed.

Lemma acts_can_manage {D} f (k : unit -> M Error D) :
  (exists id, t_functions t0 !! id = Some f) ->
  (function_authority t0 act (f_ID f) -> stays t0 act (k tt)) ->
  acts t0 act t0 (bind (CanManage act f) k).
Proof.
  intros [id Hf] Hs. apply (acts_read t0 act t0 _ _ (fun _ => function_authority t0 act (f_ID f))); [descend| |].
  - intros u w w' Hw H. apply manage_read in H. rewrite Hw in H. by eapply function_managed.
  - intros [] Ha. apply stays_acts. auto.
Qed.

(** Past the lookup of a function. *)
Lemma acts_found {D} (m : M Error Function) (k : Function -> M Error D) :
  preserves (on_tables eq) m ->
  (forall w f w', m w = (Ok f, w') -> tbl w' = tbl w /\ exists id, t_functions (tbl w) !! id = Some f) ->
  (forall f, (exists id, t_functions t0 !! id = Some f) -> acts t0 act t0 (k f)) ->
  acts t0 act t0 (bind m k).
Proof.
  intros Hm Hf. apply acts_read; [done|]. intros f w w' Hw H. apply Hf in H as [_ H]. by rewrite Hw in H.
Qed.

Lemma stays_invalidate {E} id : stays t0 act (Runtime_Invalidate (E := E) id).
Proof. intros w Hw. exact Hw. Qed.

Lemma acts_activate h owner name id : acts t0 act t0 (handleActivate h act owner name id).
Proof.
  unfold handleActivate. apply acts_found; [descend|apply visible_read|intros f Hf].
  apply acts_can_manage; [done|intros Ha]. unfold stays, Activate, lookup_or.
  preserve; [by apply stays_activate|apply stays_invalidate|descend|apply stays_functionDTO].
Qed.

Lemma acts_delete h owner name : acts t0 act t0 (handleDelete h act owner name).
Proof.
  unfold handleDelete. apply acts_found; [descend|apply visible_read|intros f Hf].
  apply acts_can_manage; [done|intros Ha]. unfold stays, Delete.
  preserve; [apply stays_invalidate| |descend]. apply stays_delete_function; [apply (rk_env _ Hk)|done].
Qed.

Lemma acts_set_env h r owner name key : acts t0 act t0 (handleSetEnv h act r owner name key).
Proof.
  unfold handleSetEnv. case_goal; [apply acts_throw|].
  apply acts_found; [descend|apply resolve_read|intros f Hf]. apply acts_bind; [descend|]. intros v w1 w2 _ _.
  apply acts_then; [|intros; descend]. unfold SetEnv. apply acts_can_manage; [done|intros Ha].
  unfold stays. preserve. by apply stays_set_env.
Qed.

Lemma acts_delete_env owner name key : acts t0 act t0 (handleDeleteEnv act owner name key).
Proof.
  unfold handleDeleteEnv. apply acts_found; [descend|apply resolve_read|intros f Hf].
  apply acts_then; [|intros; descend]. unfold DeleteEnv. apply acts_can_manage; [done|intros Ha].
  unfold stays. preserve. by apply stays_delete_env.
Qed.

(** ** Deploying *)

Lemma acts_claim ot oid name d org : owner_authority t0 act ot oid ->
  acts t0 act t0 (claim_function act ot oid name d org).
Proof.
  intros Ha. unfold claim_function.
  apply (acts_read t0 act t0 _ _ (fun r => forall f, r = Ok f -> exists id, t_functions t0 !! id = Some f)).
  - descend.
  - intros r w w' Hw H f ->. apply attempt_ok, query_ok in H as [Eq _]. rewrite Hw in Eq.
    destruct (t_names t0 !! name) as [[id []]|]; [|done|done]. apply row_ok in Eq. eauto.
  - intros [f|e] Hf.
    + destruct (Hf f eq_refl) as [id Hid]. apply stays_acts. unfold stays. preserve.
      apply stays_update_function. simpl. rewrite (no_id _ Hn _ _ Hid). unfold function_authority. rewrite Hid.
      bool_facts. unfold same_owner in Heqb. apply andb_true_iff in Heqb as [Ho1 Ho2]. bool_facts. by subst.
    + apply stays_acts. destruct e; [|descend|descend|descend]. unfold stays, create_function.
      apply preserves_bind; [exact _|descend|intros [cur lim]]. preserve; [by apply stays_create_function|descend].
Qed.

Lemma stays_publish d f v : function_authority t0 act (f_ID f) -> v_FunctionID v = f_ID f ->
  stays t0 act (publish d f v).
Proof.
  intros Ha Hv. unfold stays, publish.
  preserve; [apply stays_create_version; by rewrite Hv|by apply stays_activate|apply stays_invalidate].
Qed.

Lemma acts_commit d p ot oid org m files packed : owner_authority t0 act ot oid ->
  acts t0 act t0 (deploy_commit d p act ot oid org m files packed).
Proof.
  intros Ha. unfold deploy_commit. apply acts_bind.
  { apply preserves_or_err. intros w. unfold Blob_Put, on_tables. by destruct (faults w) as [|[] ?]. }
  intros u w1 w2 _ _. apply acts_then_facts; [by apply acts_claim|].
  intros f w w' Hw H Hin. apply claim_function_outcome in H as (_ & _ & Hc); [|by rewrite Hw].
  destruct (Hc f eq_refl) as [(Hrow & Ho & _) _]. unfold same_owner in Ho. apply andb_true_iff in Ho as [Ho1 Ho2].
  bool_facts. unfold stays. preserve. apply stays_publish; [|done].
  apply (owner_function t0 act (tbl w') _ f); [done|done|]. by subst.
Qed.

Lemma acts_deploy_service d p : dp_Actor p = Some act -> acts t0 act t0 (Deploy d p).
Proof.
  intros Hp w Hw Hin. destruct (Deploy d p w) as [r w'] eqn:E. simpl.
  apply Deploy_run in E as [[(Ht & _) _]|(actor & ot & oid & org & m & files & packed & w1 & (Ht & _)
    & _ & Hact & _ & Hm & _ & _ & _ & Hc)]; [by rewrite Ht, Hw|].
  rewrite Hp in Hact. injection Hact as <-. rewrite Hw in *.
  pose proof (acts_commit d p ot oid org m files packed (or_introl Hm) w1 Ht Hin) as H. by rewrite Hc in H.
Qed.

Lemma acts_deploy h r : acts t0 act t0 (handleDeploy h act r).
Proof.
  unfold handleDeploy. destruct (parse_deploy_form r) as [[form values]|]; [|apply acts_throw].
  destruct (List.find _ _) as [[nm file]|]; [|apply acts_throw].
  apply acts_then; [by apply acts_deploy_service|]. intros x. unfold stays.
  apply preserves_bind; [exact _|unfold audit_deploy; descend|intros _].
  apply preserves_bind; [exact _|descend|intros; descend].
Qed.
End Handlers.

(** ** The routes, and the way to them *)

Section Gate.
Context {U : UnicodeTables} {F : FloatToInt} {Y : YamlDecoder} {A : ArchiveCodec} {J : JsonText}
  {S : JsonStream} {N : JsonAny} {P : MultipartReader} {I : IdGen} {C : Cipher}.

Ltac read_route := apply stays_acts; unfold stays; descend.

Lemma acts_me_get t0 act : acts t0 act t0 (handleMeGet act).
Proof.
  assert (forall wss, stays t0 act (workspace_entries (u_ID act) wss)) as He.
  { induction wss as [|x wss IH]; unfold stays in *; simpl; [descend|].
    apply preserves_bind; [exact _|descend|intros q]. apply preserves_bind; [exact _|apply IH|intros; descend]. }
  apply stays_acts. unfold handleMeGet, stays.
  do 5 (apply preserves_bind; [exact _|descend|intros ?]). apply preserves_bind; [exact _|apply He|intros; descend].
Qed.

Lemma stays_ListDevices t0 act : stays t0 act (ListDevices act).
Proof.
  assert (forall gs, stays t0 act (grant_devices gs)) as Hg.
  { induction gs as [|g gs IH]; unfold stays in *; simpl; [descend|].
    apply preserves_bind; [exact _|descend|intros q]. apply preserves_bind; [exact _|apply IH|intros; descend]. }
  unfold ListDevices, stays.
  do 2 (apply preserves_bind; [exact _|descend|intros ?]). apply preserves_bind; [exact _|apply Hg|intros; descend].
Qed.

Lemma acts_devices t0 act : acts t0 act t0 (handleDevicesList act).
Proof.
  apply stays_acts. unfold handleDevicesList, stays.
  apply preserves_bind; [exact _|apply stays_ListDevices|intros; descend].
Qed.

Lemma route_acts h act r t0 : row_keys t0 -> names_ok t0 -> acts t0 act t0 (route h act r).
Proof.
  intros Hk Hn. unfold route. destruct (splitPath _) as [|s rest]; [apply acts_throw|].
  repeat case_goal; [..|apply acts_throw].
  - unfold routeFunctions. repeat case_goal; try apply acts_throw; try (read_route; fail);
      first [by apply acts_list | by apply acts_deploy | by apply acts_delete | by apply acts_set_env
            | by apply acts_delete_env | by apply acts_activate].
  - unfold routeOrg. repeat case_goal; try apply acts_throw; try (read_route; fail);
      first [by apply acts_org_patch | by apply acts_rules_put | by apply acts_user_patch].
  - unfold routeWorkspaces. apply acts_bind; [descend|]. intros open w1 w2 _ _.
    repeat case_goal; try apply acts_throw; try (read_route; fail);
      first [by apply acts_create_workspace | by apply acts_workspace_patch | by apply acts_workspace_delete
            | by apply acts_member_put | by apply acts_member_delete].
  - unfold routeMe. repeat case_goal; try apply acts_throw;
      first [by apply acts_me_get | by apply acts_me_patch | by apply acts_devices | by apply acts_device_delete].
  - unfold routeCLI. repeat case_goal; try apply acts_throw. apply acts_cli_authorize.
Qed.
(** What authentication promises: a user in good standing, and no write but the
    sliding of the session. *)
Lemma authenticate_actor a r w ac w1 : Authenticate a r w = (Ok ac, w1) -> authenticatable (tbl w) (ac_User ac).
Proof.
  unfold Authenticate. intros H. case_step H; [|by apply session_actor_ok in H as [? _]].
  case_step H. case_step H. apply bind_ok in H as (n & w2 & [= <- <-] & H).
  case_step H. case_step H. apply bind_ok in H as (u & w3 & Hu & H). injection H as <- _.
  apply bind_ok in Hu as (n & w4 & [= <- <-] & Hu). apply bind_ok in Hu as (c & w5 & Hc & Hu).
  unfold lift in Hc. injection Hc as _ <-. by apply loadActiveUser_ok in Hu as (_ & ? & _).
Qed.

Lemma authenticate_frame a r : preserves (on_tables sessions_only) (Authenticate a r).
Proof.
  unfold Authenticate. preserve; [|apply session_frame].
  unfold authenticateAccessToken, loadActiveUser, validateAuthenticatable, checkLoginRules. descend.
Qed.

Lemma sessions_only_keys t t' : sessions_only t t' ->
  (row_keys t -> row_keys t') /\ (names_ok t -> names_ok t').
Proof. intros ->. split; [intros []; by split|by intros []; split]. Qed.

Lemma answer_inv m w resp w' : answer m w = (resp, w') ->
  exists r, m w = (r, w') /\ resp = match r with Ok x => x | Err e => writeServiceError e end.
Proof. unfold answer. destruct (m w) as [[x|e] w1]; intros [= <- <-]; eauto. Qed.

(** C22. The management API changes nothing beyond the caller's authority. Unless
    it is one of the CLI's two own endpoints, a request either is answered 401 or
    403 with no change but the sliding of a session, or comes from an active
    user whom the login rules admit, past the CSRF check where a cookie is used;
    and then, whatever the route, whatever the body and whatever fails, the
    tables change only within what that user may do: the organization, its login
    rules and other users' roles only for an administrator, a user's own
    language and User ID, workspaces and memberships only where they may manage
    the workspace, functions, versions, variables and logs only under owners
    they may deploy to or manage, their own devices and grants, and audit entries
    in their own name. *)
Theorem api_within_authority h r w
    (Hkeys : row_keys (tbl w)) (Hnames : names_ok (tbl w))
    (Hpath : isUnauthenticatedCLIPath (q_Path r) = false) :
  let '(resp, w') := ServeHTTP h r w in
  (sessions_only (tbl w) (tbl w') /\ (a_Status resp = 401 \/ a_Status resp = 403))
  \/ exists ac w1, Authenticate (h_Auth h) (q_Auth r) w = (Ok ac, w1)
       /\ sessions_only (tbl w) (tbl w1)
       /\ u_Status (ac_User ac) = UserStatusActive
       /\ EvaluateLoginRules (rules_of (tbl w)) (u_Email (ac_User ac)) = true
       /\ RequireCSRF (h_Auth h) (Some ac) (q_Auth r) = None
       /\ within (tbl w1) (ac_User ac) (tbl w1) (tbl w').
Proof.
  destruct (ServeHTTP h r w) as [resp w'] eqn:E. unfold ServeHTTP, serve in E. rewrite Hpath in E.
  apply answer_inv in E as (res & E & ->). unfold authenticated, middleware, bind at 1, or_err at 1 in E.
  pose proof (authenticate_frame (h_Auth h) (q_Auth r) w) as Hf.
  destruct (Authenticate (h_Auth h) (q_Auth r) w) as [[ac|e] w1] eqn:Ea; simpl in E.
  2:{ injection E as <- <-. left. split; [exact Hf|by left]. }
  apply authenticate_actor in Ea as Hau. destruct Hau as [Hst Hru]. unfold on_tables in Hf. simpl in Hf.
  unfold requirePendingApproved, bind at 1 in E.
  destruct (bool_decide (u_Status (ac_User ac) = UserStatusPending)) eqn:Ep; simpl in E.
  { injection E as <- <-. left. split; [exact Hf|by right]. }
  unfold require_csrf, bind at 1 in E.
  destruct (RequireCSRF (h_Auth h) (Some ac) (q_Auth r)) as [[st code]|] eqn:Ec; simpl in E.
  { injection E as <- <-. left. split; [exact Hf|]. right. unfold RequireCSRF in Ec.
    by repeat case_step Ec; injection Ec as <- _. }
  right. exists ac, w1. bool_facts. destruct (sessions_only_keys _ _ Hf) as [Hk Hn].
  split_and!; try done; [by destruct (u_Status (ac_User ac))|].
  pose proof (route_acts h (ac_User ac) r (tbl w1) (Hk Hkeys) (Hn Hnames) w1 eq_refl ltac:(reflexivity)) as H.
  by rewrite E in H.
Qed.
End Gate.

(** ** Witness *)

Definition sample_api : Handler :=
  mkApiHandler (mkDeployer true) sample_auth "k-env" None "https://box.example" (fun _ => 0).

(** Bob's browser sends a request to the API. *)
Definition bob_request (meth path body : string) : ApiRequest :=
  mkApiRequest (browser_request meth "https://box.example" "t0") path "" "application/json" (Some body).

Lemma sample_keys : row_keys (tbl session_world).
Proof.
  split; intros k x H; cbn in H;
    repeat (apply lookup_insert_Some in H as [[<- <-]|[_ H]]; [done|]);
    try (apply lookup_singleton_Some in H as [<- <-]; done); by rewrite lookup_empty in H.
Qed.

Definition sample_serve (meth path body : string) : ApiResponse * World :=
  ServeHTTP (U := ascii_tables) (F := amd64_float_to_int) (Y := one_doc_decoder) (A := sample_codec)
    (J := numeral_json) (S := sample_stream) (N := sample_any) (P := sample_reader) (I := unary_ids)
    (C := clear_cipher) sample_api (bob_request meth path body) session_world.

Lemma api_within_authority_witness :
  a_Status (sample_serve "PATCH" "/api/v1/org" "x").1 = 403
  /\ forall actor w1, Authenticate (U := ascii_tables) (J := numeral_json) sample_auth
       (q_Auth (bob_request "PATCH" "/api/v1/org" "x")) session_world = (Ok actor, w1) ->
     t_organization (tbl (sample_serve "PATCH" "/api/v1/org" "x").2) = t_organization (tbl w1).
Proof.
  split; [vm_compute; reflexivity|]. intros actor w1 Ha.
  pose proof (api_within_authority (U := ascii_tables) (F := amd64_float_to_int) (Y := one_doc_decoder)
    (A := sample_codec) (J := numeral_json) (S := sample_stream) (N := sample_any) (P := sample_reader)
    (I := unary_ids) (C := clear_cipher) sample_api (bob_request "PATCH" "/api/v1/org" "x") session_world
    sample_keys ltac:(split; simpl; intros *; by rewrite ?lookup_empty) eq_refl) as H.
  fold (sample_serve "PATCH" "/api/v1/org" "x") in H.
  destruct (sample_serve "PATCH" "/api/v1/org" "x") as [resp w'].
  assert (t_organization (tbl w1) = t_organization (tbl session_world)) as Hw.
  { pose proof (authenticate_frame (U := ascii_tables) (J := numeral_json) sample_auth
      (q_Auth (bob_request "PATCH" "/api/v1/org" "x")) session_world) as Hf.
    rewrite Ha in Hf. unfold on_tables, sessions_only in Hf. simpl in Hf. by rewrite Hf. }
  destruct H as [[Hs _]|(ac & w2 & Ha2 & _ & _ & _ & _ & Hin)].
  - rewrite Hw. simpl. unfold sessions_only in Hs. by rewrite Hs.
  - change (h_Auth sample_api) with sample_auth in Ha2. rewrite Ha in Ha2. injection Ha2 as <- <-. destruct (in_organization _ _ _ _ Hin) as [Had|E]; [|exact E].
    exfalso. revert Had. assert (actor = mkAuthActor bob MethodSession "t0") as -> by (vm_compute in Ha; injection Ha as <- _; reflexivity).
    discriminate.
Defined.
