(* ===== verification/ApiGovernance.v ===== *)
(** * ApiGovernance: what the management API keeps true, and what breaks it

    Three rules the handlers of src/server/internal/api guard by checking before
    they write: the organization keeps an active administrator, every workspace
    keeps an administrator, and there are no workspaces in open mode. They hold
    for ever when requests are served one at a time; a check and its write are not
    one transaction, though, and requests that overlap break each of the three. *)

From stdpp Require Import sorting.
From S2P Require Import Prelude GoNum Policy Manifest Bundle Types Authz Settings Store StoreNames StoreCreds.
From S2P Require Import Service Deploy Tokens Sessions CLIAuth Functions Invoke Maintenance.
From S2P Require Import Api ApiWorkspaces ApiMe ApiFunctions ApiHandler ApiAuthority.

(** ** Leaving a table alone *)

(** Descend through a handler and close its writes by looking at them. *)
Ltac close_statement :=
  intros; unfold insert_within, insert_function, insert_name, insert_workspace, insert_member in *; repeat match goal with H : Ok _ = Ok _ |- _ => injection H as ?; subst
                           | H : rbind _ _ = Ok _ |- _ => apply rbind_ok in H as (? & ? & H) | H : _ = Ok _ |- _ => case_step H end;
  try done; subst; reflexivity.
Ltac frame_step :=
  lazymatch goal with
  | |- preserves _ (write _) => apply preserves_write; [exact _|close_statement]
  | |- preserves _ (statement _) => apply preserves_statement; [exact _|close_statement]
  | |- preserves _ (transaction _) => apply preserves_transaction'; [exact _|]
  | |- preserves _ (bind _ _) => preserve_step
  | |- preserves _ ?m => first [ preserve_step | let h := head_of m in progress unfold h ]
  end.
Ltac frame := repeat frame_step.

(** A part of the tables stays as it is. *)
Definition kept {X} (part : Tables -> X) (t t' : Tables) : Prop := part t' = part t.
#[export] Instance kept_refl {X} (part : Tables -> X) : Reflexive (kept part).
Proof. by intros t. Qed.
#[export] Instance kept_trans {X} (part : Tables -> X) : Transitive (kept part).
Proof. intros t1 t2 t3 H1 H2. unfold kept in *. congruence. Qed.

(** A statement about the tables stays true. *)
Definition remains (Inv : Tables -> Prop) (t t' : Tables) : Prop := Inv t -> Inv t'.
#[export] Instance remains_refl Inv : Reflexive (remains Inv).
Proof. intros t H. exact H. Qed.
#[export] Instance remains_trans Inv : Transitive (remains Inv).
Proof. intros t1 t2 t3 H1 H2 H. apply H2, H1, H. Qed.

Section Frames.
Context {U : UnicodeTables} {F : FloatToInt} {Y : YamlDecoder} {A : ArchiveCodec} {J : JsonText}
  {S : JsonStream} {N : JsonAny} {P : MultipartReader} {I : IdGen} {C : Cipher}.
Context (R : Tables -> Tables -> Prop) `{!Reflexive R, !Transitive R}.

Lemma frame_function_dtos h fns owner : preserves (on_tables R) (functionDTOs h fns owner).
Proof. induction fns as [|f fns IH]; simpl; [frame|]. do 2 (apply preserves_bind; [exact _|frame; done|intros]). frame. Qed.

Lemma frame_with_owners h fns : forall cache, preserves (on_tables R) (dtos_with_owners h cache fns).
Proof.
  induction fns as [|f fns IH]; intros cache; simpl; [frame|].
  do 2 (apply preserves_bind; [exact _|frame|intros]). apply preserves_bind; [exact _|apply IH|intros; frame].
Qed.

Lemma frame_workspace_entries id wss : preserves (on_tables R) (workspace_entries id wss).
Proof.
  induction wss as [|x wss IH]; simpl; [frame|].
  apply preserves_bind; [exact _|frame|intros]. apply preserves_bind; [exact _|apply IH|intros; frame].
Qed.

Lemma frame_grant_devices gs : preserves (on_tables R) (grant_devices gs).
Proof.
  induction gs as [|g gs IH]; simpl; [frame|].
  apply preserves_bind; [exact _|frame|intros]. apply preserves_bind; [exact _|apply IH|intros; frame].
Qed.

Lemma frame_Blob_Put k d : preserves (on_tables R) (Blob_Put k d).
Proof. intros w. unfold Blob_Put, on_tables. by destruct (faults w) as [|[] ?]. Qed.

Lemma frame_invalidate {E} id : preserves (on_tables R) (Runtime_Invalidate (E := E) id).
Proof. intros w. unfold on_tables. simpl. reflexivity. Qed.
Lemma frame_insert_rules rules n : (forall t x, R t (set_login_rules t x)) ->
  preserves (on_tables R) (insert_login_rules rules n).
Proof.
  intros HR. induction rules as [|r rules IH]; simpl; [frame|].
  apply preserves_bind; [exact _|frame|intros id]. cbv zeta. apply preserves_bind; [exact _| |intros].
  - apply preserves_write; [exact _|]. intros t t' H. case_step H. by injection H as <-.
  - apply preserves_bind; [exact _|apply IH|intros; frame].
Qed.
End Frames.

(** All handlers but the named ones. *)
Ltac frames_step :=
  lazymatch goal with
  | |- preserves _ (functionDTOs _ _ _) => apply frame_function_dtos; exact _
  | |- preserves _ (dtos_with_owners _ _ _) => apply frame_with_owners; exact _
  | |- preserves _ (workspace_entries _ _) => apply frame_workspace_entries; exact _
  | |- preserves _ (grant_devices _) => apply frame_grant_devices; exact _
  | |- preserves _ (Blob_Put _ _) => apply frame_Blob_Put; exact _
  | |- preserves _ (Runtime_Invalidate _) => apply frame_invalidate; exact _
  | |- preserves _ (insert_login_rules _ _) => apply frame_insert_rules; [exact _|exact _|done]
  | _ => frame_step
  end.
Ltac frames := repeat frames_step.

(** ** The organization keeps an active administrator *)

Definition has_admin (t : Tables) : Prop :=
  keyed u_ID (t_users t) /\ exists k u, t_users t !! k = Some u /\ is_active_admin u = true.

Section Invariants.
Context {U : UnicodeTables} {F : FloatToInt} {Y : YamlDecoder} {A : ArchiveCodec} {J : JsonText}
  {S : JsonStream} {N : JsonAny} {P : MultipartReader} {I : IdGen} {C : Cipher}.

(** What depends on a part that stays remains. *)
Lemma kept_remains {X E B} (part : Tables -> X) (Inv : Tables -> Prop) (m : M E B) :
  (forall t t', part t' = part t -> Inv t -> Inv t') ->
  preserves (on_tables (kept part)) m -> preserves (on_tables (remains Inv)) m.
Proof. intros Hi Hm w Hw. by apply (Hi (tbl w) _ (Hm w)). Qed.

Lemma at_bind {E B D} R `{!Reflexive R, !Transitive R} (m : M E B) (k : B -> M E D) w :
  on_tables R w (m w).2 -> (forall b w1, m w = (Ok b, w1) -> on_tables R w1 (k b w1).2) ->
  on_tables R w (bind m k w).2.
Proof.
  unfold on_tables, bind. destruct (m w) as [[b|e] w1]; simpl; [|done].
  intros H1 H2. etrans; [exact H1|by apply H2].
Qed.

Lemma at_or_err {E E' B} R (f : E -> E') (m : M E B) w :
  on_tables R w (m w).2 -> on_tables R w (or_err f m w).2.
Proof. unfold or_err. by destruct (m w). Qed.

(** A read leaves the tables, whatever is made of it. *)
Lemma at_read {E B D} R `{!Reflexive R, !Transitive R} (m : M E B) (k : B -> M E D) w :
  preserves (on_tables eq) m ->
  (forall b w1, m w = (Ok b, w1) -> tbl w1 = tbl w -> on_tables R w1 (k b w1).2) ->
  on_tables R w (bind m k w).2.
Proof.
  intros Hm Hk. apply at_bind; [exact _..| |].
  - unfold on_tables. by rewrite (Hm w).
  - intros b w1 H. apply Hk; [done|]. specialize (Hm w). by rewrite H in Hm.
Qed.

Lemma users_only_admin t t' : t_users t' = t_users t -> has_admin t -> has_admin t'.
Proof. unfold has_admin. by intros ->. Qed.

Ltac users_kept := apply kept_remains with t_users; [apply users_only_admin|frames].

Definition restamped (u old : User) (n : Time) : User :=
  mkUser (u_ID u) (u_Provider u) (u_ProviderSubject u) (u_Email u) (u_Name u) (u_Role u) (u_Status u)
    (u_Language u) (u_CreatedAt old) n.

Lemma Users_Update_run u w r w' : Users_Update u w = (r, w') ->
  (tbl w' = tbl w /\ is_ok r = false)
  \/ exists old n, t_users (tbl w) !! u_ID u = Some old /\ r = Ok tt
       /\ tbl w' = set_users (tbl w) (<[u_ID u := restamped u old n]> (t_users (tbl w))).
Proof.
  unfold Users_Update, bind, stored_now, get. intros H. destruct r as [[]|e].
  - right. apply write_ok in H. case_step H. case_step H. injection H as H. eauto.
  - left. apply write_err in H as [H _]. done.
Qed.

(** A rewritten row does not take the last administrator away if it is one
    itself, or was none, or another one is left. *)
Lemma update_keeps_admin u w :
  (forall old, t_users (tbl w) !! u_ID u = Some old -> is_active_admin old = true ->
     is_active_admin u = true
     \/ exists k v, t_users (tbl w) !! k = Some v /\ is_active_admin v = true /\ k <> u_ID u) ->
  on_tables (remains has_admin) w (Users_Update u w).2.
Proof.
  intros Hu [Hk (k & v & Hv & Ha)]. destruct (Users_Update u w) as [r w'] eqn:E. simpl.
  apply Users_Update_run in E as [[-> _]|(old & n & Ho & _ & ->)]; [by split; eauto|].
  split; [by apply keyed_insert|]. simpl.
  destruct (decide (k = u_ID u)) as [->|Hne].
  - rewrite Ho in Hv. injection Hv as ->. destruct (Hu v Ho Ha) as [Hd|(k & x & Hx & Hxa & Hne)].
    + exists (u_ID u), (restamped u v n). by rewrite lookup_insert_eq.
    + exists k, x. by rewrite lookup_insert_ne.
  - exists k, v. by rewrite lookup_insert_ne.
Qed.

Lemma patch_check_read act id role status w x w' : patch_check act id role status w = (Ok x, w') ->
  is_admin act /\ t_users (tbl w) !! id = Some x.1
  /\ (exists r s, x.2 = with_role_status x.1 r s
       /\ (demoting x.1 r s = true -> exists k v, t_users (tbl w) !! k = Some v
            /\ u_ID v <> u_ID x.1 /\ is_active_admin v = true)).
Proof.
  unfold patch_check. intros H. apply bind_ok in H as (? & w1 & H1 & H). apply admin_required in H1 as [Ha H1].
  apply bind_ok in H as (target & w2 & H2 & H). apply or_err_ok, read_row in H2 as [H2 H2'].
  apply bind_ok in H as (r & w3 & H3 & H). apply bind_ok in H as (s & w4 & H4 & H).
  assert (forall A' (p : string -> option A') (c : A') q e v v', preserves (on_tables eq) (chosen p c q e) ->
    chosen p c q e v = v' -> tbl v'.2 = tbl v) as Hc by (intros * Hp <-; symmetry; apply Hp).
  apply Hc in H3, H4; try (unfold chosen; descend). simpl in *.
  apply bind_ok in H as (? & w5 & H5 & H). injection H as <- _. simpl. rewrite H1 in H2.
  split_and!; [done|done|]. exists r, s. split; [done|]. intros Hd. rewrite Hd in H5.
  apply bind_ok in H5 as (n & w6 & H6 & H5). apply or_err_ok, bind_ok in H6 as (us & w7 & H7 & H6).
  apply query_ok in H7 as [[= <-] _]. injection H6 as <- _. case_step H5. bool_facts.
  match goal with H : Z.of_nat (length ?l) <> 0 |- _ => destruct l as [|v l'] eqn:El; [done|] end.
  assert (v ∈ v :: l') as Hin by by left.
  rewrite <- El, list_elem_of_In, filter_In, <- list_elem_of_In in Hin. destruct Hin as [Hin Hv].
  unfold order_by in Hin. rewrite merge_sort_Permutation in Hin. apply elem_of_rows in Hin as [_ [k Hk]].
  bool_facts. exists k, v. split_and!; congruence.
Qed.

(** A change that is not a demotion leaves an active administrator one. *)
Lemma not_demoting u r s : is_active_admin u = true -> demoting u r s = false ->
  is_active_admin (with_role_status u r s) = true.
Proof.
  unfold is_active_admin, demoting. simpl.
  destruct (u_Role u), (u_Status u), r, s; vm_compute; congruence.
Qed.

Lemma patch_keeps_admin act id role status : preserves (on_tables (remains has_admin)) (PatchUser act id role status).
Proof.
  intros w. unfold PatchUser. apply at_read; [exact _..|unfold patch_check, chosen; frames; done|].
  intros [old new] w1 H Ht.
  apply patch_check_read in H as (_ & Hold & r & s & Hnew & Hdem). simpl in *. subst new.
  unfold patch_apply. apply at_bind; [exact _..| |].
  - apply at_or_err. intros Hi. apply update_keeps_admin; [|exact Hi]. rewrite Ht. simpl. intros x Hx Ha.
    destruct Hi as [Hk _]. rewrite Ht in Hk. pose proof (Hk _ _ Hold) as Hid. rewrite Hid in Hx, Hdem.
    simplify_eq.
    destruct (demoting old r s) eqn:Hd; [right|left; by apply not_demoting].
    destruct (Hdem eq_refl) as (k & v & Hv & Hne & Hva). exists k, v. split_and!; [done..|].
    intros ->. by rewrite (Hk _ _ Hv) in Hne.
  - intros b w2 _. revert w2. by users_kept.
Qed.

Lemma language_keeps_admin a u l w : (has_admin (tbl w) -> t_users (tbl w) !! u_ID u = Some u) ->
  on_tables (remains has_admin) w (store_language a u l w).2.
Proof.
  intros Hu. destruct l as [l|]; [|by reflexivity]. apply at_bind; [exact _..| |].
  - apply at_or_err. intros Hi. apply update_keeps_admin; [|exact Hi].
    intros old Ho Ha. left. simpl in Ho. rewrite (Hu Hi) in Ho. by injection Ho as <-.
  - intros _ w1 _. revert w1. by users_kept.
Qed.

Lemma me_keeps_admin a r : preserves (on_tables (remains has_admin)) (handleMePatch a r).
Proof.
  intros w. apply at_read; [exact _..|unfold me_patch_check; frames; done|].
  intros [[u l] requested] w1 H Ht. unfold me_patch_check in H.
  apply bind_ok in H as (u' & w2 & Hu & H). apply or_err_ok, read_row in Hu as [Hu Ht2].
  apply bind_ok in H as (body & w3 & _ & H). apply bind_ok in H as (l' & w4 & _ & H).
  apply bind_ok in H as (? & w5 & _ & H). injection H as -> <- <- _.
  unfold me_patch_apply. apply at_bind; [exact _..| |].
  - apply language_keeps_admin. rewrite Ht. intros [Hk _]. by rewrite (Hk _ _ Hu).
  - intros b w6 _. revert w6. by users_kept.
Qed.

Lemma route_keeps_admin h act r : preserves (on_tables (remains has_admin)) (route h act r).
Proof.
  assert (forall m : M Error ApiResponse, preserves (on_tables (kept t_users)) m ->
            preserves (on_tables (remains has_admin)) m) as Hkept.
  { intros m. apply kept_remains, users_only_admin. }
  unfold route. destruct (splitPath _) as [|s rest]; [apply Hkept; frames|].
  repeat case_goal; try (apply Hkept; frames; fail).
  - unfold routeOrg. destruct rest as [|s1 [|s2 [|]]]; repeat case_goal; try (apply Hkept; frames; fail).
    unfold handleOrgUserPatch. apply preserves_bind; [exact _|by users_kept|intros _].
    apply preserves_bind; [exact _|by users_kept|intros body].
    apply preserves_bind; [exact _|apply patch_keeps_admin|intros x; by users_kept].
  - unfold routeMe. destruct rest as [|s1 [|s2 [|]]]; repeat case_goal; try (apply Hkept; frames; fail).
    apply me_keeps_admin.
Qed.

(** ** Every workspace keeps an administrator *)

Definition has_ws_admin (t : Tables) (id : string) : Prop :=
  exists uid m, t_members t !! (id, uid) = Some m /\ wm_Role m = RoleAdmin.
Definition ws_admins (t : Tables) : Prop :=
  keyed member_key (t_members t) /\ forall id, is_Some (t_workspaces t !! id) -> has_ws_admin t id.
Definition ws_part (t : Tables) := (t_workspaces t, t_members t).

Lemma ws_part_only t t' : ws_part t' = ws_part t -> ws_admins t -> ws_admins t'.
Proof. unfold ws_part, ws_admins, has_ws_admin. intros [= -> ->]. done. Qed.

Ltac ws_kept := apply kept_remains with ws_part; [apply ws_part_only|frames].

(** A write of the members that leaves another administrator, or a member that is
    none, keeps the rule. *)
Lemma members_write_keeps f w :
  (forall t, f (tbl w) = Ok t -> ws_admins (tbl w) -> ws_admins t) ->
  on_tables (remains ws_admins) w (write f w).2.
Proof.
  intros Hf. unfold on_tables, remains. destruct (write f w) as [[[]|e] w'] eqn:E; simpl.
  - apply write_ok in E. by apply Hf.
  - by apply write_err in E as [-> _].
Qed.

Lemma replaced_member_keeps t wsID uid o :
  (forall m, o = Some m -> member_key m = (wsID, uid)) ->
  (forall m, t_members t !! (wsID, uid) = Some m -> wm_Role m = RoleAdmin ->
     (exists m', o = Some m' /\ wm_Role m' = RoleAdmin)
     \/ exists u m', u <> uid /\ t_members t !! (wsID, u) = Some m' /\ wm_Role m' = RoleAdmin) ->
  ws_admins t -> ws_admins (set_members t (partial_alter (fun _ => o) (wsID, uid) (t_members t))).
Proof.
  intros Ho Hm [Hk Ha]. split; simpl.
  - intros k x. destruct (decide (k = (wsID, uid))) as [->|Hne].
    + rewrite lookup_partial_alter_eq. apply Ho.
    + rewrite lookup_partial_alter_ne by done. apply Hk.
  - intros id Hid. unfold has_ws_admin. simpl. destruct (Ha id Hid) as (u & m & Hu & Hr).
    destruct (decide ((id, u) = (wsID, uid))) as [[= -> ->]|Hne].
    + destruct (Hm m Hu Hr) as [(m' & -> & Hr')|(u' & m' & Hne & Hu' & Hr')].
      * exists uid, m'. by rewrite lookup_partial_alter_eq.
      * exists u', m'. rewrite lookup_partial_alter_ne by congruence. done.
    + exists u, m. by rewrite lookup_partial_alter_ne.
Qed.

Lemma other_admin t wsID uid :
  countOtherWSAdmins (order_by wm_CreatedAt (rows (fun m => wm_WorkspaceID m == wsID) (t_members t))) uid <> 0 ->
  keyed member_key (t_members t) ->
  exists u m, u <> uid /\ t_members t !! (wsID, u) = Some m /\ wm_Role m = RoleAdmin.
Proof.
  unfold countOtherWSAdmins. intros H Hk.
  match type of H with Z.of_nat (length ?l) <> 0 => destruct l as [|v l'] eqn:El; [done|] end.
  assert (v ∈ v :: l') as Hin by by left.
  rewrite <- El, list_elem_of_In, filter_In, <- list_elem_of_In in Hin. destruct Hin as [Hin Hv].
  unfold order_by in Hin. rewrite merge_sort_Permutation in Hin. apply elem_of_rows in Hin as [Hw [k Hm]].
  bool_facts. pose proof (Hk _ _ Hm) as <-. unfold member_key in Hm. exists (wm_UserID v), v.
  split_and!; [congruence| |done]. by rewrite Hw in Hm.
Qed.

Lemma members_listed id w ms w' : Workspaces_ListMembers id w = (Ok ms, w') ->
  ms = order_by wm_CreatedAt (rows (fun m => wm_WorkspaceID m == id) (t_members (tbl w))) /\ tbl w' = tbl w.
Proof. intros H. by apply query_ok in H as [[= <-] ?]. Qed.

Lemma member_listed t id m : m ∈ order_by wm_CreatedAt (rows (fun m => wm_WorkspaceID m == id) (t_members t)) <->
  wm_WorkspaceID m = id /\ exists k, t_members t !! k = Some m.
Proof. unfold order_by. by rewrite merge_sort_Permutation, elem_of_rows, String.eqb_eq. Qed.

(** The members a check saw. *)
Lemma managed_tables act id w x w' : managed_workspace act id w = (Ok x, w') -> tbl w' = tbl w.
Proof. intros H. by apply managed_read in H as [_ ?]. Qed.

Lemma remove_check_read act id uid w x w' : remove_member_check act id uid w = (Ok x, w') ->
  ws_admins (tbl w) -> forall m, t_members (tbl w) !! (w_ID x, uid) = Some m -> wm_Role m = RoleAdmin ->
  exists u m', u <> uid /\ t_members (tbl w) !! (w_ID x, u) = Some m' /\ wm_Role m' = RoleAdmin.
Proof.
  unfold remove_member_check. intros H [Hk _] m Hm Hr.
  apply bind_ok in H as (y & w1 & Hy & H). apply managed_tables in Hy.
  apply bind_ok in H as (ms & w2 & Hl & H). apply or_err_ok, members_listed in Hl as [-> Ht2]. rewrite Hy in H.
  case_step H. injection H as <- _. apply (other_admin (tbl w) (w_ID y.1) uid); [|done].
  intros Hz. apply not_true_iff_false in E. apply E, existsb_exists. exists m.
  rewrite <- list_elem_of_In, member_listed. pose proof (Hk _ _ Hm) as Hkey. unfold member_key in Hkey.
  injection Hkey as Hw Hu. rewrite Hw, Hu. split; [split; [done|eauto]|].
  rewrite Hz, Hr. by rewrite String.eqb_refl.
Qed.

Lemma remove_keeps act id uid : preserves (on_tables (remains ws_admins)) (RemoveWorkspaceMember act id uid).
Proof.
  intros w. unfold RemoveWorkspaceMember. apply at_read; [exact _..|unfold remove_member_check; frames; done|].
  intros x w1 H Ht. unfold remove_member_apply. apply at_bind; [exact _..| |].
  - apply at_or_err, members_write_keeps. rewrite Ht. intros t Hf Hi. case_step Hf. injection Hf as <-.
    apply replaced_member_keeps; [done| |done]. intros m Hm Hr. right. by eapply remove_check_read.
  - intros b w2 _. revert w2. by ws_kept.
Qed.

Lemma set_check_read act id uid text w x role : forall w', set_member_check act id uid text w = (Ok (x, role, true), w') ->
  ws_admins (tbl w) -> forall m, t_members (tbl w) !! (w_ID x, uid) = Some m -> wm_Role m = RoleAdmin ->
  role <> RoleAdmin ->
  exists u m', u <> uid /\ t_members (tbl w) !! (w_ID x, u) = Some m' /\ wm_Role m' = RoleAdmin.
Proof.
  unfold set_member_check. intros w' H [Hk _] m Hm Hr Hne.
  apply bind_ok in H as (y & w1 & Hy & H). apply managed_tables in Hy.
  destruct (member_role text) as [r|]; [|done].
  apply bind_ok in H as (u & w2 & Hu & H). apply or_err_ok, read_row in Hu as [_ Hu].
  apply bind_ok in H as (ms & w3 & Hl & H). apply or_err_ok, members_listed in Hl as [-> Ht3].
  rewrite Hu, Hy in H. destruct (List.find _ _) as [m'|] eqn:Ef; [|done]. case_step H. injection H as <- -> _.
  apply (other_admin (tbl w) (w_ID y.1) uid); [|done]. intros Hz.
  apply find_some in Ef as [Hin Huid]. apply list_elem_of_In, member_listed in Hin as [Hw [k Hm']].
  apply String.eqb_eq in Huid. pose proof (Hk _ _ Hm') as <-. unfold member_key in Hm'. rewrite Hw, Huid, Hm in Hm'.
  injection Hm' as <-. rewrite Hz, Hr in E. by destruct role.
Qed.

Lemma set_keeps act id uid text : preserves (on_tables (remains ws_admins)) (SetWorkspaceMember act id uid text).
Proof.
  intros w. unfold SetWorkspaceMember. apply at_read; [exact _..|unfold set_member_check; frames; done|].
  intros [[x role] existing] w1 H Ht. unfold set_member_apply. apply at_bind; [exact _..| |].
  - destruct existing; apply at_or_err; unfold Workspaces_UpdateMemberRole, Workspaces_AddMember, stored_now, get, bind at 1;
      apply members_write_keeps; rewrite Ht; intros t Hf Hi.
    + case_step Hf. injection Hf as <-. apply (replaced_member_keeps _ (w_ID x) uid (Some _)); [by intros ? [= <-]| |done].
      intros m Hm Hr. destruct (decide (role = RoleAdmin)) as [->|Hne]; [left; eauto|right].
      by eapply set_check_read.
    + unfold insert_member in Hf. case_step Hf. case_step Hf. injection Hf as <-.
      apply (replaced_member_keeps _ (w_ID x) uid (Some _)); [by intros ? [= <-]| |done].
      intros m Hm. apply bool_decide_eq_false in E. destruct E. by exists m.
  - intros b w2 _. revert w2. by ws_kept.
Qed.

Lemma create_keeps act name : preserves (on_tables (remains ws_admins)) (CreateWorkspace act name).
Proof.
  unfold CreateWorkspace. apply preserves_bind; [exact _|by ws_kept|intros _].
  unfold create_apply. apply preserves_bind; [exact _| |intros x; by ws_kept].
  apply preserves_or_err. unfold Store_CreateWorkspace.
  apply preserves_bind; [exact _|frames|intros id]. apply preserves_bind; [exact _|frames|intros n].
  apply preserves_bind; [exact _| |intros ?; by ws_kept]. apply preserves_transaction; [exact _|].
  intros w [] w' H [Hk Ha]. apply bind_ok in H as ([] & w1 & H1 & H2). apply write_ok in H1, H2.
  unfold insert_workspace, insert_member in *. case_step H1. injection H1 as H1.
  repeat case_step H2. injection H2 as <-. rewrite <- H1 in *. simpl in *. split; simpl.
  - by apply keyed_insert.
  - intros i Hi. unfold has_ws_admin. simpl. destruct (decide (i = id)) as [->|Hne].
    + exists act.(u_ID), (mkWorkspaceMember id (u_ID act) RoleAdmin n n). by rewrite lookup_insert_eq.
    + rewrite lookup_insert_ne in Hi by done. destruct (Ha i Hi) as (u & m & Hm & Hr). exists u, m.
      rewrite lookup_insert_ne by congruence. done.
Qed.

Lemma patch_keeps_ws act r id : preserves (on_tables (remains ws_admins)) (handleWorkspacePatch act r id).
Proof.
  unfold handleWorkspacePatch. apply preserves_bind; [exact _|by ws_kept|intros x].
  apply preserves_bind; [exact _|by ws_kept|intros s].
  apply preserves_bind; [exact _| |intros ?; by ws_kept]. apply preserves_or_err.
  unfold Workspaces_Update. apply preserves_bind; [exact _|frames|intros n].
  apply preserves_write; [exact _|]. intros t t' H. case_step H. injection H as <-. intros [Hk Ha].
  split; [done|]. simpl. intros i Hi. apply Ha. destruct (decide (i = w_ID x.1)) as [->|]; [by eexists|].
  by rewrite lookup_insert_ne in Hi.
Qed.

(** Reads of a backend that does not fail leave the world as it is. *)
Definition idle (w w' : World) : Prop := faults w = [] -> w' = w.
#[local] Instance idle_refl : Reflexive idle.
Proof. by intros w. Qed.
#[local] Instance idle_trans : Transitive idle.
Proof. intros w1 w2 w3 H1 H2 Hf. rewrite (H1 Hf) in H2. auto. Qed.
Lemma idle_query {B} (f : Tables -> result StoreErr B) : preserves idle (query f).
Proof. intros w Hf. by rewrite query_plain. Qed.
Ltac idles := repeat lazymatch goal with
  | |- preserves _ (query _) => apply idle_query
  | |- preserves _ (bind _ _) => preserve_step
  | |- preserves _ ?m => first [ preserve_step | let h := head_of m in progress unfold h ]
  end.

Lemma write_plain (f : Tables -> Tables) w : faults w = [] ->
  write (fun t => Ok (f t)) w = (Ok tt, with_tbl w (f (tbl w))).
Proof. intros Hf. unfold write, statement. rewrite Hf. by destruct w; simpl in *; subst. Qed.

(** The two statements of a deletion, when neither fails. *)
Lemma delete_keeps act id w : faults w = [] ->
  on_tables (remains ws_admins) w (handleWorkspaceDelete act id w).2.
Proof.
  intros Hf. unfold handleWorkspaceDelete, bind at 1.
  assert (preserves idle (delete_check act id)) as Hs by (unfold delete_check; idles).
  specialize (Hs w Hf). destruct (delete_check act id w) as [[x|e] w1]; simpl in *; subst; [|by intros ?].
  unfold delete_apply. apply at_bind; [exact _..| |intros ? w2 _; revert w2; by ws_kept].
  apply at_or_err. unfold Workspaces_Delete, bind. rewrite write_plain by done. rewrite write_plain by done.
  intros [Hk Ha]. split; simpl; [by apply keyed_delete_rows|].
  intros i [y Hi]. apply lookup_delete_Some in Hi as [Hne Hi].
  destruct (Ha i) as (u & m & Hm & Hr); [by eexists|]. exists u, m. split; [|done].
  simpl. apply lookup_delete_rows. split; [done|]. pose proof (Hk _ _ Hm) as [= -> _].
  by apply String.eqb_neq.
Qed.

Lemma route_keeps_ws h act r w : faults w = [] ->
  on_tables (remains ws_admins) w (route h act r w).2.
Proof.
  intros Hf. unfold route. destruct (splitPath _) as [|s rest]; [revert w Hf; intros w _; revert w; ws_kept; done|].
  repeat case_goal; try (clear Hf; revert w; ws_kept; done).
  unfold routeWorkspaces. unfold bind at 1.
  assert (preserves idle openModeEnabled) as Hs by idles. specialize (Hs w Hf).
  destruct (openModeEnabled w) as [[b|e] w1]; simpl in *; subst; [|by intros ?].
  destruct rest as [|id [|s1 [|uid [|]]]]; repeat case_goal; try (clear Hf; revert w; ws_kept; done).
  - clear Hf. revert w. unfold handleWorkspaceCreate. apply preserves_bind; [exact _|by ws_kept|intros name].
    apply preserves_bind; [exact _|apply create_keeps|intros x; by ws_kept].
  - clear Hf. revert w. apply patch_keeps_ws.
  - by apply delete_keeps.
  - clear Hf. revert w. unfold handleWorkspaceMemberPut. apply preserves_bind; [exact _|by ws_kept|intros role].
    apply preserves_bind; [exact _|apply set_keeps|intros x; by ws_kept].
  - clear Hf. revert w. unfold handleWorkspaceMemberDelete.
    apply preserves_bind; [exact _|apply remove_keeps|intros x; by ws_kept].
Qed.

(** ** One request at a time *)

Definition calm (w w' : World) : Prop := faults w = [] -> faults w' = [].
#[local] Instance calm_refl : Reflexive calm.
Proof. intros w Hf. exact Hf. Qed.
#[local] Instance calm_trans : Transitive calm.
Proof. intros w1 w2 w3 H1 H2 Hf. auto. Qed.
Lemma calm_statement {B} (f : Tables -> result StoreErr (B * Tables)) : preserves calm (statement f).
Proof. intros w Hf. unfold statement. rewrite Hf. simpl. by destruct (f (tbl w)) as [[]|]. Qed.
Lemma calm_new_id {E} id : preserves calm (new_id (E := E) id).
Proof. intros w Hf. unfold new_id. by destruct (id == ""). Qed.
Ltac calms := repeat lazymatch goal with
  | |- preserves _ (statement _) => apply calm_statement
  | |- preserves _ (new_id _) => apply calm_new_id
  | |- preserves _ (query _) => unfold query
  | |- preserves _ (write _) => unfold write
  | |- preserves _ (bind _ _) => preserve_step
  | |- preserves _ ?m => first [ preserve_step | let h := head_of m in progress unfold h ]
  end.

Lemma calm_authenticate a r : preserves calm (Authenticate a r).
Proof. calms. Qed.

Lemma answer_tables m w R : on_tables R w (m w).2 -> on_tables R w (answer m w).2.
Proof. unfold answer. by destruct (m w) as [[]]. Qed.

Lemma sessions_only_parts t t' : sessions_only t t' -> t_users t' = t_users t /\ ws_part t' = ws_part t.
Proof. by intros ->. Qed.

(** What precedes the routes leaves the worlds the routes are proved for. *)
Lemma serve_tables (h : Handler) (r : ApiRequest) R `{!Reflexive R, !Transitive R} w :
  (forall t t', sessions_only t t' -> R t t') ->
  preserves (on_tables R) (routeUnauthenticatedCLI h r) ->
  (forall act w1, (faults w = [] -> faults w1 = []) -> on_tables R w1 (route h act r w1).2) ->
  on_tables R w (ServeHTTP h r w).2.
Proof.
  intros Hs Hc Hr. apply answer_tables. unfold serve. case_goal; [apply Hc|].
  unfold authenticated, middleware. apply at_bind; [exact _..|apply at_or_err, Hs, authenticate_frame|].
  intros ac w1 H1. apply or_err_ok in H1. pose proof (calm_authenticate (h_Auth h) (q_Auth r) w) as Hf.
  rewrite H1 in Hf. unfold requirePendingApproved. case_goal; [reflexivity|].
  unfold require_csrf. destruct (RequireCSRF _ _ _) as [[]|]; [reflexivity|]. by apply Hr.
Qed.

(** C23. Whatever request the management API serves, from whom and with whatever
    outcome, an organization with an active administrator still has one
    afterwards; and, as long as the database answers, every workspace that had an
    administrator among its members does, and so does a new one. *)
Theorem api_keeps_administrators h r w :
  let '(_, w') := ServeHTTP h r w in
  (has_admin (tbl w) -> has_admin (tbl w')) /\ (faults w = [] -> ws_admins (tbl w) -> ws_admins (tbl w')).
Proof.
  destruct (ServeHTTP h r w) as [resp w'] eqn:E. split.
  - change (on_tables (remains has_admin) w w'). change w' with (resp, w').2. rewrite <- E.
    apply serve_tables; [exact _..| | |].
    + intros t t' [Hu _]%sessions_only_parts. exact (users_only_admin t t' Hu).
    + by users_kept.
    + intros act w1 _. apply route_keeps_admin.
  - intros Hf. change (on_tables (remains ws_admins) w w'). change w' with (resp, w').2. rewrite <- E.
    apply serve_tables; [exact _..| | |].
    + intros t t' [_ Hu]%sessions_only_parts. exact (ws_part_only t t' Hu).
    + by ws_kept.
    + intros act w1 Hw. by apply route_keeps_ws, Hw.
Qed.

(** ** Overlapping requests *)

Definition none_left (t : Tables) : Prop := forall k u, t_users t !! k = Some u -> is_active_admin u = false.

Lemma Users_Update_plain u old w : faults w = [] -> t_users (tbl w) !! u_ID u = Some old ->
  user_unique u (tbl w) = true ->
  exists n, Users_Update u w
    = (Ok tt, with_tbl w (set_users (tbl w) (<[u_ID u := restamped u old n]> (t_users (tbl w))))).
Proof.
  intros Hf Hu Hq. exists (stored (now w)). unfold Users_Update, bind, stored_now, get, write, statement.
  rewrite Hf. simpl. rewrite Hu. destruct w; simpl in *; subst. by rewrite Hq.
Qed.

Definition demoted (u : User) : User := with_role_status u RoleMember (u_Status u).

(** With two active administrators, each may demote the other. *)
Lemma demotion_checked act u w : faults w = [] -> keyed u_ID (t_users (tbl w)) ->
  is_active_admin act = true -> t_users (tbl w) !! u_ID act = Some act ->
  t_users (tbl w) !! u_ID u = Some u -> u_ID act <> u_ID u ->
  patch_check act (u_ID u) (Some "member") None w = (Ok (u, demoted u), w).
Proof.
  intros Hf Hk Ha Hact Hu Hne. unfold patch_check.
  assert (requireOrgAdminActor act w = (Ok tt, w)) as Hreq.
  { unfold requireOrgAdminActor, CanUpdateOrgSettings, IsOrgAdmin. simpl.
    apply andb_true_iff in Ha as [Ha _]. by rewrite Ha. }
  unfold bind at 1. rewrite Hreq. unfold bind at 1, or_err at 1, Users_ByID. rewrite query_plain, Hu by done.
  cbn [row map_err]. change (chosen parse_role (u_Role u) (Some "member") invalid_role) with (@ret Error _ RoleMember).
  cbn [chosen]. unfold bind, ret. destruct (demoting u RoleMember (u_Status u)); [|done].
  unfold or_err, countOtherActiveAdmins, Users_List, bind, ret. rewrite query_plain by done. cbn [map_err].
  case_goal; [|done]. exfalso. bool_facts.
  match goal with H : Z.of_nat (length ?l) = 0 |- _ => assert (act ∈ l) as Hin; [|by destruct l; [apply elem_of_nil in Hin|]] end.
  rewrite list_elem_of_In, filter_In, <- list_elem_of_In. split.
  - unfold order_by. rewrite merge_sort_Permutation, elem_of_rows. eauto.
  - apply andb_true_iff. split; [|done]. by apply negb_true_iff, String.eqb_neq.
Qed.

(** Nothing else has to be unique than what a demotion leaves. *)
Lemma unique_after a b n t : t_users t !! u_ID b = Some b -> user_unique a t = true ->
  user_unique a (set_users t (<[u_ID b := restamped (demoted b) b n]> (t_users t))) = true.
Proof.
  unfold user_unique. rewrite !negb_true_iff, <- !not_true_iff_false, !existsb_exists.
  intros Hb Hn (v & Hv & Hc). apply Hn. simpl in Hv. apply list_elem_of_In, list_elem_of_fmap in Hv as ([k v'] & -> & Hv).
  apply elem_of_map_to_list, lookup_insert_Some in Hv as [[<- <-]|[Hne Hv]].
  - exists b. split; [|exact Hc]. apply list_elem_of_In, list_elem_of_fmap. exists (u_ID b, b). split; [done|].
    by apply elem_of_map_to_list.
  - exists v'. split; [|exact Hc]. apply list_elem_of_In, list_elem_of_fmap. exists (k, v'). split; [done|].
    by apply elem_of_map_to_list.
Qed.

Lemma demotion_applied act u w : faults w = [] -> t_users (tbl w) !! u_ID u = Some u ->
  user_unique u (tbl w) = true ->
  exists x n w', patch_apply act (u, demoted u) w = (Ok x, w') /\ faults w' = []
    /\ t_users (tbl w') = <[u_ID u := restamped (demoted u) u n]> (t_users (tbl w)).
Proof.
  intros Hf Hu Hq. unfold patch_apply. unfold bind at 1, or_err.
  destruct (Users_Update_plain (demoted u) u w Hf Hu Hq) as [n E]. rewrite E. simpl. unfold bind at 1.
  match goal with |- context [attempt ?m ?w1] => 
    assert (preserves (on_tables (kept t_users)) m) as Hk by frames; assert (preserves calm m) as Hc by calms;
    specialize (Hk w1); specialize (Hc w1 Hf); unfold attempt; destruct (m w1) as [res w2] end.
  eexists _, n, w2. split_and!; [reflexivity|exact Hc|exact Hk].
Qed.

(** The check and the write of [PatchUser] are not one transaction: when the two
    active administrators of an organization demote each other and both requests
    have checked before either writes, both are answered with success and no
    active administrator is left. *)
Theorem overlapping_demotions a b w (Hf : faults w = []) (Hk : keyed u_ID (t_users (tbl w)))
    (Ha : t_users (tbl w) !! u_ID a = Some a) (Hb : t_users (tbl w) !! u_ID b = Some b)
    (Hqa : user_unique a (tbl w) = true) (Hqb : user_unique b (tbl w) = true)
    (Haa : is_active_admin a = true) (Hba : is_active_admin b = true) (Hne : u_ID a <> u_ID b)
    (Honly : forall k u, t_users (tbl w) !! k = Some u -> is_active_admin u = true -> u = a \/ u = b) :
  exists x y w1 w2 rx ry w3 w4,
    patch_check a (u_ID b) (Some "member") None w = (Ok x, w1)
    /\ patch_check b (u_ID a) (Some "member") None w1 = (Ok y, w2)
    /\ patch_apply a x w2 = (Ok rx, w3) /\ patch_apply b y w3 = (Ok ry, w4)
    /\ none_left (tbl w4).
Proof.
  destruct (demotion_applied a b w Hf Hb Hqb) as (rx & n & w3 & E3 & Hf3 & Hu3).
  destruct (demotion_applied b a w3 Hf3) as (ry & m & w4 & E4 & _ & Hu4).
  { rewrite Hu3, lookup_insert_ne by done. exact Ha. }
  { unfold user_unique. rewrite Hu3. by apply (unique_after a b n (tbl w)). }
  exists (b, demoted b), (a, demoted a), w, w, rx, ry, w3, w4. split_and!; [..|exact E3|exact E4|].
  - by apply demotion_checked.
  - by apply demotion_checked.
  - intros k u. rewrite Hu4, Hu3. intros [[<- <-]|[Hn1 H]]%lookup_insert_Some; [done|].
    apply lookup_insert_Some in H as [[<- <-]|[Hn2 H]]; [done|].
    apply not_true_iff_false. intros Hact. pose proof (Hk _ _ H) as <-. by destruct (Honly _ _ H Hact) as [->| ->].
Qed.

(** ** Login rules do not lock out who sets them *)

Definition rule_text (x : LoginRule) := (lr_Ord x, lr_RuleType x, lr_Value x, lr_Action x).

Lemma same_rules l l' e : map rule_text l = map rule_text l' -> EvaluateLoginRules l e = EvaluateLoginRules l' e.
Proof.
  unfold EvaluateLoginRules. revert l'. induction l as [|x l IH]; intros [|y l'] [=]; [done|].
  simpl. unfold ruleMatches. rewrite (IH l') by done. by repeat match goal with H : _ x = _ y |- _ => rewrite H; clear H end.
Qed.

Lemma sorted_rules l : StronglySorted Z.lt (map lr_Ord l) -> merge_sort ord_le l = l.
Proof.
  intros Hs. apply (StronglySorted_unique_strong ord_le); [| |clear -Hs|apply merge_sort_Permutation].
  - intros x y Hx Hy H1 H2. rewrite merge_sort_Permutation in Hx. assert (lr_Ord x = lr_Ord y) as E by (unfold ord_le in *; lia).
    clear H1 H2. induction l as [|z l IH]; [by apply elem_of_nil in Hx|].
    simpl in Hs. inversion Hs as [|? ? Hs' Hz]; subst. rewrite Forall_map, Forall_forall in Hz.
    apply elem_of_cons in Hx as [->|Hx], Hy as [->|Hy]; [done| | |by apply IH];
      [specialize (Hz _ Hy)|specialize (Hz _ Hx)]; simpl in Hz; lia.
  - apply StronglySorted_merge_sort; [intros a b c; unfold ord_le; lia|intros a b; unfold ord_le; lia].
  - induction l as [|z l IH]; [constructor|]. simpl in Hs. inversion Hs as [|? ? Hs' Hz]; subst.
    constructor; [by apply IH|]. rewrite Forall_map in Hz. eapply Forall_impl; [exact Hz|]. unfold ord_le. simpl. lia.
Qed.

Lemma converted k items : forall rules, convert_rules k items = Ok rules ->
  Forall (fun x => k <= lr_Ord x) rules /\ StronglySorted Z.lt (map lr_Ord rules).
Proof.
  revert k. induction items as [|item items IH]; intros k rules H; simpl in H; [injection H as <-; by repeat constructor|].
  case_step H. case_step H. apply rbind_ok in H as (rest & Hr & H). injection H as <-.
  destruct (IH _ _ Hr) as [Hk Hs]. split; simpl; constructor; simpl; try done; try lia.
  - eapply Forall_impl; [exact Hk|]. simpl. lia.
  - apply Forall_map. eapply Forall_impl; [exact Hk|]. simpl. lia.
Qed.

Lemma inserted rules n : forall w out w', insert_login_rules rules n w = (Ok out, w') ->
  exists new, t_login_rules (tbl w') = t_login_rules (tbl w) ++ new /\ map rule_text new = map rule_text rules.
Proof.
  induction rules as [|x rules IH]; intros w out w' H; simpl in H.
  - injection H as _ <-. exists []. by rewrite app_nil_r.
  - apply bind_ok in H as (id & w1 & Hid & H). cbv zeta in H. apply bind_ok in H as ([] & w2 & Hw & H).
    apply write_ok in Hw. case_step Hw. injection Hw as Hw. apply bind_ok in H as (rest & w3 & Hr & H). injection H as _ <-.
    destruct (IH _ _ _ Hr) as (new & -> & Hn). rewrite <- Hw. simpl.
    assert (tbl w1 = tbl w) as -> by (unfold new_id in Hid; case_step Hid; by injection Hid as _ <-).
    eexists (_ :: new). rewrite <- app_assoc. split; [reflexivity|]. simpl. by rewrite Hn.
Qed.

(** The rules of a request are in force, and admit who sent them. *)
Definition in_force (act : User) (input : option (list LoginRuleInput)) (t : Tables) : Prop :=
  EvaluateLoginRules (rules_of t) (u_Email act) = true
  /\ exists rules, convert_rules 0 (default [] input) = Ok rules
       /\ forall e, EvaluateLoginRules (rules_of t) e = EvaluateLoginRules rules e.
Definition left_or_set act input (t t' : Tables) : Prop := kept t_login_rules t t' \/ in_force act input t'.
#[local] Instance left_or_set_refl act input : Reflexive (left_or_set act input).
Proof. intros t. by left. Qed.
#[local] Instance left_or_set_trans act input : Transitive (left_or_set act input).
Proof.
  unfold left_or_set, in_force, rules_of, kept. intros t1 t2 t3 [H1|H1] [H2|H2]; [left; congruence|by right| |by right].
  right. by rewrite H2.
Qed.

Lemma rules_written act input rules w : convert_rules 0 (default [] input) = Ok rules ->
  EvaluateLoginRules rules (u_Email act) = true ->
  on_tables (left_or_set act input) w (Organizations_ReplaceLoginRules rules w).2.
Proof.
  intros Hc He. unfold Organizations_ReplaceLoginRules. apply at_bind; [exact _..|by left|intros n w1 [= _ <-]].
  unfold transaction, on_tables. destruct (bind _ _ w) as [[out|e] w'] eqn:E; [right|by left].
  apply bind_ok in E as ([] & w2 & Hw & Hi). apply write_ok in Hw. injection Hw as Hw.
  apply inserted in Hi as (new & Hl & Hn). rewrite <- Hw in Hl. simpl in Hl.
  apply converted in Hc as Hs. destruct Hs as [_ Hs].
  assert (map lr_Ord new = map lr_Ord rules) as Ho.
  { change lr_Ord with (fun x => (rule_text x).1.1.1). rewrite <- !(map_map rule_text (fun p => p.1.1.1)). by rewrite Hn. }
  unfold in_force, rules_of. simpl. rewrite Hl, sorted_rules by (by rewrite Ho).
  split; [by rewrite (same_rules _ _ _ Hn)|]. exists rules. split; [done|]. intros e. by apply same_rules.
Qed.

(** Replacing the login rules: whatever the outcome, either the rules are
    untouched, or the new rules decide about every address exactly as the rules of
    the request do, in the request's order, and they admit the address of the
    administrator who sent them. *)
Theorem replaced_rules_admit_actor act input w :
  let w' := (ReplaceLoginRules act input w).2 in
  t_login_rules (tbl w') = t_login_rules (tbl w)
  \/ EvaluateLoginRules (rules_of (tbl w')) (u_Email act) = true
     /\ exists rules, convert_rules 0 (default [] input) = Ok rules
          /\ forall e, EvaluateLoginRules (rules_of (tbl w')) e = EvaluateLoginRules rules e.
Proof.
  cbv zeta. change (on_tables (left_or_set act input) w (ReplaceLoginRules act input w).2).
  assert (forall B (m : M Error B), preserves (on_tables (kept t_login_rules)) m ->
            preserves (on_tables (left_or_set act input)) m) as Hkept by (intros B m H w0; left; apply H).
  unfold ReplaceLoginRules. apply at_bind; [exact _..|apply Hkept; frames|intros _ w1 _].
  apply at_bind; [exact _..|by left|intros rules w2 H]. injection H as Hc _.
  case_goal; [by left|]. apply negb_false_iff in E.
  apply at_bind; [exact _..|by apply at_or_err, rules_written|intros ? w3 _]. apply Hkept. frames.
Qed.
End Invariants.

(** ** Witnesses *)

Lemma api_keeps_administrators_witness :
  let w' := (sample_serve "PATCH" "/api/v1/org/users/U1" "{}").2 in
  has_admin (tbl w') /\ ws_admins (tbl w').
Proof.
  pose proof (api_keeps_administrators (U := ascii_tables) (F := amd64_float_to_int) (Y := one_doc_decoder)
    (A := sample_codec) (J := numeral_json) (S := sample_stream) (N := sample_any) (P := sample_reader)
    (I := unary_ids) (C := clear_cipher) sample_api (bob_request "PATCH" "/api/v1/org/users/U1" "{}")
    session_world) as H. fold (sample_serve "PATCH" "/api/v1/org/users/U1" "{}") in H.
  destruct (sample_serve _ _ _) as [resp w']. destruct H as [H1 H2]. split.
  - apply H1. split; [apply sample_keys|]. by exists "U1", alice.
  - apply H2; [done|]. split; [apply sample_keys|]. intros id [x Hx]. cbn in Hx.
    apply lookup_singleton_Some in Hx as [<- _]. eexists "U1", _. by split.
Defined.

(** Two administrators. *)
Definition bob_admin : User := with_role_status bob RoleAdmin UserStatusActive.
Definition two_admins : World :=
  with_tbl sample_world (set_users sample_tables {["U1" := alice; "U2" := bob_admin]}).

Lemma overlapping_demotions_witness :
  exists x y w1 w2 rx ry w3 w4,
    patch_check alice "U2" (Some "member") None two_admins = (Ok x, w1)
    /\ patch_check bob_admin "U1" (Some "member") None w1 = (Ok y, w2)
    /\ patch_apply (J := numeral_json) (I := unary_ids) alice x w2 = (Ok rx, w3)
    /\ patch_apply (J := numeral_json) (I := unary_ids) bob_admin y w3 = (Ok ry, w4)
    /\ none_left (tbl w4).
Proof.
  apply (overlapping_demotions (J := numeral_json) (I := unary_ids) alice bob_admin two_admins); try done.
  - intros k x H. cbn in H. apply lookup_insert_Some in H as [[<- <-]|[_ H]]; [done|].
    by apply lookup_singleton_Some in H as [<- <-].
  - intros k x H _. cbn in H. apply lookup_insert_Some in H as [[<- <-]|[_ H]]; [by left|].
    apply lookup_singleton_Some in H as [<- <-]. by right.
Defined.
