(* ===== verification/ApiSettings.v ===== *)
(** * ApiSettings: changing the organization's settings

    What a PATCH of /api/v1/org stores (src/server/internal/api/org.go on top of
    src/server/internal/settings): the settings it answers with are those read back
    afterwards, one generation later; and open mode excludes workspaces, as long as
    requests do not overlap. *)

From stdpp Require Import sorting.
From S2P Require Import Prelude GoNum Policy Manifest Bundle Types Authz Settings Store StoreNames StoreCreds.
From S2P Require Import Service Deploy Tokens Sessions CLIAuth Functions Invoke Maintenance.
From S2P Require Import Api ApiWorkspaces ApiMe ApiFunctions ApiHandler ApiAuthority ApiGovernance.

(** ** Decoded strings are UTF-8 *)

(** [encoding/json] replaces the bytes of a string that are not UTF-8. *)
Fixpoint json_texts (j : json) : bool :=
  match j with
  | JStr s => ValidString s
  | JArr l => forallb json_texts l
  | JObj l => forallb (fun kv => json_texts kv.2) l
  | _ => true
  end.

Class JsonStrings {J : JsonText} {S : JsonStream} := {
  parse_texts s j : json_parse s = Some j -> json_texts j = true;
  first_texts s j : json_first s = Ok j -> json_texts j = true
}.

Definition texts (kvs : list (string * json)) : Prop := forallb (fun kv => json_texts kv.2) kvs = true.

(** What settings decoded from a document are: strings of UTF-8, numbers of 64 bits. *)
Definition text (s : string) : Prop := ValidString s = true.
Definition fetch_valid (f : SFetchPolicy) : Prop := text (sf_Mode f) /\ Forall text (sf_Allow f).
Definition limits_valid (l : Limits) : Prop :=
  text (InvokeTimeoutMax l) /\ int64 (MemoryMax l) /\ int64 (BundleUnpackedMax l).

Record org_valid (o : Org) : Prop := {
  ov_language : text (Language o);
  ov_default : text (DefaultVisibility o);
  ov_max : text (MaxVisibility o);
  ov_fetch : fetch_valid (org_FetchPolicy o);
  ov_limits : limits_valid (org_Limits o);
  ov_audiences : Forall text (ExtraIDTokenAudiences o);
  ov_session : int64 (SessionDurationSeconds o);
  ov_retention : int64 (LogRetentionDays o);
  ov_functions : int64 (MaxFunctionsPerUser o)
}.

Section Decoding.
Context {U : UnicodeTables}.

Lemma field_keeps {A} (P : A -> Prop) name (dec : A -> json -> option A) kvs : forall cur x,
  (forall c v y, P c -> json_texts v = true -> dec c v = Some y -> P y) -> P cur -> texts kvs ->
  field name dec cur kvs = Some x -> P x.
Proof.
  induction kvs as [|[k v] kvs IH]; intros cur x Hd Hc Ht H; simpl in H; [by injection H as <-|].
  unfold texts in Ht. simpl in Ht. apply andb_true_iff in Ht as [Hv Ht].
  destruct (equal_fold k name); [|by apply (IH cur)]. destruct (dec cur v) as [c|] eqn:E; [|done].
  apply (IH c); [done| |done|done]. by apply (Hd cur v).
Qed.

Lemma dec_string_text c v y : text c -> json_texts v = true -> dec_string c v = Some y -> text y.
Proof. destruct v; simpl; intros ? ? [=]; by subst. Qed.

Lemma dec_int_int64 c v y : int64 c -> json_texts v = true -> dec_int c v = Some y -> int64 y.
Proof.
  destruct v; simpl; intros Hc _ H; try done; [by injection H as <-|]. case_step H. injection H as <-.
  unfold int64. bool_lia.
Qed.

Lemma dec_strings_text c v y : Forall text c -> json_texts v = true -> dec_strings c v = Some y -> Forall text y.
Proof.
  destruct v; simpl; intros Hc Ht H; try done; [by injection H as <-|].
  apply mapM_Some_1 in H. rewrite forallb_forall in Ht. induction H as [|j s l y Hj H IH]; constructor.
  - apply (dec_string_text "" j); [done| |done]. apply Ht. by left.
  - apply IH. intros x Hx. apply Ht. by right.
Qed.

Lemma dec_object_keeps {A} (P : A -> Prop) (dec : A -> list (string * json) -> option A) c v y :
  (forall kvs x, texts kvs -> dec c kvs = Some x -> P x) ->
  P c -> json_texts v = true -> dec_object dec c v = Some y -> P y.
Proof. destruct v; simpl; intros Hd Hc Ht H; try done; [by injection H as <-|]. by eapply Hd. Qed.

Ltac kept_field dec := eapply field_keeps; [exact dec| | |eassumption]; eassumption.

Lemma dec_fetch_valid c kvs x : fetch_valid c -> texts kvs -> dec_fetch c kvs = Some x -> fetch_valid x.
Proof.
  intros [Hm Ha] Ht H. unfold dec_fetch in H. case_step H. case_step H. injection H as <-.
  split; simpl; [kept_field dec_string_text|kept_field dec_strings_text].
Qed.

Lemma dec_limits_valid c kvs x : limits_valid c -> texts kvs -> dec_limits c kvs = Some x -> limits_valid x.
Proof.
  intros (Hm & Ha & Hb) Ht H. unfold dec_limits in H. repeat case_step H. injection H as <-.
  split_and!; simpl; [kept_field dec_string_text|kept_field dec_int_int64|kept_field dec_int_int64].
Qed.

Lemma dec_org_valid c kvs x : org_valid c -> texts kvs -> dec_org c kvs = Some x -> org_valid x.
Proof.
  intros [] Ht H. unfold dec_org in H. repeat case_step H. injection H as <-. split; simpl;
    try kept_field dec_string_text; try kept_field dec_int_int64; try kept_field dec_strings_text.
  - eapply field_keeps; [| |exact Ht|eassumption]; [|eassumption]. intros f v y Hf Hv.
    apply dec_object_keeps; [|done|done]. intros ? ?. by apply dec_fetch_valid.
  - eapply field_keeps; [| |exact Ht|eassumption]; [|eassumption]. intros f v y Hf Hv.
    apply dec_object_keeps; [|done|done]. intros ? ?. by apply dec_limits_valid.
Qed.
End Decoding.

(** Valid settings print without loss. *)
Lemma opt_str_ok k s : ValidString k = true -> text s ->
  forallb (fun kv => ValidString kv.1 && json_ok kv.2) (opt_str k s) = true.
Proof. intros Hk Hs. unfold opt_str. case_goal; [done|]. simpl. by rewrite Hk, Hs. Qed.
Lemma opt_int_ok k n : ValidString k = true ->
  forallb (fun kv => ValidString kv.1 && json_ok kv.2) (opt_int k n) = true.
Proof. intros Hk. unfold opt_int. case_goal; [done|]. simpl. by rewrite Hk. Qed.
Lemma strings_ok l : Forall text l -> forallb json_ok (map JStr l) = true.
Proof. induction 1 as [|s l Hs Hl IH]; [done|]. simpl. by rewrite Hs, IH. Qed.
Lemma opt_strs_ok k l : ValidString k = true -> Forall text l ->
  forallb (fun kv => ValidString kv.1 && json_ok kv.2) (opt_strs k l) = true.
Proof.
  intros Hk Hl. unfold opt_strs. destruct l as [|s l]; [done|].
  change (forallb _ _) with (ValidString k && forallb json_ok (map JStr (s :: l)) && true).
  by rewrite Hk, strings_ok.
Qed.

Lemma org_json_ok o : org_valid o -> json_ok (org_json o) = true.
Proof.
  intros [Hl Hd Hm [Hf1 Hf2] (Ht & _) Ha _ _ _]. unfold org_json, Settings.fetch_json, limits_json.
  cbn [json_ok]. rewrite !forallb_app, opt_strs_ok, !opt_int_ok by done.
  cbn [forallb fst snd json_ok app]. rewrite !forallb_app, opt_strs_ok, !opt_int_ok, opt_str_ok by done.
  cbn [forallb fst snd json_ok]. by rewrite Hl, Hd, Hm, Hf1.
Qed.

Lemma default_org_valid : org_valid DefaultOrg.
Proof. split; simpl; try done; repeat split; simpl; done. Qed.

Section Changes.
Context {U : UnicodeTables} {F : FloatToInt} {Y : YamlDecoder} {A : ArchiveCodec} {J : JsonText}
  {S : JsonStream} {N : JsonAny} {P : MultipartReader} {I : IdGen} {C : Cipher} {T : JsonStrings}.

Lemma repair_valid o : org_valid o -> org_valid (repair_org o).
Proof.
  intros [Hl Hd Hm Hf (Ht & Hi & Hb) Ha Hs Hr Hn]. split; simpl; try done; [by case_goal|].
  repeat split; simpl; try apply Ht; try apply Hi; case_goal; try apply Hb; done.
Qed.

Lemma decoded_valid c j o : org_valid c -> json_texts j = true -> dec_object dec_org c j = Some o -> org_valid o.
Proof. intros Hc Hj. apply (dec_object_keeps org_valid); [|done|done]. intros kvs x. by apply dec_org_valid. Qed.

Lemma parsed_valid raw o : ParseOrg raw = Ok o -> org_valid o.
Proof.
  unfold ParseOrg. intros H. case_step H; [injection H as <-; apply default_org_valid|].
  destruct (json_parse raw) as [j|] eqn:Ej; [|done]. case_step H. injection H as <-.
  apply repair_valid. eapply decoded_valid; [apply default_org_valid|by eapply parse_texts|done].
Qed.

(** Stored settings are read back, up to the repairs of reading. *)
Lemma valid_roundtrip o : org_valid o -> ParseOrg (Org_JSON o) = Ok (reread_org o).
Proof. intros Hv. pose proof (org_json_ok o Hv). destruct Hv as [_ _ _ _ (? & ? & ?) _ ? ? ?]. by apply org_settings_roundtrip. Qed.

(** ** PATCH /api/v1/org *)

Lemma update_check_read act patch w x w' : org_update_check act patch w = (Ok x, w') ->
  let '(o, new, just) := x in
  tbl w' = tbl w /\ is_admin act /\ t_organization (tbl w) = Some o /\ exists cur, ParseOrg (o_Settings o) = Ok cur
  /\ org_valid new /\ just = OpenMode new && negb (OpenMode cur) /\ (just = true -> t_workspaces (tbl w) = ∅).
Proof.
  destruct x as [[o new] just]. unfold org_update_check. intros H.
  apply bind_ok in H as (? & w1 & H1 & H). apply admin_required in H1 as [Ha H1].
  apply bind_ok in H as (o' & w2 & H2 & H). apply or_err_ok, read_row in H2 as [H2 H2'].
  apply bind_ok in H as (cur & w3 & H3 & H). unfold parse_org, lift in H3.
  destruct (ParseOrg (o_Settings o')) as [cur'|] eqn:Ep; [|done]. injection H3 as <- <-.
  destruct (json_parse patch) as [j|] eqn:Ej; [|done]. simpl in H.
  destruct (dec_object dec_org cur' j) as [new'|] eqn:Ed; [|done]. case_step H.
  assert (org_valid new') as Hv by (eapply decoded_valid; [by eapply parsed_valid|by eapply parse_texts|done]).
  destruct (OpenMode new' && negb (OpenMode cur')) eqn:Eo.
  - apply bind_ok in H as (wss & w4 & H4 & H). apply or_err_ok, query_ok in H4 as [[= <-] H4].
    case_step H. injection H as <- <- <- <-. rewrite H4, H2', H1 in *. split_and!; try done.
    exists cur'. split_and!; try done. intros _. apply Nat.ltb_ge in E0.
    apply map_empty. intros i. destruct (t_workspaces (tbl w) !! i) as [y|] eqn:Ey; [exfalso|done].
    assert (y ∈ order_by w_CreatedAt (rows (fun _ => true) (t_workspaces (tbl w)))) as Hin.
    { unfold order_by. rewrite merge_sort_Permutation, elem_of_rows. eauto. }
    destruct (order_by _ _); [by apply elem_of_nil in Hin|simpl in E0; lia].
  - injection H as <- <- <- <-. rewrite H2', H1 in *. split_and!; try done. exists cur'. by split_and!.
Qed.

Lemma Organizations_Update_run o w r w' : Organizations_Update o w = (r, w') ->
  (tbl w' = tbl w /\ is_ok r = false)
  \/ exists old n, t_organization (tbl w) = Some old /\ r = Ok tt
       /\ tbl w' = set_organization (tbl w) (Some (mkOrganization (o_ID old) (o_Name o) (o_Settings o)
                                                     (o_SettingsGen o) (o_CreatedAt old) n)).
Proof.
  unfold Organizations_Update, bind, stored_now, get. intros H. destruct r as [[]|e].
  - right. apply write_ok in H. case_step H. injection H as H. eauto.
  - left. apply write_err in H as [H _]. done.
Qed.

(** The row after an update. *)
Definition updated (t : Tables) (name : string) (s : Org) (gen : Z) : Prop :=
  exists o, t_organization t = Some o /\ o_Name o = name /\ o_SettingsGen o = gen /\ ParseOrg (o_Settings o) = Ok (reread_org s).

Lemma update_run act patch w r w' : UpdateOrgSettings act patch w = (r, w') ->
  t_workspaces (tbl w') = t_workspaces (tbl w)
  /\ match r with
     | Err _ => t_organization (tbl w') = t_organization (tbl w)
     | Ok (name, s, gen, just) =>
         is_admin act /\ org_valid s /\ updated (tbl w') name s gen
         /\ exists o cur, t_organization (tbl w) = Some o /\ ParseOrg (o_Settings o) = Ok cur
              /\ name = o_Name o /\ gen = o_SettingsGen o + 1
              /\ just = OpenMode s && negb (OpenMode cur) /\ (just = true -> t_workspaces (tbl w) = ∅)
     end.
Proof.
  unfold UpdateOrgSettings. intros H. unfold bind at 1 in H.
  assert (preserves (on_tables eq) (org_update_check act patch)) as Hp by (unfold org_update_check; frames; done).
  specialize (Hp w). destruct (org_update_check act patch w) as [[[[o new] just]|e] w1] eqn:Ec; simpl in Hp.
  2:{ injection H as <- <-. unfold on_tables in Hp. simpl in Hp. by rewrite <- Hp. }
  apply update_check_read in Ec as (Ht & Ha & Ho & cur & Hcur & Hv & Hj & He).
  unfold org_update_apply in H. unfold bind at 1, or_err at 1 in H.
  destruct (Organizations_Update (with_settings o new) w1) as [[[]|e] w2] eqn:Eu; simpl in H;
    apply Organizations_Update_run in Eu; rewrite Ht in Eu.
  2:{ injection H as <- <-. destruct Eu as [[-> _]|(? & ? & _ & ? & _)]; done. }
  destruct Eu as [[_ ?]|(old & n & Hold & _ & Hw2)]; [done|]. rewrite Ho in Hold. injection Hold as <-.
  unfold bind, ret in H.
  match type of H with context [attempt ?m w2] =>
    assert (preserves (on_tables (kept (fun t => (t_organization t, t_workspaces t)))) m) as Hk by frames;
    specialize (Hk w2); unfold attempt in H; destruct (m w2) as [res w3] end.
  injection H as <- <-. unfold on_tables, kept in Hk. simpl in Hk. injection Hk as Hk1 Hk2.
  rewrite Hw2 in Hk1, Hk2. simpl in Hk1, Hk2. split; [done|].
  split_and!; [done|done| |by exists o, cur].
  eexists. split_and!; [exact Hk1|done|done|]. simpl. by apply valid_roundtrip.
Qed.

(** A successful PATCH of the organization comes from an administrator, answers
    with the generation after the one that was stored, and stores exactly the
    settings it answers with: the next GET reports the same name and generation and
    the same settings, up to the documented repairs of reading. A refused or failed
    one leaves the organization as it was. *)
Theorem patch_reads_back act patch w :
  let '(r, w') := UpdateOrgSettings act patch w in
  match r with
  | Err _ => t_organization (tbl w') = t_organization (tbl w)
  | Ok (name, s, gen, _) =>
      u_Role act = RoleAdmin
      /\ (exists o, t_organization (tbl w) = Some o /\ name = o_Name o /\ gen = o_SettingsGen o + 1)
      /\ forall w2, tbl w2 = tbl w' -> faults w2 = [] ->
           GetOrgSettings w2 = (Ok (name, reread_org s, gen), w2)
  end.
Proof.
  destruct (UpdateOrgSettings act patch w) as [r w'] eqn:E. apply update_run in E as [_ E].
  destruct r as [[[[name s] gen] just]|e]; [|done].
  destruct E as (Ha & Hv & (o' & Ho' & Hn & Hg & Hp) & o & cur & Ho & Hcur & -> & -> & _).
  split; [exact Ha|]. split; [by exists o|]. intros w2 Ht Hf. unfold GetOrgSettings, loadOrgCtx, Organizations_Get.
  unfold bind, or_err. rewrite query_plain by done. rewrite Ht, Ho'. simpl. unfold parse_org, lift. rewrite Hp. simpl.
  by rewrite Hn, Hg.
Qed.

(** ** Open mode *)

Definition open_mode (t : Tables) : Prop :=
  exists o s, t_organization t = Some o /\ ParseOrg (o_Settings o) = Ok s /\ OpenMode s = true.
(** An organization in open mode has no workspaces. *)
Definition open_excludes (t : Tables) : Prop := open_mode t -> t_workspaces t = ∅.
Definition open_part (t : Tables) := (t_organization t, t_workspaces t).

Lemma open_part_only t t' : open_part t' = open_part t -> open_excludes t -> open_excludes t'.
Proof. unfold open_part, open_excludes, open_mode. by intros [= -> ->]. Qed.

Ltac open_kept := apply kept_remains with open_part; [apply open_part_only|frames].

Lemma patch_keeps_exclusion act r : preserves (on_tables (remains open_excludes)) (handleOrgPatch act r).
Proof.
  unfold handleOrgPatch. destruct (q_Body r) as [patch|]; [|by open_kept].
  apply preserves_bind; [exact _| |intros x; by open_kept].
  intros w Hi. destruct (UpdateOrgSettings act patch w) as [res w'] eqn:E. simpl.
  apply update_run in E as [Hw E]. unfold open_excludes. rewrite Hw.
  destruct res as [[[[name s] gen] just]|e]; [|by unfold open_mode; rewrite E].
  destruct E as (_ & _ & (o' & Ho' & _ & _ & Hp) & o & cur & Ho & Hcur & _ & _ & -> & He).
  intros (o1 & s1 & H1 & H2 & H3). rewrite Ho' in H1. injection H1 as <-. rewrite Hp in H2. injection H2 as <-.
  simpl in H3. destruct (OpenMode cur) eqn:Ec; [apply Hi; by exists o, cur|]. apply He. by rewrite H3.
Qed.

Lemma mode_read w b w' : openModeEnabled w = (Ok b, w') ->
  tbl w' = tbl w /\ exists o s, t_organization (tbl w) = Some o /\ ParseOrg (o_Settings o) = Ok s /\ b = OpenMode s.
Proof.
  unfold openModeEnabled. intros H. apply bind_ok in H as (o & w1 & H1 & H). apply or_err_ok, read_row in H1 as [H1 Ht].
  apply bind_ok in H as (s & w2 & H2 & H). unfold lift in H2.
  destruct (ParseOrg (o_Settings o)) as [s'|] eqn:E; [|done]. injection H2 as <- <-. injection H as <- <-. eauto 10.
Qed.

Lemma workspaces_keep_exclusion act r rest w :
  on_tables (remains open_excludes) w (routeWorkspaces act r rest w).2.
Proof.
  unfold routeWorkspaces. apply at_read; [exact _..|by frames|intros b w1 H Ht].
  apply mode_read in H as (_ & o & s & Ho & Hs & ->). destruct (OpenMode s) eqn:Es; [by intros ?|].
  match goal with |- on_tables _ w1 (?m w1).2 =>
    assert (preserves (on_tables (kept t_organization)) m) as Hk; [|specialize (Hk w1); destruct (m w1) as [res w2]] end.
  { destruct rest as [|? [|? [|? [|]]]]; frames. }
  unfold on_tables, kept in Hk. simpl in Hk. intros _ (o' & s' & Ho' & Hs' & H'). simpl in *. congruence.
Qed.

(** Served one request at a time, the management API never has workspaces in an
    organization in open mode. *)
Theorem open_mode_excludes_workspaces h r w :
  let '(_, w') := ServeHTTP h r w in open_excludes (tbl w) -> open_excludes (tbl w').
Proof.
  destruct (ServeHTTP h r w) as [resp w'] eqn:E.
  change (on_tables (remains open_excludes) w w'). change w' with (resp, w').2. rewrite <- E.
  apply serve_tables; [exact _..| | |].
  - intros t t' Hs. unfold remains. apply open_part_only. by rewrite Hs.
  - by open_kept.
  - intros act w1 _. revert w1. unfold route.
    assert (forall m : M Error ApiResponse, preserves (on_tables (kept open_part)) m ->
              preserves (on_tables (remains open_excludes)) m) as Hkept.
    { intros m. apply kept_remains, open_part_only. }
    destruct (splitPath _) as [|s rest]; [apply Hkept; frames|]. repeat case_goal; try (apply Hkept; frames; fail).
    + unfold routeOrg. destruct rest as [|s1 [|s2 [|]]]; repeat case_goal; try (apply Hkept; frames; fail).
      apply patch_keeps_exclusion.
    + intros w1. apply workspaces_keep_exclusion.
Qed.

(** A workspace creation that passed its check before open mode was turned on,
    and writes afterwards, leaves a workspace in an organization in open mode; no
    request about workspaces reaches it any more, whoever sends it: they are all
    answered as if the route did not exist. *)
Theorem overlapping_open_mode act adm name patch w w1 s w2 x w3 n g
    (Hc : create_check act name w = (Ok tt, w1))
    (Hp : UpdateOrgSettings adm patch w1 = (Ok (n, s, g, true), w2))
    (Ha : create_apply act name w2 = (Ok x, w3)) (Hf : faults w3 = []) :
  open_mode (tbl w3) /\ t_workspaces (tbl w3) !! w_ID x = Some x
  /\ forall act' r rest, (routeWorkspaces act' r rest w3).1 = (unknown_route w3).1.
Proof.
  apply update_run in Hp as [_ (_ & _ & (o & Ho & _ & _ & Hs) & o0 & cur & _ & _ & _ & _ & Hj & _)].
  assert (OpenMode s = true) as Hm by (by destruct (OpenMode s)).
  assert (t_organization (tbl w3) = t_organization (tbl w2)) as Horg.
  { assert (preserves (on_tables (kept t_organization)) (create_apply act name)) as Hk by frames.
    by apply (preserves_at _ _ _ _ _ Hk Ha). }
  assert (open_mode (tbl w3)) as Hopen by (exists o, (reread_org s); by rewrite Horg).
  split_and!; [done| |].
  - unfold create_apply in Ha. apply bind_ok in Ha as (y & w4 & Hy & Ha). apply or_err_ok in Hy.
    apply bind_ok in Ha as (u & w5 & Hu & Ha). injection Ha as -> <-.
    match type of Hu with attempt ?m w4 = _ =>
      assert (preserves (on_tables (kept t_workspaces)) (attempt (F := Error) m)) as Hk by frames end.
    apply (preserves_at _ _ _ _ _ Hk) in Hu. unfold on_tables, kept in Hu. rewrite Hu.
    unfold Store_CreateWorkspace in Hy. apply bind_ok in Hy as (id & w6 & Hid & Hy).
    apply bind_ok in Hy as (t & w7 & Ht & Hy). cbv zeta in Hy. apply bind_ok in Hy as ([] & w8 & Hy & Hr).
    injection Hr as <- <-. apply transaction_ok, bind_ok in Hy as ([] & w9 & H1 & H2). apply write_ok in H1, H2.
    unfold insert_workspace, insert_member in *. case_step H1. repeat case_step H2. injection H1 as H1. injection H2 as <-.
    simpl. rewrite <- H1. simpl. by rewrite lookup_insert_eq.
  - intros act' r rest. destruct Hopen as (o' & s' & Ho' & Hs' & H').
    unfold routeWorkspaces, openModeEnabled, Organizations_Get, bind, or_err. rewrite query_plain by done.
    rewrite Ho'. simpl. unfold lift. rewrite Hs'. simpl. by rewrite H'.
Qed.
End Changes.

(** ** A codec of which the laws hold *)

Lemma ok_texts : forall j, json_ok j = true -> json_texts j = true.
Proof.
  induction j as [| | | | |l IH|l IH] using json_nested_ind; simpl; try done; rewrite !forallb_forall; intros H x Hx;
    rewrite Forall_forall in IH; specialize (H x Hx); specialize (IH x); rewrite list_elem_of_In in IH; [by auto|].
  apply andb_true_iff in H as [_ H]. auto.
Qed.

Program Definition strict_json : JsonText := {|
  json_print := json_print (JsonText := numeral_json);
  json_parse s := match json_parse (JsonText := numeral_json) s with
                  | Some j => if json_texts j then Some j else None
                  | None => None
                  end
|}.
Next Obligation.
  intros j H. cbv beta. rewrite (json_parse_print (JsonText := numeral_json)) by done. simpl. by rewrite ok_texts.
Qed.
Next Obligation. exact json_print_nonempty. Qed.

Program Definition strict_stream : JsonStream (J := strict_json) := {|
  json_first s := match json_parse (JsonText := strict_json) s with
                  | Some j => Ok j
                  | None => Err (if s == "" then StreamEOF else StreamSyntax)
                  end
|}.
Next Obligation. intros s j H. cbv beta. by rewrite H. Qed.

Lemma strict_parse s j : json_parse (JsonText := strict_json) s = Some j -> json_texts j = true.
Proof. simpl. intros H. destruct (text_pos s); [|done]. simpl in H. destruct (option_map _ _); [|done].
  case_step H. by injection H as <-. Qed.
Program Definition strict_strings : JsonStrings (J := strict_json) (S := strict_stream) := {|
  parse_texts := strict_parse
|}.
Next Obligation.
  intros s j. unfold json_first, strict_stream. intros H.
  destruct (json_parse (JsonText := strict_json) s) as [j'|] eqn:E; [|done]. injection H as <-. by eapply strict_parse.
Qed.

(** ** Witnesses *)

(** Turning open mode on, where there are no workspaces. *)
Definition open_patch : string := json_print (JsonText := numeral_json) (JObj [("open_mode", JBool true)]).
Definition bare_world : World := with_tbl sample_world (set_members (set_workspaces sample_tables ∅) ∅).
Definition sample_update : result Error (string * Org * Z * bool) * World :=
  UpdateOrgSettings (U := ascii_tables) (J := strict_json) (I := unary_ids) alice open_patch bare_world.
Definition opened : Org := match sample_update.1 with Ok x => x.1.1.2 | Err _ => DefaultOrg end.

Lemma sample_update_ok : sample_update = (Ok ("Example", opened, 2, true), sample_update.2) /\ OpenMode opened = true.
Proof. split; vm_compute; reflexivity. Qed.

Lemma patch_reads_back_witness :
  sample_update.1 = Ok ("Example", opened, 2, true)
  /\ GetOrgSettings (U := ascii_tables) (J := strict_json) sample_update.2
     = (Ok ("Example", reread_org opened, 2), sample_update.2).
Proof.
  destruct sample_update_ok as [E _].
  pose proof (patch_reads_back (U := ascii_tables) (J := strict_json) (S := strict_stream) (I := unary_ids)
    (T := strict_strings) alice open_patch bare_world) as H.
  change (UpdateOrgSettings alice open_patch bare_world) with sample_update in H. rewrite E in H.
  destruct H as (_ & _ & H). split; [by rewrite E|]. apply H; [done|]. vm_compute. reflexivity.
Defined.

Definition strict_serve (meth path body : string) (w : World) : ApiResponse * World :=
  ServeHTTP (U := ascii_tables) (F := amd64_float_to_int) (Y := one_doc_decoder) (A := sample_codec)
    (J := strict_json) (S := strict_stream) (N := sample_any) (P := sample_reader) (I := unary_ids)
    (C := clear_cipher) sample_api (bob_request meth path body) w.

Lemma open_mode_excludes_workspaces_witness :
  open_excludes (U := ascii_tables) (J := strict_json) (tbl (strict_serve "PATCH" "/api/v1/org" open_patch session_world).2).
Proof.
  pose proof (open_mode_excludes_workspaces (U := ascii_tables) (F := amd64_float_to_int) (Y := one_doc_decoder)
    (A := sample_codec) (J := strict_json) (S := strict_stream) (N := sample_any) (P := sample_reader)
    (I := unary_ids) (C := clear_cipher) (T := strict_strings) sample_api
    (bob_request "PATCH" "/api/v1/org" open_patch) session_world) as H.
  fold (strict_serve "PATCH" "/api/v1/org" open_patch session_world) in H.
  destruct (strict_serve _ _ _ _) as [resp w']. apply H. intros (o & s & Ho & Hs & Hm). exfalso.
  cbn in Ho. injection Ho as <-. cbn in Hs. by injection Hs as <-.
Defined.

Definition race_created : result Error Workspace * World :=
  create_apply (J := strict_json) (I := unary_ids) alice "Team" sample_update.2.
Definition race_workspace : Workspace := match race_created.1 with Ok x => x | Err _ => sample_workspace end.

Lemma overlapping_open_mode_witness :
  open_mode (U := ascii_tables) (J := strict_json) (tbl race_created.2)
  /\ t_workspaces (tbl race_created.2) !! w_ID race_workspace = Some race_workspace
  /\ (routeWorkspaces (U := ascii_tables) (J := strict_json) (S := strict_stream) (I := unary_ids) alice
       (bob_request "DELETE" "" "") [w_ID race_workspace] race_created.2).1 = (unknown_route race_created.2).1.
Proof.
  destruct (overlapping_open_mode (U := ascii_tables) (J := strict_json) (S := strict_stream) (I := unary_ids)
    (T := strict_strings) alice alice "Team" open_patch bare_world bare_world opened sample_update.2 race_workspace
    race_created.2 "Example" 2) as (H1 & H2 & H3).
  - vm_compute. reflexivity.
  - exact (proj1 sample_update_ok).
  - vm_compute. reflexivity.
  - vm_compute. reflexivity.
  - split_and!; [exact H1|exact H2|]. apply H3.
Defined.
