(* ===== verification/Dashboard.v ===== *)
(** * Dashboard: the hosted dashboard and its in-process calls

    Models src/server/internal/dashboard: the gate in front of the dashboard app,
    the pool that is built on first use and again when the file on disk changes,
    the caller token, and the management API the app calls inside the process.
    What the app itself does with a request is a parameter: the calls it makes, one
    after the other, and its answer. The pages are left out but for the values they
    carry. *)

From stdpp Require Import relations.
From S2P Require Import Prelude GoNum GoURL GoHTTP Manifest Bundle Types Authz Settings Store StoreNames StoreCreds Digest Signed Glob.
From S2P Require Import Service Functions Deploy Tokens Sessions InvokeSSO Effective Invoke Api ApiWorkspaces ApiMe ApiFunctions ApiHandler ApiAuthority ApiGovernance.

(** ** caller_token.go *)

Definition callerTokenTTL : Z := 5 * Minute.

Record callerClaims := mkCallerClaims {
  cl_UserID : string;
  cl_Email : string;
  cl_Name : string;
  cl_Role : string;
  cl_IssuedAt : Z
}.

Definition caller_fields (c : callerClaims) : list (string * json) :=
  [("uid", JStr (cl_UserID c)); ("email", JStr (cl_Email c)); ("name", JStr (cl_Name c));
   ("role", JStr (cl_Role c)); ("iat", JInt (cl_IssuedAt c))].

Definition dec_caller {U : UnicodeTables} (c : callerClaims) (kvs : list (string * json)) : option callerClaims :=
  match field "uid" dec_string (cl_UserID c) kvs, field "email" dec_string (cl_Email c) kvs,
        field "name" dec_string (cl_Name c) kvs, field "role" dec_string (cl_Role c) kvs,
        field "iat" dec_int (cl_IssuedAt c) kvs with
  | Some x1, Some x2, Some x3, Some x4, Some x5 => Some (mkCallerClaims x1 x2 x3 x4 x5)
  | _, _, _, _, _ => None
  end.

Definition no_claims : callerClaims := mkCallerClaims "" "" "" "" 0.

Inductive CallerErr := CallerMalformed | CallerSignature | CallerNoUser | CallerExpired.

(** ** server.go: the pool *)

(** [dist/server.js] as a look at the directory finds it: its source, when it can be
    read, and its modification time, when it can be had. *)
Record ServerFile := mkServerFile { sf_Source : option string; sf_ModTime : option Time }.

(** The fields of [Server] behind its mutex; no time is Go's zero time. *)
Record DashState (P : Type) := mkDashState {
  ds_pool : option P;
  ds_buildErr : option string;
  ds_builtModTime : option Time
}.
Arguments mkDashState {P} _ _ _.
Arguments ds_pool {P} _.
Arguments ds_buildErr {P} _.
Arguments ds_builtModTime {P} _.

Definition errAssetsNotBuilt : string := "dashboard: assets not built -- run `make server`".

Section Pool.
Context {P : Type} (NewPool : string -> result string P) (watchDisk : bool).

(** The first look: a file whose time is another discards the pool. *)
Definition watched (s : DashState P) (look : ServerFile) : DashState P :=
  match watchDisk, ds_pool s, sf_ModTime look with
  | true, Some _, Some t =>
      if bool_decide (Some t = ds_builtModTime s) then s else mkDashState None None (ds_builtModTime s)
  | _, _, _ => s
  end.

(** [ensurePool]: the file may change between the look, the reading and the second
    look. *)
Definition ensurePool (s : DashState P) (look read stat : ServerFile) : result string P * DashState P :=
  let s := watched s look in
  match ds_pool s with
  | Some p => (Ok p, s)
  | None =>
      match ds_buildErr s with
      | Some e => (Err e, s)
      | None =>
          match sf_Source read with
          | None => (Err errAssetsNotBuilt, mkDashState None (Some errAssetsNotBuilt) (ds_builtModTime s))
          | Some src =>
              match NewPool src with
              | Err e =>
                  let e := "dashboard: failed to start dashboard app: " +:+ e in
                  (Err e, mkDashState None (Some e) (ds_builtModTime s))
              | Ok p => (Ok p, mkDashState (Some p) None (sf_ModTime stat))
              end
          end
      end
  end.

Definition Ready (f : ServerFile) : option string :=
  match sf_ModTime f with Some _ => None | None => Some errAssetsNotBuilt end.
End Pool.

(** ** server.go: serving *)

Definition dashboardPrefix : string := "/dashboard".
Definition assetsPrefix : string := "/dashboard/assets/".
Definition caller_token_header : string := "X-Funcbox-Caller-Token".

Record DashRequest := mkDashRequest {
  dr_Auth : Sessions.Request;
  dr_Path : string;
  dr_RequestURI : string;
  dr_LoginError : string;
  dr_Header : Header
}.

(** What the app sees of a request. *)
Record GuestRequest := mkGuestRequest { gr_Method : string; gr_RequestURI : string; gr_Header : Header }.

Inductive DashResponse (R : Type) :=
| DashRedirect (status : Z) (target : string)
| DashAsset (content : string)
| DashNotFound
| LoginFailedPage (message : string)
| PendingApprovalPage (identity : string) (requested : Time)
| NotBuiltPage (message : string)
| Rendered (r : R).
Arguments DashRedirect {R} _ _.
Arguments DashAsset {R} _.
Arguments DashNotFound {R}.
Arguments LoginFailedPage {R} _.
Arguments PendingApprovalPage {R} _ _.
Arguments NotBuiltPage {R} _.
Arguments Rendered {R} _.

(** What the app does with a request: its answer, or a call of [internalAPI] and
    what it does with the outcome. *)
Inductive GuestRun (R : Type) :=
| Respond (r : R)
| CallInternal (args : list string) (next : result string (Z * Body) -> GuestRun R).
Arguments Respond {R} _.
Arguments CallInternal {R} _ _.

(** [poolSize] for a processor count. *)
Definition poolSize (configured gomaxprocs : Z) : Z :=
  if 0 <? configured then configured
  else let n := if 4 <? gomaxprocs then 4 else gomaxprocs in
       if n <? 1 then 1 else n.

Definition DefaultRequestTimeout : Z := 15 * Second.
Definition requestTimeout (configured : Z) : Z :=
  if 0 <? configured then configured else DefaultRequestTimeout.

Definition pending_identity (u : User) : string :=
  if u_Name u == "" then u_Email u else u_Name u +:+ " (" +:+ u_Email u +:+ ")".

(** [htmlEscape], one byte at a time. *)
Definition html_escape_byte (c : ascii) : string :=
  if (c =? "&")%char then "&amp;" else if (c =? "<")%char then "&lt;"
  else if (c =? ">")%char then "&gt;" else String c "".
Fixpoint htmlEscape (s : string) : string :=
  match s with
  | "" => ""
  | String c s => html_escape_byte c +:+ htmlEscape s
  end.

(** [http.NewRequest]: the method is a token, [""] is GET, the URL parses. *)
Definition new_request (meth url : string) : option (string * URL) :=
  let meth := if meth == "" then "GET" else meth in
  if str_forallb is_token_byte meth then option_map (pair meth) (url_Parse url) else None.

Section Hosting.
Context {U : UnicodeTables} {F : FloatToInt} {Y : YamlDecoder} {A : ArchiveCodec} {J : JsonText}
  {S : JsonStream} {N : JsonAny} {MR : MultipartReader} {I : IdGen} {C : Cipher}.

Definition signCallerToken (key : string) (c : callerClaims) : string :=
  Signed.seal key (json_print (JObj (caller_fields c))).

Definition verifyCallerToken (key : string) (n : Time) (token : string) : result CallerErr callerClaims :=
  let '(payloadB64, sig, ok) := cut_byte token "." in
  guard! ok else CallerMalformed in
  match b64_decode payloadB64 with
  | None => Err CallerMalformed
  | Some payload =>
      guard! hmacHex key payload == sig else CallerSignature in
      match json_parse payload with
      | None => Err CallerMalformed
      | Some j =>
          match dec_object dec_caller no_claims j with
          | None => Err CallerMalformed
          | Some c =>
              guard! negb (cl_UserID c == "") else CallerNoUser in
              guard! n - fromUnix (cl_IssuedAt c) <=? callerTokenTTL else CallerExpired in
              Ok c
          end
      end
  end.

(** [storeUser]: the fields the claims do not carry keep the zero values of their
    types, for which no constant stands; they are whatever [zero] has. A role that
    is none of the three grants what a member has. *)
Definition storeUser (zero : User) (c : callerClaims) : User :=
  mkUser (cl_UserID c) (u_Provider zero) (u_ProviderSubject zero) (cl_Email c) (cl_Name c)
    (default RoleMember (parse_role (cl_Role c))) (u_Status zero) (u_Language zero)
    (u_CreatedAt zero) (u_UpdatedAt zero).

Definition claims_of (u : User) (n : Time) : callerClaims :=
  mkCallerClaims (u_ID u) (u_Email u) (u_Name u) (role_string (u_Role u)) (toUnix n).

(** ** internalapi.go *)

(** What the recorder holds after a handler: an empty body reads [null]. *)
Definition recorded (a : ApiResponse) : Z * Body :=
  (a_Status a, match a_Body a with NoBody => BodyJSON JNull | b => b end).

Definition callInternalAPI (h : Handler) (act : AuthActor) (meth path bodyJSON : string)
    : M string (Z * Body) :=
  fun w =>
    match new_request meth ("/api/v1" +:+ path) with
    | None => (Err "internalAPI: build request: ", w)
    | Some (meth, u) =>
        let '(a, w') := ServeInternal h
          (mkApiRequest (Sessions.mkRequest meth "" "" "" []) (u_Path u) (u_RawQuery u)
             (if bodyJSON == "" then "" else "application/json") (Some bodyJSON)) act w in
        (Ok (recorded a), w')
    end.

Definition caller_refused (e : CallerErr) : string :=
  match e with
  | CallerMalformed => "internalAPI: dashboard: malformed caller token"
  | CallerSignature => "internalAPI: dashboard: caller token signature mismatch"
  | CallerNoUser => "internalAPI: dashboard: caller token missing uid"
  | CallerExpired => "internalAPI: dashboard: caller token expired"
  end.

Definition internalAPI (zero : User) (tokenKey : string) (h : Handler) (args : list string)
    : M string (Z * Body) :=
  match args with
  | meth :: path :: body :: token :: _ =>
      do! n <- time_Now;
      do! c <- lift (map_err caller_refused (verifyCallerToken tokenKey n token));
      callInternalAPI h (mkAuthActor (storeUser zero c) MethodSession "") meth path body
  | _ => throw "internalAPI: expected 4 arguments (method, path, body, callerToken)"
  end.

(** The app runs: its calls are answered in order, a failed one rejects. *)
Fixpoint run_guest {R} (zero : User) (tokenKey : string) (h : Handler) (g : GuestRun R) (w : World) : R * World :=
  match g with
  | Respond r => (r, w)
  | CallInternal args next =>
      let '(out, w) := internalAPI zero tokenKey h args w in
      run_guest zero tokenKey h (next out) w
  end.

(** ** ServeHTTP *)

Definition guest_header (h : Header) (token : string) : Header :=
  h_Set (h_Del (h_Del h "Cookie") caller_token_header) caller_token_header token.

(** [serveAsset]. *)
Definition serveAsset {R} (asset : string -> option string) (path : string) : DashResponse R :=
  match asset (trim_prefix path (dashboardPrefix +:+ "/")) with
  | Some content => DashAsset content
  | None => DashNotFound
  end.

Definition dashboard_ServeHTTP {P R} (zero : User) (NewPool : string -> result string P) (watchDisk : bool)
    (guest : P -> GuestRequest -> GuestRun R) (asset : string -> option string)
    (tokenKey : string) (h : Handler) (look read stat : ServerFile) (r : DashRequest)
    (s : DashState P) (w : World) : DashResponse R * DashState P * World :=
  if dr_Path r == dashboardPrefix +:+ "/" then (DashRedirect 301 dashboardPrefix, s, w)
  else if has_prefix (dr_Path r) assetsPrefix then (serveAsset asset (dr_Path r), s, w)
  else
    match AuthenticateSessionCookie (h_Auth h) (dr_Auth r) w with
    | (Err _, w) =>
        if negb (dr_LoginError r == "") then (LoginFailedPage (htmlEscape (dr_LoginError r)), s, w)
        else (DashRedirect 302 (LoginURL (dr_RequestURI r)), s, w)
    | (Ok actor, w) =>
        let u := ac_User actor in
        if bool_decide (u_Status u = UserStatusPending)
        then (PendingApprovalPage (htmlEscape (pending_identity u)) (u_CreatedAt u), s, w)
        else
          match ensurePool NewPool watchDisk s look read stat with
          | (Err e, s) => (NotBuiltPage (htmlEscape e), s, w)
          | (Ok pool, s) =>
              let token := signCallerToken tokenKey (claims_of u (now w)) in
              let q := mkGuestRequest (r_Method (dr_Auth r)) (dr_RequestURI r) (guest_header (dr_Header r) token) in
              let '(resp, w) := run_guest zero tokenKey h (guest pool q) w in
              (Rendered resp, s, w)
          end
    end.

(** ** The caller token *)

Lemma caller_decodes c : int64 (cl_IssuedAt c) ->
  dec_object dec_caller no_claims (JObj (caller_fields c)) = Some c.
Proof.
  intros Hi. destruct c as [a b d e i]. unfold int64 in Hi. simpl in Hi.
  unfold dec_object, dec_caller, field, caller_fields. simpl. unfold dec_int.
  by rewrite (proj2 (Z.leb_le _ _) (proj1 Hi)), (proj2 (Z.leb_le _ _) (proj2 Hi)).
Qed.

Lemma caller_token_opens key c n : json_ok (JObj (caller_fields c)) = true -> int64 (cl_IssuedAt c) ->
  verifyCallerToken key n (signCallerToken key c)
  = (guard! negb (cl_UserID c == "") else CallerNoUser in
     guard! n - fromUnix (cl_IssuedAt c) <=? callerTokenTTL else CallerExpired in Ok c).
Proof.
  intros Hj Hi. unfold verifyCallerToken, signCallerToken, Signed.seal.
  set (p := json_print _). change ("." +:+ hmacHex key p) with (String "." (hmacHex key p)).
  rewrite (cut_byte_app _ "." _ (b64_no_dot _)). unfold p.
  by rewrite b64_decode_encode, String.eqb_refl, json_parse_print, caller_decodes.
Qed.

(** A token that verifies carries the key's signature, and is young. *)
Lemma caller_token_signed key n token c : verifyCallerToken key n token = Ok c ->
  (exists p payload, token = p +:+ "." +:+ hmacHex key payload /\ b64_decode p = Some payload)
  /\ cl_UserID c <> "" /\ n - fromUnix (cl_IssuedAt c) <= callerTokenTTL.
Proof.
  unfold verifyCallerToken. intros H. destruct (cut_byte token ".") as [[p sig] []] eqn:Ec; [|done].
  apply cut_byte_found in Ec as [-> _]. destruct (b64_decode p) as [payload|] eqn:Eb; [|done].
  destruct (hmacHex key payload == sig) eqn:Es; [|done]. bool_facts. subst sig.
  destruct (json_parse payload) as [j|]; [|done]. destruct (dec_object _ _ j) as [c'|]; [|done].
  case_step H. case_step H. injection H as <-. bool_facts. split_and!; [by exists p, payload|done|done].
Qed.

(** ** Names stay consistent under every route *)

Ltac names_write :=
  intros; unfold insert_workspace, insert_member in *;
  repeat match goal with
         | H : Ok _ = Ok _ |- _ => injection H as ?; subst
         | H : rbind _ _ = Ok _ |- _ => apply rbind_ok in H as (? & ? & H)
         | H : _ = Ok _ |- _ => case_step H
         end;
  try done; subst; by apply names_inv_same.
Ltac names_step :=
  lazymatch goal with
  | |- preserves _ (Functions_create _ _) => apply Functions_create_names
  | |- preserves _ (Functions_Update _) => apply Functions_Update_names
  | |- preserves _ (Functions_Delete _) => apply Functions_Delete_names
  | |- preserves _ (Store_ActivateVersion _ _) => apply Store_ActivateVersion_names
  | |- preserves _ (insert_login_rules _ _) => apply frame_insert_rules; [exact _|exact _|intros; by apply names_inv_same]
  | |- preserves _ (write _) => apply preserves_write; [exact _|names_write]
  | |- preserves _ (statement _) => apply preserves_statement; [exact _|names_write]
  | _ => frames_step
  end.
Ltac names := repeat names_step.

Lemma route_names h act r : preserves (on_tables names_inv) (route h act r).
Proof.
  unfold route. destruct (splitPath _) as [|s rest]; [names|]. repeat case_goal; names.
Qed.


(** ** What the app's calls may change *)

(** One call made as the user [u]: some changes within what [u] may do at that
    moment. *)
Definition call_as (id email : string) (role : Role) (t t' : Tables) : Prop :=
  exists act, u_ID act = id /\ u_Email act = email /\ u_Role act = role /\ within t act t t'.

(** The app hands on the token of the request with every call. *)
Inductive threads {R} (token : string) : GuestRun R -> Prop :=
| threads_respond r : threads token (Respond r)
| threads_call meth path body next : (forall out, threads token (next out)) ->
    threads token (CallInternal [meth; path; body; token] next).

Lemma internal_within h act meth path body w : row_keys (tbl w) -> names_ok (tbl w) ->
  let w' := (callInternalAPI h act meth path body w).2 in
  within (tbl w) (ac_User act) (tbl w) (tbl w') /\ row_keys (tbl w') /\ names_ok (tbl w').
Proof.
  intros Hk Hn. unfold callInternalAPI. destruct (new_request _ _) as [[m u]|]; [|by split_and!].
  unfold ServeInternal. set (q := mkApiRequest _ _ _ _ _).
  pose proof (route_acts h (ac_User act) q (tbl w) Hk Hn w eq_refl ltac:(reflexivity)) as Hw.
  pose proof (route_names h (ac_User act) q w) as [Hn' _].
  unfold answer. destruct (route h (ac_User act) q w) as [[a|e] w']; simpl in *;
    (split_and!; [exact Hw|by apply (in_keys _ _ _ _ Hw)|by apply Hn']).
Qed.

Lemma parse_role_string r : parse_role (role_string r) = Some r.
Proof. by destruct r. Qed.

Lemma run_within {R} zero key h u n token (g : GuestRun R) :
  json_ok (JObj (caller_fields (claims_of u n))) = true -> int64 (toUnix n) ->
  token = signCallerToken key (claims_of u n) -> threads token g ->
  forall w, row_keys (tbl w) -> names_ok (tbl w) ->
  rtc (call_as (u_ID u) (u_Email u) (u_Role u)) (tbl w) (tbl (run_guest zero key h g w).2).
Proof.
  intros Hj Hi Htok Hg. induction Hg as [r|meth path body next _ IH]; intros w Hk Hn; simpl; [apply rtc_refl|].
  unfold bind, lift, time_Now, get. subst token. rewrite caller_token_opens by done. simpl.
  destruct (u_ID u == ""); simpl; [by apply IH|]. destruct (_ <=? _); simpl; [|by apply IH].
  set (act := mkAuthActor _ _ _). pose proof (internal_within h act meth path body w Hk Hn) as (Hw & Hk' & Hn').
  destruct (callInternalAPI h act meth path body w) as [out w']. simpl in *.
  apply rtc_l with (tbl w'); [|by apply IH]. exists (ac_User act). split_and!; try done. simpl. by rewrite parse_role_string.
Qed.

Lemma recent_second n : n - fromUnix (toUnix n) <= callerTokenTTL.
Proof.
  unfold fromUnix, toUnix, callerTokenTTL. pose proof (Z.mod_pos_bound n second ltac:(done)).
  pose proof (Z.div_mod n second ltac:(done)). unfold Minute, Second, second in *. lia.
Qed.

Lemma guest_header_get h token :
  h_Get (guest_header h token) "Cookie" = "" /\ h_Get (guest_header h token) caller_token_header = token.
Proof.
  unfold guest_header, h_Get, h_Set, h_Del. split.
  - rewrite lookup_insert_ne by (vm_compute; discriminate).
    rewrite lookup_delete_ne by (vm_compute; discriminate). by rewrite lookup_delete_eq.
  - by rewrite lookup_insert_eq.
Qed.

(** C30. The dashboard acts for the person in front of it and nobody else. Whatever is
    asked, the tables change by no more than the sliding of a session unless the
    request carries a live session cookie of an active user the login rules admit;
    the app then runs without the request's cookies, under a token for that user
    which replaces any the client sent, and as long as it hands that token on, all
    its in-process calls together are a sequence of changes each within what that
    user, in the role held at the request, may do at that moment. A user who awaits
    approval never reaches the app. *)
Theorem dashboard_within_authority {P R} zero NewPool watchDisk (guest : P -> GuestRequest -> GuestRun R) asset
    key h look read stat r s w resp s' w'
    (Hkeys : row_keys (tbl w)) (Hnames : names_ok (tbl w)) (Hclock : int64 (toUnix (now w)))
    (Htext : forall k u, t_users (tbl w) !! k = Some u -> json_ok (JObj (caller_fields (claims_of u (now w)))) = true)
    (Hguest : forall p q, threads (h_Get (gr_Header q) caller_token_header) (guest p q))
    (H : dashboard_ServeHTTP zero NewPool watchDisk guest asset key h look read stat r s w = (resp, s', w')) :
  (sessions_only (tbl w) (tbl w') /\ forall x, resp <> Rendered x)
  \/ exists ac w1 pool q x, AuthenticateSessionCookie (h_Auth h) (dr_Auth r) w = (Ok ac, w1)
       /\ sessions_only (tbl w) (tbl w1)
       /\ u_Status (ac_User ac) = UserStatusActive
       /\ EvaluateLoginRules (rules_of (tbl w)) (u_Email (ac_User ac)) = true
       /\ h_Get (gr_Header q) "Cookie" = ""
       /\ verifyCallerToken key (now w1) (h_Get (gr_Header q) caller_token_header)
          = (if u_ID (ac_User ac) == "" then Err CallerNoUser else Ok (claims_of (ac_User ac) (now w1)))
       /\ resp = Rendered x /\ run_guest zero key h (guest pool q) w1 = (x, w')
       /\ rtc (call_as (u_ID (ac_User ac)) (u_Email (ac_User ac)) (u_Role (ac_User ac))) (tbl w1) (tbl w').
Proof.
  unfold dashboard_ServeHTTP in H. case_step H; [left; injection H as <- _ <-; by split|].
  case_step H.
  { left. unfold serveAsset in H. destruct (asset _); injection H as <- _ <-; by split. }
  pose proof (session_frame (h_Auth h) (dr_Auth r) w) as Hf. unfold on_tables in Hf.
  destruct (AuthenticateSessionCookie (h_Auth h) (dr_Auth r) w) as [[ac|e] w1] eqn:Ea; simpl in Hf.
  2:{ left. case_step H; injection H as <- _ <-; by split. }
  apply session_actor_ok in Ea as Hau. destruct Hau as ([Hst Hr] & _ & _ & _ & _ & se & _ & _ & _ & _ & Hu).
  pose proof (preserves_at _ _ _ _ _ (session_now_invoke _ _) Ea) as Hn1. unfold same_now in Hn1.
  destruct (sessions_only_keys _ _ Hf) as [Hk Hn].
  destruct (bool_decide (u_Status (ac_User ac) = UserStatusPending)) eqn:Ep; bool_facts.
  { left. injection H as <- _ <-. by split. }
  destruct (ensurePool NewPool watchDisk s look read stat) as [[pool|e] s1].
  2:{ left. injection H as <- _ <-. by split. }
  set (q := mkGuestRequest _ _ _) in H. destruct (guest_header_get (dr_Header r)
    (signCallerToken key (claims_of (ac_User ac) (now w1)))) as [Hc Ht].
  destruct (run_guest zero key h (guest pool q) w1) as [x w2] eqn:Eg. injection H as <- _ <-.
  right. exists ac, w1, pool, q, x. specialize (Htext _ _ Hu). rewrite <- Hn1 in Htext, Hclock.
  split_and!; try done; [by destruct (u_Status (ac_User ac))|..].
  - subst q. cbn [gr_Header]. rewrite Ht, caller_token_opens by done. unfold claims_of. simpl. destruct (u_ID (ac_User ac) == ""); [done|]. simpl.
    rewrite (proj2 (Z.leb_le _ _)); [done|]. apply recent_second.
  - pose proof (run_within zero key h (ac_User ac) (now w1) _ (guest pool q) Htext Hclock eq_refl) as Hw.
    rewrite <- Ht in Hw. specialize (Hw (Hguest pool q) w1 (Hk Hkeys) (Hn Hnames)). by rewrite Eg in Hw.
Qed.

End Hosting.

(** ** The pool and the file *)

(** The pool at hand was built from the file as it was at the time noted. *)
Definition built_from {P} (NewPool : string -> result string P) (content : Time -> string) (s : DashState P) : Prop :=
  forall p, ds_pool s = Some p -> exists t, ds_builtModTime s = Some t /\ NewPool (content t) = Ok p.

Lemma build_failed_stays {P} (NewPool : string -> result string P) watch s l r st e s' :
  ensurePool NewPool watch s l r st = (Err e, s') ->
  forall l r st, ensurePool NewPool watch s' l r st = (Err e, s').
Proof.
  assert (forall m, let s0 := mkDashState None (Some e) m in
    forall l r st, ensurePool NewPool watch s0 l r st = (Err e, s0)) as Hstuck.
  { intros m s0 l' r' st'. unfold ensurePool, watched. simpl. by destruct watch. }
  unfold ensurePool. intros H. destruct (watched watch s l) as [pool err m] eqn:Ew. simpl in H.
  destruct pool as [p|]; [done|]. destruct err as [e'|]; [injection H as <- <-; apply Hstuck|].
  destruct (sf_Source r) as [src|]; [|injection H as <- <-; apply Hstuck].
  destruct (NewPool src); [done|]. injection H as <- <-. apply Hstuck.
Qed.

(** With the dashboard on disk, a request that finds the file at rest is served
    by a pool built from the file as it is now, whatever it was when the pool at
    hand was built; but once a build has failed, every later request fails with
    that same error, whatever becomes of the file. *)
Theorem pool_follows_file {P} (NewPool : string -> result string P) content s t
    (Hs : built_from NewPool content s) :
  let f := mkServerFile (Some (content t)) (Some t) in
  match ensurePool NewPool true s f f f with
  | (Ok p, s') => NewPool (content t) = Ok p /\ built_from NewPool content s'
  | (Err e, s') => forall look read stat, ensurePool NewPool true s' look read stat = (Err e, s')
  end.
Proof.
  intros f. destruct (ensurePool NewPool true s f f f) as [[p|e] s'] eqn:E; [|by eapply build_failed_stays].
  assert (forall m, match NewPool (content t) with
                    | Ok p => (Ok p, mkDashState (Some p) None (Some t))
                    | Err e => (Err ("dashboard: failed to start dashboard app: " +:+ e),
                                mkDashState None (Some ("dashboard: failed to start dashboard app: " +:+ e)) m)
                    end = (Ok p, s') -> NewPool (content t) = Ok p /\ built_from NewPool content s') as Hbuild.
  { intros m Hb. destruct (NewPool (content t)) as [q|] eqn:Eq; [|done]. injection Hb as <- <-.
    split; [done|]. intros q' [= <-]. by exists t. }
  unfold ensurePool, watched in E. destruct s as [pool err m]. simpl in E. destruct pool as [p0|]; simpl in E.
  - destruct (bool_decide (Some t = m)) eqn:Em; simpl in E; [|by eapply Hbuild]. bool_facts.
    injection E as <- <-. destruct (Hs p0 eq_refl) as (t0 & Ht & Hp). simpl in Ht. rewrite <- Em in Ht.
    injection Ht as <-. by split.
  - destruct err; [done|by eapply Hbuild].
Qed.

(** ** Witnesses *)

(** An app that asks who it serves and shows the status of the answer. *)
Definition asking_app (p : unit) (q : GuestRequest) : GuestRun Z :=
  CallInternal ["GET"; "/me"; ""; h_Get (gr_Header q) caller_token_header]
    (fun out => Respond (match out with Ok (status, _) => status | Err _ => 0 end)).

(** Bob's browser opens the dashboard with a token of its own making. *)
Definition bob_opens : DashRequest :=
  mkDashRequest (browser_request "GET" "" "") "/dashboard/functions" "/dashboard/functions" ""
    (h_Set (h_Set ∅ "Cookie" "s=1") caller_token_header "forged").
Definition build_any (src : string) : result string unit := if src == "" then Err "no default export" else Ok tt.
Definition app_file : ServerFile := mkServerFile (Some "export default {}") (Some 5).

Abbreviation bob_dashboard :=
  (dashboard_ServeHTTP (U := ascii_tables) (F := amd64_float_to_int) (Y := one_doc_decoder) (A := sample_codec)
    (J := numeral_json) (S := sample_stream) (N := sample_any) (MR := sample_reader) (I := unary_ids)
    (C := clear_cipher) alice build_any true asking_app (fun _ => None) "k-caller" sample_api
    app_file app_file app_file bob_opens (mkDashState None None None) session_world).

Lemma bob_dashboard_runs : bob_dashboard = (bob_dashboard.1.1, bob_dashboard.1.2, bob_dashboard.2).
Proof. by destruct bob_dashboard as [[]]. Qed.

Lemma bob_dashboard_answer : bob_dashboard.1.1 = Rendered 200.
Proof. vm_compute. reflexivity. Qed.

Lemma session_users_plain k u : t_users (tbl session_world) !! k = Some u ->
  json_ok (JObj (caller_fields (claims_of u (now session_world)))) = true.
Proof.
  intros H. cbn in H. repeat (apply lookup_insert_Some in H as [[<- <-]|[_ H]]; [vm_compute; reflexivity|]).
  apply lookup_singleton_Some in H as [<- <-]. vm_compute. reflexivity.
Qed.

Lemma asking_threads p q : threads (h_Get (gr_Header q) caller_token_header) (asking_app p q).
Proof. constructor. intros out. constructor. Qed.

Lemma dashboard_within_authority_witness :
  exists w1, rtc (call_as "U2" "bob@example.com" RoleMember) (tbl w1) (tbl bob_dashboard.2).
Proof.
  destruct (dashboard_within_authority (U := ascii_tables) (F := amd64_float_to_int) (Y := one_doc_decoder)
    (A := sample_codec) (J := numeral_json) (S := sample_stream) (N := sample_any) (MR := sample_reader)
    (I := unary_ids) (C := clear_cipher) alice build_any true asking_app (fun _ => None) "k-caller" sample_api
    app_file app_file app_file bob_opens (mkDashState None None None) session_world _ _ _ sample_keys
    ltac:(split; simpl; intros *; by rewrite ?lookup_empty) ltac:(vm_compute; split; discriminate)
    session_users_plain asking_threads bob_dashboard_runs)
    as [[_ Hno]|(ac & w1 & pool & q & x & Ha & _ & _ & _ & _ & _ & _ & _ & Hrtc)].
  - exfalso. exact (Hno _ bob_dashboard_answer).
  - assert (ac = mkAuthActor bob MethodSession "t0") as -> by (vm_compute in Ha; injection Ha as <- _; reflexivity).
    exists w1. exact Hrtc.
Defined.

(** A file that is empty at first: mending it does not help. *)
Definition file_times (t : Time) : string := if t =? 5 then "" else "export default {}".

Lemma pool_follows_file_witness :
  exists e s', ensurePool build_any true (mkDashState None None None)
                 (mkServerFile (Some (file_times 5)) (Some 5)) (mkServerFile (Some (file_times 5)) (Some 5))
                 (mkServerFile (Some (file_times 5)) (Some 5)) = (Err e, s')
    /\ ensurePool build_any true s' app_file app_file app_file = (Err e, s').
Proof.
  pose proof (pool_follows_file build_any file_times (mkDashState None None None) 5
    ltac:(intros p [=])) as H.
  eexists _, _. split; [reflexivity|]. exact (H app_file app_file app_file).
Defined.
