(* ===== verification/Mcp.v ===== *)
(** * Mcp: the tools of the MCP server

    Models src/server/internal/mcpserver: mcpserver.go's authentication and tool
    registration, and the tools on users, the organization, the audit log,
    devices and workspaces. The tools on functions are in [McpFunctions], the
    table of sessions in [McpSessions]. The library that speaks the protocol
    decodes a call's arguments and hands over the [Authorization] header of that
    very call; a tool answers with JSON or with the text of an error. *)

From stdpp Require Import sorting.
From S2P Require Import Prelude GoNum GoTime GoURL Manifest Types Authz Settings Store StoreCreds Service.
From S2P Require Import Tokens Sessions CLIAuth Functions Api ApiWorkspaces ApiMe.

(** ** mcpserver.go *)

(** The text of a failed call: a message of its own, or that of the use case's
    error, with the hint of [deployToolError] or without. *)
Inductive ToolError :=
| ErrorText (m : Msg)
| ServiceMessage (e : Error)
| ManifestHint (e : Error).

Definition errors_New (s : string) : ToolError := ErrorText (Text s).

(** [toolError]: the use cases answer with [service.Error]s only. *)
Definition toolError (e : Error) : ToolError := ServiceMessage e.

Definition tool_refuse {A} (s : string) : M ToolError A := throw (errors_New s).

Section Mcp.
Context {U : UnicodeTables} {J : JsonText} {S : JsonStream} {N : JsonAny} {I : IdGen}.

(** [a] is [h.auth]; [hdr] the value of [Authorization]. *)
Definition authenticateHeader (a : Auth) (hdr : string) : M AuthErr User :=
  let raw := trim_prefix hdr "Bearer " in
  if negb (has_prefix hdr "Bearer ") || negb (has_prefix raw AccessTokenPrefix) then throw ErrUnauthenticated
  else
    do! n <- time_Now;
    match AccessTokenAudience a n raw with
    | None => throw ErrUnauthenticated
    | Some aud =>
        if negb (aud == "") && negb (aud == AudienceMCP) then throw ErrUnauthenticated
        else
          do! u <- authenticateAccessToken a raw;
          if bool_decide (u_Status u = UserStatusPending) then throw ErrUnauthenticated else ret u
    end.

Definition authentication_required : ToolError := errors_New "authentication required".

(** Every tool's first statement. *)
Definition requireActor (a : Auth) (hdr : string) : M ToolError User :=
  or_err (fun _ => authentication_required) (authenticateHeader a hdr).

(** [ServeHTTP]: 401 with the address of the metadata, or on to the library as
    the user. *)
Inductive McpAnswer := Challenge (www_authenticate : string) | ToLibrary (u : User).

Definition write401 (controlOrigin : string) : McpAnswer :=
  Challenge ("Bearer resource_metadata=" +:+ quoted (trim_suffix controlOrigin "/"
              +:+ "/.well-known/oauth-protected-resource")).

Definition ServeHTTP_mcp {E} (a : Auth) (controlOrigin hdr : string) : M E McpAnswer :=
  do! r <- attempt (authenticateHeader a hdr);
  ret (match r with Ok u => ToLibrary u | Err _ => write401 controlOrigin end).

Definition Enabled {E} : M E bool :=
  do! o <- attempt Organizations_Get;
  ret (match o with
       | Err _ => false
       | Ok o => match ParseOrg (o_Settings o) with Ok s => McpEnabled s | Err _ => false end
       end).

Definition is_org_admin (u : User) : bool := CanUpdateOrgSettings (actor_of u).

(** [registerTools]: the names a session of [u] lists. The blob store and the
    invoker may be missing. *)
Definition users_tools : list string :=
  ["list_users"; "approve_user"; "reject_user"; "set_user_role"; "set_user_status"].
Definition functions_tools (blob invoker : bool) : list string :=
  ["list_functions"; "get_function"; "deploy_function"]
  ++ (if blob then ["get_function_files"] else []) ++ (if invoker then ["invoke_function"] else [])
  ++ ["get_function_logs"; "rollback_function"; "delete_function"].
Definition workspaces_tools : list string :=
  ["list_workspaces"; "create_workspace"; "get_workspace"; "add_workspace_member";
   "set_workspace_member_role"; "remove_workspace_member"].
Definition org_tools : list string :=
  ["get_org_settings"; "update_org_settings"; "list_login_rules"; "replace_login_rules"].
Definition audit_tools : list string := ["list_audit_logs"].
Definition devices_tools : list string := ["list_connected_devices"; "revoke_device"].

Definition registerTools (blob invoker : bool) (u : User) : list string :=
  let for_admin l := if is_org_admin u then l else [] in
  for_admin users_tools ++ functions_tools blob invoker ++ workspaces_tools ++ for_admin org_tools
  ++ for_admin audit_tools ++ devices_tools.

Section Tools.
Context (a : Auth) (hdr : string).

(** ** tools_users.go *)

Definition toUserResult (u : User) : json :=
  JObj [("id", JStr (u_ID u)); ("email", JStr (u_Email u)); ("name", JStr (u_Name u));
        ("role", JStr (role_string (u_Role u))); ("status", JStr (status_string (u_Status u)));
        ("created_at", JStr (Format_RFC3339 0 (u_CreatedAt u)))].

Definition validUserStatus (s : string) : bool := bool_decide (is_Some (parse_status s)).

Definition listUsersHandler (status : string) : M ToolError json :=
  do! u <- requireActor a hdr;
  if negb (status == "") && negb (validUserStatus status) then
    tool_refuse ("status must be " +:+ quoted "active" +:+ ", " +:+ quoted "pending" +:+ ", or " +:+ quoted "disabled")
  else
    do! users <- or_err toolError (ListUsers u);
    ret (JObj [("users", JArr (map toUserResult
           (List.filter (fun v => (status == "") || (status_string (u_Status v) == status)) users)))]).

Definition set_status (status : UserStatus) (userID : string) : M ToolError json :=
  do! u <- requireActor a hdr;
  if userID == "" then tool_refuse "user_id is required"
  else
    do! x <- or_err toolError (PatchUser u userID None (Some (status_string status)));
    ret (toUserResult x.1).

Definition approveUserHandler : string -> M ToolError json := set_status UserStatusActive.
Definition rejectUserHandler : string -> M ToolError json := set_status UserStatusDisabled.

Definition setUserRoleHandler (userID role : string) : M ToolError json :=
  do! u <- requireActor a hdr;
  if (userID == "") || (role == "") then tool_refuse "user_id and role are both required"
  else
    do! x <- or_err toolError (PatchUser u userID (Some role) None);
    ret (toUserResult x.1).

Definition setUserStatusHandler (userID status : string) : M ToolError json :=
  do! u <- requireActor a hdr;
  if (userID == "") || (status == "") then tool_refuse "user_id and status are both required"
  else
    do! x <- or_err toolError (PatchUser u userID None (Some status));
    ret (toUserResult x.1).

(** ** tools_org.go *)

Definition org_out (x : string * Org * Z) : list (string * json) :=
  [("name", JStr x.1.1); ("settings", org_json x.1.2); ("settings_gen", JInt x.2)].

Definition getOrgSettingsHandler : M ToolError json :=
  do! u <- requireActor a hdr;
  if negb (is_org_admin u) then tool_refuse "organization admin required"
  else
    do! x <- or_err toolError GetOrgSettings;
    ret (JObj (org_out x)).

(** [settings] holds the members of the argument, which is decoded to a map and
    printed again. *)
Definition updateOrgSettingsHandler (settings : list (string * json)) : M ToolError json :=
  do! u <- requireActor a hdr;
  match settings with
  | [] => tool_refuse "settings is required (a JSON object with the fields to change)"
  | _ =>
      do! x <- or_err toolError (UpdateOrgSettings u (json_print (json_any (JObj settings))));
      ret (JObj (org_out x.1 ++ (if x.2 : bool then [("open_mode_just_enabled", JBool true)] else [])))
  end.

Definition listLoginRulesHandler : M ToolError json :=
  do! u <- requireActor a hdr;
  if negb (is_org_admin u) then tool_refuse "organization admin required"
  else
    do! rules <- or_err toolError ListLoginRules;
    ret (JObj [("login_rules", JArr (map loginRuleDTO rules))]).

Definition replaceLoginRulesHandler (input : option (list LoginRuleInput)) : M ToolError json :=
  do! u <- requireActor a hdr;
  do! rules <- or_err toolError (ReplaceLoginRules u input);
  ret (JObj [("login_rules", JArr (map loginRuleDTO rules))]).

(** ** tools_audit.go *)

Definition listAuditLogsHandler (cursor : string) (limit : Z) (action userID : string) : M ToolError json :=
  do! u <- requireActor a hdr;
  do! x <- or_err toolError (ListAuditLogs u cursor limit);
  let chosen := List.filter (fun l => ((action == "") || (al_Action l == action))
                                      && ((userID == "") || (al_ActorID l == userID))) x.1 in
  ret (JObj ([("audit_logs", JArr (map AuditLogDTO chosen))] ++ opt_str "next_cursor" x.2)).

(** ** tools_devices.go *)

Definition deviceInfoResult (d : DeviceInfo) : json :=
  obj [("id", JStr (d_ID d)); ("kind", JStr (match d_Kind d with KindCLI => "cli" | KindOAuth => "oauth" end));
       ("name", JStr (d_Name d)); ("created_at", JStr (json_time (d_CreatedAt d)));
       ("last_used_at", match d_LastUsedAt d with Some t => JStr (json_time t) | None => JNull end)].

Definition listConnectedDevicesHandler : M ToolError json :=
  do! u <- requireActor a hdr;
  do! devices <- or_err toolError (ListDevices u);
  ret (JObj [("devices", JArr (map deviceInfoResult devices))]).

Definition revokeDeviceHandler (kind id : string) : M ToolError json :=
  do! u <- requireActor a hdr;
  if (kind == "") || (id == "") then tool_refuse "kind and id are both required"
  else if negb (kind == "cli") && negb (kind == "oauth") then
    tool_refuse ("kind must be " +:+ quoted "cli" +:+ " or " +:+ quoted "oauth")
  else
    run! or_err toolError (RevokeDevice u kind id false);
    ret (JObj [("revoked", JBool true)]).

(** ** tools_workspaces.go *)

Definition workspace_summary (x : Workspace) : list (string * json) :=
  [("id", JStr (w_ID x)); ("name", JStr (w_Name x)); ("settings_gen", JInt (w_SettingsGen x));
   ("created_at", JStr (json_time (w_CreatedAt x)))].

Definition mcp_workspaceDTO (x : Workspace) (members : list WorkspaceMember) : json :=
  obj (workspace_summary x ++ [("members", JArr (map memberDTO members))]).

Definition listWorkspacesHandler : M ToolError json :=
  do! u <- requireActor a hdr;
  do! wss <- or_err toolError (ListWorkspaces u);
  ret (JObj [("workspaces", JArr (map (fun x => obj (workspace_summary x)) wss))]).

Definition createWorkspaceHandler (name : string) : M ToolError json :=
  do! u <- requireActor a hdr;
  if name == "" then tool_refuse "name is required"
  else
    do! x <- or_err toolError (CreateWorkspace u name);
    ret (mcp_workspaceDTO x [mkWorkspaceMember (w_ID x) (u_ID u) RoleAdmin 0 0]).

Definition getWorkspaceHandler (workspaceID : string) : M ToolError json :=
  do! u <- requireActor a hdr;
  if workspaceID == "" then tool_refuse "workspace_id is required"
  else
    do! x <- or_err toolError (GetWorkspace u workspaceID);
    ret (mcp_workspaceDTO x.1.1 x.2).

(** Both [add_workspace_member] and [set_workspace_member_role]. *)
Definition setWorkspaceMemberHandler (workspaceID userID role : string) : M ToolError json :=
  do! u <- requireActor a hdr;
  if (workspaceID == "") || (userID == "") || (role == "") then
    tool_refuse "workspace_id, user_id, and role are all required"
  else
    run! or_err toolError (SetWorkspaceMember u workspaceID userID role);
    ret (obj [("user_id", JStr userID); ("role", JStr role)]).

Definition removeWorkspaceMemberHandler (workspaceID userID : string) : M ToolError json :=
  do! u <- requireActor a hdr;
  if (workspaceID == "") || (userID == "") then tool_refuse "workspace_id and user_id are both required"
  else
    run! or_err toolError (RemoveWorkspaceMember u workspaceID userID);
    ret (JObj [("removed", JBool true)]).
End Tools.
End Mcp.
