(* ===== verification/McpFunctions.v ===== *)
(** * McpFunctions: the MCP tools on functions

    Models src/server/internal/mcpserver/tools_functions.go: listing, reading,
    deploying from a map of files, reading the files back, invoking, the logs,
    rolling back and deleting. Encoding a typed manifest as YAML is a function of
    the YAML library; what an invocation runs is the engine's, as in [Invoke]. *)

From stdpp Require Import sorting.
From S2P Require Import Prelude GoNum GoTime GoURL GoHTTP Response Policy Capture Manifest Bundle Types Authz.
From S2P Require Import Settings Store StoreCreds Digest Service Tokens Sessions CLIAuth Functions.
From S2P Require Import InvokeSSO Effective Invoke Api ApiFunctions Mcp.

Definition getFunctionFilesBudget : Z := Z.shiftl 2 20.
Definition invokeFunctionBodyCap : Z := Z.shiftl 1 20.
Definition invokeTokenTTL : Z := 5 * Minute.

(** ** Arguments *)

Record deployFileIn := mkFileIn { fi_Path : string; fi_Content : string; fi_Encoding : string }.

Record deployManifestIn := mkManifestIn {
  mi_Name : string; mi_Main : string; mi_Description : string; mi_Timeout : string; mi_Memory : string;
  mi_Env : list string; mi_Visibility : string;
  mi_Compat : option bool;                                  (** [compat.nodejs] *)
  mi_Permissions : option (option (string * list string))   (** [permissions.fetch]: mode and allow *)
}.

Record deployFunctionIn := mkDeployIn {
  di_Owner : string; di_Name : string; di_Note : string; di_DryRun : bool;
  di_Files : list deployFileIn; di_Manifest : option deployManifestIn
}.

(** [if_Query] is a map; [if_Headers] lists a map in the order it is ranged over. *)
Record invokeFunctionIn := mkInvokeIn {
  if_Owner : string; if_Name : string; if_Method : string; if_Path : string;
  if_Query : gmap string string; if_Headers : list (string * string);
  if_Body : string; if_BodyEncoding : string
}.

(** ** Text or base64 *)

(** An [encoding] and the content in it: text when the bytes are valid UTF-8. *)
Definition encode_content (data : string) : string * string :=
  if ValidString data then ("utf8", data) else ("base64", Std_Encode data).

(** What the content of an argument stands for. *)
Inductive content := Bytes (data : string) | BadBase64 | BadEncoding.
Definition decode_content (encoding text : string) : content :=
  if (encoding == "") || (encoding == "utf8") then Bytes text
  else if encoding == "base64" then match decodeBase64 text with Some d => Bytes d | None => BadBase64 end
  else BadEncoding.

(** ** deploy_function *)

Definition manifestFileNames : list string := ["funcbox.yaml"; "funcbox.yml"; "funcbox.json"].

Definition conflictingManifestFile (files : gmap string string) : option string :=
  List.find (fun name => bool_decide (is_Some (files !! name))) manifestFileNames.

Definition tool_error (format : string) (args : list string) : ToolError := ErrorText (Fmt format args).

(** The map of the files and the sum of their sizes. *)
Fixpoint file_map (l : list deployFileIn) (files : gmap string string) (totalSize : Z)
    : result ToolError (gmap string string * Z) :=
  match l with
  | [] => Ok (files, totalSize)
  | f :: l =>
      if fi_Path f == "" then Err (errors_New "every file requires a non-empty path")
      else if bool_decide (is_Some (files !! fi_Path f)) then
        Err (tool_error "duplicate file path %q" [fi_Path f])
      else
        match decode_content (fi_Encoding f) (fi_Content f) with
        | Bytes data => file_map l (<[fi_Path f := data]> files) (totalSize + str_len data)
        | BadBase64 => Err (tool_error "file %q: invalid base64 content" [fi_Path f])
        | BadEncoding => Err (tool_error ("file %q: encoding must be " +:+ quoted "utf8" +:+ " or " +:+ quoted "base64") [fi_Path f])
        end
  end.

(** [deployToolError]. *)
Definition deployToolError (usedTypedManifest : bool) (e : Error) : ToolError :=
  if negb usedTypedManifest && (Code e == "manifest_parse_error") then ManifestHint e else toolError e.

(** ** get_function_files *)

Record functionFileOut := mkFileOut { fo_Path : string; fo_Size : Z; fo_Encoding : string; fo_Content : string }.

Definition fileEntry (path data : string) (includeContent : bool) : functionFileOut :=
  if includeContent then
    let '(encoding, text) := encode_content data in mkFileOut path (str_len data) encoding text
  else mkFileOut path (str_len data) "" "".

(** The entries of the paths in order, within the budget, and whether one was left
    without its content. *)
Fixpoint list_files (files : gmap string string) (paths : list string) (used : Z)
    : list functionFileOut * bool :=
  match paths with
  | [] => ([], false)
  | p :: paths =>
      let data := default "" (files !! p) in
      let include := used + str_len data <=? getFunctionFilesBudget in
      let '(out, truncated) := list_files files paths (if include then used + str_len data else used) in
      (fileEntry p data include :: out, negb include || truncated)
  end.

Definition sorted_paths (files : gmap string string) : list string := merge_sort str_le (map fst (map_to_list files)).

Record filesOut := mkFilesOut { fs_Files : list functionFileOut; fs_Truncated : bool; fs_Note : bool }.

Definition all_files (files : gmap string string) : filesOut :=
  let '(out, truncated) := list_files files (sorted_paths files) 0 in mkFilesOut out truncated truncated.

(** ** The recorder of a response *)

(** [boundedInvokeRecorder], and the calls made on a response writer. *)
Record recorder := mkRecorder {
  rec_header : Header; rec_status : Z; rec_wroteHead : bool; rec_body : string; rec_cap : Z; rec_total : Z
}.

Definition newBoundedInvokeRecorder (cap : Z) : recorder := mkRecorder ∅ 200 false "" cap 0.

Definition rec_WriteHeader (r : recorder) (status : Z) : recorder :=
  if rec_wroteHead r then r
  else mkRecorder (rec_header r) status true (rec_body r) (rec_cap r) (rec_total r).

Definition rec_Write (r : recorder) (p : string) : recorder :=
  let r := if rec_wroteHead r then r else rec_WriteHeader r 200 in
  let room := rec_cap r - str_len (rec_body r) in
  let kept := if 0 <? room then str_take (Z.to_nat (Z.min room (str_len p))) p else "" in
  mkRecorder (rec_header r) (rec_status r) (rec_wroteHead r) (rec_body r +:+ kept) (rec_cap r)
    (rec_total r + str_len p).

Definition rec_truncated (r : recorder) : bool := rec_cap r <? rec_total r.

Inductive writer_call := SetHeaders (h : Header) | CallWriteHeader (code : Z) | CallWrite (b : string).

Definition rec_call (r : recorder) (c : writer_call) : recorder :=
  match c with
  | SetHeaders h => mkRecorder h (rec_status r) (rec_wroteHead r) (rec_body r) (rec_cap r) (rec_total r)
  | CallWriteHeader code => rec_WriteHeader r code
  | CallWrite b => rec_Write r b
  end.
Definition rw_call (w : ResponseWriter) (c : writer_call) : ResponseWriter :=
  match c with
  | SetHeaders h => rw_set_header w h
  | CallWriteHeader code => rw_WriteHeader w code
  | CallWrite b => rw_Write w b
  end.

(** The calls [invokeResponseWriter] passes on to the writer below it. *)
Definition header_calls (w : invokeResponseWriter) (code : Z) : list writer_call :=
  if iw_wroteHeader w then []
  else
    let h := h_DelPrefix (rw_Header (iw_rw w)) "X-Funcbox-" in
    if (code =? 500) && iw_expired w then
      [SetHeaders (h_Set h "Content-Type" "application/json; charset=utf-8"); CallWriteHeader 504;
       CallWrite timeout_body]
    else [SetHeaders h; CallWriteHeader code].

Definition forwarded (w : invokeResponseWriter) (a : action) : list writer_call :=
  match a with
  | AddHeader k v => [SetHeaders (h_Add (rw_Header (iw_rw w)) k v)]
  | SetHeader k v => [SetHeaders (h_Set (rw_Header (iw_rw w)) k v)]
  | DelHeader k => [SetHeaders (h_Del (rw_Header (iw_rw w)) k)]
  | WriteHeader code => header_calls w code
  | Write b =>
      let w' := if iw_wroteHeader w then w else iw_WriteHeader w 200 in
      header_calls w 200 ++ (if iw_swapped w' then [] else [CallWrite b])
  | Expire => []
  end.

Fixpoint forwarded_all (w : invokeResponseWriter) (acts : list action) : list writer_call :=
  match acts with
  | [] => []
  | a :: acts => forwarded w a ++ forwarded_all (iw_step w a) acts
  end.

(** What the recorder holds after a run of the guest. *)
Definition record_run (cap : Z) (acts : list action) : recorder :=
  fold_left rec_call (forwarded_all (new_iw (rw_set_header new_writer ∅)) acts) (newBoundedInvokeRecorder cap).

(** ** Addresses *)

(** [url.URL.RequestURI] of a relative reference, from its text. *)
Definition path_plain (c : ascii) : bool := is_alnum c || contains_byte "-_.~$&+,/:;=@" c.
Definition path_encoded (c : ascii) : bool := path_plain c || contains_byte "!'()*[]%" c.
Fixpoint path_escape (s : string) : string :=
  match s with
  | EmptyString => ""
  | String c r =>
      if path_plain c then String c (path_escape r)
      else String "%" (String (upper_hex (byte_val c / 16)) (String (upper_hex (byte_val c mod 16)) (path_escape r)))
  end.

Definition EscapedPath (path : string) : string :=
  if str_forallb path_encoded path then path else path_escape (default "" (unescape EscPath path)).

Definition path_of_target (p : string) : string :=
  if has_prefix p "//" && negb (has_prefix p "///") then
    match index_byte (str_drop 2 p) "/" with Some i => str_drop i (str_drop 2 p) | None => "" end
  else p.

Definition RequestURI (target : string) : string :=
  let '(raw, _, _) := cut_byte target "#" in
  let '(p, q, found) := cut_byte raw "?" in
  let path := EscapedPath (path_of_target p) in
  (if path == "" then "/" else path) +:+ (if found : bool then "?" +:+ q else "").

Definition pair_le (x y : string * string) : Prop := String.leb x.1 y.1 = true.
#[export] Instance pair_le_dec : RelDecision pair_le.
Proof. intros x y. unfold pair_le. apply _. Defined.

(** [url.Values.Encode] of one value per key. *)
Definition Values_Encode (q : gmap string string) : string :=
  join_with "&" (map (fun kv => QueryEscape kv.1 +:+ "=" +:+ QueryEscape kv.2)
                   (merge_sort pair_le (map_to_list q))).

(** [http.NewRequest] accepts tokens for methods. *)
Definition validMethod (m : string) : bool := negb (m == "") && str_forallb is_token_byte m.

(** ** The handlers *)

Record McpHandler := mkMcpHandler {
  mh_ControlOrigin : string;
  mh_Auth : Auth;
  mh_api : Api.Handler;
  mh_blob : bool;
  mh_invoker : option Invoker
}.

(** What a call gives the library to send: the output of the tool; for an
    invocation that a function never saw, the platform's answer, which the
    recorder holds; or nothing, the handler having panicked. *)
Inductive ToolResult := Structured (j : json) | PlatformAnswer (a : ServeAnswer) | Panics.

Definition file_json (f : functionFileOut) : json :=
  JObj ([("path", JStr (fo_Path f)); ("size", JInt (fo_Size f))]
        ++ opt_str "encoding" (fo_Encoding f) ++ opt_str "content" (fo_Content f)).

Definition truncated_field (b : bool) : list (string * json) := if b then [("truncated", JBool true)] else [].

Definition files_json (x : filesOut) : json :=
  JObj ([("files", JArr (map file_json (fs_Files x)))] ++ truncated_field (fs_Truncated x)
        ++ if fs_Note x then
             [("note", JStr ("response content is capped at " +:+ itoa getFunctionFilesBudget
                +:+ " bytes decoded; files beyond the budget are listed with path+size only -- fetch one specifically with input {"
                +:+ quoted "file" +:+ ": " +:+ quoted "path" +:+ "}"))]
           else []).

Definition invoke_json (r : recorder) (elapsed : Z) : json :=
  let '(encoding, body) := encode_content (rec_body r) in
  let ct := h_Get (rec_header r) "Content-Type" in
  JObj ([("status", JInt (rec_status r));
         ("headers", JObj ([("content-length", JStr (itoa (rec_total r)))] ++ opt_str "content-type" ct));
         ("body", JStr body); ("body_encoding", JStr encoding)]
        ++ truncated_field (rec_truncated r)
        ++ [("duration_ms", JInt (Z.quot elapsed (10 ^ 6)))]).

Section Tools.
Context {U : UnicodeTables} {F : FloatToInt} {Y : YamlDecoder} {A : ArchiveCodec} {J : JsonText}
  {S : JsonStream} {N : JsonAny} {MR : MultipartReader} {I : IdGen} {C : Cipher}.
Context (toYAML : deployManifestIn -> option string).
Context (verify : string -> option VerifiedToken).
Context {P : Type} (NewPool : PoolConfig -> option P)
  (guest : string -> P -> InvokeRequest -> Z -> GuestRun).
Context (h : McpHandler) (hdr : string).

#[local] Abbreviation actor := (requireActor (mh_Auth h) hdr).

Definition listFunctionsHandler (owner : string) : M ToolError json :=
  do! u <- actor;
  do! dtos <- or_err toolError (ListFunctions (mh_api h) u owner);
  ret (JObj [("functions", JArr dtos)]).

Definition owner_and_name {B} (owner name : string) (k : M ToolError B) : M ToolError B :=
  if (owner == "") || (name == "") then tool_refuse "owner and name are both required" else k.

(** What a failed lookup leaves out. *)
Definition optional_field {B} (name : string) (f : B -> json) (m : M Error B)
    : M ToolError (list (string * json)) :=
  do! r <- attempt m;
  ret (match r with Ok b => [(name, f b)] | Err _ => [] end).

Definition getFunctionHandler (owner name : string) : M ToolError json :=
  do! u <- actor;
  owner_and_name owner name (
    do! f <- or_err toolError (ResolveVisible u owner name);
    do! body <- or_err toolError (functionDTO (mh_api h) f owner);
    do! active <- match f_ActiveVersionID f with
                  | Some _ => optional_field "active_version" versionDTO (ActiveVersion f)
                  | None => ret []
                  end;
    do! levels <- optional_field "fetch_policy_levels" id (FetchPolicyLevels f);
    do! keys <- optional_field "env_keys" (fun ks => JArr (map JStr (merge_sort str_le ks))) (ListEnvKeys f);
    ret (obj (body ++ active ++ levels ++ keys))).

(** The files to pack, or the refusal. *)
Definition deploy_files (i : deployFunctionIn) : result ToolError (gmap string string) :=
  let! x := file_map (di_Files i) ∅ 0 in
  let! x := match di_Manifest i with
            | None => Ok x
            | Some m =>
                match conflictingManifestFile x.1 with
                | Some conflict =>
                    Err (tool_error ("provide exactly one of the typed " +:+ quoted "manifest"
                      +:+ " parameter or a manifest file in files[] -- both %q and " +:+ quoted "manifest"
                      +:+ " were given") [conflict])
                | None =>
                    match toYAML m with
                    | None => Err (tool_error ("failed to encode the " +:+ quoted "manifest"
                                     +:+ " parameter: %w") [])
                    | Some y => Ok (<["funcbox.yaml" := y]> x.1, x.2 + str_len y)
                    end
                end
            end in
  let count := Z.of_nat (size x.1) in
  if (MaxFiles <? count) || (MaxUnpackedBytes <? x.2) then
    Err (tool_error "this bundle is too large to deploy over MCP (%d files, %d bytes unpacked; limits are %d files / %d bytes) -- use the funcbox CLI (`funcbox deploy`) for large bundles"
           [itoa count; itoa x.2; itoa MaxFiles; itoa MaxUnpackedBytes])
  else Ok x.1.

Definition deploy_out (warnings : list string) (dryRun : bool) (url version : string) : json :=
  JObj (opt_str "url" url ++ opt_str "version_id" version
        ++ [("warnings", JArr (map JStr warnings)); ("dry_run", JBool dryRun)]).

Definition url_of (dto : list (string * json)) : string :=
  match List.find (fun kv => kv.1 == "url") dto with Some (_, JStr s) => s | _ => "" end.

(** [Pack] sorts the paths, so that the order in which the map is ranged over does
    not matter. *)
Definition deployFunctionHandler (i : deployFunctionIn) : M ToolError json :=
  do! u <- actor;
  if di_Owner i == "" then tool_refuse "owner is required"
  else if bool_decide (di_Files i = []) then tool_refuse "files must contain at least one entry"
  else
    do! files <- lift (deploy_files i);
    match Pack (map fst (map_to_list files)) files with
    | None => tool_refuse "failed to pack files into a bundle"
    | Some packed =>
        do! x <- or_err (deployToolError (bool_decide (is_Some (di_Manifest i))))
                   (Deploy (h_Deployer (mh_api h))
                      (mkDeployParams packed (di_Owner i) (di_Name i) (di_Note i) (di_DryRun i) (Some u)));
        match dr_DryRun x, dr_Function x, dr_Version x with
        | false, Some f, Some v =>
            do! dto <- or_err toolError (functionDTO (mh_api h) f (di_Owner i));
            run! attempt (Audit (u_ID u) "function.deploy" ("function:" +:+ f_ID f)
                   (Some (obj [("owner", JStr (di_Owner i)); ("name", JStr (f_Name f));
                               ("version_id", JStr (v_ID v))])));
            ret (deploy_out (dr_Warnings x) (dr_DryRun x) (url_of dto) (v_ID v))
        | _, _, _ => ret (deploy_out (dr_Warnings x) (dr_DryRun x) "" "")
        end
    end.

(** ** Reading the files *)

Definition resolveVersion (f : Function) (versionID : string) : M Error FunctionVersion :=
  do! id <- (if versionID == "" then
               match f_ActiveVersionID f with
               | Some v => ret v
               | None => throw (NotFoundErr (Text "function has no active version") None)
               end
             else ret versionID);
  do! v <- lookup_or (NotFoundErr (Text "version not found") (Some (CStore ErrNotFound)))
             "failed to load version" (Functions_Version id);
  if v_FunctionID v == f_ID f then ret v
  else throw (NotFoundErr (Text "version not found for this function") None).

Definition unpackVersion (v : FunctionVersion) : M ToolError (gmap string string) :=
  do! r <- or_err (fun _ => errors_New "failed to load this version's bundle from storage")
             (Blob_Get (BundleBlobKey (v_BundleHash v)));
  lift (map_err (fun _ => errors_New "failed to unpack this version's bundle") (Unpack r)).

Definition getFunctionFilesHandler (owner name versionID file : string) : M ToolError filesOut :=
  do! u <- actor;
  owner_and_name owner name (
    do! f <- or_err toolError (ResolveVisible u owner name);
    run! or_err toolError (CanManage u f);
    do! v <- or_err toolError (resolveVersion f versionID);
    do! files <- unpackVersion v;
    if negb (file == "") then
      match files !! file with
      | Some data => ret (mkFilesOut [fileEntry file data true] false false)
      | None => throw (tool_error "file %q not found in this version" [file])
      end
    else ret (all_files files)).

(** ** Logs, rolling back, deleting *)

Definition getFunctionLogsHandler (owner name since : string) (limit : Z) : M ToolError json :=
  do! u <- actor;
  owner_and_name owner name (
    do! f <- or_err toolError (ResolveVisible u owner name);
    do! x <- or_err toolError (ListInvocationLogs f since limit);
    ret (JObj ([("logs", JArr (map invocationLogDTO x.1))] ++ opt_str "next_cursor" x.2))).

Definition rollbackFunctionHandler (owner name versionID : string) : M ToolError json :=
  do! u <- actor;
  if (owner == "") || (name == "") || (versionID == "") then
    tool_refuse "owner, name, and version_id are all required"
  else
    or_err toolError (
      do! f <- ResolveVisible u owner name;
      run! CanManage u f;
      do! f <- Activate (h_Deployer (mh_api h)) f versionID;
      run! attempt (Audit (u_ID u) "function.rollback" ("function:" +:+ f_ID f)
                      (Some (obj [("version_id", JStr versionID)])));
      do! dto <- functionDTO (mh_api h) f owner;
      ret (obj dto)).

Definition deleteFunctionHandler (owner name : string) : M ToolError json :=
  do! u <- actor;
  owner_and_name owner name (or_err toolError (
    do! f <- ResolveVisible u owner name;
    run! CanManage u f;
    run! Delete (h_Deployer (mh_api h)) f;
    run! attempt (Audit (u_ID u) "function.delete" ("function:" +:+ f_ID f)
                    (Some (obj [("owner", JStr owner); ("name", JStr name)])));
    ret (JObj [("deleted", JBool true)]))).

(** ** Invoking *)

(** The body of the request. *)
Definition invoke_body (i : invokeFunctionIn) : result ToolError string :=
  if if_Body i == "" then Ok ""
  else match decode_content (if_BodyEncoding i) (if_Body i) with
       | Bytes data => Ok data
       | BadBase64 => Err (errors_New "invalid base64 body")
       | BadEncoding => Err (errors_New ("body_encoding must be " +:+ quoted "utf8" +:+ " or " +:+ quoted "base64"))
       end.

Definition invoke_target (i : invokeFunctionIn) : string :=
  let path := if if_Path i == "" then "/" else if_Path i in
  let path := if has_prefix path "/" then path else "/" +:+ path in
  "/" +:+ if_Owner i +:+ "/" +:+ if_Name i +:+ path
  +:+ (if bool_decide (if_Query i = ∅) then "" else "?" +:+ Values_Encode (if_Query i)).

Definition set_headers (hs : list (string * string)) : Header :=
  fold_left (fun acc kv => h_Set acc kv.1 kv.2) hs ∅.

(** The request and its body. *)
Definition buildInvokeRequest (u : User) (i : invokeFunctionIn) : M ToolError (InvokeRequest * string) :=
  let method := if if_Method i == "" then "GET" else if_Method i in
  let target := invoke_target i in
  do! data <- lift (invoke_body i);
  match validMethod method, url_Parse target with
  | true, Some url =>
      let host := match url_Parse (mh_ControlOrigin h) with
                  | Some origin => u_Host origin
                  | None => trim_suffix (u_Host url) ":"
                  end in
      do! token <- or_err (fun _ => errors_New "failed to authenticate the synthesized invocation")
                     (IssueAccessToken (mh_Auth h) (u_ID u) invokeTokenTTL);
      ret (mkInvokeRequest method host (RequestURI target) (u_Path url) (str_len data)
             (h_Set (set_headers (if_Headers i)) "Authorization" ("Bearer " +:+ token.1)), data)
  | _, _ => throw (tool_error "failed to build the invocation request: %w" [])
  end.

(** [elapsed] is what the clock shows around the invocation. *)
Definition invokeFunctionHandler (inv : Invoker) (warm : gmap string P) (elapsed : Z) (i : invokeFunctionIn)
    : M ToolError ToolResult :=
  do! u <- actor;
  owner_and_name (if_Owner i) (if_Name i) (
    do! q <- buildInvokeRequest u i;
    do! r <- attempt (Serve verify NewPool (guest q.2) inv warm ∅ q.1 (if_Owner i) (if_Name i));
    ret (match r with
         | Err answer => PlatformAnswer answer
         | Ok s => if sv_Aborted s then Panics
                   else Structured (invoke_json (record_run invokeFunctionBodyCap (g_actions (sv_Run s))) elapsed)
         end)).

(** ** The tools by name *)

Inductive ToolCall :=
| list_users (status : string)
| approve_user (userID : string)
| reject_user (userID : string)
| set_user_role (userID role : string)
| set_user_status (userID status : string)
| get_org_settings
| update_org_settings (settings : list (string * json))
| list_login_rules
| replace_login_rules (input : option (list LoginRuleInput))
| list_audit_logs (cursor : string) (limit : Z) (action userID : string)
| list_connected_devices
| revoke_device (kind id : string)
| list_workspaces
| create_workspace (name : string)
| get_workspace (workspaceID : string)
| add_workspace_member (workspaceID userID role : string)
| set_workspace_member_role (workspaceID userID role : string)
| remove_workspace_member (workspaceID userID : string)
| list_functions (owner : string)
| get_function (owner name : string)
| deploy_function (i : deployFunctionIn)
| get_function_files (owner name versionID file : string)
| invoke_function (i : invokeFunctionIn)
| get_function_logs (owner name since : string) (limit : Z)
| rollback_function (owner name versionID : string)
| delete_function (owner name : string).

Definition structured (m : M ToolError json) : option (M ToolError ToolResult) :=
  Some (do! j <- m; ret (Structured j)).

(** The handler a tool is added with; none where the server lacks what it needs. *)
Definition tool_handler (warm : gmap string P) (elapsed : Z) (c : ToolCall) : option (M ToolError ToolResult) :=
  let a := mh_Auth h in
  match c with
  | list_users s => structured (listUsersHandler a hdr s)
  | approve_user id => structured (approveUserHandler a hdr id)
  | reject_user id => structured (rejectUserHandler a hdr id)
  | set_user_role id r => structured (setUserRoleHandler a hdr id r)
  | set_user_status id s => structured (setUserStatusHandler a hdr id s)
  | get_org_settings => structured (getOrgSettingsHandler a hdr)
  | update_org_settings s => structured (updateOrgSettingsHandler a hdr s)
  | list_login_rules => structured (listLoginRulesHandler a hdr)
  | replace_login_rules i => structured (replaceLoginRulesHandler a hdr i)
  | list_audit_logs c l ac id => structured (listAuditLogsHandler a hdr c l ac id)
  | list_connected_devices => structured (listConnectedDevicesHandler a hdr)
  | revoke_device k id => structured (revokeDeviceHandler a hdr k id)
  | list_workspaces => structured (listWorkspacesHandler a hdr)
  | create_workspace n => structured (createWorkspaceHandler a hdr n)
  | get_workspace id => structured (getWorkspaceHandler a hdr id)
  | add_workspace_member w id r | set_workspace_member_role w id r =>
      structured (setWorkspaceMemberHandler a hdr w id r)
  | remove_workspace_member w id => structured (removeWorkspaceMemberHandler a hdr w id)
  | list_functions o => structured (listFunctionsHandler o)
  | get_function o n => structured (getFunctionHandler o n)
  | deploy_function i => structured (deployFunctionHandler i)
  | get_function_files o n v file =>
      if mh_blob h then structured (do! x <- getFunctionFilesHandler o n v file; ret (files_json x)) else None
  | invoke_function i =>
      match mh_invoker h with
      | Some inv => Some (invokeFunctionHandler inv warm elapsed i)
      | None => None
      end
  | get_function_logs o n s l => structured (getFunctionLogsHandler o n s l)
  | rollback_function o n v => structured (rollbackFunctionHandler o n v)
  | delete_function o n => structured (deleteFunctionHandler o n)
  end.
End Tools.
