(* ===== verification/McpAuthority.v ===== *)
(** * McpAuthority: what a call of an MCP tool may change

    The contract of the tools (src/server/internal/mcpserver), over the relation of
    tables [ApiAuthority] bounds a request to the management API with: whoever
    opened the session and whatever was listed in it, the call's own token decides
    who acts, and the tables change only within that user's authority. *)

From stdpp Require Import sorting.
From S2P Require Import Prelude GoNum GoHTTP Response Policy Manifest Bundle Types Authz Settings Store StoreNames.
From S2P Require Import StoreCreds Digest Service Deploy Tokens Sessions CLIAuth Functions InvokeSSO Effective Invoke.
From S2P Require Import Maintenance Api ApiWorkspaces ApiMe ApiFunctions ApiHandler ApiAuthority Mcp McpFunctions.

(** ** Authentication *)

Section Authority.
Context {U : UnicodeTables} {F : FloatToInt} {Y : YamlDecoder} {A : ArchiveCodec} {J : JsonText}
  {S : JsonStream} {N : JsonAny} {MR : MultipartReader} {I : IdGen} {C : Cipher}.
Context (toYAML : deployManifestIn -> option string) (verify : string -> option VerifiedToken).
Context {P : Type} (NewPool : PoolConfig -> option P) (guest : string -> P -> InvokeRequest -> Z -> GuestRun).

(** The user a header stands for: an active one, whom the login rules admit, by a
    live access token for any purpose or for MCP. *)
Definition acts_for (a : Auth) (hdr : string) (w : World) (u : User) : Prop :=
  exists raw c, hdr = "Bearer " +:+ raw /\ verifyAccessToken a (now w) raw = Ok c
    /\ (Aud c = "" \/ Aud c = AudienceMCP) /\ t_users (tbl w) !! Sub c = Some u
    /\ u_Status u = UserStatusActive /\ EvaluateLoginRules (rules_of (tbl w)) (u_Email u) = true.

Lemma authenticateHeader_ok a hdr w u w' : authenticateHeader a hdr w = (Ok u, w') -> acts_for a hdr w u.
Proof.
  unfold authenticateHeader. intros H. case_step H. apply orb_false_iff in E as [Hb _]. bool_facts.
  apply has_prefix_spec in Hb as [raw ->]. rewrite trim_prefix_app in H.
  apply bind_ok in H as (n & w1 & [= <- <-] & H). unfold AccessTokenAudience in H.
  destruct (verifyAccessToken a (now w) raw) as [c|] eqn:Ev; [|done]. case_step H.
  apply bind_ok in H as (v & w2 & Hv & H). case_step H. injection H as <- <-.
  unfold authenticateAccessToken in Hv. apply bind_ok in Hv as (n & w3 & [= <- <-] & Hv).
  apply bind_ok in Hv as (c' & w4 & Hc & Hv). unfold lift in Hc. rewrite Ev in Hc. injection Hc as <- <-.
  apply loadActiveUser_ok in Hv as (Hu & [Hs Hr] & _). exists raw, c. bool_facts. split_and!; try done.
  - destruct E as [E|E]; bool_facts; auto.
  - by destruct (u_Status v).
Qed.

Lemma authenticateHeader_reads a hdr : preserves (on_tables eq) (authenticateHeader a hdr).
Proof.
  unfold authenticateHeader, authenticateAccessToken, loadActiveUser, validateAuthenticatable, checkLoginRules.
  descend.
Qed.

(** ** Tools *)

(** A program that authenticates its call and then acts within the authority of
    the user it is for. *)
Definition guarded {B} (h : McpHandler) (hdr : string) (m : M ToolError B) : Prop :=
  exists k : User -> M ToolError B,
    (forall w, m w = bind (requireActor (mh_Auth h) hdr) k w)
    /\ forall u t0, row_keys t0 -> names_ok t0 -> acts t0 u t0 (k u).

Lemma guarded_actor {B} h hdr (k : User -> M ToolError B) :
  (forall u t0, row_keys t0 -> names_ok t0 -> acts t0 u t0 (k u)) ->
  guarded h hdr (bind (requireActor (mh_Auth h) hdr) k).
Proof. intros Hk. by exists k. Qed.

Lemma guarded_structured h hdr (m : M ToolError json) r :
  guarded h hdr m -> structured m = Some r -> guarded h hdr r.
Proof.
  intros (k & Hm & Hk) [= <-]. exists (fun u => do! j <- k u; ret (Structured j)). split.
  - intros w. unfold bind. rewrite Hm. unfold bind. by destruct (requireActor _ _ w) as [[u|e] w1].
  - intros u t0 H1 H2. apply acts_then; [by apply Hk|]. intros j. unfold stays. descend.
Qed.

(** A use case and the output made of its result. *)
Lemma acts_use {B D} t0 u (m : M Error B) (k : B -> M ToolError D) :
  acts t0 u t0 m -> (forall b, stays t0 u (k b)) -> acts t0 u t0 (bind (or_err toolError m) k).
Proof. intros Hm Hs. apply acts_then; [by apply acts_or_err|done]. Qed.

Ltac tool := apply guarded_actor; intros u t0 Hk Hn; repeat case_goal; try apply acts_throw.
Ltac tool_answers := apply acts_use; [|intros ?; unfold stays; descend].
Ltac only_reads := apply stays_acts; unfold stays; descend.

Lemma guard_list_users h hdr s : guarded h hdr (listUsersHandler (mh_Auth h) hdr s).
Proof. tool. only_reads. Qed.
Lemma guard_set_status h hdr s id : guarded h hdr (set_status (mh_Auth h) hdr s id).
Proof. tool. tool_answers. by apply acts_PatchUser. Qed.
Lemma guard_set_user_role h hdr id r : guarded h hdr (setUserRoleHandler (mh_Auth h) hdr id r).
Proof. tool. tool_answers. by apply acts_PatchUser. Qed.
Lemma guard_set_user_status h hdr id s : guarded h hdr (setUserStatusHandler (mh_Auth h) hdr id s).
Proof. tool. tool_answers. by apply acts_PatchUser. Qed.
Lemma guard_get_org h hdr : guarded h hdr (getOrgSettingsHandler (mh_Auth h) hdr).
Proof. tool. only_reads. Qed.
Lemma guard_update_org h hdr s : guarded h hdr (updateOrgSettingsHandler (mh_Auth h) hdr s).
Proof. tool. tool_answers. by apply acts_UpdateOrgSettings. Qed.
Lemma guard_list_rules h hdr : guarded h hdr (listLoginRulesHandler (mh_Auth h) hdr).
Proof. tool. only_reads. Qed.
Lemma guard_replace_rules h hdr i : guarded h hdr (replaceLoginRulesHandler (mh_Auth h) hdr i).
Proof. tool. tool_answers. by apply acts_ReplaceLoginRules. Qed.
Lemma guard_audit_logs h hdr c l ac id : guarded h hdr (listAuditLogsHandler (mh_Auth h) hdr c l ac id).
Proof. tool. only_reads. Qed.
Lemma guard_devices h hdr : guarded h hdr (listConnectedDevicesHandler (mh_Auth h) hdr).
Proof. tool. tool_answers. apply stays_acts, stays_ListDevices. Qed.
Lemma guard_revoke h hdr k id : guarded h hdr (revokeDeviceHandler (mh_Auth h) hdr k id).
Proof. tool. tool_answers. by apply stays_acts, stays_revoke. Qed.
Lemma guard_list_workspaces h hdr : guarded h hdr (listWorkspacesHandler (mh_Auth h) hdr).
Proof. tool. only_reads. Qed.
Lemma guard_create_workspace h hdr n : guarded h hdr (createWorkspaceHandler (mh_Auth h) hdr n).
Proof. tool. tool_answers. by apply acts_CreateWorkspace. Qed.
Lemma guard_get_workspace h hdr id : guarded h hdr (getWorkspaceHandler (mh_Auth h) hdr id).
Proof. tool. only_reads. Qed.
Lemma guard_set_member h hdr x id r : guarded h hdr (setWorkspaceMemberHandler (mh_Auth h) hdr x id r).
Proof. tool. tool_answers. by apply acts_SetWorkspaceMember. Qed.
Lemma guard_remove_member h hdr x id : guarded h hdr (removeWorkspaceMemberHandler (mh_Auth h) hdr x id).
Proof. tool. tool_answers. by apply acts_RemoveWorkspaceMember. Qed.

(** ** The tools on functions *)

Lemma acts_named {B} t0 u o n (m : M ToolError B) : acts t0 u t0 m -> acts t0 u t0 (owner_and_name o n m).
Proof. intros Hm. unfold owner_and_name. case_goal; [apply acts_throw|exact Hm]. Qed.

Lemma guard_list_functions h hdr o : guarded h hdr (listFunctionsHandler h hdr o).
Proof. tool. tool_answers. apply stays_acts, stays_ListFunctions. Qed.

Lemma guard_get_function h hdr o n : guarded h hdr (getFunctionHandler h hdr o n).
Proof. tool; apply acts_named; only_reads. Qed.

Lemma guard_deploy h hdr i : guarded h hdr (deployFunctionHandler toYAML h hdr i).
Proof.
  tool. apply acts_bind; [descend|]. intros files w1 w2 _ _. case_goal; [|apply acts_throw].
  apply acts_then; [by apply acts_or_err, acts_deploy_service|]. intros x. unfold stays. descend.
Qed.

Lemma guard_files h hdr o n v file : guarded h hdr (getFunctionFilesHandler h hdr o n v file).
Proof.
  tool; apply acts_named; only_reads; intros w; unfold on_tables; by destruct (faults w) as [|[] ?].
Qed.

Lemma guard_logs h hdr o n s l : guarded h hdr (getFunctionLogsHandler h hdr o n s l).
Proof. tool; apply acts_named; only_reads. Qed.

Lemma guard_rollback h hdr o n v : guarded h hdr (rollbackFunctionHandler h hdr o n v).
Proof.
  tool. apply acts_or_err, acts_found; [descend|apply visible_read|intros f Hf].
  apply acts_can_manage; [done|done|]. intros Ha. unfold stays, Activate, lookup_or.
  preserve; [by apply stays_activate|apply stays_invalidate|descend|apply stays_functionDTO].
Qed.

Lemma guard_delete h hdr o n : guarded h hdr (deleteFunctionHandler h hdr o n).
Proof.
  tool. apply acts_named, acts_or_err, acts_found; [descend|apply visible_read|intros f Hf].
  apply acts_can_manage; [done|done|]. intros Ha. unfold stays, Delete.
  preserve; [apply stays_invalidate| |descend]. apply stays_delete_function; [apply (rk_env _ Hk)|done].
Qed.

(** ** Invoking *)

Definition logs_only (t t' : Tables) : Prop := t' = set_logs t (t_logs t').
#[export] Instance logs_only_refl : Reflexive logs_only.
Proof. by intros []. Qed.
#[export] Instance logs_only_trans : Transitive logs_only.
Proof. unfold logs_only. intros t1 t2 t3 H1 H2. rewrite H2, H1. done. Qed.

Lemma logs_blob_get key : preserves (on_tables logs_only) (Blob_Get key).
Proof. intros w. unfold Blob_Get. destruct (faults w) as [|[] ?]; apply logs_only_refl. Qed.

Lemma logs_buildPool inv v ot oid : preserves (on_tables logs_only) (buildPool NewPool inv v ot oid).
Proof. unfold buildPool, pool_config. preserve; [apply logs_blob_get|..]. all: descend. Qed.

Lemma logs_append l : preserves (on_tables logs_only) (InvocationLogs_Append l).
Proof.
  unfold InvocationLogs_Append. preserve. apply preserves_write; [exact _|]. intros t t' H.
  apply rbind_ok in H as (m & _ & [= <-]). done.
Qed.

Lemma logs_resolve a r audiences fid host :
  preserves (on_tables logs_only) (ResolveInvokeCaller verify a r audiences fid host).
Proof.
  intros w. destruct (resolve_still verify a r audiences fid host w) as [E _]. unfold on_tables. by rewrite E.
Qed.

Lemma logs_serve inv warm response q b o n :
  preserves (on_tables logs_only) (Serve verify NewPool (guest b) inv warm response q o n).
Proof.
  unfold Serve, serveFunction, authorize.
  repeat first [ apply logs_append | apply logs_buildPool | apply logs_resolve | descend_step ].
  all: intros w; apply logs_only_refl.
Qed.

Lemma logs_invoke h hdr inv warm elapsed i :
  preserves (on_tables logs_only) (invokeFunctionHandler verify NewPool guest h hdr inv warm elapsed i).
Proof.
  unfold invokeFunctionHandler, requireActor, authenticateHeader, owner_and_name.
  repeat first [ apply logs_serve | descend_step ].
Qed.

(** ** Any tool *)

Definition invokes (c : ToolCall) : bool := match c with invoke_function _ => true | _ => false end.

Lemma tool_guarded h hdr warm elapsed c m :
  tool_handler toYAML verify NewPool guest h hdr warm elapsed c = Some m ->
  if invokes c
  then exists inv i, m = invokeFunctionHandler verify NewPool guest h hdr inv warm elapsed i
  else guarded h hdr m.
Proof.
  intros H. destruct c; simpl in H |- *;
    try (eapply guarded_structured; [|exact H];
         first [ apply guard_list_users | apply guard_set_status | apply guard_set_user_role
               | apply guard_set_user_status | apply guard_get_org | apply guard_update_org
               | apply guard_list_rules | apply guard_replace_rules | apply guard_audit_logs
               | apply guard_devices | apply guard_revoke | apply guard_list_workspaces
               | apply guard_create_workspace | apply guard_get_workspace | apply guard_set_member
               | apply guard_remove_member | apply guard_list_functions | apply guard_get_function
               | apply guard_deploy | apply guard_logs | apply guard_rollback | apply guard_delete ]).
  - destruct (mh_blob h); [|done]. eapply guarded_structured; [|exact H].
    destruct (guard_files h hdr owner name versionID file) as (k & Hm & Hk).
    exists (fun u => do! x <- k u; ret (files_json x)). split.
    + intros w. unfold bind. rewrite Hm. unfold bind. by destruct (requireActor _ _ w) as [[u|e] w1].
    + intros u t0 H1 H2. apply acts_then; [by apply Hk|]. intros j. unfold stays. descend.
  - destruct (mh_invoker h) as [inv|]; [|done]. injection H as <-. by exists inv, i.
Qed.

Lemma required_actor a hdr w r w' : requireActor a hdr w = (r, w') ->
  tbl w' = tbl w /\ match r with Ok u => acts_for a hdr w u | Err e => e = authentication_required end.
Proof.
  unfold requireActor, or_err. intros H. pose proof (authenticateHeader_reads a hdr w) as Ht.
  destruct (authenticateHeader a hdr w) as [[u|e] w1] eqn:E; injection H as <- <-; (split; [symmetry; exact Ht|]); [|done].
  by eapply authenticateHeader_ok.
Qed.

(** C35. A tool of the MCP server changes nothing beyond its caller's authority.
    Whatever session it comes in and whether or not the session lists it, a call
    either is refused for want of authentication and changes nothing, or carries
    a live access token, for any purpose or for MCP, of a user who is active and
    admitted by the login rules at this moment; and then, whatever the tool, its
    arguments and the failures on the way, the tables change only within what
    that user may do now, and an invocation only adds to the execution logs. *)
Theorem mcp_within_authority h hdr warm elapsed c m w
    (Hkeys : row_keys (tbl w)) (Hnames : names_ok (tbl w))
    (Hc : tool_handler toYAML verify NewPool guest h hdr warm elapsed c = Some m) :
  let '(r, w') := m w in
  (r = Err authentication_required /\ tbl w' = tbl w)
  \/ exists u, acts_for (mh_Auth h) hdr w u
       /\ if invokes c then logs_only (tbl w) (tbl w') else within (tbl w) u (tbl w) (tbl w').
Proof.
  apply tool_guarded in Hc. destruct (invokes c).
  - destruct Hc as (inv & i & ->). pose proof (logs_invoke h hdr inv warm elapsed i w) as Hl.
    unfold on_tables in Hl. destruct (invokeFunctionHandler _ _ _ _ _ _ _ _ _ w) as [r w'] eqn:E.
    unfold invokeFunctionHandler, bind at 1 in E.
    destruct (requireActor (mh_Auth h) hdr w) as [[u|e] w1] eqn:Ea; apply required_actor in Ea as [Ht Ea].
    + right. by exists u.
    + left. injection E as <- <-. by subst.
  - destruct Hc as (k & -> & Hk). unfold bind.
    destruct (requireActor (mh_Auth h) hdr w) as [[u|e] w1] eqn:E; apply required_actor in E as [Ht E];
      [|left; by subst].
    specialize (Hk u (tbl w) Hkeys Hnames w1 Ht ltac:(reflexivity)). destruct (k u w1) as [r w'].
    right. by exists u.
Qed.
End Authority.

(** ** Witness *)

(** Bob's MCP client, at time 0. *)
Definition mcp_token : string :=
  "Bearer " +:+ signAccessToken (J := numeral_json) sample_auth
                  (mkClaims "U2" "bob@example.com" 0 900 accessTokenKind AudienceMCP).
Definition sample_mcp : McpHandler := mkMcpHandler "https://box.example" sample_auth sample_api true None.

Definition sample_tool (hdr : string) (c : ToolCall) : M ToolError ToolResult :=
  default (tool_refuse "unknown tool")
    (tool_handler (U := ascii_tables) (F := amd64_float_to_int) (Y := one_doc_decoder) (A := sample_codec)
       (J := numeral_json) (N := sample_any) (I := unary_ids) (C := clear_cipher) (fun _ => None) (fun _ => None)
       (fun _ => Some tt) (fun _ => greet) sample_mcp hdr ∅ 0 c).

Definition tool_world : World := with_tbl serving_world (tbl session_world).

Lemma mcp_within_authority_witness :
  (sample_tool mcp_token (update_org_settings [("open_mode", JBool true)]) tool_world).1
    = Err (ServiceMessage (Forbidden (Text "organization admin required")))
  /\ t_organization (tbl (sample_tool mcp_token (update_org_settings [("open_mode", JBool true)]) tool_world).2)
     = t_organization (tbl tool_world).
Proof.
  split; [vm_compute; reflexivity|].
  pose proof (mcp_within_authority (U := ascii_tables) (F := amd64_float_to_int) (Y := one_doc_decoder)
    (A := sample_codec) (J := numeral_json) (N := sample_any)
    (I := unary_ids) (C := clear_cipher) (fun _ => None) (fun _ => None) (fun _ => Some tt) (fun _ => greet)
    sample_mcp mcp_token ∅ 0 (update_org_settings [("open_mode", JBool true)])
    (sample_tool mcp_token (update_org_settings [("open_mode", JBool true)])) tool_world
    sample_keys ltac:(split; simpl; intros *; by rewrite ?lookup_empty) eq_refl) as H.
  destruct (sample_tool _ _ tool_world) as [r w'] eqn:E. simpl. destruct H as [[_ Ht]|(u & Hu & Hin)]; [by rewrite Ht|].
  destruct (in_organization _ _ _ _ Hin) as [Ha|Ho]; [|exact Ho]. exfalso.
  destruct Hu as (raw & cl & Hr & Hv & _ & Hl & _).
  assert (raw = trim_prefix mcp_token "Bearer ") as -> by (rewrite Hr; by rewrite trim_prefix_app).
  assert (cl = mkClaims "U2" "bob@example.com" 0 900 accessTokenKind AudienceMCP) as ->.
  { vm_compute in Hv. by injection Hv. }
  vm_compute in Hl. injection Hl as <-. discriminate Ha.
Defined.
