(* ===== verification/McpTools.v ===== *)
(** * McpTools: what the MCP tools on functions hand over

    The files [get_function_files] returns are those [deploy_function] takes, so
    that editing starts from what is deployed; and the recorder [invoke_function]
    reports from holds what an HTTP client would have got, up to its cap. *)

From stdpp Require Import sorting.
From S2P Require Import Prelude GoNum GoHTTP Response Policy Capture Manifest Bundle Types Authz Settings Store.
From S2P Require Import StoreCreds Digest Service Tokens Sessions CLIAuth Functions InvokeSSO Effective.
From S2P Require Import Invoke Api ApiFunctions Mcp McpFunctions.

(** ** From a listing back to a deployment *)

(** A listed file as an argument of [deploy_function]. *)
Definition file_in (f : functionFileOut) : deployFileIn := mkFileIn (fo_Path f) (fo_Content f) (fo_Encoding f).

Lemma decode_encode_content data : decode_content (encode_content data).1 (encode_content data).2 = Bytes data.
Proof.
  unfold encode_content. destruct (ValidString data); [done|].
  unfold decode_content. cbn [fst snd]. simpl ("base64" == _). cbn. by rewrite decode_encode.
Qed.

Lemma fileEntry_content p data : decode_content (fo_Encoding (fileEntry p data true)) (fo_Content (fileEntry p data true)) = Bytes data.
Proof.
  unfold fileEntry. pose proof (decode_encode_content data) as H. by destruct (encode_content data).
Qed.

Lemma fileEntry_path p data b : fo_Path (fileEntry p data b) = p /\ fo_Size (fileEntry p data b) = str_len data.
Proof. unfold fileEntry. destruct b; [|done]. by destruct (encode_content data). Qed.

Lemma file_in_path p data b : fi_Path (file_in (fileEntry p data b)) = p.
Proof. apply fileEntry_path. Qed.

Lemma file_in_content p data :
  decode_content (fi_Encoding (file_in (fileEntry p data true))) (fi_Content (file_in (fileEntry p data true)))
  = Bytes data.
Proof. apply fileEntry_content. Qed.

Lemma file_map_entries l : forall files n,
  NoDup l.*1 -> Forall (fun f => f.1 <> "" /\ files !! f.1 = None) l ->
  file_map (map (fun f => file_in (fileEntry f.1 f.2 true)) l) files n
  = Ok (list_to_map l ∪ files, n + contents_size l).
Proof.
  induction l as [|[p d] l IH]; intros files n Hnd Hl; cbn [map file_map].
  - cbn. by rewrite (left_id_L ∅ (∪)), Z.add_0_r.
  - apply NoDup_cons in Hnd as [Hp Hnd]. apply Forall_cons in Hl as [[Hne Hf] Hl]. cbn [fst snd] in *.
    rewrite file_in_path, file_in_content, (proj2 (String.eqb_neq p "")) by done.
    rewrite bool_decide_eq_false_2 by (rewrite Hf; by intros []). rewrite IH; [|done|].
    + rewrite list_to_map_cons. f_equal. f_equal; [|unfold contents_size; simpl; lia].
      rewrite <- insert_union_l, insert_union_r; [done|]. by apply not_elem_of_list_to_map.
    + apply Forall_forall. intros [q e] Hin. rewrite Forall_forall in Hl. destruct (Hl _ Hin) as [Hq Hfq].
      split; [done|]. cbn [fst] in *. rewrite lookup_insert_ne; [done|]. intros <-. apply Hp.
      by apply (list_elem_of_fmap_2 fst) in Hin.
Qed.

(** ** Listings *)

(** The sizes of the contents a listing carries. *)
Definition carried (l : list functionFileOut) : Z :=
  foldr (fun f n => (if fo_Encoding f == "" then 0 else fo_Size f) + n) 0 l.

Definition of_path (files : gmap string string) (p : string) : string * string := (p, default "" (files !! p)).

Lemma entry_encoding p d b : (fo_Encoding (fileEntry p d b) == "") = negb b.
Proof. unfold fileEntry, encode_content. destruct b; [|done]. by destruct (ValidString d). Qed.

Lemma list_files_spec files paths : forall used,
  0 <= used <= getFunctionFilesBudget ->
  let '(out, truncated) := list_files files paths used in
  used + carried out <= getFunctionFilesBudget
  /\ Forall2 (fun p f => exists b, f = fileEntry p (default "" (files !! p)) b) paths out
  /\ truncated = (getFunctionFilesBudget <? used + contents_size (map (of_path files) paths))
  /\ (truncated = false -> out = map (fun f => fileEntry f.1 f.2 true) (map (of_path files) paths)).
Proof.
  induction paths as [|p paths IH]; intros used Hu; cbn [list_files].
  - cbn. split_and!; [lia|constructor|symmetry; apply Z.ltb_ge; lia|done].
  - set (d := default "" (files !! p)). pose proof (str_len_nonneg d) as Hd.
    pose proof (contents_size_nonneg (map (of_path files) paths)) as Hc.
    replace (contents_size (map (of_path files) (p :: paths)))
      with (str_len d + contents_size (map (of_path files) paths)) by done.
    unfold carried.
    destruct (used + str_len d <=? getFunctionFilesBudget) eqn:E; bool_facts.
    + specialize (IH (used + str_len d) ltac:(lia)). destruct (list_files files paths _) as [out tr].
      destruct IH as (I1 & I2 & I3 & I4). cbn [foldr]. rewrite entry_encoding. fold (carried out).
      cbn [negb]. rewrite (proj2 (fileEntry_path p d true)).
      split_and!; [lia|constructor; [by exists true|done]|subst tr; by rewrite Z.add_assoc|].
      intros Ht. cbn. by rewrite I4 by done.
    + specialize (IH used Hu). destruct (list_files files paths used) as [out tr].
      destruct IH as (I1 & I2 & I3 & I4). cbn [foldr]. rewrite entry_encoding. fold (carried out).
      split_and!; [simpl; lia|constructor; [by exists false|done]| |done].
      cbn. symmetry. apply Z.ltb_lt. lia.
Qed.

Lemma sorted_ranges (files : gmap string string) : sorted_paths files ≡ₚ map fst (map_to_list files).
Proof. apply merge_sort_Permutation. Qed.

Lemma ranges_map_to_list (files : gmap string string) : ranges (map fst (map_to_list files)) files.
Proof. by unfold ranges. Qed.

Lemma listed_contents (files : gmap string string) : map (of_path files) (sorted_paths files) ≡ₚ map_to_list files.
Proof. apply packed_files, ranges_map_to_list. Qed.

Lemma listed_keys (files : gmap string string) : NoDup (map (of_path files) (sorted_paths files)).*1.
Proof. rewrite listed_contents. apply NoDup_fst_map_to_list. Qed.

Section EditLoop.
Context {A : ArchiveCodec} (toYAML : deployManifestIn -> option string).

(** Editing starts from what is deployed. [get_function_files] lists every
    file of the bundle under its path and with its size; the contents it carries
    are within the budget, and some content is left out exactly when the bundle
    exceeds the budget; a file asked for alone carries its content whatever its
    size, and a content stands for exactly the bytes stored. A complete listing
    given back to [deploy_function] is packed into a bundle with exactly the files
    the listing was made from. *)
Theorem listing_deploys_back r files i (Hr : Unpack r = Ok files)
    (Hi : di_Files i = map file_in (fs_Files (all_files files))) (Hm : di_Manifest i = None) :
  carried (fs_Files (all_files files)) <= 2 * 1024 * 1024
  /\ Forall2 (fun p f => exists b, f = fileEntry p (default "" (files !! p)) b)
       (sorted_paths files) (fs_Files (all_files files))
  /\ fs_Truncated (all_files files) = (2 * 1024 * 1024 <? contents_size (map_to_list files))
  /\ (forall p data, decode_content (fo_Encoding (fileEntry p data true)) (fo_Content (fileEntry p data true))
                     = Bytes data)
  /\ (fs_Truncated (all_files files) = false ->
      deploy_files toYAML i = Ok files
      /\ forall packed, Pack (map fst (map_to_list files)) files = Some packed -> Unpack packed = Ok files).
Proof.
  unfold all_files in *. pose proof (list_files_spec files (sorted_paths files) 0 ltac:(done)) as H.
  destruct (list_files files (sorted_paths files) 0) as [out truncated]. destruct H as (H1 & H2 & H3 & H4).
  cbn [fs_Files fs_Truncated] in *. rewrite (contents_size_perm _ _ (listed_contents files)) in H3.
  split_and!; [exact H1|exact H2|exact H3|apply fileEntry_content|]. intros Ht. specialize (H4 Ht).
  destruct (unpack_within_limits r files Hr) as (Hp & Hn & Hb).
  split; [|intros packed; by apply (repacked_loads r _ _ _ Hr), ranges_map_to_list].
  unfold deploy_files. rewrite Hi, H4, map_map, file_map_entries.
  - rewrite Hm. cbn [rbind fst snd]. rewrite (right_id_L ∅ (∪)), Z.add_0_l, (contents_size_perm _ _ (listed_contents files)).
    rewrite (list_to_map_proper _ (map_to_list files)), list_to_map_to_list; [|by apply listed_keys|apply listed_contents].
    rewrite !(proj2 (Z.ltb_ge _ _)) by lia. done.
  - by apply listed_keys.
  - apply Forall_forall. intros [p d] Hin. rewrite listed_contents in Hin. apply elem_of_map_to_list in Hin.
    split; [|apply lookup_empty]. by apply (bundle_path_name p), (Hp p d).
Qed.
End EditLoop.

(** ** The recorder *)

(** The bytes of the calls. *)
Definition call_bytes (cs : list writer_call) : string :=
  foldr (fun c s => match c with CallWrite b => b +:+ s | _ => s end) "" cs.

Definition final_call (c : writer_call) : Prop :=
  match c with CallWriteHeader code => informational code = false | _ => True end.

(** A write of this many bytes in all is not refused by net/http. *)
Definition room_for (o : option (Z * Header)) (handed : Z) : Prop :=
  match o with
  | Some (code, h) => body_allowed code = true /\ match declared_length h with Some n => handed <= n | None => True end
  | None => True
  end.

(** A recorder beside the response net/http has so far, after the bytes [all]. *)
Record records (cap : Z) (all : string) (r : recorder) (w : ResponseWriter) : Prop := {
  rd_cap : rec_cap r = cap;
  rd_header : rec_header r = rw_Header w;
  rd_status : match rw_Committed w with
              | Some (code, _) => rec_wroteHead r = true /\ rec_status r = code
              | None => rec_wroteHead r = false /\ rec_status r = 200 /\ rw_Body w = all
              end;
  rd_body : rec_body r = str_take (Z.to_nat cap) all;
  rd_total : rec_total r = str_len all;
  rd_handed : rw_Handed w = str_len all;
  rd_sent : room_for (rw_Committed w) (rw_Handed w) -> rw_Body w = all
}.

Lemma records_new cap : records cap "" (newBoundedInvokeRecorder cap) new_writer.
Proof. split; try done. by destruct (Z.to_nat cap). Qed.

Lemma str_take_beyond n s t : str_take n (s +:+ t) = str_take n s +:+ str_take (n - String.length s) t.
Proof.
  revert n; induction s as [|c s IH]; intros n; simpl; [by rewrite Nat.sub_0_r; destruct n|].
  destruct n as [|n]; simpl; [by destruct t|]. by rewrite IH.
Qed.

Lemma str_take_min n s : str_take (Nat.min n (String.length s)) s = str_take n s.
Proof. revert n; induction s as [|c s IH]; intros [|n]; simpl; try done. by rewrite IH. Qed.

(** What there is room for is what belongs to the prefix of the whole. *)
Lemma keep_room cap body b : 0 <= cap ->
  let kept := str_take (Z.to_nat cap) body in
  let room := cap - str_len kept in
  kept +:+ (if 0 <? room then str_take (Z.to_nat (Z.min room (str_len b))) b else "")
  = str_take (Z.to_nat cap) (body +:+ b).
Proof.
  intros Hcap. cbv zeta. rewrite str_take_beyond, str_len_take by done. f_equal. unfold str_len.
  destruct (0 <? _) eqn:E; bool_facts.
  - rewrite <- (str_take_min (Z.to_nat cap - String.length body)). f_equal. lia.
  - replace (Z.to_nat cap - String.length body)%nat with 0%nat by lia. by destruct b.
Qed.

Lemma cut_differs cap body : 0 <= cap -> (cap <? str_len body) = negb (str_take (Z.to_nat cap) body == body).
Proof.
  intros Hcap. destruct (str_take _ body == body) eqn:E; bool_facts; simpl.
  - apply (f_equal str_len) in E. rewrite str_len_take in E by done. lia.
  - apply Z.ltb_lt. destruct (Z.le_gt_cases (str_len body) cap) as [Hl|]; [|done]. exfalso. apply E.
    rewrite <- str_take_min. unfold str_len in Hl. rewrite Nat.min_r by lia.
    rewrite <- (str_app_nil_r body) at 2. apply str_take_app.
Qed.

Lemma records_header cap all r w code : informational code = false -> records cap all r w ->
  records cap all (rec_WriteHeader r code) (rw_WriteHeader w code).
Proof.
  intros Hc [H1 H2 H3 H4 H5 H6 H7]. unfold rec_WriteHeader, rw_WriteHeader.
  destruct (rw_Committed w) as [[c hs]|] eqn:E.
  - destruct H3 as [Hw H3]. rewrite Hw. split; rewrite ?E; auto.
  - destruct H3 as (Hw & H3 & Hb). rewrite Hw, Hc. by split.
Qed.

Lemma records_write cap all r w b : 0 <= cap -> records cap all r w -> records cap (all +:+ b) (rec_Write r b) (rw_Write w b).
Proof.
  intros Hcap H. apply (records_header cap all r w 200) in H; [|done]. unfold rec_Write, rw_Write.
  replace (if rec_wroteHead r then r else rec_WriteHeader r 200) with (rec_WriteHeader r 200)
    by (unfold rec_WriteHeader; by destruct (rec_wroteHead r)).
  assert (is_Some (rw_Committed (rw_WriteHeader w 200))) as [[code h] Ec]
    by (unfold rw_WriteHeader; destruct (rw_Committed w) eqn:E; [by rewrite E|eauto]).
  destruct H as [K1 K2 K3 K4 K5 K6 K7]. rewrite Ec in *.
  split; simpl; rewrite ?Ec; try assumption.
  - rewrite K1, K4. by apply keep_room.
  - rewrite K5. unfold str_len. rewrite str_length_app. lia.
  - rewrite K6. unfold str_len. rewrite str_length_app. lia.
  - intros [Hb Hn]. unfold accepts. rewrite Ec, Hb. cbn in K7. unfold str_len in *.
    destruct (declared_length h) as [n|]; cbn; [rewrite (proj2 (Z.leb_le _ _) Hn)|]; f_equal; apply K7; split; try done; lia.
Qed.

Lemma records_calls cap cs : 0 <= cap -> Forall final_call cs -> forall all r w, records cap all r w ->
  records cap (all +:+ call_bytes cs) (fold_left rec_call cs r) (fold_left rw_call cs w).
Proof.
  intros Hcap. induction 1 as [|c cs Hc _ IH]; intros all r w H; simpl; [by rewrite str_app_nil_r|].
  destruct c as [h|code|b]; simpl in Hc |- *.
  - apply IH. by destruct H.
  - by apply IH, records_header.
  - rewrite <- str_app_assoc. by apply IH, records_write.
Qed.

(** The calls passed on are what happens to the writer below. *)
Lemma forwarded_step w a : iw_rw (iw_step w a) = fold_left rw_call (forwarded w a) (iw_rw w).
Proof.
  destruct a as [k v|k v|k|code|b|]; try done; simpl.
  - unfold iw_WriteHeader, header_calls. destruct (iw_wroteHeader w); [done|]. by destruct (_ && _).
  - rewrite fold_left_app. unfold iw_Write, header_calls, iw_WriteHeader.
    destruct (iw_wroteHeader w); [simpl; by destruct (iw_swapped w)|].
    destruct (_ && _); simpl; by destruct (iw_swapped w).
Qed.

Lemma forwarded_run acts : forall w, iw_rw (iw_run w acts) = fold_left rw_call (forwarded_all w acts) (iw_rw w).
Proof.
  induction acts as [|a acts IH]; intros w; [done|]. unfold iw_run in *. cbn [fold_left forwarded_all].
  rewrite IH, fold_left_app. by rewrite forwarded_step.
Qed.

Lemma forwarded_final acts : forall w, Forall (fun a => informational (code_of a) = false) acts ->
  Forall final_call (forwarded_all w acts).
Proof.
  assert (Hh : forall w code, informational code = false -> Forall final_call (header_calls w code)).
  { intros w code Hc. unfold header_calls. destruct (iw_wroteHeader w); [constructor|].
    destruct (_ && _); by repeat constructor. }
  induction acts as [|a acts IH]; intros w H; [constructor|]. apply Forall_cons in H as [Ha H].
  cbn [forwarded_all]. apply Forall_app. split; [|by apply IH].
  destruct a; simpl; try by repeat constructor.
  - by apply Hh.
  - apply Forall_app. split; [by apply Hh|]. destruct (iw_swapped _); by repeat constructor.
Qed.

(** C36. What [invoke_function] reports is what an HTTP client that sent no HEAD gets
    of the same run, whatever a guest that answers with no interim status writes, in
    whatever pieces, and whenever its deadline passes: the status is the client's,
    and as long as net/http sends what is written, because the status allows a body
    and no shorter length was declared, the body is the client's cut to the cap, the
    length is the whole body's, and the report says so exactly when something was
    cut. What net/http holds back is counted and shown by the report: its length is
    then that of what the guest wrote. *)
Theorem recorder_agrees cap method acts (Hcap : 0 <= cap) (Hmethod : method <> "HEAD")
    (Hcodes : Forall (fun a => informational (code_of a) = false) acts) :
  let r := record_run cap acts in
  let w := iw_rw (iw_run (new_iw (rw_set_header new_writer ∅)) acts) in
  let '(status, sent, body) := rw_Finish method w in
  rec_status r = status
  /\ rec_total r = rw_Handed w /\ str_len (rec_body r) <= cap
  /\ (body_allowed status = true -> (forall n, declared_length sent = Some n -> rec_total r <= n) ->
      rec_body r = str_take (Z.to_nat cap) body /\ rec_total r = str_len body
      /\ rec_truncated r = negb (rec_body r == body)).
Proof.
  cbv zeta. unfold record_run. rewrite forwarded_run.
  set (cs := forwarded_all _ acts). change (iw_rw (new_iw (rw_set_header new_writer ∅))) with new_writer.
  assert (Forall final_call cs) as Hf by by apply forwarded_final.
  destruct (records_calls cap cs Hcap Hf _ _ _ (records_new cap)) as [H1 _ H3 H4 H5 H6 H7].
  set (r := fold_left rec_call cs _) in *. set (w := fold_left rw_call cs _) in *.
  assert (str_len (rec_body r) <= cap) as Hlen by (rewrite H4, str_len_take by done; lia).
  unfold rw_Finish. destruct (method == "HEAD") eqn:Em; bool_facts; [done|].
  destruct (rw_Committed w) as [[status sent]|].
  - destruct H3 as [_ H3]. split_and!; [done|congruence|done|]. intros Hb Hn. cbn in H7. rewrite H6 in H7. rewrite H5 in Hn.
    assert (rw_Body w = "" +:+ call_bytes cs) as ->.
    { apply H7. split; [done|]. destruct (declared_length sent); [by apply Hn|done]. }
    rewrite H4, H5. unfold rec_truncated. rewrite H1, H5, <- cut_differs by done. done.
  - destruct H3 as (_ & H3 & Hb). split_and!; [done|congruence|done|]. intros _ _. rewrite Hb, H4, H5.
    unfold rec_truncated. rewrite H1, H5, <- cut_differs by done. done.
Qed.

(** ** Witnesses *)

(** The sample bundle, listed and deployed again. *)
Definition sample_redeploy : deployFunctionIn :=
  mkDeployIn "alice" "hello" "" false (map file_in (fs_Files (all_files sample_map))) None.

Lemma listing_deploys_back_witness :
  fs_Truncated (all_files sample_map) = false
  /\ deploy_files (fun _ => None) sample_redeploy = Ok sample_map.
Proof.
  assert (Unpack (A := sample_codec) "gz" = Ok sample_map) as Hu by (vm_compute; reflexivity).
  destruct (listing_deploys_back (A := sample_codec) (fun _ => None) "gz" sample_map sample_redeploy Hu eq_refl eq_refl)
    as (_ & _ & _ & _ & H).
  split; [vm_compute; reflexivity|]. apply H. vm_compute. reflexivity.
Defined.

Lemma recorder_agrees_witness :
  rec_body (record_run 2 [WriteHeader 201; Write "a"; Write "bcd"]) = "ab"
  /\ rec_truncated (record_run 2 [WriteHeader 201; Write "a"; Write "bcd"]) = true.
Proof.
  pose proof (recorder_agrees 2 "GET" [WriteHeader 201; Write "a"; Write "bcd"] ltac:(lia) ltac:(done) ltac:(repeat constructor)) as H.
  cbv zeta in H. destruct (rw_Finish _ _) as [[status sent] body] eqn:E. destruct H as (_ & _ & _ & H).
  vm_compute in E. injection E as <- <- <-. destruct (H eq_refl ltac:(intros n Hn; by vm_compute in Hn)) as (Hb & _ & Ht).
  rewrite Ht, Hb. by vm_compute.
Defined.

(** Where they differ: the recorder keeps a body that net/http refuses. *)
Example recorder_keeps_refused :
  let acts := [WriteHeader 204; Write "abc"] in
  rec_body (record_run 8 acts) = "abc"
  /\ (rw_Finish "GET" (iw_rw (iw_run (new_iw new_writer) acts))).2 = "".
Proof. by vm_compute. Qed.
