(* ===== verification/McpSessions.v ===== *)
(** * McpSessions: how many MCP sessions there are

    Models src/server/internal/mcpserver/mcpserver.go: [getServer] and
    [pruneClosedSessionsLocked], the handler's own table of the servers it gave
    out, beside the sessions the protocol library keeps. The library asks for a
    server, connects it, and closes the session when it idles, is deleted or
    fails to initialize; the events come in any order. *)

From S2P Require Import Prelude Types.

Definition mcpMaxSessionsPerUser : nat := 10.
Definition mcpMaxSessionsGlobal : nat := 400.

(** [h_sessions] with one entry per server; [lib_live] the servers that have a
    session, with the user who owns it. [h_next] names the next server. *)
Record SessionState := mkSessions {
  h_sessions : list (nat * string);
  lib_live : list (nat * string);
  h_next : nat
}.

Definition no_sessions : SessionState := mkSessions [] [] 0.

Definition is_live (s : SessionState) (server : nat) : bool :=
  existsb (fun x => (x.1 =? server)%nat) (lib_live s).

(** [pruneClosedSessionsLocked]. *)
Definition pruneClosedSessions (s : SessionState) : list (nat * string) :=
  List.filter (fun x => is_live s x.1) (h_sessions s).

Definition per_user (l : list (nat * string)) (uid : string) : nat :=
  length (List.filter (fun x => x.2 == uid) l).

(** [getServer], under the mutex: a new server, or none. *)
Definition getServer (s : SessionState) (uid : string) : SessionState * option nat :=
  let kept := pruneClosedSessions s in
  if (mcpMaxSessionsGlobal <=? length kept)%nat || (mcpMaxSessionsPerUser <=? per_user kept uid)%nat
  then (mkSessions kept (lib_live s) (h_next s), None)
  else (mkSessions ((h_next s, uid) :: kept) (lib_live s) (S (h_next s)), Some (h_next s)).

(** ** Runs

    [pending] are the servers given out and not connected yet. *)
Inductive session_event := EvGetServer (uid : string) | EvConnect (server : nat) | EvClose (server : nat).

Record session_run := mkRun { sr_state : SessionState; sr_pending : list (nat * string) }.

Inductive session_step : session_run -> session_event -> session_run -> Prop :=
| step_refused s p uid s' :
    getServer s uid = (s', None) -> session_step (mkRun s p) (EvGetServer uid) (mkRun s' p)
| step_given s p uid s' server :
    getServer s uid = (s', Some server) ->
    session_step (mkRun s p) (EvGetServer uid) (mkRun s' ((server, uid) :: p))
| step_connect s p p' server uid :
    p ≡ₚ (server, uid) :: p' ->
    session_step (mkRun s p) (EvConnect server)
      (mkRun (mkSessions (h_sessions s) ((server, uid) :: lib_live s) (h_next s)) p')
| step_failed s p p' server uid :
    p ≡ₚ (server, uid) :: p' -> session_step (mkRun s p) (EvClose server) (mkRun s p')
| step_close s p server :
    session_step (mkRun s p) (EvClose server)
      (mkRun (mkSessions (h_sessions s) (List.filter (fun x => negb (x.1 =? server)%nat) (lib_live s)) (h_next s)) p).

Inductive runs (ok : session_run -> session_event -> bool) : session_run -> Prop :=
| runs_start : runs ok (mkRun no_sessions [])
| runs_step r e r' : runs ok r -> ok r e = true -> session_step r e r' -> runs ok r'.

Definition any_order (r : session_run) (e : session_event) : bool := true.
(** No two requests for a server overlap. *)
Definition one_at_a_time (r : session_run) (e : session_event) : bool :=
  match e, sr_pending r with EvGetServer _, _ :: _ => false | _, _ => true end.

(** ** The caps *)

Definition capped (l : list (nat * string)) : Prop :=
  (length l <= mcpMaxSessionsGlobal)%nat /\ forall uid, (per_user l uid <= mcpMaxSessionsPerUser)%nat.

Lemma filter_length {A} (f : A -> bool) l : (length (List.filter f l) <= length l)%nat.
Proof. induction l as [|x l IH]; simpl; [lia|]. destruct (f x); simpl; lia. Qed.

Lemma per_user_filter f l uid : (per_user (List.filter f l) uid <= per_user l uid)%nat.
Proof.
  unfold per_user. induction l as [|x l IH]; simpl; [lia|].
  destruct (f x); simpl; destruct (x.2 == uid); simpl; lia.
Qed.

Lemma capped_filter f l : capped l -> capped (List.filter f l).
Proof.
  intros [H1 H2]. split; [pose proof (filter_length f l); lia|].
  intros uid. specialize (H2 uid). pose proof (per_user_filter f l uid). lia.
Qed.

Lemma getServer_capped s uid : capped (h_sessions s) -> capped (h_sessions (getServer s uid).1).
Proof.
  intros H. apply (capped_filter (fun x => is_live s x.1)) in H. fold (pruneClosedSessions s) in H.
  unfold getServer. destruct (_ || _) eqn:E; [exact H|]. apply orb_false_iff in E as [E1 E2].
  apply Nat.leb_gt in E1, E2. destruct H as [H1 H2]. split; simpl; [lia|].
  intros v. unfold per_user. simpl. destruct (uid == v) eqn:Ev; bool_facts; subst; [|apply H2].
  simpl. unfold per_user in E2. lia.
Qed.

Lemma filter_sub {A} (f : A -> bool) (l l' : list A) : l ⊆+ l' -> List.filter f l ⊆+ List.filter f l'.
Proof.
  induction 1 as [|x l l' _ IH|x y l|x l l' _ IH|l1 l2 l3 _ IH1 _ IH2]; simpl; [done|..].
  - destruct (f x); [by constructor|done].
  - destruct (f x), (f y); try done. constructor.
  - destruct (f x); [by constructor|done].
  - by etrans.
Qed.

Lemma capped_sub l l' : l ⊆+ l' -> capped l' -> capped l.
Proof.
  intros Hs [H1 H2]. split; [apply submseteq_length in Hs; lia|]. intros uid. specialize (H2 uid).
  unfold per_user in *. pose proof (submseteq_length _ _ (filter_sub (fun x => x.2 == uid) _ _ Hs)). lia.
Qed.

(** Live and awaited sessions are tracked ones: what holds as long as no request
    for a server overtakes another. *)
Record accounted (r : session_run) : Prop := {
  ac_nodup : NoDup (lib_live (sr_state r) ++ sr_pending r).*1;
  ac_fresh : Forall (fun x => (x.1 < h_next (sr_state r))%nat) (lib_live (sr_state r) ++ sr_pending r);
  ac_tracked : lib_live (sr_state r) ++ sr_pending r ⊆ h_sessions (sr_state r)
}.

Lemma NoDup_keys {A B} (l : list (A * B)) : NoDup l.*1 -> NoDup l.
Proof. apply NoDup_fmap_1. Qed.

Lemma accounted_sub r : accounted r -> lib_live (sr_state r) ⊆+ h_sessions (sr_state r).
Proof.
  intros [Hn _ Ht]. rewrite fmap_app in Hn. apply NoDup_app in Hn as (Hn & _).
  apply NoDup_submseteq; [by apply NoDup_keys|]. intros x Hx. apply Ht, elem_of_app. by left.
Qed.

(** With nothing pending, pruning drops no live session. *)
Lemma prune_keeps s : lib_live s ⊆ h_sessions s -> lib_live s ⊆ pruneClosedSessions s.
Proof.
  intros Ht x Hx. unfold pruneClosedSessions. apply list_elem_of_In, filter_In. split; [by apply list_elem_of_In, Ht|].
  apply existsb_exists. exists x. split; [by apply list_elem_of_In|]. apply Nat.eqb_refl.
Qed.

Lemma getServer_cases s uid :
  (getServer s uid = (mkSessions (pruneClosedSessions s) (lib_live s) (h_next s), None))
  \/ getServer s uid = (mkSessions ((h_next s, uid) :: pruneClosedSessions s) (lib_live s) (S (h_next s)), Some (h_next s)).
Proof. unfold getServer. destruct (_ || _); auto. Qed.

Lemma filter_less {A} (f : A -> bool) l : List.filter f l ⊆+ l.
Proof. induction l as [|x l IH]; simpl; [done|]. destruct (f x); by constructor. Qed.

Lemma accounted_less s p l p' : accounted (mkRun s p) -> l ++ p' ⊆+ lib_live s ++ p ->
  accounted (mkRun (mkSessions (h_sessions s) l (h_next s)) p').
Proof.
  intros [Hn Hf Ht] Hs. cbn in *. apply submseteq_Permutation in Hs as [k Hs]. rewrite Hs in Hn, Hf.
  rewrite fmap_app in Hn. apply NoDup_app in Hn as [Hn _]. apply Forall_app in Hf as [Hf _].
  split; cbn; [done|done|]. intros x Hx. apply Ht. rewrite Hs. apply elem_of_app. by left.
Qed.

Lemma accounted_step r e r' : one_at_a_time r e = true -> session_step r e r' -> accounted r -> accounted r'.
Proof.
  intros Ho Hs Ha. pose proof Ha as [Hn Hf Ht]. destruct Hs as [s p uid s' H|s p uid s' server H|s p p' server uid Hp|s p p' server uid Hp|s p server];
    cbn [sr_state sr_pending lib_live h_sessions h_next] in *.
  - destruct p; [|done]. rewrite app_nil_r in *. destruct (getServer_cases s uid) as [E|E]; rewrite E in H; [|done].
    injection H as <-. split; cbn; rewrite ?app_nil_r; [done|done|by apply prune_keeps].
  - destruct p; [|done]. rewrite app_nil_r in *. destruct (getServer_cases s uid) as [E|E]; rewrite E in H; [done|].
    injection H as <- <-. split; cbn.
    + rewrite fmap_app. apply NoDup_app. split_and!; [done| |apply NoDup_singleton].
      intros x Hx Hin. apply list_elem_of_singleton in Hin as ->. apply list_elem_of_fmap in Hx as ([i v] & Hi & Hx).
      rewrite Forall_forall in Hf. specialize (Hf _ Hx). simpl in *. lia.
    + apply Forall_app. split; [|by repeat constructor]. apply (Forall_impl _ _ _ Hf). intros; lia.
    + intros x Hx. apply elem_of_app in Hx as [Hx|Hx]; [right; by apply prune_keeps|].
      apply list_elem_of_singleton in Hx as ->. left.
  - apply (accounted_less s p); [done|]. rewrite Hp. simpl. by rewrite Permutation_middle.
  - destruct s as [t l n]. apply (accounted_less (mkSessions t l n) p); [done|]. cbn. rewrite Hp.
    apply submseteq_app; [done|]. by constructor.
  - apply (accounted_less s p); [done|]. apply submseteq_app; [apply filter_less|done].
Qed.

Lemma runs_accounted r : runs one_at_a_time r -> accounted r.
Proof.
  induction 1 as [|r e r' _ IH Ho Hs]; [|by eapply accounted_step].
  split; cbn; [constructor|constructor|done].
Qed.

Lemma runs_capped ok r : runs ok r -> capped (h_sessions (sr_state r)).
Proof.
  induction 1 as [|r e r' _ IH _ Hs]; [split; simpl; [|intros uid]; unfold mcpMaxSessionsGlobal, mcpMaxSessionsPerUser; cbn; lia|].
  destruct Hs as [s p uid s' H|s p uid s' server H| | |]; try exact IH;
    pose proof (getServer_capped s uid IH) as Hc; by rewrite H in Hc.
Qed.

(** ** Overlapping requests *)

(** The servers 0 to [n - 1], newest first. *)
Fixpoint servers (uid : string) (n : nat) : list (nat * string) :=
  match n with O => [] | S n => (n, uid) :: servers uid n end.

(** Each request finds the servers before it unconnected and forgets them. *)
Lemma overlapping_requests uid n :
  runs any_order (mkRun (mkSessions (take 1 (servers uid n)) [] n) (servers uid n)).
Proof.
  induction n as [|n IH]; [constructor|]. eapply runs_step; [exact IH|done|].
  change (servers uid (S n)) with ((n, uid) :: servers uid n). apply step_given.
  unfold getServer. cbn [h_sessions lib_live h_next].
  replace (pruneClosedSessions _) with (@nil (nat * string)) by (by destruct n). done.
Qed.

Lemma connect_all p : forall s, runs any_order (mkRun s p) ->
  runs any_order (mkRun (mkSessions (h_sessions s) (rev p ++ lib_live s) (h_next s)) []).
Proof.
  induction p as [|[i v] p IH]; intros s H; [by destruct s|]. cbn [rev]. rewrite <- app_assoc.
  apply (IH (mkSessions (h_sessions s) ((i, v) :: lib_live s) (h_next s))).
  eapply runs_step; [exact H|done|]. by apply (step_connect s ((i, v) :: p) p i v).
Qed.

Lemma servers_of uid n : per_user (servers uid n) uid = n.
Proof. induction n as [|n IH]; [done|]. unfold per_user in *. simpl. rewrite String.eqb_refl. simpl. by rewrite IH. Qed.

(** The caps on MCP sessions. However requests, connections and endings
    interleave, the handler tracks at most 400 servers and 10 per user. While no
    request for a server overtakes one that is not connected yet, the same bounds
    hold of the sessions that are live. When requests do overlap, nothing bounds
    the live sessions: any number of one user's can get through. *)
Theorem sessions_capped :
  (forall r, runs any_order r -> (length (h_sessions (sr_state r)) <= 400)%nat
     /\ forall uid, (per_user (h_sessions (sr_state r)) uid <= 10)%nat)
  /\ (forall r, runs one_at_a_time r -> (length (lib_live (sr_state r)) <= 400)%nat
     /\ forall uid, (per_user (lib_live (sr_state r)) uid <= 10)%nat)
  /\ (forall uid n, exists r, runs any_order r /\ per_user (lib_live (sr_state r)) uid = n).
Proof.
  split_and!.
  - intros r Hr. by apply (runs_capped any_order).
  - intros r Hr. apply (capped_sub _ (h_sessions (sr_state r))); [|by eapply runs_capped].
    by apply accounted_sub, runs_accounted.
  - intros uid n. eexists. split; [apply connect_all, overlapping_requests|]. cbn [sr_state lib_live].
    rewrite app_nil_r. unfold per_user. transitivity (per_user (servers uid n) uid); [|apply servers_of].
    unfold per_user. apply Permutation_length.
    assert (rev (servers uid n) ≡ₚ servers uid n) as E by (symmetry; apply Permutation_rev).
    apply submseteq_length_Permutation; [apply filter_sub; by rewrite E|].
    apply submseteq_length, filter_sub. by rewrite E.
Qed.

(** A user's eleventh session is refused. *)
Example eleventh_refused :
  let step s := (getServer s "U1").1 in
  let connect s := mkSessions (h_sessions s) (h_sessions s) (h_next s) in
  let ten := Nat.iter 10 (fun s => connect (step s)) no_sessions in
  length (h_sessions ten) = 10%nat /\ (getServer ten "U1").2 = None
  /\ (getServer ten "U2").2 = Some 10%nat.
Proof. by vm_compute. Qed.

Lemma sessions_capped_witness : exists r, runs any_order r /\ per_user (lib_live (sr_state r)) "U1" = 11%nat.
Proof. apply (proj2 (proj2 sessions_capped) "U1" 11%nat). Defined.
