(* ===== verification/Dynamo.v ===== *)
(** * Dynamo: a DynamoDB table and the programs that use it

    The service the store of src/server/internal/store/dynamodb talks to, by its
    documented behaviour (items, conditions, update expressions, transactions,
    batches, pages, eventually consistent reads), the helpers of helpers.go and the
    keys of keys.go. A repository method is a program whose calls are atomic one by
    one and nothing more: between two calls of one client, others may do theirs. *)

From stdpp Require Import sorting.
From S2P Require Import Prelude Types Store.

(** ** Items *)

(** The attribute values the program writes. The bytes of a version's file list are
    kept as the list they encode, as in [FunctionVersion]. *)
Inductive AttributeValue :=
| AV_S (s : string)
| AV_N (n : Z)
| AV_B (b : string)
| AV_L (l : list string)
| AV_Files (l : list (string * Z))
| AV_NULL.
#[export] Instance AttributeValue_eq_dec : EqDecision AttributeValue.
Proof. solve_decision. Defined.

Abbreviation Item := (gmap string AttributeValue).
Abbreviation Key := (string * string)%type.
Abbreviation Table := (gmap (string * string) (gmap string AttributeValue)).

Definition key_of (i : Item) : option Key :=
  match i !! "PK", i !! "SK" with
  | Some (AV_S pk), Some (AV_S sk) => Some (pk, sk)
  | _, _ => None
  end.

(** ** Conditions and updates *)

(** A condition on an item; a comparison with an absent attribute is false. *)
Inductive Cond :=
| Always
| Attribute_exists (a : string)
| Attribute_not_exists (a : string)
| Equals (a : string) (v : AttributeValue)
| LessThan (a : string) (n : Z)
| AtMost (a : string) (n : Z)
| GreaterThan (a : string) (n : Z)
| And (c d : Cond)
| Or (c d : Cond).

Definition compare_N (f : Z -> bool) (o : option AttributeValue) : bool :=
  match o with Some (AV_N m) => f m | _ => false end.

(** An absent item has no attributes. *)
Fixpoint holds (c : Cond) (o : option Item) : bool :=
  let i := default ∅ o in
  match c with
  | Always => true
  | Attribute_exists a => bool_decide (is_Some (i !! a))
  | Attribute_not_exists a => negb (bool_decide (is_Some (i !! a)))
  | Equals a v => bool_decide (i !! a = Some v)
  | LessThan a n => compare_N (fun m => m <? n) (i !! a)
  | AtMost a n => compare_N (fun m => m <=? n) (i !! a)
  | GreaterThan a n => compare_N (fun m => n <? m) (i !! a)
  | And c d => holds c o && holds d o
  | Or c d => holds c o || holds d o
  end.

(** The actions of an update expression; [AddTo] is [ADD], and also
    [SET a = if_not_exists(a, :zero) + :n]. *)
Inductive UpdateAction :=
| SetTo (a : string) (v : AttributeValue)
| SetIfAbsent (a : string) (v : AttributeValue)
| AddTo (a : string) (n : Z).

Definition action_attr (u : UpdateAction) : string :=
  match u with SetTo a _ | SetIfAbsent a _ | AddTo a _ => a end.

Definition act (u : UpdateAction) (i : Item) : option Item :=
  match u with
  | SetTo a v => Some (<[a := v]> i)
  | SetIfAbsent a v => Some (<[a := default v (i !! a)]> i)
  | AddTo a n =>
      match i !! a with
      | None => Some (<[a := AV_N n]> i)
      | Some (AV_N m) => Some (<[a := AV_N (m + n)]> i)
      | Some _ => None
      end
  end.

(** The service refuses to update an attribute of the key. The actions of one
    expression are on different attributes, so their order does not matter. *)
Fixpoint apply_updates (us : list UpdateAction) (i : Item) : option Item :=
  match us with
  | [] => Some i
  | u :: us =>
      if (action_attr u == "PK") || (action_attr u == "SK") then None
      else match act u i with Some i => apply_updates us i | None => None end
  end.

(** ** Writes *)

Inductive Write :=
| Put (i : Item)
| Delete (k : Key)
| Update (k : Key) (us : list UpdateAction).

Definition write_key (x : Write) : option Key :=
  match x with Put i => key_of i | Delete k | Update k _ => Some k end.

Definition bare_item (k : Key) : Item := {[ "PK" := AV_S k.1; "SK" := AV_S k.2 ]}.

(** What the write leaves under its key; [None] if the service refuses it. *)
Definition write_item (x : Write) (o : option Item) : option (option Item) :=
  match x with
  | Put i => Some (Some i)
  | Delete _ => Some None
  | Update k us => option_map Some (apply_updates us (default (bare_item k) o))
  end.

Definition do_write (x : Write) (t : Table) : option Table :=
  match write_key x with
  | None => None
  | Some k => match write_item x (t !! k) with
              | Some o => Some (partial_alter (fun _ => o) k t)
              | None => None
              end
  end.

Fixpoint do_writes (xs : list Write) (t : Table) : option Table :=
  match xs with
  | [] => Some t
  | x :: xs => match do_write x t with Some t => do_writes xs t | None => None end
  end.

(** The errors of the service that the program tells apart. *)
Inductive DErr :=
| ConditionalCheckFailed
| TransactionCanceled (reasons : list bool)
| OtherError.

(** A request is refused as a whole when two of its writes are on one key. *)
Definition distinct_keys (xs : list Write) : bool :=
  forallb (fun x => bool_decide (is_Some (write_key x))) xs && bool_decide (NoDup (map write_key xs)).

Definition condition_fails (t : Table) (cx : Cond * Write) : bool :=
  match write_key cx.2 with Some k => negb (holds cx.1 (t !! k)) | None => false end.

Definition conditional (c : Cond) (x : Write) (t : Table) : result DErr (option Item * Table) :=
  match write_key x with
  | None => Err OtherError
  | Some k =>
      guard! holds c (t !! k) else ConditionalCheckFailed in
      match do_write x t with Some t' => Ok (t !! k, t') | None => Err OtherError end
  end.

Definition transact (cxs : list (Cond * Write)) (t : Table) : result DErr Table :=
  guard! distinct_keys (map snd cxs) else OtherError in
  let reasons := map (condition_fails t) cxs in
  guard! negb (existsb id reasons) else TransactionCanceled reasons in
  match do_writes (map snd cxs) t with Some t => Ok t | None => Err OtherError end.

(** ** Reads *)

Record QueryInput := mkQuery {
  q_pk : string;
  q_prefix : string;
  q_before : option string;
  q_forward : bool;
  q_limit : option Z
}.

Definition key_le (x y : Key * Item) : Prop :=
  String.ltb x.1.1 y.1.1 = true \/ (x.1.1 = y.1.1 /\ String.leb x.1.2 y.1.2 = true).
#[export] Instance key_le_dec : RelDecision key_le.
Proof. intros x y. unfold key_le. apply _. Defined.

(** The items in the order of their keys. *)
Definition in_order (t : Table) : list (Key * Item) := merge_sort key_le (map_to_list t).

Definition selects (q : QueryInput) (ki : Key * Item) : bool :=
  (ki.1.1 == q_pk q) && has_prefix ki.1.2 (q_prefix q)
  && match q_before q with Some c => String.ltb ki.1.2 c | None => true end.

Definition query_items (q : QueryInput) (t : Table) : list Item :=
  let l := map snd (List.filter (selects q) (in_order t)) in
  let l := if q_forward q then l else rev l in
  match q_limit q with Some n => take (Z.to_nat n) l | None => l end.

Definition after (start : option Key) (ki : Key * Item) : bool :=
  match start with
  | None => true
  | Some k => bool_decide (key_le (k, ∅) ki) && negb (bool_decide (ki.1 = k))
  end.

(** ** Calls *)

Inductive call : Set -> Type :=
| Now : call Time
| NewID : call string
| GetItem (k : Key) : call (result DErr (option Item))
| PutItem (c : Cond) (i : Item) : call (result DErr unit)
| UpdateItem (c : Cond) (k : Key) (us : list UpdateAction) : call (result DErr unit)
| DeleteItem (c : Cond) (k : Key) : call (result DErr (option Item))
| Query (q : QueryInput) : call (result DErr (list Item))
| Scan (f : Cond) (start : option Key) : call (result DErr (list Item * option Key))
| TransactWriteItems (cxs : list (Cond * Write)) : call (result DErr unit)
| BatchWriteItem (xs : list Write) : call (result DErr (list Write))
| BatchGetItem (ks : list Key) : call (result DErr (list Item)).

(** The table as it is committed and as it was before each write; the clock and the
    number of identifiers handed out. *)
Record DB := mkDB { cur : Table; past : list Table; clock : Time; issued : nat }.

Definition commit (db : DB) (t : Table) : DB := mkDB t (cur db :: past db) (clock db) (issued db).

(** What the service may do besides what it is asked for: fail before or after a
    write took effect, read an older version of an item, cut a result short at a
    page, leave writes of a batch undone. *)
Inductive Fault := NoFault | Lost | Unanswered.
Record Weather := mkWeather {
  w_fault : Fault;
  w_view : option Table;
  w_page : option nat;
  w_undone : list bool
}.
Definition calm : Weather := mkWeather NoFault None None [].

(** Each item a reader sees is one it was at some time. *)
Definition possible (w : Weather) (db : DB) : Prop :=
  match w_view w with
  | None => True
  | Some v => forall k, exists t, t ∈ cur db :: past db /\ v !! k = t !! k
  end.

Definition seen (w : Weather) (db : DB) : Table := default (cur db) (w_view w).

Definition paged {A} (w : Weather) (l : list A) : list A :=
  match w_page w with Some n => take (S n) l | None => l end.

Definition reading {A} (w : Weather) (r : result DErr A) (db : DB) : result DErr A * DB :=
  match w_fault w with NoFault => (r, db) | _ => (Err OtherError, db) end.

Definition writing {A} (w : Weather) (r : result DErr (A * Table)) (db : DB) : result DErr A * DB :=
  match w_fault w, r with
  | NoFault, Ok (a, t) => (Ok a, commit db t)
  | NoFault, Err e => (Err e, db)
  | Unanswered, Ok (_, t) => (Err OtherError, commit db t)
  | _, _ => (Err OtherError, db)
  end.

(** The writes a batch leaves undone; never all of them. *)
Fixpoint split_undone (mask : list bool) (xs : list Write) : list Write * list Write :=
  match xs, mask with
  | x :: xs, true :: mask => let '(d, u) := split_undone mask xs in (d, x :: u)
  | x :: xs, _ :: mask => let '(d, u) := split_undone mask xs in (x :: d, u)
  | xs, _ => (xs, [])
  end.

Definition batch_write (w : Weather) (xs : list Write) (t : Table) : result DErr (list Write * Table) :=
  guard! distinct_keys xs && (0 <? Z.of_nat (length xs)) && (Z.of_nat (length xs) <=? 25) else OtherError in
  let '(d, u) := split_undone (w_undone w) xs in
  let '(d, u) := match d with [] => (xs, []) | _ => (d, u) end in
  match do_writes d t with Some t => Ok (u, t) | None => Err OtherError end.

Definition scan_page (w : Weather) (f : Cond) (start : option Key) (t : Table) : list Item * option Key :=
  let rest := List.filter (after start) (in_order t) in
  let evaluated := paged w rest in
  (List.filter (fun i => holds f (Some i)) (map snd evaluated),
   if (length evaluated <? length rest)%nat then fst <$> last evaluated else None).

Section Exec.
Context {I : IdGen}.

Definition exec {R : Set} (w : Weather) (c : call R) (db : DB) : R * DB :=
  match c in call R return R * DB with
  | Now => (clock db, db)
  | NewID => (ulid (issued db), mkDB (cur db) (past db) (clock db) (S (issued db)))
  | GetItem k => reading w (Ok (seen w db !! k)) db
  | PutItem c i => writing w (let! r := conditional c (Put i) (cur db) in Ok (tt, r.2)) db
  | UpdateItem c k us => writing w (let! r := conditional c (Update k us) (cur db) in Ok (tt, r.2)) db
  | DeleteItem c k => writing w (conditional c (Delete k) (cur db)) db
  | Query q => reading w (Ok (paged w (query_items q (seen w db)))) db
  | Scan f start => reading w (Ok (scan_page w f start (seen w db))) db
  | TransactWriteItems cxs => writing w (let! t := transact cxs (cur db) in Ok (tt, t)) db
  | BatchWriteItem xs => writing w (batch_write w xs (cur db)) db
  | BatchGetItem ks =>
      reading w (guard! bool_decide (NoDup ks) && (Z.of_nat (length ks) <=? 100) else OtherError in
                 Ok (omap (fun k => seen w db !! k) ks)) db
  end.
End Exec.

(** ** Programs *)

Inductive prog (A : Type) : Type :=
| Ret (a : A)
| Do {R : Set} (c : call R) (k : R -> prog A).
Arguments Ret {A} a.
Arguments Do {A R} c k.

Fixpoint pbind {A B} (p : prog A) (f : A -> prog B) : prog B :=
  match p with
  | Ret a => f a
  | Do c k => Do c (fun r => pbind (k r) f)
  end.

(** A method returns a value or an error of the store. *)
Definition D (A : Type) : Type := prog (result StoreErr A).
Definition dret {A} (a : A) : D A := Ret (Ok a).
Definition dthrow {A} (e : StoreErr) : D A := Ret (Err e).
Definition dbind {A B} (p : D A) (f : A -> D B) : D B :=
  pbind p (fun r => match r with Ok a => f a | Err e => Ret (Err e) end).
(** Look at the error of an operation. *)
Definition dtry {A B} (p : D A) (f : result StoreErr A -> D B) : D B := pbind p f.

Declare Scope d_scope.
Delimit Scope d_scope with d.
Notation "'do!' x '<-' m ';' k" := (dbind m (fun x => k))
  (at level 10, x pattern, m at level 100, k at level 200) : d_scope.
Notation "'run!' m ';' k" := (dbind m (fun _ => k))
  (at level 10, m at level 100, k at level 200) : d_scope.
Notation "'try!' r '<-' m ';' k" := (dtry m (fun r => k))
  (at level 10, r pattern, m at level 100, k at level 200) : d_scope.

(** One client alone, with a service that does what it is asked for. *)
Fixpoint run {I : IdGen} {A} (p : prog A) (db : DB) : A * DB :=
  match p with
  | Ret a => (a, db)
  | Do c k => let '(r, db) := exec calm c db in run (k r) db
  end.

(** The same, stopped after [n] calls. *)
Fixpoint crash {I : IdGen} {A} (n : nat) (p : prog A) (db : DB) : DB :=
  match n, p with
  | S n, Do c k => let '(r, db) := exec calm c db in crash n (k r) db
  | _, _ => db
  end.

(** Any number of clients: one of them has its next call executed, in any weather;
    or time goes by. *)
Inductive step {I : IdGen} {A} : list (prog A) * DB -> list (prog A) * DB -> Prop :=
| step_call {R : Set} ps n (c : call R) k w db r db' :
    ps !! n = Some (Do c k) -> possible w db -> exec w c db = (r, db') ->
    step (ps, db) (<[n := k r]> ps, db')
| step_clock ps db t : clock db <= t -> step (ps, db) (ps, mkDB (cur db) (past db) t (issued db)).

(** ** helpers.go *)

Definition getItem (k : Key) : D Item :=
  Do (GetItem k) (fun r =>
    match r with
    | Ok (Some i) => dret i
    | Ok None => dthrow ErrNotFound
    | Err _ => dthrow ErrBackend
    end).

(** A write whose failed condition means [e]. *)
Definition failing (e : StoreErr) (r : result DErr unit) : D unit :=
  match r with
  | Ok _ => dret tt
  | Err ConditionalCheckFailed => dthrow e
  | Err _ => dthrow ErrBackend
  end.

Definition putItem (i : Item) : D unit := Do (PutItem Always i) (failing ErrBackend).
Definition putItemIfNotExists (i : Item) : D unit :=
  Do (PutItem (Attribute_not_exists "PK") i) (failing ErrConflict).
Definition putItemIfExists (i : Item) : D unit :=
  Do (PutItem (Attribute_exists "PK") i) (failing ErrNotFound).
Definition updateItemIfExists (k : Key) (us : list UpdateAction) : D unit :=
  Do (UpdateItem (Attribute_exists "PK") k us) (failing ErrNotFound).
Definition upsertItem (k : Key) (us : list UpdateAction) : D unit :=
  Do (UpdateItem Always k us) (failing ErrBackend).

Definition deleting (e : StoreErr) (r : result DErr (option Item)) : D unit :=
  failing e (let! _ := r in Ok tt).
Definition deleteItem (k : Key) : D unit := Do (DeleteItem Always k) (deleting ErrBackend).
Definition deleteItemIfExists (k : Key) : D unit :=
  Do (DeleteItem (Attribute_exists "PK") k) (deleting ErrNotFound).

Definition transactionConditionFailed (e : DErr) : bool :=
  match e with TransactionCanceled reasons => existsb id reasons | _ => false end.
Definition conditionalCheckFailedAt (e : DErr) (n : nat) : bool :=
  match e with TransactionCanceled reasons => default false (reasons !! n) | _ => false end.

Definition transactWrite (cxs : list (Cond * Write)) : prog (result DErr unit) :=
  Do (TransactWriteItems cxs) Ret.

(** A transaction whose failed conditions, in whatever write, mean [e]. *)
Definition transactOr (e : StoreErr) (cxs : list (Cond * Write)) : D unit :=
  pbind (transactWrite cxs) (fun r =>
    match r with
    | Ok _ => dret tt
    | Err err => dthrow (if transactionConditionFailed err then e else ErrBackend)
    end).

Definition query (q : QueryInput) : D (list Item) :=
  Do (Query q) (fun r => match r with Ok l => dret l | Err _ => dthrow ErrBackend end).

(** One chunk of a batch: what is left undone is requested again. A request leaves
    fewer undone than it had, so the length of the chunk bounds the requests. *)
Fixpoint batch_chunk (fuel : nat) (xs : list Write) : D unit :=
  match xs, fuel with
  | [], _ => dret tt
  | _, O => dthrow ErrBackend
  | _, S fuel =>
      Do (BatchWriteItem xs) (fun r =>
        match r with Ok rest => batch_chunk fuel rest | Err _ => dthrow ErrBackend end)
  end.

Fixpoint chunks {A} (fuel n : nat) (l : list A) : list (list A) :=
  match fuel, l with
  | S fuel, _ :: _ => take n l :: chunks fuel n (drop n l)
  | _, _ => []
  end.

Fixpoint batch_chunks (cs : list (list Write)) : D unit :=
  match cs with
  | [] => dret tt
  | c :: cs => dbind (batch_chunk (length c) c) (fun _ => batch_chunks cs)
  end.

Definition batchWrite (xs : list Write) : D unit := batch_chunks (chunks (length xs) 25 xs).

Fixpoint batch_get_chunks (cs : list (list Key)) : D (list Item) :=
  match cs with
  | [] => dret []
  | c :: cs =>
      Do (BatchGetItem c) (fun r =>
        match r with
        | Ok l => dbind (batch_get_chunks cs) (fun rest => dret (l ++ rest))
        | Err _ => dthrow ErrBackend
        end)
  end.

(** Keys the service leaves unprocessed are requested again until it has answered
    all of them: a call stands for these requests. *)
Definition batchGetItems (ks : list Key) : D (list Item) := batch_get_chunks (chunks (length ks) 100 ks).

(** [scanPages] of users.go, with a visitor that carries what it collected; [pages]
    bounds the pages of one scan. *)
Section Scan.
Context {S : Type} (f : Cond) (visit : Item -> S -> D (bool * S)).

Fixpoint visit_all (l : list Item) (s : S) : D (bool * S) :=
  match l with
  | [] => dret (true, s)
  | i :: l => dbind (visit i s) (fun '(cont, s) => if cont : bool then visit_all l s else dret (false, s))
  end.

Fixpoint scanPages (pages : nat) (start : option Key) (s : S) : D S :=
  match pages with
  | O => dthrow ErrBackend
  | Datatypes.S pages =>
      Do (Scan f start) (fun r =>
        match r with
        | Err _ => dthrow ErrBackend
        | Ok (l, last) =>
            dbind (visit_all l s) (fun '(cont, s) =>
              if negb cont then dret s
              else match last with None => dret s | Some k => scanPages pages (Some k) s end)
        end)
  end.
End Scan.

(** ** Attributes of a Go struct

    [attributevalue.MarshalMap] and [UnmarshalMap]: an absent attribute and a NULL
    leave a field at its zero value, one of another type is an error. *)

Definition S_attr (i : Item) (a : string) : result StoreErr string :=
  match i !! a with
  | None | Some AV_NULL => Ok ""
  | Some (AV_S s) => Ok s
  | _ => Err ErrBackend
  end.
Definition N_attr (i : Item) (a : string) : result StoreErr Z :=
  match i !! a with
  | None | Some AV_NULL => Ok 0
  | Some (AV_N n) => Ok n
  | _ => Err ErrBackend
  end.
Definition B_attr (i : Item) (a : string) : result StoreErr string :=
  match i !! a with
  | None | Some AV_NULL => Ok ""
  | Some (AV_B b) => Ok b
  | _ => Err ErrBackend
  end.
Definition L_attr (i : Item) (a : string) : result StoreErr (list string) :=
  match i !! a with
  | None | Some AV_NULL => Ok []
  | Some (AV_L l) => Ok l
  | _ => Err ErrBackend
  end.
Definition Files_attr (i : Item) (a : string) : result StoreErr (list (string * Z)) :=
  match i !! a with
  | None | Some AV_NULL => Ok []
  | Some (AV_Files l) => Ok l
  | _ => Err ErrBackend
  end.
(** A field that is a pointer to a string. *)
Definition P_attr (i : Item) (a : string) : result StoreErr (option string) :=
  match i !! a with
  | None | Some AV_NULL => Ok None
  | Some (AV_S s) => Ok (Some s)
  | _ => Err ErrBackend
  end.
Definition P_av (o : option string) : AttributeValue := from_option AV_S AV_NULL o.

(** A string enumeration: the text of each constructor, and back. *)
Definition enum_attr {A} (parse : string -> option A) (i : Item) (a : string) : result StoreErr A :=
  let! s := S_attr i a in match parse s with Some x => Ok x | None => Err ErrBackend end.

(** A struct with its key and the marker of its entity. *)
Definition skMeta : string := "META".
Definition item (pk sk entity : string) (fields : list (string * AttributeValue)) : Item :=
  list_to_map ([("PK", AV_S pk); ("SK", AV_S sk); ("Entity", AV_S entity)] ++ fields).

Definition decode {A} (f : Item -> result StoreErr A) (i : Item) : D A := Ret (f i).
Fixpoint decode_all {A} (f : Item -> result StoreErr A) (l : list Item) : D (list A) :=
  match l with
  | [] => dret []
  | i :: l => dbind (decode f i) (fun x => dbind (decode_all f l) (fun xs => dret (x :: xs)))
  end.

(** [nowUnix], and [if x.ID == "" { x.ID = store.NewID() }]. *)
Definition nowUnix : D Z := Do Now (fun t => dret (toUnix t)).
Definition fresh_id (id : string) : D string := if id == "" then Do NewID dret else dret id.
