(* ===== verification/DynamoLogic.v ===== *)
(** * DynamoLogic: reasoning about programs on a DynamoDB table

    What a single client's helpers compute when the service does what it is asked for;
    what one call, in whatever weather, does to one key and answers; and from there what
    any number of interleaved clients can do to the item under a key. *)

From stdpp Require Import sorting.
From S2P Require Import Prelude Types Store Dynamo.

(** ** Running one client *)

Section Run.
Context {I : IdGen}.

Lemma run_pbind {A B} (p : prog A) (f : A -> prog B) db :
  run (pbind p f) db = let '(a, db) := run p db in run (f a) db.
Proof.
  revert db. induction p as [a|R c k IH]; intros db; simpl; [done|].
  destruct (exec calm c db) as [r db']. apply IH.
Qed.

Lemma run_dbind {A B} (p : D A) (f : A -> D B) db :
  run (dbind p f) db = match run p db with (Ok a, db) => run (f a) db | (Err e, db) => (Err e, db) end.
Proof. unfold dbind. rewrite run_pbind. destruct (run p db) as [[a|e] db']; done. Qed.

Lemma run_dtry {A B} (p : D A) (f : result StoreErr A -> D B) db :
  run (dtry p f) db = let '(r, db) := run p db in run (f r) db.
Proof. apply run_pbind. Qed.

Lemma run_decode_all {A} (f : Item -> result StoreErr A) l xs db :
  mapM (M := option) (fun i => match f i with Ok x => Some x | Err _ => None end) l = Some xs ->
  run (decode_all f l) db = (Ok xs, db).
Proof.
  revert xs. induction l as [|i l IH]; intros xs H; simpl in H; [by injection H as <-|].
  destruct (f i) eqn:E; simpl in H; [|done].
  destruct (mapM _ l) as [ys|] eqn:El; simpl in H; [|done]. injection H as <-.
  simpl. rewrite run_dbind. unfold decode. simpl. rewrite E, run_dbind, (IH ys) by done. done.
Qed.

(** Stopping never undoes what was done: a stopped run is the beginning of the run. *)
Lemma crash_bind {A B} n (p : prog A) (f : A -> prog B) db :
  exists m, crash n (pbind p f) db = crash n p db \/ crash n (pbind p f) db = crash m (f (run p db).1) (run p db).2.
Proof.
  revert n db. induction p as [a|R c k IH]; intros n db; simpl; [by exists n; right|].
  destruct n as [|n]; [by exists O; left|]. simpl. destruct (exec calm c db) as [r db']. apply IH.
Qed.
End Run.

(** ** What a call does to one key *)

(** The writes a call asks for. *)
Definition writes_of {R : Set} (c : call R) : list (Cond * Write) :=
  match c with
  | PutItem c i => [(c, Put i)]
  | UpdateItem c k us => [(c, Update k us)]
  | DeleteItem c k => [(c, Delete k)]
  | TransactWriteItems cxs => cxs
  | BatchWriteItem xs => map (fun x => (Always, x)) xs
  | _ => []
  end.

(** One write of [l], whose condition held, made [o'] of [o] under [k]. *)
Definition touches (k : Key) (l : list (Cond * Write)) (o o' : option Item) : Prop :=
  exists c x, (c, x) ∈ l /\ write_key x = Some k /\ holds c o = true /\ write_item x o = Some o'.

Lemma do_write_at x t t' k : do_write x t = Some t' ->
  t' !! k = t !! k \/ (write_key x = Some k /\ write_item x (t !! k) = Some (t' !! k)).
Proof.
  unfold do_write. destruct (write_key x) as [k'|]; [|done]. destruct (write_item x (t !! k')) as [o|] eqn:E; [|done].
  intros H. injection H as <-. destruct (decide (k' = k)) as [->|].
  - right. by rewrite lookup_partial_alter_eq.
  - left. by rewrite lookup_partial_alter_ne.
Qed.

Lemma do_writes_at xs t t' k : NoDup (map write_key xs) -> do_writes xs t = Some t' ->
  t' !! k = t !! k \/ exists x, x ∈ xs /\ write_key x = Some k /\ write_item x (t !! k) = Some (t' !! k).
Proof.
  revert t. induction xs as [|x xs IH]; intros t Hd H; simpl in H; [injection H as <-; by left|].
  apply NoDup_cons in Hd as [Hx Hd]. destruct (do_write x t) as [t1|] eqn:E; [|done].
  destruct (do_write_at _ _ _ k E) as [E1|[Hk E1]], (IH t1 Hd H) as [E2|(y & Hy & Hky & E2)].
  - left. congruence.
  - right. exists y. rewrite <- E1. split_and!; [by right|done|done].
  - right. exists x. rewrite E2. split_and!; [by left|done|done].
  - exfalso. apply Hx. rewrite Hk, <- Hky. apply list_elem_of_fmap. eauto.
Qed.

Lemma distinct_spec xs : distinct_keys xs = true -> NoDup (map write_key xs) /\ forall x, x ∈ xs -> is_Some (write_key x).
Proof.
  unfold distinct_keys. rewrite andb_true_iff, forallb_forall, bool_decide_eq_true. intros [H Hd]. split; [done|].
  intros x Hx. apply list_elem_of_In, H in Hx. by apply bool_decide_eq_true in Hx.
Qed.

Lemma conditional_at c x t r t' k : conditional c x t = Ok (r, t') ->
  t' !! k = t !! k \/ touches k [(c, x)] (t !! k) (t' !! k).
Proof.
  unfold conditional. destruct (write_key x) as [k'|] eqn:Ek; [|done]. destruct (holds c (t !! k')) eqn:Eh; [|done].
  destruct (do_write x t) as [t1|] eqn:E; [|done]. intros H. injection H as _ ->.
  destruct (do_write_at _ _ _ k E) as [E1|[Hk E1]]; [by left|right].
  assert (k' = k) as -> by congruence. exists c, x. split_and!; [by left|done|done|done].
Qed.

Lemma transact_at cxs t t' k : transact cxs t = Ok t' -> t' !! k = t !! k \/ touches k cxs (t !! k) (t' !! k).
Proof.
  unfold transact. destruct (distinct_keys _) eqn:Ed; [|done]. apply distinct_spec in Ed as [Hd _].
  destruct (existsb _ _) eqn:Er; [done|]. simpl. destruct (do_writes _ t) as [t1|] eqn:E; [|done].
  intros H. injection H as ->. destruct (do_writes_at _ _ _ k Hd E) as [E1|(x & Hx & Hk & E1)]; [by left|right].
  apply list_elem_of_fmap in Hx as ([c y] & -> & Hc). exists c, y. split_and!; [done|done| |done].
  destruct (holds c (t !! k)) eqn:Eh; [done|]. exfalso.
  assert (existsb id (map (condition_fails t) cxs) = true); [|congruence]. apply existsb_exists. exists true. split; [|done].
  apply in_map_iff. exists (c, y). split; [|by apply list_elem_of_In]. unfold condition_fails. cbn [fst snd]. simpl in Hk.
  by rewrite Hk, Eh.
Qed.

(** A transaction does all of its writes, under their conditions. *)
Lemma do_writes_all xs t t' x k : NoDup (map write_key xs) -> do_writes xs t = Some t' -> x ∈ xs ->
  write_key x = Some k -> write_item x (t !! k) = Some (t' !! k).
Proof.
  revert t. induction xs as [|y xs IH]; intros t Hd H Hx Hk; [by apply not_elem_of_nil in Hx|].
  apply NoDup_cons in Hd as [Hy Hd]. simpl in H. destruct (do_write y t) as [t1|] eqn:E; [|done].
  apply elem_of_cons in Hx as [->|Hx].
  - assert (t' !! k = t1 !! k) as ->.
    { destruct (do_writes_at _ _ _ k Hd H) as [|(z & Hz & Hkz & _)]; [done|]. exfalso. apply Hy. rewrite Hk, <- Hkz.
      apply list_elem_of_fmap. eauto. }
    unfold do_write in E. rewrite Hk in E. destruct (write_item y (t !! k)) as [o|]; [|done]. injection E as <-.
    by rewrite lookup_partial_alter_eq.
  - assert (t1 !! k = t !! k) as <-; [|by apply IH].
    destruct (do_write_at _ _ _ k E) as [|[Hky _]]; [done|]. exfalso. apply Hy. rewrite Hky, <- Hk. apply list_elem_of_fmap. eauto.
Qed.

Lemma transact_all cxs t t' c x k : transact cxs t = Ok t' -> (c, x) ∈ cxs -> write_key x = Some k ->
  holds c (t !! k) = true /\ write_item x (t !! k) = Some (t' !! k).
Proof.
  unfold transact. destruct (distinct_keys _) eqn:Ed; [|done]. apply distinct_spec in Ed as [Hd _].
  destruct (existsb _ _) eqn:Er; [done|]. simpl. destruct (do_writes _ t) as [t1|] eqn:E; [|done].
  intros H Hx Hk. injection H as ->. split.
  - destruct (holds c (t !! k)) eqn:Eh; [done|]. exfalso.
    assert (existsb id (map (condition_fails t) cxs) = true); [|congruence]. apply existsb_exists. exists true. split; [|done].
    apply in_map_iff. exists (c, x). split; [|by apply list_elem_of_In]. unfold condition_fails. cbn [fst snd]. by rewrite Hk, Eh.
  - eapply do_writes_all; [done|done| |done]. apply list_elem_of_fmap. by exists (c, x).
Qed.

Lemma split_undone_sub mask xs d u : split_undone mask xs = (d, u) ->
  d `sublist_of` xs /\ u `sublist_of` xs /\ (length d + length u = length xs)%nat.
Proof.
  revert mask d u. induction xs as [|x xs IH]; intros mask d u H; [destruct mask; injection H as <- <-; by split_and!|].
  destruct mask as [|b mask]; simpl in H.
  - injection H as <- <-. split_and!; [done|apply sublist_nil_l|simpl; lia].
  - destruct (split_undone mask xs) as [d' u'] eqn:E. destruct (IH _ _ _ E) as (H1 & H2 & H3).
    destruct b; injection H as <- <-; split_and!; simpl; try lia; by constructor.
Qed.

Lemma batch_done w xs t r t' : batch_write w xs t = Ok (r, t') ->
  exists d, d `sublist_of` xs /\ r `sublist_of` xs /\ (length d + length r = length xs)%nat /\ d <> []
    /\ distinct_keys xs = true /\ do_writes d t = Some t'.
Proof.
  unfold batch_write. destruct (distinct_keys xs && _ && _) eqn:Eg; [|done]. bool_facts.
  destruct (split_undone (w_undone w) xs) as [d u] eqn:Es.
  destruct (split_undone_sub _ _ _ _ Es) as (H3 & H4 & H5). destruct d as [|x d].
  - destruct (do_writes xs t) as [t1|] eqn:E; [|done]. intros Hr. injection Hr as <- <-. exists xs.
    split_and!; [done|apply sublist_nil_l|simpl; lia|by intros ->|done|done].
  - destruct (do_writes (x :: d) t) as [t1|] eqn:E; [|done]. intros Hr. injection Hr as <- <-. by exists (x :: d).
Qed.

Lemma map_sublist {A B} (f : A -> B) l l' : l `sublist_of` l' -> map f l `sublist_of` map f l'.
Proof. induction 1; simpl; by constructor. Qed.

Lemma batch_at w xs t r t' k : batch_write w xs t = Ok (r, t') ->
  t' !! k = t !! k \/ touches k (map (fun x => (Always, x)) xs) (t !! k) (t' !! k).
Proof.
  intros H. apply batch_done in H as (d & Hd & _ & _ & _ & Hk & E). apply distinct_spec in Hk as [Hk _].
  assert (NoDup (map write_key d)) as Hk' by (apply (sublist_NoDup _ (map write_key xs)); [done|by apply map_sublist]).
  destruct (do_writes_at _ _ _ k Hk' E) as [E1|(x & Hx & Hkx & E1)]; [by left|right].
  exists Always, x. split_and!; try done. apply list_elem_of_fmap. exists x. split; [done|].
  by eapply elem_of_sublist.
Qed.

(** ** What a call answers *)

(** Every item is stored under the key it carries. *)
Definition keyed (t : Table) : Prop := forall k i, t !! k = Some i -> key_of i = Some k.
Definition well_keyed (db : DB) : Prop := Forall keyed (cur db :: past db).

Definition reply {R : Set} (c : call R) : R -> Prop :=
  match c in call R return R -> Prop with
  | GetItem k => fun r => forall i, r = Ok (Some i) -> key_of i = Some k
  | DeleteItem c k => fun r => forall o, r = Ok o -> holds c o = true /\ forall i, o = Some i -> key_of i = Some k
  | Query q => fun r => forall l i, r = Ok l -> i ∈ l -> exists sk, key_of i = Some (q_pk q, sk) /\ has_prefix sk (q_prefix q) = true
  | Scan f _ => fun r => forall l last i, r = Ok (l, last) -> i ∈ l -> is_Some (key_of i) /\ holds f (Some i) = true
  | BatchWriteItem xs => fun r => forall rest, r = Ok rest -> rest `sublist_of` xs
  | BatchGetItem ks => fun r => forall l i, r = Ok l -> i ∈ l -> exists k, k ∈ ks /\ key_of i = Some k
  | _ => fun _ => True
  end.

Lemma apply_updates_key us i i' : apply_updates us i = Some i' -> key_of i' = key_of i.
Proof.
  revert i. induction us as [|u us IH]; intros i H; simpl in H; [by injection H as <-|].
  destruct ((_ == "PK") || _) eqn:Ek; [done|]. bool_facts. destruct (act u i) as [j|] eqn:Ea; [|done].
  rewrite (IH _ H). unfold key_of.
  assert (forall a, a <> action_attr u -> j !! a = i !! a) as Hj.
  { intros a Ha. destruct u as [b v|b v|b n]; simpl in Ea, Ha; [..|destruct (i !! b) as [[]|]; try done];
      injection Ea as <-; by rewrite lookup_insert_ne. }
  by rewrite !Hj by done.
Qed.

Lemma bare_item_key k : key_of (bare_item k) = Some k.
Proof. by destruct k. Qed.

Lemma do_write_keyed x t t' : keyed t -> do_write x t = Some t' -> keyed t'.
Proof.
  intros Ht H k i Hi. destruct (do_write_at _ _ _ k H) as [E|[Hk E]]; [apply Ht; congruence|].
  rewrite Hi in E. destruct x as [j|k'|k' us]; simpl in Hk, E; [congruence|done|]. injection Hk as ->.
  destruct (apply_updates _ _) as [j|] eqn:Eu; [|done]. injection E as ->. rewrite (apply_updates_key _ _ _ Eu).
  destruct (t !! k) as [i'|] eqn:Ei; [by apply Ht|apply bare_item_key].
Qed.

Lemma do_writes_keyed xs t t' : keyed t -> do_writes xs t = Some t' -> keyed t'.
Proof.
  revert t. induction xs as [|x xs IH]; intros t Ht H; simpl in H; [by injection H as <-|].
  destruct (do_write x t) as [t1|] eqn:E; [|done]. eauto using do_write_keyed.
Qed.

Section Replies.
Context {I : IdGen}.

Lemma seen_keyed w db : well_keyed db -> possible w db -> keyed (seen w db).
Proof.
  intros Hk Hp. unfold seen, possible in *. destruct (w_view w) as [v|]; simpl.
  - intros k i Hi. destruct (Hp k) as (t & Ht & E). apply (proj1 (Forall_forall _ _) Hk t Ht). congruence.
  - by inversion Hk.
Qed.

Lemma commit_keyed db t : well_keyed db -> keyed t -> well_keyed (commit db t).
Proof. intros H Ht. by constructor. Qed.

(** A call that writes: the same database, or a table made by [upd] committed. *)
Lemma writing_cases {A} (w : Weather) (r : result DErr (A * Table)) db a db' : writing w r db = (a, db') ->
  (db' = db /\ (forall x, a <> Ok x))
  \/ exists x t, r = Ok (x, t) /\ db' = commit db t /\ (a = Ok x \/ a = Err OtherError).
Proof.
  unfold writing. destruct (w_fault w), r as [[x t]|e]; intros H; injection H as <- <-; eauto 10; by left.
Qed.

Lemma reading_cases {A} (w : Weather) (r : result DErr A) db a db' : reading w r db = (a, db') ->
  db' = db /\ (a = r \/ a = Err OtherError).
Proof. unfold reading. destruct (w_fault w); intros H; injection H as <- <-; auto. Qed.

Lemma conditional_keyed c x t r t' : keyed t -> conditional c x t = Ok (r, t') -> keyed t'.
Proof.
  unfold conditional. destruct (write_key x); [|done]. destruct (holds c _); [|done].
  destruct (do_write x t) eqn:E; [|done]. intros Ht H. injection H as _ <-. eauto using do_write_keyed.
Qed.

Lemma transact_keyed cxs t t' : keyed t -> transact cxs t = Ok t' -> keyed t'.
Proof.
  unfold transact. destruct (distinct_keys _); [|done]. destruct (existsb _ _); [done|]. simpl.
  destruct (do_writes _ t) eqn:E; [|done]. intros Ht H. injection H as <-. eauto using do_writes_keyed.
Qed.

Lemma batch_keyed w xs t r t' : keyed t -> batch_write w xs t = Ok (r, t') -> keyed t'.
Proof. intros Ht H. apply batch_done in H as (d & _ & _ & _ & _ & _ & E). eauto using do_writes_keyed. Qed.

Lemma exec_keyed {R : Set} (w : Weather) (c : call R) db r db' :
  well_keyed db -> exec w c db = (r, db') -> well_keyed db'.
Proof.
  intros Hk. assert (keyed (cur db)) as Hc by (by inversion Hk). destruct c; simpl; intros H;
    try (by injection H as <- <-); try (by apply reading_cases in H as [-> _]);
    apply writing_cases in H as [[-> _]|(x & t & E & -> & _)]; try done; apply commit_keyed; try done.
  - destruct (conditional _ _ _) as [[]|] eqn:Ec; [|done]. injection E as _ <-. eauto using conditional_keyed.
  - destruct (conditional _ _ _) as [[]|] eqn:Ec; [|done]. injection E as _ <-. eauto using conditional_keyed.
  - eauto using conditional_keyed.
  - destruct (transact _ _) eqn:Ec; [|done]. injection E as _ <-. eauto using transact_keyed.
  - eauto using batch_keyed.
Qed.

Lemma elem_of_in_order k i t : (k, i) ∈ in_order t -> t !! k = Some i.
Proof. unfold in_order. rewrite merge_sort_Permutation. apply elem_of_map_to_list. Qed.

Lemma elem_of_paged {A} (w : Weather) (l : list A) x : x ∈ paged w l -> x ∈ l.
Proof. unfold paged. destruct (w_page w); [|done]. intros H. by eapply elem_of_sublist; [|apply sublist_take]. Qed.

Lemma elem_of_query q t i : i ∈ query_items q t ->
  exists sk, t !! (q_pk q, sk) = Some i /\ has_prefix sk (q_prefix q) = true.
Proof.
  intros H. assert (i ∈ map snd (List.filter (selects q) (in_order t))) as Hi.
  { assert (forall l : list Item, i ∈ (match q_limit q with Some n => take (Z.to_nat n) l | None => l end) -> i ∈ l) as Hl.
    { intros l Hi. destruct (q_limit q); [|done]. by eapply elem_of_sublist; [|apply sublist_take]. }
    apply Hl in H. destruct (q_forward q); [done|]. by apply list_elem_of_In, in_rev, list_elem_of_In in H. }
  apply list_elem_of_fmap in Hi as ([[pk sk] j] & -> & Hj). apply list_elem_of_In, filter_In in Hj as [Hj Hs].
  apply list_elem_of_In, elem_of_in_order in Hj. unfold selects in Hs. simpl in Hs. bool_facts. exists sk. by subst pk.
Qed.

Lemma exec_reply {R : Set} (w : Weather) (c : call R) db r db' :
  well_keyed db -> possible w db -> exec w c db = (r, db') -> reply c r.
Proof.
  intros Hk Hp. pose proof (seen_keyed w db Hk Hp) as Hs. assert (keyed (cur db)) as Hc by (by inversion Hk).
  destruct c; simpl; intros H; try done.
  - apply reading_cases in H as [_ [-> | ->]]; [|done]. intros i Hi. injection Hi as Hi. by apply Hs.
  - intros o ->. apply writing_cases in H as [[_ Hno]|(x & t & E & _ & [Ex|Ex])]; [by destruct (Hno o)| |done].
    injection Ex as <-. unfold conditional in E. simpl in E. destruct (holds c (cur db !! k)) eqn:Eh; [|done].
    injection E as <- _. split; [done|]. intros i Hi. by apply Hc.
  - apply reading_cases in H as [_ [-> | ->]]; [|done]. intros l i Hl Hi. injection Hl as <-.
    apply elem_of_paged, elem_of_query in Hi as (sk & Hi & Hpre). exists sk. split; [by apply Hs|done].
  - apply reading_cases in H as [_ [-> | ->]]; [|done]. intros l last i Hl Hi. injection Hl as <- <-.
    apply list_elem_of_In, filter_In in Hi as [Hi Hf]. split; [|done].
    apply list_elem_of_In, list_elem_of_fmap in Hi as ([k j] & -> & Hj). apply elem_of_paged in Hj.
    apply list_elem_of_In, filter_In in Hj as [Hj _]. apply list_elem_of_In, elem_of_in_order, Hs in Hj. eauto.
  - intros rest ->. apply writing_cases in H as [[_ Hno]|(x & t & E & _ & [Ex|Ex])]; [by destruct (Hno rest)| |done].
    injection Ex as <-. by apply batch_done in E as (d & _ & Hr & _).
  - apply reading_cases in H as [_ [-> | ->]]; [|done]. intros l i Hl Hi.
    destruct (_ && _); [|done]. injection Hl as <-. apply list_elem_of_omap in Hi as (k & Hk' & Hi). exists k.
    split; [done|by apply Hs].
Qed.

(** A call leaves a key alone or does one of its writes to it. *)
Lemma exec_at {R : Set} (w : Weather) (c : call R) db r db' k : exec w c db = (r, db') ->
  cur db' !! k = cur db !! k \/ touches k (writes_of c) (cur db !! k) (cur db' !! k).
Proof.
  destruct c; simpl; intros H;
    try (by injection H as <- <-; left); try (by apply reading_cases in H as [-> _]; left);
    apply writing_cases in H as [[-> _]|(x & t & E & -> & _)]; try (by left); simpl.
  - destruct (conditional _ _ _) as [[]|] eqn:Ec; [|done]. injection E as _ <-. by eapply conditional_at.
  - destruct (conditional _ _ _) as [[]|] eqn:Ec; [|done]. injection E as _ <-. by eapply conditional_at.
  - by eapply conditional_at.
  - destruct (transact _ _) eqn:Ec; [|done]. injection E as _ <-. by apply transact_at.
  - by eapply batch_at.
Qed.
End Replies.

(** ** Many clients *)

(** Every call of a program satisfies [P], whatever the replies before it. *)
Fixpoint issues {A} (P : forall R : Set, call R -> Prop) (p : prog A) : Prop :=
  match p with
  | Ret _ => True
  | @Do _ R c k => P R c /\ forall r, reply c r -> issues P (k r)
  end.

(** Whatever the call does to the item under [k], it is a step of [T]. *)
Definition respects (T : option Item -> option Item -> Prop) (k : Key) (R : Set) (c : call R) : Prop :=
  forall cond x o o', (cond, x) ∈ writes_of c -> write_key x = Some k -> holds cond o = true ->
    write_item x o = Some o' -> T o o'.

Section Clients.
Context {I : IdGen} {A : Type} (T : option Item -> option Item -> Prop) `{!PreOrder T} (k : Key).

Definition obedient (s : list (prog A) * DB) : Prop :=
  well_keyed s.2 /\ Forall (issues (respects T k)) s.1.

Lemma step_obedient s s' : step s s' -> obedient s -> obedient s' /\ T (cur s.2 !! k) (cur s'.2 !! k).
Proof.
  intros Hs [Hk Hp]. destruct Hs as [R ps n c k' w db r db' Hn Hw He|ps db t Ht]; simpl in *; [|by split].
  assert (issues (respects T k) (Do c k')) as [Hc Hr] by (eapply Forall_lookup_1; eauto).
  split; [split; simpl|].
  - eauto using exec_keyed.
  - apply Forall_insert; [done|]. apply Hr. eauto using exec_reply.
  - destruct (exec_at w c db r db' k He) as [->|(cond & x & Hx & Hkx & Hh & Ho)]; [done|]. by apply (Hc cond x).
Qed.

(** Whatever the interleaving, the item under [k] goes by steps of [T]. *)
Lemma steps_obedient s s' : rtc step s s' -> obedient s -> obedient s' /\ T (cur s.2 !! k) (cur s'.2 !! k).
Proof.
  induction 1 as [s|s s1 s' H1 _ IH]; intros Hs; [by split|].
  destruct (step_obedient s s1 H1 Hs) as [Hs1 HT]. destruct (IH Hs1) as [Hs' HT']. split; [done|by etrans].
Qed.
End Clients.

(** *** Composing what a program issues *)

Section Issues.
Context (P : forall R : Set, call R -> Prop).

Lemma issues_pbind {A B} (p : prog A) (f : A -> prog B) :
  issues P p -> (forall a, issues P (f a)) -> issues P (pbind p f).
Proof. induction p as [a|R c k IH]; simpl; [auto|]. intros [Hc Hk] Hf. split; [done|]. intros r Hr. by apply IH; [apply Hk|]. Qed.

Lemma issues_dbind {A B} (p : D A) (f : A -> D B) :
  issues P p -> (forall a, issues P (f a)) -> issues P (dbind p f).
Proof. intros Hp Hf. apply issues_pbind; [done|]. intros [a|e]; [apply Hf|done]. Qed.

Lemma issues_dtry {A B} (p : D A) (f : result StoreErr A -> D B) :
  issues P p -> (forall a, issues P (f a)) -> issues P (dtry p f).
Proof. apply issues_pbind. Qed.

Lemma issues_decode {A} (f : Item -> result StoreErr A) i : issues P (decode f i).
Proof. done. Qed.

(** Decoding makes no call. *)
Lemma decode_all_ret {A} (f : Item -> result StoreErr A) l :
  exists r, decode_all f l = Ret r /\ forall xs, r = Ok xs -> Forall2 (fun i x => f i = Ok x) l xs.
Proof.
  induction l as [|i l (r & IH & Hr)]; [by exists (Ok []); split; [|intros xs H; injection H as <-]|].
  simpl. unfold decode. rewrite IH. destruct (f i) as [x|e] eqn:E; [|by exists (Err e)].
  destruct r as [xs|e]; [|by exists (Err e)]. exists (Ok (x :: xs)). split; [done|]. intros ys H. injection H as <-.
  constructor; auto.
Qed.

Lemma issues_decoded {A B} (f : Item -> result StoreErr A) l (g : list A -> D B) :
  (forall xs, Forall2 (fun i x => f i = Ok x) l xs -> issues P (g xs)) -> issues P (dbind (decode_all f l) g).
Proof.
  intros H. destruct (decode_all_ret f l) as (r & -> & Hr). destruct r as [xs|e]; [|done]. by apply H, Hr.
Qed.

Lemma issues_decode_all {A} (f : Item -> result StoreErr A) l : issues P (decode_all f l).
Proof. induction l; simpl; [done|]. repeat (apply issues_dbind; [done|intros]). done. Qed.
End Issues.

(** ** The helpers, run by one client *)

Section Helpers.
Context {I : IdGen}.

Lemma run_getItem k db :
  run (getItem k) db = (match cur db !! k with Some i => Ok i | None => Err ErrNotFound end, db).
Proof. simpl. unfold seen. simpl. by destruct (cur db !! k). Qed.

Lemma run_nowUnix db : run nowUnix db = (Ok (toUnix (clock db)), db).
Proof. done. Qed.

Lemma run_fresh_id id db : run (fresh_id id) db =
  if id == "" then (Ok (ulid (issued db)), mkDB (cur db) (past db) (clock db) (S (issued db))) else (Ok id, db).
Proof. unfold fresh_id. by destruct (id == ""). Qed.

(** A conditional write: done, or its condition failed. *)
Lemma conditional_run c x t k o : write_key x = Some k -> write_item x (t !! k) = Some o ->
  conditional c x t = if holds c (t !! k) then Ok (t !! k, partial_alter (fun _ => o) k t)
                      else Err ConditionalCheckFailed.
Proof. intros Hk Ho. unfold conditional, do_write. rewrite Hk, Ho. by destruct (holds c (t !! k)). Qed.

Lemma run_put_if e c i k db : key_of i = Some k ->
  run (Do (PutItem c i) (failing e)) db =
  if holds c (cur db !! k) then (Ok tt, commit db (<[k := i]> (cur db))) else (Err e, db).
Proof.
  intros Hk. cbn [run exec]. rewrite (conditional_run c (Put i) (cur db) k (Some i)) by done.
  by destruct (holds c (cur db !! k)).
Qed.

Lemma run_update_if e c k us i db : apply_updates us (default (bare_item k) (cur db !! k)) = Some i ->
  run (Do (UpdateItem c k us) (failing e)) db =
  if holds c (cur db !! k) then (Ok tt, commit db (<[k := i]> (cur db))) else (Err e, db).
Proof.
  intros Hu. cbn [run exec]. rewrite (conditional_run c (Update k us) (cur db) k (Some i)); [|done|simpl; by rewrite Hu].
  by destruct (holds c (cur db !! k)).
Qed.

Lemma run_delete_if e c k db :
  run (Do (DeleteItem c k) (deleting e)) db =
  if holds c (cur db !! k) then (Ok tt, commit db (delete k (cur db))) else (Err e, db).
Proof.
  cbn [run exec]. rewrite (conditional_run c (Delete k) (cur db) k None) by done.
  by destruct (holds c (cur db !! k)).
Qed.

Lemma run_transactOr e cxs db t : distinct_keys (map snd cxs) = true -> do_writes (map snd cxs) (cur db) = Some t ->
  run (transactOr e cxs) db =
  if existsb (condition_fails (cur db)) cxs then (Err e, db) else (Ok tt, commit db t).
Proof.
  intros Hd Hw. cbn [run exec transactOr transactWrite pbind]. unfold transact. rewrite Hd, Hw.
  assert (existsb id (map (condition_fails (cur db)) cxs) = existsb (condition_fails (cur db)) cxs) as E
    by (clear; induction cxs; simpl; by f_equal). rewrite E.
  destruct (existsb (condition_fails _) _) eqn:Ef; [|done]. cbn. by rewrite E.
Qed.

Lemma batch_write_calm xs t t' : distinct_keys xs = true -> (0 < length xs <= 25)%nat ->
  do_writes xs t = Some t' -> batch_write calm xs t = Ok ([], t').
Proof.
  intros Hd Hl Hw. unfold batch_write. rewrite Hd.
  replace (0 <? Z.of_nat (length xs)) with true by (symmetry; apply Z.ltb_lt; lia).
  replace (Z.of_nat (length xs) <=? 25) with true by (symmetry; apply Z.leb_le; lia).
  destruct xs as [|x xs]; [simpl in Hl; lia|]. simpl. simpl in Hw. by rewrite Hw.
Qed.

Lemma run_batchWrite xs db t : distinct_keys xs = true -> (0 < length xs <= 25)%nat ->
  do_writes xs (cur db) = Some t -> run (batchWrite xs) db = (Ok tt, commit db t).
Proof.
  intros Hd Hl Hw. unfold batchWrite.
  assert (chunks (length xs) 25 xs = [xs]) as ->.
  { destruct xs as [|x xs]; [simpl in Hl; lia|]. cbn [length chunks]. rewrite take_ge, drop_ge by lia. by destruct (length xs). }
  cbn [batch_chunks]. rewrite run_dbind. destruct xs as [|x xs]; [simpl in Hl; lia|]. cbn [batch_chunk length run exec].
  rewrite (batch_write_calm _ _ t) by done. simpl. by destruct (length xs).
Qed.
End Helpers.

(** *** What the helpers issue *)

Section Respects.
Context (T : option Item -> option Item -> Prop) (k : Key).

(** A write that, under its condition, is a step of [T] if it is to [k] at all. *)
Definition harmless (cx : Cond * Write) : Prop :=
  forall o o', write_key cx.2 = Some k -> holds cx.1 o = true -> write_item cx.2 o = Some o' -> T o o'.

Lemma respects_writes {R : Set} (c : call R) : Forall harmless (writes_of c) -> respects T k R c.
Proof. intros H cond x o o' Hx. apply (proj1 (Forall_forall _ _) H (cond, x) Hx). Qed.

Lemma harmless_elsewhere c x : write_key x <> Some k -> harmless (c, x).
Proof. by intros Hk o o' H. Qed.

Lemma issues_do {A} {R : Set} (c : call R) (f : R -> prog A) :
  Forall harmless (writes_of c) -> (forall r, reply c r -> issues (respects T k) (f r)) -> issues (respects T k) (Do c f).
Proof. split; [by apply respects_writes|done]. Qed.

Lemma issues_failing e r : issues (respects T k) (failing e r).
Proof. by destruct r as [|[]]. Qed.

Lemma issues_getItem i : issues (respects T k) (getItem i).
Proof. apply issues_do; [constructor|]. by intros [[]|]. Qed.

Lemma issues_query q : issues (respects T k) (query q).
Proof. apply issues_do; [constructor|]. by intros []. Qed.

Lemma issues_queried {A} q (g : list Item -> D A) :
  (forall l, (forall i, i ∈ l -> exists sk, key_of i = Some (q_pk q, sk) /\ has_prefix sk (q_prefix q) = true) ->
     issues (respects T k) (g l)) -> issues (respects T k) (dbind (query q) g).
Proof. intros H. apply issues_do; [constructor|]. intros [l|e] Hl; [|done]. apply H. intros i. by apply Hl. Qed.

Lemma issues_put e c i : harmless (c, Put i) -> issues (respects T k) (Do (PutItem c i) (failing e)).
Proof. intros H. apply issues_do; [by repeat constructor|]. intros. apply issues_failing. Qed.

Lemma issues_update e c i us : harmless (c, Update i us) -> issues (respects T k) (Do (UpdateItem c i us) (failing e)).
Proof. intros H. apply issues_do; [by repeat constructor|]. intros. apply issues_failing. Qed.

Lemma issues_delete e c i : harmless (c, Delete i) -> issues (respects T k) (Do (DeleteItem c i) (deleting e)).
Proof. intros H. apply issues_do; [by repeat constructor|]. intros. apply issues_failing. Qed.

Lemma issues_transactOr e cxs : Forall harmless cxs -> issues (respects T k) (transactOr e cxs).
Proof. intros H. apply issues_do; [done|]. by intros []. Qed.

Lemma issues_batch_chunk n xs : Forall (fun x => harmless (Always, x)) xs -> issues (respects T k) (batch_chunk n xs).
Proof.
  revert xs. induction n as [|n IH]; intros [|x xs] H; try done. apply issues_do; [by apply Forall_map|].
  intros [rest|e] Hr; [|done]. apply IH, Forall_forall. intros y Hy. apply (proj1 (Forall_forall _ _) H).
  eapply elem_of_sublist; [done|]. by apply Hr.
Qed.

Lemma elem_of_chunks {A} m n (l : list A) c x : c ∈ chunks m n l -> x ∈ c -> x ∈ l.
Proof.
  revert l. induction m as [|m IH]; intros [|y l] Hc Hx; simpl in Hc; try by apply not_elem_of_nil in Hc.
  apply elem_of_cons in Hc as [->|Hc].
  - by eapply elem_of_sublist; [|apply sublist_take].
  - eapply elem_of_sublist; [apply (IH _ Hc Hx)|apply sublist_drop].
Qed.

Lemma issues_batchWrite xs : Forall (fun x => harmless (Always, x)) xs -> issues (respects T k) (batchWrite xs).
Proof.
  intros H. unfold batchWrite. assert (forall c, c ∈ chunks (length xs) 25 xs -> Forall (fun x => harmless (Always, x)) c) as Hc.
  { intros c Hc. apply Forall_forall. intros x Hx. apply (proj1 (Forall_forall _ _) H). by eapply elem_of_chunks. }
  induction (chunks _ _ _) as [|c cs IH]; simpl; [done|]. apply issues_dbind.
  - apply issues_batch_chunk, Hc. by left.
  - intros _. apply IH. intros d Hd. apply Hc. by right.
Qed.

Lemma issues_batchGetItems ks : issues (respects T k) (batchGetItems ks).
Proof.
  unfold batchGetItems. induction (chunks _ _ _) as [|c cs IH]; simpl; [done|]. apply issues_do; [constructor|].
  intros [l|e] _; [|done]. by apply issues_dbind.
Qed.

Lemma issues_scanPages {S} f (visit : Item -> S -> D (bool * S)) pages start s :
  (forall i s, is_Some (key_of i) -> holds f (Some i) = true -> issues (respects T k) (visit i s)) ->
  issues (respects T k) (scanPages f visit pages start s).
Proof.
  intros Hv. revert start s. induction pages as [|pages IH]; intros start s; [done|]. apply issues_do; [constructor|].
  intros [[l last]|e] Hr; [|done].
  apply issues_dbind; [|intros [[] s']; [|done]; simpl; by destruct last].
  assert (forall i, i ∈ l -> is_Some (key_of i) /\ holds f (Some i) = true) as Hl by (intros i; by apply (Hr l last)).
  clear Hr. revert s. induction l as [|i l IHl]; intros s; [done|]. simpl. apply issues_dbind.
  - destruct (Hl i) as [H1 H2]; [by left|]. by apply Hv.
  - intros [[] s']; [|done]. apply IHl. intros j Hj. apply Hl. by right.
Qed.
End Respects.

Create HintDb dynamo.
#[export] Hint Resolve issues_getItem issues_query issues_batchGetItems issues_decode issues_decode_all : dynamo.

(** ** Races

    Something that can be had once: it is gone when the item under a key is [spent], no
    client makes a spent item unspent, and who has it got it by a write that needs the
    item unspent and spends it. *)

(** The call was answered with success. *)
Definition succeeded {R : Set} (c : call R) : R -> Prop :=
  match c in call R return R -> Prop with
  | PutItem _ _ | UpdateItem _ _ _ | TransactWriteItems _ => fun r => r = Ok tt
  | DeleteItem _ _ => fun r => is_ok r = true
  | _ => fun _ => False
  end.

Lemma succeeded_writes {I : IdGen} {R : Set} (w : Weather) (c : call R) db r db' cond x k :
  exec w c db = (r, db') -> succeeded c r -> (cond, x) ∈ writes_of c -> write_key x = Some k ->
  holds cond (cur db !! k) = true /\ write_item x (cur db !! k) = Some (cur db' !! k).
Proof.
  assert (forall c x' a t', conditional c x' (cur db) = Ok (a, t') -> (cond, x) ∈ [(c, x')] -> write_key x = Some k ->
    holds cond (cur db !! k) = true /\ write_item x (cur db !! k) = Some (t' !! k)) as Hone.
  { intros c0 x' a t' H Hin Hk. apply list_elem_of_singleton in Hin. injection Hin as <- <-. unfold conditional in H.
    rewrite Hk in H. destruct (holds cond _) eqn:Eh; [|done]. split; [done|]. unfold do_write in H. rewrite Hk in H.
    destruct (write_item x _) as [o|]; [|done]. injection H as _ <-. by rewrite lookup_partial_alter_eq. }
  destruct c; simpl; try done; intros H Hr;
    apply writing_cases in H as [[_ Hno]|(y & t & E & -> & [Ey|Ey])]; subst; try done; try (by destruct (Hno tt));
    try (destruct r; [by edestruct Hno|done]); simpl.
  - destruct (conditional _ _ _) as [[]|] eqn:Ec; [|done]. injection E as _ <-. eauto.
  - destruct (conditional _ _ _) as [[]|] eqn:Ec; [|done]. injection E as _ <-. eauto.
  - eauto.
  - destruct (transact _ _) eqn:Ec; [|done]. injection E as _ <-. intros. by eapply transact_all.
Qed.

Section Race.
Context {I : IdGen} {B : Type} (spent : option Item -> Prop) (k : Key).

Definition keeps_spent (o o' : option Item) : Prop := spent o -> spent o'.
#[export] Instance keeps_spent_preorder : PreOrder keeps_spent.
Proof. unfold keeps_spent. split; [by intros o|]. intros a b c H1 H2 H. auto. Qed.

(** A client, and what it got of a method's result. *)
Definition outcome {A} (p : D A) (f : A -> option B) : prog (option B) :=
  pbind p (fun r => Ret (match r with Ok a => f a | Err _ => None end)).

Definition won (p : prog (option B)) : bool := match p with Ret (Some _) => true | _ => false end.

Definition spends (cx : Cond * Write) : Prop :=
  write_key cx.2 = Some k
  /\ forall o o', holds cx.1 o = true -> write_item cx.2 o = Some o' -> ~ spent o /\ spent o'.
Definition takes {R : Set} (c : call R) (r : R) : Prop := succeeded c r /\ Exists spends (writes_of c).

(** A client has its prize only from such a call. *)
Fixpoint honest (p : prog (option B)) : Prop :=
  match p with
  | Ret o => o = None
  | Do c k => forall r, honest (k r) \/ (takes c r /\ won (k r) = true)
  end.

Lemma issues_outcome {A} P (p : D A) f : issues P p -> issues P (outcome p f).
Proof. intros H. apply issues_pbind; [done|]. by intros []. Qed.

Lemma honest_never {A} (p : D A) : honest (outcome p (fun _ => None)).
Proof. unfold outcome. induction p as [[]|R c f IH]; simpl; auto. Qed.

Lemma exec_takes {R : Set} (w : Weather) (c : call R) db r db' : exec w c db = (r, db') -> takes c r ->
  ~ spent (cur db !! k) /\ spent (cur db' !! k).
Proof.
  intros H [Hs Hx]. apply Exists_exists in Hx as ([cond x] & Hin & Hk & Hx).
  destruct (succeeded_writes w c db r db' cond x k H Hs Hin Hk). by apply Hx.
Qed.

Record race (s : list (prog (option B)) * DB) : Prop := {
  race_obedient : obedient keeps_spent k s;
  race_honest : Forall (fun p => honest p \/ won p = true) s.1;
  race_won : (length (List.filter won s.1) <= 1)%nat;
  race_spent : (0 < length (List.filter won s.1))%nat -> spent (cur s.2 !! k)
}.

Lemma won_insert ps n p q : ps !! n = Some p -> won p = false ->
  (length (List.filter won (<[n := q]> ps)) = length (List.filter won ps) + (if won q then 1 else 0))%nat.
Proof.
  revert n. induction ps as [|a ps IH]; intros [|n] Hn Hp; try done; simpl in *.
  - injection Hn as ->. rewrite Hp. destruct (won q); simpl; lia.
  - destruct (won a); simpl; rewrite (IH n) by done; lia.
Qed.

Lemma race_step s s' : step s s' -> race s -> race s'.
Proof.
  intros Hs [Ho Hh Hw Hsp]. destruct (step_obedient keeps_spent k s s' Hs Ho) as [Ho' HT].
  destruct Hs as [R ps n c f w db r db' Hn Hp He|ps db t Ht]; simpl in *; [|by constructor].
  assert (won (Do c f) = false) as Hf by done. pose proof (won_insert ps n _ (f r) Hn Hf) as Hc.
  assert (honest (Do c f)) as Hd by (destruct (Forall_lookup_1 _ _ _ _ Hh Hn); done).
  assert (Forall (fun p => honest p \/ won p = true) (<[n := f r]> ps)) as Hh'.
  { apply Forall_insert; [done|]. destruct (Hd r) as [|[]]; auto. }
  destruct (won (f r)) eqn:Ew.
  - destruct (Hd r) as [Hbad|[Ht _]]; [destruct (f r) as [[]|]; done|].
    destruct (exec_takes w c db r db' He Ht) as [Hpre Hpost].
    destruct (List.filter won ps) as [|p l] eqn:El; [|destruct Hpre; apply Hsp; simpl; lia].
    simpl in Hc. constructor; simpl; [done|done|lia|done].
  - constructor; simpl; [done|done|lia|]. intros Hx. apply HT, Hsp. lia.
Qed.

Lemma nobody_yet ps : Forall honest ps -> List.filter won ps = [].
Proof.
  induction ps as [|p ps IH]; [done|]. intros [Hp Hps]%Forall_cons. simpl. destruct p as [[]|]; try done; by apply IH.
Qed.

(** At most one of the clients gets it, and whoever does, it is gone. *)
Lemma race_ends (ps : list (prog (option B))) db ps' db' : well_keyed db ->
  Forall (issues (respects keeps_spent k)) ps -> Forall honest ps -> rtc step (ps, db) (ps', db') ->
  (length (List.filter won ps') <= 1)%nat
  /\ ((0 < length (List.filter won ps'))%nat -> ~ spent (cur db !! k) /\ spent (cur db' !! k)).
Proof.
  intros Hk Hi Hh Hrun.
  assert (race (ps, db)) as Hr.
  { constructor; simpl; [done| | |]; rewrite ?nobody_yet by done; simpl; try lia.
    eapply Forall_impl; [done|]. by left. }
  assert (forall s s', rtc step s s' -> race s -> race s' /\ (spent (cur s.2 !! k) ->
    length (List.filter won s'.1) = length (List.filter won s.1))) as Hall.
  { clear. intros s s'. induction 1 as [s|s s1 s2 H1 _ IH]; intros Hr; [done|].
    destruct (IH (race_step _ _ H1 Hr)) as [Hr2 Hc]. split; [done|]. intros Hs.
    destruct (step_obedient keeps_spent k s s1 H1 (race_obedient _ Hr)) as [_ HT].
    rewrite Hc by (by apply HT). destruct H1 as [R ps n c f w db r db' Hn Hp He|]; [|done]. simpl in *.
    rewrite (won_insert ps n _ (f r) Hn eq_refl). destruct (won (f r)) eqn:Ew; [|lia]. exfalso.
    destruct (Forall_lookup_1 _ _ _ _ (race_honest _ Hr) Hn) as [Hd|Hd]; [|done].
    destruct (Hd r) as [Hbad|[Ht _]]; [by destruct (f r) as [[]|]|]. by destruct (exec_takes w c db r db' He Ht). }
  destruct (Hall _ _ Hrun Hr) as [[_ _ Hw Hs] Hc]. simpl in *. split; [done|]. intros Hn. split; [|exact (Hs Hn)].
  intros Hi'. apply Hc in Hi'. rewrite (nobody_yet ps) in Hi' by done. simpl in Hi'. lia.
Qed.
End Race.

(** ** Claims

    An item that only a deletion takes away: whoever puts it where there was none is
    the only one who does. *)

Section Claims.
Context (k : Key).

Definition claimed (o : option Item) : Prop := exists i, o = Some i /\ key_of i = Some k.
#[local] Abbreviation fine := (issues (respects (keeps_spent claimed) k)).
#[local] Abbreviation leaves := (harmless (keeps_spent claimed) k).

Lemma leaves_put c i : leaves (c, Put i).
Proof. intros o o' Hk _ H _. simpl in Hk, H. injection H as <-. by exists i. Qed.

Lemma leaves_update c k' us : leaves (c, Update k' us).
Proof.
  intros o o' _ _ H [i [-> Hi]]. cbn in H. destruct (apply_updates us i) as [j|] eqn:E; [|done]. injection H as <-.
  exists j. split; [done|]. by rewrite (apply_updates_key _ _ _ E).
Qed.

Lemma leaves_delete c k' : k' <> k -> leaves (c, Delete k').
Proof. intros Hk. apply harmless_elsewhere. simpl. congruence. Qed.

Lemma fine_now {A} (f : Z -> D A) : (forall n, fine (f n)) -> fine (dbind nowUnix f).
Proof. intros H. by apply issues_dbind; [apply issues_do; [constructor|]|]. Qed.

Lemma fine_fresh {A} id (f : string -> D A) : (forall i, fine (f i)) -> fine (dbind (fresh_id id) f).
Proof. intros H. apply issues_dbind; [|done]. unfold fresh_id. destruct (_ == ""); [by apply issues_do; [constructor|]|done]. Qed.

Lemma fine_transact {A} cxs (f : result DErr unit -> D A) :
  Forall leaves cxs -> (forall r, fine (f r)) -> fine (pbind (transactWrite cxs) f).
Proof. intros H Hf. apply issues_pbind; [by apply issues_do|done]. Qed.

(** The write that makes a claim. *)
Lemma claim_spends i : key_of i = Some k -> spends claimed k (Attribute_not_exists "PK", Put i).
Proof.
  intros Hk. split; [done|]. intros o o' Ha Hp. cbn in Hp. injection Hp as <-. split; [|by exists i].
  intros [j [-> Hj]]. unfold key_of in Hj. cbn in Ha. by destruct (j !! "PK").
Qed.

(** At most one client makes the claim, none if it was made, and it stays. *)
Lemma claimed_once {I : IdGen} {B} (ps ps' : list (prog (option B))) db db' :
  well_keyed db -> Forall (fun p => fine p /\ honest claimed k p) ps -> rtc step (ps, db) (ps', db') ->
  (length (List.filter won ps') <= 1)%nat
  /\ ((0 < length (List.filter won ps'))%nat -> ~ claimed (cur db !! k) /\ claimed (cur db' !! k))
  /\ (claimed (cur db !! k) -> claimed (cur db' !! k)).
Proof.
  intros Hk Hps Hrun. assert (Forall fine ps) as Hi by (eapply Forall_impl; [exact Hps|]; by intros p []).
  assert (Forall (honest claimed k) ps) as Hh by (eapply Forall_impl; [exact Hps|]; by intros p []).
  destruct (race_ends claimed k _ db ps' db' Hk Hi Hh Hrun) as [H1 H2]. split_and!; [done|done|].
  by destruct (steps_obedient (keeps_spent claimed) k _ _ Hrun (conj Hk Hi)).
Qed.
End Claims.

#[export] Hint Resolve leaves_put leaves_update leaves_delete issues_put issues_update issues_delete
  issues_scanPages issues_dbind issues_outcome issues_transactOr : dynamo.
#[export] Hint Extern 1 (Forall _ _) => constructor : dynamo.
#[export] Hint Extern 2 (_ <> _) => discriminate : dynamo.

(** ** Schedules, for the witnesses *)

Definition empty_db : DB := mkDB ∅ [] 100 0.

(** The clients take their turns in the order given, in calm weather. *)
Fixpoint play {I : IdGen} {A} (turns : list nat) (s : list (prog A) * DB) : list (prog A) * DB :=
  match turns with
  | [] => s
  | n :: turns =>
      play turns (match s.1 !! n with
                  | Some (Do c k) => let '(r, db) := exec calm c s.2 in (<[n := k r]> s.1, db)
                  | _ => s
                  end)
  end.

Lemma play_steps {I : IdGen} {A} turns (s : list (prog A) * DB) : rtc step s (play turns s).
Proof.
  revert s. induction turns as [|n turns IH]; intros [ps db]; simpl; [done|].
  destruct (ps !! n) as [[a|R c k]|] eqn:E; try apply IH.
  cbn [snd]. destruct (exec calm c db) as [r db'] eqn:Ex. eapply rtc_l; [|apply IH].
  by eapply (step_call _ _ c k calm).
Qed.

Lemma well_keyed_all db :
  bool_decide (Forall (fun t : Table => map_Forall (fun k i => key_of i = Some k) t) (cur db :: past db)) = true -> well_keyed db.
Proof. intros H. by apply bool_decide_eq_true in H. Qed.
