(* ===== verification/DynamoKeys.v ===== *)
(** * DynamoKeys: the single-table layout

    Models src/server/internal/store/dynamodb/keys.go, the entity markers of
    helpers.go and the texts the enumerations of types.go are stored as. *)

From S2P Require Import Prelude Types Store GoTime Dynamo.

(** ** Keys *)

Definition pkOrg : string := "ORG".
Definition skBootstrapLock : string := "BOOTSTRAP_LOCK".
Definition skLoginRule (ord : Z) : string :=
  "RULE#" +:+ (if ord <? 0 then "-" +:+ pad 9 (- ord) else pad 10 ord).
Definition pkUser (id : string) : string := "USER#" +:+ id.
Definition pkUserProviderSubject (provider subject : string) : string :=
  "USER#PROVIDER#" +:+ provider +:+ "#" +:+ subject.
Definition pkUserSubLegacy (sub : string) : string := "USER#SUB#" +:+ sub.
Definition pkHandle (handle : string) : string := "HANDLE#" +:+ handle.
Definition pkWorkspace (id : string) : string := "WS#" +:+ id.
Definition skMember (userID : string) : string := "MEMBER#" +:+ userID.
Definition funcOwnerKey (ownerType ownerID : string) : string := ownerType +:+ ":" +:+ ownerID.
Definition pkFunc (id : string) : string := "FUNC#" +:+ id.
Definition skVersion (id : string) : string := "VER#" +:+ id.
Definition skEnv (key : string) : string := "ENV#" +:+ key.
Definition pkFuncPtr (ownerType ownerID name : string) : string :=
  "FUNC#" +:+ funcOwnerKey ownerType ownerID +:+ "#" +:+ name.
Definition pkFuncName (name : string) : string := "FUNCNAME#" +:+ name.
Definition pkFuncList (ownerType ownerID : string) : string := "FUNCLIST#" +:+ funcOwnerKey ownerType ownerID.
Definition pkFuncCount (ownerType scopeID : string) : string := "FUNCCOUNT#" +:+ ownerType +:+ ":" +:+ scopeID.
Definition pkVersion (id : string) : string := "VER#" +:+ id.
Definition pkSession (id : string) : string := "SESSION#" +:+ id.
Definition pkInvokeAuthCode (id : string) : string := "INVOKEAUTH#" +:+ id.
Definition pkCLIAuthCode (id : string) : string := "CLIAUTHCODE#" +:+ id.
Definition pkCLICredential (secretHash : string) : string := "CLICRED#" +:+ secretHash.
Definition pkCLICredentialID (id : string) : string := "CLICREDID#" +:+ id.
Definition pkOAuthClient (id : string) : string := "OAUTHCLIENT#" +:+ id.
Definition pkOAuthAuthCode (id : string) : string := "OAUTHAUTHCODE#" +:+ id.
Definition pkOAuthGrant (secretHash : string) : string := "OAUTHGRANT#" +:+ secretHash.
Definition pkOAuthGrantID (id : string) : string := "OAUTHGRANTID#" +:+ id.
Definition pkOAuthGrantPrev (hash : string) : string := "OAUTHGRANTPREV#" +:+ hash.
Definition pkAudit (month : string) : string := "AUDIT#" +:+ month.
Definition pkInvocationLog (functionID : string) : string := "INVLOG#" +:+ functionID.

(** The key of an item that is alone under its partition key. *)
Definition meta (pk : string) : Key := (pk, skMeta).

(** ** The texts of enumerations *)

Definition OwnerType_text (t : OwnerType) : string :=
  match t with OwnerTypeUser => "user" | OwnerTypeWorkspace => "workspace" end.
Definition OwnerType_parse (s : string) : option OwnerType :=
  if s == "user" then Some OwnerTypeUser else if s == "workspace" then Some OwnerTypeWorkspace else None.

Definition Role_text (r : Role) : string :=
  match r with RoleAdmin => "admin" | RoleWorkspaceManager => "workspace_manager" | RoleMember => "member" end.
Definition Role_parse (s : string) : option Role :=
  if s == "admin" then Some RoleAdmin else if s == "workspace_manager" then Some RoleWorkspaceManager
  else if s == "member" then Some RoleMember else None.

Definition Provider_text (p : Provider) : string :=
  match p with ProviderGoogle => "google" | ProviderGitHub => "github" end.
Definition Provider_parse (s : string) : option Provider :=
  if s == "google" then Some ProviderGoogle else if s == "github" then Some ProviderGitHub else None.

Definition UserStatus_text (s : UserStatus) : string :=
  match s with
  | UserStatusActive => "active"
  | UserStatusPending => "pending"
  | UserStatusDisabled => "disabled"
  end.
Definition UserStatus_parse (s : string) : option UserStatus :=
  if s == "active" then Some UserStatusActive else if s == "pending" then Some UserStatusPending
  else if s == "disabled" then Some UserStatusDisabled else None.

Definition LoginRuleType_text (t : LoginRuleType) : string :=
  match t with
  | LoginRuleTypeEmailDomain => "email_domain"
  | LoginRuleTypeEmailExact => "email_exact"
  | LoginRuleTypeEmailGlob => "email_glob"
  | LoginRuleTypeDefault => "default"
  end.
Definition LoginRuleType_parse (s : string) : option LoginRuleType :=
  if s == "email_domain" then Some LoginRuleTypeEmailDomain
  else if s == "email_exact" then Some LoginRuleTypeEmailExact
  else if s == "email_glob" then Some LoginRuleTypeEmailGlob
  else if s == "default" then Some LoginRuleTypeDefault else None.

Definition LoginRuleAction_text (a : LoginRuleAction) : string :=
  match a with LoginRuleActionAllow => "allow" | LoginRuleActionDeny => "deny" end.
Definition LoginRuleAction_parse (s : string) : option LoginRuleAction :=
  if s == "allow" then Some LoginRuleActionAllow else if s == "deny" then Some LoginRuleActionDeny else None.

Definition text (s : string) : AttributeValue := AV_S s.

(** Times are stored in whole seconds; a zero last use means never. *)
Definition last_used (o : option Time) : AttributeValue := AV_N (from_option toUnix 0 o).
Definition last_used_from (n : Z) : option Time := if n =? 0 then None else Some (fromUnix n).

(** ** Distinct keys *)

(** Keys built by different functions start differently; keys built by one function
    are the same only for the same arguments. *)
Ltac key_cases H :=
  first
    [ discriminate H
    | injection H as H; key_cases H
    | apply str_app_inj_l in H
    | idtac ].
