(* ===== verification/DynamoCreds.v ===== *)
(** * DynamoCreds: sessions, codes, credentials and grants in DynamoDB

    Models sessions.go, cliauthcodes.go, invokeauthcodes.go, oauthauthcodes.go,
    clicredentials.go, oauthclients.go and oauthgrants.go of
    src/server/internal/store/dynamodb. A struct is written as the item it marshals
    to ([*_item]) and read back from an item ([*_from]). *)

From S2P Require Import Prelude Types Store Dynamo DynamoKeys.

#[local] Open Scope d_scope.

Section Repositories.
(** The pages a scan may take. *)
Context (pages : nat).

(** ** Expiry *)

Definition expired_filter (entity : string) (now : Time) : Cond :=
  And (Equals "Entity" (AV_S entity)) (AtMost "ExpiresAt" (toUnix now)).

(** [itemKeyStrings]. *)
Definition itemKeyStrings (i : Item) : Key :=
  match i !! "PK", i !! "SK" with
  | Some (AV_S pk), Some (AV_S sk) => (pk, sk)
  | Some (AV_S pk), _ => (pk, "")
  | _, Some (AV_S sk) => ("", sk)
  | _, _ => ("", "")
  end.

Lemma itemKeyStrings_of i k : key_of i = Some k -> itemKeyStrings i = k.
Proof.
  unfold key_of, itemKeyStrings. destruct (i !! "PK") as [[]|]; try done. destruct (i !! "SK") as [[]|]; try done.
  intros H. by injection H.
Qed.

(** Scan for what the filter selects and delete it. *)
Definition collect_deletes (i : Item) (ws : list Write) : D (bool * list Write) :=
  dret (true, ws ++ [Delete (itemKeyStrings i)]).
Definition delete_scanned (f : Cond) : D Z :=
  do! ws <- scanPages f collect_deletes pages None [];
  run! batchWrite ws;
  dret (Z.of_nat (length ws)).

(** A one-time code: deleted and returned if the condition holds. *)
Definition consume_item {A} (k : Key) (c : Cond) (from : Item -> result StoreErr A) : D A :=
  Do (DeleteItem c k) (fun r =>
    match r with
    | Ok (Some i) => decode from i
    | Ok None => dthrow ErrNotFound
    | Err ConditionalCheckFailed => dthrow ErrNotFound
    | Err _ => dthrow ErrBackend
    end).

(** ** sessions.go *)

Definition entitySession : string := "session".

Definition session_item (s : Session) (expiresAt now : Z) : Item :=
  item (pkSession (s_ID s)) skMeta entitySession
    [("ID", text (s_ID s)); ("UserID", text (s_UserID s)); ("ExpiresAt", AV_N expiresAt);
     ("CreatedAt", AV_N now); ("UpdatedAt", AV_N now); ("ttl", AV_N expiresAt)].

Definition sessionFromItem (i : Item) : result StoreErr Session :=
  let! id := S_attr i "ID" in
  let! uid := S_attr i "UserID" in
  let! e := N_attr i "ExpiresAt" in
  let! c := N_attr i "CreatedAt" in
  let! u := N_attr i "UpdatedAt" in
  Ok (mkSession id uid (fromUnix e) (fromUnix c) (fromUnix u)).

Definition Sessions_Create (s : Session) : D Session :=
  do! id <- fresh_id (s_ID s);
  do! now <- nowUnix;
  let s' := mkSession id (s_UserID s) (s_ExpiresAt s) (fromUnix now) (fromUnix now) in
  run! putItem (session_item s' (toUnix (s_ExpiresAt s)) now);
  dret s'.

Definition Sessions_Refresh (id : string) (newExpiresAt : Time) : D unit :=
  do! now <- nowUnix;
  updateItemIfExists (meta (pkSession id))
    [SetTo "ExpiresAt" (AV_N (toUnix newExpiresAt)); SetTo "ttl" (AV_N (toUnix newExpiresAt));
     SetTo "UpdatedAt" (AV_N now)].

Definition Sessions_Get (id : string) (now : Time) : D Session :=
  do! i <- getItem (meta (pkSession id));
  do! s <- decode sessionFromItem i;
  if negb (now <? s_ExpiresAt s) then dthrow ErrNotFound else dret s.

Definition Sessions_Delete (id : string) : D unit := deleteItem (meta (pkSession id)).

Definition Sessions_DeleteExpired (now : Time) : D Z := delete_scanned (expired_filter entitySession now).

(** ** cliauthcodes.go *)

Definition entityCLIAuthCode : string := "cli_auth_code".

Definition cliAuthCode_item (k : CLIAuthCode) (expiry now : Z) : Item :=
  item (pkCLIAuthCode (ca_ID k)) skMeta entityCLIAuthCode
    [("ID", text (ca_ID k)); ("UserID", text (ca_UserID k)); ("Name", text (ca_Name k));
     ("Challenge", text (ca_Challenge k)); ("ExpiresAt", AV_N expiry); ("CreatedAt", AV_N now); ("ttl", AV_N expiry)].

Definition cliAuthCodeFromItem (i : Item) : result StoreErr CLIAuthCode :=
  let! id := S_attr i "ID" in
  let! uid := S_attr i "UserID" in
  let! name := S_attr i "Name" in
  let! ch := S_attr i "Challenge" in
  let! e := N_attr i "ExpiresAt" in
  let! c := N_attr i "CreatedAt" in
  Ok (mkCLIAuthCode id uid name ch (fromUnix e) (fromUnix c)).

Definition CLIAuthCodes_Create (k : CLIAuthCode) : D unit :=
  do! now <- nowUnix;
  putItemIfNotExists (cliAuthCode_item k (toUnix (ca_ExpiresAt k)) now).

Definition CLIAuthCodes_Consume (id : string) (now : Time) : D CLIAuthCode :=
  consume_item (meta (pkCLIAuthCode id)) (GreaterThan "ExpiresAt" (toUnix now)) cliAuthCodeFromItem.

Definition CLIAuthCodes_DeleteExpired (now : Time) : D Z :=
  delete_scanned (expired_filter entityCLIAuthCode now).

(** ** invokeauthcodes.go *)

Definition entityInvokeAuthCode : string := "invoke_auth_code".

Definition invokeAuthCode_item (k : InvokeAuthCode) (expiry now : Z) : Item :=
  item (pkInvokeAuthCode (ic_ID k)) skMeta entityInvokeAuthCode
    [("ID", text (ic_ID k)); ("UserID", text (ic_UserID k)); ("FunctionID", text (ic_FunctionID k));
     ("Host", text (ic_Host k)); ("ReturnTo", text (ic_ReturnTo k)); ("ExpiresAt", AV_N expiry);
     ("CreatedAt", AV_N now); ("ttl", AV_N expiry)].

Definition invokeAuthCodeFromItem (i : Item) : result StoreErr InvokeAuthCode :=
  let! id := S_attr i "ID" in
  let! uid := S_attr i "UserID" in
  let! fid := S_attr i "FunctionID" in
  let! host := S_attr i "Host" in
  let! rt := S_attr i "ReturnTo" in
  let! e := N_attr i "ExpiresAt" in
  let! c := N_attr i "CreatedAt" in
  Ok (mkInvokeAuthCode id uid fid host rt (fromUnix e) (fromUnix c)).

Definition InvokeAuthCodes_Create (k : InvokeAuthCode) : D unit :=
  do! now <- nowUnix;
  putItemIfNotExists (invokeAuthCode_item k (toUnix (ic_ExpiresAt k)) now).

Definition InvokeAuthCodes_Consume (id functionID host : string) (now : Time) : D InvokeAuthCode :=
  consume_item (meta (pkInvokeAuthCode id))
    (And (And (Equals "FunctionID" (text functionID)) (Equals "Host" (text host)))
       (GreaterThan "ExpiresAt" (toUnix now)))
    invokeAuthCodeFromItem.

Definition InvokeAuthCodes_DeleteExpired (now : Time) : D Z :=
  delete_scanned (expired_filter entityInvokeAuthCode now).

(** ** oauthauthcodes.go *)

Definition entityOAuthAuthCode : string := "oauth_auth_code".

Definition oauthAuthCode_item (k : OAuthAuthCode) (expiry now : Z) : Item :=
  item (pkOAuthAuthCode (oa_ID k)) skMeta entityOAuthAuthCode
    [("ID", text (oa_ID k)); ("UserID", text (oa_UserID k)); ("ClientID", text (oa_ClientID k));
     ("RedirectURI", text (oa_RedirectURI k)); ("Challenge", text (oa_Challenge k));
     ("Resource", text (oa_Resource k)); ("ExpiresAt", AV_N expiry); ("CreatedAt", AV_N now); ("ttl", AV_N expiry)].

Definition oauthAuthCodeFromItem (i : Item) : result StoreErr OAuthAuthCode :=
  let! id := S_attr i "ID" in
  let! uid := S_attr i "UserID" in
  let! cid := S_attr i "ClientID" in
  let! uri := S_attr i "RedirectURI" in
  let! ch := S_attr i "Challenge" in
  let! res := S_attr i "Resource" in
  let! e := N_attr i "ExpiresAt" in
  let! c := N_attr i "CreatedAt" in
  Ok (mkOAuthAuthCode id uid cid uri ch res (fromUnix e) (fromUnix c)).

Definition OAuthAuthCodes_Create (k : OAuthAuthCode) : D unit :=
  do! now <- nowUnix;
  putItemIfNotExists (oauthAuthCode_item k (toUnix (oa_ExpiresAt k)) now).

Definition OAuthAuthCodes_Consume (id : string) (now : Time) : D OAuthAuthCode :=
  consume_item (meta (pkOAuthAuthCode id)) (GreaterThan "ExpiresAt" (toUnix now)) oauthAuthCodeFromItem.

Definition OAuthAuthCodes_DeleteExpired (now : Time) : D Z :=
  delete_scanned (expired_filter entityOAuthAuthCode now).

(** ** clicredentials.go *)

Definition entityCLICredential : string := "cli_credential".

Definition cliCredential_item (x : CLICredential) (now : Z) : Item :=
  item (pkCLICredential (cc_SecretHash x)) skMeta entityCLICredential
    [("ID", text (cc_ID x)); ("UserID", text (cc_UserID x)); ("Name", text (cc_Name x));
     ("SecretHash", text (cc_SecretHash x)); ("CreatedAt", AV_N now); ("UpdatedAt", AV_N now); ("LastUsedAt", AV_N 0)].

Definition cliCredentialIDPointer_item (id secretHash : string) : Item :=
  item (pkCLICredentialID id) skMeta entityCLICredential [("SecretHash", text secretHash)].

Definition cliCredentialFromItem (i : Item) : result StoreErr CLICredential :=
  let! id := S_attr i "ID" in
  let! uid := S_attr i "UserID" in
  let! name := S_attr i "Name" in
  let! h := S_attr i "SecretHash" in
  let! c := N_attr i "CreatedAt" in
  let! u := N_attr i "UpdatedAt" in
  let! l := N_attr i "LastUsedAt" in
  Ok (mkCLICredential id uid name h (fromUnix c) (fromUnix u) (last_used_from l)).

Definition CLICredentials_Create (x : CLICredential) : D CLICredential :=
  do! id <- fresh_id (cc_ID x);
  do! now <- nowUnix;
  let x := mkCLICredential id (cc_UserID x) (cc_Name x) (cc_SecretHash x) (fromUnix now) (fromUnix now)
             (cc_LastUsedAt x) in
  run! transactOr ErrConflict
    [(Attribute_not_exists "PK", Put (cliCredential_item x now));
     (Attribute_not_exists "PK", Put (cliCredentialIDPointer_item id (cc_SecretHash x)))];
  dret x.

Definition CLICredentials_ByHash (secretHash : string) : D CLICredential :=
  do! i <- getItem (meta (pkCLICredential secretHash));
  decode cliCredentialFromItem i.

(** A scan that decodes what it visits. *)
Definition collect {A} (from : Item -> result StoreErr A) (i : Item) (l : list A) : D (bool * list A) :=
  do! x <- decode from i; dret (true, l ++ [x]).

Definition by_user (entity userID : string) : Cond :=
  And (Equals "Entity" (AV_S entity)) (Equals "UserID" (AV_S userID)).

Definition CLICredentials_ListByUser (userID : string) : D (list CLICredential) :=
  scanPages (by_user entityCLICredential userID) (collect cliCredentialFromItem) pages None [].

Definition CLICredentials_pointer (id : string) : D string :=
  do! i <- getItem (meta (pkCLICredentialID id));
  decode (fun i => S_attr i "SecretHash") i.

Definition touch_updates (now : Time) : list UpdateAction :=
  [SetTo "LastUsedAt" (AV_N (toUnix now)); SetTo "UpdatedAt" (AV_N (toUnix now))].

Definition CLICredentials_Touch (id : string) (now : Time) : D unit :=
  do! h <- CLICredentials_pointer id;
  updateItemIfExists (meta (pkCLICredential h)) (touch_updates now).

Definition CLICredentials_Delete (id : string) : D unit :=
  try! r <- CLICredentials_pointer id;
  match r with
  | Err ErrNotFound => dret tt
  | Err e => dthrow e
  | Ok h => batchWrite [Delete (meta (pkCLICredential h)); Delete (meta (pkCLICredentialID id))]
  end.

(** ** oauthclients.go *)

Definition entityOAuthClient : string := "oauth_client".
Definition entityOAuthGrant : string := "oauth_grant".

Definition oauthClient_item (x : OAuthClient) (now : Z) : Item :=
  item (pkOAuthClient (oc_ID x)) skMeta entityOAuthClient
    [("ID", text (oc_ID x)); ("Name", text (oc_Name x)); ("RedirectURIs", AV_L (oc_RedirectURIs x));
     ("CreatedAt", AV_N now); ("UpdatedAt", AV_N now)].

Definition oauthClientFromItem (i : Item) : result StoreErr OAuthClient :=
  let! id := S_attr i "ID" in
  let! name := S_attr i "Name" in
  let! uris := L_attr i "RedirectURIs" in
  let! c := N_attr i "CreatedAt" in
  let! u := N_attr i "UpdatedAt" in
  Ok (mkOAuthClient id name uris (fromUnix c) (fromUnix u)).

Definition OAuthClients_Create (x : OAuthClient) : D OAuthClient :=
  do! id <- fresh_id (oc_ID x);
  do! now <- nowUnix;
  let x := mkOAuthClient id (oc_Name x) (oc_RedirectURIs x) (fromUnix now) (fromUnix now) in
  run! putItemIfNotExists (oauthClient_item x now);
  dret x.

Definition OAuthClients_ByID (id : string) : D OAuthClient :=
  do! i <- getItem (meta (pkOAuthClient id));
  decode oauthClientFromItem i.

Definition collect_candidates (i : Item) (l : list (Key * string)) : D (bool * list (Key * string)) :=
  do! x <- decode oauthClientFromItem i; dret (true, l ++ [(itemKeyStrings i, oc_ID x)]).

Definition collectClientIDs (from : Item -> result StoreErr string) (entity : string) (used : list string)
    : D (list string) :=
  scanPages (Equals "Entity" (AV_S entity))
    (fun i used => do! id <- decode from i; dret (true, if id == "" then used else id :: used)) pages None used.

(** ** oauthgrants.go *)

Definition entityOAuthGrantPrev : string := "oauth_grant_prev".

(** [oauthGrantItem]; [lastUsed] is 0 for a grant never used. *)
Definition oauthGrant_item (id userID clientID secretHash prev : string) (createdAt updatedAt lastUsed : Z) : Item :=
  item (pkOAuthGrant secretHash) skMeta entityOAuthGrant
    [("ID", text id); ("UserID", text userID); ("ClientID", text clientID); ("SecretHash", text secretHash);
     ("PrevSecretHash", text prev); ("CreatedAt", AV_N createdAt); ("UpdatedAt", AV_N updatedAt);
     ("LastUsedAt", AV_N lastUsed)].

Definition oauthGrantIDPointer_item (id secretHash : string) : Item :=
  item (pkOAuthGrantID id) skMeta entityOAuthGrant [("SecretHash", text secretHash)].

Definition oauthGrantPrevPointer_item (hash id : string) : Item :=
  item (pkOAuthGrantPrev hash) skMeta entityOAuthGrantPrev [("GrantID", text id)].

(** [oauthGrantItem] as it is read: the times are still seconds. *)
Definition oauthGrantItem_from (i : Item) : result StoreErr (string * string * string * string * string * Z * Z * Z) :=
  let! id := S_attr i "ID" in
  let! uid := S_attr i "UserID" in
  let! cid := S_attr i "ClientID" in
  let! h := S_attr i "SecretHash" in
  let! p := S_attr i "PrevSecretHash" in
  let! c := N_attr i "CreatedAt" in
  let! u := N_attr i "UpdatedAt" in
  let! l := N_attr i "LastUsedAt" in
  Ok (id, uid, cid, h, p, c, u, l).

Definition oauthGrantFromItem (i : Item) : result StoreErr OAuthGrant :=
  let! x := oauthGrantItem_from i in
  let '(id, uid, cid, h, p, c, u, l) := x in
  Ok (mkOAuthGrant id uid cid h p (fromUnix c) (fromUnix u) (last_used_from l)).

Definition OAuthGrants_Create (g : OAuthGrant) : D OAuthGrant :=
  do! id <- fresh_id (og_ID g);
  do! now <- nowUnix;
  run! transactOr ErrConflict
    [(Attribute_not_exists "PK",
      Put (oauthGrant_item id (og_UserID g) (og_ClientID g) (og_SecretHash g) "" now now 0));
     (Attribute_not_exists "PK", Put (oauthGrantIDPointer_item id (og_SecretHash g)))];
  dret (mkOAuthGrant id (og_UserID g) (og_ClientID g) (og_SecretHash g) (og_PrevSecretHash g)
          (fromUnix now) (fromUnix now) (og_LastUsedAt g)).

Definition OAuthGrants_ByHash (secretHash : string) : D OAuthGrant :=
  do! i <- getItem (meta (pkOAuthGrant secretHash));
  decode oauthGrantFromItem i.

Definition OAuthGrants_ListByUser (userID : string) : D (list OAuthGrant) :=
  scanPages (by_user entityOAuthGrant userID) (collect oauthGrantFromItem) pages None [].

Definition OAuthGrants_pointer (id : string) : D string :=
  do! i <- getItem (meta (pkOAuthGrantID id));
  decode (fun i => S_attr i "SecretHash") i.

Definition OAuthGrants_Touch (id : string) (now : Time) : D unit :=
  do! h <- OAuthGrants_pointer id;
  updateItemIfExists (meta (pkOAuthGrant h)) (touch_updates now).

(** The pointer a rotation left behind, found by a read whose failure is ignored. *)
Definition prev_delete (r : result StoreErr Item) : list Write :=
  match r with
  | Ok i => match oauthGrantItem_from i with
            | Ok (_, _, _, _, p, _, _, _) => if p == "" then [] else [Delete (meta (pkOAuthGrantPrev p))]
            | Err _ => []
            end
  | Err _ => []
  end.

Definition OAuthGrants_Delete (id : string) : D unit :=
  try! r <- OAuthGrants_pointer id;
  match r with
  | Err ErrNotFound => dret tt
  | Err e => dthrow e
  | Ok h =>
      try! ri <- getItem (meta (pkOAuthGrant h));
      batchWrite ([Delete (meta (pkOAuthGrant h)); Delete (meta (pkOAuthGrantID id))] ++ prev_delete ri)
  end.

(** The writes of a rotation: the retired secret must be live, the new one unknown,
    and the grant's pointer must still name the retired one. *)
Definition rotation (id userID clientID oldHash newHash prev : string) (createdAt nowU : Z) : list (Cond * Write) :=
  [(Attribute_exists "PK", Delete (meta (pkOAuthGrant oldHash)));
   (Attribute_not_exists "PK", Put (oauthGrant_item id userID clientID newHash oldHash createdAt nowU nowU));
   (Equals "SecretHash" (text oldHash), Update (meta (pkOAuthGrantID id)) [SetTo "SecretHash" (text newHash)]);
   (Always, Put (oauthGrantPrevPointer_item oldHash id))]
  ++ (if prev == "" then [] else [(Always, Delete (meta (pkOAuthGrantPrev prev)))]).

Definition OAuthGrants_Rotate (id oldHash newHash : string) (now : Time) : D OAuthGrant :=
  try! r <- getItem (meta (pkOAuthGrant oldHash));
  match r with
  | Err _ => dthrow ErrConflict
  | Ok i =>
      do! x <- decode oauthGrantItem_from i;
      let '(id', uid, cid, _, prev, c, _, _) := x in
      if negb (id' == id) then dthrow ErrConflict
      else
        let nowU := toUnix now in
        run! transactOr ErrConflict (rotation id uid cid oldHash newHash prev c nowU);
        dret (mkOAuthGrant id uid cid newHash oldHash (fromUnix c) (fromUnix nowU) (last_used_from nowU))
  end.

Definition OAuthGrants_RevokeIfPreviousSecret (hash : string) : D bool :=
  try! r <- getItem (meta (pkOAuthGrantPrev hash));
  match r with
  | Err ErrNotFound => dret false
  | Err e => dthrow e
  | Ok i =>
      do! id <- decode (fun i => S_attr i "GrantID") i;
      run! OAuthGrants_Delete id;
      run! deleteItem (meta (pkOAuthGrantPrev hash));
      dret true
  end.

(** ** The sweep of unused clients *)

Definition client_of_grant (i : Item) : result StoreErr string :=
  let! g := oauthGrantFromItem i in Ok (og_ClientID g).
Definition client_of_code (i : Item) : result StoreErr string :=
  let! k := oauthAuthCodeFromItem i in Ok (oa_ClientID k).

Definition OAuthClients_DeleteUnusedOlderThan (cutoff : Time) : D Z :=
  do! candidates <- scanPages
    (And (Equals "Entity" (AV_S entityOAuthClient)) (AtMost "CreatedAt" (toUnix cutoff)))
    collect_candidates pages None [];
  match candidates with
  | [] => dret 0
  | _ =>
      do! used <- collectClientIDs client_of_grant entityOAuthGrant [];
      do! used <- collectClientIDs client_of_code entityOAuthAuthCode used;
      let ws := omap (fun '(k, id) => if existsb (String.eqb id) used then None else Some (Delete k)) candidates in
      run! batchWrite ws;
      dret (Z.of_nat (length ws))
  end.
End Repositories.
