(* ===== verification/DynamoGrants.v ===== *)
(** * DynamoGrants: refresh secrets in DynamoDB

    What oauthgrants.go of src/server/internal/store/dynamodb promises: of any number
    of clients, interleaved call by call, at most one rotates a given secret; and one
    client after the other sees what it would see of the relational store. *)

From S2P Require Import Prelude Types Store StoreCreds Dynamo DynamoLogic DynamoKeys DynamoCreds.

(** ** At most one rotation of a secret *)

Section Rotation.
Context {I : IdGen} (pages : nat).

(** The methods of the repository, with the arguments of one call. *)
Inductive GrantOp :=
| GCreate (g : OAuthGrant)
| GByHash (h : string)
| GListByUser (userID : string)
| GTouch (id : string) (now : Time)
| GDelete (id : string)
| GRotate (id oldHash newHash : string) (now : Time)
| GRevokeIfPreviousSecret (h : string).

(** A client that makes one call, and what it got if the call was a rotation of
    [oldHash]. *)
Definition client (id oldHash : string) (o : GrantOp) : prog (option OAuthGrant) :=
  match o with
  | GCreate g => outcome (OAuthGrants_Create g) (fun _ => None)
  | GByHash h => outcome (OAuthGrants_ByHash h) (fun _ => None)
  | GListByUser u => outcome (OAuthGrants_ListByUser pages u) (fun _ => None)
  | GTouch i n => outcome (OAuthGrants_Touch i n) (fun _ => None)
  | GDelete i => outcome (OAuthGrants_Delete i) (fun _ => None)
  | GRotate i old new n =>
      outcome (OAuthGrants_Rotate i old new n) (fun g => if (i == id) && (old == oldHash) then Some g else None)
  | GRevokeIfPreviousSecret h => outcome (OAuthGrants_RevokeIfPreviousSecret h) (fun _ => None)
  end.

(** The secrets a method introduces. *)
Definition introduces (o : GrantOp) (h : string) : Prop :=
  match o with
  | GCreate g => og_SecretHash g = h
  | GRotate _ _ new _ => new = h
  | _ => False
  end.

Context (id oldHash : string).
#[local] Abbreviation pointer := (meta (pkOAuthGrantID id)).

(** The grant's pointer names another secret, or is gone. *)
Definition spent (o : option Item) : Prop := holds (Equals "SecretHash" (text oldHash)) o = false.
Lemma spent_pointer i h : h <> oldHash -> spent (Some (oauthGrantIDPointer_item i h)).
Proof. intros Hh. unfold spent. simpl. apply bool_decide_eq_false. intros H. by injection H. Qed.

Lemma harmless_delete c k : harmless (keeps_spent spent) pointer (c, Delete k).
Proof. intros o o' _ _ H _. simpl in H. by injection H as <-. Qed.

Lemma harmless_put c i k : key_of i = Some k -> k <> pointer \/ spent (Some i) -> harmless (keeps_spent spent) pointer (c, Put i).
Proof.
  intros Hk Hs o o' Hp _ H _. simpl in Hp, H. injection H as <-. destruct Hs as [Hn|]; [|done]. congruence.
Qed.

Lemma harmless_update c k us : k <> pointer -> harmless (keeps_spent spent) pointer (c, Update k us).
Proof. intros Hk. apply harmless_elsewhere. simpl. congruence. Qed.

Lemma harmless_rotation i uid cid old new prev c n : new <> oldHash ->
  Forall (harmless (keeps_spent spent) pointer) (rotation i uid cid old new prev c n).
Proof.
  intros Hn. unfold rotation. apply Forall_app. split; [|destruct (prev == ""); repeat constructor; apply harmless_delete].
  constructor; [apply harmless_delete|]. constructor; [eapply harmless_put; [reflexivity|by left]|]. constructor.
  - intros o o' Hk Hh Ho _. cbn [write_key snd] in Hk.
    unfold spent. destruct o' as [i'|]; [|done]. cbn in Ho. injection Ho as Ho. simpl. apply bool_decide_eq_false.
    rewrite <- Ho, lookup_insert_eq. intros E. by injection E.
  - repeat constructor. eapply harmless_put; [reflexivity|by left].
Qed.

Lemma issues_pointer i : issues (respects (keeps_spent spent) pointer) (OAuthGrants_pointer i).
Proof. apply issues_dbind; [apply issues_getItem|done]. Qed.

Lemma harmless_deletes (ks : list Write) : Forall (fun x => exists k, x = Delete k) ks ->
  Forall (fun x => harmless (keeps_spent spent) pointer (Always, x)) ks.
Proof. intros H. eapply Forall_impl; [done|]. intros x [k ->]. apply harmless_delete. Qed.

Lemma prev_delete_deletes r : Forall (fun x => exists k, x = Delete k) (prev_delete r).
Proof.
  destruct r as [i|e]; [|constructor]. unfold prev_delete. destruct (oauthGrantItem_from i) as [x|]; [|constructor].
  repeat destruct x as [x ?]. case_goal; repeat constructor. eauto.
Qed.

Lemma issues_Delete i : issues (respects (keeps_spent spent) pointer) (OAuthGrants_Delete i).
Proof.
  apply issues_dtry; [apply issues_pointer|]. intros [h|[]]; try done.
  apply issues_dtry; [apply issues_getItem|]. intros r. apply issues_batchWrite, harmless_deletes.
  repeat (constructor; [eauto|]). apply prev_delete_deletes.
Qed.

Lemma client_respects o : ~ introduces o oldHash -> issues (respects (keeps_spent spent) pointer) (client id oldHash o).
Proof.
  intros Hn. destruct o as [g|h|u|i n|i|i old new n|h]; cbn [client introduces] in *; apply issues_outcome.
  - apply issues_dbind; [unfold fresh_id; destruct (_ == ""); [by apply issues_do; [constructor|]|done]|].
    intros i. apply issues_dbind; [by apply issues_do; [constructor|]|]. intros n. apply issues_dbind; [|done].
    apply issues_transactOr. repeat constructor; (eapply harmless_put; [reflexivity|]); [by left|right; by apply spent_pointer].
  - apply issues_dbind; [apply issues_getItem|done].
  - apply issues_scanPages. intros i l _ _. by apply issues_dbind.
  - apply issues_dbind; [apply issues_pointer|]. intros h. by apply issues_update, harmless_update.
  - apply issues_Delete.
  - apply issues_dtry; [apply issues_getItem|]. intros [j|]; [|done]. apply issues_dbind; [done|].
    intros x. repeat destruct x as [x ?]. case_goal; [done|]. apply issues_dbind; [|done].
    by apply issues_transactOr, harmless_rotation.
  - apply issues_dtry; [apply issues_getItem|]. intros [j|[]]; try done. apply issues_dbind; [done|]. intros i.
    apply issues_dbind; [apply issues_Delete|]. intros _. apply issues_dbind; [|done]. apply issues_delete, harmless_delete.
Qed.

Lemma honest_client o : ~ introduces o oldHash -> honest spent pointer (client id oldHash o).
Proof.
  intros Hn. destruct o as [| | | | |i old new n|]; try apply honest_never.
  cbn in Hn |- *. intros [[j|]|e]; cbn; try by left. left. destruct (oauthGrantItem_from j) as [x|]; [|done]. repeat destruct x as [x ?]. cbn.
  destruct (negb (_ == i)); [done|]. intros [[]|e]; [|by left]. cbn.
  destruct ((i == id) && (old == oldHash)) eqn:E; [|by left]. bool_facts. subst. right. split; [|done].
  split; [done|]. apply Exists_exists. exists (Equals "SecretHash" (text oldHash), Update pointer [SetTo "SecretHash" (text new)]).
  split; [right; right; left|]. split; [done|]. intros o o' Hh Ho. cbn [fst snd] in Hh, Ho. split; [unfold spent; congruence|].
  destruct o' as [i'|]; [|done]. cbn in Ho. injection Ho as <-. unfold spent. simpl. apply bool_decide_eq_false.
  rewrite lookup_insert_eq. intros Heq. by injection Heq.
Qed.

(** C32. In a DynamoDB table, whatever calls any number of clients make and however
    these are interleaved, repeated, lost or answered from stale copies, at most one
    rotation of a grant's secret succeeds, as long as nobody introduces that secret
    anew. *)
Theorem secret_rotates_once ops db ps' db' (Hk : well_keyed db)
    (Hops : Forall (fun o => ~ introduces o oldHash) ops)
    (Hrun : rtc step (map (client id oldHash) ops, db) (ps', db')) :
  (length (List.filter won ps') <= 1)%nat.
Proof.
  assert (Forall (fun o => issues (respects (keeps_spent spent) pointer) (client id oldHash o)
                           /\ honest spent pointer (client id oldHash o)) ops) as H.
  { eapply Forall_impl; [done|]. intros o Ho. split; [by apply client_respects|by apply honest_client]. }
  eapply (race_ends spent pointer); [done| | |done]; apply Forall_map; (eapply Forall_impl; [done|]); by intros o [].
Qed.
End Rotation.

(** *** Two clients refresh at once *)

Definition refreshed_db : DB :=
  (run (I := unary_ids) (OAuthGrants_Create (mkOAuthGrant "" "U1" "C1" "h0" "" 0 0 None)) empty_db).2.
Definition refreshes : list GrantOp := [GRotate "0" "h0" "h1" (7 * second); GRotate "0" "h0" "h2" (8 * second)].
Definition refreshing : list (prog (option OAuthGrant)) * DB :=
  (map (client 1 "0" "h0") refreshes, refreshed_db).

Lemma secret_rotates_once_witness :
  (length (List.filter won (play (I := unary_ids) [0; 1; 0; 1]%nat refreshing).1) <= 1)%nat
  /\ length (List.filter won (play (I := unary_ids) [0; 1; 0; 1]%nat refreshing).1) = 1%nat.
Proof.
  split; [|by vm_compute].
  apply (secret_rotates_once (I := unary_ids) 1 "0" "h0" refreshes refreshed_db
           (play (I := unary_ids) [0; 1; 0; 1]%nat refreshing).1 (play (I := unary_ids) [0; 1; 0; 1]%nat refreshing).2).
  - apply well_keyed_all. by vm_compute.
  - repeat constructor; discriminate.
  - rewrite <- surjective_pairing. apply play_steps.
Defined.
