(* ===== verification/DynamoRefine.v ===== *)
(** * DynamoRefine: the grants of DynamoDB implement those of the relational store

    One client after the other, and no call failing, a DynamoDB table that represents
    the relational [oauth_grants] table gives every method of the repository the result
    the relational store gives, and represents the resulting table again. The calls are
    those the authorization server makes (Definition [legal]); a grant for a client
    that does not exist is one where the stores differ. *)

From stdpp Require Import sorting.
From S2P Require Import Prelude Types Store StoreQuota StoreCreds Dynamo DynamoLogic DynamoKeys DynamoCreds DynamoGrants.

(** ** The representation *)

Abbreviation ik id := (meta (pkOAuthGrantID id)).
Abbreviation gk h := (meta (pkOAuthGrant h)).
Abbreviation pk h := (meta (pkOAuthGrantPrev h)).

Definition item_of (g : OAuthGrant) : Item :=
  oauthGrant_item (og_ID g) (og_UserID g) (og_ClientID g) (og_SecretHash g) (og_PrevSecretHash g)
    (toUnix (og_CreatedAt g)) (toUnix (og_UpdatedAt g)) (from_option toUnix 0 (og_LastUsedAt g)).

Definition whole (t : Time) : Prop := stored t = t.

Record well_formed (m : gmap string OAuthGrant) (id : string) (g : OAuthGrant) : Prop := {
  wf_id : og_ID g = id;
  wf_hash : og_SecretHash g <> "";
  wf_created : whole (og_CreatedAt g);
  wf_updated : whole (og_UpdatedAt g);
  wf_used : match og_LastUsedAt g with Some t => whole t /\ toUnix t <> 0 | None => True end;
  wf_prev id' g' : m !! id' = Some g' -> og_PrevSecretHash g <> og_SecretHash g'
}.

(** What a scan for the grants of a user looks for. *)
Definition owned_grant (i : Item) : Prop := i !! "Entity" = Some (AV_S entityOAuthGrant) /\ is_Some (i !! "UserID").

Record represents (m : gmap string OAuthGrant) (t : Table) : Prop := {
  rep_wf id g : m !! id = Some g -> well_formed m id g;
  rep_pointer id g : m !! id = Some g -> t !! ik id = Some (oauthGrantIDPointer_item id (og_SecretHash g));
  rep_item id g : m !! id = Some g -> t !! gk (og_SecretHash g) = Some (item_of g);
  rep_prev id g : m !! id = Some g -> og_PrevSecretHash g <> "" ->
    t !! pk (og_PrevSecretHash g) = Some (oauthGrantPrevPointer_item (og_PrevSecretHash g) id);
  rep_no_pointer id : m !! id = None -> t !! ik id = None;
  rep_only_items h : is_Some (t !! gk h) -> exists id g, m !! id = Some g /\ og_SecretHash g = h;
  rep_only_prevs h : is_Some (t !! pk h) -> h <> "" /\ exists id g, m !! id = Some g /\ og_PrevSecretHash g = h;
  rep_owned k i : t !! k = Some i -> owned_grant i -> exists h, k = gk h
}.

Lemma decode_item id uid cid h p c u l :
  oauthGrantItem_from (oauthGrant_item id uid cid h p c u l) = Ok (id, uid, cid, h, p, c, u, l).
Proof. reflexivity. Qed.

Lemma decode_pointer id h : S_attr (oauthGrantIDPointer_item id h) "SecretHash" = Ok h.
Proof. reflexivity. Qed.

Lemma decode_prev h id : S_attr (oauthGrantPrevPointer_item h id) "GrantID" = Ok id.
Proof. reflexivity. Qed.

Lemma decode_item_of m id g : well_formed m id g -> oauthGrantFromItem (item_of g) = Ok g.
Proof.
  intros [_ _ Hc Hu Hl _]. unfold oauthGrantFromItem, item_of. rewrite decode_item. cbn [rbind].
  destruct g as [i u c h p ca ua l]. simpl in *. unfold whole, stored in *. rewrite Hc, Hu. do 2 f_equal.
  unfold last_used_from. destruct l as [t|]; simpl; [|done]. destruct Hl as [Ht Hz].
  destruct (toUnix t =? 0) eqn:E; bool_facts; [done|]. by rewrite Ht.
Qed.

Lemma toUnix_stored t : toUnix (stored t) = toUnix t.
Proof. unfold stored, fromUnix, toUnix, second. by rewrite Z.div_mul by lia. Qed.

Lemma whole_fromUnix n : whole (fromUnix n).
Proof. unfold whole, stored, fromUnix, toUnix, second. by rewrite Z.div_mul by lia. Qed.

(** The grant of a secret is the only one with it. *)
Lemma hash_inj m t id id' g g' : represents m t -> m !! id = Some g -> m !! id' = Some g' ->
  og_SecretHash g = og_SecretHash g' -> id = id' /\ g = g'.
Proof.
  intros H Hg Hg' E. pose proof (rep_item _ _ H _ _ Hg) as H1. pose proof (rep_item _ _ H _ _ Hg') as H2.
  rewrite E, H2 in H1. apply (inj Some) in H1 as Ei.
  assert (oauthGrantFromItem (item_of g) = oauthGrantFromItem (item_of g')) as Ed by congruence.
  rewrite (decode_item_of m id), (decode_item_of m id') in Ed by (by apply (rep_wf _ _ H)). injection Ed as <-.
  split; [|done]. by rewrite <- (wf_id _ _ _ (rep_wf _ _ H _ _ Hg)), <- (wf_id _ _ _ (rep_wf _ _ H _ _ Hg')).
Qed.

Lemma prev_inj m t id id' g g' : represents m t -> m !! id = Some g -> m !! id' = Some g' ->
  og_PrevSecretHash g <> "" -> og_PrevSecretHash g = og_PrevSecretHash g' -> id = id'.
Proof.
  intros H Hg Hg' Hn E. pose proof (rep_prev _ _ H _ _ Hg Hn) as H1. rewrite E in Hn.
  pose proof (rep_prev _ _ H _ _ Hg' Hn) as H2. rewrite E, H2 in H1. apply (inj Some) in H1 as Ei.
  assert (Ok (E := StoreErr) id' = Ok id) as Ed by (by rewrite <- !(decode_prev (og_PrevSecretHash g')), Ei).
  by injection Ed.
Qed.

(** What a lookup by secret finds. *)
Lemma by_hash m t h : represents m t ->
  match row (head (rows (fun g => og_SecretHash g == h) m)) with
  | Ok g => m !! og_ID g = Some g /\ og_SecretHash g = h /\ t !! gk h = Some (item_of g)
  | Err e => e = ErrNotFound /\ t !! gk h = None
  end.
Proof.
  intros H. destruct (row _) as [g|e] eqn:E.
  - apply head_rows in E as (id & Hid & Hh). bool_facts. pose proof (rep_wf _ _ H _ _ Hid) as Hw.
    rewrite (wf_id _ _ _ Hw). split_and!; [done|done|]. rewrite <- Hh. by eapply rep_item.
  - unfold rows in E. destruct (List.filter _ _) as [|x l] eqn:El; [|done]. simpl in E. injection E as <-. split; [done|].
    destruct (t !! gk h) as [i|] eqn:Ei; [|done]. exfalso.
    destruct (rep_only_items _ _ H h ltac:(by eauto)) as (id & g & Hg & Eh).
    assert (In g (List.filter (fun g => og_SecretHash g == h) (map snd (map_to_list m)))) as Hin; [|by rewrite El in Hin].
    apply filter_In. split; [|by apply String.eqb_eq]. apply in_map_iff. exists (id, g). split; [done|].
    by apply list_elem_of_In, elem_of_map_to_list.
Qed.

(** ** Updates of the representation *)

Lemma gk_inj h h' : gk h = gk h' -> h = h'.
Proof. intros E. unfold meta, pkOAuthGrant in E. injection E as E. done. Qed.
Lemma ik_inj i i' : ik i = ik i' -> i = i'.
Proof. intros E. unfold meta, pkOAuthGrantID in E. injection E as E. done. Qed.
Lemma pk_inj h h' : pk h = pk h' -> h = h'.
Proof. intros E. unfold meta, pkOAuthGrantPrev in E. injection E as E. done. Qed.

Abbreviation alter k o t := (partial_alter (fun _ => o) k t : Table).

Lemma alter_some k o t k' i : alter k o t !! k' = Some i -> k = k' /\ o = Some i \/ t !! k' = Some i.
Proof.
  destruct (decide (k = k')) as [->|E]; [rewrite lookup_partial_alter_eq; auto|]. rewrite lookup_partial_alter_ne; auto.
Qed.
Ltac altered := repeat match goal with
  | H : partial_alter _ _ _ !! _ = Some _ |- _ => apply alter_some in H as [[<- H]|H]; [try (injection H as <-)|]; try done
  end.
Lemma pointer_not_owned id h : ~ owned_grant (oauthGrantIDPointer_item id h).
Proof. intros [_ H]. by vm_compute in H; destruct H. Qed.
Lemma prev_not_owned h id : ~ owned_grant (oauthGrantPrevPointer_item h id).
Proof. intros [H _]. by vm_compute in H. Qed.

Section Alter.
Context (o : option Item) (t : Table).
Lemma at_ii a b : alter (ik a) o t !! ik b = if decide (a = b) then o else t !! ik b.
Proof.
  case_decide as E; [by rewrite E, lookup_partial_alter_eq|]. rewrite lookup_partial_alter_ne; [done|]. by intros ?%ik_inj.
Qed.
Lemma at_gg a b : alter (gk a) o t !! gk b = if decide (a = b) then o else t !! gk b.
Proof.
  case_decide as E; [by rewrite E, lookup_partial_alter_eq|]. rewrite lookup_partial_alter_ne; [done|]. by intros ?%gk_inj.
Qed.
Lemma at_pp a b : alter (pk a) o t !! pk b = if decide (a = b) then o else t !! pk b.
Proof.
  case_decide as E; [by rewrite E, lookup_partial_alter_eq|]. rewrite lookup_partial_alter_ne; [done|]. by intros ?%pk_inj.
Qed.
Lemma at_ig a b : alter (ik a) o t !! gk b = t !! gk b.
Proof. by rewrite lookup_partial_alter_ne. Qed.
Lemma at_ip a b : alter (ik a) o t !! pk b = t !! pk b.
Proof. by rewrite lookup_partial_alter_ne. Qed.
Lemma at_gi a b : alter (gk a) o t !! ik b = t !! ik b.
Proof. by rewrite lookup_partial_alter_ne. Qed.
Lemma at_gp a b : alter (gk a) o t !! pk b = t !! pk b.
Proof. by rewrite lookup_partial_alter_ne. Qed.
Lemma at_pi a b : alter (pk a) o t !! ik b = t !! ik b.
Proof. by rewrite lookup_partial_alter_ne. Qed.
Lemma at_pg a b : alter (pk a) o t !! gk b = t !! gk b.
Proof. by rewrite lookup_partial_alter_ne. Qed.
End Alter.
Create Rewrite HintDb keys.
#[local] Hint Rewrite at_ii at_gg at_pp at_ig at_ip at_gi at_gp at_pi at_pg : keys.
Ltac keys := autorewrite with keys.

(** A grant that was not there, under a secret nobody had. *)
Lemma represents_insert m t id g : represents m t -> m !! id = None -> well_formed (<[id := g]> m) id g ->
  og_PrevSecretHash g = "" -> t !! gk (og_SecretHash g) = None ->
  (forall id' g', m !! id' = Some g' -> og_PrevSecretHash g' <> og_SecretHash g) ->
  represents (<[id := g]> m)
    (alter (ik id) (Some (oauthGrantIDPointer_item id (og_SecretHash g))) (alter (gk (og_SecretHash g)) (Some (item_of g)) t)).
Proof.
  intros H Hid Hw Hp Hg Hf. constructor.
  - intros i x Hx. apply lookup_insert_Some in Hx as [[<- <-]|[Hn Hx]]; [done|].
    destruct (rep_wf _ _ H _ _ Hx). constructor; try done. intros i' x' Hx'.
    apply lookup_insert_Some in Hx' as [[_ <-]|[_ Hx']]; eauto.
  - intros i x Hx. keys. apply lookup_insert_Some in Hx as [[<- <-]|[Hn Hx]]; case_decide; try done. by eapply rep_pointer.
  - intros i x Hx. keys. apply lookup_insert_Some in Hx as [[<- <-]|[Hn Hx]]; case_decide as E; try done; [|by eapply rep_item].
    exfalso. pose proof (rep_item _ _ H _ _ Hx). congruence.
  - intros i x Hx Hne. keys. apply lookup_insert_Some in Hx as [[<- <-]|[Hn Hx]]; [done|]. by apply (rep_prev _ _ H).
  - intros i Hi. keys. apply lookup_insert_None in Hi as [Hi Hn]. case_decide; [done|]. by apply (rep_no_pointer _ _ H).
  - intros h. keys. case_decide as E.
    + intros _. exists id, g. by rewrite lookup_insert_eq.
    + intros (i & x & Hx & Eh)%(rep_only_items _ _ H). exists i, x. rewrite lookup_insert_ne; [done|congruence].
  - intros h. keys. intros (Hh & i & x & Hx & Eh)%(rep_only_prevs _ _ H). split; [done|]. exists i, x.
    rewrite lookup_insert_ne; [done|congruence].
  - intros k i Hk Ho. altered; eauto using rep_owned. by destruct (pointer_not_owned _ _ Ho).
Qed.

(** A grant whose secrets stay. *)
Lemma represents_update m t id g g' : represents m t -> m !! id = Some g -> well_formed m id g' ->
  og_SecretHash g' = og_SecretHash g -> og_PrevSecretHash g' = og_PrevSecretHash g ->
  represents (<[id := g']> m) (alter (gk (og_SecretHash g)) (Some (item_of g')) t).
Proof.
  intros H Hg Hw Eh Ep.
  assert (forall i x, <[id := g']> m !! i = Some x -> exists y, m !! i = Some y /\ og_SecretHash y = og_SecretHash x
    /\ og_PrevSecretHash y = og_PrevSecretHash x) as Hback.
  { intros i x Hx. apply lookup_insert_Some in Hx as [[<- <-]|[_ Hx]]; eauto. }
  assert (forall i y, m !! i = Some y -> exists x, <[id := g']> m !! i = Some x /\ og_SecretHash x = og_SecretHash y
    /\ og_PrevSecretHash x = og_PrevSecretHash y) as Hforth.
  { intros i y Hy. destruct (decide (id = i)) as [->|]; [rewrite lookup_insert_eq|by rewrite lookup_insert_ne; eauto].
    exists g'. by simplify_eq. }
  constructor.
  - intros i x Hx. assert (well_formed m i x) as [] by (apply lookup_insert_Some in Hx as [[<- <-]|[_ Hx]]; [done|by eapply rep_wf]).
    constructor; try done. intros i' x' (y' & Hy' & E1 & _)%Hback. rewrite <- E1. eauto.
  - intros i x (y & Hy & <- & _)%Hback. keys. by eapply rep_pointer.
  - intros i x Hx. keys. apply lookup_insert_Some in Hx as [[<- <-]|[Hn Hx]]; case_decide as E; try done; [|by eapply rep_item].
    exfalso. by destruct (hash_inj _ _ _ _ _ _ H Hg Hx E).
  - intros i x (y & Hy & _ & <-)%Hback Hne. keys. by apply (rep_prev _ _ H).
  - intros i Hi. keys. apply lookup_insert_None in Hi as [Hi Hn]. by apply (rep_no_pointer _ _ H).
  - intros h. keys. case_decide as E.
    + intros _. subst h. exists id, g'. by rewrite lookup_insert_eq.
    + intros (i & y & Hy & <-)%(rep_only_items _ _ H). destruct (Hforth _ _ Hy) as (x & Hx & E1 & _). eauto.
  - intros h. keys. intros (Hh & i & y & Hy & <-)%(rep_only_prevs _ _ H). split; [done|].
    destruct (Hforth _ _ Hy) as (x & Hx & _ & E2). eauto.
  - intros k i Hk Ho. altered; eauto using rep_owned.
Qed.

Definition drop_prev (p : string) (t : Table) : Table := if p == "" then t else alter (pk p) None t.

Lemma drop_prev_i p t i : drop_prev p t !! ik i = t !! ik i.
Proof. unfold drop_prev. destruct (p == ""); keys; done. Qed.
Lemma drop_prev_g p t h : drop_prev p t !! gk h = t !! gk h.
Proof. unfold drop_prev. destruct (p == ""); keys; done. Qed.
Lemma drop_prev_p p t h : drop_prev p t !! pk h = if decide (p = h /\ p <> "") then None else t !! pk h.
Proof.
  unfold drop_prev. destruct (p == "") eqn:E; bool_facts; keys; [by rewrite decide_False by naive_solver|].
  case_decide as E1; case_decide as E2; naive_solver.
Qed.
Lemma drop_prev_some p t k i : drop_prev p t !! k = Some i -> t !! k = Some i.
Proof. unfold drop_prev. destruct (p == ""); [done|]. intros [[_ H]|H]%alter_some; done. Qed.
#[local] Hint Rewrite drop_prev_i drop_prev_g drop_prev_p : keys.

Lemma represents_delete m t id g : represents m t -> m !! id = Some g ->
  represents (delete id m) (drop_prev (og_PrevSecretHash g) (alter (ik id) None (alter (gk (og_SecretHash g)) None t))).
Proof.
  intros H Hg.
  assert (forall i x, delete id m !! i = Some x -> m !! i = Some x /\ i <> id) as Hd
    by (intros i x [? ?]%lookup_delete_Some; done).
  constructor.
  - intros i x [Hx _]%Hd. destruct (rep_wf _ _ H _ _ Hx). constructor; try done. intros i' x' [Hx' _]%Hd. eauto.
  - intros i x [Hx Hi]%Hd. keys. rewrite decide_False by done. by eapply rep_pointer.
  - intros i x [Hx Hi]%Hd. keys. rewrite decide_False; [by eapply rep_item|]. intros E.
    by destruct (hash_inj _ _ _ _ _ _ H Hg Hx E).
  - intros i x [Hx Hi]%Hd Hne. keys. rewrite decide_False; [by apply (rep_prev _ _ H)|]. intros [E Hp].
    apply Hi. by rewrite (prev_inj _ _ _ _ _ _ H Hg Hx Hp E).
  - intros i Hi. keys. case_decide as E; [done|]. apply (rep_no_pointer _ _ H). by rewrite lookup_delete_ne in Hi.
  - intros h. keys. case_decide as E; [by intros []|]. intros (i & x & Hx & <-)%(rep_only_items _ _ H). exists i, x.
    rewrite lookup_delete_ne; [done|]. intros <-. congruence.
  - intros h. keys. case_decide as E; [by intros []|]. intros (Hh & i & x & Hx & <-)%(rep_only_prevs _ _ H). split; [done|].
    exists i, x. rewrite lookup_delete_ne; [done|]. intros <-. apply E. by simplify_eq.
  - intros k i Hk%drop_prev_some Ho. altered; eauto using rep_owned.
Qed.

Lemma represents_rotate m t id g new n : represents m t -> m !! id = Some g -> new <> "" -> new <> og_SecretHash g ->
  toUnix n <> 0 -> t !! gk new = None -> (forall i x, m !! i = Some x -> og_PrevSecretHash x <> new) ->
  let g' := rotated g (og_SecretHash g) new n in
  represents (<[id := g']> m)
    (drop_prev (og_PrevSecretHash g)
      (alter (pk (og_SecretHash g)) (Some (oauthGrantPrevPointer_item (og_SecretHash g) id))
        (alter (ik id) (Some (oauthGrantIDPointer_item id new))
          (alter (gk new) (Some (item_of g')) (alter (gk (og_SecretHash g)) None t))))).
Proof.
  intros H Hg Hn Hno Hz Hfree Hfresh g'. pose proof (rep_wf _ _ H _ _ Hg) as Hw.
  assert (forall i x, <[id := g']> m !! i = Some x -> (i = id /\ x = g') \/ (i <> id /\ m !! i = Some x)) as Hc.
  { intros i x [[<- <-]|[? ?]]%lookup_insert_Some; auto. }
  assert (forall i x, m !! i = Some x -> og_SecretHash x <> new) as Hnew.
  { intros i x Hx E. pose proof (rep_item _ _ H _ _ Hx). congruence. }
  constructor.
  - intros i x [[-> ->]|[Hi Hx]]%Hc.
    + constructor; simpl; [by apply (wf_id _ _ _ Hw)|done|by apply (wf_created _ _ _ Hw)|apply whole_fromUnix| |].
      * split; [apply whole_fromUnix|]. by rewrite toUnix_stored.
      * intros i' x' [[-> ->]|[Hi' Hx']]%Hc; simpl; [congruence|]. intros E.
        by destruct (hash_inj _ _ _ _ _ _ H Hg Hx' E).
    + destruct (rep_wf _ _ H _ _ Hx). constructor; try done.
      intros i' x' [[-> ->]|[_ Hx']]%Hc; simpl; eauto.
  - intros i x [[-> ->]|[Hi Hx]]%Hc; keys; case_decide; try done. by eapply rep_pointer.
  - intros i x [[-> ->]|[Hi Hx]]%Hc; keys; (case_decide as E; [try done|]); [done| |].
    + by destruct (Hnew i x Hx).
    + rewrite decide_False; [by eapply rep_item|]. intros E'. by destruct (hash_inj _ _ _ _ _ _ H Hg Hx E').
  - intros i x [[-> ->]|[Hi Hx]]%Hc Hne; keys; simpl in *.
    + rewrite decide_False; [by rewrite decide_True|]. intros [E _]. by apply (wf_prev _ _ _ Hw id g).
    + rewrite decide_False, decide_False; [by apply (rep_prev _ _ H)| |].
      * intros E. by apply (wf_prev _ _ _ (rep_wf _ _ H _ _ Hx) id g).
      * intros [E Hp]. apply Hi. by rewrite (prev_inj _ _ _ _ _ _ H Hg Hx Hp E).
  - intros i Hi. keys. apply lookup_insert_None in Hi as [Hi Hne]. rewrite decide_False by done. by apply (rep_no_pointer _ _ H).
  - intros h. keys. case_decide as E; [intros _; exists id, g'; by rewrite lookup_insert_eq|].
    case_decide as E'; [by intros []|]. intros (i & x & Hx & <-)%(rep_only_items _ _ H). exists i, x.
    rewrite lookup_insert_ne; [done|]. intros <-. congruence.
  - intros h. keys. case_decide as E; [by intros []|]. case_decide as E'.
    + intros _. subst h. split; [by apply (wf_hash _ _ _ Hw)|]. exists id, g'. by rewrite lookup_insert_eq.
    + intros (Hh & i & x & Hx & <-)%(rep_only_prevs _ _ H). split; [done|]. exists i, x.
      rewrite lookup_insert_ne; [done|]. intros <-. apply E. by simplify_eq.
  - intros k i Hk%drop_prev_some Ho. altered; eauto using rep_owned.
    + by destruct (prev_not_owned _ _ Ho).
    + by destruct (pointer_not_owned _ _ Ho).
Qed.

(** ** One call of either store *)

Section Simulation.
Context {I : IdGen} (pages : nat).

Inductive GrantResult := RGrant (g : OAuthGrant) | RGrants (l : list OAuthGrant) | RUnit | RBool (b : bool).

Definition sql_op (o : GrantOp) : M StoreErr GrantResult :=
  match o with
  | GCreate g => bind (StoreCreds.OAuthGrants_Create g) (fun g => ret (RGrant g))
  | GByHash h => bind (StoreCreds.OAuthGrants_ByHash h) (fun g => ret (RGrant g))
  | GListByUser u => bind (StoreCreds.OAuthGrants_ListByUser u) (fun l => ret (RGrants l))
  | GTouch i n => bind (StoreCreds.OAuthGrants_Touch i n) (fun _ => ret RUnit)
  | GDelete i => bind (StoreCreds.OAuthGrants_Delete i) (fun _ => ret RUnit)
  | GRotate i old new n => bind (StoreCreds.OAuthGrants_Rotate i old new n) (fun g => ret (RGrant g))
  | GRevokeIfPreviousSecret h => bind (StoreCreds.OAuthGrants_RevokeIfPreviousSecret h) (fun b => ret (RBool b))
  end.

Definition dynamo_op (o : GrantOp) : D GrantResult :=
  match o with
  | GCreate g => dbind (OAuthGrants_Create g) (fun g => dret (RGrant g))
  | GByHash h => dbind (OAuthGrants_ByHash h) (fun g => dret (RGrant g))
  | GListByUser u => dbind (OAuthGrants_ListByUser pages u) (fun l => dret (RGrants l))
  | GTouch i n => dbind (OAuthGrants_Touch i n) (fun _ => dret RUnit)
  | GDelete i => dbind (OAuthGrants_Delete i) (fun _ => dret RUnit)
  | GRotate i old new n => dbind (OAuthGrants_Rotate i old new n) (fun g => dret (RGrant g))
  | GRevokeIfPreviousSecret h => dbind (OAuthGrants_RevokeIfPreviousSecret h) (fun b => dret (RBool b))
  end.

Definition grants (w : World) : gmap string OAuthGrant := t_oauth_grants (t_creds (tbl w)).

(** A secret no grant has or had. *)
Definition unheard (w : World) (h : string) : Prop :=
  h <> "" /\ forall id g, grants w !! id = Some g -> og_SecretHash g <> h /\ og_PrevSecretHash g <> h.

(** The calls the authorization server makes: a new grant is for a user and a client
    that exist, and the secrets introduced are new ones. *)
Definition legal (w : World) (o : GrantOp) : Prop :=
  match o with
  | GCreate g => og_ID g = "" /\ og_PrevSecretHash g = "" /\ og_LastUsedAt g = None /\ unheard w (og_SecretHash g)
      /\ user_exists (tbl w) (og_UserID g) = true /\ client_exists (t_creds (tbl w)) (og_ClientID g) = true
  | GRotate _ old new n => unheard w new /\ new <> old /\ toUnix n <> 0
  | GTouch _ n => toUnix n <> 0
  | GRevokeIfPreviousSecret h => h <> ""
  | _ => True
  end.

Record agree (w : World) (db : DB) : Prop := {
  agree_faults : faults w = [];
  agree_clock : now w = clock db;
  agree_ids : ids w = issued db;
  agree_grants : represents (grants w) (cur db)
}.

(** The same answer, a list up to its order: the relational store sorts by the time
    of creation, a scan does not. *)
Definition same_answer (x y : result StoreErr GrantResult) : Prop :=
  match x, y with
  | Ok (RGrants l), Ok (RGrants l') => l ≡ₚ l'
  | _, _ => x = y
  end.
Lemma same_refl x : same_answer x x.
Proof. destruct x as [[]|]; simpl; reflexivity. Qed.
#[local] Hint Resolve same_refl : core.

(** The same answer, and the same grants afterwards. *)
Definition simulates (x : result StoreErr GrantResult * World) (y : result StoreErr GrantResult * DB) : Prop :=
  same_answer x.1 y.1 /\ agree x.2 y.2.

Lemma statement_plain {B} (f : Tables -> result StoreErr (B * Tables)) w : faults w = [] ->
  statement f w = match f (tbl w) with Ok (a, t) => (Ok a, with_tbl w t) | Err e => (Err e, w) end.
Proof. intros Hf. unfold statement. rewrite Hf. destruct w as [t b i n k fs]. simpl in *. by subst. Qed.

Lemma do_write_plain f w : faults w = [] ->
  write f w = match f (tbl w) with Ok t => (Ok tt, with_tbl w t) | Err e => (Err e, w) end.
Proof. intros Hf. unfold write. rewrite statement_plain by done. by destruct (f (tbl w)). Qed.

Lemma agree_write w db m t : agree w db -> represents m t ->
  agree (with_tbl w (set_creds (tbl w) (set_oauth_grants (t_creds (tbl w)) m))) (commit db t).
Proof. intros [Hf Hc Hi _] Hm. by constructor. Qed.

Lemma sim_ByHash w db h : agree w db -> simulates (sql_op (GByHash h) w) (run (dynamo_op (GByHash h)) db).
Proof.
  intros Ha. pose proof (by_hash _ _ h (agree_grants _ _ Ha)) as Hh. cbn [sql_op dynamo_op].
  unfold bind, StoreCreds.OAuthGrants_ByHash, cquery. rewrite query_plain by apply Ha.
  rewrite run_dbind. unfold OAuthGrants_ByHash. rewrite run_dbind, run_getItem. fold (grants w).
  destruct (row _) as [g|e]; [destruct Hh as (Hg & Eh & ->)|destruct Hh as [-> ->]]; [|by split].
  unfold decode. simpl. rewrite (decode_item_of (grants w) (og_ID g)); [by split|]. by apply (rep_wf _ _ (agree_grants _ _ Ha)).
Qed.

(** The pointer names the grant's secret. *)
Lemma run_pointer m t id db : represents m t -> cur db = t -> run (OAuthGrants_pointer id) db =
  (match m !! id with Some g => Ok (og_SecretHash g) | None => Err ErrNotFound end, db).
Proof.
  intros H <-. unfold OAuthGrants_pointer. rewrite run_dbind, run_getItem. destruct (m !! id) as [g|] eqn:E.
  - by rewrite (rep_pointer _ _ H _ _ E).
  - by rewrite (rep_no_pointer _ _ H _ E).
Qed.

Lemma touch_item g n : apply_updates (touch_updates n) (item_of g) =
  Some (item_of (mkOAuthGrant (og_ID g) (og_UserID g) (og_ClientID g) (og_SecretHash g) (og_PrevSecretHash g)
                   (og_CreatedAt g) (stored n) (Some (stored n)))).
Proof.
  unfold item_of. simpl. rewrite toUnix_stored. reflexivity.
Qed.

Lemma sim_Touch w db id n : agree w db -> legal w (GTouch id n) ->
  simulates (sql_op (GTouch id n) w) (run (dynamo_op (GTouch id n)) db).
Proof.
  intros Ha Hz. simpl in Hz. pose proof (agree_grants _ _ Ha) as Hr. cbn [sql_op dynamo_op].
  unfold bind, StoreCreds.OAuthGrants_Touch, cwrite. rewrite do_write_plain by apply Ha. fold (grants w).
  rewrite run_dbind. unfold OAuthGrants_Touch. rewrite run_dbind, (run_pointer _ _ _ _ Hr) by done.
  destruct (grants w !! id) as [g|] eqn:Eg; [|by split].
  unfold updateItemIfExists. rewrite (run_update_if _ _ _ _ _ _ ltac:(rewrite (rep_item _ _ Hr _ _ Eg); apply touch_item)).
  rewrite (rep_item _ _ Hr _ _ Eg). simpl. split; [done|]. apply agree_write; [done|].
  apply (represents_update _ _ id g); try done. pose proof (rep_wf _ _ Hr _ _ Eg) as [].
  constructor; try done; simpl; [apply whole_fromUnix|]. split; [apply whole_fromUnix|]. by rewrite toUnix_stored.
Qed.

Lemma distinct_of xs ks : map write_key xs = map Some ks -> NoDup ks -> distinct_keys xs = true.
Proof.
  intros E Hk. unfold distinct_keys. apply andb_true_iff. split.
  - apply forallb_forall. intros x Hx. apply bool_decide_eq_true. apply (in_map write_key) in Hx. rewrite E in Hx.
    apply in_map_iff in Hx as (k & <- & _). eauto.
  - apply bool_decide_eq_true. rewrite E. by apply NoDup_fmap_2; [apply _|].
Qed.

(** Removing a grant: its item, its pointer and the pointer to the secret before. *)
Lemma run_Delete m db id : represents m (cur db) ->
  run (OAuthGrants_Delete id) db =
  (Ok tt, match m !! id with
          | Some g => commit db (drop_prev (og_PrevSecretHash g) (alter (ik id) None (alter (gk (og_SecretHash g)) None (cur db))))
          | None => db
          end).
Proof.
  intros Hr. unfold OAuthGrants_Delete. rewrite run_dtry, (run_pointer _ _ _ _ Hr) by done.
  destruct (m !! id) as [g|] eqn:Eg; [|done]. rewrite run_dtry, run_getItem, (rep_item _ _ Hr _ _ Eg).
  assert (prev_delete (Ok (item_of g)) =
    if og_PrevSecretHash g == "" then [] else [Delete (pk (og_PrevSecretHash g))]) as -> by done.
  apply run_batchWrite.
  - apply (distinct_of _ ([gk (og_SecretHash g); ik id] ++
             (if og_PrevSecretHash g == "" then [] else [pk (og_PrevSecretHash g)]))); [by destruct (_ == "")|].
    destruct (_ == ""); simpl; repeat (apply NoDup_cons; split; [rewrite ?not_elem_of_cons; split_and?; try done; apply not_elem_of_nil|]);
      apply NoDup_nil_2.
  - destruct (_ == ""); simpl; lia.
  - unfold drop_prev. by destruct (_ == "").
Qed.

Lemma sim_Delete w db id : agree w db -> simulates (sql_op (GDelete id) w) (run (dynamo_op (GDelete id)) db).
Proof.
  intros Ha. pose proof (agree_grants _ _ Ha) as Hr. cbn [sql_op dynamo_op].
  unfold bind, StoreCreds.OAuthGrants_Delete, cwrite. rewrite do_write_plain by apply Ha. fold (grants w).
  rewrite run_dbind, (run_Delete _ _ _ Hr). split; [done|]. simpl.
  destruct (grants w !! id) as [g|] eqn:Eg; [by apply agree_write, represents_delete|].
  rewrite delete_id by done. destruct Ha. by constructor.
Qed.

Lemma rows_nil {B} (p : B -> bool) (m : gmap string B) : (forall j x, m !! j = Some x -> p x = false) -> rows p m = [].
Proof.
  intros H. unfold rows. destruct (List.filter _ _) as [|x l] eqn:E; [done|]. exfalso.
  assert (In x (List.filter p (map snd (map_to_list m)))) as Hin by (rewrite E; by left).
  apply filter_In in Hin as [Hin Hp]. apply in_map_iff in Hin as ([j y] & <- & Hj).
  apply list_elem_of_In, elem_of_map_to_list, H in Hj. simpl in Hp. congruence.
Qed.

(** The grants whose secret before was [h]: at most one. *)
Lemma reused m t h : represents m t -> h <> "" ->
  match t !! pk h with
  | Some i => exists id g, i = oauthGrantPrevPointer_item h id /\ m !! id = Some g /\ og_PrevSecretHash g = h
      /\ delete_rows (reuses h) m = delete id m /\ 0 < count_rows (reuses h) m
  | None => delete_rows (reuses h) m = m /\ count_rows (reuses h) m = 0
  end.
Proof.
  intros H Hh. assert (forall id g, m !! id = Some g -> reuses h g = true <-> og_PrevSecretHash g = h) as Hre.
  { intros id g _. unfold reuses. rewrite andb_true_iff, negb_true_iff, String.eqb_eq, String.eqb_neq. naive_solver. }
  destruct (t !! pk h) as [i|] eqn:Ei.
  - destruct (rep_only_prevs _ _ H h ltac:(by eauto)) as (_ & id & g & Hg & Ep). exists id, g.
    pose proof (rep_prev _ _ H _ _ Hg ltac:(by rewrite Ep)) as Hp. rewrite Ep, Ei in Hp. apply (inj Some) in Hp.
    split_and!; [done|done|done| |].
    + apply map_eq. intros j. unfold delete_rows. destruct (decide (j = id)) as [->|Hj].
      * rewrite lookup_delete_eq, map_lookup_filter, Hg. simpl. rewrite option_guard_False; [done|]. apply Hre in Hg. simpl. intuition congruence.
      * rewrite lookup_delete_ne by done. destruct (m !! j) as [x|] eqn:Ex; rewrite map_lookup_filter, Ex; [|done]. simpl.
        rewrite option_guard_True; [done|]. simpl. destruct (reuses h x) eqn:Er; [|done]. exfalso. apply Hj. apply (Hre _ _ Ex) in Er.
        symmetry. eapply (prev_inj _ _ _ _ _ _ H Hg Ex); congruence.
    + rewrite (count_rows_delete _ _ _ _ Hg). replace (reuses h g) with true by (symmetry; by apply (Hre _ _ Hg)).
      unfold count_rows. lia.
  - assert (forall j x, m !! j = Some x -> reuses h x = false) as Hno.
    { intros j x Hx. destruct (reuses h x) eqn:Er; [|done]. apply (Hre _ _ Hx) in Er.
      pose proof (rep_prev _ _ H _ _ Hx ltac:(by rewrite Er)). congruence. }
    split; [by apply map_filter_id|]. unfold count_rows. by rewrite (rows_nil _ _ Hno).
Qed.

Lemma sim_Revoke w db h : agree w db -> legal w (GRevokeIfPreviousSecret h) ->
  simulates (sql_op (GRevokeIfPreviousSecret h) w) (run (dynamo_op (GRevokeIfPreviousSecret h)) db).
Proof.
  intros Ha Hh. pose proof (agree_grants _ _ Ha) as Hr. pose proof (reused _ _ _ Hr Hh) as Hu. cbn [sql_op dynamo_op].
  unfold bind, StoreCreds.OAuthGrants_RevokeIfPreviousSecret, bind, delete_counted. rewrite statement_plain by apply Ha.
  fold (grants w). rewrite run_dbind. unfold OAuthGrants_RevokeIfPreviousSecret. rewrite run_dtry, run_getItem.
  destruct (cur db !! pk h) as [i|] eqn:Ei.
  - destruct Hu as (id & g & -> & Hg & Ep & -> & Hn). rewrite run_dbind. unfold decode. rewrite decode_prev. cbn [run].
    rewrite run_dbind, (run_Delete _ _ _ Hr), Hg, run_dbind. unfold deleteItem. rewrite run_delete_if. cbn [holds].
    split; [simpl; do 2 f_equal; bool_lia|]. simpl.
    rewrite (delete_id (drop_prev _ _)) by (keys; by rewrite Ep, decide_True).
    pose proof (agree_write _ _ _ _ Ha (represents_delete _ _ _ _ Hr Hg)) as [H1 H2 H3 H4]. by constructor.
  - destruct Hu as [-> ->]. split; [done|]. destruct Ha. by constructor.
Qed.

Lemma condition_fails_at t c x k : write_key x = Some k -> condition_fails t (c, x) = negb (holds c (t !! k)).
Proof. intros H. unfold condition_fails. simpl. by rewrite H. Qed.

Lemma unheard_free w db h : agree w db -> unheard w h ->
  hash_taken h (t_creds (tbl w)) = false /\ cur db !! gk h = None.
Proof.
  intros Ha [Hn Hh]. split.
  - unfold hash_taken. destruct (existsb _ _) eqn:E; [|done]. apply existsb_exists in E as (g & Hg & Eg). bool_facts.
    apply in_map_iff in Hg as ([id x] & <- & Hx). apply list_elem_of_In, elem_of_map_to_list, Hh in Hx. by destruct Hx.
  - destruct (cur db !! gk h) as [i|] eqn:E; [|done].
    destruct (rep_only_items _ _ (agree_grants _ _ Ha) h ltac:(by eauto)) as (id & g & Hg & Eg). by destruct (Hh _ _ Hg).
Qed.

Definition new_grant (id : string) (g : OAuthGrant) (t : Time) : OAuthGrant :=
  mkOAuthGrant id (og_UserID g) (og_ClientID g) (og_SecretHash g) "" t t None.

Definition next_id (w : World) : World :=
  mkWorld (tbl w) (blobs w) (invalidated w) (now w) (S (ids w)) (faults w).

Lemma sql_Create w g : og_ID g = "" -> faults w = [] ->
  user_exists (tbl w) (og_UserID g) = true -> client_exists (t_creds (tbl w)) (og_ClientID g) = true ->
  hash_taken (og_SecretHash g) (t_creds (tbl w)) = false ->
  StoreCreds.OAuthGrants_Create g w =
  let id := ulid (ids w) in
  let g' := new_grant id g (stored (now w)) in
  match grants w !! id with
  | Some _ => (Err ErrConflict, next_id w)
  | None => (Ok g', with_tbl (next_id w) (set_creds (tbl w) (set_oauth_grants (t_creds (tbl w)) (<[id := g']> (grants w)))))
  end.
Proof.
  intros Hid Hf Hu Hc Hh. unfold StoreCreds.OAuthGrants_Create, bind, new_id. rewrite Hid. cbn [String.eqb].
  unfold stored_now, get. fold (next_id w). rewrite do_write_plain by done. cbn [tbl next_id now og_UserID og_ClientID og_SecretHash].
  rewrite Hu, Hc, Hh. unfold insert_row. fold (grants w). case_bool_decide as E.
  - by destruct E as [x ->].
  - apply eq_None_not_Some in E. by rewrite E.
Qed.

Lemma sim_Create w db g : agree w db -> legal w (GCreate g) ->
  simulates (sql_op (GCreate g) w) (run (dynamo_op (GCreate g)) db).
Proof.
  intros Ha (Hid & Hp & Hl & Hh & Hu & Hc). pose proof (agree_grants _ _ Ha) as Hr.
  destruct (unheard_free _ _ _ Ha Hh) as [Ht Hg]. destruct Hh as [Hne Hh]. cbn [sql_op dynamo_op].
  unfold bind. rewrite sql_Create by (done || apply Ha).
  rewrite run_dbind. unfold OAuthGrants_Create. rewrite run_dbind, run_fresh_id, Hid. cbn [String.eqb].
  rewrite run_dbind, run_nowUnix, run_dbind. cbn [clock issued].
  rewrite <- (agree_ids _ _ Ha), <- (agree_clock _ _ Ha). set (id := ulid (ids w)).
  set (g' := new_grant id g (stored (now w))).
  replace (oauthGrant_item id _ _ _ _ _ _ _) with (item_of g') by (unfold item_of; simpl; by rewrite toUnix_stored).
  rewrite (run_transactOr _ _ _ (alter (ik id) (Some (oauthGrantIDPointer_item id (og_SecretHash g)))
    (alter (gk (og_SecretHash g)) (Some (item_of g')) (cur db)))); [| |done].
  2:{ apply (distinct_of _ [gk (og_SecretHash g); ik id]); [done|].
      repeat (apply NoDup_cons; split; [rewrite ?not_elem_of_cons; split_and?; try done; apply not_elem_of_nil|]). apply NoDup_nil_2. }
  cbn [existsb cur]. rewrite (condition_fails_at _ _ _ (gk (og_SecretHash g))), (condition_fails_at _ _ _ (ik id)), Hg by done.
  destruct (grants w !! id) as [x|] eqn:Ex.
  - rewrite (rep_pointer _ _ Hr _ _ Ex). split; [done|]. destruct Ha. by constructor.
  - rewrite (rep_no_pointer _ _ Hr _ Ex). cbn. rewrite Hp, Hl. split; [done|]. destruct Ha as [H1 H2 H3 _]. constructor; try done.
    apply (represents_insert _ _ _ g'); try done.
    + constructor; try done; try apply whole_fromUnix. intros i y Hy. apply lookup_insert_Some in Hy as [[_ <-]|[_ Hy]]; [done|].
      simpl. intros E. by apply (wf_hash _ _ _ (rep_wf _ _ Hr _ _ Hy)).
    + intros i y Hy. by apply (Hh i y).
Qed.

Lemma do_rotation t id uid cid old new prev c n : t !! ik id = Some (oauthGrantIDPointer_item id old) ->
  do_writes (map snd (rotation id uid cid old new prev c n)) t =
  Some (drop_prev prev
    (alter (pk old) (Some (oauthGrantPrevPointer_item old id))
      (alter (ik id) (Some (oauthGrantIDPointer_item id new))
        (alter (gk new) (Some (oauthGrant_item id uid cid new old c n n)) (alter (gk old) None t))))).
Proof.
  intros Ht. set (i' := oauthGrant_item id uid cid new old c n n). set (t1 := alter (gk new) (Some i') (alter (gk old) None t)).
  assert (do_write (Update (ik id) [SetTo "SecretHash" (text new)]) t1
    = Some (alter (ik id) (Some (oauthGrantIDPointer_item id new)) t1)) as Hu.
  { unfold do_write. cbn [write_key write_item]. assert (t1 !! ik id = t !! ik id) as -> by (unfold t1; by keys).
    rewrite Ht. reflexivity. }
  change (do_writes (map snd (rotation id uid cid old new prev c n)) t) with
    (match do_write (Update (ik id) [SetTo "SecretHash" (text new)]) t1 with
     | Some t => do_writes (Put (oauthGrantPrevPointer_item old id) :: map snd (if prev == "" then [] else [(Always, Delete (pk prev))])) t
     | None => None
     end). rewrite Hu.
  unfold drop_prev. by destruct (prev == "").
Qed.

Lemma distinct_rotation id uid cid old new prev c n : old <> new -> (prev <> "" -> prev <> old) ->
  distinct_keys (map snd (rotation id uid cid old new prev c n)) = true.
Proof.
  intros Hn Hp. apply (distinct_of _ ([gk old; gk new; ik id; pk old] ++ (if prev == "" then [] else [pk prev])));
    [unfold rotation; by destruct (prev == "")|].
  destruct (prev == "") eqn:E; bool_facts; simpl;
    repeat (apply NoDup_cons; split;
      [rewrite ?not_elem_of_cons; split_and?; try done; try (by intros ?%gk_inj); try (by intros ?%pk_inj; auto); apply not_elem_of_nil|]);
    try apply NoDup_nil_2.
  apply NoDup_cons. split; [|apply NoDup_singleton]. rewrite not_elem_of_cons.
  split; [intros Ek%pk_inj; by apply Hp|apply not_elem_of_nil].
Qed.

Lemma run_rotation m db id g old new n : represents m (cur db) -> m !! id = Some g -> og_SecretHash g = old -> new <> old ->
  cur db !! gk new = None ->
  run (transactOr ErrConflict (rotation id (og_UserID g) (og_ClientID g) old new (og_PrevSecretHash g)
         (toUnix (og_CreatedAt g)) (toUnix n))) db =
  (Ok tt, commit db (drop_prev (og_PrevSecretHash g)
    (alter (pk old) (Some (oauthGrantPrevPointer_item old id))
      (alter (ik id) (Some (oauthGrantIDPointer_item id new))
        (alter (gk new) (Some (item_of (rotated g old new n))) (alter (gk old) None (cur db))))))).
Proof.
  intros Hr Eg Eh Hno Hg. pose proof (rep_wf _ _ Hr _ _ Eg) as Hw.
  pose proof (rep_pointer _ _ Hr _ _ Eg) as Hi. rewrite Eh in Hi. pose proof (rep_item _ _ Hr _ _ Eg) as Ho. rewrite Eh in Ho.
  assert (oauthGrant_item id (og_UserID g) (og_ClientID g) new old (toUnix (og_CreatedAt g)) (toUnix n) (toUnix n)
    = item_of (rotated g old new n)) as <-.
  { unfold item_of, rotated. simpl. by rewrite (wf_id _ _ _ Hw), toUnix_stored. }
  assert (og_PrevSecretHash g <> "" -> og_PrevSecretHash g <> old) as Hp
    by (intros _ E; apply (wf_prev _ _ _ Hw _ _ Eg); by rewrite Eh).
  generalize (toUnix (og_CreatedAt g)), (toUnix n). intros c sec.
  rewrite (run_transactOr ErrConflict (rotation id (og_UserID g) (og_ClientID g) old new (og_PrevSecretHash g) c sec) db _
    (distinct_rotation id _ _ old new _ c sec (not_eq_sym Hno) Hp) (do_rotation _ id _ _ old new _ c sec Hi)).
  unfold rotation. rewrite existsb_app. cbn [existsb].
  rewrite (condition_fails_at _ _ _ (gk old)), (condition_fails_at _ _ _ (gk new)), (condition_fails_at _ _ _ (ik id)),
    (condition_fails_at _ _ _ (pk old)), Hg, Ho, Hi by done.
  replace (holds (Equals "SecretHash" (text old)) (Some (oauthGrantIDPointer_item id old))) with true
    by (symmetry; apply bool_decide_eq_true; done).
  by destruct (og_PrevSecretHash g == "").
Qed.

Lemma sim_Rotate w db id old new n : agree w db -> legal w (GRotate id old new n) ->
  simulates (sql_op (GRotate id old new n) w) (run (dynamo_op (GRotate id old new n)) db).
Proof.
  intros Ha (Hu & Hno & Hz). pose proof (agree_grants _ _ Ha) as Hr. destruct (unheard_free _ _ _ Ha Hu) as [Ht Hg].
  destruct Hu as [Hne Hh]. cbn [sql_op dynamo_op]. unfold bind, StoreCreds.OAuthGrants_Rotate. rewrite statement_plain by apply Ha.
  fold (grants w). rewrite run_dbind. unfold OAuthGrants_Rotate. rewrite run_dtry, run_getItem. rewrite Ht, andb_false_r.
  destruct (cur db !! gk old) as [i|] eqn:Eo.
  - destruct (rep_only_items _ _ Hr old ltac:(by eauto)) as (id0 & g & Eg & Eh). pose proof (rep_wf _ _ Hr _ _ Eg) as Hw.
    pose proof (rep_item _ _ Hr _ _ Eg) as Ei. rewrite Eh, Eo in Ei. apply (inj Some) in Ei as ->.
    rewrite run_dbind. unfold decode, item_of. rewrite decode_item. cbn [run]. rewrite (wf_id _ _ _ Hw).
    destruct (id0 == id) eqn:Eid; bool_facts; cbn [negb].
    + subst id0. rewrite run_dbind, (run_rotation _ _ _ _ _ _ _ Hr Eg Eh Hno Hg), Eg, Eh, String.eqb_refl.
      split; [|apply agree_write; [done|]; subst old; by apply represents_rotate; try naive_solver].
      cbn. do 2 f_equal. unfold rotated, last_used_from. rewrite (wf_id _ _ _ Hw).
      destruct (toUnix n =? 0) eqn:En; bool_facts; [done|]. pose proof (wf_created _ _ _ Hw) as Hc. unfold whole, stored in Hc.
      unfold stored. by rewrite Hc.
    + destruct (grants w !! id) as [x|] eqn:Ex; [|by split]. destruct (og_SecretHash x == old) eqn:E; [|by split].
      bool_facts. destruct (hash_inj _ _ _ _ _ _ Hr Eg Ex); congruence.
  - destruct (grants w !! id) as [x|] eqn:Ex; [|by split]. destruct (og_SecretHash x == old) eqn:E; [|by split].
    bool_facts. pose proof (rep_item _ _ Hr _ _ Ex). congruence.
Qed.

(** The items a scan for a user's grants selects are the grants of the user. *)
Definition of_user (u : string) (g : OAuthGrant) : bool := og_UserID g == u.
Definition selected (u : string) (ki : Key * Item) : bool := holds (by_user entityOAuthGrant u) (Some ki.2).
Definition grant_of (ki : Key * Item) : OAuthGrant :=
  match oauthGrantFromItem ki.2 with Ok g => g | Err _ => mkOAuthGrant "" "" "" "" "" 0 0 None end.

Lemma selected_is m t k i u : represents m t -> t !! k = Some i -> selected u (k, i) = true ->
  exists id g, m !! id = Some g /\ k = gk (og_SecretHash g) /\ i = item_of g /\ of_user u g = true.
Proof.
  intros H Hk Hs. unfold selected in Hs. simpl in Hs. apply andb_true_iff in Hs as [He Hu].
  apply bool_decide_eq_true in He, Hu.
  destruct (rep_owned _ _ H k i Hk ltac:(split; eauto)) as [h ->].
  destruct (rep_only_items _ _ H h ltac:(by eauto)) as (id & g & Hg & Eh). exists id, g.
  pose proof (rep_item _ _ H _ _ Hg) as Hi. rewrite Eh, Hk in Hi. injection Hi as ->. subst h. split_and!; [done..|].
  unfold of_user. assert (item_of g !! "UserID" = Some (AV_S (og_UserID g))) as E by reflexivity. rewrite E in Hu.
  injection Hu as ->. apply String.eqb_refl.
Qed.

Lemma grant_of_item m t id g : represents m t -> m !! id = Some g -> grant_of (gk (og_SecretHash g), item_of g) = g.
Proof. intros H Hg. unfold grant_of. simpl. by rewrite (decode_item_of m id) by (by apply (rep_wf _ _ H)). Qed.

Definition scanned (u : string) (t : Table) : list (Key * Item) := List.filter (selected u) (in_order t).

Lemma elem_of_scanned u t k i : (k, i) ∈ scanned u t <-> t !! k = Some i /\ selected u (k, i) = true.
Proof.
  unfold scanned, in_order. rewrite list_elem_of_In, filter_In, <- list_elem_of_In, merge_sort_Permutation, elem_of_map_to_list.
  done.
Qed.

Lemma scanned_grants m t u : represents m t -> map grant_of (scanned u t) ≡ₚ rows (of_user u) m.
Proof.
  intros H. apply NoDup_Permutation.
  - apply NoDup_fmap_2_strong.
    + intros [k i] [k' i'] [Hk Hs]%elem_of_scanned [Hk' Hs']%elem_of_scanned E.
      destruct (selected_is _ _ _ _ _ H Hk Hs) as (id & g & Hg & -> & -> & _).
      destruct (selected_is _ _ _ _ _ H Hk' Hs') as (id' & g' & Hg' & -> & -> & _).
      by rewrite (grant_of_item _ _ _ _ H Hg), (grant_of_item _ _ _ _ H Hg') in E; subst.
    + unfold scanned. apply NoDup_ListNoDup, List.NoDup_filter, NoDup_ListNoDup. unfold in_order.
      rewrite merge_sort_Permutation. apply NoDup_map_to_list.
  - unfold rows. apply NoDup_ListNoDup, List.NoDup_filter, NoDup_ListNoDup. apply NoDup_fmap_2_strong; [|apply NoDup_map_to_list].
    intros [id g] [id' g'] Hg%elem_of_map_to_list Hg'%elem_of_map_to_list E. simpl in E. subst g'.
    by rewrite <- (wf_id _ _ _ (rep_wf _ _ H _ _ Hg)), <- (wf_id _ _ _ (rep_wf _ _ H _ _ Hg')).
  - intros g. unfold rows. rewrite !list_elem_of_In, filter_In, !in_map_iff. split.
    + intros ([k i] & <- & Hin). apply list_elem_of_In, elem_of_scanned in Hin as [Hk Hs].
      destruct (selected_is _ _ _ _ _ H Hk Hs) as (id & g & Hg & -> & -> & Hu). rewrite (grant_of_item _ _ _ _ H Hg).
      split; [|done]. exists (id, g). split; [done|]. by apply list_elem_of_In, elem_of_map_to_list.
    + intros [([id x] & <- & Hin) Hu]. simpl in *. apply list_elem_of_In, elem_of_map_to_list in Hin as Hg.
      exists (gk (og_SecretHash x), item_of x). split; [by apply (grant_of_item m t id)|].
      apply list_elem_of_In, elem_of_scanned. split; [by eapply rep_item|]. unfold selected, of_user in *. bool_facts. subst u.
      apply andb_true_iff. by split; apply bool_decide_eq_true.
Qed.

Lemma run_collect m t u l acc db : represents m t -> (forall ki, ki ∈ l -> ki ∈ scanned u t) ->
  run (visit_all (collect oauthGrantFromItem) (map snd l) acc) db = (Ok (true, acc ++ map grant_of l), db).
Proof.
  intros H. revert acc. induction l as [|[k i] l IH]; intros acc Hl; simpl; [by rewrite app_nil_r|].
  destruct (proj1 (elem_of_scanned u t k i) (Hl _ ltac:(by left))) as [Hk Hs].
  destruct (selected_is _ _ _ _ _ H Hk Hs) as (id & g & Hg & -> & -> & _).
  rewrite run_dbind. unfold collect at 1. rewrite run_dbind. unfold decode. cbn [run].
  rewrite (decode_item_of m id) by (by apply (rep_wf _ _ H)). cbn [run dret].
  rewrite IH by (intros ki Hki; apply Hl; by right). by rewrite (grant_of_item _ _ _ _ H Hg), <- app_assoc.
Qed.

Lemma map_filter_map {B C} (f : B -> C) (p : C -> bool) l : List.filter p (map f l) = map f (List.filter (fun x => p (f x)) l).
Proof. induction l as [|x l IH]; [done|]. simpl. rewrite IH. by destruct (p (f x)). Qed.

Lemma filter_all {B} (p : B -> bool) l : (forall x, p x = true) -> List.filter p l = l.
Proof. intros H. induction l as [|x l IH]; [done|]. simpl. by rewrite H, IH. Qed.

Lemma sim_ListByUser w db u : (0 < pages)%nat -> agree w db ->
  simulates (sql_op (GListByUser u) w) (run (dynamo_op (GListByUser u)) db).
Proof.
  intros Hp Ha. pose proof (agree_grants _ _ Ha) as Hr. cbn [sql_op dynamo_op].
  unfold bind, StoreCreds.OAuthGrants_ListByUser, cquery. rewrite query_plain by apply Ha. fold (grants w).
  rewrite run_dbind. unfold OAuthGrants_ListByUser. destruct pages as [|n]; [lia|]. cbn [scanPages run exec].
  unfold reading, scan_page, seen, paged, calm. cbn [w_fault w_view w_page default].
  rewrite (filter_all (after None)) by done. rewrite Nat.ltb_irrefl, run_dbind.
  rewrite map_filter_map. change (List.filter _ (in_order (cur db))) with (scanned u (cur db)).
  rewrite (run_collect _ _ u _ _ _ Hr) by done. cbn. split; [|done]. cbn. rewrite (scanned_grants _ _ _ Hr).
  unfold order_by. by rewrite merge_sort_Permutation.
Qed.

Lemma sim_op w db o : (0 < pages)%nat -> agree w db -> legal w o -> simulates (sql_op o w) (run (dynamo_op o) db).
Proof.
  intros Hp Ha Hl. destruct o; [by apply sim_Create|by apply sim_ByHash|by apply sim_ListByUser|by apply sim_Touch|by apply sim_Delete|
    by apply sim_Rotate|by apply sim_Revoke].
Qed.

(** ** Any sequence of calls *)

Fixpoint sql_all (os : list GrantOp) (w : World) : list (result StoreErr GrantResult) * World :=
  match os with
  | [] => ([], w)
  | o :: os => let '(r, w) := sql_op o w in let '(rs, w) := sql_all os w in (r :: rs, w)
  end.

Fixpoint dynamo_all (os : list GrantOp) (db : DB) : list (result StoreErr GrantResult) * DB :=
  match os with
  | [] => ([], db)
  | o :: os => let '(r, db) := run (dynamo_op o) db in let '(rs, db) := dynamo_all os db in (r :: rs, db)
  end.

Fixpoint all_legal (os : list GrantOp) (w : World) : Prop :=
  match os with
  | [] => True
  | o :: os => legal w o /\ all_legal os (sql_op o w).2
  end.

End Simulation.

(** *** A grant that is rotated and replayed *)

Definition replay_ops : list GrantOp :=
  [GCreate (mkOAuthGrant "" "U1" "C1" "h0" "" 0 0 None); GRotate "0" "h0" "h1" (7 * second); GByHash "h1";
   GListByUser "U1"; GRevokeIfPreviousSecret "h0"; GByHash "h1"; GListByUser "U1"].
Definition client_world : World :=
  with_tbl sample_world (set_creds sample_tables
    (set_oauth_clients empty_creds {["C1" := mkOAuthClient "C1" "app" ["https://app.example/cb"] 1 1]})).

Lemma represents_empty : represents ∅ ∅.
Proof. constructor; intros *; try done; by intros [? ?]. Qed.

Lemma unheard_all w h : h <> "" ->
  bool_decide (map_Forall (fun _ g => og_SecretHash g <> h /\ og_PrevSecretHash g <> h) (grants w)) = true -> unheard w h.
Proof. intros Hh H. split; [done|]. by apply bool_decide_eq_true in H. Qed.


(** A grant for a client that is gone, as after a deletion between the request's check
    and the creation: the relational store's foreign key refuses it, DynamoDB's does
    not exist. *)
Example client_gone :
  let o := GCreate (mkOAuthGrant "" "U1" "C2" "h0" "" 0 0 None) in
  is_ok (sql_op (I := unary_ids) o client_world).1 = false /\ is_ok (run (I := unary_ids) (dynamo_op 1 o) empty_db).1 = true.
Proof. by vm_compute. Qed.
