(* ===== verification/DynamoFunctions.v ===== *)
(** * DynamoFunctions: functions, their names and the creation quota in DynamoDB

    Models functions.go and handles.go of src/server/internal/store/dynamodb, with the
    activation of a version from aggregate.go: a function is a primary item, a claim of
    its name, a pointer from its owner and name, an entry in its owner's list and a unit
    of a counter, written together; versions are stored twice; variables and versions
    live in the function's partition. *)

From stdpp Require Import sorting.
From S2P Require Import Prelude Types Store Dynamo DynamoKeys DynamoCreds.

#[local] Open Scope d_scope.

(** ** Items *)

Definition entityFunction : string := "function".
Definition entityFunctionPointer : string := "function_ptr".
Definition entityFunctionName : string := "function_name".
Definition entityFunctionListItem : string := "function_list".
Definition entityFunctionCount : string := "function_count".
Definition entityFunctionVersion : string := "function_version".
Definition entityEnvVar : string := "env_var".

Definition functionItemFrom (f : Function) (createdAt updatedAt : Z) : Item :=
  item (pkFunc (f_ID f)) skMeta entityFunction
    [("ID", text (f_ID f)); ("OwnerType", text (OwnerType_text (f_OwnerType f))); ("OwnerID", text (f_OwnerID f));
     ("Name", text (f_Name f)); ("Description", text (f_Description f)); ("ActiveVersionID", P_av (f_ActiveVersionID f));
     ("CreatedBy", P_av (f_CreatedBy f)); ("CreatedAt", AV_N createdAt); ("UpdatedAt", AV_N updatedAt)].

Definition functionFromItem (i : Item) : result StoreErr Function :=
  let! id := S_attr i "ID" in
  let! ot := enum_attr OwnerType_parse i "OwnerType" in
  let! oid := S_attr i "OwnerID" in
  let! name := S_attr i "Name" in
  let! d := S_attr i "Description" in
  let! a := P_attr i "ActiveVersionID" in
  let! cb := P_attr i "CreatedBy" in
  let! c := N_attr i "CreatedAt" in
  let! u := N_attr i "UpdatedAt" in
  Ok (mkFunction id ot oid name d a cb (fromUnix c) (fromUnix u)).

(** [functionPointerItem], for its three uses. *)
Definition functionPointer_item (pk sk entity functionID state : string) (claimedAt : Z) : Item :=
  item pk sk entity
    [("FunctionID", text functionID); ("State", text state); ("ClaimedAt", AV_N claimedAt); ("ReleasedAt", AV_N 0)].
Definition name_item (f : Function) (claimedAt : Z) : Item :=
  functionPointer_item (pkFuncName (f_Name f)) skMeta entityFunctionName (f_ID f) "active" claimedAt.
Definition owner_pk (f : Function) : string :=
  pkFuncPtr (OwnerType_text (f_OwnerType f)) (f_OwnerID f) (f_Name f).
Definition owner_item (f : Function) : Item :=
  functionPointer_item (owner_pk f) skMeta entityFunctionPointer (f_ID f) "" 0.
Definition list_pk (f : Function) : string := pkFuncList (OwnerType_text (f_OwnerType f)) (f_OwnerID f).
Definition list_item (f : Function) : Item :=
  functionPointer_item (list_pk f) (f_ID f) entityFunctionListItem (f_ID f) "" 0.

Definition functionCountScope (f : Function) : string * string :=
  match f_OwnerType f with
  | OwnerTypeWorkspace => (OwnerType_text OwnerTypeWorkspace, f_OwnerID f +:+ "#" +:+ default "" (f_CreatedBy f))
  | OwnerTypeUser => (OwnerType_text OwnerTypeUser, f_OwnerID f)
  end.
Definition count_key (f : Function) : Key := meta (pkFuncCount (functionCountScope f).1 (functionCountScope f).2).

Definition version_item (pk sk : string) (v : FunctionVersion) (now : Z) : Item :=
  item pk sk entityFunctionVersion
    [("ID", text (v_ID v)); ("FunctionID", text (v_FunctionID v)); ("Manifest", AV_B (v_Manifest v));
     ("MainPath", text (v_MainPath v)); ("BundleHash", text (v_BundleHash v)); ("BundleSize", AV_N (v_BundleSize v));
     ("UnpackedSize", AV_N (v_UnpackedSize v)); ("Files", AV_Files (v_Files v)); ("CreatedBy", text (v_CreatedBy v));
     ("Note", text (v_Note v)); ("CreatedAt", AV_N now); ("UpdatedAt", AV_N now)].

Definition versionFromItem (i : Item) : result StoreErr FunctionVersion :=
  let! id := S_attr i "ID" in
  let! fid := S_attr i "FunctionID" in
  let! m := B_attr i "Manifest" in
  let! mp := S_attr i "MainPath" in
  let! h := S_attr i "BundleHash" in
  let! bs := N_attr i "BundleSize" in
  let! us := N_attr i "UnpackedSize" in
  let! fs := Files_attr i "Files" in
  let! cb := S_attr i "CreatedBy" in
  let! n := S_attr i "Note" in
  let! c := N_attr i "CreatedAt" in
  let! u := N_attr i "UpdatedAt" in
  Ok (mkFunctionVersion id fid m mp h bs us fs cb n (fromUnix c) (fromUnix u)).

Definition pointer_target (i : Item) : result StoreErr string := S_attr i "FunctionID".

Section Repository.
Context (pages : nat).

(** ** Functions *)

Definition absent : Cond := Attribute_not_exists "PK".
Definition present : Cond := Attribute_exists "PK".

(** The increment of the counter, held under the limit when there is one. *)
Definition count_updates : list UpdateAction := [AddTo "Count" 1; SetTo "Entity" (AV_S entityFunctionCount)].
Definition count_cond (limit : Z) : Cond :=
  if 0 <? limit then Or (Attribute_not_exists "Count") (LessThan "Count" limit) else Always.

Definition create_writes (f : Function) (now limit : Z) : list (Cond * Write) :=
  [(count_cond limit, Update (count_key f) count_updates);
   (absent, Put (functionItemFrom f now now));
   (absent, Put (name_item f now));
   (absent, Put (owner_item f));
   (absent, Put (list_item f))].

Definition Functions_create (f : Function) (limit : Z) : D Function :=
  do! id <- fresh_id (f_ID f);
  do! now <- nowUnix;
  let f := stamp_function f id (fromUnix now) in
  pbind (transactWrite (create_writes f now limit)) (fun r =>
    match r with
    | Ok _ => dret f
    | Err e =>
        if (0 <? limit) && conditionalCheckFailedAt e 0 then dthrow ErrFunctionLimitReached
        else if transactionConditionFailed e then dthrow ErrConflict
        else dthrow ErrBackend
    end).

Definition Functions_Create (f : Function) : D Function := Functions_create f 0.
Definition Functions_CreateWithinLimit (f : Function) (limit : Z) : D Function := Functions_create f limit.

Definition Functions_ByID (id : string) : D Function :=
  do! i <- getItem (meta (pkFunc id));
  decode functionFromItem i.

Definition Functions_ByName (name : string) : D Function :=
  do! i <- getItem (meta (pkFuncName name));
  do! fid <- decode pointer_target i;
  do! state <- decode (fun i => S_attr i "State") i;
  if negb (state == "active") then dthrow ErrNotFound else Functions_ByID fid.

Definition Functions_ByOwnerAndName (ot : OwnerType) (oid name : string) : D Function :=
  do! i <- getItem (meta (pkFuncPtr (OwnerType_text ot) oid name));
  do! fid <- decode pointer_target i;
  Functions_ByID fid.

Definition list_query (ot : OwnerType) (oid : string) : QueryInput :=
  mkQuery (pkFuncList (OwnerType_text ot) oid) "" None true None.

(** The functions fetched, by their identifiers; the last of two wins. *)
Definition by_id (fs : list Function) : gmap string Function := list_to_map (rev (map (fun f => (f_ID f, f)) fs)).

Definition Functions_ListByOwner (ot : OwnerType) (oid : string) : D (list Function) :=
  do! l <- query (list_query ot oid);
  match l with
  | [] => dret []
  | _ =>
      do! ids <- decode_all pointer_target l;
      do! items <- batchGetItems (map (fun id => meta (pkFunc id)) ids);
      do! fs <- decode_all functionFromItem items;
      dret (omap (fun id => by_id fs !! id) ids)
  end.

Definition Functions_CountByOwner (ot : OwnerType) (oid : string) : D Z :=
  do! l <- query (list_query ot oid);
  dret (Z.of_nat (length l)).

Definition Functions_CountByWorkspaceAndCreator (wsID userID : string) : D Z :=
  do! fs <- Functions_ListByOwner OwnerTypeWorkspace wsID;
  dret (Z.of_nat (length (List.filter (fun f => bool_decide (f_CreatedBy f = Some userID)) fs))).

Definition Functions_ListAll : D (list Function) :=
  scanPages (Equals "Entity" (AV_S entityFunction)) (collect functionFromItem) pages None [].

(** The item is overwritten; a new owner moves the pointer. *)
Definition Functions_Update (f : Function) : D Function :=
  do! existing <- Functions_ByID (f_ID f);
  if negb (f_Name existing == f_Name f) then dthrow ErrConflict
  else
    do! now <- nowUnix;
    let i := functionItemFrom f (toUnix (f_CreatedAt existing)) now in
    let f' := mkFunction (f_ID f) (f_OwnerType f) (f_OwnerID f) (f_Name f) (f_Description f) (f_ActiveVersionID f)
                (f_CreatedBy f) (f_CreatedAt existing) (fromUnix now) in
    if same_owner (f_OwnerType f) (f_OwnerID f) existing then
      run! putItemIfExists i;
      dret f'
    else
      pbind (transactWrite
        [(present, Put i); (Always, Delete (meta (owner_pk existing))); (absent, Put (owner_item f))]) (fun r =>
        match r with
        | Ok _ => dret f'
        | Err e =>
            if conditionalCheckFailedAt e 0 then dthrow ErrNotFound
            else if conditionalCheckFailedAt e 2 then dthrow ErrConflict
            else dthrow ErrBackend
        end).

(** The name is released, the partition and the index entries are deleted in a batch,
    and then the counter is decremented on its own. *)
Definition release_updates (now : Z) : list UpdateAction :=
  [SetTo "State" (AV_S "tombstoned"); SetTo "ReleasedAt" (AV_N now)].
Definition decrement_updates : list UpdateAction :=
  [AddTo "Count" (-1); SetIfAbsent "Entity" (AV_S entityFunctionCount)].
Definition delete_writes (f : Function) (id : string) (l : list Item) : list Write :=
  map (fun i => Delete (itemKeyStrings i)) l ++ [Delete (meta (owner_pk f)); Delete (list_pk f, id)].

Definition ignoring_not_found (p : D unit) (k : D unit) : D unit :=
  try! r <- p;
  match r with
  | Ok _ | Err ErrNotFound => k
  | Err e => dthrow e
  end.

Definition Functions_Delete (id : string) : D unit :=
  try! r <- Functions_ByID id;
  match r with
  | Err ErrNotFound => dret tt
  | Err e => dthrow e
  | Ok f =>
      do! now <- nowUnix;
      ignoring_not_found (updateItemIfExists (meta (pkFuncName (f_Name f))) (release_updates now))
        (do! l <- query (mkQuery (pkFunc id) "" None true None);
         run! batchWrite (delete_writes f id l);
         upsertItem (count_key f) decrement_updates)
  end.

(** ** Versions *)

Definition Functions_CreateVersion (v : FunctionVersion) : D FunctionVersion :=
  do! id <- fresh_id (v_ID v);
  do! now <- nowUnix;
  let v := mkFunctionVersion id (v_FunctionID v) (v_Manifest v) (v_MainPath v) (v_BundleHash v) (v_BundleSize v)
             (v_UnpackedSize v) (v_Files v) (v_CreatedBy v) (v_Note v) (fromUnix now) (fromUnix now) in
  run! transactOr ErrBackend
    [(absent, Put (version_item (pkFunc (v_FunctionID v)) (skVersion id) v now));
     (absent, Put (version_item (pkVersion id) skMeta v now))];
  dret v.

Definition Functions_Version (id : string) : D FunctionVersion :=
  do! i <- getItem (meta (pkVersion id));
  decode versionFromItem i.

Definition versions_query (funcID : string) (forward : bool) (limit : option Z) : QueryInput :=
  mkQuery (pkFunc funcID) "VER#" None forward limit.

Definition Functions_ListVersions (funcID : string) (limit : Z) : D (list FunctionVersion) :=
  do! l <- query (versions_query funcID false (if 0 <? limit then Some limit else None));
  decode_all versionFromItem l.

Definition Store_ActivateVersion (funcID versionID : string) : D unit :=
  do! v <- Functions_Version versionID;
  if negb (v_FunctionID v == funcID) then dthrow ErrNotFound
  else
    do! now <- nowUnix;
    updateItemIfExists (meta (pkFunc funcID))
      [SetTo "ActiveVersionID" (text versionID); SetTo "UpdatedAt" (AV_N now)].

(** ** Variables *)

Definition Functions_SetEnv (funcID key valueEnc : string) : D unit :=
  do! now <- nowUnix;
  upsertItem (pkFunc funcID, skEnv key)
    [SetTo "ValueEnc" (AV_B valueEnc); SetTo "UpdatedAt" (AV_N now); SetIfAbsent "CreatedAt" (AV_N now);
     SetIfAbsent "Entity" (AV_S entityEnvVar); SetIfAbsent "FunctionID" (text funcID); SetIfAbsent "EnvKey" (text key)].

Definition Functions_DeleteEnv (funcID key : string) : D unit := deleteItem (pkFunc funcID, skEnv key).

Definition envFromItem (i : Item) : result StoreErr (string * string) :=
  let! k := S_attr i "EnvKey" in
  let! v := B_attr i "ValueEnc" in
  Ok (k, v).

Definition Functions_ListEnv (funcID : string) : D (gmap string string) :=
  do! l <- query (mkQuery (pkFunc funcID) "ENV#" None true None);
  do! kvs <- decode_all envFromItem l;
  dret (list_to_map (rev kvs)).

(** ** What [Migrate] repairs *)

(** By name, then by age, then by identifier. *)
Definition claim_le (f g : Function) : Prop :=
  String.ltb (f_Name f) (f_Name g) = true
  \/ (f_Name f = f_Name g
      /\ (f_CreatedAt f < f_CreatedAt g \/ (f_CreatedAt f = f_CreatedAt g /\ String.leb (f_ID f) (f_ID g) = true))).
#[local] Instance claim_le_dec : RelDecision claim_le.
Proof. intros f g. unfold claim_le. apply _. Defined.

Fixpoint claim_names (fs : list Function) (done : list string) : D unit :=
  match fs with
  | [] => dret tt
  | f :: fs =>
      if existsb (String.eqb (f_Name f)) done then claim_names fs done
      else
        try! r <- putItemIfNotExists (name_item f (toUnix (f_CreatedAt f)));
        match r with
        | Ok _ | Err ErrConflict => claim_names fs (f_Name f :: done)
        | Err e => dthrow e
        end
  end.

Definition backfillGlobalNames : D unit :=
  do! fs <- Functions_ListAll;
  claim_names (merge_sort claim_le fs) [].

Definition oldest_creator (l : list Item) : result StoreErr string :=
  match l with [] => Ok "" | i :: _ => let! v := versionFromItem i in Ok (v_CreatedBy v) end.

Fixpoint fill_creators (fs : list Function) : D unit :=
  match fs with
  | [] => dret tt
  | f :: fs =>
      match f_CreatedBy f with
      | Some _ => fill_creators fs
      | None =>
          do! l <- query (versions_query (f_ID f) true (Some 1));
          do! by_ <- Ret (oldest_creator l);
          if by_ == "" then fill_creators fs
          else ignoring_not_found (updateItemIfExists (meta (pkFunc (f_ID f))) [SetTo "CreatedBy" (text by_)])
                 (fill_creators fs)
      end
  end.

Definition backfillCreatedBy : D unit :=
  do! fs <- Functions_ListAll;
  fill_creators fs.

(** The counter of every scope that has functions or a counter, set to the number of
    functions in it; [pks] is the set of partition keys in some order. *)
Definition scope_pk (f : Function) : string := pkFuncCount (functionCountScope f).1 (functionCountScope f).2.
Definition want (fs : list Function) (pk : string) : Z :=
  Z.of_nat (length (List.filter (fun f => scope_pk f == pk) fs)).
Definition count_item (pk : string) (n : Z) : Item := item pk skMeta entityFunctionCount [("Count", AV_N n)].

Fixpoint set_counts (fs : list Function) (pks : list string) : D unit :=
  match pks with
  | [] => dret tt
  | pk :: pks => run! putItem (count_item pk (want fs pk)); set_counts fs pks
  end.

Definition backfillFunctionCounts : D unit :=
  do! fs <- Functions_ListAll;
  do! counted <- scanPages (Equals "Entity" (AV_S entityFunctionCount))
    (fun i pks => dret (true, {[(itemKeyStrings i).1]} ∪ pks)) pages None (list_to_set (map scope_pk fs) : gset string);
  set_counts fs (elements counted).
End Repository.

(** ** handles.go *)

Section Handles.
Context (pages : nat).

Definition entityHandle : string := "handle".

Definition handleItemFrom (p : PublicUserID) (createdAt updatedAt : Z) : Item :=
  item (pkHandle (p_UserID p)) skMeta entityHandle
    [("Handle", text (p_UserID p)); ("OwnerType", text (OwnerType_text OwnerTypeUser));
     ("OwnerID", text (p_InternalUserID p)); ("CreatedAt", AV_N createdAt); ("UpdatedAt", AV_N updatedAt)].

Definition publicUserIDFromItem (i : Item) : result StoreErr PublicUserID :=
  let! h := S_attr i "Handle" in
  let! oid := S_attr i "OwnerID" in
  let! c := N_attr i "CreatedAt" in
  let! u := N_attr i "UpdatedAt" in
  Ok (mkPublicUserID h oid (fromUnix c) (fromUnix u)).

Definition PublicUserIDs_Create (p : PublicUserID) : D unit :=
  do! now <- nowUnix;
  putItemIfNotExists (handleItemFrom p now now).

Definition PublicUserIDs_ByUserID (userID : string) : D PublicUserID :=
  do! i <- getItem (meta (pkHandle userID));
  do! ot <- decode (fun i => S_attr i "OwnerType") i;
  do! p <- decode publicUserIDFromItem i;
  if negb (ot == OwnerType_text OwnerTypeUser) then dthrow ErrNotFound else dret p.

(** A scan that keeps the first item and stops there. *)
Definition first_found {A} (from : Item -> result StoreErr A) (i : Item) (_ : option A) : D (bool * option A) :=
  do! x <- decode from i; dret (false, Some x).

Definition found {A} (o : option A) : D A := match o with Some x => dret x | None => dthrow ErrNotFound end.

Definition PublicUserIDs_ByOwner (internalUserID : string) : D PublicUserID :=
  do! o <- scanPages
    (And (And (Equals "Entity" (AV_S entityHandle)) (Equals "OwnerType" (text (OwnerType_text OwnerTypeUser))))
       (Equals "OwnerID" (text internalUserID)))
    (first_found publicUserIDFromItem) pages None None;
  found o.

Definition PublicUserIDs_Rename (oldUserID newUserID : string) : D unit :=
  do! old <- PublicUserIDs_ByUserID oldUserID;
  do! now <- nowUnix;
  let i := handleItemFrom (mkPublicUserID newUserID (p_InternalUserID old) (p_CreatedAt old) (p_UpdatedAt old))
             (toUnix (p_CreatedAt old)) now in
  pbind (transactWrite [(absent, Put i); (present, Delete (meta (pkHandle oldUserID)))]) (fun r =>
    match r with
    | Ok _ => dret tt
    | Err e =>
        if conditionalCheckFailedAt e 0 then dthrow ErrConflict
        else if conditionalCheckFailedAt e 1 then dthrow ErrNotFound
        else dthrow ErrBackend
    end).

Definition PublicUserIDs_Delete (userID : string) : D unit := deleteItem (meta (pkHandle userID)).
End Handles.
