(* ===== verification/DynamoNames.v ===== *)
(** * DynamoNames: function names in DynamoDB

    Whatever clients do to functions at the same time, call by call, a name is claimed
    once and for ever, and at most one creation of it succeeds. *)

From stdpp Require Import sorting.
From S2P Require Import Prelude Types Store Dynamo DynamoLogic DynamoKeys DynamoCreds DynamoFunctions.

(** ** The methods of the function repository *)

Inductive FunctionCall :=
| FCreate (f : Function) (limit : Z)
| FByID (id : string)
| FByName (name : string)
| FByOwnerAndName (ot : OwnerType) (oid name : string)
| FListByOwner (ot : OwnerType) (oid : string)
| FCountByOwner (ot : OwnerType) (oid : string)
| FCountByWorkspaceAndCreator (wsID userID : string)
| FListAll
| FUpdate (f : Function)
| FDelete (id : string)
| FCreateVersion (v : FunctionVersion)
| FVersion (id : string)
| FListVersions (funcID : string) (limit : Z)
| FActivateVersion (funcID versionID : string)
| FSetEnv (funcID key value : string)
| FDeleteEnv (funcID key : string)
| FListEnv (funcID : string)
| FBackfillGlobalNames
| FBackfillCreatedBy
| FBackfillFunctionCounts.

Section Names.
Context {I : IdGen} (pages : nat) (name : string).
#[local] Abbreviation claim := (meta (pkFuncName name)).

(** A client that makes one call, and what it got if it created a function of that
    name. *)
Definition function_client (o : FunctionCall) : prog (option Function) :=
  match o with
  | FCreate f limit => outcome (Functions_create f limit) (fun g => if f_Name f == name then Some g else None)
  | FByID id => outcome (Functions_ByID id) (fun _ => None)
  | FByName n => outcome (Functions_ByName n) (fun _ => None)
  | FByOwnerAndName ot oid n => outcome (Functions_ByOwnerAndName ot oid n) (fun _ => None)
  | FListByOwner ot oid => outcome (Functions_ListByOwner ot oid) (fun _ => None)
  | FCountByOwner ot oid => outcome (Functions_CountByOwner ot oid) (fun _ => None)
  | FCountByWorkspaceAndCreator ws u => outcome (Functions_CountByWorkspaceAndCreator ws u) (fun _ => None)
  | FListAll => outcome (Functions_ListAll pages) (fun _ => None)
  | FUpdate f => outcome (Functions_Update f) (fun _ => None)
  | FDelete id => outcome (Functions_Delete id) (fun _ => None)
  | FCreateVersion v => outcome (Functions_CreateVersion v) (fun _ => None)
  | FVersion id => outcome (Functions_Version id) (fun _ => None)
  | FListVersions id limit => outcome (Functions_ListVersions id limit) (fun _ => None)
  | FActivateVersion id v => outcome (Store_ActivateVersion id v) (fun _ => None)
  | FSetEnv id k v => outcome (Functions_SetEnv id k v) (fun _ => None)
  | FDeleteEnv id k => outcome (Functions_DeleteEnv id k) (fun _ => None)
  | FListEnv id => outcome (Functions_ListEnv id) (fun _ => None)
  | FBackfillGlobalNames => outcome (backfillGlobalNames pages) (fun _ => None)
  | FBackfillCreatedBy => outcome (backfillCreatedBy pages) (fun _ => None)
  | FBackfillFunctionCounts => outcome (backfillFunctionCounts pages) (fun _ => None)
  end.

(** ** What they can do to a claim

    Every write that is not the deletion of a claim leaves it there. *)

#[local] Abbreviation fine := (issues (respects (keeps_spent (claimed claim)) claim)).

Lemma fine_create f limit : fine (Functions_create f limit).
Proof.
  apply fine_fresh. intros id. apply fine_now. intros now. apply fine_transact.
  - unfold create_writes. auto 10 with dynamo.
  - intros [|e]; [done|]. by repeat case_goal.
Qed.

Lemma fine_ByID id : fine (Functions_ByID id).
Proof. apply issues_dbind; [apply issues_getItem|done]. Qed.

Lemma fine_ByName n : fine (Functions_ByName n).
Proof.
  apply issues_dbind; [apply issues_getItem|]. intros i. do 2 (apply issues_dbind; [done|]; intros ?).
  case_goal; [done|apply fine_ByID].
Qed.

Lemma fine_ByOwnerAndName ot oid n : fine (Functions_ByOwnerAndName ot oid n).
Proof. apply issues_dbind; [apply issues_getItem|]. intros i. apply issues_dbind; [done|]. intros. apply fine_ByID. Qed.

Lemma fine_list ot oid : fine (Functions_ListByOwner ot oid).
Proof.
  apply issues_dbind; [apply issues_query|]. intros [|i l]; [done|].
  apply issues_dbind; [apply issues_decode_all|]. intros ids. apply issues_dbind; [apply issues_batchGetItems|]. intros items.
  by apply issues_dbind; [apply issues_decode_all|].
Qed.

Lemma fine_ListAll : fine (Functions_ListAll pages).
Proof. apply issues_scanPages. intros i l _ _. by apply issues_dbind. Qed.

Lemma fine_ignoring p q : fine p -> fine q -> fine (ignoring_not_found p q).
Proof. intros Hp Hq. apply issues_dtry; [done|]. by intros [[]|[]]. Qed.

Lemma fine_Update f : fine (Functions_Update f).
Proof.
  apply issues_dbind; [apply fine_ByID|]. intros g. case_goal; [done|]. apply fine_now. intros now. case_goal.
  - apply issues_dbind; [|done]. apply issues_put, leaves_put.
  - apply fine_transact; [auto 10 with dynamo|]. intros [|e]; [done|]. by repeat case_goal.
Qed.

(** What is deleted with a function is in its partition, or in its owner's. *)
Lemma fine_Delete id : fine (Functions_Delete id).
Proof.
  apply issues_dtry; [apply fine_ByID|]. intros [f|[]]; try done.
  apply fine_now. intros now. apply fine_ignoring; [apply issues_update, leaves_update|].
  apply issues_queried. intros l Hl. apply issues_dbind; [|intros _; apply issues_update, leaves_update].
  apply issues_batchWrite. unfold delete_writes. apply Forall_app. split; [|auto with dynamo].
  apply Forall_map, Forall_forall. intros i Hi. destruct (Hl i Hi) as (sk & Hk & _).
  apply leaves_delete. rewrite (itemKeyStrings_of _ _ Hk). discriminate.
Qed.

Lemma fine_CreateVersion v : fine (Functions_CreateVersion v).
Proof. apply fine_fresh. intros id. apply fine_now. intros now. apply issues_dbind; [|done]. auto with dynamo. Qed.

Lemma fine_Version id : fine (Functions_Version id).
Proof. apply issues_dbind; [apply issues_getItem|done]. Qed.

Lemma fine_ListVersions id limit : fine (Functions_ListVersions id limit).
Proof. apply issues_dbind; [apply issues_query|]. intros l. apply issues_decode_all. Qed.

Lemma fine_ActivateVersion id v : fine (Store_ActivateVersion id v).
Proof.
  apply issues_dbind; [apply fine_Version|]. intros x. case_goal; [done|]. apply fine_now. intros now.
  apply issues_update, leaves_update.
Qed.

Lemma fine_ListEnv id : fine (Functions_ListEnv id).
Proof.
  apply issues_dbind; [apply issues_query|]. intros l. by apply issues_dbind; [apply issues_decode_all|].
Qed.

Lemma fine_claim_names fs seen : fine (claim_names fs seen).
Proof.
  revert seen. induction fs as [|f fs IH]; intros seen; simpl; [done|]. case_goal; [apply IH|].
  apply issues_dtry; [apply issues_put, leaves_put|]. intros [|[]]; try done; apply IH.
Qed.

Lemma fine_fill fs : fine (fill_creators fs).
Proof.
  induction fs as [|f fs IH]; simpl; [done|]. destruct (f_CreatedBy f); [done|].
  apply issues_dbind; [apply issues_query|]. intros l. apply issues_dbind; [done|]. intros u. case_goal; [done|].
  apply fine_ignoring; [|done]. apply issues_update, leaves_update.
Qed.

Lemma fine_counts fs pks : fine (set_counts fs pks).
Proof. induction pks as [|pk pks IH]; [done|]. apply issues_dbind; [|done]. apply issues_put, leaves_put. Qed.

Lemma client_fine o : fine (function_client o).
Proof.
  destruct o; apply issues_outcome; auto using fine_create, fine_ByID, fine_ByName, fine_ByOwnerAndName, fine_list,
    fine_ListAll, fine_Update, fine_Delete, fine_CreateVersion, fine_Version, fine_ListVersions, fine_ActivateVersion,
    fine_ListEnv.
  - by apply issues_dbind; [apply issues_query|].
  - by apply issues_dbind; [apply fine_list|].
  - apply fine_now. intros now. apply issues_update, leaves_update.
  - apply issues_delete, leaves_delete. discriminate.
  - apply issues_dbind; [apply fine_ListAll|]. intros. apply fine_claim_names.
  - apply issues_dbind; [apply fine_ListAll|]. intros. apply fine_fill.
  - apply issues_dbind; [apply fine_ListAll|]. intros. apply issues_dbind; [by apply issues_scanPages|]. intros.
    apply fine_counts.
Qed.

(** ** Who creates a function of the name *)

Lemma created_honest f limit now id :
  honest (claimed claim) claim
    (outcome (pbind (transactWrite (create_writes (stamp_function f id (fromUnix now)) now limit)) (fun r =>
       match r with
       | Ok _ => dret (stamp_function f id (fromUnix now))
       | Err e =>
           if (0 <? limit) && conditionalCheckFailedAt e 0 then dthrow ErrFunctionLimitReached
           else if transactionConditionFailed e then dthrow ErrConflict
           else dthrow ErrBackend
       end)) (fun g => if f_Name f == name then Some g else None)).
Proof.
  intros [[]|e]; [|left; cbn; destruct (_ && _); [done|]; by destruct (transactionConditionFailed e)]. cbn. destruct (f_Name f == name) eqn:En; [bool_facts|by left].
  right. split; [|done]. split; [done|]. apply Exists_exists.
  exists (absent, Put (name_item (stamp_function f id (fromUnix now)) now)). split; [do 2 right; left|].
  apply claim_spends. cbn. by rewrite En.
Qed.

Lemma client_honest o : honest (claimed claim) claim (function_client o).
Proof.
  destruct o as [f limit| | | | | | | | | | | | | | | | | | |]; try apply honest_never.
  cbn [function_client]. unfold Functions_create, fresh_id. destruct (f_ID f == "").
  - intros id. left. intros now. left. apply created_honest.
  - intros now. left. apply created_honest.
Qed.

(** C31. In a DynamoDB table, whatever calls any number of clients make on the functions
    and however these are interleaved, repeated, lost or answered from stale copies, at
    most one of them creates a function of a given name, none if the name is claimed,
    and a name that is claimed once, deleted function or not, is claimed for ever. *)
Theorem names_claimed_once ops db ps' db' (Hk : well_keyed db)
    (Hrun : rtc step (map function_client ops, db) (ps', db')) :
  (length (List.filter won ps') <= 1)%nat
  /\ ((0 < length (List.filter won ps'))%nat -> ~ claimed claim (cur db !! claim) /\ claimed claim (cur db' !! claim))
  /\ (claimed claim (cur db !! claim) -> claimed claim (cur db' !! claim)).
Proof.
  apply (claimed_once claim (map function_client ops)); [done| |done].
  apply Forall_map, Forall_forall. split; [apply client_fine|apply client_honest].
Qed.
End Names.

(** *** Two clients create a function of one name, and one of them deletes it *)

Definition named (id owner : string) : Function := mkFunction id OwnerTypeUser owner "hello" "" None None 0 0.
Definition creations : list FunctionCall := [FCreate (named "F1" "U1") 3; FCreate (named "F2" "U2") 3; FDelete "F1"].
Definition creating : list (prog (option Function)) * DB := (map (function_client 1 "hello") creations, empty_db).
Definition creation_turns : list nat := [0; 1; 0; 2; 2; 2; 2; 2; 2; 1]%nat.

Lemma names_claimed_once_witness :
  (length (List.filter won (play (I := unary_ids) creation_turns creating).1) <= 1)%nat
  /\ length (List.filter won (play (I := unary_ids) creation_turns creating).1) = 1%nat
  /\ cur (play (I := unary_ids) creation_turns creating).2 !! meta (pkFunc "F1") = None.
Proof.
  split; [|by vm_compute].
  apply (names_claimed_once (I := unary_ids) 1 "hello" creations empty_db
           (play (I := unary_ids) creation_turns creating).1 (play (I := unary_ids) creation_turns creating).2).
  - apply well_keyed_all. by vm_compute.
  - rewrite <- surjective_pairing. apply play_steps.
Defined.
