(* ===== verification/DynamoOrg.v ===== *)
(** * DynamoOrg: the organization, its people and its logs in DynamoDB

    Models organizations.go, users.go, workspaces.go, audit.go, months.go,
    invocationlogs.go, the two migrations and the data part of [Migrate] of
    src/server/internal/store/dynamodb, with the bootstrap and the creation of a
    workspace from aggregate.go. *)

From stdpp Require Import sorting.
From S2P Require Import Prelude Types Settings Store GoTime Dynamo DynamoKeys DynamoCreds DynamoFunctions.

#[local] Open Scope d_scope.

(** ** organizations.go *)

Definition entityOrganization : string := "organization".
Definition entityLoginRule : string := "login_rule".
Definition entityBootstrapLock : string := "bootstrap_lock".

Definition org_item (o : Organization) (createdAt updatedAt : Z) : Item :=
  item pkOrg skMeta entityOrganization
    [("ID", text "org"); ("Name", text (o_Name o)); ("Settings", AV_B (o_Settings o));
     ("SettingsGen", AV_N (o_SettingsGen o)); ("CreatedAt", AV_N createdAt); ("UpdatedAt", AV_N updatedAt)].

Definition orgFromItem (i : Item) : result StoreErr Organization :=
  let! id := S_attr i "ID" in
  let! n := S_attr i "Name" in
  let! s := B_attr i "Settings" in
  let! g := N_attr i "SettingsGen" in
  let! c := N_attr i "CreatedAt" in
  let! u := N_attr i "UpdatedAt" in
  Ok (mkOrganization id n s g (fromUnix c) (fromUnix u)).

Definition loginRule_item (lr : LoginRule) (now : Z) : Item :=
  item pkOrg (skLoginRule (lr_Ord lr)) entityLoginRule
    [("ID", text (lr_ID lr)); ("Ord", AV_N (lr_Ord lr)); ("RuleType", text (LoginRuleType_text (lr_RuleType lr)));
     ("Value", text (lr_Value lr)); ("Action", text (LoginRuleAction_text (lr_Action lr)));
     ("CreatedAt", AV_N now); ("UpdatedAt", AV_N now)].

Definition loginRuleFromItem (i : Item) : result StoreErr LoginRule :=
  let! id := S_attr i "ID" in
  let! o := N_attr i "Ord" in
  let! t := enum_attr LoginRuleType_parse i "RuleType" in
  let! v := S_attr i "Value" in
  let! a := enum_attr LoginRuleAction_parse i "Action" in
  let! c := N_attr i "CreatedAt" in
  let! u := N_attr i "UpdatedAt" in
  Ok (mkLoginRule id o t v a (fromUnix c) (fromUnix u)).

Definition Organizations_Get : D Organization :=
  do! i <- getItem (meta pkOrg);
  decode orgFromItem i.

Definition Organizations_Update (o : Organization) : D Organization :=
  do! now <- nowUnix;
  run! putItemIfExists (org_item o (toUnix (o_CreatedAt o)) now);
  dret (mkOrganization (o_ID o) (o_Name o) (o_Settings o) (o_SettingsGen o) (o_CreatedAt o) (fromUnix now)).

Definition rules_query : QueryInput := mkQuery pkOrg "RULE#" None true None.

Definition Organizations_ListLoginRules : D (list LoginRule) :=
  do! l <- query rules_query;
  decode_all loginRuleFromItem l.

Fixpoint stamp_rules (rules : list LoginRule) (now : Z) : D (list LoginRule) :=
  match rules with
  | [] => dret []
  | lr :: rules =>
      do! id <- fresh_id (lr_ID lr);
      do! rest <- stamp_rules rules now;
      dret (mkLoginRule id (lr_Ord lr) (lr_RuleType lr) (lr_Value lr) (lr_Action lr) (fromUnix now) (fromUnix now) :: rest)
  end.

(** The key of an existing rule, read with the whole of its struct. *)
Definition rule_key (i : Item) : result StoreErr Key :=
  let! pk := S_attr i "PK" in
  let! sk := S_attr i "SK" in
  let! _ := S_attr i "ID" in
  let! _ := N_attr i "Ord" in
  let! _ := S_attr i "RuleType" in
  let! _ := S_attr i "Value" in
  let! _ := S_attr i "Action" in
  let! _ := N_attr i "CreatedAt" in
  let! _ := N_attr i "UpdatedAt" in
  Ok (pk, sk).

(** Deletions of the existing rules and then the new ones, in one batch. *)
Definition Organizations_ReplaceLoginRules (rules : list LoginRule) : D (list LoginRule) :=
  do! existing <- query rules_query;
  do! ks <- decode_all rule_key existing;
  do! now <- nowUnix;
  do! rules <- stamp_rules rules now;
  run! batchWrite (map Delete ks ++ map (fun lr => Put (loginRule_item lr now)) rules);
  dret rules.

(** ** users.go *)

Definition entityUser : string := "user".
Definition entityUserProviderSubjectPointer : string := "user_provider_subject".

Section Repositories.
Context (pages : nat).

Definition userItemFrom (u : User) (createdAt now : Z) : Item :=
  item (pkUser (u_ID u)) skMeta entityUser
    [("ID", text (u_ID u)); ("Provider", text (Provider_text (u_Provider u)));
     ("ProviderSubject", text (u_ProviderSubject u)); ("Email", text (u_Email u)); ("Name", text (u_Name u));
     ("Role", text (Role_text (u_Role u))); ("Status", text (UserStatus_text (u_Status u)));
     ("Language", text (u_Language u)); ("CreatedAt", AV_N createdAt); ("UpdatedAt", AV_N now)].

Definition userFromItem (i : Item) : result StoreErr User :=
  let! id := S_attr i "ID" in
  let! p := enum_attr Provider_parse i "Provider" in
  let! sub := S_attr i "ProviderSubject" in
  let! e := S_attr i "Email" in
  let! n := S_attr i "Name" in
  let! r := enum_attr Role_parse i "Role" in
  let! s := enum_attr UserStatus_parse i "Status" in
  let! l := S_attr i "Language" in
  let! c := N_attr i "CreatedAt" in
  let! u := N_attr i "UpdatedAt" in
  Ok (mkUser id p sub e n r s l (fromUnix c) (fromUnix u)).

Definition subject_pk (u : User) : string := pkUserProviderSubject (Provider_text (u_Provider u)) (u_ProviderSubject u).
Definition subject_item (pk id : string) : Item :=
  item pk skMeta entityUserProviderSubjectPointer [("UserID", text id)].

Definition with_times (u : User) (id : string) (created updated : Time) : User :=
  mkUser id (u_Provider u) (u_ProviderSubject u) (u_Email u) (u_Name u) (u_Role u) (u_Status u) (u_Language u)
    created updated.

Definition Users_Create (u : User) : D User :=
  do! id <- fresh_id (u_ID u);
  do! now <- nowUnix;
  let u := with_times u id (fromUnix now) (fromUnix now) in
  run! transactOr ErrConflict
    [(absent, Put (userItemFrom u (toUnix (u_CreatedAt u)) now)); (absent, Put (subject_item (subject_pk u) id))];
  dret u.

Definition Users_ByID (id : string) : D User :=
  do! i <- getItem (meta (pkUser id));
  decode userFromItem i.

Definition Users_ByProviderSubject (p : Provider) (subject : string) : D User :=
  do! i <- getItem (meta (pkUserProviderSubject (Provider_text p) subject));
  do! id <- decode (fun i => S_attr i "UserID") i;
  Users_ByID id.

Definition Users_ByEmail (email : string) : D User :=
  do! o <- scanPages (And (Equals "Entity" (AV_S entityUser)) (Equals "Email" (text email)))
    (first_found userFromItem) pages None None;
  found o.

Definition Users_Update (u : User) : D User :=
  do! existing <- Users_ByID (u_ID u);
  do! now <- nowUnix;
  let i := userItemFrom u (toUnix (u_CreatedAt existing)) now in
  let u' := with_times u (u_ID u) (u_CreatedAt existing) (fromUnix now) in
  if bool_decide (u_Provider existing = u_Provider u) && (u_ProviderSubject existing == u_ProviderSubject u) then
    run! putItemIfExists i;
    dret u'
  else
    pbind (transactWrite
      [(present, Put i); (Always, Delete (meta (subject_pk existing)));
       (absent, Put (subject_item (subject_pk u) (u_ID u)))]) (fun r =>
      match r with
      | Ok _ => dret u'
      | Err e =>
          if conditionalCheckFailedAt e 0 then dthrow ErrNotFound
          else if conditionalCheckFailedAt e 2 then dthrow ErrConflict
          else dthrow ErrBackend
      end).

Definition Users_List : D (list User) :=
  scanPages (Equals "Entity" (AV_S entityUser)) (collect userFromItem) pages None [].

(** ** workspaces.go *)

Definition entityWorkspace : string := "workspace".
Definition entityWorkspaceMember : string := "workspace_member".

(** [workspaceItemFrom] is given a workspace with its default settings. *)
Definition workspace_item (w : Workspace) (createdAt updatedAt : Z) : Item :=
  item (pkWorkspace (w_ID w)) skMeta entityWorkspace
    [("ID", text (w_ID w)); ("Name", text (w_Name w)); ("Settings", AV_B (w_Settings w));
     ("SettingsGen", AV_N (w_SettingsGen w)); ("CreatedAt", AV_N createdAt); ("UpdatedAt", AV_N updatedAt)].
Definition workspaceItemFrom (w : Workspace) (createdAt updatedAt : Z) : Item :=
  workspace_item (default_settings w (w_ID w) 0) createdAt updatedAt.

Definition workspaceFromItem (i : Item) : result StoreErr Workspace :=
  let! id := S_attr i "ID" in
  let! n := S_attr i "Name" in
  let! s := B_attr i "Settings" in
  let! g := N_attr i "SettingsGen" in
  let! c := N_attr i "CreatedAt" in
  let! u := N_attr i "UpdatedAt" in
  Ok (mkWorkspace id n s g (fromUnix c) (fromUnix u)).

Definition Workspaces_Create (w : Workspace) : D Workspace :=
  do! id <- fresh_id (w_ID w);
  do! now <- nowUnix;
  let w := default_settings w id (fromUnix now) in
  run! putItem (workspaceItemFrom w now now);
  dret w.

Definition Workspaces_ByID (id : string) : D Workspace :=
  do! i <- getItem (meta (pkWorkspace id));
  decode workspaceFromItem i.

Definition Workspaces_Update (w : Workspace) : D Workspace :=
  do! now <- nowUnix;
  run! putItemIfExists (workspaceItemFrom w (toUnix (w_CreatedAt w)) now);
  dret (mkWorkspace (w_ID w) (w_Name w) (w_Settings w) (w_SettingsGen w) (w_CreatedAt w) (fromUnix now)).

Definition Workspaces_Delete (id : string) : D unit :=
  do! l <- query (mkQuery (pkWorkspace id) "" None true None);
  batchWrite (map (fun i => Delete (itemKeyStrings i)) l).

Definition member_item (wsID userID : string) (r : Role) (now : Z) : Item :=
  item (pkWorkspace wsID) (skMember userID) entityWorkspaceMember
    [("WorkspaceID", text wsID); ("UserID", text userID); ("Role", text (Role_text r));
     ("CreatedAt", AV_N now); ("UpdatedAt", AV_N now)].

Definition memberFromItem (i : Item) : result StoreErr WorkspaceMember :=
  let! w := S_attr i "WorkspaceID" in
  let! u := S_attr i "UserID" in
  let! r := enum_attr Role_parse i "Role" in
  let! c := N_attr i "CreatedAt" in
  let! t := N_attr i "UpdatedAt" in
  Ok (mkWorkspaceMember w u r (fromUnix c) (fromUnix t)).

Definition Workspaces_AddMember (m : WorkspaceMember) : D WorkspaceMember :=
  do! now <- nowUnix;
  run! putItem (member_item (wm_WorkspaceID m) (wm_UserID m) (wm_Role m) now);
  dret (mkWorkspaceMember (wm_WorkspaceID m) (wm_UserID m) (wm_Role m) (fromUnix now) (fromUnix now)).

Definition Workspaces_RemoveMember (wsID userID : string) : D unit :=
  deleteItemIfExists (pkWorkspace wsID, skMember userID).

Definition Workspaces_UpdateMemberRole (wsID userID : string) (r : Role) : D unit :=
  do! now <- nowUnix;
  updateItemIfExists (pkWorkspace wsID, skMember userID)
    [SetTo "Role" (text (Role_text r)); SetTo "UpdatedAt" (AV_N now)].

Definition Workspaces_ListMembers (wsID : string) : D (list WorkspaceMember) :=
  do! l <- query (mkQuery (pkWorkspace wsID) "MEMBER#" None true None);
  decode_all memberFromItem l.

Fixpoint workspaces_by_id (ids : list string) : D (list Workspace) :=
  match ids with
  | [] => dret []
  | id :: ids =>
      do! w <- Workspaces_ByID id;
      do! ws <- workspaces_by_id ids;
      dret (w :: ws)
  end.

Definition Workspaces_ListForUser (userID : string) : D (list Workspace) :=
  do! ids <- scanPages (by_user entityWorkspaceMember userID)
    (collect (fun i => let! m := memberFromItem i in Ok (wm_WorkspaceID m))) pages None [];
  workspaces_by_id ids.

Definition Workspaces_ListAll : D (list Workspace) :=
  scanPages (Equals "Entity" (AV_S entityWorkspace)) (collect workspaceFromItem) pages None [].

(** [ListVisibleTo] of functions.go. *)
Fixpoint functions_of (ws : list Workspace) (out : list Function) : D (list Function) :=
  match ws with
  | [] => dret out
  | w :: ws =>
      do! fs <- Functions_ListByOwner OwnerTypeWorkspace (w_ID w);
      functions_of ws (out ++ fs)
  end.

Definition Functions_ListVisibleTo (userID : string) : D (list Function) :=
  do! out <- Functions_ListByOwner OwnerTypeUser userID;
  do! ws <- Workspaces_ListForUser userID;
  functions_of ws out.

(** ** aggregate.go *)

Definition lock_item : Item := item pkOrg skBootstrapLock entityBootstrapLock [].
Definition first_organization (name : string) : Organization := mkOrganization "org" name "{}" 1 0 0.

(** The user's item has the creation time of the value passed in. *)
Definition Store_BootstrapFirstUser (u : User) (orgName : string) : D User :=
  do! now <- nowUnix;
  do! id <- fresh_id (u_ID u);
  let u := mkUser id (u_Provider u) (u_ProviderSubject u) (u_Email u) (u_Name u) RoleAdmin UserStatusActive
             (u_Language u) (u_CreatedAt u) (u_UpdatedAt u) in
  run! transactOr ErrConflict
    [(absent, Put lock_item);
     (Always, Put (org_item (first_organization orgName) now now));
     (Always, Put (userItemFrom u (toUnix (u_CreatedAt u)) now));
     (Always, Put (subject_item (subject_pk u) id))];
  dret (with_times u id (fromUnix now) (fromUnix now)).

Definition Store_CreateWorkspace (w : Workspace) (creator : string) : D Workspace :=
  do! id <- fresh_id (w_ID w);
  do! now <- nowUnix;
  let w := default_settings w id (fromUnix now) in
  run! transactOr ErrConflict
    [(Always, Put (workspaceItemFrom w now now)); (Always, Put (member_item id creator RoleAdmin now))];
  dret w.

(** ** The migrations *)

(** A user as it is stored. *)
Record userItem := mkUserItem {
  ui_key : Key;
  ui_ID : string;
  ui_Provider : string;
  ui_ProviderSubject : string;
  ui_Email : string;
  ui_Name : string;
  ui_Role : string;
  ui_Status : string;
  ui_Language : string;
  ui_CreatedAt : Z;
  ui_UpdatedAt : Z
}.

Definition userItem_from (i : Item) : result StoreErr userItem :=
  let! id := S_attr i "ID" in
  let! p := S_attr i "Provider" in
  let! sub := S_attr i "ProviderSubject" in
  let! e := S_attr i "Email" in
  let! n := S_attr i "Name" in
  let! r := S_attr i "Role" in
  let! s := S_attr i "Status" in
  let! l := S_attr i "Language" in
  let! c := N_attr i "CreatedAt" in
  let! u := N_attr i "UpdatedAt" in
  Ok (mkUserItem (itemKeyStrings i) id p sub e n r s l c u).

Definition userItem_to (x : userItem) : Item :=
  item (ui_key x).1 (ui_key x).2 entityUser
    [("ID", text (ui_ID x)); ("Provider", text (ui_Provider x)); ("ProviderSubject", text (ui_ProviderSubject x));
     ("Email", text (ui_Email x)); ("Name", text (ui_Name x)); ("Role", text (ui_Role x));
     ("Status", text (ui_Status x)); ("Language", text (ui_Language x)); ("CreatedAt", AV_N (ui_CreatedAt x));
     ("UpdatedAt", AV_N (ui_UpdatedAt x))].

Definition of_google (x : userItem) (subject : string) : userItem :=
  mkUserItem (ui_key x) (ui_ID x) (Provider_text ProviderGoogle) subject (ui_Email x) (ui_Name x) (ui_Role x)
    (ui_Status x) (ui_Language x) (ui_CreatedAt x) (ui_UpdatedAt x).

Definition migrate_user (i : Item) (_ : unit) : D (bool * unit) :=
  do! x <- decode userItem_from i;
  if negb (ui_Provider x == "") then dret (true, tt)
  else
    do! sub <- decode (fun i => S_attr i "GoogleSub") i;
    if sub == "" then dret (true, tt)
    else
      run! putItemIfExists (userItem_to (of_google x sub));
      try! r <- putItemIfNotExists
        (subject_item (pkUserProviderSubject (Provider_text ProviderGoogle) sub) (ui_ID x));
      match r with
      | Ok _ | Err ErrConflict =>
          run! deleteItem (meta (pkUserSubLegacy sub));
          dret (true, tt)
      | Err e => dthrow e
      end.

Definition migrateUserProviderPointers : D unit :=
  scanPages (Equals "Entity" (AV_S entityUser)) migrate_user pages None tt.

Definition workspace_handle : Cond :=
  And (Equals "Entity" (AV_S entityHandle)) (Equals "OwnerType" (text (OwnerType_text OwnerTypeWorkspace))).

Definition remove_handle (i : Item) (_ : unit) : D (bool * unit) :=
  match i !! "PK", i !! "SK" with
  | Some (AV_S pk), Some (AV_S sk) =>
      if (pk == "") || (sk == "") then dthrow ErrBackend
      else
        Do (DeleteItem workspace_handle (pk, sk)) (fun r =>
          match r with
          | Ok _ | Err ConditionalCheckFailed => dret (true, tt)
          | Err _ => dthrow ErrBackend
          end)
  | _, _ => dthrow ErrBackend
  end.

Definition removeLegacyWorkspaceHandles : D unit := scanPages workspace_handle remove_handle pages None tt.

(** What [Migrate] does once the table is there. *)
Definition Store_Migrate : D unit :=
  run! backfillGlobalNames pages;
  run! removeLegacyWorkspaceHandles;
  run! migrateUserProviderPointers;
  run! backfillCreatedBy pages;
  backfillFunctionCounts pages.
End Repositories.

(** ** months.go *)

Definition monthFloor : string := "200001".
Definition month_text (y m : Z) : string := year_text y +:+ pad 2 m.
Definition monthKey (t : Time) : string :=
  let '(y, m, _) := civil_from_days (toUnix t / 86400) in month_text y m.

Definition digit (c : ascii) : option Z :=
  let n := Z.of_nat (nat_of_ascii c) - 48 in if (0 <=? n) && (n <=? 9) then Some n else None.
Definition digits (s : string) : option Z :=
  foldl (fun o c => n ← o; d ← digit c; Some (10 * n + d)) (Some 0) (list_ascii_of_string s).

(** [time.Parse] with the layout of a month. *)
Definition parse_month (s : string) : option (Z * Z) :=
  if negb (String.length s =? 6)%nat then None
  else
    y ← digits (String.substring 0 4 s);
    m ← digits (String.substring 4 2 s);
    if (1 <=? m) && (m <=? 12) then Some (y, m) else None.

Definition prevMonthKey (month : string) : string :=
  match parse_month month with
  | None => monthFloor
  | Some (y, m) => if m =? 1 then month_text (y - 1) 12 else month_text y (m - 1)
  end.

(** The months from one down to the floor; [fuel] bounds them. *)
Fixpoint months_from (fuel : nat) (month : string) : list string :=
  match fuel with
  | O => []
  | S fuel => if String.leb monthFloor month then month :: months_from fuel (prevMonthKey month) else []
  end.
Definition month_fuel (month : string) : nat :=
  match parse_month month with
  | Some (y, m) => Z.to_nat (12 * (y - 2000) + m)
  | None => 2
  end.
Definition months (month : string) : list string := months_from (month_fuel month) month.

(** ** audit.go *)

Definition entityAuditLog : string := "audit_log".
Definition entityInvocationLog : string := "invocation_log".
Definition defaultListLimit : Z := 50.

Section Logs.
(** The time of a ULID, from its library; [None] if it is not one. *)
Context (ulid_Time : string -> option Time).

Definition monthFromULID (id : string) : D string :=
  match ulid_Time id with
  | Some t => dret (monthKey t)
  | None => Do Now (fun t => dret (monthKey t))
  end.

Definition auditItem_of (month : string) (a : AuditLog) (now : Z) : Item :=
  item (pkAudit month) (al_ID a) entityAuditLog
    [("ID", text (al_ID a)); ("ActorID", text (al_ActorID a)); ("Action", text (al_Action a));
     ("Target", text (al_Target a)); ("Detail", AV_B (al_Detail a)); ("CreatedAt", AV_N now); ("UpdatedAt", AV_N now)].

Definition auditFromItem (i : Item) : result StoreErr AuditLog :=
  let! id := S_attr i "ID" in
  let! actor := S_attr i "ActorID" in
  let! a := S_attr i "Action" in
  let! t := S_attr i "Target" in
  let! d := B_attr i "Detail" in
  let! c := N_attr i "CreatedAt" in
  let! u := N_attr i "UpdatedAt" in
  Ok (mkAuditLog id actor a t d (fromUnix c) (fromUnix u)).

Definition Audit_Append (a : AuditLog) : D AuditLog :=
  do! id <- fresh_id (al_ID a);
  do! now <- nowUnix;
  let a := mkAuditLog id (al_ActorID a) (al_Action a) (al_Target a) (al_Detail a) (fromUnix now) (fromUnix now) in
  do! month <- monthFromULID id;
  run! putItem (auditItem_of month a now);
  dret a.

(** Newest first, below a cursor if there is one. *)
Definition page_query (pk cursor : string) (limit : Z) : QueryInput :=
  mkQuery pk "" (if cursor == "" then None else Some cursor) false (Some limit).

Definition queryMonth (month cursor : string) (limit : Z) : D (list AuditLog) :=
  do! l <- query (page_query (pkAudit month) cursor limit);
  decode_all auditFromItem l.

Fixpoint walk (ms : list string) (cursor : string) (limit : Z) (out : list AuditLog) : D (list AuditLog) :=
  match ms with
  | [] => dret out
  | month :: ms =>
      if Z.of_nat (length out) <? limit then
        do! l <- queryMonth month cursor (limit - Z.of_nat (length out));
        walk ms "" limit (out ++ l)
      else dret out
  end.

Definition Audit_List (cursor : string) (limit : Z) : D (list AuditLog) :=
  let limit := if limit <=? 0 then defaultListLimit else limit in
  do! t <- Do Now dret;
  do! month <- (if cursor == "" then dret (monthKey t) else monthFromULID cursor);
  walk (months month) cursor limit [].

(** ** invocationlogs.go *)

Definition invocationLogRetention : Z := DefaultLogRetentionDays * 24 * 3600.

Definition invocationLog_item (l : InvocationLog) (now : Z) : Item :=
  item (pkInvocationLog (il_FunctionID l)) (il_ID l) entityInvocationLog
    [("ID", text (il_ID l)); ("FunctionID", text (il_FunctionID l)); ("VersionID", text (il_VersionID l));
     ("Method", text (il_Method l)); ("Path", text (il_Path l)); ("Status", AV_N (il_Status l));
     ("DurationMS", AV_N (il_DurationMS l)); ("Stdout", text (il_Stdout l)); ("Stderr", text (il_Stderr l));
     ("FetchDecisions", AV_B (il_FetchDecisions l)); ("CreatedAt", AV_N now);
     ("ttl", AV_N (now + invocationLogRetention))].

Definition invocationLogFromItem (i : Item) : result StoreErr InvocationLog :=
  let! id := S_attr i "ID" in
  let! fid := S_attr i "FunctionID" in
  let! vid := S_attr i "VersionID" in
  let! m := S_attr i "Method" in
  let! p := S_attr i "Path" in
  let! s := N_attr i "Status" in
  let! d := N_attr i "DurationMS" in
  let! out := S_attr i "Stdout" in
  let! err := S_attr i "Stderr" in
  let! fd := B_attr i "FetchDecisions" in
  let! c := N_attr i "CreatedAt" in
  Ok (mkInvocationLog id fid vid m p s d out err fd (fromUnix c)).

Definition InvocationLogs_Append (l : InvocationLog) : D InvocationLog :=
  do! id <- fresh_id (il_ID l);
  do! now <- nowUnix;
  let l := mkInvocationLog id (il_FunctionID l) (il_VersionID l) (il_Method l) (il_Path l) (il_Status l)
             (il_DurationMS l) (il_Stdout l) (il_Stderr l) (il_FetchDecisions l) (fromUnix now) in
  run! putItem (invocationLog_item l now);
  dret l.

Definition InvocationLogs_List (functionID cursor : string) (limit : Z) : D (list InvocationLog) :=
  let limit := if limit <=? 0 then defaultListLimit else limit in
  do! l <- query (page_query (pkInvocationLog functionID) cursor limit);
  decode_all invocationLogFromItem l.

Definition InvocationLogs_DeleteOlderThan (cutoff : Time) : D Z := dret 0.
End Logs.
