(* ===== verification/DynamoSetup.v ===== *)
(** * DynamoSetup: the first administrator and the login rules in DynamoDB

    Whatever clients do to the organization, its users and its workspaces at the same
    time, call by call, at most one of them bootstraps it; and a list of login rules
    that is there is never replaced by another that reuses one of its positions. *)

From stdpp Require Import sorting.
From S2P Require Import Prelude Types Store Dynamo DynamoLogic DynamoKeys DynamoCreds DynamoFunctions DynamoOrg.

(** ** The methods *)

Inductive SetupCall :=
| OBootstrapFirstUser (u : User) (orgName : string)
| OGet
| OUpdate (o : Organization)
| OListLoginRules
| OReplaceLoginRules (rules : list LoginRule)
| UCreate (u : User)
| UByID (id : string)
| UByProviderSubject (p : Provider) (subject : string)
| UByEmail (email : string)
| UUpdate (u : User)
| UList
| WCreate (w : Workspace)
| WByID (id : string)
| WUpdate (w : Workspace)
| WDelete (id : string)
| WAddMember (m : WorkspaceMember)
| WRemoveMember (wsID userID : string)
| WUpdateMemberRole (wsID userID : string) (r : Role)
| WListMembers (wsID : string)
| WListForUser (userID : string)
| WListAll
| WCreateWithAdmin (w : Workspace) (creator : string).

Section Bootstrap.
Context {I : IdGen} (pages : nat).
#[local] Abbreviation lock := (pkOrg, skBootstrapLock).

(** A client that makes one call, and the administrator it made if it was the first. *)
Definition setup_client (o : SetupCall) : prog (option User) :=
  match o with
  | OBootstrapFirstUser u n => outcome (Store_BootstrapFirstUser u n) Some
  | OGet => outcome Organizations_Get (fun _ => None)
  | OUpdate x => outcome (Organizations_Update x) (fun _ => None)
  | OListLoginRules => outcome Organizations_ListLoginRules (fun _ => None)
  | OReplaceLoginRules rs => outcome (Organizations_ReplaceLoginRules rs) (fun _ => None)
  | UCreate u => outcome (Users_Create u) (fun _ => None)
  | UByID id => outcome (Users_ByID id) (fun _ => None)
  | UByProviderSubject p s => outcome (Users_ByProviderSubject p s) (fun _ => None)
  | UByEmail e => outcome (Users_ByEmail pages e) (fun _ => None)
  | UUpdate u => outcome (Users_Update u) (fun _ => None)
  | UList => outcome (Users_List pages) (fun _ => None)
  | WCreate w => outcome (Workspaces_Create w) (fun _ => None)
  | WByID id => outcome (Workspaces_ByID id) (fun _ => None)
  | WUpdate w => outcome (Workspaces_Update w) (fun _ => None)
  | WDelete id => outcome (Workspaces_Delete id) (fun _ => None)
  | WAddMember m => outcome (Workspaces_AddMember m) (fun _ => None)
  | WRemoveMember w u => outcome (Workspaces_RemoveMember w u) (fun _ => None)
  | WUpdateMemberRole w u r => outcome (Workspaces_UpdateMemberRole w u r) (fun _ => None)
  | WListMembers w => outcome (Workspaces_ListMembers w) (fun _ => None)
  | WListForUser u => outcome (Workspaces_ListForUser pages u) (fun _ => None)
  | WListAll => outcome (Workspaces_ListAll pages) (fun _ => None)
  | WCreateWithAdmin w c => outcome (Store_CreateWorkspace w c) (fun _ => None)
  end.

(** ** Nobody takes the lock away *)

#[local] Abbreviation fine := (issues (respects (keeps_spent (claimed lock)) lock)).

Lemma fine_bootstrap u n : fine (Store_BootstrapFirstUser u n).
Proof. apply fine_now. intros now. apply fine_fresh. intros id. apply issues_dbind; [|done]. auto 8 with dynamo. Qed.

Lemma rule_key_of i k k' : key_of i = Some k -> rule_key i = Ok k' -> k' = k.
Proof.
  unfold key_of, rule_key, S_attr at 1 2. destruct (i !! "PK") as [[]|]; try done. destruct (i !! "SK") as [[]|]; try done.
  intros Hk H. injection Hk as <-. cbv beta iota delta [rbind] in H. repeat (case_step H). congruence.
Qed.

Lemma fine_stamp rs now : fine (stamp_rules rs now).
Proof.
  induction rs as [|r rs IH]; [done|]. apply fine_fresh. intros id. by apply issues_dbind.
Qed.

Lemma fine_replace rs : fine (Organizations_ReplaceLoginRules rs).
Proof.
  apply issues_queried. intros l Hl. apply issues_decoded. intros ks Hks.
  apply fine_now. intros now. apply issues_dbind; [apply fine_stamp|]. intros rs'. apply issues_dbind; [|done].
  apply issues_batchWrite, Forall_app. split; apply Forall_map, Forall_forall; [|intros; apply leaves_put].
  intros k Hk. apply list_elem_of_lookup in Hk as [n Hn].
  destruct (Forall2_lookup_r _ _ _ _ _ Hks Hn) as (i & Hi%list_elem_of_lookup_2 & Hik).
  destruct (Hl i Hi) as (sk & Hkey & Hpre). apply leaves_delete.
  rewrite (rule_key_of _ _ _ Hkey Hik). intros E. assert (sk = skBootstrapLock) as -> by congruence. done.
Qed.

Lemma fine_found {A} (from : Item -> result StoreErr A) f :
  fine (do! o <- scanPages f (first_found from) pages None None; found o)%d.
Proof.
  apply issues_dbind; [|by intros []]. apply issues_scanPages. intros i s _ _. by apply issues_dbind.
Qed.

Lemma fine_collect {A} (from : Item -> result StoreErr A) f : fine (scanPages f (collect from) pages None []).
Proof. apply issues_scanPages. intros i s _ _. by apply issues_dbind. Qed.

Lemma fine_item {A} k (from : Item -> result StoreErr A) : fine (do! i <- getItem k; decode from i)%d.
Proof. by apply issues_dbind; [apply issues_getItem|]. Qed.

Lemma fine_update u : fine (Users_Update u).
Proof.
  apply issues_dbind; [apply fine_item|]. intros old. apply fine_now. intros now. case_goal.
  - apply issues_dbind; [|done]. apply issues_put, leaves_put.
  - apply fine_transact; [auto 10 with dynamo|]. intros [|e]; [done|]. by repeat case_goal.
Qed.

Lemma fine_by_id ids : fine (workspaces_by_id ids).
Proof.
  induction ids as [|id ids IH]; [done|]. apply issues_dbind; [apply fine_item|]. intros w. by apply issues_dbind.
Qed.

Lemma fine_delete_workspace id : fine (Workspaces_Delete id).
Proof.
  apply issues_queried. intros l Hl. apply issues_batchWrite, Forall_map, Forall_forall. intros i Hi.
  destruct (Hl i Hi) as (sk & Hk & _). apply leaves_delete. rewrite (itemKeyStrings_of _ _ Hk). discriminate.
Qed.

Lemma setup_fine o : fine (setup_client o).
Proof.
  destruct o; apply issues_outcome;
    first [apply fine_bootstrap|apply fine_replace|apply fine_update|apply fine_delete_workspace
          |apply fine_item|apply fine_found|apply fine_collect|idtac].
  - apply fine_now. intros now. apply issues_dbind; [|done]. apply issues_put, leaves_put.
  - apply issues_dbind; [apply issues_query|]. intros l. apply issues_decode_all.
  - apply fine_fresh. intros id. apply fine_now. intros now. apply issues_dbind; [|done]. auto with dynamo.
  - apply issues_dbind; [apply issues_getItem|]. intros i. apply issues_dbind; [done|]. intros. apply fine_item.
  - apply fine_fresh. intros id. apply fine_now. intros now. apply issues_dbind; [|done]. apply issues_put, leaves_put.
  - apply fine_now. intros now. apply issues_dbind; [|done]. apply issues_put, leaves_put.
  - apply fine_now. intros now. apply issues_dbind; [|done]. apply issues_put, leaves_put.
  - apply issues_delete, leaves_delete. discriminate.
  - apply fine_now. intros now. apply issues_update, leaves_update.
  - apply issues_dbind; [apply issues_query|]. intros l. apply issues_decode_all.
  - apply issues_dbind; [apply fine_collect|]. intros ids. apply fine_by_id.
  - apply fine_fresh. intros id. apply fine_now. intros now. apply issues_dbind; [|done]. auto with dynamo.
Qed.

Lemma setup_honest o : honest (claimed lock) lock (setup_client o).
Proof.
  destruct o as [u n| | | | | | | | | | | | | | | | | | | | |]; try apply honest_never.
  assert (forall cxs v, spends (claimed lock) lock (absent, Put lock_item) ->
    honest (claimed lock) lock (outcome (B := User) (run! transactOr ErrConflict ((absent, Put lock_item) :: cxs); dret v)%d Some)) as H.
  { intros cxs v Hs [[]|e]; [right|left; cbn; by destruct (transactionConditionFailed e)]. split; [|done].
    split; [done|]. by apply Exists_cons_hd. }
  pose proof (claim_spends lock lock_item eq_refl) as Hs. intros now. left.
  cbn [setup_client] in *. unfold Store_BootstrapFirstUser, fresh_id.
  destruct (u_ID u == ""); [intros id; left|]; by apply H.
Qed.

(** In a DynamoDB table, whatever calls any number of clients make on the
    organization, its users and its workspaces and however these are interleaved,
    repeated, lost or answered from stale copies, at most one of them becomes the first
    administrator, none if there was one before. *)
Theorem one_first_administrator ops db ps' db' (Hk : well_keyed db)
    (Hrun : rtc step (map setup_client ops, db) (ps', db')) :
  (length (List.filter won ps') <= 1)%nat
  /\ ((0 < length (List.filter won ps'))%nat -> ~ claimed lock (cur db !! lock) /\ claimed lock (cur db' !! lock))
  /\ (claimed lock (cur db !! lock) -> claimed lock (cur db' !! lock)).
Proof.
  apply (claimed_once lock (map setup_client ops)); [done| |done].
  apply Forall_map, Forall_forall. split; [apply setup_fine|apply setup_honest].
Qed.
End Bootstrap.

(** *** Two people sign up at once, while the organization is being read *)

Definition visitor (sub : string) : User :=
  mkUser "" ProviderGoogle sub (sub +:+ "@example.com") sub RoleMember UserStatusPending "" 0 0.
Definition sign_ups : list SetupCall :=
  [OBootstrapFirstUser (visitor "ann") "acme"; OBootstrapFirstUser (visitor "bob") "acme"; OGet].
Definition signing_up : list (prog (option User)) * DB := (map (setup_client 1) sign_ups, empty_db).

Lemma one_first_administrator_witness :
  (length (List.filter won (play (I := unary_ids) [0; 1; 0; 1; 1; 0; 2]%nat signing_up).1) <= 1)%nat
  /\ length (List.filter won (play (I := unary_ids) [0; 1; 0; 1; 1; 0; 2]%nat signing_up).1) = 1%nat.
Proof.
  split; [|by vm_compute].
  apply (one_first_administrator (I := unary_ids) 1 sign_ups empty_db
           (play (I := unary_ids) [0; 1; 0; 1; 1; 0; 2]%nat signing_up).1
           (play (I := unary_ids) [0; 1; 0; 1; 1; 0; 2]%nat signing_up).2).
  - apply well_keyed_all. by vm_compute.
  - rewrite <- surjective_pairing. apply play_steps.
Defined.

(** ** Login rules *)

Section Rules.
Context {I : IdGen}.

Lemma run_stamp rs now db : exists rs' db', run (stamp_rules rs now) db = (Ok rs', db')
  /\ cur db' = cur db /\ map lr_Ord rs' = map lr_Ord rs.
Proof.
  revert db. induction rs as [|r rs IH]; intros db; [by exists [], db|]. simpl. rewrite run_dbind, run_fresh_id.
  assert (forall id db0, cur db0 = cur db -> exists rs' db',
    run (do! rest <- stamp_rules rs now;
         dret (mkLoginRule id (lr_Ord r) (lr_RuleType r) (lr_Value r) (lr_Action r) (fromUnix now) (fromUnix now) :: rest))%d db0
    = (Ok rs', db') /\ cur db' = cur db /\ map lr_Ord rs' = lr_Ord r :: map lr_Ord rs) as Hs.
  { intros id db0 Hd. destruct (IH db0) as (rs' & db' & E & Hc & Ho). rewrite run_dbind, E. eexists _, db'.
    split; [done|]. split; [congruence|]. simpl. by f_equal. }
  destruct (lr_ID r == ""); by apply Hs.
Qed.

Lemma not_distinct x y xs ys k : write_key x = Some k -> write_key y = Some k -> x ∈ xs -> y ∈ ys ->
  distinct_keys (xs ++ ys) = false.
Proof.
  intros Hx Hy Hxs Hys. apply not_true_is_false. intros H. apply distinct_spec in H as [H _].
  rewrite map_app in H. apply NoDup_app in H as (_ & H & _).
  apply (H (Some k)); apply list_elem_of_fmap; [by exists x|by exists y].
Qed.

(** A batch with two writes on one key is refused. *)
Lemma run_refused xs db : distinct_keys xs = false -> (0 < length xs <= 25)%nat ->
  run (batchWrite xs) db = (Err ErrBackend, db).
Proof.
  intros Hd Hl. unfold batchWrite.
  assert (chunks (length xs) 25 xs = [xs]) as ->.
  { destruct xs as [|x xs]; [simpl in Hl; lia|]. cbn [length chunks]. rewrite take_ge, drop_ge by lia. by destruct (length xs). }
  cbn [batch_chunks]. rewrite run_dbind. destruct xs as [|x xs]; [simpl in Hl; lia|]. cbn [batch_chunk length run exec].
  unfold batch_write. by rewrite Hd.
Qed.

Lemma S_of_enum {A} (parse : string -> option A) i a x : enum_attr parse i a = Ok x -> exists s, S_attr i a = Ok s.
Proof. unfold enum_attr. destruct (S_attr i a); [eauto|done]. Qed.

Lemma rule_key_ok i k lr : key_of i = Some k -> loginRuleFromItem i = Ok lr -> rule_key i = Ok k.
Proof.
  intros Hk H. unfold loginRuleFromItem in H.
  apply rbind_ok in H as (id & E1 & H). apply rbind_ok in H as (o & E2 & H). apply rbind_ok in H as (t & E3 & H).
  apply rbind_ok in H as (v & E4 & H). apply rbind_ok in H as (a & E5 & H). apply rbind_ok in H as (c & E6 & H).
  apply rbind_ok in H as (u & E7 & _). apply S_of_enum in E3 as [t' E3]. apply S_of_enum in E5 as [a' E5].
  unfold key_of in Hk. unfold rule_key, S_attr at 1 2. destruct (i !! "PK") as [[]|]; try done.
  destruct (i !! "SK") as [[]|]; try done. injection Hk as <-. simpl. by rewrite E1, E2, E3, E4, E5, E6, E7.
Qed.

Lemma rule_keys_ok l old : (forall i, i ∈ l -> is_Some (key_of i)) -> Forall2 (fun i lr => loginRuleFromItem i = Ok lr) l old ->
  exists ks, forall db, run (decode_all rule_key l) db = (Ok ks, db)
    /\ length ks = length l /\ forall i k, i ∈ l -> key_of i = Some k -> k ∈ ks.
Proof.
  intros Hk. induction 1 as [|i lr l old Hi Hl IH].
  - exists []. intros db. split_and!; try done. by intros i k ?%not_elem_of_nil.
  - destruct IH as [ks IH]; [intros j Hj; apply Hk; by right|]. destruct (Hk i) as [k Ek]; [by left|].
    pose proof (rule_key_ok i k lr Ek Hi) as Er. exists (k :: ks). intros db. destruct (IH db) as (E & Hn & Hin).
    simpl. rewrite run_dbind. unfold decode. simpl. rewrite Er, run_dbind, E. split_and!; [done|simpl; lia|].
    intros j kj [->|Hj]%elem_of_cons Hkj; [|right; by eapply Hin]. assert (kj = k) as -> by congruence. by left.
Qed.

Lemma query_complete t sk i : t !! (pkOrg, sk) = Some i -> has_prefix sk "RULE#" = true -> i ∈ query_items rules_query t.
Proof.
  intros Hi Hs. unfold query_items. simpl. apply list_elem_of_fmap. exists ((pkOrg, sk), i). split; [done|].
  apply list_elem_of_In, filter_In. split.
  - apply list_elem_of_In. unfold in_order. by rewrite merge_sort_Permutation, elem_of_map_to_list.
  - unfold selects. cbn [rules_query q_pk q_prefix q_before fst snd]. by rewrite Hs.
Qed.

(** With DynamoDB as its store, an organization that has a login rule at a position
    cannot have its rules replaced by a list with a rule at that position: the batch that
    would delete and put the same item is refused, and the rules stay as they are. *)
Theorem rules_not_replaced (old rules : list LoginRule) db ord i
    (Hk : well_keyed db)
    (Hold : run Organizations_ListLoginRules db = (Ok old, db))
    (Hi : cur db !! (pkOrg, skLoginRule ord) = Some i)
    (Hr : ord ∈ map lr_Ord rules)
    (Hn : (length old + length rules <= 25)%nat) :
  (run (Organizations_ReplaceLoginRules rules) db).1 = Err ErrBackend
  /\ cur (run (Organizations_ReplaceLoginRules rules) db).2 = cur db.
Proof.
  assert (keyed (cur db)) as Hc by (by inversion Hk).
  set (l := query_items rules_query (cur db)) in *.
  assert (forall j, j ∈ l -> is_Some (key_of j)) as Hkeys.
  { intros j (sk & Hj & _)%elem_of_query. exists (q_pk rules_query, sk). by apply Hc. }
  assert (Forall2 (fun j lr => loginRuleFromItem j = Ok lr) l old) as Hdec.
  { unfold Organizations_ListLoginRules in Hold. rewrite run_dbind in Hold. cbn [run exec query] in Hold.
    unfold reading, paged, seen, calm in Hold. cbn [w_fault w_page w_view default] in Hold. cbn [run dret] in Hold. fold l in Hold.
    destruct (decode_all_ret loginRuleFromItem l) as (r & Er & Hr'). rewrite Er in Hold. simpl in Hold. injection Hold as ->.
    by apply Hr'. }
  destruct (rule_keys_ok l old Hkeys Hdec) as [ks Hks].
  assert (run (Organizations_ReplaceLoginRules rules) db
          = let '(r, db1) := run (stamp_rules rules (toUnix (clock db))) db in
            match r with
            | Ok rs => (Err ErrBackend, db1)
            | Err e => (Err e, db1)
            end) as ->; [|by destruct (run_stamp rules (toUnix (clock db)) db) as (rs & db1 & -> & Hcur & _)].
  unfold Organizations_ReplaceLoginRules. rewrite run_dbind. cbn [run exec query].
  unfold reading, paged, seen, calm. cbn [w_fault w_page w_view default]. cbn [run dret]. fold l. rewrite run_dbind.
  destruct (Hks db) as (-> & Hlen & Hin). rewrite run_dbind, run_nowUnix, run_dbind.
  destruct (run_stamp rules (toUnix (clock db)) db) as (rs & db1 & -> & _ & Hord). rewrite run_dbind.
  assert ((pkOrg, skLoginRule ord) ∈ ks) as Hdel.
  { apply (Hin i); [apply (query_complete _ (skLoginRule ord)); [done|apply has_prefix_spec; by eexists]|by apply Hc]. }
  rewrite <- Hord in Hr. apply list_elem_of_fmap in Hr as (lr & Elr & Hlr).
  rewrite run_refused; [done| |].
  - eapply (not_distinct (Delete (pkOrg, skLoginRule ord)) (Put (loginRule_item lr (toUnix (clock db))))
              _ _ (pkOrg, skLoginRule ord)); [done|simpl; by rewrite Elr| |]; apply list_elem_of_fmap; eauto.
  - rewrite length_app, !length_map, Hlen, (Forall2_length _ _ _ Hdec).
    apply (f_equal length) in Hord. rewrite !length_map in Hord. rewrite Hord.
    destruct ks; [by apply not_elem_of_nil in Hdel|]. rewrite <- (Forall2_length _ _ _ Hdec), <- Hlen in *. simpl in *. lia.
Qed.
End Rules.

(** *** One rule for another *)

Definition old_rules : list LoginRule :=
  [mkLoginRule "R0" 0 LoginRuleTypeEmailDomain "example.com" LoginRuleActionAllow 0 0].
Definition new_rules : list LoginRule :=
  [mkLoginRule "" 0 LoginRuleTypeDefault "" LoginRuleActionDeny 0 0].
Definition ruled_db : DB := (run (I := unary_ids) (Organizations_ReplaceLoginRules old_rules) empty_db).2.
Definition old_rule : Item := loginRule_item (mkLoginRule "R0" 0 LoginRuleTypeEmailDomain "example.com" LoginRuleActionAllow 0 0) 0.

Lemma rules_not_replaced_witness :
  is_ok (run (I := unary_ids) (Organizations_ReplaceLoginRules old_rules) empty_db).1 = true
  /\ (run (I := unary_ids) (Organizations_ReplaceLoginRules new_rules) ruled_db).1 = Err ErrBackend
  /\ cur (run (I := unary_ids) (Organizations_ReplaceLoginRules new_rules) ruled_db).2 = cur ruled_db.
Proof.
  split; [by vm_compute|].
  apply (rules_not_replaced (I := unary_ids)
           [mkLoginRule "R0" 0 LoginRuleTypeEmailDomain "example.com" LoginRuleActionAllow 0 0] new_rules ruled_db 0 old_rule).
  - apply well_keyed_all. by vm_compute.
  - by vm_compute.
  - by vm_compute.
  - by left.
  - by vm_compute; lia.
Defined.
